(* ===== verification/_CoqProject ===== *)
-Q . S2P
Prelude.v
BTreeMap.v
FixedPoint.v
Helpers256.v
FixedU256.v
Units.v
OrderTypes.v
SwapTypes.v
Chunks.v
Aggregator.v
ChunkFitting.v
Selection.v
AggregatorInv.v
Aggregated.v
SmartSplit.v
SplitBounds.v
SplitSamples.v
PoolMath.v
DataLayer.v
StorageProps.v
CacheStorage.v
CacheProps.v
CacheLayer.v
CacheRefine.v
LayerSpec.v
World.v
Permissions.v
TradingPair.v
Payments.v
SampleLedger.v
OrderBook.v
Matching.v
Priority.v
CrossSpread.v
BookState.v
Solvency.v
Operations.v
WorldRefine.v
Effects.v
Lots.v
Scheduler.v
Expiration.v
Alignment.v
Pallet.v
Soundness.v
PalletProps.v
StaleCursor.v
LiquiditySource.v
Quotes.v
Denomination.v
Technical.v
DexApi.v
LiquidityProxy.v
ProxyPaths.v
ProxySwaps.v
BookSource.v
ProxySamples.v
PoolXyk.v
PoolSwaps.v
PoolShares.v
PoolLiquidity.v
PoolSamples.v
PoolSource.v
ProxyPools.v
Farming.v
FarmingProps.v
FarmingRewards.v
Locker.v
LockerProps.v
FarmingFaults.v
FarmingSamples.v
