(* ===== verification/Prelude.v ===== *)
(** * Verification of the trading pallets of SORA v2

    The program is the runtime of the SORA v2 network, a blockchain built from
    pallets ([pallets/]) over shared code ([common/]).  This development models
    how assets are traded: the order book ([pallets/order-book]), the pools
    ([pallets/pool-xyk]) with the farms and locks of their tokens
    ([pallets/demeter-farming-platform], [pallets/ceres-liquidity-locker]), the
    proxy that routes swaps over them ([pallets/liquidity-proxy],
    [pallets/dex-api]) and the code they stand on.

    ** The parts and how they interact

    Users reach an order book through the pallet ([lib.rs]).  An [OrderBook]
    ([order_book.rs]) computes what an order does to the market (a
    [MarketChange] with its [Payment], [types.rs]) by reading a data layer, and
    then applies the change: it moves funds to and from the account of the
    book, writes the data layer, and keeps the agenda of expirations.  The data
    layer has two implementations: [StorageDataLayer], which reads and writes
    chain storage, and [CacheDataLayer], which collects writes and commits them
    at the end.  At the start of every block the scheduler ([scheduler.rs])
    expires orders and aligns the orders of updated books.

    A pool of [pool-xyk] holds two assets and trades them at a constant
    product; its operations are actions that are prepared, validated and then
    carried out by [pallets/technical].  Its amounts are 256-bit fixed point
    numbers ([FixedU256] of [common/src/fixed.rs]).  Providers can stake the tokens of a
    pool in a farm, where they earn rewards, or lock them until a time; a withdrawal
    from the pool leaves what is staked or locked, and a lock, whose fee is paid
    in pool tokens, cuts the stakes.

    The order book and the pools are liquidity sources ([common/src/traits.rs]).
    A swap of the proxy looks for paths between two assets, quotes every pair of a
    path, takes the best path and exchanges along it.  The amount of a pair is split
    over the sources by the liquidity aggregator, from quotations in chunks
    ([common/src/alt.rs]).  The proxy reaches the sources through [dex-api], which
    dispatches on their type.

    ** Files

    Shared code:
    - [Prelude.v]: the state-and-error monad of the model with its tactics
      ([run] inverts a successful run, [exec] executes one), machine integers,
      sums over lists, lemmas on lists and finite maps.
    - [BTreeMap.v]: [BTreeMap] and [BoundedBTreeMap] as sorted association
      lists; the order of iteration matters to the matching.
    - [FixedPoint.v]: [vendor/fixnum] at 18 decimals and [FixedWrapper]
      ([common/src/fixed_wrapper.rs]), with their 128-bit overflow.
    - [Helpers256.v], [FixedU256.v]: 256-bit helpers with a 512-bit product
      ([common/src/arithmetic/helpers_256bit.rs]), fixed point numbers over them
      ([common/src/fixed.rs]) and [FixedWrapper256] ([common/src/fixed_wrapper_u256.rs]).
    - [Units.v]: [BalanceUnit] ([common/src/balance_unit.rs]).
    - [OrderTypes.v]: the data of [types.rs], [limit_order.rs],
      [market_order.rs], [fee_calculator.rs]; the errors of the pallets; the
      constants of the runtime.
    - [SwapTypes.v]: amounts, outcomes and fees of swaps
      ([common/src/swap_amount.rs], [common/src/outcome_fee.rs]) and the chunks
      of a quotation.

    Data layers:
    - [DataLayer.v]: the storages, the interface [DataLayer] of [traits.rs] and
      [storage_data_layer.rs].  [StorageProps.v]: the invariant [Inv] of the
      storages and the contracts of the operations.
    - [CacheStorage.v], [CacheProps.v]: [common/src/cache_storage] and its
      refinement of the cached map.
    - [CacheLayer.v], [CacheRefine.v]: [cache_data_layer.rs] and the simulation
      of every operation.
    - [LayerSpec.v]: simulation of stateful code, the interface [LayerRefines]
      between a data layer and the storage layer, and its instance for the
      cache.

    Order book:
    - [World.v]: what an order book reaches besides its data: balances,
      technical accounts, agenda, events.  [Payments.v], [SampleLedger.v]: the
      effect of payments; a concrete ledger for the witnesses.
    - [OrderBook.v]: [order_book.rs].
    - [Matching.v], [Priority.v], [CrossSpread.v]: the impact of a market order
      as the fill of a price-time queue; orders that cross the spread.
    - [BookState.v], [Solvency.v], [Operations.v]: the invariant [Good] and
      its preservation by every operation.
    - [WorldRefine.v]: the operations over the cache against the operations
      over storage.
    - [Effects.v]: the exact effect of the operations on orders and balances.
    - [Scheduler.v]: [scheduler.rs] and the block hook.  [Expiration.v],
      [Alignment.v]: what the expiration and the alignment of a block do.
    - [Lots.v]: operations keep the orders of other books, and whole lots.
    - [Permissions.v]: [pallets/permissions].  [TradingPair.v]:
      [pallets/trading-pair] and [pallets/dex-manager].
    - [Pallet.v]: the extrinsics of [lib.rs], with the technical accounts they
      register.  [Soundness.v], [PalletProps.v]: the invariant [Sound] of the
      whole pallet and the theorems on histories of calls and blocks.  [StaleCursor.v]:
      what the cursor of a deleted book does to alignment.
    - [LiquiditySource.v], [Quotes.v]: the order book as a liquidity source.
      [Denomination.v]: its redenomination.

    Pools:
    - [Technical.v]: [pallets/technical] and the transfers, mints and burns of
      [pallets/assets].
    - [PoolMath.v]: [math.rs] and [bounds.rs] of [pool-xyk], with the exact
      rational value of every formula.
    - [PoolXyk.v]: the pallet with its actions.  [PoolSwaps.v]: the product of
      the reserves and the effect of a swap.  [PoolShares.v]: the issuance of a
      pool and the shares of its providers.  [PoolLiquidity.v]: deposits and
      withdrawals.  [PoolSamples.v]: a small pool for the witnesses.
      [PoolSource.v]: the pallet as a liquidity source of the proxy.
    - [Farming.v]: [pallets/demeter-farming-platform].  [FarmingProps.v]: the
      invariant [farm_ok] of stakes and rewards, kept by the calls.
      [FarmingRewards.v]: the reward hooks, and all histories.
    - [Locker.v], [LockerProps.v]: [pallets/ceres-liquidity-locker] and what a lock
      does to the pool and its farms.  [FarmingFaults.v]: where farms and locks go
      wrong.  [FarmingSamples.v]: a farm over the small pool, and the witnesses.

    Routing:
    - [Chunks.v]: arithmetic, alignment and verification of chunks
      ([common/src/alt.rs]).
    - [Aggregator.v]: [pallets/liquidity-proxy/src/liquidity_aggregator] and
      [new_smart_split].  [ChunkFitting.v], [Selection.v]: one step of the
      aggregation.  [AggregatorInv.v], [Aggregated.v]: its invariant, the loops and
      their termination.  [SmartSplit.v]: the liquidity that a split uses, and its
      termination.  [SplitBounds.v]: the amounts of a split, for any quotations.
      [SplitSamples.v]: runs and witnesses.
    - [DexApi.v]: the interface [LiquiditySource], the filter of sources and
      [pallets/dex-api].
    - [LiquidityProxy.v]: [pallets/liquidity-proxy/src/lib.rs].
      [ProxyPaths.v]: the paths and the best one.  [ProxySwaps.v]: what a swap and a
      batch of swaps do to balances, for sources that satisfy [SourcesLaws], which
      [PoolSource.v] proves of the pools.  [BookSource.v]: the exchanges of the order
      book are as it demands.  [ProxySamples.v]: two linear sources, for the paths.
      [ProxyPools.v]: swaps over two pools.

    ** What the theorems show

    Storage: the aggregated volumes, the price queues and the lists of a user's
    orders agree with the open orders ([Inv]); every operation of the storage
    layer is characterised on every branch, errors included.

    Cache: reading through a cache and committing it is reading and writing the
    storage underneath, for the generic cached maps, for the data layer, and
    for whole operations of an order book.

    Matching: a market order takes orders by price and then by age, the last
    one in part, never more than its amount.

    Operations: along every run the storage invariant holds, exactly the open
    orders are scheduled to expire, and the account of every book holds at
    least what its open orders have locked; each operation moves exactly the
    stated amounts between the stated accounts.

    Pallet: every history of extrinsics, blocks whose alignment meets no error, and
    outside payments keeps the pallet sound; orders are cancelled only by their
    owners, books deleted only when empty, nothing is traded while a book is aligned;
    expiration and alignment make progress, and alignment ends. Three theorems show
    what goes wrong when an expiration or an alignment fails: an order whose
    expiration failed cannot be cancelled any more, refunds of a failed alignment are
    paid without their changes, and the cursor of a deleted book stops the alignment
    of the books after it.

    Registries: permissions are given only by owners; trading pairs are well
    formed and switching their sources is undone by switching back.

    Pools: the 256-bit routines compute the exact rounded results; the shares of
    the providers always add up to the issuance; a swap does not lower the product
    of the reserves and pays what was quoted; deposits and withdrawals are fair to
    the other providers, a round trip makes no profit, and locked liquidity stays.

    Farms and locks: in a pool that is the only one with its key the stakes stay
    within its total and the rewards of its users within the rewards booked for it, so
    that rewards are paid on request when the pallet has the funds; a lock of a provider
    who holds what it has locked takes unlocked tokens only, and stakes and shares stay
    consistent.  General theorems show that a provider can lock tokens twice, that
    rewards can be paid from the stakes of others, that a pool added again has its total
    underflow, and that a redenomination stores the data of one token under another.

    Routing: the parts of a split never exceed a desired input or miss a desired
    output, and differ from it by at most the tolerated slippage for every aggregation
    that is made; they use only verified liquidity within the limits of its source, and
    the aggregation terminates; the paths between two assets are simple and the best one
    is taken; a swap takes no more than its event says and keeps the limits of the caller,
    and a batch stays within its maximum.  A desired output is received exactly unless
    the order book takes part, which rounds it down to lots.  Closed runs show where the
    minimum of a source, or the limit of a step of a route, is not respected.

    ** Bounds

    A limit order of the model is [order_ok]: its amounts and price are in the
    ranges that validation accepts.  No fuel is used in the order book: its
    loops run over finite lists.  The loop of [service_expiration] runs over
    the blocks from the first incomplete one to the current one, and the model
    bounds it by their number.  The theorems on placements assume that no balance
    reaches the last value of [u128] and that the ids of the book are not used up;
    those on blocks that the block number is below the last value of [u32].
    Histories of farms are those in which totals and rewards fit in [u128] and the
    authority overwrites totals and stakes only with values that keep the stakes within
    the total; the redenomination is modelled, but not part of them, and a pool that was
    added again under the key of a removed one is not covered.

    The loop of [aggregate_amount] has no evident bound in the code; the model gives
    it fuel, with a value [OutOfFuel] of its own.  Every iteration consumes quoted
    liquidity or locks a source, so the volume of the quoted chunks bounds them
    ([smart_split_terminates]).  That theorem and the one on the liquidity of a split assume
    quotations whose chunks the 128-bit fixed point arithmetic can rescale ([well_sized]):
    beyond that size [common/src/alt.rs] falls back to another rounding, which can exceed
    the quoted input.  The amounts of a split are bounded without that assumption
    ([SplitBounds.v]).  The theorems on quotes and exchanges of the order book are for
    divisible base assets and resting prices that are exact on the lot grid
    ([exact_prices]); placement ensures this for the current lot step, an update of the
    step does not check it again.  Those on swaps of pools are for pools without a
    chameleon asset.  The square root and
    the division of the 256-bit helpers run a fixed number of steps.

    ** Not modelled

    The framework (storage hashing, weights, origins, transactional dispatch), the
    currencies behind the assets pallet and the derivation of technical accounts are
    not part of the repository: they are the parameters [StorageKeys], [Weights],
    [MultiCurrency], [Issuance], [TechAccounts], [TechHash], [Origins], [AssetInfo]
    and [Providers], with the laws the code relies on. The liquidity sources of the
    proxy are arguments with the interface of their trait, because the proxy reaches
    them only through it; the pools are an instance, without a chameleon asset. The
    bonding curve, the synthetic assets and the oracles behind them are not modelled.
    Weights of the pallets, migrations, genesis configurations and the remaining
    pallets, which the modelled ones do not call, are not modelled. *)

From stdpp Require Export base tactics list gmap sets.
From Stdlib Require Export ZArith.
From Stdlib Require Import Lia.

Open Scope Z_scope.

#[global] Arguments Z.eqb : simpl never.
#[global] Arguments Z.leb : simpl never.
#[global] Arguments Z.ltb : simpl never.
#[global] Arguments Z.sgn : simpl never.
#[global] Arguments Z.compare : simpl never.

(** ** Rust's [Result] and the state-and-error monad

    A fallible pure function returns [result E A].  A function that also
    mutates state returns [M S E A]: the state is returned beside the result
    on both branches, because a Rust function that fails half way keeps the
    writes it has made (only the caller may roll them back). *)

Inductive result (E A : Type) : Type :=
| Ok (a : A)
| Err (e : E).
Arguments Ok {E A} a.
Arguments Err {E A} e.

Definition M (S E A : Type) : Type := S → result E A * S.

#[export] Instance result_ret {E} : MRet (result E) := λ _ a, Ok a.
#[export] Instance result_bind {E} : MBind (result E) := λ _ _ f r,
  match r with Ok a => f a | Err e => Err e end.
#[export] Instance result_throw {E} : MThrow E (result E) := λ _ e, Err e.

#[export] Instance M_ret {S E} : MRet (M S E) := λ _ a s, (Ok a, s).
#[export] Instance M_bind {S E} : MBind (M S E) := λ _ _ f c s,
  match c s with
  | (Ok a, s') => f a s'
  | (Err e, s') => (Err e, s')
  end.
#[export] Instance M_throw {S E} : MThrow E (M S E) := λ _ e s, (Err e, s).

(** [ensure!(cond, error)]. *)
Definition ensure {E} {F : Type → Type} `{MRet F, MThrow E F} (b : bool) (e : E) : F unit :=
  if b then mret tt else mthrow e.

(** [opt.ok_or(error)]. *)
Definition ok_or {E A} {F : Type → Type} `{MRet F, MThrow E F} (o : option A) (e : E) : F A :=
  match o with Some a => mret a | None => mthrow e end.

(** [res.map_err(|_| error)]. *)
Definition map_err {S E E' A} (c : M S E A) (f : E → E') : M S E' A := λ s,
  match c s with
  | (Ok a, s') => (Ok a, s')
  | (Err e, s') => (Err (f e), s')
  end.

(** A pure result used in a stateful function: [pure_expr?]. *)
Definition lift {S E A} (r : result E A) : M S E A := λ s, (r, s).

Definition get_state {S E} : M S E S := λ s, (Ok s, s).
Definition put_state {S E} (s' : S) : M S E unit := λ _, (Ok tt, s').
Definition modify {S E} (f : S → S) : M S E unit := λ s, (Ok tt, f s).

(** [for x in xs { body(x)?; }]. *)
Fixpoint for_each {S E A} (xs : list A) (body : A → M S E unit) : M S E unit :=
  match xs with
  | [] => mret tt
  | x :: xs' => body x ≫= λ _, for_each xs' body
  end.

(** Runs a computation on a component of a larger state. *)
Definition zoom {S T E A} (get : S → T) (set : T → S → S) (c : M T E A) : M S E A := λ s,
  let '(r, t) := c (get s) in (r, set t s).

(** ** Unsigned machine integers *)

Definition u128_max : Z := 340282366920938463463374607431768211455.
Definition i128_max : Z := 170141183460469231731687303715884105727.
Definition i128_min : Z := -170141183460469231731687303715884105728.
Definition u64_max : Z := 18446744073709551615.
Definition u32_max : Z := 4294967295.

Definition is_u128 (x : Z) : Prop := 0 ≤ x ≤ u128_max.

Definition fits (max x : Z) : bool := (0 <=? x) && (x <=? max).

(** [checked_add], [checked_sub], [checked_mul] of [u128]. *)
Definition checked (max x : Z) : option Z := if fits max x then Some x else None.
Definition u128_checked_add (x y : Z) : option Z := checked u128_max (x + y).
Definition u128_checked_sub (x y : Z) : option Z := checked u128_max (x - y).
Definition u128_checked_mul (x y : Z) : option Z := checked u128_max (x * y).
Definition u128_checked_div (x y : Z) : option Z := if y =? 0 then None else Some (x / y).

(** [saturating_*] of unsigned integers with the given maximum. *)
Definition sat_add (max x y : Z) : Z := Z.min max (x + y).
Definition sat_sub (x y : Z) : Z := Z.max 0 (x - y).
Definition sat_mul (max x y : Z) : Z := Z.min max (x * y).

(** The unchecked operators wrap around in a release build. *)
Definition u128_wrap (x : Z) : Z := x mod (u128_max + 1).

(** ** Tactics *)

(** Case analysis on the innermost scrutinee of a hypothesis or of the goal. *)
Ltac case_step :=
  match goal with
  | H : context [match ?x with _ => _ end] |- _ =>
      lazymatch x with
      | context [match _ with _ => _ end] => fail
      | _ => let E := fresh "E" in destruct x eqn:E
      end
  | |- context [match ?x with _ => _ end] =>
      lazymatch x with
      | context [match _ with _ => _ end] => fail
      | _ => let E := fresh "E" in destruct x eqn:E
      end
  end.

(** Turns boolean comparisons on [Z] into propositions. *)
Ltac zbool :=
  repeat match goal with
  | H : (_ && _) = true |- _ => apply andb_prop in H as [? ?]
  | H : (_ && _) = false |- _ => apply andb_false_iff in H
  | H : (_ || _) = true |- _ => apply orb_prop in H
  | H : (_ || _) = false |- _ => apply orb_false_elim in H as [? ?]
  | H : negb _ = true |- _ => apply negb_true_iff in H
  | H : negb _ = false |- _ => apply negb_false_iff in H
  | H : (_ <=? _) = true |- _ => apply Z.leb_le in H
  | H : (_ <=? _) = false |- _ => apply Z.leb_gt in H
  | H : (_ <? _) = true |- _ => apply Z.ltb_lt in H
  | H : (_ <? _) = false |- _ => apply Z.ltb_ge in H
  | H : (_ =? _) = true |- _ => apply Z.eqb_eq in H
  | H : (_ =? _) = false |- _ => apply Z.eqb_neq in H
  end.

Create HintDb rust discriminated.

(** *** Inversion of monadic runs *)

Section monad.
Context {S E : Type}.

Lemma M_bind_ok {A B} (f : A → M S E B) (c : M S E A) s b s' :
  mbind f c s = (Ok b, s') ↔ ∃ a s1, c s = (Ok a, s1) ∧ f a s1 = (Ok b, s').
Proof.
  unfold mbind, M_bind. destruct (c s) as [[a|e] s1]; split.
  - eauto.
  - intros (? & ? & [= -> ->] & ?). done.
  - done.
  - intros (? & ? & [=] & ?).
Qed.

Lemma M_bind_run_ok {A B} (f : A → M S E B) (c : M S E A) s a s1 :
  c s = (Ok a, s1) → mbind f c s = f a s1.
Proof. intros Hc. unfold mbind, M_bind. by rewrite Hc. Qed.

Lemma M_bind_run_err {A B} (f : A → M S E B) (c : M S E A) s e s1 :
  c s = (Err e, s1) → mbind f c s = (Err e, s1).
Proof. intros Hc. unfold mbind, M_bind. by rewrite Hc. Qed.

Lemma M_bind_err {A B} (f : A → M S E B) (c : M S E A) s e s' :
  mbind f c s = (Err e, s') ↔
  c s = (Err e, s') ∨ ∃ a s1, c s = (Ok a, s1) ∧ f a s1 = (Err e, s').
Proof. unfold mbind, M_bind. destruct (c s) as [[a|e'] s1]; naive_solver. Qed.

Lemma M_ensure_ok b (e : E) (s s' : S) u :
  ensure (F := M S E) b e s = (Ok u, s') ↔ b = true ∧ s' = s.
Proof. destruct b, u; cbv; naive_solver. Qed.

Lemma M_ok_or_ok {A} (o : option A) (e : E) (s s' : S) a :
  ok_or (F := M S E) o e s = (Ok a, s') ↔ o = Some a ∧ s' = s.
Proof. destruct o; cbv; naive_solver. Qed.

Lemma M_ret_ok {A} (a a' : A) (s s' : S) :
  mret (M := M S E) a s = (Ok a', s') ↔ a' = a ∧ s' = s.
Proof. cbv. naive_solver. Qed.

Lemma M_lift_ok {A} (r : result E A) a (s s' : S) :
  lift r s = (Ok a, s') ↔ r = Ok a ∧ s' = s.
Proof. cbv. naive_solver. Qed.

Lemma M_throw_ok {A} (e : E) (a : A) (s s' : S) :
  mthrow (M := M S E) e s = (Ok a, s') ↔ False.
Proof. cbv. naive_solver. Qed.

Lemma map_err_ok {E' A} (c : M S E' A) (f : E' → E) s a s' :
  map_err c f s = (Ok a, s') ↔ c s = (Ok a, s').
Proof. unfold map_err. destruct (c s) as [[]]; naive_solver. Qed.

(** Rule for a loop: an invariant of the remaining list and the state. *)
Lemma for_each_ok_ind {A} (P : list A → S → Prop) (body : A → M S E unit) xs s s' :
  (∀ x xs' s1 s2, P (x :: xs') s1 → body x s1 = (Ok tt, s2) → P xs' s2) →
  P xs s → for_each xs body s = (Ok tt, s') → P [] s'.
Proof.
  intros Hstep. revert s. induction xs as [|x xs IH]; intros s HP; simpl.
  - rewrite M_ret_ok. by intros [_ ->].
  - rewrite M_bind_ok. intros ([] & s1 & Hb & Hr). eauto.
Qed.

(** Total rule: when every step succeeds and keeps the invariant, so does the
    loop. *)
Lemma for_each_total {A} (P : list A → S → Prop) (body : A → M S E unit) xs s :
  (∀ x xs' s1, P (x :: xs') s1 → ∃ s2, body x s1 = (Ok tt, s2) ∧ P xs' s2) →
  P xs s → ∃ s', for_each xs body s = (Ok tt, s') ∧ P [] s'.
Proof.
  intros Hstep. revert s. induction xs as [|x xs IH]; intros s HP; simpl.
  - by exists s.
  - destruct (Hstep x xs s HP) as (s2 & Hb & HP2).
    destruct (IH s2 HP2) as (s' & Hr & ?). exists s'.
    by rewrite (M_bind_run_ok _ _ _ _ _ Hb).
Qed.
End monad.

Lemma result_bind_ok {E A B} (f : A → result E B) (r : result E A) b :
  r ≫= f = Ok b ↔ ∃ a, r = Ok a ∧ f a = Ok b.
Proof. destruct r; simpl; naive_solver. Qed.

Lemma result_ensure_ok {E} b (e : E) u : ensure (F := result E) b e = Ok u ↔ b = true.
Proof. destruct b, u; cbv; naive_solver. Qed.

Lemma result_ok_or_ok {E A} (o : option A) (e : E) a :
  ok_or (F := result E) o e = Ok a ↔ o = Some a.
Proof. destruct o; cbv; naive_solver. Qed.

Lemma result_ret_ok {E A} (a a' : A) : mret (M := result E) a = Ok a' ↔ a' = a.
Proof. cbv. naive_solver. Qed.

Lemma M_get_state_ok {S E} (s s' : S) a : get_state (E := E) s = (Ok a, s') ↔ a = s ∧ s' = s.
Proof. cbv. naive_solver. Qed.

Lemma M_put_state_ok {S E} (s s' s'' : S) a : put_state (E := E) s'' s = (Ok a, s') ↔ s' = s''.
Proof. destruct a. cbv. naive_solver. Qed.

Lemma M_modify_ok {S E} (f : S → S) (s s' : S) a :
  modify (E := E) f s = (Ok a, s') ↔ s' = f s.
Proof. destruct a. cbv. naive_solver. Qed.

Lemma zoom_ok {S T E A} (get : S → T) (set : T → S → S) (c : M T E A) s a s' :
  zoom get set c s = (Ok a, s') ↔ ∃ t, c (get s) = (Ok a, t) ∧ s' = set t s.
Proof. unfold zoom. destruct (c (get s)) as [[] t]; naive_solver. Qed.

(** [run_ok] is the database of the inversion lemmas of successful runs;
    [run] inverts every run in the context with it, step by step. *)
Create Rewrite HintDb run_ok.
#[export] Hint Rewrite @M_bind_ok @M_ensure_ok @M_ok_or_ok @M_ret_ok @M_lift_ok @M_throw_ok
  @map_err_ok @M_get_state_ok @M_put_state_ok @M_modify_ok @zoom_ok @result_bind_ok
  @result_ensure_ok @result_ok_or_ok @result_ret_ok : run_ok.

Ltac run :=
  repeat match goal with
  | H : ∃ _, _ |- _ => destruct H
  | H : _ ∧ _ |- _ => destruct H
  | H : False |- _ => destruct H
  | u : unit |- _ => destruct u
  | H : _ ≫= _ = Some _ |- _ => rewrite bind_Some in H
  | H : _ = Ok _ |- _ => progress autorewrite with run_ok in H
  | H : _ = (Ok _, _) |- _ => progress autorewrite with run_ok in H
  | _ => progress simplify_eq
  end.

(** Forward execution: the first step of a block, when it is known. *)
Section exec.
Context {S E : Type}.

Lemma exec_modify {B} (k : unit → M S E B) f s : mbind k (modify f) s = k tt (f s).
Proof. done. Qed.
Lemma exec_get_state {B} (k : S → M S E B) s : mbind k get_state s = k s s.
Proof. done. Qed.
Lemma exec_put_state {B} (k : unit → M S E B) s s' : mbind k (put_state s') s = k tt s'.
Proof. done. Qed.
Lemma exec_ret {A B} (k : A → M S E B) a s : mbind k (mret a) s = k a s.
Proof. done. Qed.
Lemma exec_some {A B} (k : A → M S E B) a (e : E) s : mbind k (ok_or (Some a) e) s = k a s.
Proof. done. Qed.
Lemma exec_none {A B} (k : A → M S E B) (e : E) s : mbind k (ok_or None e) s = (Err e, s).
Proof. done. Qed.
Lemma exec_ensure_true {B} (k : unit → M S E B) (e : E) s : mbind k (ensure true e) s = k tt s.
Proof. done. Qed.
Lemma exec_ensure_false {B} (k : unit → M S E B) (e : E) s : mbind k (ensure false e) s = (Err e, s).
Proof. done. Qed.
Lemma exec_lift {A B} (k : A → M S E B) a s : mbind k (lift (Ok a)) s = k a s.
Proof. done. Qed.
Lemma exec_lift_err {A B} (k : A → M S E B) (e : E) s : mbind k (lift (Err e)) s = (Err e, s).
Proof. done. Qed.
Lemma exec_bind {A B C} (k : B → M S E C) (f : A → M S E B) c s :
  mbind k (mbind f c) s = mbind (λ a, mbind k (f a)) c s.
Proof. unfold mbind, M_bind. by destruct (c s) as [[] ?]. Qed.
End exec.

Lemma map_err_run {S E E' A} (c : M S E A) (f : E → E') s a s' :
  c s = (Ok a, s') → map_err c f s = (Ok a, s').
Proof. by rewrite map_err_ok. Qed.

Create Rewrite HintDb exec.
#[export] Hint Rewrite @exec_modify @exec_get_state @exec_put_state @exec_ret @exec_some @exec_none
  @exec_ensure_true @exec_ensure_false @exec_lift @exec_lift_err @exec_bind : exec.

Ltac exec := autorewrite with exec.

(** ** Checked and saturating arithmetic *)

Lemma fits_true max x : fits max x = true ↔ 0 ≤ x ≤ max.
Proof. unfold fits. rewrite andb_true_iff, !Z.leb_le. lia. Qed.

Lemma checked_Some max x y : checked max x = Some y ↔ y = x ∧ 0 ≤ x ≤ max.
Proof.
  unfold checked. destruct (fits max x) eqn:Hf.
  - apply fits_true in Hf. naive_solver.
  - split; [done|]. intros [_ H%fits_true]. congruence.
Qed.

Lemma checked_fits max x : 0 ≤ x ≤ max → checked max x = Some x.
Proof. intros. by apply checked_Some. Qed.

Lemma checked_None max x : checked max x = None ↔ ¬ (0 ≤ x ≤ max).
Proof.
  unfold checked. rewrite <- fits_true. destruct (fits max x); naive_solver.
Qed.

Lemma u128_wrap_small x : is_u128 x → u128_wrap x = x.
Proof. intros [? ?]. unfold u128_wrap. apply Z.mod_small. lia. Qed.

#[export] Hint Resolve checked_fits : rust.

(** ** Sums over lists *)

Definition sum_by {A} (f : A → Z) (l : list A) : Z := foldr (λ x acc, f x + acc) 0 l.

Section sum_by.
Context {A : Type}.
Implicit Types (f g : A → Z) (l : list A).

Lemma sum_by_nil f : sum_by f [] = 0.
Proof. done. Qed.
Lemma sum_by_cons f x l : sum_by f (x :: l) = f x + sum_by f l.
Proof. done. Qed.

Lemma sum_by_app f l1 l2 : sum_by f (l1 ++ l2) = sum_by f l1 + sum_by f l2.
Proof. induction l1 as [|x l1 IH]; simpl; lia. Qed.

Lemma sum_by_ext f g l : (∀ x, x ∈ l → f x = g x) → sum_by f l = sum_by g l.
Proof.
  intros Hfg. induction l as [|x l IH]; simpl; [done|].
  rewrite Hfg by left. rewrite IH; [done|]. intros y Hy. apply Hfg. by right.
Qed.

Lemma sum_by_le f g l : (∀ x, x ∈ l → f x ≤ g x) → sum_by f l ≤ sum_by g l.
Proof.
  intros Hfg. induction l as [|x l IH]; simpl; [done|].
  pose proof (Hfg x ltac:(left)). specialize (IH (λ y Hy, Hfg y ltac:(by right))). lia.
Qed.

Lemma sum_by_zero f l : (∀ x, x ∈ l → f x = 0) → sum_by f l = 0.
Proof. intros Hf. rewrite (sum_by_ext f (λ _, 0)) by done. clear Hf. induction l; simpl; lia. Qed.

Lemma sum_by_nonneg f l : (∀ x, x ∈ l → 0 ≤ f x) → 0 ≤ sum_by f l.
Proof. intros Hf. rewrite <- (sum_by_zero (λ _, 0) l) by done. by apply sum_by_le. Qed.

Lemma sum_by_perm f l1 l2 : l1 ≡ₚ l2 → sum_by f l1 = sum_by f l2.
Proof. induction 1; simpl in *; lia. Qed.

Lemma sum_by_elem f l x : (∀ y, y ∈ l → 0 ≤ f y) → x ∈ l → f x ≤ sum_by f l.
Proof.
  intros Hf (l1 & l2 & ->)%list_elem_of_split. rewrite sum_by_app. simpl.
  assert (0 ≤ sum_by f l1 ∧ 0 ≤ sum_by f l2) by
    (split; apply sum_by_nonneg; intros; apply Hf; set_solver). lia.
Qed.

Lemma sum_by_add f g l : sum_by (λ x, f x + g x) l = sum_by f l + sum_by g l.
Proof. induction l as [|x l IH]; simpl; lia. Qed.

Lemma sum_by_fmap {B} (h : B → A) f (l : list B) : sum_by f (h <$> l) = sum_by (λ x, f (h x)) l.
Proof. induction l as [|x l IH]; [done|]. cbn. f_equal. apply IH. Qed.
Lemma sum_by_divide f d l : Forall (λ x, (d | f x)) l → (d | sum_by f l).
Proof.
  induction 1 as [|x l Hx _ IH]; simpl; [apply Z.divide_0_r|by apply Z.divide_add_r].
Qed.
End sum_by.
