(* ===== verification/BTreeMap.v ===== *)
(** * Ordered maps and orderings of the Rust standard library

    [BTreeMap<K, V>] as the list of its entries in key order.  Keys are
    compared with [Ord::cmp] only, as in Rust: two keys that [cmp] calls
    [Equal] are one key even when they are different values (this matters for
    [BalanceUnit]).  [bt_insert] on a present key keeps the stored key and
    replaces the value, as [BTreeMap::insert] does. *)

From Stdlib Require Import Sorting.Sorted.
From S2P Require Import Prelude.

(** ** [Ord] *)

Class Ord (K : Type) : Type := cmp : K → K → comparison.
#[export] Hint Mode Ord ! : typeclass_instances.

(** A total preorder: what [Ord] promises, except that [Equal] need not imply
    [==]. *)
Class TotalOrd (K : Type) `{Ord K} : Prop := {
  cmp_opp (x y : K) : cmp y x = CompOpp (cmp x y);
  cmp_eq_l (x y z : K) : cmp x y = Eq → cmp x z = cmp y z;
  cmp_lt_trans (x y z : K) : cmp x y = Lt → cmp y z = Lt → cmp x z = Lt
}.

(** [Ord] consistent with [Eq]. *)
Class LawfulOrd (K : Type) `{Ord K} : Prop := {
  lawful_total :: TotalOrd K;
  cmp_eq (x y : K) : cmp x y = Eq → x = y
}.

#[export] Instance Z_ord : Ord Z := Z.compare.
#[export] Instance N_ord : Ord N := N.compare.

(** Derived [Ord] of tuples and structs: lexicographic. *)
#[export] Instance pair_ord {A B} `{Ord A, Ord B} : Ord (A * B) := λ x y,
  match cmp (fst x) (fst y) with
  | Eq => cmp (snd x) (snd y)
  | c => c
  end.

Lemma cmp_pair {A B} `{Ord A, Ord B} (x y : A * B) :
  cmp x y = match cmp (fst x) (fst y) with Eq => cmp (snd x) (snd y) | c => c end.
Proof. done. Qed.

#[export] Instance Z_lawful : LawfulOrd Z.
Proof.
  split; [split|]; unfold cmp, Z_ord.
  - intros. apply Z.compare_antisym.
  - intros x y z ->%Z.compare_eq_iff. done.
  - intros x y z. rewrite !Z.compare_lt_iff. lia.
  - intros x y. apply Z.compare_eq_iff.
Qed.

#[export] Instance N_lawful : LawfulOrd N.
Proof.
  split; [split|]; unfold cmp, N_ord.
  - intros. apply N.compare_antisym.
  - intros x y z ->%N.compare_eq_iff. done.
  - intros x y z. rewrite !N.compare_lt_iff. lia.
  - intros x y. apply N.compare_eq_iff.
Qed.

Section ord.
Context {K : Type} `{TotalOrd K}.

Lemma cmp_refl (x : K) : cmp x x = Eq.
Proof. pose proof (cmp_opp x x). by destruct (cmp x x). Qed.

Lemma cmp_eq_sym (x y : K) : cmp x y = Eq → cmp y x = Eq.
Proof. intros E. by rewrite cmp_opp, E. Qed.

Lemma cmp_eq_r (x y z : K) : cmp x y = Eq → cmp z x = cmp z y.
Proof. intros E. rewrite (cmp_opp x z), (cmp_opp y z). by rewrite (cmp_eq_l _ _ _ E). Qed.

Lemma cmp_gt_lt (x y : K) : cmp x y = Gt ↔ cmp y x = Lt.
Proof. rewrite (cmp_opp x y). destruct (cmp x y); naive_solver. Qed.

Lemma cmp_gt_trans (x y z : K) : cmp x y = Gt → cmp y z = Gt → cmp x z = Gt.
Proof. rewrite !cmp_gt_lt. intros. by eapply cmp_lt_trans. Qed.
End ord.

#[export] Instance pair_total {A B} `{TotalOrd A, TotalOrd B} : TotalOrd (A * B).
Proof.
  split; unfold cmp, pair_ord; intros [a b] [a' b']; simpl.
  - rewrite (cmp_opp a a'), (cmp_opp b b'). by destruct (cmp a a').
  - intros [a2 b2] E. destruct (cmp a a') eqn:Ea; try done. simpl.
    by rewrite (cmp_eq_l _ _ _ Ea), (cmp_eq_l _ _ _ E).
  - intros [a2 b2] E1 E2. simpl in *.
    destruct (cmp a a') eqn:Ea; try done.
    + rewrite (cmp_eq_l _ _ _ Ea). destruct (cmp a' a2); try done. by eapply cmp_lt_trans.
    + destruct (cmp a' a2) eqn:Ea2; try done.
      * by rewrite <- (cmp_eq_r _ _ _ Ea2), Ea.
      * by rewrite (cmp_lt_trans _ _ _ Ea Ea2).
Qed.

#[export] Instance pair_lawful {A B} `{LawfulOrd A, LawfulOrd B} : LawfulOrd (A * B).
Proof.
  split; [apply _|]. unfold cmp, pair_ord. intros [a b] [a' b']; simpl.
  destruct (cmp a a') eqn:Ea; try done.
  intros ->%cmp_eq. by apply cmp_eq in Ea as ->.
Qed.

(** [Iterator::max] (the last of the greatest) and [Iterator::min] (the first
    of the least). *)
Definition iter_max {A} `{Ord A} (l : list A) : option A :=
  fold_left (λ acc x, match acc with
                      | None => Some x
                      | Some y => match cmp y x with Gt => Some y | _ => Some x end
                      end) l None.

Definition iter_min {A} `{Ord A} (l : list A) : option A :=
  fold_left (λ acc x, match acc with
                      | None => Some x
                      | Some y => match cmp y x with Gt => Some x | _ => Some y end
                      end) l None.

(** ** [BTreeMap] *)

Abbreviation BTreeMap K V := (list (K * V)) (only parsing).

Section defs.
Context {K V : Type} `{Ord K}.

Fixpoint bt_get (k : K) (m : BTreeMap K V) : option V :=
  match m with
  | [] => None
  | (k', v) :: m' =>
      match cmp k k' with
      | Eq => Some v
      | Lt => None
      | Gt => bt_get k m'
      end
  end.

Fixpoint bt_insert (k : K) (v : V) (m : BTreeMap K V) : BTreeMap K V :=
  match m with
  | [] => [(k, v)]
  | (k', v') :: m' =>
      match cmp k k' with
      | Eq => (k', v) :: m'
      | Lt => (k, v) :: m
      | Gt => (k', v') :: bt_insert k v m'
      end
  end.

Fixpoint bt_remove (k : K) (m : BTreeMap K V) : BTreeMap K V :=
  match m with
  | [] => []
  | (k', v') :: m' =>
      match cmp k k' with
      | Eq => m'
      | Lt => m
      | Gt => (k', v') :: bt_remove k m'
      end
  end.

(** [map.entry(k).and_modify(f).or_insert(d)]. *)
Definition bt_modify_or_insert (f : V → V) (d : V) (k : K) (m : BTreeMap K V) : BTreeMap K V :=
  bt_insert k (match bt_get k m with Some v => f v | None => d end) m.

(** [map.append(&mut other)]: entries of [other] win. *)
Definition bt_append (m other : BTreeMap K V) : BTreeMap K V :=
  fold_left (λ acc p, bt_insert (fst p) (snd p) acc) other m.

Definition bt_values (m : BTreeMap K V) : list V := snd <$> m.

(** The entries are strictly ordered. *)
Definition bt_wf (m : BTreeMap K V) : Prop :=
  StronglySorted (λ p q, cmp (fst p) (fst q) = Lt) m.

Definition bt_sum (f : V → Z) (m : BTreeMap K V) : Z :=
  foldr (λ p acc, f (snd p) + acc) 0 m.
End defs.

Section lemmas.
Context {K V : Type} `{TotalOrd K}.
Implicit Types (m : BTreeMap K V) (k : K) (v : V).

Lemma bt_get_cmp_eq k k' m : cmp k k' = Eq → bt_get k m = bt_get k' m.
Proof.
  intros E. induction m as [|[k1 v1] m IH]; simpl; [done|].
  rewrite (cmp_eq_l _ _ _ E). by destruct (cmp k' k1).
Qed.

Lemma bt_get_insert k k' v m :
  bt_get k (bt_insert k' v m) = match cmp k k' with Eq => Some v | _ => bt_get k m end.
Proof.
  induction m as [|[k1 v1] m IH]; simpl.
  - by destruct (cmp k k').
  - destruct (cmp k' k1) eqn:E1; simpl.
    + rewrite (cmp_eq_r _ _ k E1). by destruct (cmp k k1).
    + destruct (cmp k k') eqn:E; [done| |done].
      by rewrite (cmp_lt_trans _ _ _ E E1).
    + rewrite IH. destruct (cmp k k1) eqn:E2; simpl.
      * rewrite (cmp_eq_l _ _ _ E2), (cmp_opp k' k1), E1. done.
      * apply cmp_gt_lt in E1. rewrite (cmp_lt_trans _ _ _ E2 E1). done.
      * done.
Qed.

Lemma bt_get_insert_eq k v m : bt_get k (bt_insert k v m) = Some v.
Proof. by rewrite bt_get_insert, cmp_refl. Qed.

Lemma bt_get_insert_ne k k' v m : cmp k k' ≠ Eq → bt_get k (bt_insert k' v m) = bt_get k m.
Proof. intros. rewrite bt_get_insert. by destruct (cmp k k'). Qed.

Lemma bt_wf_cons p m : bt_wf (p :: m) ↔ bt_wf m ∧ Forall (λ q, cmp (fst p) (fst q) = Lt) m.
Proof.
  unfold bt_wf. split; [by intros [? ?]%StronglySorted_inv|].
  intros [? ?]. by constructor.
Qed.

Lemma bt_get_lt_all k m : Forall (λ q, cmp k (fst q) = Lt) m → bt_get k m = None.
Proof. destruct m as [|[]]; [done|]. intros [E _]%Forall_cons. simpl in *. by rewrite E. Qed.

Lemma bt_insert_Forall (P : K * V → Prop) k v m :
  (∀ k', cmp k k' = Eq → P (k', v)) → Forall P m → Forall P (bt_insert k v m).
Proof.
  intros Hk. induction m as [|[k1 v1] m IH]; simpl; intros HP.
  - constructor; [|done]. apply Hk, cmp_refl.
  - apply Forall_cons in HP as [HP1 HP]. destruct (cmp k k1) eqn:E; constructor; eauto.
    apply Hk, cmp_refl.
Qed.

Lemma bt_wf_insert k v m : bt_wf m → bt_wf (bt_insert k v m).
Proof.
  induction m as [|[k1 v1] m IH]; simpl; intros Hwf; [by repeat constructor|].
  pose proof Hwf as Hwf0. apply bt_wf_cons in Hwf as [Hwf Hall]. simpl in Hall.
  destruct (cmp k k1) eqn:E; apply bt_wf_cons; simpl; split; eauto.
  - constructor; [done|]. eapply Forall_impl; [exact Hall|].
    intros ? ?. by eapply cmp_lt_trans.
  - apply bt_insert_Forall; [|done]. simpl. intros k' E'.
    apply cmp_gt_lt in E. by rewrite <- (cmp_eq_r _ _ k1 E').
Qed.

Lemma bt_remove_Forall (P : K * V → Prop) k m : Forall P m → Forall P (bt_remove k m).
Proof.
  induction m as [|[k1 v1] m IH]; simpl; [done|]. intros [? ?]%Forall_cons.
  destruct (cmp k k1); [done|by constructor|]. constructor; eauto.
Qed.

Lemma bt_wf_remove k m : bt_wf m → bt_wf (bt_remove k m).
Proof.
  induction m as [|[k1 v1] m IH]; simpl; intros Hwf; [done|].
  pose proof Hwf as Hwf0. apply bt_wf_cons in Hwf as [Hwf Hall].
  destruct (cmp k k1) eqn:E; [done|done|].
  apply bt_wf_cons. split; [eauto|]. by apply bt_remove_Forall.
Qed.

Lemma bt_get_remove k k' m : bt_wf m →
  bt_get k (bt_remove k' m) = match cmp k k' with Eq => None | _ => bt_get k m end.
Proof.
  induction m as [|[k1 v1] m IH]; simpl; intros Hwf; [by destruct (cmp k k')|].
  apply bt_wf_cons in Hwf as [Hwf Hall]. simpl in Hall.
  destruct (cmp k' k1) eqn:E1; simpl.
  - rewrite (cmp_eq_r _ _ k E1). destruct (cmp k k1) eqn:E; [..|done]; apply bt_get_lt_all.
    + eapply Forall_impl; [exact Hall|]. simpl. intros. by rewrite (cmp_eq_l _ _ _ E).
    + eapply Forall_impl; [exact Hall|]. simpl. intros. by eapply cmp_lt_trans.
  - destruct (cmp k k') eqn:E; [|done|done].
    by rewrite (cmp_eq_l _ _ _ E), E1.
  - rewrite IH by done. destruct (cmp k k1) eqn:E2; simpl.
    + by rewrite (cmp_eq_l _ _ _ E2), (cmp_opp k' k1), E1.
    + apply cmp_gt_lt in E1. by rewrite (cmp_lt_trans _ _ _ E2 E1).
    + done.
Qed.

Lemma bt_get_remove_eq k m : bt_wf m → bt_get k (bt_remove k m) = None.
Proof. intros. by rewrite bt_get_remove, cmp_refl. Qed.

Lemma bt_get_remove_ne k k' m :
  bt_wf m → cmp k k' ≠ Eq → bt_get k (bt_remove k' m) = bt_get k m.
Proof. intros. rewrite bt_get_remove by done. by destruct (cmp k k'). Qed.

Lemma bt_remove_insert k v m : bt_get k m = None → bt_remove k (bt_insert k v m) = m.
Proof.
  induction m as [|[k1 v1] m IH]; simpl; [by rewrite cmp_refl|].
  destruct (cmp k k1) eqn:E; intros Hg; simpl; [done|by rewrite cmp_refl|].
  rewrite E. by rewrite IH.
Qed.

Lemma bt_insert_insert k v v' m : bt_insert k v (bt_insert k v' m) = bt_insert k v m.
Proof.
  induction m as [|[k1 v1] m IH]; simpl; [by rewrite cmp_refl|].
  destruct (cmp k k1) eqn:E; simpl; rewrite ?E, ?cmp_refl, ?IH; done.
Qed.

Lemma bt_insert_id k v m : bt_get k m = Some v → bt_insert k v m = m.
Proof.
  induction m as [|[k1 v1] m IH]; simpl; [done|].
  destruct (cmp k k1) eqn:E; intros Hg; simplify_eq; [done|]. by rewrite IH.
Qed.

Lemma bt_length_insert k v m :
  length (bt_insert k v m) =
  (match bt_get k m with Some _ => length m | None => S (length m) end)%nat.
Proof.
  induction m as [|[k1 v1] m IH]; simpl; [done|].
  destruct (cmp k k1) eqn:E; simpl; [done|done|]. rewrite IH. by destruct (bt_get k m).
Qed.

Lemma bt_length_remove k m :
  length m = (length (bt_remove k m) + match bt_get k m with Some _ => 1 | None => 0 end)%nat.
Proof.
  induction m as [|[k1 v1] m IH]; simpl; [done|].
  destruct (cmp k k1) eqn:E; simpl; lia.
Qed.

Lemma bt_sum_insert f k v m :
  bt_sum f (bt_insert k v m) =
  bt_sum f m + f v - match bt_get k m with Some v' => f v' | None => 0 end.
Proof.
  induction m as [|[k1 v1] m IH]; simpl; [lia|].
  destruct (cmp k k1) eqn:E; simpl; [lia|lia|]. rewrite IH. lia.
Qed.

Lemma bt_sum_remove f k m :
  bt_sum f (bt_remove k m) =
  bt_sum f m - match bt_get k m with Some v' => f v' | None => 0 end.
Proof.
  induction m as [|[k1 v1] m IH]; simpl; [lia|].
  destruct (cmp k k1) eqn:E; simpl; [lia|lia|]. rewrite IH. lia.
Qed.

Lemma bt_wf_NoDup_keys m : bt_wf m → NoDup m.*1.
Proof.
  induction m as [|p m IH]; intros Hwf; [constructor|]. apply bt_wf_cons in Hwf as [Hwf Hall].
  apply NoDup_cons. split; [|by apply IH]. intros (q & E & Hq)%list_elem_of_fmap.
  rewrite Forall_forall in Hall. specialize (Hall q Hq). by rewrite E, cmp_refl in Hall.
Qed.

Lemma bt_wf_NoDup m : bt_wf m → NoDup m.
Proof. intros Hm. by eapply NoDup_fmap_1, bt_wf_NoDup_keys. Qed.

Lemma bt_elem_get k v m : bt_wf m → (k, v) ∈ m → bt_get k m = Some v.
Proof.
  induction m as [|[k1 v1] m IH]; simpl; intros Hwf Hin; [by apply elem_of_nil in Hin|].
  apply bt_wf_cons in Hwf as [Hwf Hall].
  apply elem_of_cons in Hin as [[= -> ->]|Hin]; [by rewrite cmp_refl|].
  rewrite Forall_forall in Hall. specialize (Hall _ Hin). simpl in Hall.
  apply cmp_gt_lt in Hall as ->. eauto.
Qed.

Lemma bt_get_elem k v m : bt_get k m = Some v → ∃ k', cmp k k' = Eq ∧ (k', v) ∈ m.
Proof.
  induction m as [|[k1 v1] m IH]; simpl; [done|].
  destruct (cmp k k1) eqn:E; [|done|].
  - intros [= ->]. exists k1. split; [done|left].
  - intros (k' & ? & ?)%IH. exists k'. split; [done|by right].
Qed.

Lemma bt_insert_elem k v m p :
  p ∈ bt_insert k v m → p ∈ m ∨ (snd p = v ∧ cmp k (fst p) = Eq).
Proof.
  induction m as [|[k1 v1] m IH]; simpl.
  - rewrite list_elem_of_singleton. intros ->. right. split; [done|apply cmp_refl].
  - destruct (cmp k k1) eqn:E; rewrite !elem_of_cons.
    + intros [->|?]; [by right|by left; right].
    + intros [->|?]; [right; split; [done|apply cmp_refl]|by left].
    + intros [->|Hp]; [by left; left|]. destruct (IH Hp); naive_solver.
Qed.

(** Inserting keeps the keys of the map and adds at most the inserted one. *)
Lemma bt_insert_keys (P : K → Prop) k v m :
  P k → Forall (λ p, P (fst p)) m → Forall (λ p, P (fst p)) (bt_insert k v m).
Proof.
  intros Hk. induction m as [|[k1 v1] m IH]; simpl; [by repeat constructor|].
  intros [? ?]%Forall_cons. destruct (cmp k k1); repeat constructor; eauto.
Qed.

Lemma bt_remove_elem k m p : p ∈ bt_remove k m → p ∈ m.
Proof.
  induction m as [|[k1 v1] m IH]; simpl; [done|].
  destruct (cmp k k1) eqn:E; rewrite !elem_of_cons; naive_solver.
Qed.

(** Mapping the values and keeping some of them. *)
Lemma Forall_filter_weaken {A} (P Q : A → Prop) `{∀ x, Decision (Q x)} (l : list A) :
  Forall P l → Forall P (filter Q l).
Proof.
  rewrite !Forall_forall. intros HP x [_ Hx]%list_elem_of_filter. auto.
Qed.

Lemma bt_get_lt_Forall k k' m : cmp k k' = Eq ∨ cmp k k' = Lt →
  Forall (λ q, cmp k' (fst q) = Lt) m → bt_get k m = None.
Proof.
  intros Hk Hall. apply bt_get_lt_all. eapply Forall_impl; [done|]. intros [k2 v2] Hq. simpl in *.
  destruct Hk as [E|E]; [by rewrite (cmp_eq_l _ _ _ E)|by eapply cmp_lt_trans].
Qed.

Lemma bt_wf_filter (Q : K * V → Prop) `{∀ p, Decision (Q p)} m : bt_wf m → bt_wf (filter Q m).
Proof.
  induction m as [|p m IH]; intros Hwf; [done|]. apply bt_wf_cons in Hwf as [Hwf Hall].
  rewrite filter_cons. case_decide; [|by apply IH]. apply bt_wf_cons. split; [by apply IH|].
  by apply Forall_filter_weaken.
Qed.

Lemma bt_get_filter (f : V → bool) k m : bt_wf m →
  bt_get k (filter (λ p, f (snd p) = true) m) =
  bt_get k m ≫= λ v, if f v then Some v else None.
Proof.
  induction m as [|[k1 v1] m IH]; intros Hwf; [done|]. apply bt_wf_cons in Hwf as [Hwf Hall].
  specialize (IH Hwf). rewrite filter_cons. simpl in *.
  pose proof (bt_wf_filter (λ p, f (snd p) = true) m Hwf) as Hwf'.
  assert (cmp k k1 = Eq ∨ cmp k k1 = Lt → bt_get k (filter (λ p, f (snd p) = true) m) = None)
    as Hnone.
  { intros. eapply bt_get_lt_Forall; [done|]. by apply Forall_filter_weaken. }
  case_decide as Hf; simpl; destruct (cmp k k1) eqn:E; simpl; rewrite ?IH; auto.
  - by rewrite Hf.
  - rewrite <- IH, Hnone by auto. apply not_true_is_false in Hf. by rewrite Hf.
  - rewrite <- IH. by apply Hnone; right.
Qed.

Lemma bt_wf_append m1 m2 : bt_wf m1 → bt_wf (bt_append m1 m2).
Proof.
  unfold bt_append. revert m1. induction m2 as [|p m2 IH]; intros m1 Hwf; simpl; [done|].
  apply IH. by apply bt_wf_insert.
Qed.

Lemma bt_get_modify_or_insert f d k k' m :
  bt_get k (bt_modify_or_insert f d k' m) =
  match cmp k k' with
  | Eq => Some (match bt_get k' m with Some v => f v | None => d end)
  | _ => bt_get k m
  end.
Proof. apply bt_get_insert. Qed.

Lemma bt_wf_modify_or_insert f d k m : bt_wf m → bt_wf (bt_modify_or_insert f d k m).
Proof. apply bt_wf_insert. Qed.
End lemmas.

#[export] Hint Resolve bt_wf_insert bt_wf_remove bt_wf_modify_or_insert bt_wf_append : rust.
#[export] Hint Extern 0 (bt_wf []) => constructor : rust.

Section fmap.
Context {K V W : Type} `{TotalOrd K} (f : V → W).
Implicit Types (m : BTreeMap K V).

Lemma bt_get_fmap k m : bt_get k ((λ p, (fst p, f (snd p))) <$> m) = f <$> bt_get k m.
Proof. induction m as [|[k1 v1] m IH]; simpl; [done|]. by destruct (cmp k k1). Qed.

(** Mapping the values with a partial function. *)
Lemma bt_omap_Forall (g : V → option W) (Q : K → Prop) m : Forall (λ p, Q (fst p)) m →
  Forall (λ p, Q (fst p)) (omap (λ '(k, v), (λ w, (k, w)) <$> g v) m).
Proof.
  induction m as [|[k v] m IH]; intros Hall; [constructor|]. apply Forall_cons in Hall as [? ?].
  simpl. destruct (g v); simpl; [constructor; [done|]|]; by apply IH.
Qed.

Lemma bt_wf_omap (g : V → option W) m : bt_wf m →
  bt_wf (omap (λ '(k, v), (λ w, (k, w)) <$> g v) m).
Proof.
  induction m as [|[k v] m IH]; intros Hwf; [constructor|]. apply bt_wf_cons in Hwf as [Hwf Hall].
  simpl. destruct (g v); simpl; [|by apply IH]. apply bt_wf_cons. split; [by apply IH|].
  by apply (bt_omap_Forall g (λ k', cmp k k' = Lt)).
Qed.

Lemma bt_get_omap (g : V → option W) k m : bt_wf m →
  bt_get k (omap (λ '(k, v), (λ w, (k, w)) <$> g v) m) = bt_get k m ≫= g.
Proof.
  induction m as [|[k1 v1] m IH]; intros Hwf; [done|]. apply bt_wf_cons in Hwf as [Hwf Hall].
  specialize (IH Hwf). simpl in *.
  assert (cmp k k1 = Eq ∨ cmp k k1 = Lt →
    bt_get k (omap (λ '(k, v), (λ w, (k, w)) <$> g v) m) = None) as Hnone.
  { intros. eapply bt_get_lt_Forall; [done|]. by apply (bt_omap_Forall g (λ k', cmp k1 k' = Lt)). }
  destruct (g v1) eqn:Eg; simpl; destruct (cmp k k1) eqn:E; simpl; rewrite ?Eg; auto.
Qed.

Lemma bt_wf_fmap m : bt_wf m → bt_wf ((λ p, (fst p, f (snd p))) <$> m).
Proof.
  induction m as [|p m IH]; intros Hwf; [constructor|]. apply bt_wf_cons in Hwf as [Hwf Hall].
  simpl. apply bt_wf_cons. split; [by apply IH|].
  apply Forall_fmap. by eapply Forall_impl.
Qed.
End fmap.

(** Two ordered maps with a lawful key and the same lookups are the same map. *)
Lemma bt_ext {K V} `{LawfulOrd K} (m1 m2 : BTreeMap K V) :
  bt_wf m1 → bt_wf m2 → (∀ k, bt_get k m1 = bt_get k m2) → m1 = m2.
Proof.
  revert m2. induction m1 as [|[k1 v1] m1 IH]; intros [|[k2 v2] m2] Hwf1 Hwf2 Hg.
  - done.
  - specialize (Hg k2). simpl in Hg. by rewrite cmp_refl in Hg.
  - specialize (Hg k1). simpl in Hg. by rewrite cmp_refl in Hg.
  - apply bt_wf_cons in Hwf1 as [Hwf1 Hall1], Hwf2 as [Hwf2 Hall2]. simpl in *.
    assert (cmp k1 k2 = Eq) as E.
    { pose proof (Hg k1) as H1. pose proof (Hg k2) as H2.
      simpl in H1, H2. rewrite cmp_refl in H1, H2.
      destruct (cmp k1 k2) eqn:E; [done|done|]. apply cmp_gt_lt in E. by rewrite E in H2. }
    apply cmp_eq in E as ->.
    pose proof (Hg k2) as H2. simpl in H2. rewrite cmp_refl in H2. simplify_eq.
    f_equal. apply IH; [done..|]. intros k. specialize (Hg k). simpl in Hg.
    destruct (cmp k k2) eqn:E; [..|done]; rewrite !bt_get_lt_all; try done;
      eapply Forall_impl; eauto; simpl; intros p ?.
    1,2: by rewrite (cmp_eq_l _ _ _ E).
    all: by eapply cmp_lt_trans.
Qed.

(** ** Extremal entries *)

Section extremal.
Context {K V : Type} `{TotalOrd K, Ord V}.
Implicit Types (m : BTreeMap K V).

Lemma iter_min_head p m : bt_wf (p :: m) → iter_min (p :: m) = Some p.
Proof.
  intros [_ Hall]%bt_wf_cons. unfold iter_min. simpl.
  induction Hall as [|q m Hq Hall IH]; simpl; [done|].
  rewrite cmp_pair, Hq. done.
Qed.

Lemma iter_max_last m p : bt_wf (m ++ [p]) → iter_max (m ++ [p]) = Some p.
Proof.
  intros Hwf. unfold iter_max. rewrite fold_left_app. simpl.
  assert (∀ acc, (∀ q, acc = Some q → cmp (fst q) (fst p) = Lt) →
    Forall (λ q, cmp (fst q) (fst p) = Lt) m →
    match fold_left (λ acc x, match acc with
                      | None => Some x
                      | Some y => match cmp y x with Gt => Some y | _ => Some x end
                      end) m acc with
    | None => True | Some q => cmp (fst q) (fst p) = Lt end) as Hgen.
  { clear Hwf. induction m as [|q m IH]; intros acc Hacc HF; simpl.
    - destruct acc; eauto.
    - apply Forall_cons in HF as [Hq HF]. apply IH; [|done].
      intros q'. destruct acc as [y|]; [destruct (cmp y q)|]; intros [= <-]; eauto. }
  specialize (Hgen None). destruct (fold_left _ m None) as [q|]; [|done].
  rewrite cmp_pair, Hgen; [done|done|].
  clear -Hwf. induction m as [|q m IH]; simpl in *; [done|].
  apply bt_wf_cons in Hwf as [Hwf Hall]. constructor; [|eauto].
  rewrite Forall_app in Hall. destruct Hall as [_ Hall]. by apply Forall_cons in Hall as [? _].
Qed.
End extremal.

(** Sums over the entries. *)
Section sums.
Context {K V : Type} `{LawfulOrd K}.
Implicit Types (m : BTreeMap K V).

Lemma sum_by_insert (f : K * V → Z) k v m :
  sum_by f (bt_insert k v m) =
  sum_by f m + f (k, v) - match bt_get k m with Some v0 => f (k, v0) | None => 0 end.
Proof.
  induction m as [|[k' v'] m IH]; simpl; [lia|].
  destruct (cmp k k') eqn:E; simpl; [|lia|lia]. apply cmp_eq in E as ->. lia.
Qed.

Lemma bt_get_elem_eq k v m : bt_get k m = Some v → (k, v) ∈ m.
Proof. by intros (k' & ->%cmp_eq & Hin)%bt_get_elem. Qed.

Lemma bt_insert_elem_eq k v m p : p ∈ bt_insert k v m → p = (k, v) ∨ p ∈ m.
Proof.
  induction m as [|[k' v'] m IH]; simpl; [rewrite list_elem_of_singleton; auto|].
  destruct (cmp k k') eqn:E; rewrite !elem_of_cons; [apply cmp_eq in E as ->| |]; naive_solver.
Qed.

Lemma bt_insert_fresh k v m : bt_get k m = None → bt_insert k v m ≡ₚ (k, v) :: m.
Proof.
  induction m as [|[k' v'] m IH]; simpl; [done|]. destruct (cmp k k') eqn:E; [done|done|].
  intros Hg. rewrite (IH Hg). apply Permutation_swap.
Qed.

(** Inserting new, distinct keys one by one. *)
Lemma fold_insert_fresh {A} (k : A → K) (v : A → V) xs m :
  NoDup (k <$> xs) → (∀ x, x ∈ xs → bt_get (k x) m = None) →
  fold_left (λ m x, bt_insert (k x) (v x) m) xs m ≡ₚ m ++ ((λ x, (k x, v x)) <$> xs).
Proof.
  revert m. induction xs as [|x xs IH]; intros m Hnd Hm; simpl; [by rewrite app_nil_r|].
  rewrite fmap_cons in Hnd. apply NoDup_cons in Hnd as [Hx Hnd]. rewrite IH; [|done|].
  - rewrite (bt_insert_fresh _ _ m) by (apply Hm; left). simpl. apply Permutation_middle.
  - intros y Hy. rewrite bt_get_insert_ne; [apply Hm; by right|].
    intros E%cmp_eq. apply Hx. rewrite <- E. by apply list_elem_of_fmap_2.
Qed.
End sums.

(** ** Sums over maps *)

Section sums.
Context {K : Type} `{LawfulOrd K}.

Lemma bt_sum_nonneg {V} (f : V → Z) (m : BTreeMap K V) :
  bt_wf m → (∀ k v, bt_get k m = Some v → 0 ≤ f v) → 0 ≤ bt_sum f m.
Proof.
  induction m as [|[k v] m IH]; intros Hwf Hf; simpl; [done|].
  pose proof (Hf k v) as Hk. simpl in Hk. rewrite cmp_refl in Hk. specialize (Hk eq_refl).
  assert (0 ≤ bt_sum f m); [|lia]. pose proof Hwf as [Hwf' Hall]%bt_wf_cons.
  apply IH; [done|]. intros k' v' Hg. apply (Hf k' v').
  apply bt_get_elem in Hg as (k2 & E & Hin). apply cmp_eq in E as <-.
  apply bt_elem_get; [done|by right].
Qed.

Lemma bt_sum_le {V W} (f : V → Z) (g : W → Z) (m1 : BTreeMap K V) (m2 : BTreeMap K W) :
  bt_wf m1 → bt_wf m2 → (∀ k w, bt_get k m2 = Some w → 0 ≤ g w) →
  (∀ k v, bt_get k m1 = Some v → ∃ w, bt_get k m2 = Some w ∧ f v ≤ g w) →
  bt_sum f m1 ≤ bt_sum g m2.
Proof.
  revert m2. induction m1 as [|[k v] m1 IH]; intros m2 Hw1 Hw2 Hg Hle.
  { simpl. by apply bt_sum_nonneg. }
  destruct (Hle k v) as (w & Hkw & Hvw); [simpl; by rewrite cmp_refl|].
  pose proof Hw1 as [Hw1' Hall]%bt_wf_cons. simpl.
  pose proof (bt_sum_remove g k m2) as Hr. rewrite Hkw in Hr.
  assert (bt_sum f m1 ≤ bt_sum g (bt_remove k m2)); [|lia].
  apply IH; [done|by apply bt_wf_remove|..].
  - intros k' w'. rewrite bt_get_remove by done. destruct (cmp k' k); [done|eauto..].
  - intros k' v' Hk'. pose proof Hk' as (k2 & E & Hin)%bt_get_elem. apply cmp_eq in E as <-.
    rewrite Forall_forall in Hall. specialize (Hall _ Hin). simpl in Hall.
    apply cmp_gt_lt in Hall. rewrite bt_get_remove, Hall by done. apply Hle. simpl. by rewrite Hall.
Qed.

Lemma bt_sum_add {V} (f g : V → Z) (m : BTreeMap K V) :
  bt_sum (λ v, f v + g v) m = bt_sum f m + bt_sum g m.
Proof. induction m as [|p m IH]; simpl; lia. Qed.

Lemma bt_sum_one {V} (m : BTreeMap K V) : bt_sum (λ _, 1) m = Z.of_nat (length m).
Proof. induction m as [|p m IH]; simpl; lia. Qed.

Lemma bt_sum_filter {V} (f : V → Z) (P : K * V → Prop) `{∀ p, Decision (P p)} (m : BTreeMap K V) :
  (∀ p, p ∈ m → ¬ P p → f (snd p) = 0) → bt_sum f (filter P m) = bt_sum f m.
Proof.
  induction m as [|p m IH]; intros Hf; [done|]. rewrite filter_cons. simpl.
  rewrite <- IH by (intros; apply Hf; [by right|done]).
  case_decide; [done|]. rewrite (Hf p) by (done || left). lia.
Qed.
End sums.
