(* ===== verification/FixedPoint.v ===== *)
(** * Fixed-point arithmetic

    [Fixed] is [FixedPoint<i128, U18>]: an [i128] number of 10^-18 units
    ([vendor/fixnum/src/lib.rs]).  [FixedWrapper] ([common/src/fixed_wrapper.rs])
    is a [Result<Fixed, ArithmeticError>] whose operators propagate the error.
    Promoted [I256] products and quotients are exact ([i128 * i128] fits), and
    [I256::div] divides the magnitudes, i.e. truncates. *)

From S2P Require Import Prelude.

Inductive ArithmeticError := Overflow | DomainViolation | DivisionByZero.

Inductive RoundMode := Ceil | Floor.

Module Fixed.

Definition COEF : Z := 1000000000000000000.

(** [mode as i32]: [Ceil = 1], [Floor = -1]. *)
Definition mode_sign (mode : RoundMode) : Z := match mode with Ceil => 1 | Floor => -1 end.

Definition in_i128 (x : Z) : bool := (i128_min <=? x) && (x <=? i128_max).

(** [i128::try_from(I256)]. *)
Definition try_i128 (x : Z) : result ArithmeticError Z :=
  if in_i128 x then Ok x else Err Overflow.

Definition rmul (lhs rhs : Z) (mode : RoundMode) : result ArithmeticError Z :=
  let value := lhs * rhs in
  let quotient := Z.quot value COEF in
  let loss := value - quotient * COEF in
  let sign := Z.sgn lhs * Z.sgn rhs in
  res ← try_i128 quotient;
  if negb (loss =? 0) && (mode_sign mode =? sign) then try_i128 (res + sign) else mret res.

Definition lossless_mul (lhs rhs : Z) : result ArithmeticError (option Z) :=
  let value := lhs * rhs in
  let quotient := Z.quot value COEF in
  let loss := value - quotient * COEF in
  res ← try_i128 quotient;
  if negb (loss =? 0) then mret None else mret (Some res).

Definition rdiv (lhs rhs : Z) (mode : RoundMode) : result ArithmeticError Z :=
  if rhs =? 0 then mthrow DivisionByZero else
  let numerator := lhs * COEF in
  let quotient := Z.quot numerator rhs in
  let loss := numerator - quotient * rhs in
  res ← try_i128 quotient;
  if negb (loss =? 0) then
    let sign := Z.sgn lhs * Z.sgn rhs in
    if mode_sign mode =? sign then try_i128 (res + sign) else mret res
  else mret res.

Definition cadd (lhs rhs : Z) : result ArithmeticError Z := try_i128 (lhs + rhs).
Definition csub (lhs rhs : Z) : result ArithmeticError Z := try_i128 (lhs - rhs).

(** On non-negative operands [Floor] rounding is Euclidean division. *)
Lemma rmul_floor_nonneg a b : 0 ≤ a → 0 ≤ b → rmul a b Floor = try_i128 (a * b / COEF).
Proof.
  intros Ha Hb. unfold rmul. simpl.
  rewrite Z.quot_div_nonneg by (unfold COEF; nia).
  destruct (try_i128 _) as [r|e]; [|done]. simpl.
  replace (-1 =? Z.sgn a * Z.sgn b) with false; [by rewrite andb_false_r|].
  symmetry. apply Z.eqb_neq. pose proof (Z.sgn_nonneg a). pose proof (Z.sgn_nonneg b). nia.
Qed.

Lemma rdiv_floor_nonneg a b :
  0 ≤ a → 0 < b → rdiv a b Floor = try_i128 (a * COEF / b).
Proof.
  intros Ha Hb. unfold rdiv. rewrite (proj2 (Z.eqb_neq b 0)) by lia. simpl.
  rewrite Z.quot_div_nonneg by (unfold COEF; nia).
  destruct (try_i128 _) as [r|e]; [|done]. simpl.
  replace (-1 =? Z.sgn a * Z.sgn b) with false; [by destruct (negb _)|].
  symmetry. apply Z.eqb_neq. pose proof (Z.sgn_nonneg a). pose proof (Z.sgn_nonneg b). nia.
Qed.

Lemma try_i128_ok x y : try_i128 x = Ok y ↔ y = x ∧ i128_min ≤ x ≤ i128_max.
Proof.
  unfold try_i128, in_i128. destruct (Z.leb_spec i128_min x), (Z.leb_spec x i128_max); simpl;
    naive_solver lia.
Qed.

Lemma lossless_mul_exact a b p :
  lossless_mul a b = Ok (Some p) → a * b = p * COEF.
Proof.
  unfold lossless_mul. rewrite result_bind_ok. intros (q & [-> _]%try_i128_ok & H).
  destruct (_ - _ =? 0) eqn:E; [|done]. simpl in H. zbool.
  injection H as <-. lia.
Qed.

End Fixed.

Module FixedWrapper.

Definition t := result ArithmeticError Z.

(** [From<u128>] and the other integer conversions: the number of 10^-18 units
    must fit [i128]. *)
Definition from_int (value : Z) : t := Fixed.try_i128 value.

Definition zip (a b : t) : result ArithmeticError (Z * Z) :=
  x ← a; y ← b; mret (x, y).

Definition lift2 (f : Z → Z → result ArithmeticError Z) (a b : t) : t :=
  p ← zip a b; f (fst p) (snd p).

Definition add (a b : t) : t := lift2 Fixed.cadd a b.
Definition sub (a b : t) : t := lift2 Fixed.csub a b.
Definition mul (a b : t) : t := lift2 (λ x y, Fixed.rmul x y Floor) a b.
Definition div (a b : t) : t := lift2 (λ x y, Fixed.rdiv x y Floor) a b.

(** [Result<Option<_>>::transpose]: [None] only on a loss of precision. *)
Definition lossless_mul (a b : t) : option t :=
  match (p ← zip a b; Fixed.lossless_mul (fst p) (snd p)) with
  | Ok (Some x) => Some (Ok x)
  | Ok None => None
  | Err e => Some (Err e)
  end.

Definition pow (a : t) (x : nat) : t :=
  fold_left (λ acc _, mul acc a) (seq 0 x) (Ok Fixed.COEF).

Definition try_into_balance (a : t) : result ArithmeticError Z :=
  match a with
  | Ok bits => if 0 <=? bits then Ok bits else Err Overflow
  | Err e => Err e
  end.

(** [into_balance] outside tests: errors become zero, negatives saturate. *)
Definition into_balance (a : t) : Z :=
  match a with Ok bits => Z.max 0 bits | Err _ => 0 end.

Lemma from_int_ok x : 0 ≤ x ≤ i128_max → from_int x = Ok x.
Proof. intros. apply Fixed.try_i128_ok. unfold i128_min in *. lia. Qed.

(** What the rest of the code uses of these operators: the floor of the exact
    product or quotient when it fits, and an error otherwise. *)
Definition floor_result (x : Z) : result ArithmeticError Z :=
  if x <=? i128_max then Ok x else Err Overflow.

Lemma try_into_balance_nonneg x : 0 ≤ x → try_into_balance (Fixed.try_i128 x) = floor_result x.
Proof.
  intros Hx. unfold try_into_balance, floor_result, Fixed.try_i128, Fixed.in_i128.
  rewrite (proj2 (Z.leb_le i128_min x)) by (unfold i128_min; lia). simpl.
  destruct (x <=? i128_max); [|done]. by rewrite (proj2 (Z.leb_le 0 x)).
Qed.

Lemma mul_spec a b : 0 ≤ a ≤ i128_max → 0 ≤ b ≤ i128_max →
  try_into_balance (mul (from_int a) (from_int b)) = floor_result (a * b / Fixed.COEF).
Proof.
  intros Ha Hb. unfold mul, lift2, zip. rewrite !from_int_ok by done. simpl.
  rewrite Fixed.rmul_floor_nonneg by lia. apply try_into_balance_nonneg.
  apply Z.div_pos; unfold Fixed.COEF; nia.
Qed.

Lemma div_spec a b : 0 ≤ a ≤ i128_max → 0 < b ≤ i128_max →
  try_into_balance (div (from_int a) (from_int b)) = floor_result (a * Fixed.COEF / b).
Proof.
  intros Ha Hb. unfold div, lift2, zip. rewrite !from_int_ok by lia. simpl.
  rewrite Fixed.rdiv_floor_nonneg by lia. apply try_into_balance_nonneg.
  apply Z.div_pos; unfold Fixed.COEF; nia.
Qed.

(** A result of [mul] or [div] obtained from unsigned operands is the floor of
    the exact value. *)
Lemma mul_ok a b c : 0 ≤ a → 0 ≤ b →
  try_into_balance (mul (from_int a) (from_int b)) = Ok c →
  c = a * b / Fixed.COEF ∧ a ≤ i128_max ∧ b ≤ i128_max ∧ 0 ≤ c ≤ i128_max.
Proof.
  intros Ha Hb. unfold mul, lift2, zip, from_int.
  destruct (Fixed.try_i128 a) as [a'|] eqn:Ea; [|done].
  destruct (Fixed.try_i128 b) as [b'|] eqn:Eb; [|done]. simpl.
  apply Fixed.try_i128_ok in Ea as [-> ?], Eb as [-> ?].
  rewrite Fixed.rmul_floor_nonneg, try_into_balance_nonneg by
    (try apply Z.div_pos; unfold Fixed.COEF; nia).
  unfold floor_result. destruct (_ <=? _) eqn:E; [|done]. intros [= <-]. zbool.
  repeat split; try lia. apply Z.div_pos; unfold Fixed.COEF; nia.
Qed.

Lemma div_ok a b c : 0 ≤ a → 0 ≤ b →
  try_into_balance (div (from_int a) (from_int b)) = Ok c →
  0 < b ∧ c = a * Fixed.COEF / b ∧ 0 ≤ c ≤ i128_max.
Proof.
  intros Ha Hb. unfold div, lift2, zip, from_int.
  destruct (Fixed.try_i128 a) as [a'|] eqn:Ea; [|done].
  destruct (Fixed.try_i128 b) as [b'|] eqn:Eb; [|done]. simpl.
  apply Fixed.try_i128_ok in Ea as [-> ?], Eb as [-> ?].
  destruct (decide (b = 0)) as [->|Hb0].
  { unfold Fixed.rdiv. simpl. done. }
  rewrite Fixed.rdiv_floor_nonneg, try_into_balance_nonneg by
    (try apply Z.div_pos; unfold Fixed.COEF; nia).
  unfold floor_result. destruct (_ <=? _) eqn:E; [|done]. intros [= <-]. zbool.
  repeat split; try lia. apply Z.div_pos; unfold Fixed.COEF; nia.
Qed.

(** Multiplication rounds down monotonically. *)
Lemma mul_result_exact a b c :
  0 ≤ a → 0 ≤ b → (Fixed.COEF | a * b) →
  try_into_balance (mul (from_int a) (from_int b)) = Ok c → c * Fixed.COEF = a * b.
Proof.
  intros Ha Hb [q Hq] (-> & _)%mul_ok; [|done|done].
  rewrite Hq. rewrite Z.div_mul; [done|]. unfold Fixed.COEF. lia.
Qed.

End FixedWrapper.
