(* ===== verification/Helpers256.v ===== *)
(** * 256-bit arithmetic ([common/src/arithmetic/helpers_256bit.rs])

    A [U256] is a number below 2^256.  Products are computed in 512 bits, as two
    halves of 256 bits, and divided by reducing the upper half again and again;
    square roots are computed bit by bit.  The theorems show that these routines
    return the exact quotient and the exact root, and that their loops end.

    The operators of [U256] are written with the wrap-around of the type (the
    library panics instead); where the code relies on their being exact, the
    equations of the proofs show that nothing is lost. *)

From S2P Require Import Prelude.

(** [Rounding] of [sp_arithmetic]. *)
Inductive Rounding := Up | Down | NearestPrefUp | NearestPrefDown.

Module U256.
Definition max : Z := 2 ^ 256 - 1.
Definition ok (x : Z) : Prop := 0 ≤ x < 2 ^ 256.
Definition wrap (x : Z) : Z := x mod 2 ^ 256.

Definition add (x y : Z) : Z := wrap (x + y).
Definition sub (x y : Z) : Z := wrap (x - y).
Definition mul (x y : Z) : Z := wrap (x * y).
Definition shl (x n : Z) : Z := wrap (Z.shiftl x n).
Definition checked_add (x y : Z) : option Z := checked max (x + y).
Definition checked_sub (x y : Z) : option Z := checked max (x - y).
Definition checked_mul (x y : Z) : option Z := checked max (x * y).
Definition overflowing_add (x y : Z) : Z * bool := (wrap (x + y), max <? x + y).
Definition leading_zeros (x : Z) : Z := if x =? 0 then 256 else 255 - Z.log2 x.

(** The halves of 128 bits. *)
Definition high (a : Z) : Z := Z.shiftr a 128.
Definition low (a : Z) : Z := Z.land a (Z.ones 128).

Lemma wrap_small x : ok x → wrap x = x.
Proof. apply Z.mod_small. Qed.

Lemma wrap_ok x : ok (wrap x).
Proof. apply Z.mod_pos_bound. done. Qed.

Lemma high_eq a : high a = a / 2 ^ 128.
Proof. by apply Z.shiftr_div_pow2. Qed.

Lemma low_eq a : low a = a mod 2 ^ 128.
Proof. by apply Z.land_ones. Qed.

Lemma halves a : ok a → a = high a * 2 ^ 128 + low a ∧ 0 ≤ high a < 2 ^ 128 ∧ 0 ≤ low a < 2 ^ 128.
Proof.
  intros [Ha Hb]. rewrite high_eq, low_eq. pose proof (Z.mod_pos_bound a (2 ^ 128) eq_refl).
  pose proof (Z.div_mod a (2 ^ 128) ltac:(done)). split; [lia|]. split; [|done]. split.
  - by apply Z.div_pos.
  - apply Z.div_lt_upper_bound; [done|]. by rewrite <- Z.pow_add_r.
Qed.

Lemma not_eq a : ok a → Z.lxor a max = max - a.
Proof.
  intros [Ha Hb]. change max with (Z.ones 256).
  assert (Z.ldiff a (Z.ones 256) = 0) as Hd.
  { rewrite Z.ldiff_ones_r by done. rewrite Z.shiftr_div_pow2, Z.div_small by done. done. }
  rewrite Z.sub_nocarry_ldiff by done. apply Z.bits_inj'. intros n Hn.
  rewrite Z.lxor_spec, Z.ldiff_spec. pose proof (f_equal (λ x, Z.testbit x n) Hd) as Hx.
  cbn in Hx. rewrite Z.ldiff_spec, Z.bits_0 in Hx. destruct (Z.testbit a n), (Z.testbit (Z.ones 256) n); done.
Qed.
End U256.

(** ** Numbers of 512 bits *)

Module Double256.

Record t := mk { high : Z; low : Z }.

Definition overflow_to_256 (overflow : bool) : Z := if overflow then 1 else 0.

(** 2^256 - a, 2^256 / a and 2^256 mod a. *)
Definition neg256 (a : Z) : Z := fst (U256.overflowing_add (Z.lxor a U256.max) 1).
Definition div256 (a : Z) : Z := fst (U256.overflowing_add (neg256 a / a) 1).
Definition mod256 (a : Z) : Z := neg256 a mod a.

Definition try_into_u256 (d : t) : option Z := if high d =? 0 then Some (low d) else None.
Definition zero : t := mk 0 0.
Definition left_shift_128 (scaled_value : Z) : t := mk (Z.shiftr scaled_value 128) (U256.shl scaled_value 128).
Definition from_low (l : Z) : t := mk 0 l.
Definition low_part (d : t) : t := mk 0 (low d).

Definition add (a b : t) : t :=
  let '(l, overflow) := U256.overflowing_add (low a) (low b) in
  let carry := overflow_to_256 overflow in
  let h := fst (U256.overflowing_add (fst (U256.overflowing_add (high a) (high b))) carry) in
  mk h l.

Definition product_of (a b : Z) : t :=
  let a_low := U256.low a in
  let a_high := U256.high a in
  let b_low := U256.low b in
  let b_high := U256.high b in
  let l := U256.mul a_low b_low in
  let mid1 := U256.mul a_low b_high in
  let mid2 := U256.mul a_high b_low in
  let h := U256.mul a_high b_high in
  add (add (mk h l) (left_shift_128 mid1)) (left_shift_128 mid2).

(** The loop of [div]: the quotient so far and the rest. *)
Fixpoint div_loop (fuel : nat) (q r : Z) (x self : t) : t * t :=
  match fuel with
  | O => (x, self)
  | S fuel =>
      if high self =? 0 then (x, self)
      else div_loop fuel q r (add x (product_of (high self) q))
             (add (product_of (high self) r) (low_part self))
  end.

(** Every round but the last two halves the upper half, so that 260 rounds are
    enough. *)
Definition div (self : t) (rhs : Z) : t * Z :=
  if rhs =? 1 then (self, 0) else
  let '(x, self) := div_loop 260 (div256 rhs) (mod256 rhs) zero self in
  (add x (from_low (low self / rhs)), low self mod rhs).

(** *** The number of a pair *)

Definition value (d : t) : Z := high d * 2 ^ 256 + low d.
Definition wf (d : t) : Prop := U256.ok (high d) ∧ U256.ok (low d).

Lemma value_bound d : wf d → 0 ≤ value d < 2 ^ 512.
Proof. intros [[] []]. unfold value. replace (2 ^ 512) with (2 ^ 256 * 2 ^ 256) by done. nia. Qed.

Lemma double_value_inj d h l : wf d → U256.ok l → 0 ≤ h → value d = h * 2 ^ 256 + l → high d = h ∧ low d = l.
Proof. intros [_ []] [] ? E. unfold value in E. nia. Qed.

Lemma double_add_ok a b : wf a → wf b → wf (add a b) ∧ value (add a b) = (value a + value b) mod 2 ^ 512.
Proof.
  intros [[Ha1 Ha2] [Ha3 Ha4]] [[Hb1 Hb2] [Hb3 Hb4]]. unfold add, U256.overflowing_add. cbn [fst].
  set (carry := overflow_to_256 _).
  assert (U256.wrap (low a + low b) = low a + low b - carry * 2 ^ 256 ∧ 0 ≤ carry ≤ 1) as [El Hc].
  { unfold carry, overflow_to_256, U256.max, U256.wrap. destruct (Z.ltb_spec (2 ^ 256 - 1) (low a + low b)).
    - rewrite <- (Z.mod_unique_pos (low a + low b) (2 ^ 256) 1 (low a + low b - 2 ^ 256)); lia.
    - rewrite Z.mod_small by lia. lia. }
  assert (U256.wrap (U256.wrap (high a + high b) + carry) = (high a + high b + carry) mod 2 ^ 256) as Eh.
  { unfold U256.wrap. by rewrite Z.add_mod_idemp_l. }
  pose proof (U256.wrap_ok (low a + low b)) as [Hl1 Hl2].
  pose proof (Z.mod_pos_bound (high a + high b + carry) (2 ^ 256) eq_refl) as Hh.
  split; [split; cbn; [rewrite Eh; done|done]|]. unfold value. cbn [high low]. rewrite Eh.
  pose proof (Z.div_mod (high a + high b + carry) (2 ^ 256) ltac:(done)) as Ed.
  apply (Z.mod_unique_pos _ _ ((high a + high b + carry) / 2 ^ 256)).
  - replace (2 ^ 512) with (2 ^ 256 * 2 ^ 256) by done. nia.
  - replace (2 ^ 512) with (2 ^ 256 * 2 ^ 256) by done. rewrite El. nia.
Qed.

Lemma mul_halves x y : 0 ≤ x < 2 ^ 128 → 0 ≤ y < 2 ^ 128 → U256.mul x y = x * y ∧ U256.ok (x * y).
Proof.
  intros Hx Hy. assert (U256.ok (x * y)) as Hk.
  { split; [nia|]. replace (2 ^ 256) with (2 ^ 128 * 2 ^ 128) by done. nia. }
  split; [|done]. by apply U256.wrap_small.
Qed.

Lemma left_shift_ok x : U256.ok x → wf (left_shift_128 x) ∧ value (left_shift_128 x) = x * 2 ^ 128.
Proof.
  intros Hx. destruct (U256.halves x Hx) as (E & Hh & Hl).
  unfold left_shift_128, value, U256.shl. cbn. change (Z.shiftr x 128) with (U256.high x).
  rewrite Z.shiftl_mul_pow2 by done.
  assert (U256.wrap (x * 2 ^ 128) = U256.low x * 2 ^ 128) as ->.
  { symmetry. apply (Z.mod_unique_pos _ _ (U256.high x)).
    - replace (2 ^ 256) with (2 ^ 128 * 2 ^ 128) by done. nia.
    - lia. }
  split; [split; cbn|].
  - split; [lia|]. destruct Hx. lia.
  - split; [nia|]. replace (2 ^ 256) with (2 ^ 128 * 2 ^ 128) by done. nia.
  - lia.
Qed.

(** The 512-bit product is exact. *)
Lemma product_of_ok a b : U256.ok a → U256.ok b →
  wf (product_of a b) ∧ value (product_of a b) = a * b.
Proof.
  intros Ha Hb. destruct (U256.halves a Ha) as (Ea & Hah & Hal), (U256.halves b Hb) as (Eb & Hbh & Hbl).
  unfold product_of.
  destruct (mul_halves _ _ Hal Hbl) as [-> Hll]. destruct (mul_halves _ _ Hal Hbh) as [-> Hlh].
  destruct (mul_halves _ _ Hah Hbl) as [-> Hhl]. destruct (mul_halves _ _ Hah Hbh) as [-> Hhh].
  set (al := U256.low a) in *. set (ah := U256.high a) in *. set (bl := U256.low b) in *. set (bh := U256.high b) in *.
  destruct (left_shift_ok _ Hlh) as [Hw1 E1]. destruct (left_shift_ok _ Hhl) as [Hw2 E2].
  assert (wf (mk (ah * bh) (al * bl))) as Hw0 by done.
  destruct (double_add_ok _ _ Hw0 Hw1) as [Hw3 E3]. destruct (double_add_ok _ _ Hw3 Hw2) as [Hw4 E4].
  split; [done|]. rewrite E4, E3, E1, E2, Z.add_mod_idemp_l by done. unfold value. cbn [high low].
  assert (ah * bh * 2 ^ 256 + al * bl + al * bh * 2 ^ 128 + ah * bl * 2 ^ 128 = a * b) as ->.
  { rewrite Ea, Eb. replace (2 ^ 256) with (2 ^ 128 * 2 ^ 128) by done. ring. }
  apply Z.mod_small. destruct Ha, Hb. replace (2 ^ 512) with (2 ^ 256 * 2 ^ 256) by done. nia.
Qed.

(** *** Division *)

Section division.
Context (b : Z) (Hb : 1 < b < 2 ^ 256).

Lemma neg256_eq : neg256 b = 2 ^ 256 - b.
Proof.
  unfold neg256, U256.overflowing_add. cbn [fst]. rewrite U256.not_eq by (split; lia).
  unfold U256.max. rewrite U256.wrap_small by (split; lia). lia.
Qed.

Lemma base_split : 2 ^ 256 = div256 b * b + mod256 b ∧ U256.ok (div256 b) ∧ 0 ≤ mod256 b < b ∧
  2 * mod256 b < 2 ^ 256.
Proof.
  unfold div256, mod256, U256.overflowing_add. cbn [fst]. rewrite neg256_eq.
  pose proof (Z.div_mod (2 ^ 256 - b) b ltac:(lia)) as E.
  pose proof (Z.mod_pos_bound (2 ^ 256 - b) b ltac:(lia)) as Hr.
  assert (0 ≤ (2 ^ 256 - b) / b) as Hq by (apply Z.div_pos; lia).
  revert E Hr Hq. generalize ((2 ^ 256 - b) / b) as q, ((2 ^ 256 - b) mod b) as r. intros q r E Hr Hq.
  assert (U256.ok (q + 1)) as Hk by (split; [lia|nia]). rewrite (U256.wrap_small _ Hk).
  split; [lia|]. split; [done|]. split; [done|]. nia.
Qed.

Lemma quotient_round x h : wf x → U256.ok h → value x + h * div256 b < 2 ^ 512 →
  wf (add x (product_of h (div256 b))) ∧
  value (add x (product_of h (div256 b))) = value x + h * div256 b.
Proof.
  intros Hx Hh Hlt. destruct base_split as (_ & Hq & _).
  destruct (product_of_ok _ _ Hh Hq) as [Hw1 E1]. destruct (double_add_ok _ _ Hx Hw1) as [Hw2 E2].
  split; [done|]. rewrite E2, E1. apply Z.mod_small. split; [|done].
  destruct (value_bound x Hx) as [Hv _], Hh as [Hh _], Hq as [Hq _]. clear -Hv Hh Hq. nia.
Qed.

Lemma rest_value h l : U256.ok h → U256.ok l → wf (add (product_of h (mod256 b)) (mk 0 l)) ∧ 
  value (add (product_of h (mod256 b)) (mk 0 l)) = (h * mod256 b + l) mod 2 ^ 512.
Proof.
  intros Hh Hl. destruct base_split as (_ & _ & Hr & Hr2).
  destruct (product_of_ok h (mod256 b) Hh) as [Hw1 E1]; [split; lia|].
  assert (wf (mk 0 l)) as Hw2 by (split; [split; done|done]). destruct (double_add_ok _ _ Hw1 Hw2) as [Hw3 E3].
  rewrite E1 in E3. change (value (mk 0 l)) with l in E3. done.
Qed.

Lemma rest_round h l d : U256.ok h → U256.ok l → d = add (product_of h (mod256 b)) (mk 0 l) →
  wf d ∧ value d = h * mod256 b + l ∧ 2 * high d ≤ h + 1.
Proof.
  intros Hh Hl Hd. destruct (rest_value h l Hh Hl) as [Hw E]. rewrite <- Hd in Hw, E. clear Hd.
  destruct base_split as (_ & _ & Hr & Hr2). destruct Hh as [Hh1 Hh2], Hl as [Hl1 Hl2].
  assert (h * (2 * mod256 b) ≤ h * 2 ^ 256) by (apply Z.mul_le_mono_nonneg_l; lia).
  assert (0 ≤ h * mod256 b) by (apply Z.mul_nonneg_nonneg; lia).
  rewrite Z.mod_small in E by lia. split; [done|]. split; [done|].
  destruct Hw as [[] []]. unfold value in E. lia.
Qed.

(** The quotient so far and the rest, of a dividend [n]. *)
Definition divides (n : Z) (x d : t) : Prop := wf x ∧ wf d ∧ value x * b + value d = n.

(** One round keeps the dividend and halves the upper half. *)
Lemma div_round n x d x' d' : divides n x d → n < 2 ^ 512 →
  x' = add x (product_of (high d) (div256 b)) → d' = add (product_of (high d) (mod256 b)) (low_part d) →
  divides n x' d' ∧ value d' = high d * mod256 b + low d ∧ 2 * high d' ≤ high d + 1.
Proof.
  intros (Hx & Hd & En) Hlt Ex' Ed'. pose proof Hd as [Hh Hl].
  destruct (rest_round _ _ _ Hh Hl Ed') as (Hwd & Evd & Hhd). destruct base_split as (E & Hq & Hr & _).
  assert (value x * b + (high d * (div256 b * b + mod256 b) + low d) = n) as En' by (rewrite <- E; exact En).
  assert (0 ≤ high d * mod256 b) by (destruct Hh; apply Z.mul_nonneg_nonneg; lia).
  assert (0 ≤ high d * div256 b) by (destruct Hh, Hq; by apply Z.mul_nonneg_nonneg).
  pose proof (value_bound x Hx). destruct Hl as [Hl _].
  assert ((value x + high d * div256 b) * 1 ≤ (value x + high d * div256 b) * b)
    by (apply Z.mul_le_mono_nonneg_l; lia).
  destruct (quotient_round x (high d) Hx Hh) as [Hwx Evx]; [lia|]. rewrite <- Ex' in Hwx, Evx.
  split; [|done]. split; [done|]. split; [done|]. rewrite Evx, Evd. lia.
Qed.

Lemma div_loop_done fuel x d : high d = 0 → div_loop fuel (div256 b) (mod256 b) x d = (x, d).
Proof. intros Hd. destruct fuel; cbn; [done|]. by rewrite Hd. Qed.

Lemma div_loop_step fuel x d : high d ≠ 0 → div_loop (S fuel) (div256 b) (mod256 b) x d =
  div_loop fuel (div256 b) (mod256 b) (add x (product_of (high d) (div256 b)))
    (add (product_of (high d) (mod256 b)) (low_part d)).
Proof. intros Hd%Z.eqb_neq. cbn [div_loop]. by rewrite Hd. Qed.

(** The last rounds. *)
Lemma div_loop_last n x d : divides n x d → n < 2 ^ 512 → high d ≤ 1 →
  ∃ x' d', div_loop 3 (div256 b) (mod256 b) x d = (x', d') ∧ divides n x' d' ∧ high d' = 0.
Proof.
  intros Hn Hlt Hk. destruct (Z.eq_dec (high d) 0) as [H0|H0]; [exists x, d; by rewrite div_loop_done|].
  rewrite (div_loop_step _ _ _ H0).
  destruct (div_round _ _ _ _ _ Hn Hlt eq_refl eq_refl) as (Hn1 & E1 & H1). revert Hn1 E1 H1.
  generalize (add x (product_of (high d) (div256 b))) as x1,
    (add (product_of (high d) (mod256 b)) (low_part d)) as d1. intros x1 d1 Hn1 E1 H1.
  destruct (Z.eq_dec (high d1) 0) as [H2|H2]; [exists x1, d1; by rewrite div_loop_done|].
  rewrite (div_loop_step _ _ _ H2).
  destruct (div_round _ _ _ _ _ Hn1 Hlt eq_refl eq_refl) as (Hn2 & E2 & H3). revert Hn2 E2 H3.
  generalize (add x1 (product_of (high d1) (div256 b))) as x2,
    (add (product_of (high d1) (mod256 b)) (low_part d1)) as d2. intros x2 d2 Hn2 E2 H3.
  exists x2, d2. destruct base_split as (_ & _ & Hr & Hr2).
  destruct Hn as (_ & [[] []] & _), Hn1 as (_ & [[] []] & _). pose proof Hn2 as (_ & [[] []] & _).
  assert (high d = 1) as Eh by lia. assert (high d1 = 1) as Eh1 by lia.
  rewrite Eh in E1. rewrite Eh1 in E2. unfold value in E1, E2. rewrite Eh1 in E1.
  assert (high d2 = 0) as Eh2 by lia. by rewrite div_loop_done.
Qed.

Lemma div_loop_ok k n x d : divides n x d → n < 2 ^ 512 → high d ≤ 2 ^ Z.of_nat k →
  ∃ x' d', div_loop (k + 3) (div256 b) (mod256 b) x d = (x', d') ∧ divides n x' d' ∧ high d' = 0.
Proof.
  revert x d. induction k as [|k IH]; intros x d Hn Hlt Hk; [by apply div_loop_last|].
  destruct (Z.eq_dec (high d) 0) as [H0|H0]; [exists x, d; by rewrite div_loop_done|].
  destruct (div_round _ _ _ _ _ Hn Hlt eq_refl eq_refl) as (Hn1 & E1 & H1).
  rewrite Nat.add_succ_l, (div_loop_step _ _ _ H0). apply IH; [done|done|].
  rewrite Nat2Z.inj_succ, Z.pow_succ_r in Hk by lia. lia.
Qed.
End division.

(** The quotient and the remainder of a division are exact. *)
Lemma div_exact d b : wf d → 0 < b < 2 ^ 256 →
  wf (fst (div d b)) ∧ value (fst (div d b)) = value d / b ∧ snd (div d b) = value d mod b.
Proof.
  intros Hd Hb. unfold div. destruct (Z.eqb_spec b 1) as [->|Hb1].
  { cbn. by rewrite Z.div_1_r, Z.mod_1_r. }
  assert (1 < b < 2 ^ 256) as Hb' by lia. pose proof (value_bound d Hd) as Hv.
  assert (divides b (value d) zero d) as Hn by (split; [by split|]; by split).
  destruct (div_loop_ok b Hb' 257 (value d) zero d Hn ltac:(lia)) as (x & r & Hl & (Hx & Hr & En) & Hh);
    [destruct Hd as [[_ Hd] _]; lia|].
  change (257 + 3)%nat with 260%nat in Hl. rewrite Hl. cbn [fst snd].
  assert (value r = low r) as Er by (unfold value; rewrite Hh; lia). rewrite Er in En.
  rewrite <- En, Z.add_comm, Z.div_add, Z.mod_add by lia.
  destruct Hr as [_ [Hl1 Hl2]]. pose proof (Z.div_pos (low r) b Hl1 ltac:(lia)) as Hq1.
  pose proof (Z.mul_div_le (low r) b ltac:(lia)) as Hq2.
  assert (low r / b < 2 ^ 256) as Hq3 by (apply Z.div_lt_upper_bound; lia || nia).
  assert (wf (from_low (low r / b))) as Hw by (split; by split).
  destruct (double_add_ok _ _ Hx Hw) as [Hw' Ev]. split; [done|]. split; [|done]. rewrite Ev.
  change (value (from_low (low r / b))) with (low r / b). rewrite Z.mod_small; [lia|].
  pose proof (value_bound x Hx). split; [lia|].
  assert ((value x + low r / b) * 1 ≤ (value x + low r / b) * b) by (apply Z.mul_le_mono_nonneg_l; lia). lia.
Qed.
End Double256.

(** ** Multiplication and division *)

Definition multiply_by_rational_with_rounding (a b c : Z) (r : Rounding) : option Z :=
  if c =? 0 then None else
  let '(quotient, remainder) := Double256.div (Double256.product_of a b) c in
  result ← Double256.try_into_u256 quotient;
  if match r with
     | Up => 0 <? remainder
     | NearestPrefUp => c / 2 + c mod 2 <=? remainder
     | NearestPrefDown => c / 2 <? remainder
     | Down => false
     end
  then U256.checked_add result 1
  else Some result.

(** The exact quotient, rounded. *)
Definition rounded (r : Rounding) (n c : Z) : Z :=
  match r with
  | Up => (n + c - 1) / c
  | Down => n / c
  | NearestPrefUp => (2 * n + c) / (2 * c)
  | NearestPrefDown => (2 * n + c - 1) / (2 * c)
  end.

(** ** Square root *)

(** The loop from the bit [bit] downwards. *)
Fixpoint sqrt_loop (fuel : nat) (n result bit : Z) : Z :=
  match fuel with
  | O => result
  | S fuel =>
      if bit =? 0 then result
      else if U256.add result bit <=? n
      then sqrt_loop fuel (U256.sub n (U256.add result bit)) (U256.add (Z.shiftr result 1) bit) (Z.shiftr bit 2)
      else sqrt_loop fuel n (Z.shiftr result 1) (Z.shiftr bit 2)
  end.

(** There are 128 powers of four. *)
Definition sqrt (n : Z) : Z :=
  if n =? 0 then 0 else
  let max_shift := U256.leading_zeros 0 - 1 in
  let shift := Z.land (max_shift - U256.leading_zeros n) (Z.lnot 1) in
  sqrt_loop 129 n 0 (U256.shl 1 shift).

Lemma rounded_spec r n c : 0 < c →
  rounded r n c = n / c + (if match r with
                              | Up => 0 <? n mod c
                              | NearestPrefUp => c / 2 + c mod 2 <=? n mod c
                              | NearestPrefDown => c / 2 <? n mod c
                              | Down => false
                              end then 1 else 0).
Proof.
  intros Hc. pose proof (Z.div_mod n c ltac:(lia)) as E. pose proof (Z.mod_pos_bound n c Hc) as Hr.
  pose proof (Z.div_mod c 2 ltac:(done)). pose proof (Z.mod_pos_bound c 2 eq_refl).
  set (q := n / c) in *. set (m := n mod c) in *. clearbody q m. subst n. unfold rounded.
  destruct r.
  - destruct (Z.ltb_spec 0 m).
    + symmetry. apply (Z.div_unique_pos _ _ _ (m - 1)); lia.
    + symmetry. apply (Z.div_unique_pos _ _ _ (c - 1)); lia.
  - rewrite Z.add_0_r. symmetry. by apply (Z.div_unique_pos _ _ _ m).
  - destruct (Z.leb_spec (c / 2 + c mod 2) m).
    + symmetry. apply (Z.div_unique_pos _ _ _ (2 * m - c)); lia.
    + symmetry. apply (Z.div_unique_pos _ _ _ (2 * m + c)); lia.
  - destruct (Z.ltb_spec (c / 2) m).
    + symmetry. apply (Z.div_unique_pos _ _ _ (2 * m - c - 1)); lia.
    + symmetry. apply (Z.div_unique_pos _ _ _ (2 * m + c - 1)); lia.
Qed.

Lemma mul_div_ok a b c r : U256.ok a → U256.ok b → 0 < c < 2 ^ 256 →
  multiply_by_rational_with_rounding a b c r = checked U256.max (rounded r (a * b) c).
Proof.
  intros Ha Hb Hc. unfold multiply_by_rational_with_rounding.
  rewrite (proj2 (Z.eqb_neq c 0)) by lia.
  destruct (Double256.product_of_ok a b Ha Hb) as [Hw Ev].
  destruct (Double256.div_exact _ c Hw Hc) as (Hwq & Eq & Er). rewrite Ev in Eq, Er.
  destruct (Double256.div _ _) as [d m]. cbn [fst snd] in *. subst m. rewrite rounded_spec by lia.
  set (up := match r with Up => _ | Down => _ | NearestPrefUp => _ | NearestPrefDown => _ end). clearbody up.
  pose proof Hwq as [[Hh1 Hh2] [Hl1 Hl2]]. unfold Double256.value in Eq. unfold Double256.try_into_u256.
  destruct (Z.eqb_spec (Double256.high d) 0) as [H0|H0].
  - rewrite H0 in Eq. replace (0 * 2 ^ 256 + Double256.low d) with (Double256.low d) in Eq by lia.
    cbn [mbind option_bind]. rewrite <- Eq. destruct up; [done|]. rewrite Z.add_0_r.
    symmetry. apply checked_Some. unfold U256.max. lia.
  - cbn. symmetry. unfold checked. destruct (fits U256.max _) eqn:Ef; [|done]. exfalso.
    apply fits_true in Ef as [_ Ef]. unfold U256.max in Ef. rewrite <- Eq in Ef. destruct up; lia.
Qed.

(** *** The square root *)

Lemma sqrt_step fuel n q B : 0 ≤ q → 0 < B → (4 * q + 1) * B < 2 ^ 256 → U256.ok n →
  sqrt_loop (S fuel) n (4 * q * B) B =
  if (4 * q + 1) * B <=? n then sqrt_loop fuel (n - (4 * q + 1) * B) ((2 * q + 1) * B) (Z.shiftr B 2)
  else sqrt_loop fuel n (2 * q * B) (Z.shiftr B 2).
Proof.
  intros Hq HB Hlt [Hn1 Hn2]. cbn [sqrt_loop]. rewrite (proj2 (Z.eqb_neq B 0)) by lia.
  assert (0 ≤ q * B) by nia. unfold U256.add, U256.sub.
  rewrite (U256.wrap_small (4 * q * B + B)) by (split; lia).
  replace (4 * q * B + B) with ((4 * q + 1) * B) by ring.
  replace (Z.shiftr (4 * q * B) 1) with (2 * q * B).
  2: { rewrite Z.shiftr_div_pow2 by done. replace (4 * q * B) with (2 * q * B * 2 ^ 1) by ring. by rewrite Z.div_mul. }
  destruct (Z.leb_spec ((4 * q + 1) * B) n); [|done].
  rewrite !U256.wrap_small by (split; lia). by replace (2 * q * B + B) with ((2 * q + 1) * B) by ring.
Qed.

Lemma pow4_pos k : 0 < 4 ^ Z.of_nat k.
Proof. apply Z.pow_pos_nonneg; lia. Qed.

Lemma pow4_le k : (k < 128)%nat → 4 ^ Z.of_nat k ≤ 4 ^ 127.
Proof. intros Hk. apply Z.pow_le_mono_r; lia. Qed.

(** The sum of the loop does not overflow. *)
Lemma sqrt_no_overflow k m q : U256.ok m → 0 ≤ q → 4 * q * q * 4 ^ Z.of_nat k ≤ m → (k < 128)%nat →
  (4 * q + 1) * 4 ^ Z.of_nat k < 2 ^ 256.
Proof.
  intros [_ Hm] Hq Hle Hk. pose proof (pow4_pos k) as HB. pose proof (pow4_le k Hk) as HB2.
  destruct (decide (2 ≤ q)) as [H2|H2].
  { enough ((4 * q + 1) * 4 ^ Z.of_nat k ≤ 4 * q * q * 4 ^ Z.of_nat k) by lia.
    apply Z.mul_le_mono_nonneg_r; nia. }
  assert (q = 0 ∨ q = 1) as [-> | ->] by lia; [lia|].
  assert (4 ^ (Z.of_nat k + 1) < 4 ^ 128) as Hp by (rewrite Z.pow_add_r by lia; change (4 ^ 1) with 4; lia).
  apply Z.pow_lt_mono_r_iff in Hp; [|lia..].
  assert (4 ^ Z.of_nat k ≤ 4 ^ 126) by (apply Z.pow_le_mono_r; lia). lia.
Qed.

(** The bits of the root of [m] above those of [4 ^ k] are [q]. *)
Lemma sqrt_loop_ok k fuel m n q : U256.ok m → n = m - 4 * q * q * 4 ^ Z.of_nat k → 0 ≤ q → 0 ≤ n →
  m < 4 * (q + 1) * (q + 1) * 4 ^ Z.of_nat k → (k < 128)%nat → (k + 2 ≤ fuel)%nat →
  sqrt_loop fuel n (4 * q * 4 ^ Z.of_nat k) (4 ^ Z.of_nat k) = Z.sqrt m.
Proof.
  revert fuel n q. induction k as [|k IH]; intros fuel n q Hm Hn Hq Hn0 Hlt Hk Hf;
    (destruct fuel as [|fuel]; [lia|]).
  - pose proof (sqrt_no_overflow 0 m q Hm Hq ltac:(lia) Hk) as Ho. change (4 ^ Z.of_nat 0) with 1 in *.
    rewrite sqrt_step; [|done..|split; [done|]; destruct Hm; nia]. change (Z.shiftr 1 2) with 0.
    destruct fuel as [|fuel]; [lia|]. cbn [sqrt_loop]. change (0 =? 0) with true. cbv iota.
    destruct (Z.leb_spec ((4 * q + 1) * 1) n); symmetry; apply Z.sqrt_unique; nia.
  - pose proof (sqrt_no_overflow (S k) m q Hm Hq ltac:(lia) Hk) as Ho. pose proof (pow4_pos k) as HB.
    assert (Z.shiftr (4 ^ Z.of_nat (S k)) 2 = 4 ^ Z.of_nat k) as Es.
    { rewrite Nat2Z.inj_succ, Z.pow_succ_r, Z.shiftr_div_pow2, Z.mul_comm by lia. by rewrite Z.div_mul. }
    rewrite sqrt_step; [|done|apply pow4_pos|done|split; [done|]].
    2: { destruct Hm. pose proof (pow4_pos (S k)). nia. }
    rewrite Es, Nat2Z.inj_succ, Z.pow_succ_r in * by lia. set (B := 4 ^ Z.of_nat k) in *.
    destruct (Z.leb_spec ((4 * q + 1) * (4 * B)) n).
    + replace ((2 * q + 1) * (4 * B)) with (4 * (2 * q + 1) * B) by ring. apply IH; [done|nia|lia|lia|nia|lia|lia].
    + replace (2 * q * (4 * B)) with (4 * (2 * q) * B) by ring. apply IH; [done|nia|lia|lia|nia|lia|lia].
Qed.

(** The routine is the integer square root. *)
Lemma sqrt_ok n : U256.ok n → sqrt n = Z.sqrt n.
Proof.
  intros Hn. unfold sqrt. destruct (Z.eqb_spec n 0) as [->|H0]; [done|].
  change (U256.leading_zeros 0 - 1) with 255. unfold U256.leading_zeros. rewrite (proj2 (Z.eqb_neq n 0) H0).
  destruct Hn as [Hn1 Hn2]. pose proof (Z.log2_spec n ltac:(lia)) as Hl. pose proof (Z.log2_nonneg n) as Hp.
  replace (255 - (255 - Z.log2 n)) with (Z.log2 n) by lia.
  assert (Z.log2 n < 256) as Hlt by (by apply Z.log2_lt_pow2; lia).
  assert (Z.land (Z.log2 n) (Z.lnot 1) = 2 * (Z.log2 n / 2)) as ->.
  { rewrite <- Z.ldiff_land. change 1 with (Z.ones 1). rewrite Z.ldiff_ones_r by done.
    rewrite Z.shiftl_mul_pow2, Z.shiftr_div_pow2 by done. change (2 ^ 1) with 2. lia. }
  pose proof (Z.div_mod (Z.log2 n) 2 ltac:(done)) as E. pose proof (Z.mod_pos_bound (Z.log2 n) 2 eq_refl) as Hm.
  set (k := Z.to_nat (Z.log2 n / 2)). assert (Z.log2 n / 2 = Z.of_nat k) as Ek by (unfold k; lia). rewrite Ek in *.
  assert (2 ^ (2 * Z.of_nat k) = 4 ^ Z.of_nat k) as Ep by (by rewrite Z.pow_mul_r by lia).
  assert (k < 128)%nat as Hk by lia. clearbody k.
  assert (4 ^ Z.of_nat k ≤ n < 4 ^ Z.of_nat (S k)) as [Hb1 Hb2].
  { rewrite Nat2Z.inj_succ, <- Ep. replace (4 ^ Z.succ (Z.of_nat k)) with (2 ^ (2 * Z.succ (Z.of_nat k)))
      by by rewrite Z.pow_mul_r by lia.
    split; [transitivity (2 ^ Z.log2 n); [|lia]; apply Z.pow_le_mono_r; lia|].
    eapply Z.lt_le_trans; [apply Hl|]. apply Z.pow_le_mono_r; lia. }
  unfold U256.shl. rewrite Z.shiftl_1_l, Ep, U256.wrap_small.
  2: { pose proof (pow4_pos k). split; lia. }
  change 0 with (4 * 0 * 4 ^ Z.of_nat k) at 1. rewrite Nat2Z.inj_succ, Z.pow_succ_r in Hb2 by lia.
  apply sqrt_loop_ok; [by split|lia..].
Qed.

(** ** Properties *)

(** C25. Multiplication with division is exact: for 256-bit numbers the routine
    returns the quotient of the full 512-bit product, rounded as asked, when it
    fits 256 bits, and nothing when it does not or the divisor is zero. *)
Theorem multiply_by_rational_exact a b c r : U256.ok a → U256.ok b → U256.ok c →
  multiply_by_rational_with_rounding a b c r =
  if c =? 0 then None else checked U256.max (rounded r (a * b) c).
Proof.
  intros Ha Hb [Hc1 Hc2]. destruct (Z.eqb_spec c 0) as [->|Hc]; [done|]. apply mul_div_ok; [done..|lia].
Qed.

Lemma multiply_by_rational_exact_witness :
  multiply_by_rational_with_rounding U256.max U256.max U256.max NearestPrefUp = Some U256.max.
Proof.
  rewrite (multiply_by_rational_exact U256.max U256.max U256.max NearestPrefUp); [vm_compute; reflexivity|split; done..].
Defined.

(** C38. The square root of a 256-bit number is its integer square root. *)
Theorem sqrt_exact n : U256.ok n → sqrt n = Z.sqrt n.
Proof. apply sqrt_ok. Qed.

Lemma sqrt_exact_witness : sqrt U256.max = 2 ^ 128 - 1.
Proof. rewrite (sqrt_exact U256.max); [vm_compute; reflexivity|split; done]. Defined.
