(* ===== verification/FixedU256.v ===== *)
(** * Fixed-point numbers of 256 bits

    [FixedU256] ([common/src/fixed.rs]) is a [U256] number of 10^-18 units;
    [FixedWrapper256] ([common/src/fixed_wrapper_u256.rs]) is a [Result] of it whose
    operators propagate errors.  The number is unsigned, so the sign of the
    intermediate [I257] values is that of the other operand only. *)

From S2P Require Import Prelude FixedPoint Helpers256.

(** [N: FixedPointOperand]: the range of an integer type. *)
Record Operand := mkOperand { op_min : Z; op_max : Z }.
Definition u128_operand : Operand := mkOperand 0 u128_max.

(** A value with the sign [negative], if it is in the range ([from_i257]). *)
Definition from_i257 (N : Operand) (value : Z) (negative : bool) : option Z :=
  if negative && (op_min N <? 0) && (value =? op_max N + 1) then Some (op_min N) else
  if op_max N <? value then None else
  if negative then (if op_min N <=? - value then Some (- value) else None) else Some value.

(** [to_bound]. *)
Definition to_bound (R : Operand) (n m : Z) : Z :=
  if negb (Bool.eqb (n <? 0) (m <? 0)) then op_min R else op_max R.

Module FixedU256.

Definition DIV : Z := 1000000000000000000.

(** [TryFrom] of integers and of [Fixed]: the bits are taken over. *)
Definition try_from (value : Z) : result ArithmeticError Z :=
  if value <? 0 then Err DomainViolation else Ok value.

(** [fixed]: more times the precision. *)
Definition fixed (x : Z) : result ArithmeticError Z := ok_or (U256.checked_mul x DIV) Overflow.

Definition to_u128 (x : Z) : result ArithmeticError Z :=
  if U256.high x =? 0 then Ok (U256.low x) else Err Overflow.

Definition try_sqrt (x : Z) : option Z :=
  if x =? 0 then Some 0 else
  Some (match U256.checked_mul x DIV with
        | Some vd => Helpers256.sqrt vd
        | None => U256.mul (Helpers256.sqrt x) (Helpers256.sqrt DIV)
        end).
Definition sqrt (x : Z) : result ArithmeticError Z := ok_or (try_sqrt x) Overflow.

(** *** Checked arithmetic *)

Definition checked_add (x y : Z) : option Z := U256.checked_add x y.
Definition cadd (x y : Z) : result ArithmeticError Z := ok_or (checked_add x y) Overflow.
Definition checked_sub (x y : Z) : option Z := U256.checked_sub x y.
Definition csub (x y : Z) : result ArithmeticError Z := ok_or (checked_sub x y) Overflow.

Definition checked_mul (x y : Z) : option Z := multiply_by_rational_with_rounding x y DIV Down.
Definition cmul (x y : Z) : result ArithmeticError Z := ok_or (checked_mul x y) Overflow.

Definition checked_div (x y : Z) : option Z :=
  if y =? 0 then None else multiply_by_rational_with_rounding x DIV y Down.
Definition cdiv (x y : Z) : result ArithmeticError Z :=
  if y =? 0 then Err DivisionByZero
  else ok_or (multiply_by_rational_with_rounding x DIV y Down) Overflow.

(** *** Saturating arithmetic *)

Definition saturating_add (x y : Z) : Z := sat_add U256.max x y.
Definition saturating_sub (x y : Z) : Z := sat_sub x y.
Definition saturating_mul (x y : Z) : Z := default U256.max (checked_mul x y).

(** [saturating_pow]: square and multiply, over the bits of the exponent. *)
Fixpoint pow_loop (bits : nat) (exp result pow_val : Z) : Z :=
  match bits with
  | O => result
  | S bits =>
      let result := if Z.odd exp then saturating_mul result pow_val else result in
      pow_loop bits (exp / 2) result (saturating_mul pow_val pow_val)
  end.
Definition saturating_pow (x exp : Z) : Z :=
  if exp =? 0 then DIV else
  let exp := exp mod 2 ^ 32 in
  pow_loop (Z.to_nat (Z.log2 exp + (if exp =? 0 then 0 else 1))) exp DIV x.

(** *** Integers and rationals, for operands that convert to [U256] *)

Definition from_u32 (n : Z) : Z := U256.mul n DIV.

Definition saturating_from_integer (int : Z) : Z := sat_mul U256.max int DIV.
Definition checked_from_integer (int : Z) : option Z := U256.checked_mul int DIV.

(** [None] is the panic of a zero denominator or of an overflow. *)
Definition from_rational_with_rounding (a b : Z) (r : Rounding) : option Z :=
  if b =? 0 then None else multiply_by_rational_with_rounding DIV a b r.
Definition from_rational (a b : Z) : option Z := from_rational_with_rounding a b NearestPrefDown.

Definition const_checked_mul_with_rounding (x y : Z) (r : Rounding) : option Z :=
  multiply_by_rational_with_rounding x y DIV r.
Definition const_checked_mul (x y : Z) : option Z := const_checked_mul_with_rounding x y NearestPrefDown.
Definition checked_rounding_div (x y : Z) (r : Rounding) : option Z :=
  if y =? 0 then None else multiply_by_rational_with_rounding x DIV y r.
Definition const_checked_div (x y : Z) : option Z := checked_rounding_div x y NearestPrefDown.

Definition checked_from_rational (n d : Z) : option Z :=
  if d =? 0 then None else
  if negb (Bool.eqb (n <? 0) (d <? 0))
  then v ← multiply_by_rational_with_rounding (Z.abs n) DIV (Z.abs d) Down;
       from_i257 (mkOperand 0 U256.max) v true
  else multiply_by_rational_with_rounding (Z.abs n) DIV (Z.abs d) Down.

Definition checked_mul_int (N : Operand) (x n : Z) : option Z :=
  v ← multiply_by_rational_with_rounding x (Z.abs n) DIV Down;
  from_i257 N v (n <? 0).
Definition saturating_mul_int (N : Operand) (x n : Z) : Z :=
  default (to_bound N x n) (checked_mul_int N x n).

Definition checked_div_int (N : Operand) (x d : Z) : option Z :=
  if d =? 0 then None else from_i257 N (x / Z.abs d / DIV) (d <? 0).

Definition reciprocal (x : Z) : option Z := checked_div DIV x.

(** [trunc], [frac], [ceil], [floor] and [round]; [None] is the panic of [expect]. *)
Definition trunc (x : Z) : option Z := U256.checked_mul (x / DIV) DIV.
Definition frac (x : Z) : option Z := saturating_sub x <$> trunc x.
Definition ceil (x : Z) : option Z :=
  f ← frac x; if f =? 0 then Some x else trunc (saturating_add x DIV).
Definition floor (x : Z) : option Z := trunc x.
Definition round (x : Z) : option Z :=
  f ← frac x;
  if saturating_mul f (10 * DIV) <? 5 * DIV then trunc x else trunc (saturating_add x DIV).

(** [is_one] compares the units, not the number. *)
Definition is_one (x : Z) : bool := x =? 1.

(** *** Lemmas *)

Lemma DIV_ok : U256.ok DIV.
Proof. by split. Qed.

Lemma to_u128_ok x y : U256.ok x → to_u128 x = Ok y ↔ y = x ∧ x ≤ u128_max.
Proof.
  intros Hx. destruct (U256.halves x Hx) as (E & [Hh _] & [Hl1 Hl2]). unfold to_u128.
  destruct (Z.eqb_spec (U256.high x) 0) as [H0|H0].
  - rewrite H0 in E. rewrite <- E at 1. change (u128_max) with (2 ^ 128 - 1). split; [|intros [-> _]; congruence].
    intros [= <-]. lia.
  - split; [done|]. intros [-> ?]. change (u128_max) with (2 ^ 128 - 1) in *. lia.
Qed.

Lemma cadd_ok x y z : cadd x y = Ok z ↔ z = x + y ∧ U256.ok z.
Proof.
  unfold cadd. rewrite result_ok_or_ok. unfold checked_add, U256.checked_add. rewrite checked_Some.
  unfold U256.ok, U256.max. split; [intros [-> ?]|intros [-> ?]]; (split; [done|lia]).
Qed.

Lemma csub_ok x y z : csub x y = Ok z ↔ z = x - y ∧ U256.ok z.
Proof.
  unfold csub. rewrite result_ok_or_ok. unfold checked_sub, U256.checked_sub. rewrite checked_Some.
  unfold U256.ok, U256.max. split; [intros [-> ?]|intros [-> ?]]; (split; [done|lia]).
Qed.

Lemma mul_div_Some x y c z : U256.ok x → U256.ok y → U256.ok c → 0 < c →
  multiply_by_rational_with_rounding x y c Down = Some z ↔ z = x * y / c ∧ U256.ok z.
Proof.
  intros Hx Hy [_ Hc] H0. rewrite mul_div_ok by done. cbn [rounded]. rewrite checked_Some.
  unfold U256.ok, U256.max. split; [intros [-> ?]|intros [-> ?]]; (split; [done|lia]).
Qed.

(** Products and quotients are rounded down. *)
Lemma cmul_ok x y z : U256.ok x → U256.ok y → cmul x y = Ok z ↔ z = x * y / DIV ∧ U256.ok z.
Proof.
  intros Hx Hy. unfold cmul. rewrite result_ok_or_ok. unfold checked_mul.
  by apply mul_div_Some; [..|apply DIV_ok|].
Qed.

Lemma cdiv_ok x y z : U256.ok x → U256.ok y → cdiv x y = Ok z ↔ 0 < y ∧ z = x * DIV / y ∧ U256.ok z.
Proof.
  intros Hx Hy. unfold cdiv. destruct (Z.eqb_spec y 0) as [->|H0]; [split; [done|intros [? _]; lia]|].
  assert (0 < y) by (destruct Hy; lia).
  rewrite result_ok_or_ok, mul_div_Some by (done || apply DIV_ok). naive_solver.
Qed.
End FixedU256.

Module FixedWrapper256.

Definition t := result ArithmeticError Z.

(** [From] of unsigned integers and of [FixedU256] that need no check. *)
Definition from (value : Z) : t := Ok value.
Definition try_from (value : Z) : t := FixedU256.try_from value.

Definition zip (a b : t) : result ArithmeticError (Z * Z) := x ← a; y ← b; mret (x, y).
Definition lift2 (f : Z → Z → result ArithmeticError Z) (a b : t) : t := p ← zip a b; f (fst p) (snd p).

Definition add (a b : t) : t := lift2 FixedU256.cadd a b.
Definition sub (a b : t) : t := lift2 FixedU256.csub a b.
Definition mul (a b : t) : t := lift2 FixedU256.cmul a b.
Definition div (a b : t) : t := lift2 FixedU256.cdiv a b.

(** The operators with a plain number on the right. *)
Definition with_number (f : t → t → t) (a : t) (rhs : Z) : t :=
  match a with Ok _ => f a (from rhs) | Err _ => Err Overflow end.

Definition sqrt_accurate (a : t) : t := x ← a; FixedU256.sqrt x.

Definition multiply_and_sqrt (a b : t) : t := mul (sqrt_accurate a) (sqrt_accurate b).

Definition pow (a : t) (x : nat) : t := fold_left (λ acc _, mul acc a) (seq 0 x) (from 1).

Definition try_into_balance (a : t) : result ArithmeticError Z := x ← a; FixedU256.to_u128 x.

(** [into_balance] outside tests. *)
Definition into_balance (a : t) : Z := match a with Ok x => Z.min u128_max x | Err _ => 0 end.

(** [partial_cmp]: errors are not ordered. *)
Definition lt (a b : t) : bool := match zip a b with Ok (x, y) => x <? y | Err _ => false end.

(** *** Runs that succeed *)

Lemma lift2_ok f a b z : lift2 f a b = Ok z ↔ ∃ x y, a = Ok x ∧ b = Ok y ∧ f x y = Ok z.
Proof. unfold lift2, zip. destruct a, b; cbn; naive_solver. Qed.

Lemma div_args a b z : div a b = Ok z → ∃ x y, a = Ok x ∧ b = Ok y.
Proof. unfold div. rewrite lift2_ok. naive_solver. Qed.

(** A wrapper holds a 256-bit number, if any. *)
Definition wf (a : t) : Prop := ∀ x, a = Ok x → U256.ok x.

Lemma from_wf x : U256.ok x → wf (from x).
Proof. by intros Hx y [= <-]. Qed.

Lemma u128_wf x : is_u128 x → wf (from x).
Proof. intros [? ?]. apply from_wf. split; [done|]. change u128_max with (2 ^ 128 - 1) in *. lia. Qed.

Lemma add_wf a b : wf (add a b).
Proof. intros z (x & y & _ & _ & [_ ?]%FixedU256.cadd_ok)%lift2_ok. done. Qed.
Lemma sub_wf a b : wf (sub a b).
Proof. intros z (x & y & _ & _ & [_ ?]%FixedU256.csub_ok)%lift2_ok. done. Qed.
Lemma mul_wf a b : wf a → wf b → wf (mul a b).
Proof.
  intros Ha Hb z (x & y & Hx%Ha & Hy%Hb & Hz)%lift2_ok. by apply FixedU256.cmul_ok in Hz as [_ ?].
Qed.
Lemma div_wf a b : wf a → wf b → wf (div a b).
Proof.
  intros Ha Hb z (x & y & Hx%Ha & Hy%Hb & Hz)%lift2_ok. by apply FixedU256.cdiv_ok in Hz as (_ & _ & ?).
Qed.

Lemma wrapper_add_ok a b z : add a b = Ok z ↔ ∃ x y, a = Ok x ∧ b = Ok y ∧ z = x + y ∧ U256.ok z.
Proof. unfold add. rewrite lift2_ok. by setoid_rewrite FixedU256.cadd_ok. Qed.

Lemma sub_ok a b z : sub a b = Ok z ↔ ∃ x y, a = Ok x ∧ b = Ok y ∧ z = x - y ∧ U256.ok z.
Proof. unfold sub. rewrite lift2_ok. by setoid_rewrite FixedU256.csub_ok. Qed.

Lemma wrapper_mul_ok a b z : wf a → wf b → mul a b = Ok z ↔
  ∃ x y, a = Ok x ∧ b = Ok y ∧ z = x * y / FixedU256.DIV ∧ U256.ok z.
Proof.
  intros Ha Hb. unfold mul. rewrite lift2_ok. split; intros (x & y & Hx & Hy & Hz); exists x, y.
  - by rewrite FixedU256.cmul_ok in Hz by auto.
  - rewrite FixedU256.cmul_ok by auto. done.
Qed.

Lemma wrapper_div_ok a b z : wf a → wf b → div a b = Ok z ↔
  ∃ x y, a = Ok x ∧ b = Ok y ∧ 0 < y ∧ z = x * FixedU256.DIV / y ∧ U256.ok z.
Proof.
  intros Ha Hb. unfold div. rewrite lift2_ok. split; intros (x & y & Hx & Hy & Hz); exists x, y.
  - by rewrite FixedU256.cdiv_ok in Hz by auto.
  - rewrite FixedU256.cdiv_ok by auto. done.
Qed.

Lemma try_into_balance_ok a z : wf a → try_into_balance a = Ok z ↔ a = Ok z ∧ z ≤ u128_max.
Proof.
  intros Ha. unfold try_into_balance. destruct a as [x|e]; cbn; [|naive_solver].
  rewrite FixedU256.to_u128_ok by by apply Ha. naive_solver.
Qed.

Lemma with_number_ok f a n z : with_number f a n = Ok z ↔ (∃ x, a = Ok x) ∧ f a (from n) = Ok z.
Proof. unfold with_number. destruct a; naive_solver. Qed.
End FixedWrapper256.
