(* ===== verification/Units.v ===== *)
(** * [BalanceUnit]: balances with a precision flag ([common/src/balance_unit.rs])

    A [BalanceUnit] is a [u128] with a flag: divisible values count 10^-18
    units, indivisible values count whole units.  [value] is the number of
    10^-18 units a balance stands for; the theorems relate every operation to
    it. *)

From S2P Require Import Prelude BTreeMap FixedPoint.

Module BalanceUnit.

Definition RATIO : Z := 1000000000000000000.

Record t := mk { inner : Z; is_divisible : bool }.

#[global] Instance t_eq_dec : EqDecision t.
Proof. solve_decision. Defined.

#[global] Instance t_countable : Countable t.
Proof.
  refine (inj_countable' (λ u, (inner u, is_divisible u)) (λ p, mk (fst p) (snd p)) _).
  by intros [].
Defined.

Definition new (balance : Z) (d : bool) : t := mk balance d.
Definition zero : t := new 0 false.
Definition one : t := new 1 false.
Definition divisible (balance : Z) : t := new balance true.
Definition indivisible (balance : Z) : t := new balance false.
Definition copy_divisibility (u : t) (balance : Z) : t := new balance (is_divisible u).
Definition balance (u : t) : Z := inner u.
Definition set (u : t) (v : Z) : t := mk v (is_divisible u).
Definition is_zero (u : t) : bool := inner u =? 0.

Definition integer (u : t) : Z := if is_divisible u then inner u / RATIO else inner u.
Definition fractional (u : t) : Z := if is_divisible u then inner u mod RATIO else 0.

(** [Ord::cmp]: integer parts first, then fractional parts. *)
#[global] Instance t_ord : Ord t := λ a b,
  match Z.compare (integer a) (integer b) with
  | Eq => Z.compare (fractional a) (fractional b)
  | c => c
  end.

Definition is_one (u : t) : bool := match cmp u one with Eq => true | _ => false end.

(** [PartialOrd] operators. *)
Definition lt (a b : t) : bool := match cmp a b with Lt => true | _ => false end.
Definition le (a b : t) : bool := match cmp a b with Gt => false | _ => true end.
Definition ge (a b : t) : bool := match cmp a b with Lt => false | _ => true end.
Definition gt (a b : t) : bool := match cmp a b with Gt => true | _ => false end.

(** Operands scaled to a common precision, with wrap-around ([Add], [Sub]), as
    [checked_add] and [checked_sub] do it, and as the saturating operators do
    it. *)
Definition scale_wrapping (a b : t) : Z * Z :=
  match is_divisible a, is_divisible b with
  | false, true => (u128_wrap (inner a * RATIO), inner b)
  | true, false => (inner a, u128_wrap (inner b * RATIO))
  | _, _ => (inner a, inner b)
  end.

Definition scale_checked (a b : t) : option (Z * Z) :=
  match is_divisible a, is_divisible b with
  | false, true => l ← u128_checked_mul (inner a) RATIO; Some (l, inner b)
  | true, false => r ← u128_checked_mul (inner b) RATIO; Some (inner a, r)
  | _, _ => Some (inner a, inner b)
  end.

Definition scale_saturating (a b : t) : Z * Z :=
  match is_divisible a, is_divisible b with
  | false, true => (sat_mul u128_max (inner a) RATIO, inner b)
  | true, false => (inner a, sat_mul u128_max (inner b) RATIO)
  | _, _ => (inner a, inner b)
  end.

Definition add (a b : t) : t :=
  let '(l, r) := scale_wrapping a b in new (u128_wrap (l + r)) (is_divisible a || is_divisible b).

Definition sub (a b : t) : t :=
  let '(l, r) := scale_wrapping a b in new (u128_wrap (l - r)) (is_divisible a || is_divisible b).

Definition checked_add (a b : t) : option t :=
  '(l, r) ← scale_checked a b;
  s ← u128_checked_add l r;
  Some (new s (is_divisible a || is_divisible b)).

Definition checked_sub (a b : t) : option t :=
  '(l, r) ← scale_checked a b;
  s ← u128_checked_sub l r;
  Some (new s (is_divisible a || is_divisible b)).

Definition saturating_add (a b : t) : t :=
  let '(l, r) := scale_saturating a b in
  new (sat_add u128_max l r) (is_divisible a || is_divisible b).

Definition saturating_sub (a b : t) : t :=
  let '(l, r) := scale_saturating a b in
  new (sat_sub l r) (is_divisible a || is_divisible b).

Definition ok {E A} (r : result E A) : option A :=
  match r with Ok a => Some a | Err _ => None end.

(** [FixedWrapper::from(a) * FixedWrapper::from(b)].[try_into_balance()]. *)
Definition fixed_mul (x y : Z) : option Z :=
  ok (FixedWrapper.try_into_balance
        (FixedWrapper.mul (FixedWrapper.from_int x) (FixedWrapper.from_int y))).

Definition fixed_div (x y : Z) : option Z :=
  ok (FixedWrapper.try_into_balance
        (FixedWrapper.div (FixedWrapper.from_int x) (FixedWrapper.from_int y))).

(** [Mul]: [None] is the panic of [unwrap]. *)
Definition mul (a b : t) : option t :=
  m ← (if is_divisible a && is_divisible b
       then fixed_mul (inner a) (inner b)
       else Some (u128_wrap (inner a * inner b)));
  Some (new m (is_divisible a || is_divisible b)).

Definition checked_mul (a b : t) : option t :=
  m ← (if is_divisible a && is_divisible b
       then fixed_mul (inner a) (inner b)
       else u128_checked_mul (inner a) (inner b));
  Some (new m (is_divisible a || is_divisible b)).

Definition saturating_mul (a b : t) : t :=
  let m := if is_divisible a && is_divisible b
           then default u128_max (fixed_mul (inner a) (inner b))
           else sat_mul u128_max (inner a) (inner b) in
  new m (is_divisible a || is_divisible b).

(** [Div]: [None] is a panic, by [unwrap] or by an integer division by zero. *)
Definition div (a b : t) : option t :=
  q ← (match is_divisible a, is_divisible b with
       | false, true => fixed_div (u128_wrap (inner a * RATIO)) (inner b)
       | true, true => fixed_div (inner a) (inner b)
       | _, _ => u128_checked_div (inner a) (inner b)
       end);
  Some (new q (is_divisible a || is_divisible b)).

Definition checked_div (a b : t) : option t :=
  q ← (match is_divisible a, is_divisible b with
       | false, true => l ← u128_checked_mul (inner a) RATIO; fixed_div l (inner b)
       | true, true => fixed_div (inner a) (inner b)
       | _, _ => u128_checked_div (inner a) (inner b)
       end);
  Some (new q (is_divisible a || is_divisible b)).

Definition pow (u : t) (x : nat) : result ArithmeticError t :=
  b ← (if is_divisible u
       then FixedWrapper.try_into_balance (FixedWrapper.pow (FixedWrapper.from_int (inner u)) x)
       else ok_or (checked u128_max (inner u ^ Z.of_nat x)) Overflow);
  mret (new b (is_divisible u)).

Definition into_indivisible (u : t) (mode : RoundMode) : t :=
  if is_divisible u then
    mk (match mode with
        | Ceil => if 0 <? inner u mod RATIO then inner u / RATIO + 1 else inner u / RATIO
        | Floor => inner u / RATIO
        end) false
  else u.

Definition into_divisible (u : t) : option t :=
  if is_divisible u then Some u
  else i ← u128_checked_mul (inner u) RATIO; Some (mk i true).

Definition checked_mul_by_scalar (u : t) (n : Z) : option t :=
  i ← u128_checked_mul (inner u) n; Some (new i (is_divisible u)).

(** ** The number a balance stands for *)

Definition value (u : t) : Z := if is_divisible u then inner u else inner u * RATIO.

Definition wf (u : t) : Prop := is_u128 (inner u).

Lemma value_nonneg u : wf u → 0 ≤ value u.
Proof. intros [? ?]. unfold value, RATIO. destruct (is_divisible u); lia. Qed.

Lemma value_inj a b : is_divisible a = is_divisible b → value a = value b → a = b.
Proof.
  destruct a as [x []], b as [y []]; unfold value, RATIO; simpl; intros [=] ?; f_equal; lia.
Qed.

Lemma value_le_same a b : is_divisible a = is_divisible b →
  value a ≤ value b ↔ inner a ≤ inner b.
Proof. unfold value, RATIO. intros ->. destruct (is_divisible b); lia. Qed.

Lemma is_zero_value u : is_zero u = (value u =? 0).
Proof.
  unfold is_zero, value, RATIO. destruct (is_divisible u); [done|].
  destruct (Z.eqb_spec (inner u) 0), (Z.eqb_spec (inner u * 1000000000000000000) 0); lia.
Qed.

Lemma compare_div_mod x y r : 0 < r →
  match Z.compare (x / r) (y / r) with Eq => Z.compare (x mod r) (y mod r) | c => c end
  = Z.compare x y.
Proof.
  intros Hr. pose proof (Z.div_mod x r ltac:(lia)). pose proof (Z.div_mod y r ltac:(lia)).
  pose proof (Z.mod_pos_bound x r Hr). pose proof (Z.mod_pos_bound y r Hr).
  destruct (Z.compare_spec (x / r) (y / r)), (Z.compare_spec (x mod r) (y mod r)),
    (Z.compare_spec x y); try done; nia.
Qed.

Lemma cmp_value (a b : t) : cmp a b = Z.compare (value a) (value b).
Proof.
  rewrite <- (compare_div_mod (value a) (value b) RATIO) by (unfold RATIO; lia).
  unfold cmp, t_ord, integer, fractional, value.
  assert (∀ x, x * RATIO / RATIO = x) as Hd by (intros; apply Z.div_mul; unfold RATIO; lia).
  assert (∀ x, x * RATIO mod RATIO = 0) as Hm by (intros; apply Z.mod_mul; unfold RATIO; lia).
  destruct (is_divisible a), (is_divisible b); by rewrite ?Hd, ?Hm.
Qed.

#[global] Instance t_total : TotalOrd t.
Proof.
  split.
  - intros. rewrite !cmp_value. apply Z.compare_antisym.
  - intros x y z. rewrite !cmp_value. by intros ->%Z.compare_eq_iff.
  - intros x y z. rewrite !cmp_value, !Z.compare_lt_iff. lia.
Qed.

Lemma cmp_eq_same (a b : t) : is_divisible a = is_divisible b → cmp a b = Eq → a = b.
Proof. rewrite cmp_value. intros ? ?%Z.compare_eq_iff. by apply value_inj. Qed.

Lemma le_value a b : le a b = (value a <=? value b).
Proof. unfold le. rewrite cmp_value. by destruct (Z.compare_spec (value a) (value b)), (Z.leb_spec (value a) (value b)); try lia. Qed.
Lemma ge_value a b : ge a b = (value b <=? value a).
Proof. unfold ge. rewrite cmp_value. by destruct (Z.compare_spec (value a) (value b)), (Z.leb_spec (value b) (value a)); try lia. Qed.
Lemma lt_value a b : lt a b = (value a <? value b).
Proof. unfold lt. rewrite cmp_value. by destruct (Z.compare_spec (value a) (value b)), (Z.ltb_spec (value a) (value b)); try lia. Qed.
Lemma gt_value a b : gt a b = (value b <? value a).
Proof. unfold gt. rewrite cmp_value. by destruct (Z.compare_spec (value a) (value b)), (Z.ltb_spec (value b) (value a)); try lia. Qed.

Lemma checked_mul_Some x y z : u128_checked_mul x y = Some z ↔ z = x * y ∧ is_u128 (x * y).
Proof. apply checked_Some. Qed.

(** Scaling to a common precision keeps both values (in the common precision). *)
Lemma scale_checked_value a b l r : scale_checked a b = Some (l, r) →
  let d := is_divisible a || is_divisible b in value (mk l d) = value a ∧ value (mk r d) = value b.
Proof.
  unfold scale_checked, value. destruct a as [x []], b as [y []]; simpl; intros Hs; simplify_eq; auto.
  - destruct (u128_checked_mul y RATIO) eqn:E; simplify_eq/=. by apply checked_mul_Some in E as [-> _].
  - destruct (u128_checked_mul x RATIO) eqn:E; simplify_eq/=. by apply checked_mul_Some in E as [-> _].
Qed.

Lemma value_flag_linear l r d : value (mk (l + r) d) = value (mk l d) + value (mk r d).
Proof. unfold value; simpl; destruct d; unfold RATIO; lia. Qed.

(** The checked sum is the exact sum of the values, in the finer of the two
    precisions, and it fails exactly when that does not fit a [u128]. *)
Lemma checked_add_iff a b c : wf a → wf b →
  checked_add a b = Some c ↔
  is_divisible c = is_divisible a || is_divisible b ∧ value c = value a + value b ∧ wf c.
Proof.
  intros Ha Hb. unfold checked_add. split.
  - destruct (scale_checked a b) as [[l r]|] eqn:Es; [simpl|done].
    destruct (u128_checked_add l r) eqn:Ec; [|done]. intros [= <-].
    apply checked_Some in Ec as [-> ?]. pose proof (scale_checked_value _ _ _ _ Es) as [<- <-].
    split; [done|]. split; [by apply value_flag_linear|done].
  - destruct a as [x da], b as [y db], c as [z dc]; unfold wf, is_u128, value in *; simpl in *.
    intros (-> & Hv & Hz). unfold scale_checked, u128_checked_add, u128_checked_mul. simpl.
    unfold RATIO in *. destruct da, db; simpl in *;
      rewrite ?checked_fits by (unfold u128_max in *; lia); simpl;
      rewrite ?checked_fits by (unfold u128_max in *; lia); simpl;
      do 2 f_equal; lia.
Qed.

Lemma checked_sub_Some a b c : wf a → wf b → checked_sub a b = Some c →
  is_divisible c = is_divisible a || is_divisible b ∧ value c = value a - value b ∧ wf c.
Proof.
  intros Ha Hb. unfold checked_sub.
  destruct (scale_checked a b) as [[l r]|] eqn:Es; [simpl|done].
  destruct (u128_checked_sub l r) eqn:Ec; [|done]. intros [= <-].
  apply checked_Some in Ec as [-> ?]. pose proof (scale_checked_value _ _ _ _ Es) as [<- <-].
  split; [done|]. split; [|done]. unfold value; simpl; destruct (_ || _); unfold RATIO; lia.
Qed.

(** Of two balances of the same precision, subtraction fails exactly when it
    would go below zero. *)
Lemma checked_sub_same a b : wf a → wf b → is_divisible a = is_divisible b →
  value b ≤ value a → checked_sub a b = Some (mk (inner a - inner b) (is_divisible a)).
Proof.
  destruct a as [x d], b as [y d']. unfold wf, is_u128, value, checked_sub, scale_checked.
  simpl. intros ? ? <- ?. unfold u128_checked_sub.
  assert (y ≤ x) by (destruct d; unfold RATIO in *; lia).
  destruct d; simpl; rewrite checked_fits by lia; simpl; done.
Qed.

Lemma checked_add_same a b : wf a → wf b → is_divisible a = is_divisible b →
  inner a + inner b ≤ u128_max → checked_add a b = Some (mk (inner a + inner b) (is_divisible a)).
Proof.
  destruct a as [x d], b as [y d']. unfold wf, is_u128, checked_add, scale_checked.
  simpl. intros ? ? <- ?. unfold u128_checked_add.
  destruct d; simpl; rewrite checked_fits by lia; simpl; done.
Qed.

Lemma checked_add_zero_l u : wf u → checked_add zero u = Some u.
Proof.
  intros. apply checked_add_iff; [|done|].
  - split; simpl; unfold u128_max; lia.
  - split; [done|]. split; [|done]. unfold value at 2. simpl. lia.
Qed.

(** The checked product is the product of the values rounded down to 10^-18;
    it is exact unless both operands are divisible. *)
Lemma checked_mul_value a b c : wf a → wf b → checked_mul a b = Some c →
  is_divisible c = is_divisible a || is_divisible b ∧ value c = value a * value b / RATIO ∧ wf c.
Proof.
  intros [Ha _] [Hb _]. unfold checked_mul.
  destruct a as [x da], b as [y db]; simpl in *.
  destruct (da && db) eqn:Ed.
  - apply andb_prop in Ed as [-> ->]. unfold fixed_mul.
    destruct (FixedWrapper.try_into_balance _) as [m|] eqn:Em; [|done].
    apply FixedWrapper.mul_ok in Em as (-> & ? & ? & ?); [|done|done]. intros [= <-].
    split; [done|]. split; [done|]. split; simpl; unfold u128_max, i128_max in *; lia.
  - unfold u128_checked_mul. destruct (checked u128_max (x * y)) eqn:Ec; [|done]. intros [= <-].
    apply checked_Some in Ec as [-> Hr]. split; [done|]. split; [|done].
    unfold value; simpl. destruct da, db; try done; simpl.
    + rewrite Z.mul_assoc, Z.div_mul; [done|unfold RATIO; lia].
    + rewrite <- Z.mul_assoc, (Z.mul_comm RATIO y), Z.mul_assoc, Z.div_mul; [done|unfold RATIO; lia].
    + replace (x * RATIO * (y * RATIO)) with (x * y * RATIO * RATIO) by lia.
      rewrite Z.div_mul; [done|unfold RATIO; lia].
Qed.

(** A smaller factor never makes the product fail. *)
Lemma checked_mul_mono a b b' : wf a → wf b → 0 ≤ inner b' ≤ inner b →
  is_divisible b' = is_divisible b → is_Some (checked_mul a b) → is_Some (checked_mul a b').
Proof.
  intros [Ha _] [Hb _] Hle Hd. unfold checked_mul. rewrite Hd.
  destruct (is_divisible a && is_divisible b).
  - unfold fixed_mul. destruct (FixedWrapper.try_into_balance _) as [m|] eqn:Em; [|by intros [? ?]].
    apply FixedWrapper.mul_ok in Em as (-> & ? & ? & ?); [|done|done]. intros _.
    rewrite FixedWrapper.mul_spec by lia. unfold FixedWrapper.floor_result.
    rewrite (proj2 (Z.leb_le _ _)); [by eexists|].
    etransitivity; [|by apply H1]. apply Z.div_le_mono; unfold Fixed.COEF; nia.
  - intros [c Hc]. destruct (u128_checked_mul (inner a) (inner b)) as [m|] eqn:Em; [|done].
    apply checked_mul_Some in Em as [-> [? ?]]. unfold u128_checked_mul.
    rewrite checked_fits; [by eexists|]. nia.
Qed.

Lemma wf_div x y d : is_u128 x → 0 ≤ y → y ≠ 0 → wf (mk (x / y) d).
Proof.
  intros [? ?] ? ?. split; simpl; [apply Z.div_pos; lia|].
  transitivity x; [apply Z.div_le_upper_bound; nia|done].
Qed.

(** The checked quotient is the quotient of the values rounded down to the
    precision of the result. *)
Lemma checked_div_value a b c : wf a → wf b → checked_div a b = Some c →
  0 < value b ∧ is_divisible c = is_divisible a || is_divisible b ∧ wf c ∧
  value c = (if is_divisible c then value a * RATIO / value b
             else value a / value b * RATIO).
Proof.
  intros Hwa Hwb. pose proof Hwa as [Ha _]. pose proof Hwb as [Hb _]. unfold checked_div.
  destruct a as [x da], b as [y db]; unfold value; simpl in *.
  assert (0 < RATIO) as HR by (unfold RATIO; lia).
  destruct da, db; simpl.
  - unfold fixed_div. destruct (FixedWrapper.try_into_balance _) as [m|] eqn:Em; [|done].
    apply FixedWrapper.div_ok in Em as (? & -> & ?); [|done|done]. intros [= <-]. simpl.
    unfold wf, is_u128, i128_max, u128_max in *; simpl. repeat split; try lia. 
  - unfold u128_checked_div. destruct (Z.eqb_spec y 0); [done|]. intros [= <-]. simpl.
    split; [nia|]. split; [done|]. split; [by apply wf_div|].
    by rewrite Z.div_mul_cancel_r by lia.
  - destruct (u128_checked_mul x RATIO) as [l|] eqn:El; [|done]. simpl.
    apply checked_mul_Some in El as [-> ?]. unfold fixed_div.
    destruct (FixedWrapper.try_into_balance _) as [m|] eqn:Em; [|done].
    apply FixedWrapper.div_ok in Em as (? & -> & ?); [|nia|done]. intros [= <-].
    unfold wf, is_u128, i128_max, u128_max in *; simpl. repeat split; try lia.
  - unfold u128_checked_div. destruct (Z.eqb_spec y 0); [done|]. intros [= <-]. simpl.
    split; [nia|]. split; [done|]. split; [by apply wf_div|].
    by rewrite Z.div_mul_cancel_r by lia.
Qed.

(** The saturating operators agree with the checked ones where those succeed. *)
Lemma saturating_add_checked a b c : wf a → wf b →
  checked_add a b = Some c → saturating_add a b = c.
Proof.
  intros [Ha Ha'] [Hb Hb'] H. pose proof H as (Hd & Hv & Hw)%checked_add_iff; [|done|done].
  apply value_inj; [unfold saturating_add; by case_match|]. rewrite Hv.
  destruct a as [x da], b as [y db], c as [z dc]. unfold wf, is_u128, value in *. simpl in *.
  unfold saturating_add, scale_saturating, sat_add, sat_mul, value. simpl.
  subst dc. unfold RATIO in *. destruct da, db; simpl in *; lia.
Qed.

Lemma saturating_sub_checked a b c : wf a → wf b →
  checked_sub a b = Some c → saturating_sub a b = c.
Proof.
  intros Ha Hb H. pose proof H as H'. unfold checked_sub in H.
  destruct (scale_checked a b) as [[l r]|] eqn:Es; [simpl in H|done].
  destruct (u128_checked_sub l r) eqn:Ec; [|done]. injection H as <-.
  apply checked_Some in Ec as [-> ?]. unfold saturating_sub.
  enough (scale_saturating a b = (l, r)) as ->.
  { unfold sat_sub. f_equal. lia. }
  revert Es. unfold scale_checked, scale_saturating, u128_checked_mul, sat_mul.
  destruct a as [x []], b as [y []]; simpl; intros; simplify_eq; try done.
  - destruct (checked _ _) eqn:E; simplify_eq/=. apply checked_Some in E as [-> ?]. f_equal. lia.
  - destruct (checked _ _) eqn:E; simplify_eq/=. apply checked_Some in E as [-> ?]. f_equal. lia.
Qed.

(** Saturating addition never loses below the exact sum's cap and never
    exceeds the exact sum. *)
Lemma saturating_add_same a b : wf a → wf b → is_divisible a = is_divisible b →
  saturating_add a b = mk (Z.min u128_max (inner a + inner b)) (is_divisible a).
Proof.
  destruct a as [x d], b as [y d']. simpl. intros ? ? <-.
  unfold saturating_add, scale_saturating. by destruct d.
Qed.

Lemma saturating_add_zero_l u : wf u → saturating_add zero u = u.
Proof.
  intros. apply saturating_add_checked; [split; simpl; unfold u128_max; lia|done|].
  by apply checked_add_zero_l.
Qed.

Lemma saturating_sub_same a b : wf a → wf b → is_divisible a = is_divisible b →
  saturating_sub a b = mk (Z.max 0 (inner a - inner b)) (is_divisible a).
Proof.
  destruct a as [x d], b as [y d']. simpl. intros ? ? <-.
  unfold saturating_sub, scale_saturating. by destruct d.
Qed.

(** Rounding to whole units is off by less than one unit, in the direction of
    the mode; the conversion back is exact. *)
Lemma into_indivisible_bounds u mode : wf u →
  let r := into_indivisible u mode in
  is_divisible r = false ∧ wf r ∧
  match mode with
  | Floor => value r ≤ value u < value r + RATIO
  | Ceil => value r - RATIO < value u ≤ value r
  end.
Proof.
  destruct u as [x []]; unfold wf, is_u128, value, into_indivisible; simpl; intros ?.
  - pose proof (Z.div_mod x RATIO ltac:(done)). pose proof (Z.mod_pos_bound x RATIO ltac:(done)).
    assert (0 ≤ x / RATIO) by (apply Z.div_pos; unfold RATIO; lia).
    destruct mode; simpl; [destruct (Z.ltb_spec 0 (x mod RATIO))|]; unfold RATIO, u128_max in *;
      repeat split; lia.
  - destruct mode; unfold RATIO; repeat split; lia.
Qed.

Lemma into_divisible_value u r : into_divisible u = Some r →
  is_divisible r = true ∧ value r = value u.
Proof.
  destruct u as [x []]; unfold into_divisible, value; simpl; intros H; simplify_eq; [done|].
  destruct (u128_checked_mul x RATIO) eqn:E; simplify_eq/=.
  by apply checked_mul_Some in E as [-> _].
Qed.
End BalanceUnit.
