(* ===== verification/OrderTypes.v ===== *)
(** * Data of the order book ([pallets/order-book/src/{types,limit_order,market_order,
    fee_calculator}.rs], the error enum of [lib.rs])

    Accounts and assets are 32-byte identifiers, ordered as big-endian numbers:
    they are modelled as [N].  Order ids are [u128], moments [u64] and block
    numbers [u32], modelled as [Z] with their saturation written out. *)

From S2P Require Import Prelude BTreeMap FixedPoint Units.

Abbreviation AccountId := N (only parsing).
Abbreviation AssetId := N (only parsing).
Abbreviation DEXId := Z (only parsing).
Abbreviation OrderId := Z (only parsing).
Abbreviation Moment := Z (only parsing).
Abbreviation BlockNumber := Z (only parsing).
Abbreviation Balance := Z (only parsing).

Abbreviation OrderPrice := BalanceUnit.t (only parsing).
Abbreviation OrderVolume := BalanceUnit.t (only parsing).

(** [MarketSide]: price to aggregated volume, in price order. *)
Abbreviation MarketSide := (BTreeMap BalanceUnit.t BalanceUnit.t) (only parsing).

(** ** Errors *)

Inductive Error :=
| UnknownOrderBook | InvalidOrderBookId | OrderBookAlreadyExists | UnknownLimitOrder
| LimitOrderAlreadyExists | LimitOrderStorageOverflow | UpdateLimitOrderError
| DeleteLimitOrderError | BlockScheduleFull | ExpirationNotFound | NoDataForPrice
| NoAggregatedData | NotEnoughLiquidityInOrderBook
| ForbiddenToCreateOrderBookWithSameAssets | NotAllowedQuoteAsset | NotAllowedDEXId
| SyntheticAssetIsForbidden | UserHasNoNft | InvalidLifespan | InvalidOrderAmount
| InvalidLimitOrderPrice | LimitOrderPriceIsTooFarFromSpread | TradingIsForbidden
| PlacementOfLimitOrdersIsForbidden | CancellationOfLimitOrdersIsForbidden
| UserHasMaxCountOfOpenedOrders | PriceReachedMaxCountOfLimitOrders
| OrderBookReachedMaxCountOfPricesForSide | AmountCalculationFailed
| PriceCalculationFailed | Unauthorized | InvalidAsset | InvalidTickSize
| InvalidStepLotSize | InvalidMinLotSize | InvalidMaxLotSize
| TickSizeAndStepLotSizeAreTooBig | TickSizeAndStepLotSizeLosePrecision
| MaxLotSizeIsMoreThanTotalSupply | SlippageLimitExceeded
| MarketOrdersAllowedOnlyForIndivisibleAssets | ForbiddenStatusToDeleteOrderBook
| OrderBookIsNotEmpty | ForbiddenStatusToUpdateOrderBook | OrderBookIsLocked.

(** The errors of [pallets/trading-pair] and [pallets/dex-manager]. *)
Inductive TradingPairErrors :=
| TradingPairExists | ForbiddenBaseAssetId | IdenticalAssetIds | TradingPairDoesntExist.
Inductive DexManagerErrors :=
| DEXIdAlreadyExists | DEXDoesNotExist | InvalidFeeValue | InvalidAccountId.

(** The errors of [pallets/technical] and [pallets/pool-xyk]. *)
Inductive TechnicalErrors :=
| NotImplemented | AssociatedAccountIdNotFound | OperationWithAbstractCheckingIsImposible.
Inductive PoolXykErrors :=
| FailedToCalculatePriceWithoutImpact | ImpossibleToDecideAssetPairAmounts
| PoolPairRatioAndPairSwapRatioIsDifferent | PairSwapActionFeeIsSmallerThanRecommended
| SourceBalanceIsNotLargeEnough | TargetBalanceIsNotLargeEnough | UnableToDeriveFeeAccount
| FeeAccountIsInvalid | SourceAndClientAccountDoNotMatchAsEqual | AssetsMustNotBeSame
| ImpossibleToDecideDepositLiquidityAmounts | InvalidDepositLiquidityBasicAssetAmount
| InvalidDepositLiquidityTargetAssetAmount
| PairSwapActionMinimumLiquidityIsSmallerThanRecommended
| DestinationAmountOfLiquidityIsNotLargeEnough | SourceBaseAmountIsNotLargeEnough
| TargetBaseAmountIsNotLargeEnough | PoolIsInvalid | PoolIsEmpty | ZeroValueInAmountParameter
| AccountBalanceIsInvalid | InitialLiqudityDepositRatioMustBeDefined
| InvalidWithdrawLiquidityBasicAssetAmount | InvalidWithdrawLiquidityTargetAssetAmount
| SourceBalanceOfLiquidityTokensIsNotLargeEnough | CalculatedValueIsOutOfDesiredBounds
| BaseAssetIsNotMatchedWithAnyAssetArguments | PoolInitializationIsInvalid
| PoolIsAlreadyInitialized | InvalidMinimumBoundValueOfBalance
| ImpossibleToDecideValidPairValuesFromRangeForThisPool | RangeValuesIsInvalid
| CalculatedValueIsNotMeetsRequiredBoundaries | FixedWrapperCalculationFailed
| PoolBecameInvalidAfterOperation | PoolTokenSupplyOverflow | IncRefError
| UnableToDepositXorLessThanMinimum | UnsupportedQuotePath | NotEnoughUnlockedLiquidity
| UnableToCreatePoolWithIndivisibleAssets | UnableToOperateWithIndivisibleAssets
| NotEnoughLiquidityOutOfFarming | TargetAssetIsRestricted | RestrictedChameleonPool
| NotEnoughOutputReserves | AssetRegulationsCheckFailed | DexIsForbidden.

Module LiquidityProxyErrors.
Inductive t :=
| UnavailableExchangePath | MaxFeeExceeded | InvalidFeeValue | InsufficientLiquidity
| AggregationError | CalculationError | SlippageNotTolerated | ForbiddenFilter
| FailedToCalculatePriceWithoutImpact | UnableToSwapIndivisibleAssets
| UnableToEnableLiquiditySource | LiquiditySourceAlreadyEnabled
| UnableToDisableLiquiditySource | LiquiditySourceAlreadyDisabled | InvalidReceiversInfo
| FailedToTransferAdarCommission | InvalidADARCommissionRatio | InsufficientBalance
| TheSameSenderAndReceiver | BadLiquidity.
End LiquidityProxyErrors.

Module DemeterErrors.
Inductive t :=
| TokenAlreadyRegistered | TokenPerBlockCantBeZero | InvalidAllocationParameters
| InvalidMultiplier | InvalidDepositFee | RewardTokenIsNotRegistered | PoolAlreadyExists
| InsufficientFunds | ZeroRewards | PoolDoesNotExist | InsufficientLPTokens
| PoolDoesNotHaveRewards | Unauthorized.
End DemeterErrors.

Module LockerErrors.
Inductive t :=
| PoolDoesNotExist | InsufficientLiquidityToLock | InvalidPercentage | Unauthorized
| InvalidUnlockingTimestamp.
End LockerErrors.

(** [DispatchError]: the errors of the modelled pallets, and those of the
    components they call (the currencies, the framework), which they only pass
    on.  [Panicked] stands for a panic, which aborts the transaction. *)
Inductive DispatchError :=
| OrderBookError (e : Error)
| TradingPairError (e : TradingPairErrors)
| DexManagerError (e : DexManagerErrors)
| TechnicalError (e : TechnicalErrors)
| PoolXykError (e : PoolXykErrors)
| LiquidityProxyError (e : LiquidityProxyErrors.t)
| DemeterError (e : DemeterErrors.t)
| LockerError (e : LockerErrors.t)
| Panicked
| PermissionForbidden
| BadOrigin
| TechAccountIdIsNotRegistered
| CannotLookup
| ExternalError (code : Z).

Coercion OrderBookError : Error >-> DispatchError.

(** ** Identifiers and enumerations *)

Record OrderBookId := { dex_id : DEXId; base : AssetId; quote : AssetId }.

#[export] Instance OrderBookId_eq_dec : EqDecision OrderBookId.
Proof. solve_decision. Defined.

#[export] Instance OrderBookId_countable : Countable OrderBookId.
Proof.
  refine (inj_countable' (λ i, (dex_id i, base i, quote i))
    (λ p, {| dex_id := fst (fst p); base := snd (fst p); quote := snd p |}) _).
  by intros [].
Defined.

(** Derived [Ord]: field by field. *)
#[export] Instance OrderBookId_ord : Ord OrderBookId := λ i j,
  cmp (dex_id i, base i, quote i) (dex_id j, base j, quote j).

#[export] Instance OrderBookId_lawful : LawfulOrd OrderBookId.
Proof.
  split; [split|].
  - intros i j. apply (cmp_opp (dex_id i, base i, quote i)).
  - intros i j k. apply (cmp_eq_l (dex_id i, base i, quote i)).
  - intros i j k. apply (cmp_lt_trans (dex_id i, base i, quote i)).
  - intros [] [] E. unfold cmp, OrderBookId_ord in E. by apply cmp_eq in E as [= -> -> ->].
Qed.

Inductive PriceVariant := Buy | Sell.

#[export] Instance PriceVariant_eq_dec : EqDecision PriceVariant.
Proof. solve_decision. Defined.

Definition switched (v : PriceVariant) : PriceVariant :=
  match v with Buy => Sell | Sell => Buy end.

Inductive OrderBookStatus := Trade | PlaceAndCancel | OnlyCancel | Stop.

#[export] Instance OrderBookStatus_eq_dec : EqDecision OrderBookStatus.
Proof. solve_decision. Defined.

Inductive OrderBookTechStatus := Ready | Updating.

#[export] Instance OrderBookTechStatus_eq_dec : EqDecision OrderBookTechStatus.
Proof. solve_decision. Defined.

Inductive CancelReason := Manual | Expired | Aligned.
Inductive MarketRole := Maker | Taker.

(** ** Configuration of the pallet *)

Class Config := {
  MAX_ORDER_LIFESPAN : Moment;
  MIN_ORDER_LIFESPAN : Moment;
  MILLISECS_PER_BLOCK : Moment;
  SOFT_MIN_MAX_RATIO : Z;
  HARD_MIN_MAX_RATIO : Z;
  MaxOpenedLimitOrdersPerUser : nat;
  MaxLimitOrdersForPrice : nat;
  MaxSidePriceCount : nat;
  MaxExpiringOrdersPerBlock : nat
}.

(** The configuration of the runtime ([runtime/src/lib.rs]). *)
Definition RuntimeConfig : Config := {|
  MAX_ORDER_LIFESPAN := 2592000000;
  MIN_ORDER_LIFESPAN := 60000;
  MILLISECS_PER_BLOCK := 6000;
  SOFT_MIN_MAX_RATIO := 1000;
  HARD_MIN_MAX_RATIO := 4000;
  MaxOpenedLimitOrdersPerUser := Z.to_nat 1024;
  MaxLimitOrdersForPrice := Z.to_nat 1024;
  MaxSidePriceCount := Z.to_nat 1024;
  MaxExpiringOrdersPerBlock := Z.to_nat 1024
|}.

(** ** [OrderAmount] *)

Module OrderAmount.

Inductive t := Base (v : OrderVolume) | Quote (v : OrderVolume).

Definition value (a : t) : OrderVolume := match a with Base v => v | Quote v => v end.
Definition is_base (a : t) : bool := match a with Base _ => true | Quote _ => false end.
Definition is_quote (a : t) : bool := match a with Base _ => false | Quote _ => true end.
Definition is_same (a b : t) : bool :=
  match a, b with Base _, Base _ => true | Quote _, Quote _ => true | _, _ => false end.
Definition copy_type (a : t) (v : OrderVolume) : t :=
  match a with Base _ => Base v | Quote _ => Quote v end.

Definition associated_asset (a : t) (id : OrderBookId) : AssetId :=
  match a with Base _ => base id | Quote _ => quote id end.

Definition average_price (input output : t) : option OrderPrice :=
  if is_quote input
  then BalanceUnit.checked_div (value input) (value output)
  else BalanceUnit.checked_div (value output) (value input).

Definition add (a b : t) : option t :=
  if negb (is_same a b) then None
  else r ← BalanceUnit.checked_add (value a) (value b); Some (copy_type a r).

Definition sub (a b : t) : option t :=
  if negb (is_same a b) then None
  else r ← BalanceUnit.checked_sub (value a) (value b); Some (copy_type a r).

End OrderAmount.

(** ** [DealInfo] *)

Module DealInfo.

Record t := mk {
  input_asset_id : AssetId;
  input_amount : OrderAmount.t;
  output_asset_id : AssetId;
  output_amount : OrderAmount.t;
  average_price : OrderPrice;
  direction : PriceVariant
}.

Definition is_valid (d : t) : bool :=
  negb (bool_decide (input_asset_id d = output_asset_id d))
  && negb (OrderAmount.is_base (input_amount d) && OrderAmount.is_base (output_amount d))
  && negb (OrderAmount.is_quote (input_amount d) && OrderAmount.is_quote (output_amount d))
  && negb (BalanceUnit.is_zero (OrderAmount.value (input_amount d)))
  && negb (BalanceUnit.is_zero (OrderAmount.value (output_amount d)))
  && negb (BalanceUnit.is_zero (average_price d)).

Definition base_amount (d : t) : OrderVolume :=
  if OrderAmount.is_base (input_amount d)
  then OrderAmount.value (input_amount d) else OrderAmount.value (output_amount d).

Definition quote_amount (d : t) : OrderVolume :=
  if OrderAmount.is_quote (input_amount d)
  then OrderAmount.value (input_amount d) else OrderAmount.value (output_amount d).

End DealInfo.

(** ** [LimitOrder] *)

Module LimitOrder.

Record t := mk {
  id : OrderId;
  owner : AccountId;
  side : PriceVariant;
  price : OrderPrice;
  original_amount : OrderVolume;
  amount : OrderVolume;
  time : Moment;
  lifespan : Moment;
  expires_at : BlockNumber
}.

#[global] Instance t_eq_dec : EqDecision t.
Proof. solve_decision. Defined.

Definition set_amount (o : t) (v : OrderVolume) : t :=
  mk (id o) (owner o) (side o) (price o) (original_amount o) v (time o) (lifespan o)
     (expires_at o).

Section config.
Context {Cfg : Config}.

(** [u64::div_ceil]. *)
Definition div_ceil (x y : Z) : Z := if 0 <? x mod y then x / y + 1 else x / y.

Definition resolve_lifespan (current_block : BlockNumber) (lifespan : Moment) : BlockNumber :=
  let lifespan := Z.min u64_max lifespan in
  let millis_per_block := Z.min u64_max MILLISECS_PER_BLOCK in
  let lifespan_blocks := div_ceil lifespan millis_per_block in
  let lifespan_blocks := sat_add u64_max lifespan_blocks 1 in
  let lifespan := Z.min u32_max lifespan_blocks in
  sat_add u32_max current_block lifespan.

Definition new (id : OrderId) (owner : AccountId) (side : PriceVariant) (price : OrderPrice)
    (amount : OrderVolume) (time lifespan : Moment) (current_block : BlockNumber) : t :=
  let expires_at := resolve_lifespan current_block lifespan in
  mk id owner side price amount amount time lifespan expires_at.

Definition ensure_valid (o : t) : result DispatchError unit :=
  _ ← ensure ((MIN_ORDER_LIFESPAN <=? lifespan o) && (lifespan o <=? MAX_ORDER_LIFESPAN))
        (OrderBookError InvalidLifespan);
  _ ← ensure (negb (BalanceUnit.is_zero (original_amount o))) (OrderBookError InvalidOrderAmount);
  _ ← ensure (negb (BalanceUnit.is_zero (price o))) (OrderBookError InvalidLimitOrderPrice);
  mret tt.
End config.

Definition is_empty (o : t) : bool := BalanceUnit.is_zero (amount o).

Definition deal_amount (o : t) (role : MarketRole) (base_amount_to_take : option OrderVolume)
    : result DispatchError OrderAmount.t :=
  base_amount ←
    match base_amount_to_take with
    | Some base_amount =>
        _ ← ensure (BalanceUnit.le base_amount (amount o)) (OrderBookError InvalidOrderAmount);
        mret base_amount
    | None => mret (amount o)
    end;
  match role, side o with
  | Maker, Buy | Taker, Sell => mret (OrderAmount.Base base_amount)
  | Maker, Sell | Taker, Buy =>
      q ← ok_or (BalanceUnit.checked_mul (price o) base_amount)
            (OrderBookError AmountCalculationFailed);
      mret (OrderAmount.Quote q)
  end.

End LimitOrder.

(** ** [MarketOrder] *)

Module MarketOrder.

Record t := mk {
  owner : AccountId;
  direction : PriceVariant;
  order_book_id : OrderBookId;
  amount : OrderVolume;
  to : option AccountId
}.

Definition new (owner : AccountId) (direction : PriceVariant) (order_book_id : OrderBookId)
    (amount : OrderVolume) (to : option AccountId) : t :=
  mk owner direction order_book_id amount to.

Definition ensure_valid (o : t) : result DispatchError unit :=
  ensure (negb (BalanceUnit.is_zero (amount o))) (OrderBookError InvalidOrderAmount).

End MarketOrder.

(** ** [Payment] *)

Module Payment.

(** [BTreeMap<AssetId, BTreeMap<AccountId, OrderVolume>>]. *)
Abbreviation account_map := (BTreeMap AccountId OrderVolume) (only parsing).
Abbreviation asset_map := (BTreeMap AssetId (BTreeMap AccountId OrderVolume)) (only parsing).

Record t := mk {
  order_book_id : OrderBookId;
  to_lock : asset_map;
  to_unlock : asset_map
}.

Definition new (id : OrderBookId) : t := mk id [] [].

(** [map.entry(asset).or_default().entry(account)
     .and_modify(|v| *v = v.saturating_add(amount)).or_insert(amount)]. *)
Definition add_entry (asset : AssetId) (account : AccountId) (amount : OrderVolume)
    (m : asset_map) : asset_map :=
  bt_insert asset
    (bt_modify_or_insert (λ v, BalanceUnit.saturating_add v amount) amount account
       (default [] (bt_get asset m))) m.

Definition merge_account_map (m to_merge : account_map) : account_map :=
  fold_left (λ acc '(account, volume),
    bt_modify_or_insert (λ v, BalanceUnit.saturating_add v volume) volume account acc) to_merge m.

Definition merge_asset_map (m to_merge : asset_map) : asset_map :=
  fold_left (λ acc '(asset, whom),
    bt_modify_or_insert (λ accounts, merge_account_map accounts whom) whom asset acc) to_merge m.

Definition merge (p other : t) : option t :=
  if negb (bool_decide (order_book_id p = order_book_id other)) then None
  else Some (mk (order_book_id p)
               (merge_asset_map (to_lock p) (to_lock other))
               (merge_asset_map (to_unlock p) (to_unlock other))).

End Payment.

(** ** [MarketChange] *)

Module MarketChange.

Record t := mk {
  deal_input : option OrderAmount.t;
  deal_output : option OrderAmount.t;
  market_input : option OrderAmount.t;
  market_output : option OrderAmount.t;
  to_place : BTreeMap OrderId LimitOrder.t;
  to_part_execute : BTreeMap OrderId (LimitOrder.t * OrderAmount.t);
  to_full_execute : BTreeMap OrderId LimitOrder.t;
  to_cancel : BTreeMap OrderId (LimitOrder.t * CancelReason);
  to_force_update : BTreeMap OrderId LimitOrder.t;
  payment : Payment.t;
  ignore_unschedule_error : bool
}.

Definition new (id : OrderBookId) : t :=
  mk None None None None [] [] [] [] [] (Payment.new id) false.

(** The closure [join] of [merge]. *)
Definition join (lhs rhs : option OrderAmount.t) : option (option OrderAmount.t) :=
  match lhs, rhs with
  | Some l, Some r => s ← OrderAmount.add l r; Some (Some s)
  | Some l, None => Some (Some l)
  | None, Some r => Some (Some r)
  | None, None => Some None
  end.

Definition merge (c other : t) : option t :=
  di ← join (deal_input c) (deal_input other);
  do_ ← join (deal_output c) (deal_output other);
  mi ← join (market_input c) (market_input other);
  mo ← join (market_output c) (market_output other);
  pay ← Payment.merge (payment c) (payment other);
  Some (mk di do_ mi mo
    (bt_append (to_place c) (to_place other))
    (bt_append (to_part_execute c) (to_part_execute other))
    (bt_append (to_full_execute c) (to_full_execute other))
    (bt_append (to_cancel c) (to_cancel other))
    (bt_append (to_force_update c) (to_force_update other))
    pay
    (ignore_unschedule_error c || ignore_unschedule_error other)).

Definition average_deal_price (c : t) : option OrderPrice :=
  match deal_input c, deal_output c with
  | Some input, Some output => OrderAmount.average_price input output
  | _, _ => None
  end.

Definition deal_base_amount (c : t) : option OrderVolume :=
  match deal_input c, deal_output c with
  | Some input, Some output =>
      if OrderAmount.is_base input then Some (OrderAmount.value input)
      else Some (OrderAmount.value output)
  | _, _ => None
  end.

Definition count_of_executed_orders (c : t) : nat :=
  length (to_full_execute c) + length (to_part_execute c).

End MarketChange.

(** ** [OrderBookEvent] *)

Inductive OrderBookEvent :=
| LimitOrderPlaced (order_id : OrderId) (owner_id : AccountId) (side : PriceVariant)
    (price : OrderPrice) (amount : OrderVolume) (lifetime : Moment)
| LimitOrderConvertedToMarketOrder (owner_id : AccountId) (direction : PriceVariant)
    (amount : OrderAmount.t) (average_price : OrderPrice)
| LimitOrderIsSplitIntoMarketOrderAndLimitOrder (owner_id : AccountId)
    (market_order_direction : PriceVariant) (market_order_amount : OrderAmount.t)
    (market_order_average_price : OrderPrice) (limit_order_id : OrderId)
| LimitOrderCanceled (order_id : OrderId) (owner_id : AccountId) (reason : CancelReason)
| LimitOrderExecuted (order_id : OrderId) (owner_id : AccountId) (side : PriceVariant)
    (price : OrderPrice) (amount : OrderAmount.t)
| LimitOrderFilled (order_id : OrderId) (owner_id : AccountId)
| LimitOrderUpdated (order_id : OrderId) (owner_id : AccountId) (new_amount : OrderVolume)
| MarketOrderExecuted (owner_id : AccountId) (direction : PriceVariant)
    (amount : OrderAmount.t) (average_price : OrderPrice) (to : option AccountId).

(** ** Network fee of [place_limit_order] *)

Definition BASE_FEE : Balance := 700000000000000.

Definition place_limit_order_fee {Cfg : Config} (lifetime : option Z) (has_weight is_err : bool)
    : option Balance :=
  if negb has_weight || is_err then Some BASE_FEE else
  market_maker_max_fee ← u128_checked_div BASE_FEE 2;
  match lifetime with
  | None => Some market_maker_max_fee
  | Some lifetime =>
      let max_lifetime := MAX_ORDER_LIFESPAN in
      let fw := FixedWrapper.from_int in
      let life_ratio := FixedWrapper.div (fw lifetime) (fw max_lifetime) in
      let const_part :=
        FixedWrapper.mul (FixedWrapper.div (fw market_maker_max_fee) (fw 7)) (fw 4) in
      let dynamic_part :=
        FixedWrapper.mul
          (FixedWrapper.mul (FixedWrapper.div (fw market_maker_max_fee) (fw 7)) (fw 3))
          life_ratio in
      BalanceUnit.ok (FixedWrapper.try_into_balance (FixedWrapper.add const_part dynamic_part))
  end.
