(* ===== verification/SwapTypes.v ===== *)
(** * Swaps, fees and discrete quotations

    [common/src/swap_amount.rs] (amounts and outcomes of swaps),
    [common/src/outcome_fee.rs] (fees by asset) and [common/src/alt.rs] (the chunks
    in which a liquidity source quotes, and its limits). *)

From S2P Require Import Prelude BTreeMap FixedPoint Units OrderTypes.

(** ** [swap_amount.rs] *)

Module SwapVariant.
Inductive t := WithDesiredInput | WithDesiredOutput.
End SwapVariant.

Inductive QuoteAmount :=
| WithDesiredInput (desired_amount_in : Balance)
| WithDesiredOutput (desired_amount_out : Balance).

Inductive SwapAmount :=
| SwapWithDesiredInput (desired_amount_in min_amount_out : Balance)
| SwapWithDesiredOutput (desired_amount_out max_amount_in : Balance).

(** [From<SwapAmount<T>> for QuoteAmount<T>]. *)
Definition to_quote (a : SwapAmount) : QuoteAmount :=
  match a with
  | SwapWithDesiredInput desired_amount_in _ => WithDesiredInput desired_amount_in
  | SwapWithDesiredOutput desired_amount_out _ => WithDesiredOutput desired_amount_out
  end.

(** [QuoteAmount::amount] and [QuoteAmount::variant]. *)
Definition quote_amount (a : QuoteAmount) : Balance :=
  match a with WithDesiredInput amount | WithDesiredOutput amount => amount end.
Definition quote_variant (a : QuoteAmount) : SwapVariant.t :=
  match a with
  | WithDesiredInput _ => SwapVariant.WithDesiredInput
  | WithDesiredOutput _ => SwapVariant.WithDesiredOutput
  end.

(** [SwapAmount::amount], [limit] and [variant], [QuoteAmount::with_variant]. *)
Definition swap_amount (a : SwapAmount) : Balance :=
  match a with SwapWithDesiredInput x _ | SwapWithDesiredOutput x _ => x end.
Definition swap_limit (a : SwapAmount) : Balance :=
  match a with SwapWithDesiredInput _ y | SwapWithDesiredOutput _ y => y end.
Definition swap_variant (a : SwapAmount) : SwapVariant.t :=
  match a with
  | SwapWithDesiredInput _ _ => SwapVariant.WithDesiredInput
  | SwapWithDesiredOutput _ _ => SwapVariant.WithDesiredOutput
  end.
Definition quote_with_variant (variant : SwapVariant.t) (amount : Balance) : QuoteAmount :=
  match variant with
  | SwapVariant.WithDesiredInput => WithDesiredInput amount
  | SwapVariant.WithDesiredOutput => WithDesiredOutput amount
  end.

(** [SwapAmount::with_variant]. *)
Definition with_variant (variant : SwapVariant.t) (amount limit : Balance) : SwapAmount :=
  match variant with
  | SwapVariant.WithDesiredInput => SwapWithDesiredInput amount limit
  | SwapVariant.WithDesiredOutput => SwapWithDesiredOutput amount limit
  end.

(** ** [outcome_fee.rs] *)

Module OutcomeFee.
Definition t : Type := BTreeMap AssetId Balance.

Definition new : t := [].
Definition from_asset (asset : AssetId) (amount : Balance) : t :=
  if amount =? 0 then new else [(asset, amount)].
Definition is_zero_fee (f : t) : bool := forallb (λ v, v =? 0) (bt_values f).
Definition get_by_asset (f : t) (asset : AssetId) : Balance := default 0 (bt_get asset f).
Definition add_by_asset (f : t) (asset : AssetId) (amount : Balance) : t :=
  bt_modify_or_insert (λ value, sat_add u128_max value amount) amount asset f.
Definition merge (f other : t) : t :=
  fold_left (λ f '(asset, other_amount), add_by_asset f asset other_amount) other f.

(** An asset that only the subtrahend has keeps its amount. *)
Definition subtract (f other : t) : t :=
  filter (λ p, snd p ≠ 0)
    (fold_left (λ f '(asset, other_amount),
       bt_modify_or_insert (λ amount, sat_sub amount other_amount) other_amount asset f) other f).

Fixpoint rescale_by_ratio (f : t) (ratio : FixedWrapper.t) : option t :=
  match f with
  | [] => Some []
  | (asset, value) :: f =>
      match FixedWrapper.try_into_balance (FixedWrapper.mul (FixedWrapper.from_int value) ratio) with
      | Err _ => None
      | Ok value => f ← rescale_by_ratio f ratio; Some ((asset, value) :: f)
      end
  end.
Definition saturating_mul_usize (f : t) (n : Z) : t :=
  (λ p, (fst p, sat_mul u128_max (snd p) n)) <$> f.
End OutcomeFee.

Record SwapOutcome := mkOutcome { outcome_amount : Balance; outcome_fee : OutcomeFee.t }.

(** ** [alt.rs] *)

Inductive SideAmount := Input (amount : Balance) | Output (amount : Balance).

Definition side_amount (a : SideAmount) : Balance := match a with Input v | Output v => v end.
(** [SideAmount::new]. *)
Definition side_of (amount : Balance) (variant : SwapVariant.t) : SideAmount :=
  match variant with
  | SwapVariant.WithDesiredInput => Input amount
  | SwapVariant.WithDesiredOutput => Output amount
  end.

Record SwapChunk := mkChunk { chunk_input : Balance; chunk_output : Balance; chunk_fee : OutcomeFee.t }.

Record SwapLimits := mkLimits {
  min_amount : option SideAmount;
  max_amount : option SideAmount;
  amount_precision : option SideAmount
}.

Record DiscreteQuotation := mkQuotation { chunks : list SwapChunk; limits : SwapLimits }.

Definition empty_quotation : DiscreteQuotation := mkQuotation [] (mkLimits None None None).
