(* ===== verification/Chunks.v ===== *)
(** * Chunks of liquidity and their limits

    The operations of [common/src/alt.rs]: rescaling a chunk of a discrete
    quotation in proportion, aligning it with the limits of its source, and
    verifying a quotation.  [None] is the code's own [None]; the remainder by a
    zero precision panics. *)

From S2P Require Import Prelude BTreeMap FixedPoint Units OrderTypes SwapTypes.

(** ** [SideAmount] and [SwapChunk] *)

Definition set_amount (a : SideAmount) (amount : Balance) : SideAmount :=
  match a with Input _ => Input amount | Output _ => Output amount end.

Definition get_associated_field (c : SwapChunk) (swap_variant : SwapVariant.t) : SideAmount :=
  match swap_variant with
  | SwapVariant.WithDesiredInput => Input (chunk_input c)
  | SwapVariant.WithDesiredOutput => Output (chunk_output c)
  end.

Definition get_same_type_amount (c : SwapChunk) (reference : SideAmount) : SideAmount :=
  match reference with
  | Input _ => Input (chunk_input c)
  | Output _ => Output (chunk_output c)
  end.

(** [PartialOrd<SideAmount> for SwapChunk]: the field of the same side. *)
Definition chunk_cmp (c : SwapChunk) (other : SideAmount) : comparison :=
  match other with
  | Input input => Z.compare (chunk_input c) input
  | Output output => Z.compare (chunk_output c) output
  end.
Definition chunk_gt (c : SwapChunk) (other : SideAmount) : bool :=
  match chunk_cmp c other with Gt => true | _ => false end.
Definition chunk_le (c : SwapChunk) (other : SideAmount) : bool := negb (chunk_gt c other).

Definition chunk_zero : SwapChunk := mkChunk 0 0 OutcomeFee.new.
Definition chunk_is_zero (c : SwapChunk) : bool :=
  (chunk_input c =? 0) && (chunk_output c =? 0) && OutcomeFee.is_zero_fee (chunk_fee c).

(** [SwapChunk::price]. *)
Definition chunk_price (c : SwapChunk) : option Z :=
  match FixedWrapper.div (FixedWrapper.from_int (chunk_output c))
                         (FixedWrapper.from_int (chunk_input c)) with
  | Ok price => Some price
  | Err _ => None
  end.

Definition ok {E A} (r : result E A) : option A :=
  match r with Ok a => Some a | Err _ => None end.

Definition proportional_input (c : SwapChunk) (output : Balance) : option Balance :=
  if output =? 0 then Some 0 else
  match FixedWrapper.try_into_balance
          (FixedWrapper.div
             (FixedWrapper.mul (FixedWrapper.from_int output) (FixedWrapper.from_int (chunk_input c)))
             (FixedWrapper.from_int (chunk_output c))) with
  | Ok result => Some result
  | Err Overflow =>
      price ← chunk_price c;
      ok (FixedWrapper.try_into_balance (FixedWrapper.div (FixedWrapper.from_int output) (Ok price)))
  | Err _ => None
  end.

Definition proportional_output (c : SwapChunk) (input : Balance) : option Balance :=
  if input =? 0 then Some 0 else
  match FixedWrapper.try_into_balance
          (FixedWrapper.div
             (FixedWrapper.mul (FixedWrapper.from_int input) (FixedWrapper.from_int (chunk_output c)))
             (FixedWrapper.from_int (chunk_input c))) with
  | Ok result => Some result
  | Err Overflow =>
      price ← chunk_price c;
      ok (FixedWrapper.try_into_balance (FixedWrapper.mul (FixedWrapper.from_int input) (Ok price)))
  | Err _ => None
  end.

Definition rescale_by_input (c : SwapChunk) (input : Balance) : option SwapChunk :=
  output ← proportional_output c input;
  let ratio := FixedWrapper.div (FixedWrapper.from_int input) (FixedWrapper.from_int (chunk_input c)) in
  fee ← OutcomeFee.rescale_by_ratio (chunk_fee c) ratio;
  Some (mkChunk input output fee).

Definition rescale_by_output (c : SwapChunk) (output : Balance) : option SwapChunk :=
  input ← proportional_input c output;
  let ratio := FixedWrapper.div (FixedWrapper.from_int output) (FixedWrapper.from_int (chunk_output c)) in
  fee ← OutcomeFee.rescale_by_ratio (chunk_fee c) ratio;
  Some (mkChunk input output fee).

(** [SwapChunk::rescale_by_ratio] with the [Fixed] [ratio]. *)
Definition chunk_rescale_by_ratio (c : SwapChunk) (ratio : Z) : option SwapChunk :=
  input ← ok (FixedWrapper.try_into_balance
                (FixedWrapper.mul (FixedWrapper.from_int (chunk_input c)) (Ok ratio)));
  output ← ok (FixedWrapper.try_into_balance
                 (FixedWrapper.mul (FixedWrapper.from_int (chunk_output c)) (Ok ratio)));
  fee ← OutcomeFee.rescale_by_ratio (chunk_fee c) (Ok ratio);
  Some (mkChunk input output fee).

Definition rescale_by_side_amount (c : SwapChunk) (amount : SideAmount) : option SwapChunk :=
  match amount with
  | Input input => rescale_by_input c input
  | Output output => rescale_by_output c output
  end.

Definition chunk_saturating_add (c rhs : SwapChunk) : SwapChunk :=
  mkChunk (sat_add u128_max (chunk_input c) (chunk_input rhs))
          (sat_add u128_max (chunk_output c) (chunk_output rhs))
          (OutcomeFee.merge (chunk_fee c) (chunk_fee rhs)).

Definition chunk_saturating_sub (c rhs : SwapChunk) : SwapChunk :=
  mkChunk (sat_sub (chunk_input c) (chunk_input rhs))
          (sat_sub (chunk_output c) (chunk_output rhs))
          (OutcomeFee.subtract (chunk_fee c) (chunk_fee rhs)).

(** ** [SwapLimits] *)

Definition get_precision_step (l : SwapLimits) (c : SwapChunk) (variant : SwapVariant.t)
    : option Balance :=
  match amount_precision l with
  | Some precision =>
      match variant, precision with
      | SwapVariant.WithDesiredInput, Input value => Some value
      | SwapVariant.WithDesiredOutput, Output value => Some value
      | SwapVariant.WithDesiredInput, Output value => proportional_input c value
      | SwapVariant.WithDesiredOutput, Input value => proportional_output c value
      end
  | None => Some 0
  end.

Definition align_chunk_min (l : SwapLimits) (c : SwapChunk) : SwapChunk * SwapChunk :=
  match min_amount l with
  | Some (Input min_amount) =>
      if chunk_input c <? min_amount then (chunk_zero, c) else (c, chunk_zero)
  | Some (Output min_amount) =>
      if chunk_output c <? min_amount then (chunk_zero, c) else (c, chunk_zero)
  | None => (c, chunk_zero)
  end.

Definition align_chunk_max (l : SwapLimits) (c : SwapChunk) : option (SwapChunk * SwapChunk) :=
  match max_amount l with
  | Some (Input max_amount) =>
      if max_amount <? chunk_input c then
        rescaled ← rescale_by_input c max_amount;
        Some (rescaled, chunk_saturating_sub c rescaled)
      else Some (c, chunk_zero)
  | Some (Output max_amount) =>
      if max_amount <? chunk_output c then
        rescaled ← rescale_by_output c max_amount;
        Some (rescaled, chunk_saturating_sub c rescaled)
      else Some (c, chunk_zero)
  | None => Some (c, chunk_zero)
  end.

Definition align_extra_chunk_max (l : SwapLimits) (acc c : SwapChunk)
    : option (SwapChunk * SwapChunk) :=
  match max_amount l with
  | Some (Input max_amount) =>
      if max_amount <? sat_add u128_max (chunk_input acc) (chunk_input c) then
        let diff := sat_sub max_amount (chunk_input acc) in
        rescaled ← rescale_by_input c diff;
        Some (rescaled, chunk_saturating_sub c rescaled)
      else Some (c, chunk_zero)
  | Some (Output max_amount) =>
      if max_amount <? sat_add u128_max (chunk_output acc) (chunk_output c) then
        let diff := sat_sub max_amount (chunk_output acc) in
        rescaled ← rescale_by_output c diff;
        Some (rescaled, chunk_saturating_sub c rescaled)
      else Some (c, chunk_zero)
  | None => Some (c, chunk_zero)
  end.

(** [x % y] of unsigned integers, which panics when [y] is zero. *)
Definition checked_rem (x y : Z) : result DispatchError Z :=
  if y =? 0 then Err Panicked else Ok (x mod y).

Definition align_chunk_precision (l : SwapLimits) (c : SwapChunk)
    : result DispatchError (option (SwapChunk * SwapChunk)) :=
  match amount_precision l with
  | Some (Input precision) =>
      rem ← checked_rem (chunk_input c) precision;
      if negb (rem =? 0) then
        let count := chunk_input c / precision in
        let aligned := sat_mul u128_max count precision in
        Ok (rescaled ← rescale_by_input c aligned; Some (rescaled, chunk_saturating_sub c rescaled))
      else Ok (Some (c, chunk_zero))
  | Some (Output precision) =>
      rem ← checked_rem (chunk_output c) precision;
      if negb (rem =? 0) then
        let count := chunk_output c / precision in
        let aligned := sat_mul u128_max count precision in
        Ok (rescaled ← rescale_by_output c aligned; Some (rescaled, chunk_saturating_sub c rescaled))
      else Ok (Some (c, chunk_zero))
  | None => Ok (Some (c, chunk_zero))
  end.

Definition align_chunk (l : SwapLimits) (c : SwapChunk)
    : result DispatchError (option (SwapChunk * SwapChunk)) :=
  let '(c, remainder) := align_chunk_min l c in
  if negb (chunk_is_zero remainder) then Ok (Some (c, remainder)) else
  match align_chunk_max l c with
  | None => Ok None
  | Some (c, remainder) =>
      if negb (chunk_is_zero remainder) then Ok (Some (c, remainder)) else
      aligned ← align_chunk_precision l c;
      match aligned with
      | None => Ok None
      | Some (c, remainder) =>
          if negb (chunk_is_zero remainder) then Ok (Some (c, remainder))
          else Ok (Some (c, chunk_zero))
      end
  end.

(** ** [DiscreteQuotation] *)

(** [Permill::from_rational(1, 1000) * amount] is a product of the arithmetic
    library of the framework. *)
Class PriceEpsilon := price_epsilon : Balance → Balance.

(** The precision requirement of [verify] on one chunk. *)
Definition verify_precision (l : SwapLimits) (c : SwapChunk) : result DispatchError bool :=
  match amount_precision l with
  | None => Ok true
  | Some precision =>
      match (match precision with
             | Input input_precision =>
                 output_precision ← get_precision_step l c SwapVariant.WithDesiredOutput;
                 Some (input_precision, output_precision)
             | Output output_precision =>
                 input_precision ← get_precision_step l c SwapVariant.WithDesiredInput;
                 Some (input_precision, output_precision)
             end) with
      | None => Ok false
      | Some (input_precision, output_precision) =>
          input_rem ← checked_rem (chunk_input c) input_precision;
          if negb (input_rem =? 0) then Ok false else
          output_rem ← checked_rem (chunk_output c) output_precision;
          Ok (output_rem =? 0)
      end
  end.

Fixpoint verify_chunks `{PriceEpsilon} (l : SwapLimits) (prev_price : Balance)
    (chunks : list SwapChunk) : result DispatchError bool :=
  match chunks with
  | [] => Ok true
  | c :: chunks =>
      if (chunk_input c =? 0) || (chunk_output c =? 0) then Ok false else
      precise ← verify_precision l c;
      if negb precise then Ok false else
      match chunk_price c with
      | None => Ok false
      | Some price =>
          if price <? 0 then Ok false else
          if (prev_price <? price) && (price_epsilon prev_price <? Z.abs (price - prev_price))
          then Ok false
          else verify_chunks l price chunks
      end
  end.

Definition verify `{PriceEpsilon} (q : DiscreteQuotation) : result DispatchError bool :=
  verify_chunks (limits q) u128_max (chunks q).

(** ** Sides

    The code treats the two sides of a chunk alike; the lemmas below are stated
    once for the side [v]. *)

Definition side_variant (a : SideAmount) : SwapVariant.t :=
  match a with
  | Input _ => SwapVariant.WithDesiredInput
  | Output _ => SwapVariant.WithDesiredOutput
  end.

Definition field (v : SwapVariant.t) (c : SwapChunk) : Balance :=
  side_amount (get_associated_field c v).

Definition other (v : SwapVariant.t) : SwapVariant.t :=
  match v with
  | SwapVariant.WithDesiredInput => SwapVariant.WithDesiredOutput
  | SwapVariant.WithDesiredOutput => SwapVariant.WithDesiredInput
  end.

Lemma side_of_variant a : side_of (side_amount a) (side_variant a) = a.
Proof. by destruct a. Qed.

Lemma same_type_field c a : side_amount (get_same_type_amount c a) = field (side_variant a) c.
Proof. by destruct a. Qed.

Lemma chunk_gt_spec c a : chunk_gt c a = true ↔ side_amount a < field (side_variant a) c.
Proof.
  unfold chunk_gt, chunk_cmp, field.
  destruct a; simpl; rewrite <- Z.gt_lt_iff; unfold Z.gt; case_match; naive_solver.
Qed.

(** ** Proportions *)

(** A chunk whose product of sides fits the fixed-point type. *)
Record scalable (c : SwapChunk) : Prop := {
  scalable_input : 0 ≤ chunk_input c ≤ i128_max;
  scalable_output : 0 ≤ chunk_output c ≤ i128_max;
  scalable_product : chunk_input c * chunk_output c ≤ i128_max * Fixed.COEF
}.

(** A part of a chunk. *)
Definition part_of (c' c : SwapChunk) : Prop :=
  0 ≤ chunk_input c' ≤ chunk_input c ∧ 0 ≤ chunk_output c' ≤ chunk_output c.

Lemma part_of_field c' c : part_of c' c ↔ ∀ v, 0 ≤ field v c' ≤ field v c.
Proof.
  split; [intros [? ?] []; done|].
  intros H. split; [apply (H SwapVariant.WithDesiredInput)|apply (H SwapVariant.WithDesiredOutput)].
Qed.

Lemma part_of_trans c1 c2 c3 : part_of c1 c2 → part_of c2 c3 → part_of c1 c3.
Proof. unfold part_of. lia. Qed.

Lemma scalable_part c' c : scalable c → part_of c' c → scalable c'.
Proof.
  intros [Hi Ho Hp] [Hi' Ho']. split; [lia|lia|].
  transitivity (chunk_input c * chunk_output c); [|done]. apply Z.mul_le_mono_nonneg; lia.
Qed.

(** The floor of the proportional part never exceeds the whole. *)
Lemma proportion_le x a b : 0 ≤ x ≤ a → 0 ≤ b →
  0 ≤ x * b / Fixed.COEF * Fixed.COEF / a ≤ b.
Proof.
  intros Hx Hb. assert (0 < Fixed.COEF) by (unfold Fixed.COEF; lia).
  pose proof (Z.mul_div_le (x * b) Fixed.COEF ltac:(lia)).
  assert (0 ≤ x * b / Fixed.COEF) by (apply Z.div_pos; nia).
  destruct (decide (a = 0)) as [->|]; [rewrite Z.div_0_r; lia|].
  split; [apply Z.div_pos; nia|]. apply Z.div_le_upper_bound; nia.
Qed.

Lemma proportion_run x a b :
  0 ≤ x ≤ a → 0 ≤ b ≤ i128_max → 0 < a ≤ i128_max → a * b ≤ i128_max * Fixed.COEF →
  FixedWrapper.try_into_balance
    (FixedWrapper.div (FixedWrapper.mul (FixedWrapper.from_int x) (FixedWrapper.from_int b))
                      (FixedWrapper.from_int a))
  = Ok (x * b / Fixed.COEF * Fixed.COEF / a).
Proof.
  intros Hx Hb Ha Hab. assert (0 < Fixed.COEF) as HC by (unfold Fixed.COEF; lia).
  pose proof (proportion_le x a b Hx ltac:(lia)) as Hle.
  assert (0 ≤ x * b / Fixed.COEF ≤ i128_max) as Hm.
  { split; [apply Z.div_pos; nia|]. apply Z.div_le_upper_bound; [done|]. nia. }
  unfold FixedWrapper.div, FixedWrapper.mul, FixedWrapper.lift2, FixedWrapper.zip.
  rewrite !FixedWrapper.from_int_ok by lia. simpl.
  rewrite Fixed.rmul_floor_nonneg by lia. fold (FixedWrapper.from_int (x * b / Fixed.COEF)).
  rewrite FixedWrapper.from_int_ok by lia. simpl.
  rewrite Fixed.rdiv_floor_nonneg, FixedWrapper.try_into_balance_nonneg by lia.
  unfold FixedWrapper.floor_result. by rewrite (proj2 (Z.leb_le _ _)) by lia.
Qed.

Lemma proportional_output_scaled c x : scalable c → 0 ≤ x ≤ chunk_input c →
  proportional_output c x =
  Some (x * chunk_output c / Fixed.COEF * Fixed.COEF / chunk_input c).
Proof.
  intros [Hi Ho Hp] Hx. unfold proportional_output. destruct (Z.eqb_spec x 0) as [->|].
  - by rewrite Z.mul_0_l, !Zdiv_0_l.
  - by rewrite proportion_run by lia.
Qed.

Lemma proportional_input_scaled c x : scalable c → 0 ≤ x ≤ chunk_output c →
  proportional_input c x =
  Some (x * chunk_input c / Fixed.COEF * Fixed.COEF / chunk_output c).
Proof.
  intros [Hi Ho Hp] Hx. unfold proportional_input. destruct (Z.eqb_spec x 0) as [->|].
  - by rewrite Z.mul_0_l, !Zdiv_0_l.
  - by rewrite proportion_run by lia.
Qed.

(** The other side of a chunk of which [x] is taken on the side [v]. *)
Definition proportion (v : SwapVariant.t) (c : SwapChunk) (x : Balance) : Balance :=
  x * field (other v) c / Fixed.COEF * Fixed.COEF / field v c.

Lemma proportion_bounds v c x : scalable c → 0 ≤ x ≤ field v c →
  0 ≤ proportion v c x ≤ field (other v) c.
Proof. intros [? ? ?] Hx. destruct v; apply proportion_le; unfold field in *; simpl in *; lia. Qed.

(** Rescaling the fee by nothing leaves no fee. *)
Lemma fee_rescale_zero f ratio f' :
  (∀ r, ratio = Ok r → r = 0) → OutcomeFee.rescale_by_ratio f ratio = Some f' →
  OutcomeFee.is_zero_fee f' = true.
Proof.
  intros Hr. revert f'. induction f as [|[asset value] f IH]; simpl; intros f' Hf; [by simplify_eq|].
  destruct (FixedWrapper.try_into_balance _) as [value'|] eqn:E; [|done].
  apply bind_Some in Hf as (f1 & H1 & [= <-]). unfold OutcomeFee.is_zero_fee, bt_values. simpl.
  apply andb_true_iff. split; [|by apply IH].
  unfold FixedWrapper.mul, FixedWrapper.lift2, FixedWrapper.zip in E.
  destruct (FixedWrapper.from_int value) as [w|]; [|done].
  destruct ratio as [r|]; [|done]. rewrite (Hr r) in E by done. simpl in E.
  unfold Fixed.rmul in E. rewrite Z.mul_0_r in E. cbn in E. by injection E as <-.
Qed.

Lemma ratio_of_zero a : ∀ r,
  FixedWrapper.div (FixedWrapper.from_int 0) (FixedWrapper.from_int a) = Ok r → r = 0.
Proof.
  intros r. unfold FixedWrapper.div, FixedWrapper.lift2, FixedWrapper.zip.
  rewrite (FixedWrapper.from_int_ok 0) by (unfold i128_max; lia).
  destruct (FixedWrapper.from_int a) as [w|]; [|done]. simpl.
  unfold Fixed.rdiv. destruct (Z.eqb_spec w 0); [done|].
  rewrite Z.mul_0_l, Z.quot_0_l by done. rewrite Z.mul_0_l. cbn. by intros [= <-].
Qed.

(** What rescaling to [a], a part of the chunk, returns. *)
Lemma rescale_scaled c a c' :
  scalable c → 0 ≤ side_amount a ≤ field (side_variant a) c →
  rescale_by_side_amount c a = Some c' →
  field (side_variant a) c' = side_amount a ∧
  field (other (side_variant a)) c' = proportion (side_variant a) c (side_amount a) ∧
  part_of c' c ∧ (side_amount a = 0 → chunk_is_zero c' = true).
Proof.
  intros Hc Ha Hr. pose proof (proportion_bounds _ c _ Hc Ha) as Hb.
  assert (∀ f f' b, OutcomeFee.rescale_by_ratio f
     (FixedWrapper.div (FixedWrapper.from_int (side_amount a)) (FixedWrapper.from_int b)) = Some f' →
     side_amount a = 0 → OutcomeFee.is_zero_fee f' = true) as Hfee.
  { intros f f' b Hf E. rewrite E in Hf. eapply fee_rescale_zero; [|exact Hf]. apply ratio_of_zero. }
  destruct a as [x|x]; simpl in *; unfold rescale_by_input, rescale_by_output in Hr.
  - rewrite proportional_output_scaled in Hr by done. simpl in Hr.
    apply bind_Some in Hr as (fee & Hf & [= <-]).
    unfold proportion, part_of, chunk_is_zero, field in *; simpl in *.
    split_and!; [done|done|lia..|]. intros ->. rewrite (Hfee _ _ _ Hf) by done.
    by rewrite Z.mul_0_l, !Zdiv_0_l.
  - rewrite proportional_input_scaled in Hr by done. simpl in Hr.
    apply bind_Some in Hr as (fee & Hf & [= <-]).
    unfold proportion, part_of, chunk_is_zero, field in *; simpl in *.
    split_and!; [done|done|lia..|]. intros ->. rewrite (Hfee _ _ _ Hf) by done.
    by rewrite Z.mul_0_l, !Zdiv_0_l.
Qed.
