(* ===== verification/Aggregator.v ===== *)
(** * The liquidity aggregator

    [pallets/liquidity-proxy/src/liquidity_aggregator/]: the selector of the best
    chunk ([selector.rs]), the clusters of selected chunks ([aggregation.rs]) and
    the aggregation ([liquidity_aggregator.rs]).  The aggregator is consumed by
    [aggregate_liquidity], so a failing method returns its error only.  The
    [while] loops run with a bound on the number of their iterations;
    [OutOfFuel] is the exhaustion of the bound, which is no error of the code. *)

From S2P Require Import Prelude BTreeMap FixedPoint Units OrderTypes SwapTypes Chunks.

Inductive AggError := Raised (e : DispatchError) | OutOfFuel.

Abbreviation AggregationError := (Raised (LiquidityProxyError LiquidityProxyErrors.AggregationError)).
Abbreviation CalculationError := (Raised (LiquidityProxyError LiquidityProxyErrors.CalculationError)).
Abbreviation InsufficientLiquidity :=
  (Raised (LiquidityProxyError LiquidityProxyErrors.InsufficientLiquidity)).

Definition raise {A} (r : result DispatchError A) : result AggError A :=
  match r with Ok a => Ok a | Err e => Err (Raised e) end.

(** [T::InternalSlippageTolerance::get() * amount], a product with a [Permill]. *)
Class SlippageTolerance := slippage_tolerance : Balance → Balance.

(** ** [aggregation.rs] *)

Record Cluster := mkCluster { cluster_total : SwapChunk; cluster_chunks : list SwapChunk }.

Definition cluster_new : Cluster := mkCluster chunk_zero [].

Definition cluster_push_back (c : Cluster) (chunk : SwapChunk) : Cluster :=
  mkCluster (chunk_saturating_add (cluster_total c) chunk) (cluster_chunks c ++ [chunk]).

Definition cluster_pop_back (c : Cluster) : option (SwapChunk * Cluster) :=
  chunk ← last (cluster_chunks c);
  Some (chunk, mkCluster (chunk_saturating_sub (cluster_total c) chunk)
                 (removelast (cluster_chunks c))).

Definition cluster_is_empty (c : Cluster) : bool :=
  match cluster_chunks c with [] => true | _ :: _ => false end.

Abbreviation Aggregation LS := (BTreeMap LS Cluster) (only parsing).

Section aggregation.
Context {LS : Type} `{Ord LS}.

Definition get_total (a : Aggregation LS) (source : LS) : SwapChunk :=
  match bt_get source a with Some cluster => cluster_total cluster | None => chunk_zero end.

Definition get_cluster (a : Aggregation LS) (source : LS) : result AggError Cluster :=
  ok_or (bt_get source a) AggregationError.

Definition push_aggregated (a : Aggregation LS) (source : LS) (chunk : SwapChunk) : Aggregation LS :=
  bt_modify_or_insert (λ cluster, cluster_push_back cluster chunk)
    (cluster_push_back cluster_new chunk) source a.

(** [sort_by] is stable. *)
Fixpoint insert_by_price (x : LS * Z) (queue : list (LS * Z)) : list (LS * Z) :=
  match queue with
  | [] => [x]
  | y :: queue => if snd x <=? snd y then x :: y :: queue else y :: insert_by_price x queue
  end.
Definition sort_by_price (queue : list (LS * Z)) : list (LS * Z) := foldr insert_by_price [] queue.

Definition get_total_price_ascending_queue (a : Aggregation LS) : list LS :=
  fst <$> sort_by_price
    (omap (λ '(source, cluster), price ← chunk_price (cluster_total cluster); Some (source, price)) a).
End aggregation.

(** ** [selector.rs] *)

Record Selector (LS : Type) := mkSelector {
  selector_variant : SwapVariant.t;
  liquidity_quotations : BTreeMap LS DiscreteQuotation;
  locked_sources : BTreeMap LS unit
}.
Arguments mkSelector {LS}.
Arguments selector_variant {LS}.
Arguments liquidity_quotations {LS}.
Arguments locked_sources {LS}.

Section selector.
Context {LS : Type} `{Ord LS}.
Implicit Types (s : Selector LS) (source : LS).

Definition selector_new (variant : SwapVariant.t) : Selector LS := mkSelector variant [] [].

Definition set_quotations s (q : BTreeMap LS DiscreteQuotation) : Selector LS :=
  mkSelector (selector_variant s) q (locked_sources s).

Definition selector_add_source s source (discrete_quotation : DiscreteQuotation) : Selector LS :=
  set_quotations s (bt_insert source discrete_quotation (liquidity_quotations s)).

Definition selector_is_empty s : bool :=
  match liquidity_quotations s with [] => true | _ :: _ => false end.

Definition lock_source s source : Selector LS :=
  mkSelector (selector_variant s) (liquidity_quotations s) (bt_insert source tt (locked_sources s)).

Definition is_locked s source : bool :=
  match bt_get source (locked_sources s) with Some _ => true | None => false end.

Definition get_limits s source : result AggError SwapLimits :=
  quotation ← ok_or (bt_get source (liquidity_quotations s)) AggregationError;
  mret (limits quotation).

Definition selector_push_chunk s source (chunk : SwapChunk) : result AggError (Selector LS) :=
  quotation ← ok_or (bt_get source (liquidity_quotations s)) AggregationError;
  mret (set_quotations s
    (bt_insert source (mkQuotation (chunk :: chunks quotation) (limits quotation))
       (liquidity_quotations s))).

(** The loop of [return_liquidity]. *)
Fixpoint return_chunks (fuel : nat) s (amount : SideAmount) source (cluster : Cluster)
    (taken : SwapChunk) : result AggError (SwapChunk * Selector LS * Cluster) :=
  if negb (0 <? side_amount amount) then Ok (taken, s, cluster) else
  match fuel with
  | O => Err OutOfFuel
  | S fuel =>
      match cluster_pop_back cluster with
      | None => Ok (taken, s, cluster)
      | Some (chunk, cluster) =>
          if chunk_le chunk amount then
            value ← ok_or (u128_checked_sub (side_amount amount)
                             (side_amount (get_same_type_amount chunk amount))) CalculationError;
            s ← selector_push_chunk s source chunk;
            return_chunks fuel s (set_amount amount value) source cluster
              (chunk_saturating_add taken chunk)
          else
            remainder_chunk ← ok_or (rescale_by_side_amount chunk amount) CalculationError;
            let cluster := cluster_push_back cluster (chunk_saturating_sub chunk remainder_chunk) in
            s ← selector_push_chunk s source remainder_chunk;
            return_chunks fuel s (set_amount amount 0) source cluster
              (chunk_saturating_add taken remainder_chunk)
      end
  end.

(** Every iteration but the last takes a chunk of the cluster. *)
Definition return_liquidity s (amount : SideAmount) source (cluster : Cluster)
    : result AggError (SwapChunk * bool * Selector LS * Cluster) :=
  '(taken, s, cluster) ← return_chunks (S (length (cluster_chunks cluster))) s amount source cluster
                           chunk_zero;
  mret (taken, cluster_is_empty cluster, s, cluster).

(** The state of the loop of [select_chunk]: [candidates], [delayed] and [max]. *)
Fixpoint select_candidates s (amount : Balance) (quotations : list (LS * DiscreteQuotation))
    (candidates : list LS) (delayed : option LS) (max : Z)
    : result AggError (list LS * option LS) :=
  match quotations with
  | [] => Ok (candidates, delayed)
  | (source, discrete_quotation) :: quotations =>
      if is_locked s source then select_candidates s amount quotations candidates delayed max else
      match chunks discrete_quotation with
      | [] => select_candidates s amount quotations candidates delayed max
      | front :: _ =>
          price ← ok_or (chunk_price front) CalculationError;
          step ← ok_or (get_precision_step (limits discrete_quotation) front (selector_variant s))
                   CalculationError;
          let candidates :=
            if (price =? max) && (step <=? amount) then candidates ++ [source] else candidates in
          if max <? price then
            if amount <? step then
              select_candidates s amount quotations candidates (Some source) max
            else select_candidates s amount quotations [source] delayed price
          else select_candidates s amount quotations candidates delayed max
      end
  end.

Definition is_aggregated (a : Aggregation LS) source : bool :=
  match bt_get source a with Some _ => true | None => false end.

Definition select_chunk s (amount : Balance) (a : Aggregation LS)
    : result AggError (LS * SwapChunk * Selector LS) :=
  '(candidates, delayed) ← select_candidates s amount (liquidity_quotations s) [] None 0;
  source ←
    match candidates with
    | first :: _ =>
        mret (default first (head (List.filter (is_aggregated a) candidates)))
    | [] => ok_or delayed InsufficientLiquidity
    end;
  quotation ← ok_or (bt_get source (liquidity_quotations s)) AggregationError;
  match chunks quotation with
  | [] => mthrow AggregationError
  | chunk :: rest =>
      mret (source, chunk,
        set_quotations s
          (bt_insert source (mkQuotation rest (limits quotation)) (liquidity_quotations s)))
  end.
End selector.

(** ** [liquidity_aggregator.rs] *)

Record LiquidityAggregator (LS : Type) := mkAggregator {
  agg_variant : SwapVariant.t;
  agg_selector : Selector LS;
  agg_aggregation : Aggregation LS;
  origin_amount : Balance
}.
Arguments mkAggregator {LS}.
Arguments agg_variant {LS}.
Arguments agg_selector {LS}.
Arguments agg_aggregation {LS}.
Arguments origin_amount {LS}.

Record AggregationResult (LS : Type) := mkAggregationResult {
  swap_info : BTreeMap LS (Balance * Balance);
  distribution : list (LS * SwapAmount);
  desired_amount : Balance;
  result_amount : Balance;
  result_variant : SwapVariant.t;
  result_fee : OutcomeFee.t
}.
Arguments mkAggregationResult {LS}.
Arguments swap_info {LS}.
Arguments distribution {LS}.
Arguments desired_amount {LS}.
Arguments result_amount {LS}.
Arguments result_variant {LS}.
Arguments result_fee {LS}.

Section aggregator.
Context {LS : Type} `{Ord LS} `{SlippageTolerance}.
Implicit Types (self : LiquidityAggregator LS) (source : LS).

Definition aggregator_new (variant : SwapVariant.t) : LiquidityAggregator LS :=
  mkAggregator variant (selector_new variant) [] 0.

Definition set_selector self (s : Selector LS) : LiquidityAggregator LS :=
  mkAggregator (agg_variant self) s (agg_aggregation self) (origin_amount self).
Definition set_aggregation self (a : Aggregation LS) : LiquidityAggregator LS :=
  mkAggregator (agg_variant self) (agg_selector self) a (origin_amount self).

Definition add_source self source (discrete_quotation : DiscreteQuotation) : LiquidityAggregator LS :=
  set_selector self (selector_add_source (agg_selector self) source discrete_quotation).

(** The part of [fit_chunk] that fits a non-empty [chunk] to the [amount] and to the
    precision: the new [chunk], [refund] and [amount]. *)
Definition fit_amount (variant : SwapVariant.t) (limits : SwapLimits) (chunk refund : SwapChunk)
    (amount : Balance) : result AggError (SwapChunk * SwapChunk * Balance) :=
  step ← ok_or (get_precision_step limits chunk variant) CalculationError;
  '(chunk, refund, amount) ←
    (if amount <? step then
       match variant with
       | SwapVariant.WithDesiredInput =>
           (* round down *)
           Ok (chunk_zero, chunk_saturating_add refund chunk, 0)
       | SwapVariant.WithDesiredOutput =>
           (* round up *)
           precision ← ok_or (amount_precision limits) AggregationError;
           rescaled ← ok_or (rescale_by_side_amount chunk precision) CalculationError;
           Ok (rescaled, chunk_saturating_add refund (chunk_saturating_sub chunk rescaled), step)
       end
     else
       let side_amount :=
         if negb (step =? 0) && negb (amount mod step =? 0)
         then side_of (sat_mul u128_max (amount / step) step) variant
         else side_of amount variant in
       '(chunk, refund) ←
         (if chunk_gt chunk side_amount then
            rescaled ← ok_or (rescale_by_side_amount chunk side_amount) CalculationError;
            Ok (rescaled, chunk_saturating_add refund (chunk_saturating_sub chunk rescaled))
          else Ok (chunk, refund));
       aligned ← raise (align_chunk_precision limits chunk);
       '(aligned, reminder) ← ok_or aligned CalculationError;
       if negb (chunk_is_zero reminder)
       then Ok (aligned, chunk_saturating_add refund reminder, amount)
       else Ok (chunk, refund, amount));
  if chunk_is_zero chunk && negb (amount =? 0) then Err AggregationError
  else Ok (chunk, refund, amount).

Definition fit_chunk self (chunk : SwapChunk) source (amount : Balance)
    : result AggError (SwapChunk * Balance * LiquidityAggregator LS) :=
  limits ← get_limits (agg_selector self) source;
  let total := get_total (agg_aggregation self) source in
  '(aligned, remainder) ← ok_or (align_extra_chunk_max limits total chunk) CalculationError;
  let '(chunk, refund, self) :=
    if negb (chunk_is_zero remainder)
    then (aligned, remainder, set_selector self (lock_source (agg_selector self) source))
    else (chunk, chunk_zero, self) in
  '(chunk, refund, amount) ←
    (if negb (chunk_is_zero chunk) then fit_amount (agg_variant self) limits chunk refund amount
     else Ok (chunk, refund, amount));
  if negb (chunk_is_zero refund) then
    s ← selector_push_chunk (agg_selector self) source refund;
    Ok (chunk, amount, set_selector self s)
  else Ok (chunk, amount, self).

Fixpoint aggregate_amount (fuel : nat) (amount : Balance) self
    : result AggError (LiquidityAggregator LS) :=
  if negb (0 <? amount) then Ok self else
  match fuel with
  | O => Err OutOfFuel
  | S fuel =>
      '(source, chunk, s) ← select_chunk (agg_selector self) amount (agg_aggregation self);
      '(chunk, new_amount, self) ← fit_chunk (set_selector self s) chunk source amount;
      let diff := Z.abs (amount - new_amount) in
      if negb (new_amount =? amount) && (slippage_tolerance (origin_amount self) <? diff)
      then Err InsufficientLiquidity
      else if negb (new_amount =? amount) && (new_amount =? 0) then Ok self
      else if chunk_is_zero chunk then aggregate_amount fuel new_amount self
      else
        let delta := side_amount (get_associated_field chunk (agg_variant self)) in
        let self := set_aggregation self (push_aggregated (agg_aggregation self) source chunk) in
        amount ← ok_or (u128_checked_sub new_amount delta) CalculationError;
        aggregate_amount fuel amount self
  end.

(** The loop of [align_min]; the last component is [to_delete]. *)
Fixpoint align_queue (fuel : nat) (queue : list LS) (to_delete : list LS) self
    : result AggError (list LS * LiquidityAggregator LS) :=
  match queue with
  | [] => Ok (to_delete, self)
  | source :: queue =>
      cluster ← get_cluster (agg_aggregation self) source;
      limits ← get_limits (agg_selector self) source;
      let '(_, remainder) := align_chunk_min limits (cluster_total cluster) in
      if negb (chunk_is_zero remainder) then
        min_amount ← ok_or (min_amount limits) AggregationError;
        let remainder := get_same_type_amount remainder min_amount in
        '(returned_liquidity, delete, s, cluster) ←
          return_liquidity (agg_selector self) remainder source cluster;
        let to_delete := if delete : bool then to_delete ++ [source] else to_delete in
        let self :=
          set_aggregation (set_selector self (lock_source s source))
            (bt_insert source cluster (agg_aggregation self)) in
        let remaining_amount :=
          side_amount (get_associated_field returned_liquidity (agg_variant self)) in
        self ← aggregate_amount fuel remaining_amount self;
        align_queue fuel queue to_delete self
      else align_queue fuel queue to_delete self
  end.

Definition is_listed (to_delete : list LS) source : bool :=
  existsb (λ s, match cmp s source with Eq => true | _ => false end) to_delete.

Definition align_min (fuel : nat) self : result AggError (LiquidityAggregator LS) :=
  let queue := get_total_price_ascending_queue (agg_aggregation self) in
  '(to_delete, self) ← align_queue fuel queue [] self;
  mret (set_aggregation self
    (filter (λ p, is_listed to_delete (fst p) = false) (agg_aggregation self))).

(** The loop of [calculate_result]. *)
Fixpoint sum_clusters (variant : SwapVariant.t) (clusters : list (LS * Cluster))
    (r : AggregationResult LS) : result AggError (AggregationResult LS) :=
  match clusters with
  | [] => Ok r
  | (source, cluster) :: clusters =>
      let total := cluster_total cluster in
      let '(desired_part, result_part) :=
        match variant with
        | SwapVariant.WithDesiredInput => (chunk_input total, chunk_output total)
        | SwapVariant.WithDesiredOutput => (chunk_output total, chunk_input total)
        end in
      desired_amount ← ok_or (u128_checked_add (desired_amount r) desired_part) CalculationError;
      result_amount ← ok_or (u128_checked_add (result_amount r) result_part) CalculationError;
      sum_clusters variant clusters
        (mkAggregationResult
           (bt_insert source (chunk_input total, chunk_output total) (swap_info r))
           (distribution r ++ [(source, with_variant variant desired_part result_part)])
           desired_amount result_amount variant
           (OutcomeFee.merge (result_fee r) (chunk_fee total)))
  end.

Definition calculate_result self : result AggError (AggregationResult LS) :=
  sum_clusters (agg_variant self) (agg_aggregation self)
    (mkAggregationResult [] [] 0 0 (agg_variant self) OutcomeFee.new).

Definition aggregate_liquidity (fuel : nat) self (amount : Balance)
    : result AggError (AggregationResult LS) :=
  let self := mkAggregator (agg_variant self) (agg_selector self) (agg_aggregation self) amount in
  if selector_is_empty (agg_selector self) then Err InsufficientLiquidity else
  self ← aggregate_amount fuel amount self;
  self ← align_min fuel self;
  calculate_result self.
End aggregator.

(** ** [new_smart_split] of [lib.rs] *)

(** The liquidity registry ([T::LiquidityRegistry]), which dispatches to the
    liquidity sources. *)
Class LiquidityRegistry (LS Reward : Type) := {
  registry_step_quote : LS → AssetId → AssetId → QuoteAmount → bool →
    result DispatchError DiscreteQuotation;
  registry_check_rewards : LS → AssetId → AssetId → Balance → Balance →
    result DispatchError (list Reward)
}.

Record AggregatedSwapOutcome (LS : Type) := mkAggregatedOutcome {
  outcome_distribution : list (LS * SwapAmount);
  aggregated_outcome_amount : Balance;
  aggregated_outcome_fee : OutcomeFee.t
}.
Arguments mkAggregatedOutcome {LS}.
Arguments outcome_distribution {LS}.
Arguments aggregated_outcome_amount {LS}.
Arguments aggregated_outcome_fee {LS}.

(** [From<AggregationResult> for AggregatedSwapOutcome]. *)
Definition to_aggregated_outcome {LS} (value : AggregationResult LS) : AggregatedSwapOutcome LS :=
  mkAggregatedOutcome (distribution value) (result_amount value) (result_fee value).

Section smart_split.
Context {LS Reward : Type} `{Ord LS} `{SlippageTolerance} `{PriceEpsilon} {LR : LiquidityRegistry LS Reward}.

(** The sources whose quotation fails or is bad are skipped. *)
Fixpoint add_quotes (sources : list LS) (input_asset_id output_asset_id : AssetId)
    (amount : QuoteAmount) (deduce_fee : bool) (aggregator : LiquidityAggregator LS)
    : result AggError (LiquidityAggregator LS) :=
  match sources with
  | [] => Ok aggregator
  | source :: sources =>
      match registry_step_quote source input_asset_id output_asset_id amount deduce_fee with
      | Ok discrete_quotation =>
          verified ← raise (verify discrete_quotation);
          add_quotes sources input_asset_id output_asset_id amount deduce_fee
            (if verified : bool then add_source aggregator source discrete_quotation else aggregator)
      | Err _ => add_quotes sources input_asset_id output_asset_id amount deduce_fee aggregator
      end
  end.

Definition new_smart_split (fuel : nat) (sources : list LS)
    (base_asset_id input_asset_id output_asset_id : AssetId) (amount : QuoteAmount)
    (skip_info deduce_fee : bool) : result AggError (AggregatedSwapOutcome LS * list Reward) :=
  ensure (bool_decide (input_asset_id ≠ output_asset_id))
    (Raised (LiquidityProxyError LiquidityProxyErrors.UnavailableExchangePath));;
  ensure (bool_decide (input_asset_id = base_asset_id ∨ output_asset_id = base_asset_id))
    (Raised (LiquidityProxyError LiquidityProxyErrors.UnavailableExchangePath));;
  aggregator ← add_quotes sources input_asset_id output_asset_id amount deduce_fee
                 (aggregator_new (quote_variant amount));
  aggregation_result ← aggregate_liquidity fuel aggregator (quote_amount amount);
  let rewards :=
    if skip_info then [] else
    flat_map (λ '(source, (input, output)),
      match registry_check_rewards source input_asset_id output_asset_id input output with
      | Ok reward => reward
      | Err _ => []
      end) (swap_info aggregation_result) in
  Ok (to_aggregated_outcome aggregation_result, rewards).
End smart_split.
