(* ===== verification/ChunkFitting.v ===== *)
(** * Fitting chunks to amounts and limits

    What the arithmetic of [Chunks] and [fit_amount] of the aggregator guarantee
    for a chunk whose product of sides fits the fixed-point type: a part taken of
    a chunk and its refund add up to the chunk on both sides, the part is a multiple
    of the precision and stays below the maximum. *)

From S2P Require Import Prelude BTreeMap FixedPoint Units OrderTypes SwapTypes Chunks Aggregator.

(** ** Amounts of a chunk *)

Lemma field_zero v : field v chunk_zero = 0.
Proof. by destruct v. Qed.

Lemma field_sub v c c' : part_of c' c → field v (chunk_saturating_sub c c') = field v c - field v c'.
Proof.
  intros Hp. pose proof (proj1 (part_of_field c' c) Hp v).
  transitivity (sat_sub (field v c) (field v c')); [by destruct v|]. unfold sat_sub. lia.
Qed.

Lemma field_add v c c' : 0 ≤ field v c + field v c' ≤ u128_max →
  field v (chunk_saturating_add c c') = field v c + field v c'.
Proof.
  intros ?. transitivity (sat_add u128_max (field v c) (field v c')); [by destruct v|].
  unfold sat_add. lia.
Qed.

(** The volume of a chunk: zero only when the chunk has nothing to swap. *)
Definition volume (c : SwapChunk) : Z := chunk_input c + chunk_output c.

Lemma volume_field v c : volume c = field v c + field (other v) c.
Proof. destruct v; unfold volume, field; simpl; lia. Qed.

Lemma is_zero_field c v : chunk_is_zero c = true → field v c = 0.
Proof. unfold chunk_is_zero, field. intros. zbool. by destruct v. Qed.

Lemma part_of_refl c : scalable c → part_of c c.
Proof. intros [? ? ?]. unfold part_of. lia. Qed.

Lemma part_of_field_le c' c v : part_of c' c → 0 ≤ field v c' ≤ field v c.
Proof. intros Hp. by apply part_of_field. Qed.

Lemma part_of_volume c' c v : part_of c' c → field v c' ≤ volume c'.
Proof. intros [? ?]. unfold volume, field. destruct v; simpl; lia. Qed.

Lemma try_into_balance_pos a b : FixedWrapper.try_into_balance a = Ok b → 0 ≤ b.
Proof. unfold FixedWrapper.try_into_balance. destruct a; [|done]. case_match; [|done]. intros [= <-]. zbool. lia. Qed.

Lemma proportional_pos c x y :
  proportional_input c x = Some y ∨ proportional_output c x = Some y → 0 ≤ y.
Proof.
  unfold proportional_input, proportional_output.
  intros [H|H]; (destruct (x =? 0); [by simplify_eq|]);
    (destruct (FixedWrapper.try_into_balance _) as [r|[]] eqn:E in H; [|apply bind_Some in H as (p & _ & H)|done..];
     [simplify_eq; by eapply try_into_balance_pos|]);
    (unfold ok in H; case_match eqn:E'; [|done]; simplify_eq; by eapply try_into_balance_pos).
Qed.

Lemma step_pos l c v step : (∀ p, amount_precision l = Some p → 0 < side_amount p) →
  get_precision_step l c v = Some step → 0 ≤ step.
Proof.
  unfold get_precision_step. intros Hl. destruct (amount_precision l) as [p|]; [|by intros [= <-]].
  specialize (Hl p eq_refl).
  destruct v, p; simpl in *; intros Hs; simplify_eq; try lia; eauto using proportional_pos.
Qed.

(** ** Limits *)

(** The limits of a source as the order book sets them: the maximum is on the
    side of the precision and a multiple of it. *)
Record limits_aligned (l : SwapLimits) : Prop := {
  precision_positive p : amount_precision l = Some p → 0 < side_amount p;
  max_nonneg m : max_amount l = Some m → 0 ≤ side_amount m;
  max_aligned p m : amount_precision l = Some p → max_amount l = Some m →
    side_variant m = side_variant p ∧ (side_amount p | side_amount m)
}.

Definition chunk_aligned (l : SwapLimits) (c : SwapChunk) : Prop :=
  ∀ p, amount_precision l = Some p → (side_amount p | field (side_variant p) c).

(** The two cases of [align_chunk_precision] and of [align_extra_chunk_max], for
    either side. *)
Lemma align_precision_cases l c r :
  align_chunk_precision l c = Ok r → scalable c →
  (∀ p, amount_precision l = Some p → 0 < side_amount p) →
  (r = Some (c, chunk_zero) ∧ chunk_aligned l c) ∨
  ∃ p x, amount_precision l = Some p ∧ field (side_variant p) c mod side_amount p ≠ 0 ∧
    x = field (side_variant p) c / side_amount p * side_amount p ∧
    r = (rescaled ← rescale_by_side_amount c (side_of x (side_variant p));
         Some (rescaled, chunk_saturating_sub c rescaled)).
Proof.
  unfold align_chunk_precision, chunk_aligned. intros Hr [Hi Ho _] Hp.
  destruct (amount_precision l) as [p|]; [|simplify_eq; naive_solver].
  specialize (Hp p eq_refl).
  assert (∀ a, 0 ≤ a ≤ i128_max → sat_mul u128_max (a / side_amount p) (side_amount p)
     = a / side_amount p * side_amount p) as Hsat.
  { intros a Ha. unfold sat_mul. pose proof (Z.mul_div_le a (side_amount p) Hp).
    assert (i128_max ≤ u128_max) by done. lia. }
  destruct p as [P|P]; simpl in *; unfold checked_rem in Hr; (destruct (Z.eqb_spec P 0); [lia|]);
    simpl in Hr; unfold field; simpl; case_match eqn:E; zbool; simplify_eq.
  - right. eexists (Input P), _. rewrite Hsat by lia. done.
  - left. split; [done|]. intros p [= <-]. by apply Z.mod_divide.
  - right. eexists (Output P), _. rewrite Hsat by lia. done.
  - left. split; [done|]. intros p [= <-]. by apply Z.mod_divide.
Qed.

Lemma align_max_cases l acc c r :
  align_extra_chunk_max l acc c = Some r →
  (r = (c, chunk_zero) ∧
   ∀ m, max_amount l = Some m →
     sat_add u128_max (field (side_variant m) acc) (field (side_variant m) c) ≤ side_amount m) ∨
  ∃ m rescaled, max_amount l = Some m ∧
    side_amount m < sat_add u128_max (field (side_variant m) acc) (field (side_variant m) c) ∧
    rescale_by_side_amount c
      (side_of (sat_sub (side_amount m) (field (side_variant m) acc)) (side_variant m)) = Some rescaled ∧
    r = (rescaled, chunk_saturating_sub c rescaled).
Proof.
  unfold align_extra_chunk_max. intros Hr.
  destruct (max_amount l) as [m|]; [|simplify_eq; naive_solver].
  destruct m as [m|m]; case_match eqn:E; zbool.
  - right. apply bind_Some in Hr as (c' & Hc & [= <-]). exists (Input m), c'. done.
  - left. simplify_eq. split; [done|]. by intros ? [= <-].
  - right. apply bind_Some in Hr as (c' & Hc & [= <-]). exists (Output m), c'. done.
  - left. simplify_eq. split; [done|]. by intros ? [= <-].
Qed.

(** Rescaling a chunk to the amount [x] of its side [v]. *)
Lemma rescale_side c v x c' : scalable c → 0 ≤ x ≤ field v c →
  rescale_by_side_amount c (side_of x v) = Some c' →
  field v c' = x ∧ field (other v) c' = proportion v c x ∧ part_of c' c ∧
  (chunk_is_zero c' = false → 0 < volume c').
Proof.
  intros Hc Hx Hr.
  destruct (rescale_scaled c (side_of x v) c' Hc) as (Hf & Ho & Hp & Hz); [by destruct v|done|].
  assert (side_variant (side_of x v) = v) as Hv by by destruct v.
  assert (side_amount (side_of x v) = x) as Ha by by destruct v.
  rewrite Hv, ?Ha in *. split_and!; try done.
  intros Hn. rewrite (volume_field v).
  pose proof (part_of_field_le _ _ (other v) Hp).
  destruct (decide (x = 0)) as [->|]; [by rewrite Hz in Hn|]. lia.
Qed.

(** ** Fitting a chunk *)

(** [c'] is taken of [c] and the rest added to [refund]. *)
Record taken_of (c refund c' refund' : SwapChunk) : Prop := {
  taken_part : part_of c' c;
  taken_refund v : field v refund' = field v refund + (field v c - field v c');
  taken_volume : chunk_is_zero c' = false → 0 < volume c'
}.

(** There is room for the whole chunk beside the refund. *)
Definition room (c refund : SwapChunk) : Prop :=
  ∀ v, 0 ≤ field v refund ∧ field v refund + field v c ≤ u128_max.

Lemma field_refund v c c' refund : part_of c' c → room c refund →
  field v (chunk_saturating_add refund (chunk_saturating_sub c c'))
  = field v refund + (field v c - field v c').
Proof.
  intros Hp Hr. specialize (Hr v). pose proof (part_of_field_le _ _ v Hp).
  rewrite field_add; rewrite field_sub by done; lia.
Qed.

(** Rounding the amount up to a step of the precision. *)
Lemma round_up_spec l c refund p step c' :
  scalable c → limits_aligned l → chunk_aligned l c → room c refund →
  amount_precision l = Some p → 0 < field (side_variant p) c →
  get_precision_step l c SwapVariant.WithDesiredOutput = Some step →
  rescale_by_side_amount c p = Some c' →
  taken_of c refund c' (chunk_saturating_add refund (chunk_saturating_sub c c')) ∧
  chunk_aligned l c' ∧ field SwapVariant.WithDesiredOutput c' = step.
Proof.
  intros Hc Hl Ha Hroom Hp Hpos Hs Hr.
  pose proof (precision_positive _ Hl _ Hp) as HP.
  assert (side_amount p ≤ field (side_variant p) c) as Hle.
  { apply Z.divide_pos_le; [done|]. by apply Ha. }
  rewrite <- (side_of_variant p) in Hr. apply rescale_side in Hr as (Hf & Ho & Hpart & Hv); [|done|lia].
  split_and!.
  - split; [done| |done]. intros. by apply field_refund.
  - intros p' E. simplify_eq. by rewrite Hf.
  - unfold get_precision_step in Hs. rewrite Hp in Hs. destruct p as [P|P]; simpl in *.
    + rewrite proportional_output_scaled in Hs by (unfold field in *; simpl in *; try done; lia).
      by simplify_eq.
    + by simplify_eq.
Qed.

(** Taking at most [x] and aligning with the precision. *)
Lemma take_aligned_spec l c refund v x c2 refund2 r c3 rem :
  scalable c → limits_aligned l → chunk_aligned l c → room c refund → 0 < x → 0 < volume c →
  (if chunk_gt c (side_of x v) then
     rescaled ← ok_or (rescale_by_side_amount c (side_of x v)) CalculationError;
     Ok (rescaled, chunk_saturating_add refund (chunk_saturating_sub c rescaled))
   else Ok (c, refund)) = Ok (c2, refund2) →
  align_chunk_precision l c2 = Ok r → r = Some (c3, rem) →
  let '(c', refund') :=
    if negb (chunk_is_zero rem) then (c3, chunk_saturating_add refund2 rem) else (c2, refund2) in
  taken_of c refund c' refund' ∧ chunk_aligned l c' ∧ field v c' ≤ x.
Proof.
  intros Hc Hl Ha Hroom Hx Hvol H2 Hr ->.
  assert (taken_of c refund c2 refund2 ∧ field v c2 ≤ x) as [[Hp2 Hr2 Hv2] Hx2].
  { destruct (chunk_gt c (side_of x v)) eqn:E.
    - apply chunk_gt_spec in E. rewrite result_bind_ok in H2.
      destruct H2 as (c2' & Hres%result_ok_or_ok & [= -> <-]).
      apply rescale_side in Hres as (Hf & _ & Hpart & Hvol2); [|done|destruct v; simpl in *; lia].
      split; [split; [done| |done]|lia]. intros. by apply field_refund.
    - simplify_eq. split.
      + split; [by apply part_of_refl|lia|done].
      + apply not_true_iff_false in E. rewrite chunk_gt_spec in E. destruct v; simpl in *; lia. }
  pose proof (scalable_part _ _ Hc Hp2) as Hc2.
  destruct (align_precision_cases _ _ _ Hr Hc2) as [[Heq Hal]|(p & y & Hp & Hmod & Hy & Heq)];
    [by apply precision_positive|..].
  - injection Heq as -> ->. by split_and!.
  - symmetry in Heq. apply bind_Some in Heq as (c3' & Hres & [= -> <-]).
    pose proof (precision_positive _ Hl _ Hp) as HP.
    assert (0 ≤ y ≤ field (side_variant p) c2) as Hy0.
    { pose proof (part_of_field_le _ _ (side_variant p) Hp2).
      pose proof (Z.mul_div_le (field (side_variant p) c2) (side_amount p) HP).
      assert (0 ≤ field (side_variant p) c2 / side_amount p) by (apply Z.div_pos; lia). subst y. nia. }
    apply rescale_side in Hres as (Hf & _ & Hp3 & Hv3); [|done|done].
    destruct (chunk_is_zero (chunk_saturating_sub c2 c3)) eqn:Ez.
    { apply (is_zero_field _ (side_variant p)) in Ez. rewrite field_sub, Hf in Ez by done.
      destruct Hmod. rewrite Z.mod_eq by lia. lia. }
    simpl. pose proof (part_of_trans _ _ _ Hp3 Hp2) as Hp13.
    split; [split; [done| |done]|split].
    + intros w. rewrite field_refund; [rewrite Hr2; lia|done|].
      intros w'. specialize (Hroom w'). rewrite Hr2. pose proof (part_of_field_le _ _ w' Hp2). lia.
    + intros p' E. simplify_eq. rewrite Hf. by apply Z.divide_factor_r.
    + pose proof (part_of_field_le _ _ v Hp3). lia.
Qed.

(** How [fit_amount] leaves the amount. *)
Inductive amount_fits (variant : SwapVariant.t) (c' : SwapChunk) (amount : Balance) : Balance → Prop :=
| amount_kept : chunk_is_zero c' = false → field variant c' ≤ amount →
    amount_fits variant c' amount amount
| amount_dropped : variant = SwapVariant.WithDesiredInput → c' = chunk_zero →
    amount_fits variant c' amount 0
| amount_raised amount' : variant = SwapVariant.WithDesiredOutput → chunk_is_zero c' = false →
    amount < amount' → field variant c' = amount' → amount_fits variant c' amount amount'.

Lemma fit_amount_spec variant l c refund amount c' refund' amount' :
  scalable c → limits_aligned l → chunk_aligned l c → room c refund →
  0 < amount ≤ u128_max → 0 < volume c →
  (∀ p step, amount_precision l = Some p → get_precision_step l c variant = Some step →
     amount < step → 0 < field (side_variant p) c) →
  fit_amount variant l c refund amount = Ok (c', refund', amount') →
  taken_of c refund c' refund' ∧ chunk_aligned l c' ∧ amount_fits variant c' amount amount'.
Proof.
  intros Hc Hl Ha Hroom Hamt Hvol Hup Hfit. unfold fit_amount in Hfit.
  apply result_bind_ok in Hfit as (step & Hs%result_ok_or_ok & Hfit).
  pose proof (step_pos _ _ _ _ (precision_positive _ Hl) Hs) as Hstep.
  apply result_bind_ok in Hfit as ([[c1 r1] a1] & Hfit & Hz).
  destruct (chunk_is_zero c1 && negb (a1 =? 0)) eqn:Ez; [done|]. injection Hz as -> -> ->.
  destruct (Z.ltb_spec amount step) as [Hlt|Hge].
  - destruct variant.
    + injection Hfit as <- <- <-. split_and!; [|intros p ?; rewrite field_zero; apply Z.divide_0_r|
        by apply amount_dropped].
      destruct Hc as [? ? ?]. split; [unfold part_of; simpl; lia| |done].
      intros v. pose proof (Hroom v). rewrite field_zero, field_add; [lia|].
      assert (0 ≤ field v c) by (destruct v; unfold field; simpl; lia). lia.
    + apply result_bind_ok in Hfit as (p & Hp%result_ok_or_ok & Hfit).
      apply result_bind_ok in Hfit as (c2 & Hres%result_ok_or_ok & Hfit). injection Hfit as <- <- <-.
      destruct (round_up_spec l c refund p step c2) as (Ht & Hal & Hf); eauto.
      split_and!; [done|done|]. apply amount_raised; [done| |done|done].
      apply andb_false_iff in Ez as [|Ez]; [done|]. apply negb_false_iff in Ez. zbool. lia.
  - set (x := if negb (step =? 0) && negb (amount mod step =? 0)
              then sat_mul u128_max (amount / step) step else amount).
    assert ((if negb (step =? 0) && negb (amount mod step =? 0)
             then side_of (sat_mul u128_max (amount / step) step) variant
             else side_of amount variant) = side_of x variant) as Hx by (unfold x; by destruct (_ && _)).
    cbv zeta in Hfit. rewrite Hx in Hfit. clear Hx.
    assert (0 < x ≤ amount) as Hx.
    { unfold x. destruct (negb (step =? 0)) eqn:E0; simpl; [|lia]. destruct (negb (amount mod step =? 0)); [|lia].
      apply negb_true_iff in E0. zbool. pose proof (Z.mul_div_le amount step ltac:(lia)).
      pose proof (Z.div_le_lower_bound amount step 1 ltac:(lia) ltac:(lia)).
      unfold sat_mul. nia. }
    clearbody x.
    apply result_bind_ok in Hfit as ([c2 r2] & H2 & Hfit).
    apply result_bind_ok in Hfit as (r & H3 & Hfit).
    assert (align_chunk_precision l c2 = Ok r) as H3'
      by (unfold raise in H3; by destruct (align_chunk_precision l c2); simplify_eq).
    apply result_bind_ok in Hfit as ([c3 rem] & Hr%result_ok_or_ok & Hfit).
    pose proof (take_aligned_spec l c refund variant x c2 r2 r c3 rem Hc Hl Ha Hroom
      ltac:(lia) Hvol H2 H3' Hr) as Ht.
    destruct (negb (chunk_is_zero rem)); injection Hfit as <- <- <-;
      destruct Ht as (Ht & Hal & Hle); (split_and!; [done|done|]); apply amount_kept; try lia;
      (apply andb_false_iff in Ez as [|Ez]; [done|apply negb_false_iff in Ez; zbool; lia]).
Qed.

(** The chunk [c'] fits the limits [l] of a source that has given [total]. *)
Definition within_max (l : SwapLimits) (total : SwapChunk) : Prop :=
  ∀ m, max_amount l = Some m → field (side_variant m) total ≤ side_amount m.

(** Taking at most what the maximum leaves. *)
Lemma align_max_spec l total c r1 rem :
  limits_aligned l → scalable c → chunk_aligned l c → room c total → chunk_aligned l total →
  within_max l total → 0 < volume c →
  align_extra_chunk_max l total c = Some (r1, rem) →
  let c1 := if negb (chunk_is_zero rem) then r1 else c in
  let refund := if negb (chunk_is_zero rem) then rem else chunk_zero in
  taken_of c chunk_zero c1 refund ∧ chunk_aligned l c1 ∧
  (∀ m, max_amount l = Some m →
     field (side_variant m) total + field (side_variant m) c1 ≤ side_amount m) ∧
  (chunk_is_zero rem = true ∨
   ∃ m, max_amount l = Some m ∧ (field (side_variant m) c1 = 0 → chunk_is_zero c1 = true)).
Proof.
  intros Hl Hc Ha Hroom Hta Hmax Hvol Hal.
  destruct (align_max_cases _ _ _ _ Hal) as [[[= -> ->] Hm]|(m & c' & Hm & Hlt & Hres & [= -> ->])].
  - simpl. split_and!; [|done| |by left].
    + split; [by apply part_of_refl|intros v; rewrite field_zero; lia|done].
    + intros m Em. specialize (Hm m Em). specialize (Hroom (side_variant m)).
      unfold sat_add in Hm. lia.
  - pose proof (Hmax m Hm) as HmT. pose proof (Hroom (side_variant m)) as Hrm.
    unfold sat_add in Hlt. unfold sat_sub in Hres.
    rewrite Z.max_r in Hres by lia.
    pose proof Hres as Hres0.
    apply rescale_side in Hres as (Hf & Ho & Hp & Hv); [|done|lia].
    destruct (chunk_is_zero (chunk_saturating_sub c c')) eqn:Ez.
    { apply (is_zero_field _ (side_variant m)) in Ez. rewrite field_sub, Hf in Ez by done. lia. }
    simpl. split_and!.
    + split; [done| |done]. intros v. rewrite field_sub, field_zero by done. lia.
    + intros p Ep. destruct (max_aligned _ Hl p m Ep Hm) as [Es Hd].
      rewrite <- Es, Hf. apply Z.divide_sub_r; [done|]. rewrite Es. by apply Hta.
    + intros m' Em. simplify_eq. lia.
    + right. exists m. split; [done|]. intros E0. destruct (chunk_is_zero c') eqn:Ec; [done|].
      destruct (rescale_scaled c (side_of (field (side_variant m) c') (side_variant m)) c')
        as (_ & _ & _ & Hz).
      * done.
      * pose proof (part_of_field_le _ _ (side_variant m) Hp).
        destruct m; simpl in *; lia.
      * by rewrite Hf.
      * rewrite Hz in Ec; [done|]. rewrite E0. by destruct m.
Qed.

Section fit.
Context {LS : Type} `{LawfulOrd LS} `{SlippageTolerance}.
Implicit Types (self : LiquidityAggregator LS) (source : LS).

(** The selector after the refund of a chunk of [source]. *)
Definition refunded (s : Selector LS) source (q : DiscreteQuotation) (refund : SwapChunk)
    (locked : BTreeMap LS unit) : Selector LS :=
  mkSelector (selector_variant s)
    (if chunk_is_zero refund then liquidity_quotations s
     else bt_insert source (mkQuotation (refund :: chunks q) (limits q)) (liquidity_quotations s))
    locked.

Lemma fit_chunk_spec self c source amount q c' amount' self' :
  let s := agg_selector self in
  let total := get_total (agg_aggregation self) source in
  bt_get source (liquidity_quotations s) = Some q →
  limits_aligned (limits q) → scalable c → chunk_aligned (limits q) c → 0 < volume c →
  0 < amount ≤ u128_max → room c total → chunk_aligned (limits q) total →
  within_max (limits q) total →
  (∀ p step, amount_precision (limits q) = Some p →
     get_precision_step (limits q) c (agg_variant self) = Some step →
     amount < step → 0 < field (side_variant p) c) →
  fit_chunk self c source amount = Ok (c', amount', self') →
  ∃ refund locked,
    taken_of c chunk_zero c' refund ∧ chunk_aligned (limits q) c' ∧
    (∀ m, max_amount (limits q) = Some m →
       field (side_variant m) total + field (side_variant m) c' ≤ side_amount m) ∧
    self' = set_selector self (refunded s source q refund locked) ∧
    (locked = locked_sources s ∧ amount_fits (agg_variant self) c' amount amount' ∨
     locked = bt_insert source tt (locked_sources s) ∧
     (amount_fits (agg_variant self) c' amount amount' ∨
      chunk_is_zero c' = true ∧ amount' = amount)).
Proof.
  intros s total Hq Hl Hc Ha Hvol Hamt Hroom Hta Hmax Hup Hfit. unfold fit_chunk in Hfit.
  apply result_bind_ok in Hfit as (l & Hlim & Hfit). unfold get_limits in Hlim.
  fold s in Hlim. rewrite Hq in Hlim. injection Hlim as <-.
  apply result_bind_ok in Hfit as ([r1 rem] & Hal%result_ok_or_ok & Hfit).
  destruct (align_max_spec _ _ _ _ _ Hl Hc Ha Hroom Hta Hmax Hvol Hal) as (Ht1 & Ha1 & Hm1 & Hz1).
  destruct Ht1 as [Hp1 Hr1 Hv1].
  set (locked := if negb (chunk_is_zero rem) then bt_insert source tt (locked_sources s)
                 else locked_sources s).
  assert ((if negb (chunk_is_zero rem)
     then (r1, rem, set_selector self (lock_source (agg_selector self) source))
     else (c, chunk_zero, self)) =
     (if negb (chunk_is_zero rem) then r1 else c, if negb (chunk_is_zero rem) then rem else chunk_zero,
      set_selector self (mkSelector (selector_variant s) (liquidity_quotations s) locked))) as E1.
  { unfold locked, s. destruct (negb _); [done|]. by destruct self as [? []]. }
  rewrite E1 in Hfit. clear E1.
  set (c1 := if negb (chunk_is_zero rem) then r1 else c) in *.
  set (refund1 := if negb (chunk_is_zero rem) then rem else chunk_zero) in *.
  apply result_bind_ok in Hfit as ([[c2 refund2] a2] & Hfa & Hfit).
  assert (taken_of c chunk_zero c2 refund2 ∧ chunk_aligned (limits q) c2 ∧ part_of c2 c1 ∧
    (amount_fits (agg_variant self) c2 amount a2 ∨
     chunk_is_zero rem = false ∧ chunk_is_zero c2 = true ∧ a2 = amount)) as (Ht2 & Ha2 & Hp2 & Hf2).
  { destruct (chunk_is_zero c1) eqn:Ec1.
    - injection Hfa as <- <- <-.
      split; [split; [done|done|by rewrite Ec1]|].
      split; [done|split; [by apply part_of_refl; eapply scalable_part|]].
      right. split_and!; try done. destruct (chunk_is_zero rem) eqn:Erem; [|done].
      subst c1. simpl in Ec1. unfold volume in Hvol. unfold chunk_is_zero in Ec1. zbool. lia.
    - destruct (fit_amount_spec (agg_variant self) (limits q) c1 refund1 amount c2 refund2 a2)
        as ([Hp2 Hr2 Hv2] & Hal2 & Hfits); [by eapply scalable_part|done|done| |done|by apply Hv1| |exact Hfa|].
      + intros v. pose proof (part_of_field_le _ _ v Hp1). rewrite Hr1, field_zero.
        pose proof (Hroom v). assert (0 ≤ field v total) by apply Hroom. lia.
      + intros p step Ep Es Hlt. destruct Hz1 as [Hz1|(m & Em & Hz1)].
        * subst c1. rewrite Hz1 in *. simpl in *. by eapply Hup.
        * destruct (max_aligned _ Hl _ _ Ep Em) as [Ev _]. rewrite <- Ev.
          pose proof (part_of_field_le _ _ (side_variant m) Hp1).
          destruct (decide (field (side_variant m) c1 = 0)) as [E0|]; [|lia].
          by specialize (Hz1 E0).
      + split; [|split; [done|split; [done|by left]]]. split; [by eapply part_of_trans| |done].
        intros v. rewrite Hr2, Hr1. lia. }
  assert (c' = c2 ∧ amount' = a2 ∧ self' = set_selector self (refunded s source q refund2 locked))
    as (-> & -> & ->).
  { unfold refunded. destruct (chunk_is_zero refund2); simpl in Hfit; [by simplify_eq|].
    apply result_bind_ok in Hfit as (s2 & Hs2 & Hfit). unfold selector_push_chunk in Hs2.
    simpl in Hs2. rewrite Hq in Hs2. injection Hs2 as <-. by simplify_eq. }
  exists refund2, locked. split_and!; [done|done| |done|].
  - intros m Em. pose proof (part_of_field_le _ _ (side_variant m) Hp2). specialize (Hm1 m Em). lia.
  - unfold locked. destruct Hf2 as [Hf2|(Er & Hz2 & ->)].
    + destruct (negb (chunk_is_zero rem)); [right|left]; auto.
    + rewrite Er. right. auto.
Qed.
End fit.
