(* ===== verification/Selection.v ===== *)
(** * The selected chunk

    The loop of [select_chunk] over the sources and what it selects. *)

From S2P Require Import Prelude BTreeMap FixedPoint Units OrderTypes SwapTypes Chunks Aggregator.

Section select.
Context {LS : Type} `{LawfulOrd LS}.
Implicit Types (s : Selector LS) (source : LS) (qs : list (LS * DiscreteQuotation)).

(** The front chunk of an unlocked source of [qs], its price and its precision step. *)
Definition offered s qs source (front : SwapChunk) (price step : Z) : Prop :=
  ∃ q rest, (source, q) ∈ qs ∧ is_locked s source = false ∧ chunks q = front :: rest ∧
    chunk_price front = Some price ∧
    get_precision_step (limits q) front (selector_variant s) = Some step.

(** What the loop of [select_chunk] knows after the sources [qs]. *)
Record selection s (amount : Balance) qs (candidates : list LS) (delayed : option LS) (max : Z)
    : Prop := {
  selection_max : 0 ≤ max;
  selection_some : 0 < max → candidates ≠ [];
  selection_candidates source : source ∈ candidates →
    ∃ front step, offered s qs source front max step ∧ step ≤ amount;
  selection_best source front price step : offered s qs source front price step → step ≤ amount →
    price ≤ max ∧ (price = max → source ∈ candidates);
  selection_delayed source : delayed = Some source →
    ∃ front price step, offered s qs source front price step ∧ amount < step ∧ 0 < price
}.

Lemma offered_app s qs p source front price step :
  offered s (qs ++ [p]) source front price step ↔
  offered s qs source front price step ∨ offered s [p] source front price step.
Proof.
  unfold offered. split.
  - intros (q & rest & Hin & ?). apply elem_of_app in Hin as [|]; naive_solver.
  - intros [(q & rest & Hin & ?)|(q & rest & Hin & ?)]; exists q, rest; rewrite elem_of_app; auto.
Qed.

Lemma offered_single s source q source' front price step :
  offered s [(source, q)] source' front price step ↔
  source' = source ∧ is_locked s source = false ∧ (∃ rest, chunks q = front :: rest) ∧
  chunk_price front = Some price ∧
  get_precision_step (limits q) front (selector_variant s) = Some step.
Proof.
  unfold offered. setoid_rewrite list_elem_of_singleton. naive_solver.
Qed.

(** A source without an offer leaves the selection. *)
Lemma selection_skip s amount qs p candidates delayed max :
  (∀ source front price step, ¬ offered s [p] source front price step) →
  selection s amount qs candidates delayed max →
  selection s amount (qs ++ [p]) candidates delayed max.
Proof.
  intros Hno [Hm Hne Hc Hb Hd]. split; [done|done|..].
  - intros source Hin. destruct (Hc source Hin) as (f & st & Ho & ?). exists f, st.
    rewrite offered_app. auto.
  - intros source f pr st [Ho|Ho]%offered_app; [eauto|by apply Hno in Ho].
  - intros source E. destruct (Hd source E) as (f & pr & st & Ho & ?). exists f, pr, st.
    rewrite offered_app. auto.
Qed.

(** One source with an offer. *)
Lemma selection_step s amount qs source q front rest price step candidates delayed max :
  is_locked s source = false → chunks q = front :: rest → chunk_price front = Some price →
  get_precision_step (limits q) front (selector_variant s) = Some step →
  selection s amount qs candidates delayed max →
  let candidates1 :=
    if (price =? max) && (step <=? amount) then candidates ++ [source] else candidates in
  if max <? price then
    if amount <? step then selection s amount (qs ++ [(source, q)]) candidates1 (Some source) max
    else selection s amount (qs ++ [(source, q)]) [source] delayed price
  else selection s amount (qs ++ [(source, q)]) candidates1 delayed max.
Proof.
  intros Hlk Hch Hpr Hst [Hm Hne Hc Hb Hd].
  assert (offered s [(source, q)] source front price step) as Hnew.
  { apply offered_single. split_and!; eauto. }
  assert (∀ src f p st, offered s [(source, q)] src f p st →
    src = source ∧ f = front ∧ p = price ∧ st = step) as Hinv.
  { intros src f p st (-> & _ & (r & Hr) & Hp & Hs)%offered_single. rewrite Hch in Hr. by simplify_eq. }
  assert (∀ src, delayed = Some src → ∃ f p st, offered s (qs ++ [(source, q)]) src f p st ∧
    amount < st ∧ 0 < p) as Hd'.
  { intros src E. destruct (Hd src E) as (f & p & st & Ho & ?). exists f, p, st.
    rewrite offered_app. auto. }
  assert (∀ src, src ∈ candidates → ∃ f st, offered s (qs ++ [(source, q)]) src f max st ∧ st ≤ amount)
    as Hc'.
  { intros src E. destruct (Hc src E) as (f & st & Ho & ?). exists f, st. rewrite offered_app. auto. }
  destruct (Z.ltb_spec max price) as [Hlt|Hge].
  - rewrite (proj2 (Z.eqb_neq price max)) by lia. simpl.
    destruct (Z.ltb_spec amount step).
    + split; [done|done|done| |].
      * intros src f p st [Ho|Ho]%offered_app Hle; [eauto|]. apply Hinv in Ho as (-> & -> & -> & ->). lia.
      * intros src [= <-]. exists front, price, step. rewrite offered_app. split; [auto|lia].
    + split; [lia|done| | |done].
      * intros src ->%list_elem_of_singleton. exists front, step. rewrite offered_app. auto.
      * intros src f p st [Ho|Ho]%offered_app Hle.
        -- destruct (Hb _ _ _ _ Ho Hle). split; [lia|]. lia.
        -- apply Hinv in Ho as (-> & -> & -> & ->). split; [done|]. intros _. by apply list_elem_of_singleton.
  - split; [done| | | |done].
    + intros ?%Hne E. case_match; [by apply app_eq_nil in E as [? _]|done].
    + intros src Hin. case_match eqn:E; [|eauto]. apply elem_of_app in Hin as [|Hin]; [eauto|].
      apply list_elem_of_singleton in Hin as ->. zbool. subst price. exists front, step.
      rewrite offered_app. auto.
    + intros src f p st [Ho|Ho]%offered_app Hle.
      * destruct (Hb _ _ _ _ Ho Hle) as [? Hin]. split; [done|]. intros E. specialize (Hin E).
        case_match; [apply elem_of_app; by left|done].
      * apply Hinv in Ho as (-> & -> & -> & ->). split; [done|]. intros ->.
        rewrite (proj2 (Z.leb_le _ _)), Z.eqb_refl by done. apply elem_of_app. right.
        by apply list_elem_of_singleton.
Qed.

Lemma select_candidates_spec s amount qs0 qs candidates delayed max candidates' delayed' :
  selection s amount qs0 candidates delayed max →
  select_candidates s amount qs candidates delayed max = Ok (candidates', delayed') →
  ∃ max', selection s amount (qs0 ++ qs) candidates' delayed' max'.
Proof.
  revert qs0 candidates delayed max. induction qs as [|[source q] qs IH];
    intros qs0 candidates delayed max Hsel Hr; cbn [select_candidates] in Hr.
  { injection Hr as <- <-. rewrite app_nil_r. eauto. }
  rewrite (cons_middle (source, q)), (assoc_L (++)).
  destruct (is_locked s source) eqn:Hlk.
  { eapply IH; [|exact Hr]. apply selection_skip; [|done].
    intros ? ? ? ? (-> & ? & _)%offered_single. congruence. }
  destruct (chunks q) as [|front rest] eqn:Hch.
  { eapply IH; [|exact Hr]. apply selection_skip; [|done].
    intros ? ? ? ? (-> & _ & (? & ?) & _)%offered_single. congruence. }
  apply result_bind_ok in Hr as (price & Hp%result_ok_or_ok & Hr).
  apply result_bind_ok in Hr as (step & Hs%result_ok_or_ok & Hr).
  pose proof (selection_step s amount qs0 source q front rest price step candidates delayed max
    Hlk Hch Hp Hs Hsel) as Hsel'.
  cbv zeta in Hr, Hsel'. destruct (max <? price); [destruct (amount <? step)|]; by eapply IH.
Qed.

(** The chosen chunk is the front of an unlocked source.  When some source can be
    used without rounding the amount, the chosen one can, and no such source
    offers a better price. *)
Lemma select_chunk_spec s amount (a : Aggregation LS) source chunk s' :
  bt_wf (liquidity_quotations s) →
  (∀ source1 front price step, offered s (liquidity_quotations s) source1 front price step → 0 ≤ price) →
  select_chunk s amount a = Ok (source, chunk, s') →
  ∃ q rest price step,
    bt_get source (liquidity_quotations s) = Some q ∧ chunks q = chunk :: rest ∧
    is_locked s source = false ∧ chunk_price chunk = Some price ∧
    get_precision_step (limits q) chunk (selector_variant s) = Some step ∧
    (step ≤ amount ∨ 0 < price) ∧
    s' = set_quotations s
      (bt_insert source (mkQuotation rest (limits q)) (liquidity_quotations s)) ∧
    (∀ source1 front1 price1 step1, offered s (liquidity_quotations s) source1 front1 price1 step1 →
       step1 ≤ amount →
       step ≤ amount ∧ price1 ≤ price ∧
       (price1 = price → is_aggregated a source1 = true → is_aggregated a source = true)).
Proof.
  intros Hwf Hnn Hsel. unfold select_chunk in Hsel.
  apply result_bind_ok in Hsel as ([candidates delayed] & Hc & Hsel).
  apply result_bind_ok in Hsel as (src & Hsrc & Hsel).
  apply result_bind_ok in Hsel as (q & Hq%result_ok_or_ok & Hsel).
  destruct (chunks q) as [|c rest] eqn:Hch; [done|]. injection Hsel as -> -> <-.
  apply (select_candidates_spec s amount []) in Hc as [max [Hm Hne Hcand Hbest Hdel]].
  2:{ split; [done|done|by intros ? ?%elem_of_nil|intros ? ? ? ? (? & ? & []%elem_of_nil & _)|done]. }
  simpl in *.
  assert (∀ front price step, offered s (liquidity_quotations s) source front price step →
    front = chunk ∧ chunk_price chunk = Some price ∧ is_locked s source = false ∧
    get_precision_step (limits q) chunk (selector_variant s) = Some step) as Hoff.
  { intros front price step (q' & rest' & Hin & Hlk & Hch' & Hp & Hs).
    apply bt_elem_get in Hin; [|done]. simplify_eq. by rewrite Hch in Hch'; simplify_eq. }
  destruct candidates as [|first candidates].
  - apply result_ok_or_ok in Hsrc. destruct (Hdel _ Hsrc) as (f & p & st & Ho & Hlt & Hp).
    destruct (Hoff _ _ _ Ho) as (-> & Hpr & Hlk & Hst).
    exists q, rest, p, st. split_and!; auto.
    intros src1 f1 p1 st1 Ho1 Hle. destruct (Hbest _ _ _ _ Ho1 Hle) as [Hp1 Hin].
    pose proof (Hnn _ _ _ _ Ho1). destruct (decide (max = 0)) as [->|]; [|destruct Hne; [lia|done]].
    by apply elem_of_nil in Hin; [|lia].
  - set (chosen := default first (head (List.filter (is_aggregated a) (first :: candidates)))) in Hsrc.
    injection Hsrc as <-.
    assert (chosen ∈ first :: candidates ∧
      (∀ src1, src1 ∈ first :: candidates → is_aggregated a src1 = true →
        is_aggregated a chosen = true)) as [Hin Hagg].
    { unfold chosen. destruct (List.filter _ _) as [|x l] eqn:E; simpl.
      - split; [left|]. intros src1 Hin Ha. apply list_elem_of_In in Hin.
        assert (In src1 []) as []. rewrite <- E. by apply filter_In.
      - assert (In x (x :: l)) as Hx by by left. rewrite <- E in Hx. apply filter_In in Hx as [Hx Ha].
        apply list_elem_of_In in Hx. auto. }
    destruct (Hcand _ Hin) as (f & st & Ho & Hle). destruct (Hoff _ _ _ Ho) as (-> & Hpr & Hlk & Hst).
    exists q, rest, max, st. split_and!; auto.
    intros src1 f1 p1 st1 Ho1 Hle1. destruct (Hbest _ _ _ _ Ho1 Hle1) as [Hp1 Hin1]. eauto.
Qed.
End select.
