(* ===== verification/AggregatorInv.v ===== *)
(** * The invariant of the aggregator

    What a source has given and what is left in its queue add up to what it
    quoted, on both sides; the given part respects the maximum and the precision.
    Every iteration of the aggregation keeps this and makes progress. *)

From S2P Require Import Prelude BTreeMap FixedPoint Units OrderTypes SwapTypes Chunks Aggregator.
From S2P Require Import ChunkFitting Selection.

(** ** The invariant of the aggregator *)

(** What a source offers on the side [v]. *)
Definition supply (v : SwapVariant.t) (q : DiscreteQuotation) : Z := sum_by (field v) (chunks q).

(** A quotation the arithmetic can split without overflow, whose chunks are
    multiples of the precision. *)
Record quotable (q : DiscreteQuotation) : Prop := {
  quotable_limits : limits_aligned (limits q);
  quotable_scalable : Forall scalable (chunks q);
  quotable_aligned : Forall (chunk_aligned (limits q)) (chunks q);
  quotable_supply v : supply v q ≤ u128_max
}.

(** A source that quoted [q0], has [q] left and has given [total]. *)
Record source_state (q0 q : DiscreteQuotation) (total : SwapChunk) : Prop := {
  state_limits : limits q = limits q0;
  state_scalable : Forall scalable (chunks q);
  state_aligned : Forall (chunk_aligned (limits q0)) (chunks q);
  state_supply v : field v total + supply v q = supply v q0;
  state_total v : 0 ≤ field v total;
  state_total_aligned : chunk_aligned (limits q0) total;
  state_max : within_max (limits q0) total
}.

(** A cluster of chunks taken from a source with the limits [l]. *)
Record cluster_state (l : SwapLimits) (cl : Cluster) : Prop := {
  cluster_scalable : Forall scalable (cluster_chunks cl);
  cluster_aligned : Forall (chunk_aligned l) (cluster_chunks cl);
  cluster_sum v : field v (cluster_total cl) = sum_by (field v) (cluster_chunks cl)
}.

Lemma sum_fields_nonneg v cs : Forall scalable cs → 0 ≤ sum_by (field v) cs.
Proof.
  intros Hcs. apply sum_by_nonneg. intros c Hc. rewrite Forall_forall in Hcs.
  destruct (Hcs c Hc) as [? ? _]. unfold field. destruct v; simpl; lia.
Qed.

Section invariant.
Context {LS : Type} `{LawfulOrd LS} `{SlippageTolerance}.
Implicit Types (self : LiquidityAggregator LS) (source : LS) (Q : BTreeMap LS DiscreteQuotation).

Definition quotations self : BTreeMap LS DiscreteQuotation := liquidity_quotations (agg_selector self).
Definition locked self : BTreeMap LS unit := locked_sources (agg_selector self).

Record agg_inv (Q0 : BTreeMap LS DiscreteQuotation) self : Prop := {
  inv_quotations_wf : bt_wf (quotations self);
  inv_aggregation_wf : bt_wf (agg_aggregation self);
  inv_locked_wf : bt_wf (locked self);
  inv_variant : selector_variant (agg_selector self) = agg_variant self;
  inv_known source : is_Some (bt_get source (quotations self)) ↔ is_Some (bt_get source Q0);
  inv_source source q0 q : bt_get source Q0 = Some q0 → bt_get source (quotations self) = Some q →
    source_state q0 q (get_total (agg_aggregation self) source);
  inv_cluster source cl : bt_get source (agg_aggregation self) = Some cl →
    ∃ q0, bt_get source Q0 = Some q0 ∧ cluster_state (limits q0) cl;
  inv_locked source : is_Some (bt_get source (locked self)) → is_Some (bt_get source (quotations self))
}.

(** The amount selected on the side [v]. *)
Definition selected v self : Z := bt_sum (λ cl, field v (cluster_total cl)) (agg_aggregation self).

(** A bound on the remaining iterations: the volume left in the queues and the
    number of unlocked sources. *)
Definition left_volume self : Z := bt_sum (λ q, sum_by volume (chunks q)) (quotations self).
Definition pending self : Z :=
  left_volume self + (Z.of_nat (length (quotations self)) - Z.of_nat (length (locked self))).

(** The change of one source. *)
Definition replaced self source (q : DiscreteQuotation) (cl : option Cluster)
    (lk : BTreeMap LS unit) : LiquidityAggregator LS :=
  mkAggregator (agg_variant self)
    (mkSelector (selector_variant (agg_selector self)) (bt_insert source q (quotations self)) lk)
    (match cl with Some cl => bt_insert source cl (agg_aggregation self) | None => agg_aggregation self end)
    (origin_amount self).

Definition new_total self source (cl : option Cluster) : SwapChunk :=
  match cl with Some cl => cluster_total cl | None => get_total (agg_aggregation self) source end.

Lemma get_total_insert (a : Aggregation LS) source cl source' :
  get_total (bt_insert source cl a) source' =
  match cmp source' source with Eq => cluster_total cl | _ => get_total a source' end.
Proof. unfold get_total. rewrite bt_get_insert. by destruct (cmp source' source). Qed.

Lemma get_total_replaced self source q cl lk source' :
  get_total (agg_aggregation (replaced self source q cl lk)) source' =
  match cmp source' source with
  | Eq => new_total self source cl
  | _ => get_total (agg_aggregation self) source'
  end.
Proof.
  unfold replaced. destruct cl as [cl|]; simpl; [apply get_total_insert|].
  destruct (cmp source' source) eqn:E; [|done|done]. by apply cmp_eq in E as ->.
Qed.

Lemma replaced_inv Q0 self source q0 q q' cl lk :
  agg_inv Q0 self → bt_get source Q0 = Some q0 → bt_get source (quotations self) = Some q →
  lk = locked self ∨ lk = bt_insert source tt (locked self) →
  source_state q0 q' (new_total self source cl) →
  (∀ cl', cl = Some cl' → cluster_state (limits q0) cl') →
  agg_inv Q0 (replaced self source q' cl lk).
Proof.
  intros [Hw1 Hw2 Hw3 Hv Hk Hs Hc Hl] Hq0 Hq Hlk Hst Hcl. split.
  - by apply bt_wf_insert.
  - simpl. destruct cl; [by apply bt_wf_insert|done].
  - destruct Hlk as [->| ->]; [done|by apply bt_wf_insert].
  - done.
  - intros source'. unfold quotations. simpl. rewrite bt_get_insert.
    destruct (cmp source' source) eqn:E; [|done|done]. apply cmp_eq in E as ->.
    rewrite Hq0. split; by eexists.
  - intros source' q1 q2 E1. unfold quotations. simpl (liquidity_quotations _).
    rewrite bt_get_insert, get_total_replaced.
    destruct (cmp source' source) eqn:E; [|by apply Hs..].
    intros [= <-]. apply cmp_eq in E as ->. by rewrite Hq0 in E1; injection E1 as <-.
  - intros source' cl'. simpl. destruct cl as [cl|]; [|apply Hc]. rewrite bt_get_insert.
    destruct (cmp source' source) eqn:E; [|apply Hc..]. intros [= <-]. apply cmp_eq in E as ->. eauto.
  - intros source'. unfold quotations, locked. simpl. rewrite bt_get_insert.
    destruct (cmp source' source) eqn:E; [by eexists|..]; intros Hs'; apply Hl;
      (destruct Hlk as [->| ->]; [done|]); by rewrite bt_get_insert, E in Hs'.
Qed.

Lemma selected_replaced v self source q cl lk :
  selected v (replaced self source q cl lk) =
  selected v self + (field v (new_total self source cl) - field v (get_total (agg_aggregation self) source)).
Proof.
  unfold selected, replaced, new_total. simpl. destruct cl as [cl|]; [|lia].
  rewrite bt_sum_insert. unfold get_total. destruct (bt_get source _); rewrite ?field_zero; lia.
Qed.

Lemma left_volume_replaced self source q q' cl lk :
  bt_get source (quotations self) = Some q →
  left_volume (replaced self source q' cl lk) =
  left_volume self + (sum_by volume (chunks q') - sum_by volume (chunks q)).
Proof. intros Hq. unfold left_volume, replaced, quotations in *. simpl. rewrite bt_sum_insert, Hq. lia. Qed.

Lemma length_replaced self source q q' cl lk :
  bt_get source (quotations self) = Some q →
  length (quotations (replaced self source q' cl lk)) = length (quotations self).
Proof. intros Hq. unfold replaced, quotations in *. simpl. by rewrite bt_length_insert, Hq. Qed.

(** The locked sources are among the quoted ones. *)
Lemma locked_le Q0 self : agg_inv Q0 self → (length (locked self) ≤ length (quotations self))%nat.
Proof.
  intros Hinv. rewrite <- !(length_fmap fst). apply submseteq_length, NoDup_submseteq.
  - apply bt_wf_NoDup_keys, Hinv.
  - intros source (p & -> & Hp)%list_elem_of_fmap. destruct p as [source u].
    apply bt_elem_get in Hp; [|apply Hinv]. 
    destruct (inv_locked _ _ Hinv source ltac:(by eexists)) as [q Hq].
    apply bt_get_elem in Hq as (source' & E & Hin). apply cmp_eq in E as <-.
    apply list_elem_of_fmap. by exists (source, q).
Qed.
End invariant.

Lemma chunk_price_pos c price : scalable c → chunk_price c = Some price →
  0 < chunk_input c ∧ 0 ≤ price ∧ (0 < price → 0 < chunk_output c).
Proof.
  intros [Hi Ho _]. unfold chunk_price, FixedWrapper.div, FixedWrapper.lift2, FixedWrapper.zip.
  rewrite !FixedWrapper.from_int_ok by done. simpl.
  destruct (decide (chunk_input c = 0)) as [->|]; [done|].
  rewrite Fixed.rdiv_floor_nonneg by lia.
  assert (0 < Fixed.COEF) by done.
  destruct (Fixed.try_i128 _) as [p|] eqn:E; [|done]. apply Fixed.try_i128_ok in E as [-> _].
  intros [= <-]. split_and!; [lia|apply Z.div_pos; lia|].
  intros Hp. destruct (decide (chunk_output c = 0)) as [E0|]; [|lia].
  rewrite E0, Z.mul_0_l, Zdiv_0_l in Hp. lia.
Qed.

Lemma cluster_push_spec l cl c :
  cluster_state l cl → scalable c → chunk_aligned l c →
  (∀ v, 0 ≤ field v (cluster_total cl) + field v c ≤ u128_max) →
  cluster_state l (cluster_push_back cl c).
Proof.
  intros [Hs Ha Hsum] Hc Hal Hr. unfold cluster_push_back. split; simpl.
  - apply Forall_app. split; [done|by apply Forall_singleton].
  - apply Forall_app. split; [done|by apply Forall_singleton].
  - intros v. rewrite sum_by_app, field_add by apply Hr. simpl. rewrite Hsum. lia.
Qed.

Lemma cluster_new_state l : cluster_state l cluster_new.
Proof. split; [constructor|constructor|]. by intros []. Qed.

Lemma is_zero_refund refund : chunk_is_zero refund = true → volume refund = 0.
Proof. intros Hz. rewrite (volume_field SwapVariant.WithDesiredInput), !is_zero_field by done. done. Qed.

(** The queue after a part of its front was taken. *)
Definition requeued (refund : SwapChunk) (rest : list SwapChunk) : list SwapChunk :=
  if chunk_is_zero refund then rest else refund :: rest.

Lemma requeued_sum (f : SwapChunk → Z) refund rest :
  (chunk_is_zero refund = true → f refund = 0) →
  sum_by f (requeued refund rest) = f refund + sum_by f rest.
Proof. unfold requeued. intros Hf. case_match; [rewrite Hf by done|]; done. Qed.

Lemma requeued_Forall (P : SwapChunk → Prop) refund rest :
  P refund → Forall P rest → Forall P (requeued refund rest).
Proof. unfold requeued. intros. case_match; [done|by constructor]. Qed.

(** The state of a source of which [c'] was taken. *)
Lemma source_taken q0 q total c rest c' refund total' :
  quotable q0 → source_state q0 q total → chunks q = c :: rest →
  taken_of c chunk_zero c' refund → chunk_aligned (limits q0) c' →
  (∀ m, max_amount (limits q0) = Some m →
     field (side_variant m) total + field (side_variant m) c' ≤ side_amount m) →
  (∀ v, field v total' = field v total + field v c') →
  source_state q0 (mkQuotation (requeued refund rest) (limits q)) total' ∧
  sum_by volume (requeued refund rest) = sum_by volume (chunks q) - volume c'.
Proof.
  intros Hq0 [Hl Hsc Hal Hsup Htot Hta Hmax] Hch [Hp Hr _] Ha Hm Ht.
  rewrite Hch in Hsc, Hal. apply Forall_cons in Hsc as [Hc Hsc]. apply Forall_cons in Hal as [Hca Hal].
  assert (∀ v, field v refund = field v c - field v c') as Hrf.
  { intros v. rewrite Hr, field_zero. lia. }
  assert (part_of refund c) as Hpr.
  { apply part_of_field. intros v. rewrite Hrf. pose proof (part_of_field_le _ _ v Hp). lia. }
  split.
  - split; simpl.
    + done.
    + apply requeued_Forall; [by eapply scalable_part|done].
    + apply requeued_Forall; [|done]. intros p Ep. rewrite Hrf. apply Z.divide_sub_r; auto.
    + intros v. specialize (Hsup v). unfold supply in *. rewrite Hch in Hsup. simpl in *.
      rewrite requeued_sum by (intros; by apply is_zero_field). rewrite Ht, Hrf. lia.
    + intros v. rewrite Ht. pose proof (part_of_field_le _ _ v Hp). specialize (Htot v). lia.
    + intros p Ep. rewrite Ht. apply Z.divide_add_r; auto.
    + intros m Em. rewrite Ht. auto.
  - rewrite requeued_sum by apply is_zero_refund. rewrite Hch. simpl.
    rewrite !(volume_field SwapVariant.WithDesiredInput), !Hrf. lia.
Qed.

Section step.
Context {LS : Type} `{LawfulOrd LS} `{SlippageTolerance}.
Implicit Types (self : LiquidityAggregator LS) (source : LS).
Context (Q0 : BTreeMap LS DiscreteQuotation)
  (Hquotable : ∀ source q0, bt_get source Q0 = Some q0 → quotable q0).

Lemma inv_offered self source front price step :
  agg_inv Q0 self → offered (agg_selector self) (quotations self) source front price step →
  ∃ q0 q rest, bt_get source Q0 = Some q0 ∧ bt_get source (quotations self) = Some q ∧
    chunks q = front :: rest ∧ source_state q0 q (get_total (agg_aggregation self) source) ∧
    scalable front.
Proof.
  intros Hinv (q & rest & Hin & _ & Hch & _). apply bt_elem_get in Hin; [|apply Hinv].
  destruct (proj1 (inv_known _ _ Hinv source) ltac:(by eexists)) as [q0 Hq0].
  pose proof (inv_source _ _ Hinv source q0 q Hq0 Hin) as Hst.
  exists q0, q, rest. split_and!; try done.
  pose proof (state_scalable _ _ _ Hst) as Hsc. rewrite Hch in Hsc. by apply Forall_cons in Hsc as [? _].
Qed.

(** The cluster of a source after the chunk [c'] is pushed. *)
Definition pushed_cluster self source (c' : SwapChunk) : option Cluster :=
  if chunk_is_zero c' then None
  else Some (cluster_push_back (default cluster_new (bt_get source (agg_aggregation self))) c').

Lemma pushed_cluster_spec self source c' q0 :
  agg_inv Q0 self → bt_get source Q0 = Some q0 → scalable c' → chunk_aligned (limits q0) c' →
  room c' (get_total (agg_aggregation self) source) →
  (∀ v, field v (new_total self source (pushed_cluster self source c')) =
        field v (get_total (agg_aggregation self) source) + field v c') ∧
  (∀ cl, pushed_cluster self source c' = Some cl → cluster_state (limits q0) cl).
Proof.
  intros Hinv Hq0 Hc Ha Hroom. unfold pushed_cluster, new_total.
  destruct (chunk_is_zero c') eqn:Ez.
  { split; [|done]. intros v. rewrite (is_zero_field c') by done. lia. }
  assert (cluster_total (default cluster_new (bt_get source (agg_aggregation self))) =
    get_total (agg_aggregation self) source) as Et.
  { unfold get_total. by destruct (bt_get source (agg_aggregation self)). }
  assert (∀ v, 0 ≤ field v (get_total (agg_aggregation self) source) + field v c' ≤ u128_max) as Hr.
  { intros v. specialize (Hroom v). destruct Hc as [? ? _].
    assert (0 ≤ field v c') by (destruct v; unfold field; simpl; lia). lia. }
  split.
  - intros v. unfold cluster_push_back. simpl. rewrite Et, field_add by apply Hr. done.
  - intros cl [= <-]. apply cluster_push_spec; [|done|done|].
    + destruct (bt_get source (agg_aggregation self)) as [cl|] eqn:E; simpl; [|apply cluster_new_state].
      destruct (inv_cluster _ _ Hinv _ _ E) as (q & Eq & ?). by simplify_eq.
    + intros v. rewrite Et. apply Hr.
Qed.
End step.

Section step.
Context {LS : Type} `{LawfulOrd LS} `{SlippageTolerance}.
Implicit Types (self : LiquidityAggregator LS) (source : LS).
Context (Q0 : BTreeMap LS DiscreteQuotation)
  (Hquotable : ∀ source q0, bt_get source Q0 = Some q0 → quotable q0).

(** One iteration of [aggregate_amount] changes one unlocked source: it keeps the
    invariant, adds the chunk to the selected amount and makes progress. *)
Record iteration self source (c' : SwapChunk) (amount amount' : Balance) self2 : Prop := {
  iteration_unlocked : is_locked (agg_selector self) source = false;
  iteration_inv : agg_inv Q0 self2;
  iteration_replaced : ∃ q lk, self2 = replaced self source q (pushed_cluster self source c') lk ∧
    (lk = locked self ∨ lk = bt_insert source tt (locked self));
  iteration_selected v : selected v self2 = selected v self + field v c';
  iteration_part v : 0 ≤ field v c';
  iteration_progress : amount' = 0 ∧ c' = chunk_zero ∨ pending self2 < pending self;
  iteration_amount : amount_fits (agg_variant self) c' amount amount' ∨
    chunk_is_zero c' = true ∧ amount' = amount
}.

Lemma aggregate_step self amount source chunk s c' amount' self1 :
  agg_inv Q0 self → 0 < amount ≤ u128_max →
  select_chunk (agg_selector self) amount (agg_aggregation self) = Ok (source, chunk, s) →
  fit_chunk (set_selector self s) chunk source amount = Ok (c', amount', self1) →
  agg_variant self1 = agg_variant self ∧ origin_amount self1 = origin_amount self ∧
  iteration self source c' amount amount'
    (if chunk_is_zero c' then self1
     else set_aggregation self1 (push_aggregated (agg_aggregation self1) source c')).
Proof.
  intros Hinv Hamt Hsel Hfit.
  apply select_chunk_spec in Hsel
    as (q & rest & price & step & Hq & Hch & Hlk & Hpr & Hst & Hok & -> & _).
  2:{ apply Hinv. }
  2:{ intros source1 front price step Ho. pose proof Ho as (? & ? & _ & _ & _ & Hp & _).
      destruct (inv_offered Q0 _ _ _ _ _ Hinv Ho) as (? & ? & ? & _ & _ & _ & _ & Hsc).
      by eapply chunk_price_pos. }
  fold (quotations self) in *.
  destruct (proj1 (inv_known _ _ Hinv source) ltac:(by eexists)) as [q0 Hq0].
  pose proof (inv_source _ _ Hinv _ _ _ Hq0 Hq) as Hss. pose proof Hss as [Hl Hsc Hal Hsup Htot Hta Hmax].
  rewrite Hch in Hsc, Hal. apply Forall_cons in Hsc as [Hc Hsc]. apply Forall_cons in Hal as [Hca Hal].
  destruct (chunk_price_pos _ _ Hc Hpr) as (Hin & _ & Hout).
  assert (room chunk (get_total (agg_aggregation self) source)) as Hroom.
  { intros v. split; [apply Htot|]. specialize (Hsup v). unfold supply in Hsup. rewrite Hch in Hsup.
    simpl in Hsup. pose proof (quotable_supply _ (Hquotable _ _ Hq0) v). unfold supply in *.
    pose proof (sum_fields_nonneg v rest Hsc). lia. }
  eapply fit_chunk_spec in Hfit as (refund & lk & Htk & Hca' & Hm' & -> & Hamount); simpl;
    [|by rewrite bt_get_insert_eq|simpl; rewrite ?Hl; try done..].
  2:{ apply (quotable_limits _ (Hquotable _ _ Hq0)). }
  2:{ destruct Hc. unfold volume. lia. }
  2:{ intros p step' Ep Es Hlt. rewrite (inv_variant _ _ Hinv) in Hst. rewrite Hl in Hst.
      simplify_eq. destruct p; unfold field; simpl; [done|]. destruct Hok; [lia|auto]. }
  simpl in *. rewrite Hl in Hm', Hca'. fold (locked self) in Hamount.
  destruct (pushed_cluster_spec Q0 self source c' q0) as [Hnt Hncl]; try done.
  { eapply scalable_part; [done|apply Htk]. }
  { intros v. specialize (Hroom v). pose proof (part_of_field_le _ _ v (taken_part _ _ _ _ Htk)). lia. }
  destruct (source_taken q0 q _ chunk rest c' refund
    (new_total self source (pushed_cluster self source c')) (Hquotable _ _ Hq0) Hss Hch Htk Hca' Hm' Hnt)
    as [Hss' Hvol].
  split; [done|]. split; [done|].
  set (self2 := replaced self source (mkQuotation (requeued refund rest) (limits q))
                  (pushed_cluster self source c') lk).
  match goal with |- iteration _ _ _ _ _ ?x => assert (x = self2) as -> end.
  { unfold self2, replaced, refunded, requeued, pushed_cluster, push_aggregated, bt_modify_or_insert,
      set_aggregation, set_selector, quotations, set_quotations. simpl.
    destruct (chunk_is_zero refund), (chunk_is_zero c'); simpl; rewrite ?bt_insert_insert; try done;
      f_equal; by destruct (bt_get source (agg_aggregation self)). }
  assert (lk = locked self ∨ lk = bt_insert source tt (locked self)) as Hlk' by naive_solver.
  split.
  - done.
  - by eapply replaced_inv.
  - by exists (mkQuotation (requeued refund rest) (limits q)), lk.
  - intros v. unfold self2. rewrite selected_replaced, Hnt. lia.
  - intros v. by eapply part_of_field_le, Htk.
  - assert (pending self2 = pending self - volume c' + (Z.of_nat (length (locked self)) - Z.of_nat (length lk)))
      as ->.
    { unfold pending, self2. rewrite (left_volume_replaced _ _ q), (length_replaced _ _ q) by done.
      simpl. rewrite Hvol. unfold locked. simpl. lia. }
    assert (Z.of_nat (length (bt_insert source tt (locked self))) = Z.of_nat (length (locked self)) + 1)
      as Hlen.
    { rewrite bt_length_insert. unfold is_locked in Hlk. fold (locked self) in Hlk.
      destruct (bt_get source (locked self)); [done|]. lia. }
    destruct (chunk_is_zero c') eqn:Ez.
    + assert (volume c' = 0) as -> by by apply is_zero_refund.
      destruct Hamount as [[-> Hf]|[-> _]]; [|right; lia]. left.
      inversion Hf; subst; [congruence|done|congruence].
    + right. pose proof (taken_volume _ _ _ _ Htk Ez). destruct Hlk' as [->| ->]; lia.
  - naive_solver.
Qed.
End step.

(** ** Running out of fuel *)

(** The result is not the exhaustion of the fuel. *)
Definition finishes {A} (r : result AggError A) : Prop := r ≠ Err OutOfFuel.

Lemma finishes_bind {A B} (r : result AggError A) (f : A → result AggError B) :
  finishes r → (∀ a, r = Ok a → finishes (f a)) → finishes (r ≫= f).
Proof. unfold finishes. destruct r; simpl; naive_solver. Qed.
Lemma finishes_ok_or {A} (o : option A) e : finishes (ok_or (F := result AggError) o (Raised e)).
Proof. by destruct o. Qed.
Lemma finishes_raise {A} (r : result DispatchError A) : finishes (raise r).
Proof. by destruct r. Qed.
Lemma finishes_ok {A} (a : A) : finishes (Ok a).
Proof. done. Qed.
Lemma finishes_err {A} e : finishes (A := A) (Err (Raised e)).
Proof. done. Qed.

(** Loop-free code never runs out of fuel. *)
Ltac finishes :=
  repeat first
  [ apply finishes_ok_or | apply finishes_raise | apply finishes_ok | apply finishes_err
  | apply finishes_bind; [|intros]
  | match goal with
    | |- finishes (if ?b then _ else _) => destruct b
    | |- finishes (let '_ := ?p in _) => destruct p
    | |- finishes (match ?x with _ => _ end) => destruct x
    end ].

Section finishes.
Context {LS : Type} `{Ord LS} `{SlippageTolerance}.

Lemma select_candidates_finishes (s : Selector LS) amount qs candidates delayed max :
  finishes (select_candidates s amount qs candidates delayed max).
Proof.
  revert candidates delayed max. induction qs as [|[source q] qs IH]; intros; simpl; [done|].
  finishes; apply IH.
Qed.

Lemma select_chunk_finishes (s : Selector LS) amount a : finishes (select_chunk s amount a).
Proof.
  unfold select_chunk. apply finishes_bind; [apply select_candidates_finishes|]. intros [c d] _.
  finishes.
Qed.

Lemma fit_chunk_finishes (self : LiquidityAggregator LS) c source amount :
  finishes (fit_chunk self c source amount).
Proof. unfold fit_chunk, get_limits, fit_amount, selector_push_chunk. finishes. Qed.
End finishes.

Section amount.
Context {LS : Type} `{LawfulOrd LS} `{SlippageTolerance}.
Implicit Types (self : LiquidityAggregator LS) (source : LS).
Context (Q0 : BTreeMap LS DiscreteQuotation)
  (Hquotable : ∀ source q0, bt_get source Q0 = Some q0 → quotable q0)
  (Htol : ∀ x, 0 ≤ slippage_tolerance x).

(** How far the selected amount may be from the requested one: an input is only
    rounded down, an output only up. *)
Definition deviates (v : SwapVariant.t) (tolerance d : Z) : Prop :=
  match v with
  | SwapVariant.WithDesiredInput => - tolerance ≤ d ≤ 0
  | SwapVariant.WithDesiredOutput => 0 ≤ d ≤ tolerance
  end.

Lemma deviates_0 v x : deviates v (slippage_tolerance x) 0.
Proof. pose proof (Htol x). destruct v; simpl; lia. Qed.

(** A locked source keeps its cluster and stays locked. *)
Definition locked_kept self self' : Prop :=
  ∀ source, is_locked (agg_selector self) source = true →
    is_locked (agg_selector self') source = true ∧
    bt_get source (agg_aggregation self') = bt_get source (agg_aggregation self).

Lemma locked_kept_refl self : locked_kept self self.
Proof. by intros source. Qed.

Lemma locked_kept_trans self1 self2 self3 :
  locked_kept self1 self2 → locked_kept self2 self3 → locked_kept self1 self3.
Proof.
  intros Ha Hb source Hl. destruct (Ha source Hl) as [Hl2 E2].
  destruct (Hb source Hl2) as [Hl3 E3]. split; congruence.
Qed.

Lemma locked_kept_replaced self source q cl lk :
  is_locked (agg_selector self) source = false →
  lk = locked self ∨ lk = bt_insert source tt (locked self) →
  locked_kept self (replaced self source q cl lk).
Proof.
  intros Hun Hlk source' Hl. unfold is_locked in *. simpl.
  assert (cmp source' source ≠ Eq) as Hne.
  { intros E. apply cmp_eq in E as ->. congruence. }
  split.
  - destruct Hlk as [->| ->]; [done|]. unfold locked. by rewrite bt_get_insert_ne.
  - destruct cl; [by rewrite bt_get_insert_ne|done].
Qed.

Lemma iteration_locked self source c' amount amount' self2 :
  iteration Q0 self source c' amount amount' self2 → locked_kept self self2.
Proof. intros [Hu _ (q & lk & -> & Hlk) _ _ _ _]. by apply locked_kept_replaced. Qed.

(** A finished aggregation of [amount]. *)
Record aggregated self (amount : Balance) self' : Prop := {
  aggregated_inv : agg_inv Q0 self';
  aggregated_variant : agg_variant self' = agg_variant self;
  aggregated_origin : origin_amount self' = origin_amount self;
  aggregated_locked : locked_kept self self';
  aggregated_amount : ∃ d, deviates (agg_variant self) (slippage_tolerance (origin_amount self)) d ∧
    selected (agg_variant self) self' = selected (agg_variant self) self + amount + d
}.

(** The aggregation of the rest of the amount after an iteration. *)
Lemma aggregated_rest self source c' amount self2 rest self' :
  agg_variant self2 = agg_variant self → origin_amount self2 = origin_amount self →
  iteration Q0 self source c' amount amount self2 → aggregated self2 rest self' →
  rest = amount - field (agg_variant self) c' → aggregated self amount self'.
Proof.
  intros Hv Ho Hit [? Hv' Ho' Hl' (d & Hd & Hs)] ->. split; [done|congruence|congruence| |].
  - eapply locked_kept_trans; [by eapply iteration_locked|done].
  - exists d. rewrite Hv, Ho in *. split; [done|]. rewrite Hs, (iteration_selected _ _ _ _ _ _ _ Hit). lia.
Qed.

Lemma aggregate_amount_spec fuel amount self self' :
  agg_inv Q0 self → 0 ≤ amount ≤ u128_max → aggregate_amount fuel amount self = Ok self' →
  aggregated self amount self'.
Proof.
  revert amount self. induction fuel as [|fuel IH]; intros amount self Hinv Hamt Hr;
    cbn [aggregate_amount] in Hr; (destruct (Z.ltb_spec 0 amount) as [Hpos|Hz]; simpl negb in Hr; cbv iota in Hr);
    try done.
  1, 3: injection Hr as <-; split; [done|done|done|apply locked_kept_refl|];
    exists 0; split; [apply deviates_0|lia].
  apply result_bind_ok in Hr as ([[source chunk] s] & Hsel & Hr).
  apply result_bind_ok in Hr as ([[c' amount'] self1] & Hfit & Hr).
  destruct (aggregate_step Q0 Hquotable self amount source chunk s c' amount' self1 Hinv ltac:(lia)
    Hsel Hfit) as (Hv & Ho & Hit).
  rewrite Ho in Hr.
  destruct (negb (amount' =? amount) && (slippage_tolerance (origin_amount self) <? Z.abs (amount - amount')))
    eqn:Etol; [done|].
  assert (amount' = amount ∨ Z.abs (amount - amount') ≤ slippage_tolerance (origin_amount self)) as Hdiff.
  { apply andb_false_iff in Etol as [E|E]; zbool; auto. }
  pose proof (iteration_selected _ _ _ _ _ _ _ Hit (agg_variant self)) as Hsel'.
  pose proof (iteration_part _ _ _ _ _ _ _ Hit (agg_variant self)) as Hpart.
  pose proof (iteration_inv _ _ _ _ _ _ _ Hit) as Hinv'.
  pose proof (iteration_locked _ _ _ _ _ _ Hit) as Hlk'.
  destruct (iteration_amount _ _ _ _ _ _ _ Hit) as [Hf|[Ez ->]].
  2:{ rewrite Z.eqb_refl in Hr. simpl in Hr. rewrite Ez in *. apply IH in Hr; [|done|lia].
      eapply aggregated_rest; [exact Hv|exact Ho|exact Hit|exact Hr|].
      rewrite is_zero_field by done. lia. }
  inversion Hf as [Ez Hle|Hin Ez|amount2 Hout Ez Hlt Heq]; subst.
  - rewrite Z.eqb_refl in Hr. simpl in Hr. rewrite Ez in *.
    apply result_bind_ok in Hr as (rest & Hrest%result_ok_or_ok & Hr).
    apply checked_Some in Hrest as [-> ?]. rewrite Hv in *. fold (field (agg_variant self) c') in *.
    apply IH in Hr; [|done|lia].
    eapply aggregated_rest; [| |exact Hit|exact Hr|done]; done.
  - rewrite (proj2 (Z.eqb_neq 0 amount)) in Hr by lia. simpl in Hr. injection Hr as <-.
    simpl in *. split; [done|done|done|done|]. exists (- amount). rewrite Hin in *. simpl in *.
    rewrite Hsel'. unfold field; simpl. split; [|lia]. destruct Hdiff; lia.
  - rewrite (proj2 (Z.eqb_neq _ amount)), (proj2 (Z.eqb_neq _ 0)) in Hr by lia. simpl in Hr.
    rewrite Ez in *. apply result_bind_ok in Hr as (rest & Hrest%result_ok_or_ok & Hr).
    apply checked_Some in Hrest as [-> ?]. rewrite Hv in *. fold (field (agg_variant self) c') in *.
    assert (field (agg_variant self) c' - field (agg_variant self) c' = 0) as E0 by lia.
    rewrite E0 in Hr. destruct fuel; simpl in Hr; injection Hr as <-.
    all: split; [done|done|done|done|]; exists (field (agg_variant self) c' - amount).
    all: split; [|rewrite Hsel'; simpl; lia].
    all: rewrite Hout in *; simpl; destruct Hdiff; lia.
Qed.
End amount.
