(* ===== verification/Aggregated.v ===== *)
(** * The aggregated liquidity

    Termination, the returned liquidity of the sources below their minimum, and
    what [aggregate_liquidity] returns. *)

From S2P Require Import Prelude BTreeMap FixedPoint Units OrderTypes SwapTypes Chunks Aggregator.
From S2P Require Import ChunkFitting Selection AggregatorInv.

Lemma sum_volume cs :
  sum_by volume cs = sum_by (field SwapVariant.WithDesiredInput) cs
                     + sum_by (field SwapVariant.WithDesiredOutput) cs.
Proof. rewrite <- sum_by_add. apply sum_by_ext. intros c _. by rewrite (volume_field SwapVariant.WithDesiredInput). Qed.

Section align.
Context {LS : Type} `{LawfulOrd LS} `{SlippageTolerance}.
Implicit Types (self : LiquidityAggregator LS) (source : LS).
Context (Q0 : BTreeMap LS DiscreteQuotation) (HQ0 : bt_wf Q0)
  (Hquotable : ∀ source q0, bt_get source Q0 = Some q0 → quotable q0)
  (Htol : ∀ x, 0 ≤ slippage_tolerance x).

(** ** Enough fuel *)

(** The iterations that any aggregation of the quoted liquidity may need. *)
Definition budget : Z := bt_sum (λ q, sum_by volume (chunks q) + 1) Q0.

Lemma pending_bounds self : agg_inv Q0 self → 0 ≤ pending self ≤ budget.
Proof.
  intros Hinv.
  assert (∀ source q, bt_get source (quotations self) = Some q → 0 ≤ sum_by volume (chunks q) ∧
    ∃ q0, bt_get source Q0 = Some q0 ∧ sum_by volume (chunks q) ≤ sum_by volume (chunks q0)) as Hq.
  { intros source q Hq. destruct (proj1 (inv_known _ _ Hinv source) ltac:(by eexists)) as [q0 Hq0].
    pose proof (inv_source _ _ Hinv _ _ _ Hq0 Hq) as [_ Hsc _ Hsup Htot _ _].
    rewrite sum_volume. split.
    - pose proof (sum_fields_nonneg SwapVariant.WithDesiredInput _ Hsc).
      pose proof (sum_fields_nonneg SwapVariant.WithDesiredOutput _ Hsc). lia.
    - exists q0. split; [done|]. rewrite sum_volume. unfold supply in Hsup.
      pose proof (Hsup SwapVariant.WithDesiredInput). pose proof (Hsup SwapVariant.WithDesiredOutput).
      pose proof (Htot SwapVariant.WithDesiredInput). pose proof (Htot SwapVariant.WithDesiredOutput). lia. }
  pose proof (locked_le _ _ Hinv). unfold pending. split.
  - assert (0 ≤ left_volume self); [|lia]. apply bt_sum_nonneg; [apply Hinv|]. intros s q E. destruct (Hq _ _ E). done.
  - assert (left_volume self + Z.of_nat (length (quotations self)) ≤ budget); [|lia].
    rewrite <- bt_sum_one. unfold left_volume, budget. rewrite <- bt_sum_add.
    apply bt_sum_le; [apply Hinv|done|..].
    + intros source q0 Hq0. pose proof (quotable_scalable _ (Hquotable _ _ Hq0)) as Hsc.
      rewrite sum_volume. pose proof (sum_fields_nonneg SwapVariant.WithDesiredInput _ Hsc).
      pose proof (sum_fields_nonneg SwapVariant.WithDesiredOutput _ Hsc). lia.
    + intros source q E. destruct (Hq _ _ E) as (_ & q0 & Hq0 & ?). exists q0. split; [done|lia].
Qed.

Lemma aggregate_amount_finishes fuel amount self :
  agg_inv Q0 self → 0 ≤ amount ≤ u128_max → pending self < Z.of_nat fuel →
  finishes (aggregate_amount fuel amount self).
Proof.
  revert amount self. induction fuel as [|fuel IH]; intros amount self Hinv Hamt Hfuel.
  { pose proof (pending_bounds _ Hinv). lia. }
  cbn [aggregate_amount]. destruct (Z.ltb_spec 0 amount) as [Hpos|]; [|done]. simpl negb. cbv iota.
  apply finishes_bind; [apply select_chunk_finishes|]. intros [[source chunk] s] Hsel.
  apply finishes_bind; [apply fit_chunk_finishes|]. intros [[c' amount'] self1] Hfit.
  destruct (aggregate_step Q0 Hquotable self amount source chunk s c' amount' self1 Hinv ltac:(lia)
    Hsel Hfit) as (Hv & Ho & Hit). cbv zeta.
  destruct (negb (amount' =? amount) && (slippage_tolerance _ <? _)); [done|].
  destruct (negb (amount' =? amount) && (amount' =? 0)) eqn:E0; [done|].
  pose proof (iteration_inv _ _ _ _ _ _ _ Hit) as Hinv'.
  assert (pending (if chunk_is_zero c' then self1
     else set_aggregation self1 (push_aggregated (agg_aggregation self1) source c')) < Z.of_nat fuel) as Hp.
  { destruct (iteration_progress _ _ _ _ _ _ _ Hit) as [[-> ->]|]; [|lia].
    exfalso. rewrite (proj2 (Z.eqb_neq 0 amount)) in E0 by lia. done. }
  destruct (chunk_is_zero c') eqn:Ez.
  - apply IH; [done| |done].
    destruct (iteration_amount _ _ _ _ _ _ _ Hit) as [Hf|[_ ->]]; [|lia].
    inversion Hf; subst; [congruence|lia|congruence].
  - apply finishes_bind; [apply finishes_ok_or|]. intros rest Hrest%result_ok_or_ok.
    apply checked_Some in Hrest as [-> ?]. by apply IH.
Qed.
End align.

Lemma cluster_pop_back_spec cl c cl' :
  cluster_pop_back cl = Some (c, cl') →
  cluster_chunks cl = cluster_chunks cl' ++ [c] ∧
  cluster_total cl' = chunk_saturating_sub (cluster_total cl) c.
Proof.
  unfold cluster_pop_back. destruct cl as [total cs]. simpl.
  destruct cs as [|x cs _] using rev_ind; [done|].
  rewrite last_snoc. simpl. intros [= <- <-]. simpl. by rewrite removelast_last.
Qed.

Section return_liquidity.
Context {LS : Type} `{LawfulOrd LS}.
Implicit Types (s : Selector LS) (source : LS).

Lemma return_chunks_finishes fuel s a source cl taken :
  (length (cluster_chunks cl) < fuel)%nat → finishes (return_chunks fuel s a source cl taken).
Proof.
  revert s a cl taken. induction fuel as [|fuel IH]; intros s a cl taken Hf; [lia|].
  cbn [return_chunks]. destruct (negb (0 <? side_amount a)); [done|].
  destruct (cluster_pop_back cl) as [[c cl']|] eqn:Hpop; [|done].
  apply cluster_pop_back_spec in Hpop as [Hch _]. rewrite Hch, length_app in Hf. simpl in Hf.
  destruct (chunk_le c a).
  - apply finishes_bind; [apply finishes_ok_or|]. intros value _.
    apply finishes_bind; [unfold selector_push_chunk; finishes|]. intros s' _. apply IH. lia.
  - apply finishes_bind; [apply finishes_ok_or|]. intros r _.
    apply finishes_bind; [unfold selector_push_chunk; finishes|]. intros s' _.
    destruct fuel; simpl; by destruct a.
Qed.

(** Returning the whole amount of a side pops the chunks of the cluster from the
    back until what is left has nothing on that side. *)
Lemma return_chunks_spec fuel s a source cl taken taken' s' cl' l q :
  bt_get source (liquidity_quotations s) = Some q → cluster_state l cl →
  side_amount a = sum_by (field (side_variant a)) (cluster_chunks cl) →
  (∀ v, 0 ≤ field v taken ∧
     field v taken + sum_by (field v) (cluster_chunks cl) ≤ u128_max) →
  return_chunks fuel s a source cl taken = Ok (taken', s', cl') →
  ∃ popped, cluster_chunks cl = cluster_chunks cl' ++ popped ∧ cluster_state l cl' ∧
    (∀ v, field v taken' = field v taken + sum_by (field v) popped) ∧
    s' = set_quotations s
      (bt_insert source (mkQuotation (popped ++ chunks q) (limits q)) (liquidity_quotations s)).
Proof.
  revert s a cl taken q. induction fuel as [|fuel IH]; intros s a cl taken q Hq Hcl Ha Ht Hr.
  all: cbn [return_chunks] in Hr.
  all: destruct (negb (0 <? side_amount a)); [|try done].
  1, 2: injection Hr as <- <- <-; exists []; rewrite app_nil_r; split_and!; [done|done|simpl; lia|];
    destruct q; simpl; rewrite bt_insert_id by done; by destruct s.
  destruct (cluster_pop_back cl) as [[c cl1]|] eqn:Hpop.
  2:{ injection Hr as <- <- <-; exists []; rewrite app_nil_r; split_and!; [done|done|simpl; lia|];
    destruct q; simpl; rewrite bt_insert_id by done; by destruct s. }
  apply cluster_pop_back_spec in Hpop as [Hch Htot]. destruct Hcl as [Hsc Hal Hsum].
  rewrite Hch in Hsc, Hal, Hsum, Ht, Ha.
  apply Forall_app in Hsc as [Hsc Hc]. apply Forall_cons in Hc as [Hc _]. apply Forall_app in Hal as [Hal Hca].
  assert (∀ v, 0 ≤ field v c) as Hc0.
  { intros v. destruct Hc as [? ? _]. destruct v; unfold field; simpl; lia. }
  assert (∀ v, sum_by (field v) (cluster_chunks cl1 ++ [c]) = sum_by (field v) (cluster_chunks cl1) + field v c)
    as Hsplit by (intros v; rewrite sum_by_app; simpl; lia).
  assert (∀ v, 0 ≤ sum_by (field v) (cluster_chunks cl1)) as Hs1 by (intros; by apply sum_fields_nonneg).
  assert (cluster_state l cl1) as Hcl1.
  { split; [done|done|]. intros v. rewrite Htot, field_sub; [rewrite Hsum, Hsplit; lia|].
    apply part_of_field. intros w. rewrite Hsum, Hsplit. specialize (Hc0 w). specialize (Hs1 w). lia. }
  destruct (chunk_le c a) eqn:Hle.
  2:{ exfalso. unfold chunk_le in Hle. apply negb_false_iff, chunk_gt_spec in Hle.
      rewrite Ha, Hsplit in Hle. specialize (Hs1 (side_variant a)). lia. }
  apply result_bind_ok in Hr as (value & Hv%result_ok_or_ok & Hr).
  apply checked_Some in Hv as [-> _]. rewrite same_type_field in Hr.
  apply result_bind_ok in Hr as (s1 & Hs & Hr). unfold selector_push_chunk in Hs.
  rewrite Hq in Hs. injection Hs as <-.
  apply (IH _ _ _ _ (mkQuotation (c :: chunks q) (limits q))) in Hr as (popped & Hp & Hcl' & Ht' & ->).
  - exists (popped ++ [c]). split_and!; [|done| |].
    + rewrite Hch, Hp. by rewrite (assoc_L (++)).
    + intros v. rewrite Ht', sum_by_app. simpl. rewrite field_add; [lia|].
      specialize (Ht v). rewrite Hsplit in Ht. specialize (Hs1 v). specialize (Hc0 v). lia.
    + simpl. rewrite bt_insert_insert, <- (assoc_L (++)). done.
  - simpl. by rewrite bt_get_insert_eq.
  - done.
  - assert (side_variant (set_amount a (side_amount a - field (side_variant a) c)) = side_variant a
      ∧ side_amount (set_amount a (side_amount a - field (side_variant a) c))
        = side_amount a - field (side_variant a) c) as [-> ->] by by destruct a.
    rewrite Ha, Hsplit. lia.
  - intros v. specialize (Ht v). rewrite Hsplit in Ht. specialize (Hs1 v). specialize (Hc0 v).
    rewrite field_add; lia.
Qed.
End return_liquidity.

Section min.
Context {LS : Type} `{LawfulOrd LS} `{SlippageTolerance}.
Implicit Types (self : LiquidityAggregator LS) (source : LS).
Context (Q0 : BTreeMap LS DiscreteQuotation)
  (Hquotable : ∀ source q0, bt_get source Q0 = Some q0 → quotable q0).

Lemma align_min_remainder l c :
  let remainder := snd (align_chunk_min l c) in
  chunk_is_zero remainder = true ∨
  remainder = c ∧ ∃ m, min_amount l = Some m ∧ field (side_variant m) c < side_amount m.
Proof.
  unfold align_chunk_min. destruct (min_amount l) as [[m|m]|]; simpl; try by left.
  - destruct (Z.ltb_spec (chunk_input c) m); simpl; [right|by left]. eauto.
  - destruct (Z.ltb_spec (chunk_output c) m); simpl; [right|by left]. eauto.
Qed.

(** Returning the liquidity of a source to its queue keeps the invariant. *)
Lemma return_liquidity_spec self source cl m taken delete s cl' :
  agg_inv Q0 self → bt_get source (agg_aggregation self) = Some cl →
  return_liquidity (agg_selector self) (get_same_type_amount (cluster_total cl) m) source cl
    = Ok (taken, delete, s, cl') →
  let self' := set_aggregation (set_selector self (lock_source s source))
                 (bt_insert source cl' (agg_aggregation self)) in
  agg_inv Q0 self' ∧ (∀ v, selected v self' = selected v self - field v taken) ∧
  (∀ v, 0 ≤ field v taken ≤ u128_max) ∧ delete = cluster_is_empty cl' ∧
  (∀ source', source' ≠ source →
     bt_get source' (agg_aggregation self') = bt_get source' (agg_aggregation self) ∧
     is_locked (agg_selector self') source' = is_locked (agg_selector self) source') ∧
  is_locked (agg_selector self') source = true.
Proof.
  intros Hinv Hcl Hr. unfold return_liquidity in Hr.
  apply result_bind_ok in Hr as ([[taken1 s1] cl1] & Hr & E). injection E as -> <- -> ->.
  destruct (inv_cluster _ _ Hinv _ _ Hcl) as (q0 & Hq0 & Hcs).
  destruct (proj2 (inv_known _ _ Hinv source) ltac:(by eexists)) as [q Hq].
  pose proof (inv_source _ _ Hinv _ _ _ Hq0 Hq) as Hss.
  assert (get_total (agg_aggregation self) source = cluster_total cl) as Htot.
  { unfold get_total. by rewrite Hcl. }
  rewrite Htot in Hss. destruct Hss as [Hl Hsc Hal Hsup Hpos Hta Hmax].
  pose proof (cluster_sum _ _ Hcs) as Hsum.
  unshelve epose proof (return_chunks_spec _ _ _ _ _ _ _ _ _ (limits q0) q Hq Hcs _ _ Hr)
    as (popped & Hch & Hcs' & Ht & ->).
  { rewrite same_type_field, Hsum. by destruct m. }
  { intros v. rewrite field_zero, <- Hsum. specialize (Hsup v).
      pose proof (quotable_supply _ (Hquotable _ _ Hq0) v). unfold supply in *.
      pose proof (sum_fields_nonneg v _ Hsc). lia. }
  assert (∀ v, sum_by (field v) (cluster_chunks cl) =
    sum_by (field v) (cluster_chunks cl') + sum_by (field v) popped) as Hsplit.
  { intros v. by rewrite Hch, sum_by_app. }
  destruct Hcs as [Hcsc Hcal _]. rewrite Hch in Hcsc, Hcal.
  apply Forall_app in Hcsc as [Hcsc' Hpsc], Hcal as [Hcal' Hpal].
  assert (∀ v, field v taken = sum_by (field v) popped) as Htk by (intros v; rewrite Ht, field_zero; lia).
  set (self' := set_aggregation _ _).
  assert (self' = replaced self source (mkQuotation (popped ++ chunks q) (limits q)) (Some cl')
    (bt_insert source tt (locked self))) as E by done. clearbody self'. subst self'.
  split_and!; simpl.
  - eapply replaced_inv; [done|done|done|by right| |by intros ? [= <-]]. simpl.
    split; simpl; [done| | | | | |].
    + by apply Forall_app.
    + by apply Forall_app.
    + intros v. unfold supply in *. simpl. rewrite sum_by_app, (cluster_sum _ _ Hcs').
      specialize (Hsup v). rewrite Hsum, Hsplit in Hsup. lia.
    + intros v. rewrite (cluster_sum _ _ Hcs'). by apply sum_fields_nonneg.
    + intros p Ep. rewrite (cluster_sum _ _ Hcs'). apply sum_by_divide.
      eapply Forall_impl; [exact Hcal'|]. intros c Hc. by apply Hc.
    + intros m' Em. specialize (Hmax m' Em). rewrite (cluster_sum _ _ Hcs').
      rewrite Hsum, Hsplit in Hmax. pose proof (sum_fields_nonneg (side_variant m') _ Hpsc). lia.
  - intros v. rewrite selected_replaced. unfold new_total. rewrite Htot, (cluster_sum _ _ Hcs').
    rewrite Hsum, Hsplit, Htk. lia.
  - intros v. rewrite Htk. specialize (Hsup v). pose proof (quotable_supply _ (Hquotable _ _ Hq0) v).
    unfold supply in *. pose proof (sum_fields_nonneg v _ Hsc). pose proof (sum_fields_nonneg v _ Hpsc).
    pose proof (sum_fields_nonneg v _ Hcsc'). rewrite Hsum, Hsplit in Hsup. lia.
  - done.
  - intros source' Hne. assert (cmp source' source ≠ Eq) by (by intros ?%cmp_eq).
    unfold is_locked. simpl. unfold locked. by rewrite !bt_get_insert_ne.
  - unfold is_locked. simpl. by rewrite bt_get_insert_eq.
Qed.
End min.

Section queue.
Context {LS : Type} `{LawfulOrd LS}.

Lemma insert_by_price_perm (x : LS * Z) queue : insert_by_price x queue ≡ₚ x :: queue.
Proof.
  induction queue as [|y queue IH]; simpl; [done|]. case_match; [done|].
  rewrite IH. constructor.
Qed.

Lemma sort_by_price_perm (queue : list (LS * Z)) : sort_by_price queue ≡ₚ queue.
Proof. induction queue as [|x queue IH]; simpl; [done|]. by rewrite insert_by_price_perm, IH. Qed.

Lemma queue_keys (a : Aggregation LS) source : source ∈ get_total_price_ascending_queue a → source ∈ a.*1.
Proof.
  unfold get_total_price_ascending_queue. rewrite sort_by_price_perm.
  intros (p & -> & Hp)%list_elem_of_fmap. apply list_elem_of_omap in Hp as ([s cl] & Hin & Hs).
  apply bind_Some in Hs as (price & _ & [= <-]). apply list_elem_of_fmap. by exists (s, cl).
Qed.

Lemma price_queue_NoDup (a : Aggregation LS) : bt_wf a → NoDup (get_total_price_ascending_queue a).
Proof.
  intros Hwf%bt_wf_NoDup_keys. unfold get_total_price_ascending_queue. rewrite sort_by_price_perm.
  induction a as [|[s cl] a IH]; simpl in *; [constructor|].
  apply NoDup_cons in Hwf as [Hn Hwf]. destruct (chunk_price _); simpl; [|auto].
  apply NoDup_cons. split; [|auto]. intros (p & -> & Hp)%list_elem_of_fmap.
  apply list_elem_of_omap in Hp as ([s' cl'] & Hin & Hs).
  apply bind_Some in Hs as (price & _ & [= <-]). apply Hn, list_elem_of_fmap. by exists (s', cl').
Qed.

Lemma queue_length (a : Aggregation LS) :
  (length (get_total_price_ascending_queue a) ≤ length a)%nat.
Proof.
  unfold get_total_price_ascending_queue. rewrite length_fmap, sort_by_price_perm.
  induction a as [|[s cl] a IH]; [done|]. unfold omap in *. simpl.
  destruct (chunk_price _); simpl; lia.
Qed.
End queue.

Section align.
Context {LS : Type} `{LawfulOrd LS} `{SlippageTolerance}.
Implicit Types (self : LiquidityAggregator LS) (source : LS).
Context (Q0 : BTreeMap LS DiscreteQuotation) (HQ0 : bt_wf Q0)
  (Hquotable : ∀ source q0, bt_get source Q0 = Some q0 → quotable q0)
  (Htol : ∀ x, 0 ≤ slippage_tolerance x).

Lemma deviates_add v t1 d1 t2 d2 :
  deviates v t1 d1 → deviates v t2 d2 → deviates v (t1 + t2) (d1 + d2).
Proof. destruct v; simpl; lia. Qed.

(** A source whose liquidity was all returned. *)
Definition emptied self source : Prop :=
  is_locked (agg_selector self) source = true ∧
  ∃ cl, bt_get source (agg_aggregation self) = Some cl ∧ cluster_chunks cl = [].

Lemma emptied_kept self self' source : locked_kept self self' → emptied self source → emptied self' source.
Proof. intros Hk [Hl Hcl]. destruct (Hk source Hl) as [? E]. split; [done|by rewrite E]. Qed.

(** One source below its minimum: its liquidity is returned and aggregated anew. *)
Lemma align_source_spec fuel self source cl m taken delete s cl' self' :
  agg_inv Q0 self → bt_get source (agg_aggregation self) = Some cl →
  return_liquidity (agg_selector self) (get_same_type_amount (cluster_total cl) m) source cl
    = Ok (taken, delete, s, cl') →
  aggregate_amount fuel (field (agg_variant self) taken)
    (set_aggregation (set_selector self (lock_source s source))
       (bt_insert source cl' (agg_aggregation self))) = Ok self' →
  aggregated Q0 (set_aggregation (set_selector self (lock_source s source))
       (bt_insert source cl' (agg_aggregation self))) (field (agg_variant self) taken) self' ∧
  (delete = true → emptied self' source) ∧
  (∀ d, d ≠ source → emptied self d → emptied self' d).
Proof.
  intros Hinv Hcl Hret Hagg.
  destruct (return_liquidity_spec Q0 Hquotable self source cl m taken delete s cl' Hinv Hcl Hret)
    as (Hinv1 & Hsel1 & Htk & Hdel & Hoth & Hlk).
  apply (aggregate_amount_spec Q0 Hquotable Htol) in Hagg; [|done|apply Htk].
  pose proof (aggregated_locked _ _ _ _ Hagg) as Hkept.
  split_and!; [done|..].
  - intros E. apply (emptied_kept _ _ _ Hkept). split; [done|]. exists cl'. simpl.
    rewrite bt_get_insert_eq. split; [done|]. rewrite Hdel in E. unfold cluster_is_empty in E. by case_match.
  - intros d Hne [Hl (cl0 & Hc0 & E0)]. apply (emptied_kept _ _ _ Hkept).
    destruct (Hoth d Hne) as [Ec El]. split; [by rewrite El|]. exists cl0. by rewrite Ec.
Qed.

Lemma align_queue_spec fuel queue to_delete self to_delete' self' :
  agg_inv Q0 self → NoDup queue → (∀ d, d ∈ to_delete → (d ∉ queue) ∧ emptied self d) →
  align_queue fuel queue to_delete self = Ok (to_delete', self') →
  agg_inv Q0 self' ∧ agg_variant self' = agg_variant self ∧
  (∀ d, d ∈ to_delete' → emptied self' d) ∧
  ∃ d, deviates (agg_variant self)
         (Z.of_nat (length queue) * slippage_tolerance (origin_amount self)) d ∧
    selected (agg_variant self) self' = selected (agg_variant self) self + d.
Proof.
  revert to_delete self. induction queue as [|source queue IH]; intros to_delete self Hinv Hnd Hdel Hr.
  { injection Hr as <- <-. split_and!; [done|done|by intros d Hd; destruct (Hdel d Hd)|]. exists 0. split; [|lia].
    destruct (agg_variant self); simpl; lia. }
  apply NoDup_cons in Hnd as [Hnin Hnd].
  cbn [align_queue] in Hr. apply result_bind_ok in Hr as (cl & Hcl%result_ok_or_ok & Hr).
  apply result_bind_ok in Hr as (l & Hl & Hr).
  pose proof (align_min_remainder l (cluster_total cl)) as Hrem.
  destruct (align_chunk_min l (cluster_total cl)) as [c1 rem]. simpl in Hrem.
  pose proof (Htol (origin_amount self)) as Ht.
  destruct (negb (chunk_is_zero rem)) eqn:Ez.
  - destruct Hrem as [Hz|[-> _]]; [by rewrite Hz in Ez|].
    apply result_bind_ok in Hr as (m & Hm%result_ok_or_ok & Hr).
    apply result_bind_ok in Hr as ([[[taken delete] s] cl'] & Hret & Hr).
    apply result_bind_ok in Hr as (self1 & Hagg & Hr).
    destruct (align_source_spec fuel self source cl m taken delete s cl' self1 Hinv Hcl Hret Hagg)
      as ([Hinv1 Hv1 Ho1 _ (d1 & Hd1 & Hs1)] & Hsrc & Hoth).
    destruct (return_liquidity_spec Q0 Hquotable self source cl m taken delete s cl' Hinv Hcl Hret)
      as (_ & Hsel1 & _).
    simpl in Hv1, Ho1, Hd1, Hs1.
    apply IH in Hr as (Hinv2 & Hv2 & Hdel2 & d2 & Hd2 & Hs2); [|done|done|].
    + split_and!; [done|congruence|done|]. exists (d1 + d2).
      rewrite Hv1, Ho1 in *. split.
      * replace (Z.of_nat (length (source :: queue)) * slippage_tolerance (origin_amount self))
          with (slippage_tolerance (origin_amount self)
                + Z.of_nat (length queue) * slippage_tolerance (origin_amount self))
          by (simpl length; lia).
        by apply deviates_add.
      * rewrite Hs2, Hs1. specialize (Hsel1 (agg_variant self)). simpl in Hsel1. rewrite Hsel1. lia.
    + intros d Hd. assert (d = source ∧ delete = true ∨ d ∈ to_delete) as [[-> E]|Hin].
      { destruct delete; [|by right]. apply elem_of_app in Hd as [|Hd]; [by right|].
        apply list_elem_of_singleton in Hd. by left. }
      * split; [done|by apply Hsrc].
      * destruct (Hdel d Hin) as [Hn He]. split; [set_solver|]. apply Hoth; [set_solver|done].
  - apply IH in Hr as (Hinv2 & Hv2 & Hdel2 & d2 & Hd2 & Hs2); [|done|done|].
    + split_and!; [done|done|done|]. exists d2. split; [|done].
      replace d2 with (0 + d2) by lia.
      replace (Z.of_nat (length (source :: queue)) * slippage_tolerance (origin_amount self))
          with (slippage_tolerance (origin_amount self)
                + Z.of_nat (length queue) * slippage_tolerance (origin_amount self))
          by (simpl length; lia).
      apply deviates_add; [by apply deviates_0|done].
    + intros d Hd. destruct (Hdel d Hd). split; [set_solver|done].
Qed.

Lemma align_queue_finishes fuel queue to_delete self :
  agg_inv Q0 self → budget Q0 < Z.of_nat fuel → finishes (align_queue fuel queue to_delete self).
Proof.
  intros Hinv Hfuel. revert to_delete self Hinv.
  induction queue as [|source queue IH]; intros to_delete self Hinv; [done|].
  cbn [align_queue]. apply finishes_bind; [apply finishes_ok_or|]. intros cl Hcl%result_ok_or_ok.
  apply finishes_bind; [unfold get_limits; finishes|]. intros l _.
  pose proof (align_min_remainder l (cluster_total cl)) as Hrem.
  destruct (align_chunk_min l (cluster_total cl)) as [c1 rem]. simpl in Hrem.
  destruct (negb (chunk_is_zero rem)) eqn:Ez; [|by apply IH].
  destruct Hrem as [Hz|[-> _]]; [by rewrite Hz in Ez|].
  apply finishes_bind; [apply finishes_ok_or|]. intros m _.
  apply finishes_bind.
  { unfold return_liquidity. apply finishes_bind; [apply return_chunks_finishes; lia|].
    by intros [[? ?] ?] _. }
  intros [[[taken delete] s] cl'] Hret.
  destruct (return_liquidity_spec Q0 Hquotable self source cl m taken delete s cl' Hinv Hcl Hret)
    as (Hinv1 & _ & Htk & _).
  apply finishes_bind.
  - apply (aggregate_amount_finishes Q0 HQ0 Hquotable); [done|apply Htk|].
    pose proof (pending_bounds Q0 HQ0 Hquotable _ Hinv1). lia.
  - intros self1 Hagg.
    apply (aggregate_amount_spec Q0 Hquotable Htol) in Hagg as [? _ _ _ _]; [|done|apply Htk].
    by apply IH.
Qed.
End align.

Section results.
Context {LS : Type} `{LawfulOrd LS} `{SlippageTolerance}.
Implicit Types (self : LiquidityAggregator LS) (source : LS) (sources : list (LS * DiscreteQuotation)).

(** The aggregator of the given sources. *)
Definition sourced (variant : SwapVariant.t) sources : LiquidityAggregator LS :=
  fold_left (λ self p, add_source self (fst p) (snd p)) sources (aggregator_new variant).

Definition started (variant : SwapVariant.t) sources (amount : Balance) : LiquidityAggregator LS :=
  mkAggregator variant (agg_selector (sourced variant sources)) [] amount.

Lemma sourced_spec variant sources :
  let self := sourced variant sources in
  agg_variant self = variant ∧ selector_variant (agg_selector self) = variant ∧
  agg_aggregation self = [] ∧ locked self = [] ∧ bt_wf (quotations self) ∧
  (∀ source q, bt_get source (quotations self) = Some q → (source, q) ∈ sources) ∧
  (length (quotations self) ≤ length sources)%nat.
Proof.
  unfold sourced. induction sources as [|[source q] sources IH] using rev_ind.
  { split_and!; try done. constructor. }
  rewrite fold_left_app. simpl.
  destruct IH as (Hv & Hv' & Ha & Hl & Hwf & Hin & Hlen).
  split_and!; try done.
  - by apply bt_wf_insert.
  - intros source' q'. unfold quotations. simpl. rewrite bt_get_insert, elem_of_app.
    destruct (cmp source' source) eqn:E; [|by left; apply Hin..].
    intros [= <-]. apply cmp_eq in E as ->. right. by apply list_elem_of_singleton.
  - unfold quotations in *. simpl. rewrite bt_length_insert, length_app. simpl.
    destruct (bt_get source _); lia.
Qed.

Lemma started_inv variant sources amount :
  Forall (λ p, quotable (snd p)) sources →
  let Q0 := quotations (sourced variant sources) in
  bt_wf Q0 ∧ (∀ source q0, bt_get source Q0 = Some q0 → quotable q0) ∧
  agg_inv Q0 (started variant sources amount).
Proof.
  intros Hall Q0. destruct (sourced_spec variant sources) as (Hv & Hv' & Ha & Hl & Hwf & Hin & _).
  assert (∀ source q0, bt_get source Q0 = Some q0 → quotable q0) as Hq.
  { intros source q0 Hq%Hin. rewrite Forall_forall in Hall. apply (Hall _ Hq). }
  split_and!; [done|done|]. split; simpl; try done.
  - constructor.
  - unfold locked. simpl. fold (locked (sourced variant sources)). rewrite Hl. constructor.
  - intros source q0 q E E'. change (bt_get source Q0 = Some q) in E'.
    assert (q0 = q) as -> by congruence. destruct (Hq _ _ E) as [[Hp Hm Hma] Hsc Hal Hsup].
    split; try done.
    + intros v. unfold get_total. simpl. rewrite field_zero. lia.
    + intros v. unfold get_total. simpl. by rewrite field_zero.
    + intros p Ep. unfold get_total. simpl. rewrite field_zero. apply Z.divide_0_r.
    + intros m Em. unfold get_total. simpl. rewrite field_zero. by apply Hm.
  - intros source. unfold locked. simpl. fold (locked (sourced variant sources)). rewrite Hl.
    intros [? ?]. done.
Qed.

(** The result of a cluster in [calculate_result]. *)
Definition part_of_result (variant : SwapVariant.t) (p : LS * Cluster) : LS * SwapAmount :=
  (fst p, with_variant variant (field variant (cluster_total (snd p)))
                               (field (other variant) (cluster_total (snd p)))).

Lemma sum_clusters_spec variant clusters r0 r :
  sum_clusters variant clusters r0 = Ok r →
  desired_amount r = desired_amount r0 + bt_sum (λ cl, field variant (cluster_total cl)) clusters ∧
  result_amount r = result_amount r0 + bt_sum (λ cl, field (other variant) (cluster_total cl)) clusters ∧
  distribution r = distribution r0 ++ (part_of_result variant <$> clusters).
Proof.
  revert r0. induction clusters as [|[source cl] clusters IH]; intros r0 Hr; cbn [sum_clusters] in Hr.
  { injection Hr as <-. simpl. rewrite app_nil_r. split_and!; lia || done. }
  assert ((match variant with
           | SwapVariant.WithDesiredInput => (chunk_input (cluster_total cl), chunk_output (cluster_total cl))
           | SwapVariant.WithDesiredOutput => (chunk_output (cluster_total cl), chunk_input (cluster_total cl))
           end) = (field variant (cluster_total cl), field (other variant) (cluster_total cl))) as E
    by by destruct variant.
  cbv zeta in Hr. rewrite E in Hr.
  apply result_bind_ok in Hr as (d & Hd%result_ok_or_ok & Hr). apply checked_Some in Hd as [-> _].
  apply result_bind_ok in Hr as (d & Hd%result_ok_or_ok & Hr). apply checked_Some in Hd as [-> _].
  apply IH in Hr as (Hd & Hres & Hdist). simpl in *. split_and!; [lia|lia|].
  rewrite Hdist, <- (assoc_L (++)). done.
Qed.

(** Emptied clusters hold nothing. *)
Lemma emptied_total Q0 self source cl v :
  agg_inv Q0 self → emptied self source → bt_get source (agg_aggregation self) = Some cl →
  field v (cluster_total cl) = 0.
Proof.
  intros Hinv [_ (cl' & Hcl & E)] Hcl'. simplify_eq.
  destruct (inv_cluster _ _ Hinv _ _ Hcl) as (q0 & _ & Hcs). by rewrite (cluster_sum _ _ Hcs), E.
Qed.

Lemma is_listed_spec to_delete source : is_listed to_delete source = true → source ∈ to_delete.
Proof.
  unfold is_listed. intros (s & Hin & E)%existsb_exists. apply list_elem_of_In in Hin.
  destruct (cmp s source) eqn:E'; [|done|done]. by apply cmp_eq in E' as <-.
Qed.
End results.

Section theorems.
Context {LS : Type} `{LawfulOrd LS} `{SlippageTolerance}.
Context (Htol : ∀ x, 0 ≤ slippage_tolerance x).
Implicit Types (source : LS) (sources : list (LS * DiscreteQuotation)).

(** The aggregation behind a result. *)
Lemma aggregate_liquidity_spec fuel variant sources amount r :
  Forall (λ p, quotable (snd p)) sources → 0 ≤ amount ≤ u128_max →
  aggregate_liquidity fuel (sourced variant sources) amount = Ok r →
  ∃ self a, agg_inv (quotations (sourced variant sources)) self ∧ agg_variant self = variant ∧
    (∀ source cl, (source, cl) ∈ a → bt_get source (agg_aggregation self) = Some cl) ∧
    distribution r = part_of_result variant <$> a ∧
    desired_amount r = bt_sum (λ cl, field variant (cluster_total cl)) a ∧
    result_amount r = bt_sum (λ cl, field (other variant) (cluster_total cl)) a ∧
    ∃ d, deviates variant (Z.of_nat (S (length sources)) * slippage_tolerance amount) d ∧
      desired_amount r = amount + d.
Proof.
  intros Hall Hamt Hr.
  destruct (started_inv variant sources amount Hall) as (HQ0 & Hq & Hinv).
  destruct (sourced_spec variant sources) as (Hv & Hv' & Ha & Hl & Hwf & _ & Hlen).
  set (Q0 := quotations (sourced variant sources)) in *.
  unfold aggregate_liquidity in Hr. cbv zeta in Hr. rewrite Hv, Ha in Hr.
  fold (started variant sources amount) in Hr.
  destruct (selector_is_empty _); [done|].
  apply result_bind_ok in Hr as (self1 & Hagg & Hr).
  apply (aggregate_amount_spec Q0 Hq Htol) in Hagg as [Hinv1 Hv1 Ho1 _ (d1 & Hd1 & Hs1)]; [|done|done].
  apply result_bind_ok in Hr as (self2 & Hmin & Hr). unfold align_min in Hmin. cbv zeta in Hmin.
  apply result_bind_ok in Hmin as ([to_delete self3] & Hqueue & Hmin). injection Hmin as <-.
  apply (align_queue_spec Q0 HQ0 Hq Htol) in Hqueue as (Hinv3 & Hv3 & Hdel & d2 & Hd2 & Hs3);
    [|done|apply price_queue_NoDup, Hinv1|by intros d ?%elem_of_nil].
  simpl in Hv1, Ho1, Hd1, Hs1. rewrite Hv1 in *. rewrite Ho1 in Hd2.
  unfold calculate_result in Hr. apply sum_clusters_spec in Hr as (Hdes & Hres & Hdist).
  simpl in Hdes, Hres, Hdist. rewrite Hv3 in *.
  set (a := filter (λ p, is_listed to_delete (fst p) = false) (agg_aggregation self3)) in *.
  assert (∀ v, bt_sum (λ cl, field v (cluster_total cl)) a = selected v self3) as Hsum.
  { intros v. unfold a, selected. apply bt_sum_filter. intros [source cl] Hin Hlist. simpl in *.
    apply not_false_is_true, is_listed_spec, Hdel in Hlist.
    apply bt_elem_get in Hin; [|apply Hinv3]. exact (emptied_total Q0 self3 source cl v Hinv3 Hlist Hin). }
  exists self3, a. split_and!; [done|done| |done|lia|lia|].
  - intros source cl [_ Hin]%list_elem_of_filter. apply bt_elem_get; [apply Hinv3|done].
  - exists (d1 + d2). split.
    + eapply deviates_add in Hd2; [|exact Hd1].
      assert (Z.of_nat (length (get_total_price_ascending_queue (agg_aggregation self1)))
        ≤ Z.of_nat (length sources)) as Hle.
      { pose proof (queue_length (agg_aggregation self1)).
        assert ((length (agg_aggregation self1) ≤ length Q0)%nat); [|lia].
        apply Nat2Z.inj_le. rewrite <- !bt_sum_one. apply bt_sum_le; [apply Hinv1|done|lia|].
        intros source cl E. destruct (inv_cluster _ _ Hinv1 _ _ E) as (q0 & Eq & _). by exists q0. }
      pose proof (Htol amount). destruct variant; simpl in *; nia.
    + rewrite Hdes, Hsum, Hs3, Hs1. unfold selected. simpl. lia.
Qed.
End theorems.

Section fuel.
Context {LS : Type} `{LawfulOrd LS} `{SlippageTolerance}.
Context (Htol : ∀ x, 0 ≤ slippage_tolerance x).

Lemma sum_clusters_finishes variant (clusters : list (LS * Cluster)) r :
  finishes (sum_clusters variant clusters r).
Proof.
  revert r. induction clusters as [|[source cl] clusters IH]; intros r; cbn [sum_clusters]; [done|].
  destruct variant; cbv zeta; finishes; apply IH.
Qed.

Lemma aggregate_liquidity_finishes fuel variant (sources : list (LS * DiscreteQuotation)) amount :
  Forall (λ p, quotable (snd p)) sources → 0 ≤ amount ≤ u128_max →
  budget (quotations (sourced variant sources)) < Z.of_nat fuel →
  finishes (aggregate_liquidity fuel (sourced variant sources) amount).
Proof.
  intros Hall Hamt Hfuel.
  destruct (started_inv variant sources amount Hall) as (HQ0 & Hq & Hinv).
  destruct (sourced_spec variant sources) as (Hv & _ & Ha & _).
  unfold aggregate_liquidity. cbv zeta. rewrite Hv, Ha. fold (started variant sources amount).
  destruct (selector_is_empty _); [done|].
  apply finishes_bind.
  - apply (aggregate_amount_finishes _ HQ0 Hq); [done|done|].
    pose proof (pending_bounds _ HQ0 Hq _ Hinv). lia.
  - intros self1 Hagg. apply (aggregate_amount_spec _ Hq Htol) in Hagg as [Hinv1 _ _ _ _]; [|done|done].
    apply finishes_bind; [|intros; apply sum_clusters_finishes].
    unfold align_min. apply finishes_bind; [|by intros []].
    by apply (align_queue_finishes _ HQ0 Hq Htol).
Qed.
End fuel.
