(* ===== verification/SmartSplit.v ===== *)
(** * The split of a swap over the liquidity sources

    The theorems about [new_smart_split] (the parts against the quotations and limits of the
    sources, termination) and about the selection of the best price. *)

From S2P Require Import Prelude BTreeMap FixedPoint Units OrderTypes SwapTypes Chunks Aggregator.
From S2P Require Import ChunkFitting Selection AggregatorInv Aggregated.

(** ** Verified quotations *)

Lemma verify_precision_aligned l c : verify_precision l c = Ok true → chunk_aligned l c.
Proof.
  unfold verify_precision, chunk_aligned. intros Hv p Hp. rewrite Hp in Hv.
  assert (∀ x y r, checked_rem x y = Ok r → r = 0 → (y | x)) as Hdiv.
  { unfold checked_rem. intros x y r Hr ->. destruct (Z.eqb_spec y 0); [done|].
    injection Hr as Hr. by apply Z.mod_divide. }
  destruct p as [P|P]; destruct (_ ≫= _) as [[pi po]|] eqn:E in Hv; try done;
    apply bind_Some in E as (step & _ & [= <- <-]);
    apply result_bind_ok in Hv as (ri & Hri & Hv);
    destruct (Z.eqb_spec ri 0) as [->|]; try done; simpl in Hv;
    apply result_bind_ok in Hv as (ro & Hro & [= Hz]); zbool; subst.
  - by eapply Hdiv.
  - by eapply Hdiv.
Qed.

Lemma verify_aligned `{PriceEpsilon} q : verify q = Ok true → Forall (chunk_aligned (limits q)) (chunks q).
Proof.
  unfold verify. generalize u128_max. generalize (limits q). intros l.
  induction (chunks q) as [|c cs IH]; intros price Hv; simpl in Hv; [constructor|].
  destruct (_ || _); [done|]. apply result_bind_ok in Hv as (b & Hb & Hv).
  destruct b; [|done]. simpl in Hv. destruct (chunk_price c) as [p|]; [|done].
  destruct (p <? 0); [done|]. destruct (_ && _); [done|].
  constructor; [by apply verify_precision_aligned|by eapply IH].
Qed.

(** ** The split of a swap *)

(** A quotation whose chunks can be rescaled without overflow of the fixed-point type (the code
    then falls back to rounded prices), which has a maximum and a precision on the same side. *)
Record well_sized (q : DiscreteQuotation) : Prop := {
  sized_limits : limits_aligned (limits q);
  sized_scalable : Forall scalable (chunks q);
  sized_supply v : supply v q ≤ u128_max
}.

Section split.
Context {LS Reward : Type} `{LawfulOrd LS} `{SlippageTolerance} `{PriceEpsilon} {LR : LiquidityRegistry LS Reward}.
Context (Htol : ∀ x, 0 ≤ slippage_tolerance x)
  (Hsized : ∀ source input output amount deduce_fee q,
     registry_step_quote source input output amount deduce_fee = Ok q → well_sized q).
Implicit Types (source : LS) (sources : list LS).

Lemma add_quotes_spec sources input output amount deduce_fee self self' :
  add_quotes sources input output amount deduce_fee self = Ok self' →
  ∃ quotes, self' = fold_left (λ self p, add_source self (fst p) (snd p)) quotes self ∧
    (length quotes ≤ length sources)%nat ∧ (∀ p, p ∈ quotes → fst p ∈ sources) ∧
    (∀ p, p ∈ quotes → registry_step_quote (fst p) input output amount deduce_fee = Ok (snd p) ∧
       verify (snd p) = Ok true).
Proof.
  revert self. induction sources as [|source sources IH]; intros self Hr; cbn [add_quotes] in Hr.
  { injection Hr as <-. exists []. split_and!; [done|done|by intros p ?%elem_of_nil|by intros p ?%elem_of_nil]. }
  destruct (registry_step_quote source input output amount deduce_fee) as [q|] eqn:Hq.
  - apply result_bind_ok in Hr as (b & Hb & Hr).
    assert (verify q = Ok b) as Hv by (unfold raise in Hb; destruct (verify q); by simplify_eq).
    apply IH in Hr as (quotes & -> & Hlen & Hsrc & Hall). destruct b.
    + exists ((source, q) :: quotes). split_and!; [done|simpl; lia| |].
      * intros p [->|Hin]%elem_of_cons; [left|right; auto].
      * intros p [->|Hin]%elem_of_cons; [done|auto].
    + exists quotes. split_and!; [done|simpl; lia|intros p Hp; right; auto|done].
  - apply IH in Hr as (quotes & -> & Hlen & Hsrc & Hall). exists quotes.
    split_and!; [done|simpl; lia|intros p Hp; right; auto|done].
Qed.

Lemma add_quotes_finishes sources input output amount deduce_fee self :
  finishes (add_quotes sources input output amount deduce_fee self).
Proof.
  revert self. induction sources as [|source sources IH]; intros self; cbn [add_quotes]; [done|].
  destruct (registry_step_quote _ _ _ _ _); [|apply IH].
  apply finishes_bind; [apply finishes_raise|]. intros b _. apply IH.
Qed.

Lemma quotes_quotable quotes input output amount deduce_fee :
  (∀ p, p ∈ quotes → registry_step_quote (fst p) input output amount deduce_fee = Ok (snd p) ∧
     verify (snd p) = Ok true) →
  Forall (λ p : LS * DiscreteQuotation, quotable (snd p)) quotes.
Proof.
  intros Hall. apply Forall_forall. intros p Hp. destruct (Hall p Hp) as [Hq Hv].
  apply Hsized in Hq as [? ? ?]. split; try done. by apply verify_aligned.
Qed.

(** The run of [new_smart_split] behind its outcome. *)
Lemma new_smart_split_run fuel sources base input output amount skip deduce_fee outcome rewards :
  new_smart_split fuel sources base input output amount skip deduce_fee = Ok (outcome, rewards) →
  ∃ quotes r, (length quotes ≤ length sources)%nat ∧ (∀ p, p ∈ quotes → fst p ∈ sources) ∧
    (∀ p, p ∈ quotes → registry_step_quote (fst p) input output amount deduce_fee = Ok (snd p) ∧
       verify (snd p) = Ok true) ∧
    aggregate_liquidity fuel (sourced (quote_variant amount) quotes) (quote_amount amount) = Ok r ∧
    outcome = to_aggregated_outcome r.
Proof.
  unfold new_smart_split. intros Hr.
  apply result_bind_ok in Hr as (? & _ & Hr). apply result_bind_ok in Hr as (? & _ & Hr).
  apply result_bind_ok in Hr as (self & (quotes & -> & Hlen & Hsrc & Hall)%add_quotes_spec & Hr).
  apply result_bind_ok in Hr as (r & Hagg & Hr). injection Hr as <- _.
  by exists quotes, r.
Qed.

Lemma sum_distribution (f : SwapAmount → Z) (g : SwapChunk → Z) variant (a : Aggregation LS) :
  (∀ c, f (with_variant variant (field variant c) (field (other variant) c)) = g c) →
  sum_by (λ p, f (snd p)) (part_of_result variant <$> a) = bt_sum (λ cl, g (cluster_total cl)) a.
Proof. intros Hf. induction a as [|[s cl] a IH]; [done|]. cbn. rewrite Hf. f_equal. apply IH. Qed.

Lemma sum_clusters_range variant (clusters : list (LS * Cluster)) r0 r :
  sum_clusters variant clusters r0 = Ok r → result_amount r0 ≤ u128_max → result_amount r ≤ u128_max.
Proof.
  revert r0. induction clusters as [|[source cl] clusters IH]; intros r0 Hr Hle; cbn [sum_clusters] in Hr.
  { by injection Hr as <-. }
  destruct (match variant with SwapVariant.WithDesiredInput => _ | _ => _ end) as [dp rp].
  apply result_bind_ok in Hr as (da & _ & Hr).
  apply result_bind_ok in Hr as (ra & Hra%result_ok_or_ok & Hr).
  apply IH in Hr; [done|]. simpl. apply checked_Some in Hra. lia.
Qed.

Lemma smart_split_range fuel sources base input output amount skip deduce_fee outcome rewards :
  new_smart_split fuel sources base input output amount skip deduce_fee = Ok (outcome, rewards) →
  aggregated_outcome_amount outcome ≤ u128_max.
Proof.
  intros (quotes & r & _ & _ & _ & Hr & ->)%new_smart_split_run. unfold aggregate_liquidity in Hr.
  cbv zeta in Hr. destruct (selector_is_empty _); [done|].
  apply result_bind_ok in Hr as (? & _ & Hr). apply result_bind_ok in Hr as (? & _ & Hr).
  by eapply sum_clusters_range.
Qed.

(** What [new_smart_split] returns. *)
Lemma smart_split_run fuel sources base input output amount skip deduce_fee outcome rewards :
  0 ≤ quote_amount amount ≤ u128_max →
  new_smart_split fuel sources base input output amount skip deduce_fee = Ok (outcome, rewards) →
  let desired := sum_by (λ p, swap_amount (snd p)) (outcome_distribution outcome) in
  let slack := Z.of_nat (S (length sources)) * slippage_tolerance (quote_amount amount) in
  match amount with
  | WithDesiredInput x => x - slack ≤ desired ≤ x
  | WithDesiredOutput x => x ≤ desired ≤ x + slack
  end ∧
  aggregated_outcome_amount outcome
  = sum_by (λ p, swap_limit (snd p)) (outcome_distribution outcome) ∧
  ∀ source part, (source, part) ∈ outcome_distribution outcome →
    ∃ q total,
      registry_step_quote source input output amount deduce_fee = Ok q ∧ verify q = Ok true ∧
      part = with_variant (quote_variant amount) (field (quote_variant amount) total)
               (field (other (quote_variant amount)) total) ∧
      (∀ v, 0 ≤ field v total ≤ supply v q) ∧
      within_max (limits q) total ∧ chunk_aligned (limits q) total.
Proof.
  intros Hamt Hr. apply new_smart_split_run in Hr as (quotes & r & Hlen & _ & Hall & Hagg & ->).
  pose proof (quotes_quotable _ _ _ _ _ Hall) as Hquot.
  apply (aggregate_liquidity_spec Htol) in Hagg
    as (self & a & Hinv & _ & Hget & Hdist & Hdes & Hres & d & Hd & Hamount); [|done|done].
  simpl. rewrite Hdist. split; [|split].
  - rewrite (sum_distribution swap_amount (field (quote_variant amount))) by by destruct amount.
    rewrite <- Hdes, Hamount.
    assert (Z.of_nat (S (length quotes)) * slippage_tolerance (quote_amount amount) ≤
      Z.of_nat (S (length sources)) * slippage_tolerance (quote_amount amount)) as Hle.
    { apply Z.mul_le_mono_nonneg_r; [apply Htol|lia]. }
    destruct amount; simpl in *; lia.
  - by rewrite (sum_distribution swap_limit (field (other (quote_variant amount)))) by by destruct amount.
  - intros source part ([s cl] & [= -> ->] & Hin)%list_elem_of_fmap.
    pose proof (Hget _ _ Hin) as Hcl. destruct (inv_cluster _ _ Hinv _ _ Hcl) as (q0 & Hq0 & _).
    destruct (proj2 (inv_known _ _ Hinv s) ltac:(by eexists)) as [q Hq].
    pose proof (inv_source _ _ Hinv _ _ _ Hq0 Hq) as [_ Hsc _ Hsup Htot Hal Hmax].
    assert (get_total (agg_aggregation self) s = cluster_total cl) as Et
      by (unfold get_total; by rewrite Hcl).
    rewrite Et in *.
    destruct (sourced_spec (quote_variant amount) quotes) as (_ & _ & _ & _ & _ & Hsrc & _).
    destruct (Hall _ (Hsrc _ _ Hq0)) as [Hstep Hver]. simpl in *.
    exists q0, (cluster_total cl). split_and!; try done.
    intros v. split; [apply Htot|]. specialize (Hsup v).
    pose proof (sum_fields_nonneg v _ Hsc). unfold supply in *. lia.
Qed.


End split.

(** ** The best price *)

Section best.
Context {LS : Type} `{LawfulOrd LS}.

(** [select_chunk] returns the front chunk of an unlocked source.  If some unlocked
    source can be used without rounding the amount, so can the selected one; no such
    source has a better price, and between equal prices a source that was already
    selected is preferred. *)
Theorem select_chunk_best (s : Selector LS) amount (a : Aggregation LS) source chunk s' :
  bt_wf (liquidity_quotations s) →
  (∀ p, p ∈ liquidity_quotations s → Forall scalable (chunks (snd p))) →
  select_chunk s amount a = Ok (source, chunk, s') →
  ∃ price step, offered s (liquidity_quotations s) source chunk price step ∧
    ∀ source1 front1 price1 step1,
      offered s (liquidity_quotations s) source1 front1 price1 step1 → step1 ≤ amount →
      step ≤ amount ∧ price1 ≤ price ∧
      (price1 = price → is_aggregated a source1 = true → is_aggregated a source = true).
Proof.
  intros Hwf Hsc Hsel. apply select_chunk_spec in Hsel
    as (q & rest & price & step & Hq & Hch & Hlk & Hpr & Hst & _ & _ & Hbest); [|done|].
  - exists price, step. split; [|done]. apply bt_get_elem in Hq as (source' & E & Hin).
    apply cmp_eq in E as <-. by exists q, rest.
  - intros source1 front price step (q & rest & Hin & _ & Hch & Hp & _).
    specialize (Hsc _ Hin). simpl in Hsc. rewrite Hch in Hsc. apply Forall_cons in Hsc as [Hc _].
    by eapply chunk_price_pos.
Qed.
End best.
