(* ===== verification/SplitBounds.v ===== *)
(** * The amounts of a split

    The parts of a split add up to the requested amount, for all quotations of the
    sources: also when their proportions overflow the fixed-point type, or a sum of
    amounts reaches the end of the type [Balance]. *)

From S2P Require Import Prelude BTreeMap FixedPoint Units OrderTypes SwapTypes Chunks Aggregator.
From S2P Require Import ChunkFitting Selection AggregatorInv Aggregated SmartSplit.

(** ** Amounts that are not negative *)

Definition nonneg (c : SwapChunk) : Prop := ∀ v, 0 ≤ field v c.

(** The amounts of a quotation are of the type [Balance]. *)
Record limits_typed (l : SwapLimits) : Prop := {
  typed_min m : min_amount l = Some m → is_u128 (side_amount m);
  typed_max m : max_amount l = Some m → is_u128 (side_amount m);
  typed_precision p : amount_precision l = Some p → is_u128 (side_amount p)
}.
Record quotation_typed (q : DiscreteQuotation) : Prop := {
  typed_limits : limits_typed (limits q);
  typed_chunks : Forall (λ c, is_u128 (chunk_input c) ∧ is_u128 (chunk_output c)) (chunks q)
}.

Lemma nonneg_zero : nonneg chunk_zero.
Proof. intros v. by rewrite field_zero. Qed.

Lemma field_sat_add v c c' : field v (chunk_saturating_add c c') = sat_add u128_max (field v c) (field v c').
Proof. by destruct v. Qed.
Lemma field_sat_sub v c c' : field v (chunk_saturating_sub c c') = sat_sub (field v c) (field v c').
Proof. by destruct v. Qed.

Lemma nonneg_add c c' : nonneg c → nonneg c' → nonneg (chunk_saturating_add c c').
Proof. intros Hc Hc' v. rewrite field_sat_add. specialize (Hc v). specialize (Hc' v). unfold sat_add, u128_max. lia. Qed.
Lemma nonneg_sub c c' : nonneg (chunk_saturating_sub c c').
Proof. intros v. rewrite field_sat_sub. unfold sat_sub. lia. Qed.
#[local] Hint Resolve nonneg_zero nonneg_add nonneg_sub : core.

Lemma rescale_nonneg c a c' : 0 ≤ side_amount a → rescale_by_side_amount c a = Some c' →
  nonneg c' ∧ field (side_variant a) c' = side_amount a.
Proof.
  intros Ha Hr. destruct a as [x|x]; simpl in *; unfold rescale_by_input, rescale_by_output in Hr.
  - apply bind_Some in Hr as (y & Hy & Hr). apply bind_Some in Hr as (fee & _ & [= <-]).
    split; [|done]. intros []; [done|]. by eapply proportional_pos; right.
  - apply bind_Some in Hr as (y & Hy & Hr). apply bind_Some in Hr as (fee & _ & [= <-]).
    split; [|done]. intros []; [|done]. by eapply proportional_pos; left.
Qed.

(** The step is the other side of a chunk that is rescaled to the precision. *)
Lemma step_is_field l c p step c' :
  amount_precision l = Some p → get_precision_step l c SwapVariant.WithDesiredOutput = Some step →
  rescale_by_side_amount c p = Some c' → field SwapVariant.WithDesiredOutput c' = step.
Proof.
  unfold get_precision_step. intros -> Hs Hr. destruct p as [x|x]; simpl in Hr.
  - unfold rescale_by_input in Hr. rewrite Hs in Hr. simpl in Hr. by apply bind_Some in Hr as (fee & _ & [= <-]).
  - injection Hs as <-. unfold rescale_by_output in Hr. apply bind_Some in Hr as (y & _ & Hr).
    by apply bind_Some in Hr as (fee & _ & [= <-]).
Qed.

Lemma step_nonneg l c v step : limits_typed l → get_precision_step l c v = Some step → 0 ≤ step.
Proof.
  unfold get_precision_step. intros [_ _ Hl]. destruct (amount_precision l) as [p|]; [|by intros [= <-]].
  destruct (Hl p eq_refl). destruct v, p; simpl in *; intros Hs; simplify_eq; try lia; eauto using proportional_pos.
Qed.

Lemma align_max_nonneg l acc c r rem : nonneg c →
  align_extra_chunk_max l acc c = Some (r, rem) → nonneg r ∧ nonneg rem.
Proof.
  intros Hc [[[= -> ->] _]|(m & c1 & _ & _ & H1 & [= -> ->])]%align_max_cases; [auto|]. split; [|auto].
  apply rescale_nonneg in H1 as [? _]; [done|]. destruct m; simpl; unfold sat_sub; lia.
Qed.

Lemma align_precision_nonneg l c r rem : limits_typed l → nonneg c →
  align_chunk_precision l c = Ok (Some (r, rem)) → nonneg r ∧ nonneg rem.
Proof.
  intros Hl Hc Hr. unfold align_chunk_precision in Hr. pose proof (typed_precision _ Hl) as Hp.
  assert (∀ v p, 0 ≤ p → 0 ≤ sat_mul u128_max (field v c / p) p) as Hsat.
  { intros v p Hp0. unfold sat_mul. specialize (Hc v). apply Z.min_glb; [done|]. apply Z.mul_nonneg_nonneg; [|done].
    destruct (decide (p = 0)) as [->|]; [by rewrite Z.div_0_r|apply Z.div_pos; lia]. }
  destruct (amount_precision l) as [[p|p]|]; [| |injection Hr as <- <-; auto].
  all: destruct (Hp _ eq_refl) as [Hp0 _]; simpl in Hp0.
  all: apply result_bind_ok in Hr as (x & _ & Hr); destruct (negb _); [|injection Hr as <- <-; auto].
  all: cbv zeta in Hr; injection Hr as Hr; apply bind_Some in Hr as (c1 & H1 & [= <- <-]); split; [|auto].
  - apply (rescale_nonneg c (Input _)) in H1 as [? _]; [done|]. by apply (Hsat SwapVariant.WithDesiredInput).
  - apply (rescale_nonneg c (Output _)) in H1 as [? _]; [done|]. by apply (Hsat SwapVariant.WithDesiredOutput).
Qed.

(** ** Fitting a chunk *)

(** A desired input is only rounded down to nothing, a desired output only up to what is
    taken. *)
Definition rounded (v : SwapVariant.t) (c' : SwapChunk) (amount amount' : Balance) : Prop :=
  amount' = amount ∨
  match v with
  | SwapVariant.WithDesiredInput => amount' = 0 ∧ chunk_is_zero c' = true
  | SwapVariant.WithDesiredOutput => amount < amount' ∧ field v c' = amount'
  end.

Lemma fit_amount_bounds v l c refund amount c' refund' amount' :
  limits_typed l → nonneg c → nonneg refund → 0 < amount →
  fit_amount v l c refund amount = Ok (c', refund', amount') →
  nonneg c' ∧ nonneg refund' ∧ rounded v c' amount amount'.
Proof.
  intros Hl Hc Hrf Ham Hx. unfold fit_amount in Hx.
  apply result_bind_ok in Hx as (step & Hs%result_ok_or_ok & Hx).
  pose proof (step_nonneg _ _ _ _ Hl Hs) as Hstep.
  apply result_bind_ok in Hx as ([[c1 r1] a1] & H1 & Hx).
  assert (c1 = c' ∧ r1 = refund' ∧ a1 = amount') as (<- & <- & <-).
  { destruct (chunk_is_zero c1 && negb (a1 =? 0)); [done|by simplify_eq]. }
  clear Hx. unfold rounded. destruct (Z.ltb_spec amount step).
  - destruct v.
    + injection H1 as <- <- <-. auto.
    + apply result_bind_ok in H1 as (p & Hp%result_ok_or_ok & H1).
      apply result_bind_ok in H1 as (c2 & H2%result_ok_or_ok & [= <- <- <-]).
      pose proof (step_is_field _ _ _ _ _ Hp Hs H2). pose proof (typed_precision _ Hl _ Hp) as [? _].
      apply rescale_nonneg in H2 as [? _]; [|done]. auto.
  - cbv zeta in H1. set (a := if negb (step =? 0) && _ then side_of _ v else side_of _ v) in H1.
    assert (0 ≤ side_amount a) as Ha.
    { unfold a. destruct (_ && _); destruct v; simpl; try lia; unfold sat_mul; apply Z.min_glb; try done;
        apply Z.mul_nonneg_nonneg; try lia; (destruct (decide (step = 0)) as [->|]; [by rewrite Z.div_0_r|apply Z.div_pos; lia]). }
    clearbody a. apply result_bind_ok in H1 as ([c2 r2] & H2 & H1).
    assert (nonneg c2 ∧ nonneg r2) as [Hc2 Hr2].
    { destruct (chunk_gt c a); [|by injection H2 as <- <-].
      apply result_bind_ok in H2 as (c3 & H3%result_ok_or_ok & [= <- <-]).
      apply rescale_nonneg in H3 as [? _]; auto. }
    apply result_bind_ok in H1 as (al & Hal & H1). apply result_bind_ok in H1 as ([c3 rem] & H3%result_ok_or_ok & H1).
    subst al. assert (align_chunk_precision l c2 = Ok (Some (c3, rem))) as Hal'.
    { unfold raise in Hal. destruct (align_chunk_precision l c2); by simplify_eq. }
    apply align_precision_nonneg in Hal' as [Hc3 Hrem]; [|done..].
    destruct (negb _); injection H1 as <- <- <-; auto.
Qed.

Section fit.
Context {LS : Type} `{LawfulOrd LS} `{SlippageTolerance}.
Implicit Types (self : LiquidityAggregator LS) (source : LS).

Lemma fit_chunk_bounds self c source amount q c' amount' self' :
  let s := agg_selector self in
  bt_get source (liquidity_quotations s) = Some q → limits_typed (limits q) → nonneg c → 0 < amount →
  fit_chunk self c source amount = Ok (c', amount', self') →
  ∃ refund lk, nonneg c' ∧ nonneg refund ∧ rounded (agg_variant self) c' amount amount' ∧
    (lk = locked_sources s ∨ lk = bt_insert source tt (locked_sources s)) ∧
    self' = set_selector self (refunded s source q refund lk).
Proof.
  intros s Hq Hl Hc Ham Hfit. unfold fit_chunk in Hfit.
  apply result_bind_ok in Hfit as (l & Hlim & Hfit). unfold get_limits in Hlim.
  fold s in Hlim. rewrite Hq in Hlim. injection Hlim as <-.
  apply result_bind_ok in Hfit as ([r1 rem] & Hal%result_ok_or_ok & Hfit).
  destruct (align_max_nonneg _ _ _ _ _ Hc Hal) as [Hr1 Hrem].
  set (lk := if negb (chunk_is_zero rem) then bt_insert source tt (locked_sources s) else locked_sources s).
  assert ((if negb (chunk_is_zero rem)
     then (r1, rem, set_selector self (lock_source (agg_selector self) source))
     else (c, chunk_zero, self)) =
     (if negb (chunk_is_zero rem) then r1 else c, if negb (chunk_is_zero rem) then rem else chunk_zero,
      set_selector self (mkSelector (selector_variant s) (liquidity_quotations s) lk))) as E1.
  { unfold lk, s. destruct (negb _); [done|]. by destruct self as [? []]. }
  rewrite E1 in Hfit. clear E1.
  set (c1 := if negb (chunk_is_zero rem) then r1 else c) in *.
  set (refund1 := if negb (chunk_is_zero rem) then rem else chunk_zero) in *.
  assert (nonneg c1 ∧ nonneg refund1) as [Hc1 Hf1] by (unfold c1, refund1; destruct (negb _); auto).
  clearbody c1 refund1. apply result_bind_ok in Hfit as ([[c2 refund2] a2] & Hfa & Hfit).
  assert (nonneg c2 ∧ nonneg refund2 ∧ rounded (agg_variant self) c2 amount a2) as (Hc2 & Hf2 & Hro).
  { destruct (negb (chunk_is_zero c1)); [by apply fit_amount_bounds in Hfa|]. injection Hfa as <- <- <-.
    unfold rounded. auto. }
  exists refund2, lk. assert (lk = locked_sources s ∨ lk = bt_insert source tt (locked_sources s)) as Hlk.
  { unfold lk. destruct (negb _); auto. }
  clearbody lk. unfold refunded. destruct (chunk_is_zero refund2); simpl in Hfit; [by simplify_eq|].
  apply result_bind_ok in Hfit as (s2 & Hs2 & Hfit). unfold selector_push_chunk in Hs2.
  simpl in Hs2. rewrite Hq in Hs2. injection Hs2 as <-. by simplify_eq.
Qed.
End fit.

(** ** Clusters *)

(** The total of a cluster is the sum of its chunks, or the end of the type. *)
Definition full (cl : Cluster) : Prop :=
  ∀ v, field v (cluster_total cl) = Z.min u128_max (sum_by (field v) (cluster_chunks cl)).
(** After chunks were returned it is at most the sum. *)
Record loose (cl : Cluster) : Prop := {
  loose_chunks : Forall nonneg (cluster_chunks cl);
  loose_total v : 0 ≤ field v (cluster_total cl) ≤ Z.min u128_max (sum_by (field v) (cluster_chunks cl))
}.

Lemma sum_nonneg v cs : Forall nonneg cs → 0 ≤ sum_by (field v) cs.
Proof. intros Hcs. apply sum_by_nonneg. intros c Hc. rewrite Forall_forall in Hcs. by apply Hcs. Qed.

Lemma full_loose cl : Forall nonneg (cluster_chunks cl) → full cl → loose cl.
Proof. intros Hc Hf. split; [done|]. intros v. rewrite Hf. pose proof (sum_nonneg v _ Hc). unfold u128_max. lia. Qed.

Lemma push_full cl c : nonneg c → Forall nonneg (cluster_chunks cl) → full cl →
  full (cluster_push_back cl c) ∧ Forall nonneg (cluster_chunks (cluster_push_back cl c)).
Proof.
  intros Hc Hcs Hf. unfold cluster_push_back. split; simpl.
  - intros v. simpl. rewrite field_sat_add, Hf, sum_by_app. simpl. specialize (Hc v). unfold sat_add. lia.
  - apply Forall_app. split; [done|by apply Forall_singleton].
Qed.

Section return_chunks.
Context {LS : Type} `{LawfulOrd LS}.
Implicit Types (s : Selector LS) (source : LS).

(** Chunks are popped until nothing is left on the side of the amount; none is split. *)
Lemma return_chunks_bounds fuel s a source cl taken taken' s' cl' q :
  bt_get source (liquidity_quotations s) = Some q → Forall nonneg (cluster_chunks cl) →
  side_amount a = sum_by (field (side_variant a)) (cluster_chunks cl) →
  return_chunks fuel s a source cl taken = Ok (taken', s', cl') →
  ∃ popped, cluster_chunks cl = cluster_chunks cl' ++ popped ∧
    (∀ v, 0 ≤ field v taken ≤ u128_max →
       field v taken' = Z.min u128_max (field v taken + sum_by (field v) popped)) ∧
    (∀ v, 0 ≤ field v (cluster_total cl) →
       field v (cluster_total cl') = Z.max 0 (field v (cluster_total cl) - sum_by (field v) popped)) ∧
    s' = set_quotations s
      (bt_insert source (mkQuotation (popped ++ chunks q) (limits q)) (liquidity_quotations s)).
Proof.
  revert s a cl taken q. induction fuel as [|fuel IH]; intros s a cl taken q Hq Hcl Ha Hr.
  all: cbn [return_chunks] in Hr.
  all: destruct (negb (0 <? side_amount a)); [|try done].
  1, 2: injection Hr as <- <- <-; exists []; rewrite app_nil_r; split_and!; [done|intros v ?; simpl; lia..|];
    destruct q; simpl; rewrite bt_insert_id by done; by destruct s.
  destruct (cluster_pop_back cl) as [[c cl1]|] eqn:Hpop.
  2:{ injection Hr as <- <- <-; exists []; rewrite app_nil_r; split_and!; [done|intros v ?; simpl; lia..|];
    destruct q; simpl; rewrite bt_insert_id by done; by destruct s. }
  apply cluster_pop_back_spec in Hpop as [Hch Htot]. rewrite Hch in Hcl, Ha.
  apply Forall_app in Hcl as [Hcl Hc]. apply Forall_cons in Hc as [Hc _].
  rewrite sum_by_app in Ha. simpl in Ha. pose proof (sum_nonneg (side_variant a) _ Hcl) as Hs1.
  destruct (chunk_le c a) eqn:Hle.
  2:{ exfalso. unfold chunk_le in Hle. apply negb_false_iff, chunk_gt_spec in Hle. lia. }
  apply result_bind_ok in Hr as (value & Hv%result_ok_or_ok & Hr).
  apply checked_Some in Hv as [-> _]. rewrite same_type_field in Hr.
  apply result_bind_ok in Hr as (s1 & Hs & Hr). unfold selector_push_chunk in Hs.
  rewrite Hq in Hs. injection Hs as <-.
  apply (IH _ _ _ _ (mkQuotation (c :: chunks q) (limits q))) in Hr as (popped & Hp & Ht & Hto & ->).
  - exists (popped ++ [c]). assert (Forall nonneg popped) as Hpn.
    { rewrite Hp in Hcl. by apply Forall_app in Hcl as [_ ?]. }
    split_and!.
    + rewrite Hch, Hp. by rewrite (assoc_L (++)).
    + intros v Hv. specialize (Hc v). pose proof (sum_nonneg v _ Hpn).
      rewrite Ht, field_sat_add, sum_by_app; [simpl; unfold sat_add; lia|].
      rewrite field_sat_add. unfold sat_add. lia.
    + intros v Hv. specialize (Hc v). pose proof (sum_nonneg v _ Hpn).
      rewrite Hto, Htot, field_sat_sub, sum_by_app; [simpl; unfold sat_sub; lia|].
      rewrite Htot, field_sat_sub. unfold sat_sub. lia.
    + simpl. rewrite bt_insert_insert, <- (assoc_L (++)). done.
  - simpl. by rewrite bt_get_insert_eq.
  - done.
  - destruct a; simpl in *; lia.
Qed.
End return_chunks.

Lemma chunk_price_nonneg c price : nonneg c → chunk_price c = Some price → 0 ≤ price.
Proof.
  intros Hc. pose proof (Hc SwapVariant.WithDesiredInput) as Hi. pose proof (Hc SwapVariant.WithDesiredOutput) as Ho.
  unfold field in Hi, Ho. simpl in Hi, Ho. unfold chunk_price, FixedWrapper.div, FixedWrapper.lift2, FixedWrapper.zip.
  destruct (FixedWrapper.from_int (chunk_output c)) as [o|] eqn:Eo; [|done].
  destruct (FixedWrapper.from_int (chunk_input c)) as [i|] eqn:Ei; [|done]. simpl.
  apply Fixed.try_i128_ok in Eo as [-> _], Ei as [-> _].
  destruct (decide (chunk_input c = 0)) as [->|]; [done|]. rewrite Fixed.rdiv_floor_nonneg by lia.
  destruct (Fixed.try_i128 _) as [p|] eqn:E; [|done]. apply Fixed.try_i128_ok in E as [-> _].
  intros [= <-]. apply Z.div_pos; [|lia]. apply Z.mul_nonneg_nonneg; [done|]. unfold Fixed.COEF. lia.
Qed.

(** ** The aggregation *)

Section bounds.
Context {LS : Type} `{LawfulOrd LS} `{SlippageTolerance} (Htol : ∀ x, 0 ≤ slippage_tolerance x).
Context (known : LS → Prop).
Implicit Types (self : LiquidityAggregator LS) (source : LS) (queue : LS → Prop).

(** At most [n] sources, all [known]; the clusters of the sources in the [queue] and of those that are not
    locked are [full]. *)
Record run_ok (n : nat) queue self : Prop := {
  run_quotations_wf : bt_wf (quotations self);
  run_aggregation_wf : bt_wf (agg_aggregation self);
  run_length : (length (quotations self) ≤ n)%nat;
  run_queues source q : bt_get source (quotations self) = Some q →
    limits_typed (limits q) ∧ Forall nonneg (chunks q);
  run_sources source : is_Some (bt_get source (quotations self)) → known source;
  run_known source : is_Some (bt_get source (agg_aggregation self)) → is_Some (bt_get source (quotations self));
  run_loose source cl : bt_get source (agg_aggregation self) = Some cl → loose cl;
  run_full source cl : bt_get source (agg_aggregation self) = Some cl →
    is_locked (agg_selector self) source = false ∨ queue source → full cl
}.

Lemma replaced_ok n queue queue' self source q q' cl lk :
  run_ok n queue self → bt_get source (quotations self) = Some q →
  limits q' = limits q → Forall nonneg (chunks q') →
  lk = locked self ∨ lk = bt_insert source tt (locked self) →
  (∀ source', queue' source' → queue source') →
  (∀ cl', cl = Some cl' → loose cl' ∧ (bt_get source lk = None ∨ queue' source → full cl')) →
  run_ok n queue' (replaced self source q' cl lk).
Proof.
  intros [Hw1 Hw2 Hlen Hq Hsrc Hk Hl Hf] Hs Hlim Hch Hlk Hqueue Hcl. split.
  - by apply bt_wf_insert.
  - simpl. destruct cl; [by apply bt_wf_insert|done].
  - by rewrite (length_replaced _ _ q).
  - intros source' q1. unfold quotations. simpl. rewrite bt_get_insert.
    destruct (cmp source' source) eqn:E; [|by apply Hq..]. intros [= <-]. rewrite Hlim.
    split; [|done]. by apply (Hq _ _ Hs).
  - intros source'. unfold quotations. simpl. rewrite bt_get_insert.
    destruct (cmp source' source) eqn:E; [|by apply Hsrc..]. apply cmp_eq in E as ->. intros _. apply Hsrc. by eexists.
  - intros source'. unfold quotations. simpl. rewrite bt_get_insert.
    destruct (cmp source' source) eqn:E; [done|..]; intros Hs'; apply Hk;
      destruct cl; [by rewrite bt_get_insert, E in Hs'|done|by rewrite bt_get_insert, E in Hs'|done].
  - intros source' cl1. simpl. destruct cl as [cl|]; [|apply Hl]. rewrite bt_get_insert.
    destruct (cmp source' source) eqn:E; [|apply Hl..]. intros [= <-]. by apply Hcl.
  - intros source' cl1 Hcl1 Hlock. simpl in Hcl1. unfold is_locked in Hlock. simpl in Hlock.
    assert (∀ source1, bt_get source1 lk = None → bt_get source1 (locked self) = None) as Hsub.
    { intros source1. destruct Hlk as [->| ->]; [done|]. rewrite bt_get_insert. by destruct (cmp source1 source). }
    assert (bt_get source' lk = None ∨ queue' source') as Hlock'.
    { destruct Hlock as [E|]; [left; by destruct (bt_get source' lk)|by right]. }
    assert (bt_get source' (agg_aggregation self) = Some cl1 → full cl1) as Hold.
    { intros Hc. apply (Hf _ _ Hc). unfold is_locked. fold (locked self).
      destruct Hlock' as [E%Hsub|?]; [left; by rewrite E|right; auto]. }
    destruct cl as [cl|]; [|auto]. rewrite bt_get_insert in Hcl1. destruct (cmp source' source) eqn:E; [|auto..].
    apply cmp_eq in E as ->. injection Hcl1 as <-. by apply Hcl.
Qed.

(** What a step adds to the selected amount: all of the chunk, up to the end of the type. *)
Lemma pushed_selected n queue v self source q c' lk : run_ok n queue self → nonneg c' →
  is_locked (agg_selector self) source = false →
  let self2 := replaced self source q (pushed_cluster self source c') lk in
  (∀ cl, pushed_cluster self source c' = Some cl → loose cl ∧ full cl) ∧
  Z.min u128_max (selected v self + field v c') ≤ selected v self2 ≤ selected v self + field v c'.
Proof.
  intros Hok Hc Hun self2. pose proof Hok as [_ Hw _ _ _ _ Hl Hf].
  set (old := default cluster_new (bt_get source (agg_aggregation self))).
  assert (loose old ∧ full old ∧ cluster_total old = get_total (agg_aggregation self) source) as (Hlo & Hfo & Eo).
  { unfold old, get_total. destruct (bt_get source (agg_aggregation self)) as [cl|] eqn:E; simpl.
    - split; [by eauto|]. split; [|done]. apply (Hf _ _ E). by left.
    - split; [|by split; [intros []|]]. apply full_loose; [constructor|by intros []]. }
  destruct (push_full old c' Hc (loose_chunks _ Hlo) Hfo) as [Hfp Hnp].
  assert (∀ cl, pushed_cluster self source c' = Some cl → loose cl ∧ full cl) as Hpc.
  { unfold pushed_cluster. destruct (chunk_is_zero c'); [done|]. intros cl [= <-]. fold old. split; [|done].
    by apply full_loose. }
  split; [done|]. unfold self2. rewrite selected_replaced. unfold new_total, pushed_cluster. fold old.
  destruct (chunk_is_zero c') eqn:Ez; [rewrite (is_zero_field c') by done; lia|].
  simpl. rewrite Eo, field_sat_add. specialize (Hc v).
  assert (field v (get_total (agg_aggregation self) source) ≤ selected v self) as Hle.
  { unfold selected. pose proof (bt_sum_remove (λ cl, field v (cluster_total cl)) source (agg_aggregation self)) as Hr.
    assert (0 ≤ bt_sum (λ cl, field v (cluster_total cl)) (bt_remove source (agg_aggregation self))) as Hp.
    { apply bt_sum_nonneg; [by apply bt_wf_remove|]. intros k cl Hk. rewrite bt_get_remove in Hk by done.
      apply (loose_total cl). apply (Hl k). by destruct (cmp k source). }
    unfold get_total. destruct (bt_get source (agg_aggregation self)); [lia|]. rewrite field_zero. lia. }
  unfold sat_add. lia.
Qed.

(** One iteration. *)
Lemma step_bounds n queue self amount source chunk s c' amount' self1 :
  run_ok n queue self → 0 < amount →
  select_chunk (agg_selector self) amount (agg_aggregation self) = Ok (source, chunk, s) →
  fit_chunk (set_selector self s) chunk source amount = Ok (c', amount', self1) →
  let v := agg_variant self in
  let self2 := if chunk_is_zero c' then self1
               else set_aggregation self1 (push_aggregated (agg_aggregation self1) source c') in
  agg_variant self1 = v ∧ origin_amount self1 = origin_amount self ∧ run_ok n queue self2 ∧
  locked_kept self self2 ∧ rounded v c' amount amount' ∧
  Z.min u128_max (selected v self + field v c') ≤ selected v self2 ≤ selected v self + field v c'.
Proof.
  intros Hok Ham Hsel Hfit v. apply select_chunk_spec in Hsel
    as (q & rest & price & step & Hq & Hch & Hlk & _ & _ & _ & -> & _); [|apply Hok|].
  2:{ intros source1 front price step (q & rest & Hin & _ & Hch & Hp & _). apply bt_elem_get in Hin; [|apply Hok].
      destruct (run_queues _ _ _ Hok _ _ Hin) as [_ Hn]. rewrite Hch in Hn. apply Forall_cons in Hn as [Hn _].
      by eapply chunk_price_nonneg. }
  fold (quotations self) in *. destruct (run_queues _ _ _ Hok _ _ Hq) as [Hl Hn].
  rewrite Hch in Hn. apply Forall_cons in Hn as [Hc Hn].
  eapply fit_chunk_bounds in Hfit as (refund & lk & Hc' & Hrf & Hro & Hlk' & ->); simpl;
    [|by rewrite bt_get_insert_eq|done..].
  simpl in Hro, Hlk'. fold (locked self) in Hlk'. split; [done|]. split; [done|].
  match goal with |- run_ok _ _ ?x ∧ _ => assert (x =
    replaced self source (mkQuotation (requeued refund rest) (limits q)) (pushed_cluster self source c') lk) as -> end.
  { unfold replaced, refunded, requeued, pushed_cluster, push_aggregated, bt_modify_or_insert,
      set_aggregation, set_selector, quotations, set_quotations. simpl.
    destruct (chunk_is_zero refund), (chunk_is_zero c'); simpl; rewrite ?bt_insert_insert; try done;
      f_equal; by destruct (bt_get source (agg_aggregation self)). }
  destruct (pushed_selected n queue v self source (mkQuotation (requeued refund rest) (limits q)) c' lk Hok Hc' Hlk)
    as [Hpc Hsel].
  split; [|split; [by apply locked_kept_replaced|done]].
  eapply replaced_ok; [exact Hok|exact Hq|done|by apply requeued_Forall|done|done|].
  intros cl Hcl. by destruct (Hpc cl Hcl).
Qed.

(** [y] was selected of [x]. *)
Definition near (v : SwapVariant.t) (tolerance x y : Z) : Prop :=
  match v with
  | SwapVariant.WithDesiredInput => Z.min u128_max x - tolerance ≤ y ≤ x
  | SwapVariant.WithDesiredOutput => Z.min u128_max x ≤ y ≤ x + tolerance
  end.

Lemma near_refl v x : near v 0 x x.
Proof. destruct v; simpl; lia. Qed.
Lemma near_mono v t t' x y : t ≤ t' → near v t x y → near v t' x y.
Proof. destruct v; simpl; lia. Qed.
Lemma near_trans v t t' x y z : 0 ≤ t → near v t x y → near v t' y z → near v (t + t') x z.
Proof. destruct v; simpl; lia. Qed.
Lemma near_step v t x y c rest z :
  0 ≤ t → 0 ≤ rest → Z.min u128_max (x + c) ≤ y ≤ x + c → near v t (y + rest) z → near v t (x + (c + rest)) z.
Proof. destruct v; simpl; lia. Qed.

Lemma aggregate_amount_bounds n queue fuel amount self self' :
  run_ok n queue self → 0 ≤ amount → aggregate_amount fuel amount self = Ok self' →
  let v := agg_variant self in
  agg_variant self' = v ∧ origin_amount self' = origin_amount self ∧ run_ok n queue self' ∧ locked_kept self self' ∧
  near v (slippage_tolerance (origin_amount self)) (selected v self + amount) (selected v self').
Proof.
  revert amount self. induction fuel as [|fuel IH]; intros amount self Hok Hamt Hr v;
    cbn [aggregate_amount] in Hr; (destruct (Z.ltb_spec 0 amount) as [Hpos|Hz]; simpl negb in Hr; cbv iota in Hr);
    try done.
  1, 3: injection Hr as <-; split_and!; [done|done|done|apply locked_kept_refl|]; replace amount with 0 by lia;
    rewrite Z.add_0_r; (eapply near_mono; [apply Htol|apply near_refl]).
  apply result_bind_ok in Hr as ([[source chunk] s] & Hsel & Hr).
  apply result_bind_ok in Hr as ([[c' amount'] self1] & Hfit & Hr).
  destruct (step_bounds n queue self amount source chunk s c' amount' self1 Hok Hpos Hsel Hfit)
    as (Hv & Ho & Hok2 & Hlk2 & Hro & Hs2). fold v in Hv, Hro, Hs2. rewrite Ho in Hr.
  set (self2 := if chunk_is_zero c' then self1 else set_aggregation self1 _) in *. pose proof (Htol (origin_amount self)) as Ht.
  assert (agg_variant self2 = v ∧ origin_amount self2 = origin_amount self) as [Hv2 Ho2]
    by (unfold self2; by destruct (chunk_is_zero c')).
  assert (∀ rest, 0 ≤ rest → amount = field v c' + rest → aggregate_amount fuel rest self2 = Ok self' →
    agg_variant self' = v ∧ origin_amount self' = origin_amount self ∧ run_ok n queue self' ∧ locked_kept self self' ∧
    near v (slippage_tolerance (origin_amount self)) (selected v self + amount) (selected v self')) as Hrest.
  { intros rest Hr0 -> Hr2. apply IH in Hr2 as (Ev & Eo & Hok' & Hlk' & Hn); [|done|done].
    rewrite Hv2, Ho2 in *. split_and!; [congruence|congruence|done|by eapply locked_kept_trans|].
    eapply near_step; [done|done|exact Hs2|exact Hn]. }
  destruct Hro as [->|Hro].
  - rewrite Z.eqb_refl in Hr. simpl in Hr. unfold self2 in Hrest. destruct (chunk_is_zero c') eqn:Ez.
    + apply (Hrest amount); [lia| |done]. rewrite is_zero_field by done. lia.
    + apply result_bind_ok in Hr as (rest & [-> Hr0]%result_ok_or_ok%checked_Some & Hr). rewrite Hv in Hr, Hr0.
      fold (field v c') in Hr, Hr0. apply (Hrest (amount - field v c')); [lia|lia|exact Hr].
  - assert (Z.abs (amount - amount') ≤ slippage_tolerance (origin_amount self) ∧ amount' ≠ amount) as [Hd Hne].
    { assert (amount' ≠ amount) as Hne by (destruct v; destruct Hro; lia).
      rewrite (proj2 (Z.eqb_neq _ _) Hne) in Hr. simpl in Hr. destruct (Z.ltb_spec (slippage_tolerance (origin_amount self))
        (Z.abs (amount - amount'))); [done|]. done. }
    rewrite (proj2 (Z.eqb_neq _ _) Hne) in Hr.
    rewrite (proj2 (Z.ltb_ge _ _) Hd) in Hr. simpl in Hr. destruct v eqn:Ev.
    + destruct Hro as [-> Ez]. simpl in Hr. injection Hr as <-. unfold self2 in *. rewrite Ez in *.
      rewrite is_zero_field in Hs2 by done. split_and!; [congruence|done|done|done|]. simpl. lia.
    + destruct Hro as [Hlt Hf]. replace (amount' =? 0) with false in Hr by lia. unfold self2 in *.
      destruct (chunk_is_zero c') eqn:Ez; [rewrite is_zero_field in Hf by done; lia|].
      apply result_bind_ok in Hr as (rest & [-> _]%result_ok_or_ok%checked_Some & Hr). rewrite Hv in Hr.
      fold (field SwapVariant.WithDesiredOutput c') in Hr. rewrite Hf, Z.sub_diag in Hr. rewrite Hf in Hs2.
      destruct fuel; simpl in Hr; injection Hr as <-; (split_and!; [congruence|done|done|done|]); simpl; simpl in Hs2; lia.
Qed.

(** ** Sources below their minimum *)

Lemma run_ok_sub n queue queue' self : (∀ source, queue' source → queue source) →
  run_ok n queue self → run_ok n queue' self.
Proof. intros Hsub [? ? ? ? ? ? ? Hf]. split; try done. intros source cl Hcl Hlk. apply (Hf _ _ Hcl). naive_solver. Qed.

(** All of a cluster on one side is returned; on the other side the taken amount and what is
    left add up to the total. *)
Lemma return_bounds n queue self source cl m taken delete s cl' :
  run_ok n queue self → bt_get source (agg_aggregation self) = Some cl → queue source →
  field (side_variant m) (cluster_total cl) < u128_max →
  return_liquidity (agg_selector self) (get_same_type_amount (cluster_total cl) m) source cl
    = Ok (taken, delete, s, cl') →
  let self' := set_aggregation (set_selector self (lock_source s source))
                 (bt_insert source cl' (agg_aggregation self)) in
  run_ok n (λ source', queue source' ∧ source' ≠ source) self' ∧
  (∀ v, 0 ≤ field v taken ∧ selected v self' + field v taken = selected v self) ∧
  (delete = true → emptied self' source) ∧ (∀ d, d ≠ source → emptied self d → emptied self' d).
Proof.
  intros Hok Hcl Hqueue Hlt Hr. unfold return_liquidity in Hr.
  apply result_bind_ok in Hr as ([[taken1 s1] cl1] & Hr & E). injection E as -> <- -> ->.
  assert (is_Some (bt_get source (quotations self))) as [q Hq] by (apply (run_known _ _ _ Hok); by eexists).
  pose proof (run_loose _ _ _ Hok _ _ Hcl) as [Hn Ht0]. pose proof (run_full _ _ _ Hok _ _ Hcl (or_intror Hqueue)) as Hf.
  assert (side_amount (get_same_type_amount (cluster_total cl) m)
    = sum_by (field (side_variant (get_same_type_amount (cluster_total cl) m))) (cluster_chunks cl)) as Ha.
  { rewrite same_type_field, Hf. rewrite Hf in Hlt. destruct m; simpl in *; lia. }
  destruct (return_chunks_bounds _ _ _ _ _ _ _ _ _ q Hq Hn Ha Hr) as (popped & Hch & Htk & Htot & ->).
  rewrite Hch in Hn. apply Forall_app in Hn as [Hn' Hpn]. 
  assert (∀ v, sum_by (field v) (cluster_chunks cl)
    = sum_by (field v) (cluster_chunks cl') + sum_by (field v) popped) as Hsum by (intros v; by rewrite Hch, sum_by_app).
  assert (∀ v, field v taken = Z.min u128_max (sum_by (field v) popped)) as Htk'.
  { intros v. rewrite Htk; rewrite field_zero; [done|]. split; [done|]. unfold u128_max. lia. }
  assert (∀ v, field v (cluster_total cl') = Z.max 0 (field v (cluster_total cl) - sum_by (field v) popped)) as Htot'.
  { intros v. apply Htot. apply Ht0. }
  assert (loose cl') as Hl'.
  { split; [done|]. intros v. rewrite Htot', Hf, Hsum. pose proof (sum_nonneg v _ Hn'). pose proof (sum_nonneg v _ Hpn).
    unfold u128_max. lia. }
  destruct (run_queues _ _ _ Hok _ _ Hq) as [_ Hqn].
  intros self'. assert (self' = replaced self source (mkQuotation (popped ++ chunks q) (limits q)) (Some cl')
    (bt_insert source tt (locked self))) as E by done. clearbody self'. subst self'.
  split_and!.
  - eapply replaced_ok; [exact Hok|exact Hq|done|by apply Forall_app|by right|by intros ? [? _]|].
    intros cl1 [= <-]. split; [done|]. rewrite bt_get_insert_eq. intros [?|[_ ?]]; done.
  - intros v. rewrite selected_replaced. unfold new_total, get_total. rewrite Hcl, Htk', Htot', Hf, Hsum.
    pose proof (sum_nonneg v _ Hn'). pose proof (sum_nonneg v _ Hpn). unfold u128_max. lia.
  - intros Hd. split; [unfold is_locked; simpl; by rewrite bt_get_insert_eq|]. exists cl'. simpl.
    rewrite bt_get_insert_eq. split; [done|]. unfold cluster_is_empty in Hd. by case_match.
  - intros d Hne [Hlk (cl0 & H0' & E0)]. assert (cmp d source ≠ Eq) by (by intros ?%cmp_eq).
    unfold emptied, is_locked in *. simpl. unfold locked. rewrite !bt_get_insert_ne by done. eauto.
Qed.

Lemma align_queue_bounds n fuel (queue : list LS) to_delete self to_delete' self' :
  run_ok n (λ s, s ∈ queue) self → NoDup queue → (∀ d, d ∈ to_delete → (d ∉ queue) ∧ emptied self d) →
  align_queue fuel queue to_delete self = Ok (to_delete', self') →
  let v := agg_variant self in
  agg_variant self' = v ∧ run_ok n (λ s, False) self' ∧ (∀ d, d ∈ to_delete' → emptied self' d) ∧
  near v (Z.of_nat (length queue) * slippage_tolerance (origin_amount self)) (selected v self) (selected v self').
Proof.
  revert to_delete self. induction queue as [|source queue IH]; intros to_delete self Hok Hnd Hdel Hr v.
  { injection Hr as <- <-. split_and!; [done| |by intros d Hd; destruct (Hdel d Hd)|apply near_refl].
    by eapply run_ok_sub; [|exact Hok]. }
  apply NoDup_cons in Hnd as [Hnin Hnd].
  cbn [align_queue] in Hr. apply result_bind_ok in Hr as (cl & Hcl%result_ok_or_ok & Hr).
  apply result_bind_ok in Hr as (l & Hl & Hr).
  pose proof (align_min_remainder l (cluster_total cl)) as Hrem.
  destruct (align_chunk_min l (cluster_total cl)) as [c1 rem]. simpl in Hrem.
  pose proof (Htol (origin_amount self)) as Ht.
  assert (Z.of_nat (length (source :: queue)) * slippage_tolerance (origin_amount self)
    = slippage_tolerance (origin_amount self) + Z.of_nat (length queue) * slippage_tolerance (origin_amount self))
    as -> by (simpl length; lia).
  destruct (negb (chunk_is_zero rem)) eqn:Ez.
  - destruct Hrem as [Hz|(-> & m & Hm & Hlt)]; [by rewrite Hz in Ez|].
    assert (field (side_variant m) (cluster_total cl) < u128_max) as Hlt'.
    { unfold get_limits in Hl. apply result_bind_ok in Hl as (q & Hq%result_ok_or_ok & [= <-]).
      destruct (run_queues _ _ _ Hok _ _ Hq) as [Hlt' _]. destruct (typed_min _ Hlt' _ Hm). lia. }
    rewrite Hm in Hr. simpl in Hr.
    apply result_bind_ok in Hr as ([[[taken delete] s] cl'] & Hret & Hr).
    apply result_bind_ok in Hr as (self1 & Hagg & Hr). cbv zeta in Hagg.
    eapply return_bounds in Hret as (Hok1 & Hsel1 & Hdel1 & Hoth); [|exact Hok|exact Hcl|left|exact Hlt'].
    destruct (Hsel1 v) as [Htk Hs1].
    eapply aggregate_amount_bounds in Hagg as (Hv2 & Ho2 & Hok2 & Hlk2 & Hn2); [|exact Hok1|apply Htk].
    simpl in Hv2, Ho2, Hn2. fold v in Hv2, Hn2. fold (field v taken) in Hn2. rewrite Hs1 in Hn2.
    apply IH in Hr as (Hv3 & Hok3 & Hdel3 & Hn3).
    + rewrite Hv2, Ho2 in *. split_and!; [done|done|done|]. eapply near_trans; [done|exact Hn2|exact Hn3].
    + eapply run_ok_sub; [|exact Hok2]. set_solver.
    + done.
    + intros d Hd. assert (d = source ∧ delete = true ∨ d ∈ to_delete) as [[-> E]|Hin].
      { destruct delete; [|by right]. apply elem_of_app in Hd as [|Hd]; [by right|].
        apply list_elem_of_singleton in Hd. by left. }
      * split; [done|]. eapply emptied_kept; [exact Hlk2|auto].
      * destruct (Hdel d Hin) as [Hnq He]. split; [set_solver|]. eapply emptied_kept; [exact Hlk2|].
        apply Hoth; [set_solver|done].
  - apply IH in Hr as (Hv2 & Hok2 & Hdel2 & Hn2).
    + split_and!; [done|done|done|]. eapply near_trans; [done| |exact Hn2].
      eapply near_mono; [exact Ht|apply near_refl].
    + eapply run_ok_sub; [|exact Hok]. set_solver.
    + done.
    + intros d Hd. destruct (Hdel d Hd). split; [set_solver|done].
Qed.
End bounds.

(** ** The split *)

Section split.
Context {LS : Type} `{LawfulOrd LS} `{SlippageTolerance} (Htol : ∀ x, 0 ≤ slippage_tolerance x).
Implicit Types (sources : list (LS * DiscreteQuotation)).

Lemma started_ok variant sources amount : Forall (λ p, quotation_typed (snd p)) sources →
  run_ok (λ s, s ∈ sources.*1) (length sources) (λ _, True) (started variant sources amount).
Proof.
  intros Hall. destruct (sourced_spec variant sources) as (_ & _ & _ & _ & Hwf & Hin & Hlen).
  split; simpl; [done|constructor|done| | |by intros source [? ?]|done|done].
  - intros source q Hq%Hin. rewrite Forall_forall in Hall. destruct (Hall _ Hq) as [Hl Hc]. split; [done|].
    eapply Forall_impl; [exact Hc|]. intros c [[? _] [? _]] []; done.
  - intros source [q Hq%Hin]. apply list_elem_of_fmap. by exists (source, q).
Qed.

Lemma aggregate_liquidity_bounds fuel variant sources amount r :
  Forall (λ p, quotation_typed (snd p)) sources → 0 ≤ amount ≤ u128_max →
  aggregate_liquidity fuel (sourced variant sources) amount = Ok r →
  ∃ a : Aggregation LS, distribution r = part_of_result variant <$> a ∧
    (∀ p, p ∈ a → fst p ∈ sources.*1 ∧ ∀ v, is_u128 (field v (cluster_total (snd p)))) ∧
    result_amount r = bt_sum (λ cl, field (other variant) (cluster_total cl)) a ∧
    near variant (Z.of_nat (S (length sources)) * slippage_tolerance amount) amount
      (bt_sum (λ cl, field variant (cluster_total cl)) a).
Proof.
  intros Hall Hamt Hr. destruct (sourced_spec variant sources) as (Hv & _ & Ha & _).
  unfold aggregate_liquidity in Hr. cbv zeta in Hr. rewrite Hv, Ha in Hr.
  fold (started variant sources amount) in Hr. destruct (selector_is_empty _); [done|].
  apply result_bind_ok in Hr as (self1 & Hagg & Hr).
  apply (aggregate_amount_bounds Htol (λ s, s ∈ sources.*1) (length sources) (λ _, True)) in Hagg as (Hv1 & Ho1 & Hok1 & _ & Hn1);
    [|by apply started_ok|lia].
  simpl in Hv1, Ho1, Hn1. apply result_bind_ok in Hr as (self2 & Hmin & Hr). unfold align_min in Hmin. cbv zeta in Hmin.
  apply result_bind_ok in Hmin as ([to_delete self3] & Hqueue & Hmin). injection Hmin as <-.
  apply (align_queue_bounds Htol (λ s, s ∈ sources.*1) (length sources)) in Hqueue as (Hv3 & Hok3 & Hdel & Hn3);
    [|by eapply run_ok_sub; [|exact Hok1]|apply price_queue_NoDup, Hok1|by intros d ?%elem_of_nil].
  rewrite Hv1, Ho1 in *.
  unfold calculate_result in Hr. apply sum_clusters_spec in Hr as (_ & Hres & Hdist). simpl in Hres, Hdist.
  rewrite Hv3 in *. set (a := filter (λ p, is_listed to_delete (fst p) = false) (agg_aggregation self3)) in *.
  assert (∀ source cl, (source, cl) ∈ agg_aggregation self3 → loose cl) as Hloose.
  { intros source cl Hin%bt_elem_get; [by eapply (run_loose _ _ _ _ Hok3)|apply Hok3]. }
  exists a. split_and!; [done| |lia|].
  - intros [source cl] [_ Hin]%list_elem_of_filter. split.
    + apply (run_sources _ _ _ _ Hok3), (run_known _ _ _ _ Hok3). apply bt_elem_get in Hin; [by eexists|apply Hok3].
    + intros v. destruct (loose_total _ (Hloose _ _ Hin) v). simpl. unfold is_u128. lia.
  - assert (bt_sum (λ cl, field variant (cluster_total cl)) a = selected variant self3) as ->.
    { unfold a, selected. apply bt_sum_filter. intros [source cl] Hin Hlist. simpl in *.
      apply not_false_is_true, is_listed_spec, Hdel in Hlist as [_ (cl' & Hcl & E)].
      pose proof (loose_total _ (Hloose _ _ Hin) variant) as Hz. apply bt_elem_get in Hin; [|apply Hok3].
      rewrite Hin in Hcl. injection Hcl as <-. rewrite E in Hz. simpl in Hz. lia. }
    pose proof (Htol amount) as Ht. eapply near_mono; [|eapply near_trans; [exact Ht|exact Hn1|exact Hn3]].
    pose proof (queue_length (agg_aggregation self1)) as Hql.
    assert ((length (agg_aggregation self1) ≤ length (quotations self1))%nat) as Hal.
    { apply Nat2Z.inj_le. rewrite <- !bt_sum_one. apply bt_sum_le; [apply Hok1|apply Hok1|lia|].
      intros source cl E. destruct (run_known _ _ _ _ Hok1 source) as [q Hq]; [by eexists|]. by exists q. }
    pose proof (run_length _ _ _ _ Hok1). nia.
Qed.
End split.

Section smart_split.
Context {LS Reward : Type} `{LawfulOrd LS} `{SlippageTolerance} `{PriceEpsilon} {LR : LiquidityRegistry LS Reward}.
Context (Htol : ∀ x, 0 ≤ slippage_tolerance x)
  (Htyped : ∀ source input output amount deduce_fee q, is_u128 (quote_amount amount) →
     registry_step_quote source input output amount deduce_fee = Ok q → quotation_typed q).
Implicit Types (source : LS) (sources : list LS).

Lemma smart_split_bounds fuel sources base input output amount skip deduce_fee outcome rewards :
  is_u128 (quote_amount amount) →
  new_smart_split fuel sources base input output amount skip deduce_fee = Ok (outcome, rewards) →
  (∀ p, p ∈ outcome_distribution outcome → fst p ∈ sources ∧ swap_variant (snd p) = quote_variant amount ∧
     is_u128 (swap_amount (snd p)) ∧ is_u128 (swap_limit (snd p))) ∧
  aggregated_outcome_amount outcome = sum_by (λ p, swap_limit (snd p)) (outcome_distribution outcome) ∧
  near (quote_variant amount) (Z.of_nat (S (length sources)) * slippage_tolerance (quote_amount amount))
    (quote_amount amount) (sum_by (λ p, swap_amount (snd p)) (outcome_distribution outcome)).
Proof.
  intros Hamt Hr. apply new_smart_split_run in Hr as (quotes & r & Hlen & Hsrc & Hall & Hagg & ->).
  apply (aggregate_liquidity_bounds Htol) in Hagg as (a & Hdist & Hp & Hres & Hn); [| |done].
  2:{ apply Forall_forall. intros p Hin. destruct (Hall p Hin) as [Hq _]. by eapply Htyped. }
  simpl. rewrite Hdist. split_and!.
  - intros p ([s cl] & -> & Hin)%list_elem_of_fmap. simpl.
    destruct (Hp _ Hin) as [([s' q] & E & Hin')%list_elem_of_fmap Hu]. simpl in E. subst s'.
    pose proof (Hu (quote_variant amount)). pose proof (Hu (other (quote_variant amount))).
    split; [by apply (Hsrc (s, q))|]. by destruct amount.
  - by rewrite (sum_distribution swap_limit (field (other (quote_variant amount)))) by by destruct amount.
  - rewrite (sum_distribution swap_amount (field (quote_variant amount))) by by destruct amount.
    eapply near_mono; [|exact Hn]. apply Z.mul_le_mono_nonneg_r; [apply Htol|lia].
Qed.

(** C15. The parts of a split add up to the requested amount, whatever the sources quote: an input is
    never exceeded and an output never missed.  Rounding loses at most the tolerated slippage
    for every aggregation that is made, one and one more for every source below its minimum.
    The amount of the outcome is the sum of the other sides of the parts. *)
Theorem smart_split_amount fuel sources base input output amount skip deduce_fee outcome rewards :
  0 ≤ quote_amount amount ≤ u128_max →
  new_smart_split fuel sources base input output amount skip deduce_fee = Ok (outcome, rewards) →
  let desired := sum_by (λ p, swap_amount (snd p)) (outcome_distribution outcome) in
  let slack := Z.of_nat (S (length sources)) * slippage_tolerance (quote_amount amount) in
  match amount with
  | WithDesiredInput x => x - slack ≤ desired ≤ x
  | WithDesiredOutput x => x ≤ desired ≤ x + slack
  end ∧
  aggregated_outcome_amount outcome
  = sum_by (λ p, swap_limit (snd p)) (outcome_distribution outcome).
Proof.
  intros Hamt Hr. apply smart_split_bounds in Hr as (_ & Hres & Hn); [|done].
  split; [|done]. destruct amount; simpl in *; lia.
Qed.
End smart_split.
