(* ===== verification/SplitSamples.v ===== *)
(** * Sample splits

    Three sources as in the tests of the aggregator, the witnesses of the theorems
    of [SmartSplit], and two runs in which the aggregator does not do what its
    documentation says. *)

From S2P Require Import Prelude BTreeMap FixedPoint Units OrderTypes SwapTypes Chunks Aggregator.
From S2P Require Import ChunkFitting Selection AggregatorInv Aggregated SmartSplit SplitBounds.

Module SplitSamples.

Definition unit_ : Balance := 1000000000000000000.
Definition chunk (input output : Z) : SwapChunk := mkChunk (input * unit_) (output * unit_) [].
Definition input (x : Z) : SideAmount := Input (x * unit_).

(** 0.1 percent. *)
Definition tolerance : SlippageTolerance := λ x, Z.max 0 (x / 1000).
#[export] Existing Instance tolerance.
Definition epsilon : PriceEpsilon := λ x, x / 1000.
#[export] Existing Instance epsilon.

Definition book : DiscreteQuotation :=
  mkQuotation [chunk 10 120; chunk 10 100] (mkLimits (Some (input 1)) (Some (input 15)) (Some (input 5))).
Definition pool : DiscreteQuotation :=
  mkQuotation [chunk 10 100; chunk 10 90] (mkLimits None None None).
Definition synthetic : DiscreteQuotation :=
  mkQuotation [chunk 10 85; chunk 10 85] (mkLimits None (Some (input 1000)) None).

Definition registry : LiquidityRegistry N unit := {|
  registry_step_quote source _ _ _ _ :=
    match source with
    | 0%N => Ok book
    | 1%N => Ok pool
    | 2%N => Ok synthetic
    | _ => Err Panicked
    end;
  registry_check_rewards _ _ _ _ _ := Ok []
|}.
#[export] Existing Instance registry.

Lemma tolerance_nonneg x : 0 ≤ slippage_tolerance x.
Proof. unfold slippage_tolerance, tolerance. lia. Qed.

Ltac quotation :=
  split;
  [ split; simpl; intros; simplify_eq; vm_compute; first [done | (split; [done|by exists 3])]
  | repeat constructor; vm_compute; done
  | intros []; vm_compute; done ].

Lemma book_sized : well_sized book.
Proof. quotation. Qed.
Lemma pool_sized : well_sized pool.
Proof. quotation. Qed.
Lemma synthetic_sized : well_sized synthetic.
Proof. quotation. Qed.

Lemma registry_sized (source : N) input output amount deduce_fee q :
  registry_step_quote source input output amount deduce_fee = Ok q → well_sized q.
Proof.
  simpl. destruct source as [|[[]|[]|]]; intros [= <-];
    auto using book_sized, pool_sized, synthetic_sized.
Qed.

Ltac typed :=
  split; [split; simpl; intros; simplify_eq; by vm_compute|repeat constructor; vm_compute; done].
Lemma registry_typed (source : N) input output amount deduce_fee q : is_u128 (quote_amount amount) →
  registry_step_quote source input output amount deduce_fee = Ok q → quotation_typed q.
Proof. simpl. intros _. destruct source as [|[[]|[]|]]; intros [= <-]; typed. Qed.

Definition split_outcome : AggregatedSwapOutcome N :=
  mkAggregatedOutcome
    [(0%N, SwapWithDesiredInput (15 * unit_) (170 * unit_));
     (1%N, SwapWithDesiredInput (20 * unit_) (190 * unit_));
     (2%N, SwapWithDesiredInput (2 * unit_) (17 * unit_))] (377 * unit_) [].

Lemma split_run :
  new_smart_split 20 [0; 1; 2]%N 0%N 0%N 1%N (WithDesiredInput (37 * unit_)) false false
  = Ok (split_outcome, []).
Proof. vm_compute. reflexivity. Qed.

Definition selector : Selector N := agg_selector (sourced SwapVariant.WithDesiredInput
  [(0%N, book); (1%N, pool); (2%N, synthetic)]).

Lemma selector_scalable p : p ∈ liquidity_quotations selector → Forall scalable (chunks (snd p)).
Proof.
  change (liquidity_quotations selector) with [(0%N, book); (1%N, pool); (2%N, synthetic)].
  rewrite !elem_of_cons, elem_of_nil. intros [->|[->|[->|[]]]];
    [apply book_sized|apply pool_sized|apply synthetic_sized].
Qed.

(** *** A minimum that is not respected

    The cheapest source is below its minimum and its liquidity is aggregated anew.
    The source that replaces it was not selected before, is not in the queue of
    [align_min], and is used below its own minimum. *)

Definition min10 : SwapLimits := mkLimits (Some (input 10)) None None.
Definition below_minimum : list (N * DiscreteQuotation) :=
  [(0%N, mkQuotation [chunk 5 15] min10);
   (1%N, mkQuotation [chunk 10 20] (mkLimits None None None));
   (2%N, mkQuotation [chunk 20 20] min10)].

(** *** The best price is not selected among delayed sources *)

Definition coarse (price : Z) : DiscreteQuotation :=
  mkQuotation [chunk 10 (10 * price)] (mkLimits None None (Some (input 10))).
Definition delayed_selector : Selector N := agg_selector (sourced SwapVariant.WithDesiredInput
  [(0%N, coarse 3); (1%N, coarse 2)]).

(** *** The other approach of [proportional_input] *)

Definition large : SwapChunk := mkChunk (3 * 10 ^ 28) (10 ^ 29) [].

End SplitSamples.

Import SplitSamples.

(** The aggregated liquidity may use a source below its minimum: here five units of
    a source that swaps ten at least. *)
Example min_limit_missed :
  ∃ r, aggregate_liquidity 20 (sourced SwapVariant.WithDesiredInput below_minimum) (15 * unit_) = Ok r ∧
    (2%N, SwapWithDesiredInput (5 * unit_) (5 * unit_)) ∈ distribution r ∧
    (2%N, mkQuotation [chunk 20 20] min10) ∈ below_minimum ∧ min_amount min10 = Some (input 10).
Proof.
  eexists. split; [vm_compute; reflexivity|]. split_and!; [|set_solver|done].
  vm_compute. right. left.
Qed.

(** When the amount is below the precision step of every source, the last one is
    selected although the first has the better price. *)
Example delayed_worse_price :
  chunk_price (chunk 10 20) = Some (2 * unit_) ∧ chunk_price (chunk 10 30) = Some (3 * unit_) ∧
  fst <$> (match select_chunk delayed_selector (5 * unit_) [] with Ok p => Some p | Err _ => None end)
  = Some (1%N, chunk 10 20).
Proof. by vm_compute. Qed.

(** The approach used on overflow gives another result: the whole output of the
    chunk costs more than the input of the chunk. *)
Example proportional_input_exceeds :
  proportional_input large (chunk_output large) = Some (chunk_input large + 3 * 10 ^ 9).
Proof. by vm_compute. Qed.

(** A precision step that rounds to zero makes [verify] panic. *)
Example verify_panics :
  verify (mkQuotation [mkChunk unit_ 1 []] (mkLimits None None (Some (Input 1)))) = Err Panicked.
Proof. by vm_compute. Qed.

(** ** Witnesses *)

Lemma amount_range : 0 ≤ quote_amount (WithDesiredInput (37 * unit_)) ≤ u128_max.
Proof. vm_compute. split; discriminate. Qed.

Lemma smart_split_amount_witness :
  37 * unit_ - 4 * slippage_tolerance (37 * unit_)
  ≤ sum_by (λ p, swap_amount (snd p)) (outcome_distribution split_outcome) ≤ 37 * unit_.
Proof.
  exact (proj1 (smart_split_amount tolerance_nonneg registry_typed 20 [0; 1; 2]%N 0%N 0%N 1%N
    (WithDesiredInput (37 * unit_)) false false split_outcome [] amount_range split_run)).
Defined.



Lemma selector_wf : bt_wf (liquidity_quotations selector).
Proof. vm_compute. repeat constructor. Qed.

Lemma select_chunk_best_witness :
  ∃ price step, offered selector (liquidity_quotations selector) 0%N (chunk 10 120) price step ∧
    ∀ source1 front1 price1 step1,
      offered selector (liquidity_quotations selector) source1 front1 price1 step1 →
      step1 ≤ 37 * unit_ →
      step ≤ 37 * unit_ ∧ price1 ≤ price ∧
      (price1 = price → is_aggregated (LS := N) [] source1 = true → is_aggregated [] 0%N = true).
Proof.
  exact (select_chunk_best selector (37 * unit_) [] 0%N (chunk 10 120) _ selector_wf
    selector_scalable eq_refl).
Defined.
