(* ===== verification/PoolMath.v ===== *)
(** * The arithmetic of the constant-product pool ([pallets/pool-xyk/src/math.rs],
    [bounds.rs]) *)

From S2P Require Import Prelude BTreeMap FixedPoint Helpers256 FixedU256 Units OrderTypes SwapTypes.

(** ** Bounds *)

Module Bounds.
Inductive t :=
| Calculated (a : Balance)
| Desired (a : Balance)
| Min (a : Balance)
| Max (a : Balance)
| RangeFromDesiredToMin (desired min : Balance)
| ToDecide
| Dummy.

#[global] Instance eq_dec : EqDecision t.
Proof. solve_decision. Defined.

(** [From<Bounds<Balance>> for Option<Balance>]. *)
Definition to_option (b : t) : option Balance :=
  match b with
  | Calculated a | Desired a | RangeFromDesiredToMin a _ => Some a
  | _ => None
  end.

(** [unwrap] panics on an undetermined value. *)
Definition unwrap (b : t) : result DispatchError Balance := ok_or (to_option b) Panicked.

Definition meets_the_boundaries (b rhs : t) : bool :=
  match b, to_option b, to_option rhs with
  | Min a, _, Some b => a <=? b
  | Max a, _, Some b => b <=? a
  | RangeFromDesiredToMin a b, _, Some c => (c <=? a) && (c <=? b)
  | _, Some a, Some b => a =? b
  | _, _, _ => false
  end.
End Bounds.

(** ** Configuration *)

Class PoolConfig := {
  MIN_XOR : Balance;
  (** [FixedU256] units. *)
  GetFee : Z;
  (** [Fixed] units. *)
  GetMaxIssuanceRatio : Z;
  (** [Percent] parts. *)
  IrreducibleReserve : Z;
  PoolAdjustPeriod : BlockNumber
}.

Definition MIN_LIQUIDITY : Balance := 1000.

(** [Percent * Balance] ([sp-arithmetic], [overflow_prune_mul] with
    [rational_mul_correction] and the rounding [NearestPrefDown]). *)
Definition percent_mul (part x : Z) : Z :=
  let rem_mul := (x mod 100) * part in
  x / 100 * part + (rem_mul / 100 + (if 50 <? rem_mul mod 100 then 1 else 0)).

(** [to_balance!]. *)
Definition to_balance (a : FixedWrapper256.t) : result DispatchError Balance :=
  match FixedWrapper256.try_into_balance a with
  | Ok x => Ok x
  | Err _ => Err (PoolXykError FixedWrapperCalculationFailed)
  end.

(** [fixed_wrapper_u256!(1)]. *)
Definition fixed_one : FixedWrapper256.t := Ok FixedU256.DIV.

Declare Scope fixed256_scope.
Delimit Scope fixed256_scope with F.
Infix "+" := FixedWrapper256.add : fixed256_scope.
Infix "-" := FixedWrapper256.sub : fixed256_scope.
Infix "*" := FixedWrapper256.mul : fixed256_scope.
Infix "/" := FixedWrapper256.div : fixed256_scope.
Abbreviation fxw := FixedWrapper256.from (only parsing).

(** [fixed_wrapper_u256!(1) - fee_fraction]. *)
Definition without_fee (fee_fraction : Z) : FixedWrapper256.t :=
  FixedWrapper256.with_number FixedWrapper256.sub fixed_one fee_fraction.

(** ** Deposits *)

Definition calculate_quote (amount_a reserve_a reserve_b : Balance) : result DispatchError Balance :=
  to_balance (fxw amount_a * fxw reserve_b / fxw reserve_a)%F.

Definition calculate_optimal_deposit (reserve_a reserve_b amount_a_desired amount_b_desired
    amount_a_min amount_b_min : Balance) : result DispatchError (Balance * Balance) :=
  opt_am_a_des ← calculate_quote amount_b_desired reserve_b reserve_a;
  opt_am_b_des ← calculate_quote amount_a_desired reserve_a reserve_b;
  if opt_am_b_des <=? amount_b_desired then
    _ ← ensure (amount_b_min <=? opt_am_b_des)
          (PoolXykError ImpossibleToDecideValidPairValuesFromRangeForThisPool);
    mret (amount_a_desired, opt_am_b_des)
  else
    _ ← ensure ((amount_a_min <=? opt_am_a_des) && (opt_am_a_des <=? amount_a_desired))
          (PoolXykError ImpossibleToDecideValidPairValuesFromRangeForThisPool);
    mret (opt_am_a_des, amount_b_desired).

Definition calc_deposit_liquidity_1 (total_supply reserve_a reserve_b amount_a_desired
    amount_b_desired amount_a_min amount_b_min : Balance)
    : result DispatchError (Balance * Balance * Balance) :=
  am ← calculate_optimal_deposit reserve_a reserve_b amount_a_desired amount_b_desired
         amount_a_min amount_b_min;
  let '(am_a_des, am_b_des) := am in
  lhs ← to_balance (fxw am_a_des * fxw total_supply / fxw reserve_a)%F;
  rhs ← to_balance (fxw am_b_des * fxw total_supply / fxw reserve_b)%F;
  mret (am_a_des, am_b_des, Z.min lhs rhs).

(** ** Swaps *)

(** The calculated output and the fee. *)
Definition calc_output_for_exact_input (fee_fraction : Z) (get_fee_from_destination : bool)
    (x y x_in : Balance) (deduce_fee : bool) : result DispatchError (Balance * Balance) :=
  if get_fee_from_destination then
    let nominator := (fxw x_in * fxw y)%F in
    let denominator := (fxw x + fxw x_in)%F in
    let y_out_with_fee := (nominator / denominator)%F in
    let y_out := if deduce_fee then (y_out_with_fee * without_fee fee_fraction)%F else y_out_with_fee in
    out ← to_balance y_out;
    fee ← to_balance (y_out_with_fee - y_out)%F;
    mret (out, fee)
  else
    let x_in_without_fee := if deduce_fee then (fxw x_in * without_fee fee_fraction)%F else fxw x_in in
    let nominator := (x_in_without_fee * fxw y)%F in
    let denominator := (fxw x + x_in_without_fee)%F in
    let y_out := (nominator / denominator)%F in
    out ← to_balance y_out;
    fee ← to_balance (fxw x_in - x_in_without_fee)%F;
    mret (out, fee).

(** The calculated input and the fee; the output is enlarged by one unit. *)
Definition calc_input_for_exact_output (fee_fraction : Z) (get_fee_from_destination : bool)
    (x y y_out : Balance) (deduce_fee : bool) : result DispatchError (Balance * Balance) :=
  let fxw_y_out := FixedWrapper256.with_number FixedWrapper256.add (fxw y_out) 1 in
  if get_fee_from_destination then
    let y_out_with_fee := if deduce_fee then (fxw_y_out / without_fee fee_fraction)%F else fxw_y_out in
    let nominator := (fxw x * y_out_with_fee)%F in
    let denominator := (fxw y - y_out_with_fee)%F in
    let x_in := (nominator / denominator)%F in
    inp ← to_balance x_in;
    fee ← to_balance (y_out_with_fee - fxw_y_out)%F;
    mret (inp, fee)
  else
    let nominator := (fxw x * fxw_y_out)%F in
    let denominator := (fxw y - fxw_y_out)%F in
    let x_in_without_fee := (nominator / denominator)%F in
    let x_in := if deduce_fee then (x_in_without_fee / without_fee fee_fraction)%F else x_in_without_fee in
    inp ← to_balance x_in;
    fee ← to_balance (x_in - x_in_without_fee)%F;
    mret (inp, fee).

Definition calc_max_output `{PoolConfig} (fee_fraction : Z) (get_fee_from_destination : bool)
    (reserve_output : Balance) (deduce_fee : bool) : result DispatchError Balance :=
  if reserve_output =? 0 then mret 0 else
  max_output ←
    (if get_fee_from_destination && deduce_fee
     then to_balance (fxw reserve_output * without_fee fee_fraction)%F
     else mret reserve_output);
  mret (sat_sub max_output (percent_mul IrreducibleReserve max_output)).

(** [get_base_asset_part]. *)
Definition get_base_asset_part (base_reserves total_liquidity liq_amount : Balance)
    : result DispatchError Balance :=
  let fxw_piece := FixedWrapper.div (FixedWrapper.from_int total_liquidity) (FixedWrapper.from_int liq_amount) in
  match FixedWrapper.try_into_balance (FixedWrapper.div (FixedWrapper.from_int base_reserves) fxw_piece) with
  | Ok x => Ok x
  | Err _ => Err (PoolXykError FixedWrapperCalculationFailed)
  end.

(** ** The results as integers

    Reserves and amounts are [u128], so the 256-bit intermediate values never
    overflow; a product loses its fraction before it is divided. *)

Section spec.
Abbreviation D := FixedU256.DIV.

Definition scaled_div (a b c : Z) : Z := a * b / D * D / c.

Lemma u128_ok x : is_u128 x → U256.ok x.
Proof. intros Hx. by apply (FixedWrapper256.u128_wf x Hx). Qed.

Lemma to_balance_ok a z : FixedWrapper256.wf a → to_balance a = Ok z ↔ a = Ok z ∧ z ≤ u128_max.
Proof.
  intros Ha. rewrite <- FixedWrapper256.try_into_balance_ok by done. unfold to_balance.
  destruct (FixedWrapper256.try_into_balance a); naive_solver.
Qed.

Lemma without_fee_ok f : 0 ≤ f ≤ D → without_fee f = Ok (D - f).
Proof.
  intros Hf. unfold without_fee, FixedWrapper256.with_number, fixed_one. apply FixedWrapper256.sub_ok.
  exists D, f. repeat split; [lia|]. unfold D in *. lia.
Qed.

Lemma scaled_bounds a b c : 0 ≤ a → 0 ≤ b → 0 < c →
  0 ≤ scaled_div a b c ∧ scaled_div a b c * c ≤ a * b < scaled_div a b c * c + D + c.
Proof.
  intros Ha Hb Hc. unfold scaled_div. pose proof (Z.mul_nonneg_nonneg a b Ha Hb) as Hp.
  assert (HD : 0 < D) by done. pose proof (Z.div_pos _ _ Hp HD) as Hq.
  pose proof (Z.mul_div_le (a * b) D HD) as H1. pose proof (Z.mul_succ_div_gt (a * b) D HD) as H2.
  set (q := a * b / D) in *. assert (0 ≤ q * D) by (apply Z.mul_nonneg_nonneg; lia).
  pose proof (Z.div_pos (q * D) c ltac:(done) Hc). pose proof (Z.mul_div_le (q * D) c Hc).
  pose proof (Z.mul_succ_div_gt (q * D) c Hc). set (r := q * D / c) in *. clearbody q r.
  split; [done|]. rewrite !(Z.mul_comm D), !(Z.mul_comm c), Z.mul_succ_l in *. lia.
Qed.

(** Products of two [u128] fit. *)
Lemma product_ok a b : is_u128 a → is_u128 b → U256.ok (a * b / D).
Proof.
  intros [Ha1 Ha2] [Hb1 Hb2]. split; [apply Z.div_pos; [by apply Z.mul_nonneg_nonneg|done]|].
  apply (Z.le_lt_trans _ (a * b)).
  - apply Z.div_le_upper_bound; [done|]. rewrite <- (Z.mul_1_l (a * b)) at 1.
    apply Z.mul_le_mono_nonneg_r; [by apply Z.mul_nonneg_nonneg|done].
  - apply (Z.le_lt_trans _ (u128_max * u128_max)); [by apply Z.mul_le_mono_nonneg|done].
Qed.

Lemma mul_div_run a b c z : is_u128 a → is_u128 b → FixedWrapper256.wf c →
  (fxw a * fxw b / c)%F = Ok z ↔ ∃ c', c = Ok c' ∧ 0 < c' ∧ z = scaled_div a b c' ∧ U256.ok z.
Proof.
  intros Ha Hb Hc. pose proof (FixedWrapper256.u128_wf a Ha) as Wa. pose proof (FixedWrapper256.u128_wf b Hb) as Wb.
  assert (Wm : FixedWrapper256.wf (fxw a * fxw b)%F) by by apply FixedWrapper256.mul_wf.
  assert (Em : (fxw a * fxw b)%F = Ok (a * b / D)).
  { apply FixedWrapper256.wrapper_mul_ok; [done..|]. exists a, b. repeat split; by apply product_ok. }
  rewrite FixedWrapper256.wrapper_div_ok by done. rewrite Em. unfold scaled_div. naive_solver.
Qed.

Lemma mul_div_balance a b c z : is_u128 a → is_u128 b → FixedWrapper256.wf c →
  to_balance (fxw a * fxw b / c)%F = Ok z →
  ∃ c', c = Ok c' ∧ 0 < c' ∧ z = scaled_div a b c' ∧ is_u128 z.
Proof.
  intros Ha Hb Hc [(c' & -> & H0 & -> & [? ?])%mul_div_run ?]%to_balance_ok; [by exists c'|done..|].
  apply FixedWrapper256.div_wf; [|done]. apply FixedWrapper256.mul_wf; by apply FixedWrapper256.u128_wf.
Qed.

(** The part of an amount that is left after a fee, and the amount that leaves a
    given part. *)
Definition net_of_fee (f a : Z) : Z := a * (D - f) / D.
Definition gross_of_fee (f a : Z) : Z := a * D / (D - f).

Lemma net_of_fee_0 a : net_of_fee 0 a = a.
Proof. unfold net_of_fee. rewrite Z.sub_0_r. by apply Z.div_mul. Qed.
Lemma gross_of_fee_0 a : gross_of_fee 0 a = a.
Proof. unfold gross_of_fee. rewrite Z.sub_0_r. by apply Z.div_mul. Qed.

Lemma net_of_fee_bounds f a : 0 ≤ f ≤ D → 0 ≤ a → 0 ≤ net_of_fee f a ≤ a.
Proof.
  intros Hf Ha. unfold net_of_fee. assert (0 < D) by done.
  split; [apply Z.div_pos; [apply Z.mul_nonneg_nonneg; lia|done]|].
  apply Z.div_le_upper_bound; [done|]. rewrite Z.mul_comm. apply Z.mul_le_mono_nonneg_r; lia.
Qed.

Lemma gross_of_fee_bounds f a : 0 ≤ f < D → 0 ≤ a → a ≤ gross_of_fee f a.
Proof.
  intros Hf Ha. unfold gross_of_fee. assert (0 < D) by done.
  apply Z.div_le_lower_bound; [lia|]. rewrite Z.mul_comm. apply Z.mul_le_mono_nonneg_l; lia.
Qed.

(** The fee fraction that applies. *)
Definition applied (deduce_fee : bool) (f : Z) : Z := if deduce_fee then f else 0.

Lemma applied_range deduce f : 0 ≤ f ≤ D → 0 ≤ applied deduce f ≤ D.
Proof. intros Hf. destruct deduce; [done|]. cbn. split; [done|]. done. Qed.

Lemma net_ok (deduce : bool) f a : 0 ≤ f ≤ D → U256.ok a →
  (if deduce then (fxw a * without_fee f)%F else fxw a) = Ok (net_of_fee (applied deduce f) a).
Proof.
  intros Hf Ha. destruct deduce; cbn [applied]; [|by rewrite net_of_fee_0].
  rewrite without_fee_ok by done. pose proof (net_of_fee_bounds f a Hf ltac:(apply Ha)) as Hn.
  apply FixedWrapper256.wrapper_mul_ok.
  - by apply FixedWrapper256.from_wf.
  - apply FixedWrapper256.from_wf. unfold D in *. split; lia.
  - exists a, (D - f). repeat split; try done; [apply Hn|]. apply (Z.le_lt_trans _ a); [apply Hn|apply Ha].
Qed.

Lemma gross_ok (deduce : bool) f a z : 0 ≤ f ≤ D → U256.ok a →
  (if deduce then (fxw a / without_fee f)%F else fxw a) = Ok z →
  applied deduce f < D ∧ z = gross_of_fee (applied deduce f) a ∧ U256.ok z.
Proof.
  intros Hf Ha. destruct deduce; cbn [applied].
  2: { rewrite gross_of_fee_0. by intros [= <-]. }
  rewrite without_fee_ok by done. intros (x & y & [= <-] & [= <-] & H0 & -> & Hz)%FixedWrapper256.wrapper_div_ok.
  - split; [lia|done].
  - by apply FixedWrapper256.from_wf.
  - apply FixedWrapper256.from_wf. unfold D in *. split; lia.
Qed.

Lemma sum_ok a b : is_u128 a → is_u128 b → (fxw a + fxw b)%F = Ok (a + b).
Proof.
  intros [? ?] [? ?]. apply FixedWrapper256.wrapper_add_ok. exists a, b. repeat split; [lia|].
  unfold u128_max in *. lia.
Qed.

Lemma difference_ok a b z : (fxw a - fxw b)%F = Ok z → z = a - b ∧ b ≤ a.
Proof. intros (x & y & [= <-] & [= <-] & -> & [? _])%FixedWrapper256.sub_ok. lia. Qed.

Lemma difference_balance a b z : to_balance (fxw a - fxw b)%F = Ok z → z = a - b ∧ 0 ≤ z ≤ u128_max.
Proof.
  intros [[-> ?]%difference_ok ?]%to_balance_ok; [lia|]. apply FixedWrapper256.sub_wf.
Qed.

(** What the pool receives and pays in a swap with the fee taken from the output
    ([dest]) or from the input. *)
Definition pool_in (dest : bool) (inp fee : Z) : Z := if dest then inp else inp - fee.
Definition pool_out (dest : bool) (out fee : Z) : Z := if dest then out + fee else out.

Lemma scaled_le_u128 a y x : 0 ≤ a → is_u128 y → 0 ≤ x → 0 < x + a → is_u128 (scaled_div a y (x + a)).
Proof.
  intros Ha [Hy1 Hy2] Hx Hc. destruct (scaled_bounds a y (x + a)) as (H0 & H1 & _); [done..|].
  split; [done|]. apply (Z.le_trans _ y); [|done]. apply (Zmult_le_reg_r _ _ (x + a)); [lia|].
  apply (Z.le_trans _ (a * y)); [done|]. rewrite Z.mul_comm. apply Z.mul_le_mono_nonneg_l; lia.
Qed.

Lemma calc_output_ok f dest x y x_in deduce out fee : 0 ≤ f ≤ D → is_u128 x → is_u128 y → is_u128 x_in →
  calc_output_for_exact_input f dest x y x_in deduce = Ok (out, fee) →
  let a := pool_in dest x_in fee in let b := pool_out dest out fee in
  0 < x + a ∧ b = scaled_div a y (x + a) ∧ is_u128 out ∧ is_u128 fee ∧ 0 ≤ a ∧
  out = (if dest then net_of_fee (applied deduce f) b else b) ∧
  a = (if dest then x_in else net_of_fee (applied deduce f) x_in).
Proof.
  intros Hf Hx Hy Hi. pose proof (applied_range deduce f Hf) as Ha. unfold calc_output_for_exact_input.
  destruct dest; cbn zeta.
  - rewrite sum_ok by done. destruct (fxw x_in * fxw y / Ok (x + x_in)%Z)%F as [y1|] eqn:E1; [|by destruct deduce].
    apply mul_div_run in E1 as (c & [= <-] & H0 & -> & Hy1); [|done|done|]. 
    2: { rewrite <- sum_ok by done. apply FixedWrapper256.add_wf. }
    pose proof (scaled_le_u128 x_in y x ltac:(apply Hi) Hy ltac:(apply Hx) H0) as Hb.
    set (b := scaled_div x_in y (x + x_in)) in *. change (@Ok ArithmeticError Z b) with (fxw b).
    rewrite (net_ok deduce f b Hf Hy1). intros Hr.
    pose proof (net_of_fee_bounds (applied deduce f) b Ha ltac:(apply Hb)) as Hn.
    set (n := net_of_fee (applied deduce f) b) in *. change (@Ok ArithmeticError Z n) with (fxw n) in Hr. run.
    match goal with H : to_balance (fxw n) = _ |- _ => apply to_balance_ok in H as [[= <-] ?] end.
    2: { apply FixedWrapper256.from_wf. unfold U256.ok in *. lia. }
    match goal with H : to_balance _ = _ |- _ => apply difference_balance in H as [-> ?] end.
    cbn [pool_in pool_out]. replace (n + (b - n)) with b by lia. unfold is_u128 in *. repeat split; try done; lia.
  - rewrite (net_ok deduce f x_in Hf (u128_ok x_in Hi)).
    pose proof (net_of_fee_bounds (applied deduce f) x_in Ha ltac:(apply Hi)) as Hn.
    set (n := net_of_fee (applied deduce f) x_in) in *. change (@Ok ArithmeticError Z n) with (fxw n).
    assert (is_u128 n) by (unfold is_u128 in *; lia). rewrite sum_ok by done. intros Hr. run.
    match goal with H : to_balance (_ / _)%F = _ |- _ =>
      apply mul_div_balance in H as (c & [= <-] & Hc0 & -> & Hb); [|done|done|] end.
    2: { rewrite <- sum_ok by done. apply FixedWrapper256.add_wf. }
    match goal with H : to_balance _ = _ |- _ => apply difference_balance in H as [-> ?] end.
    cbn [pool_in pool_out]. replace (x_in - (x_in - n)) with n by lia. unfold is_u128 in *. repeat split; try done; lia.
Qed.

Lemma plus_one_ok a : is_u128 a →
  FixedWrapper256.with_number FixedWrapper256.add (fxw a) 1 = fxw (a + 1).
Proof. intros Ha. unfold FixedWrapper256.with_number. cbn. apply sum_ok; [done|by split]. Qed.

Lemma input_for_ok x y o z : is_u128 x → is_u128 y → U256.ok o →
  (fxw x * fxw o / (fxw y - fxw o))%F = Ok z → o < y ∧ z = scaled_div x o (y - o) ∧ U256.ok z.
Proof.
  intros Hx Hy Ho E. assert (Hyy : ∃ d, (fxw y - fxw o)%F = Ok d).
  { apply FixedWrapper256.div_args in E as (? & d & _ & ?). by exists d. }
  destruct Hyy as [d Hd]. pose proof Hd as [-> ?]%difference_ok.
  assert (is_u128 o) by (unfold is_u128, U256.ok in *; lia).
  apply mul_div_run in E as (c & Ec & Hc0 & -> & Hi); [|done|done|apply FixedWrapper256.sub_wf].
  rewrite Hd in Ec. injection Ec as <-. split; [lia|done].
Qed.

Lemma calc_input_ok f dest x y y_out deduce inp fee : 0 ≤ f ≤ D → is_u128 x → is_u128 y → is_u128 y_out →
  calc_input_for_exact_output f dest x y y_out deduce = Ok (inp, fee) →
  let a := pool_in dest inp fee in let b := pool_out dest y_out fee in
  b + 1 < y ∧ a = scaled_div x (b + 1) (y - (b + 1)) ∧ is_u128 inp ∧ is_u128 fee ∧ 0 ≤ a ∧ y_out ≤ b ∧
  applied deduce f < D ∧
  (if dest then b + 1 = gross_of_fee (applied deduce f) (y_out + 1)
   else b = y_out ∧ inp = gross_of_fee (applied deduce f) a).
Proof.
  intros Hf Hx Hy Ho. pose proof (applied_range deduce f Hf) as Ha. unfold calc_input_for_exact_output.
  rewrite plus_one_ok by done. assert (Hoo : U256.ok (y_out + 1)).
  { destruct Ho. unfold U256.ok, u128_max in *. lia. }
  destruct dest.
  - destruct (if deduce then (fxw (y_out + 1) / without_fee f)%F else fxw (y_out + 1)) as [y1|] eqn:E1; [|done].
    apply gross_ok in E1 as (Hfd & Ey1 & Hy1); [|done..]. change (@Ok ArithmeticError Z y1) with (fxw y1).
    intros (i & Hi & Hr)%result_bind_ok. apply result_bind_ok in Hr as (g & Hg & [= <- <-]).
    apply to_balance_ok in Hi as [Hi ?]; [|apply FixedWrapper256.div_wf;
        [apply FixedWrapper256.mul_wf; [by apply FixedWrapper256.u128_wf|by apply FixedWrapper256.from_wf]
        |apply FixedWrapper256.sub_wf]].
    apply input_for_ok in Hi as (? & -> & [? _]); [|done..]. apply difference_balance in Hg as [-> ?].
    cbn [pool_in pool_out]. replace (y_out + (y1 - (y_out + 1)) + 1) with y1 by lia.
    unfold is_u128 in *. split_and!; first [done | lia].
  - intros (i & Hi & Hr)%result_bind_ok. apply result_bind_ok in Hr as (g & Hg & [= <- <-]).
    destruct (fxw x * fxw (y_out + 1) / (fxw y - fxw (y_out + 1)))%F as [x1|] eqn:E1; [|by destruct deduce].
    apply input_for_ok in E1 as (? & Ex1 & [? ?]); [|done..].
    change (@Ok ArithmeticError Z x1) with (fxw x1) in *.
    destruct (if deduce then (fxw x1 / without_fee f)%F else fxw x1) as [xi|] eqn:E2; [|done].
    apply gross_ok in E2 as (Hfd & Exi & Hxi); [|done..]. change (@Ok ArithmeticError Z xi) with (fxw xi) in *.
    apply to_balance_ok in Hi as [[= <-] ?]; [|by apply FixedWrapper256.from_wf].
    apply difference_balance in Hg as [-> ?]. cbn [pool_in pool_out].
    replace (xi - (xi - x1)) with x1 by lia. unfold is_u128, U256.ok in *. split_and!; first [done | lia].
Qed.

(** *** The product of the reserves *)

Lemma product_exact_input x y a b : 0 ≤ a → 0 ≤ y → 0 < x + a → b = scaled_div a y (x + a) →
  x * y ≤ (x + a) * (y - b).
Proof. intros Ha Hy Hc ->. destruct (scaled_bounds a y (x + a)) as (_ & H & _); [done..|]. lia. Qed.

Lemma product_exact_output x y a b : 0 ≤ x → 0 ≤ b → b + 1 < y → a = scaled_div x (b + 1) (y - (b + 1)) →
  x * y + (x + a) < (x + a) * (y - b) + D + (y - b).
Proof.
  intros Hx Hb Hy ->. destruct (scaled_bounds x (b + 1) (y - (b + 1))) as (_ & _ & H); [lia..|]. lia.
Qed.

(** *** Deposits *)

Lemma calculate_quote_ok a ra rb q : is_u128 a → is_u128 ra → is_u128 rb →
  calculate_quote a ra rb = Ok q → 0 < ra ∧ q = scaled_div a rb ra ∧ is_u128 q.
Proof.
  intros Ha Hra Hrb. unfold calculate_quote. intros (c & [= <-] & H0 & -> & Hz)%mul_div_balance; [done..|].
  by apply FixedWrapper256.u128_wf.
Qed.

Lemma calc_deposit_ok t ra rb da db ma mb a b k : is_u128 t → is_u128 ra → is_u128 rb → is_u128 da → is_u128 db →
  ma ≤ da → mb ≤ db →
  calc_deposit_liquidity_1 t ra rb da db ma mb = Ok (a, b, k) →
  0 < ra ∧ 0 < rb ∧ ma ≤ a ≤ da ∧ mb ≤ b ≤ db ∧ 0 ≤ a ∧ 0 ≤ b ∧
  k = Z.min (scaled_div a t ra) (scaled_div b t rb) ∧ is_u128 k.
Proof.
  intros Ht Hra Hrb Hda Hdb Hma Hmb. unfold calc_deposit_liquidity_1, calculate_optimal_deposit.
  intros (ab & Hab & Hr)%result_bind_ok.
  apply result_bind_ok in Hab as (qa & Hqa & Hab). apply result_bind_ok in Hab as (qb & Hqb & Hab).
  apply calculate_quote_ok in Hqa as (Hb0 & Eqa & Hqa); [|done..].
  apply calculate_quote_ok in Hqb as (Ha0 & Eqb & Hqb); [|done..].
  assert (Hin : ∃ a' b', ab = (a', b') ∧ ma ≤ a' ≤ da ∧ mb ≤ b' ≤ db ∧ is_u128 a' ∧ is_u128 b').
  { destruct (qb <=? db) eqn:Hle; run; zbool.
    - exists da, (scaled_div da rb ra). done.
    - exists (scaled_div db ra rb), db. done. }
  destruct Hin as (a' & b' & -> & Hal & Hbl & Ha & Hb).
  apply result_bind_ok in Hr as (l & Hl & Hr). apply result_bind_ok in Hr as (r & Hrr & [= <- <- <-]).
  apply mul_div_balance in Hl as (c & [= <-] & _ & -> & [? ?]); [|done|done|by apply FixedWrapper256.u128_wf].
  apply mul_div_balance in Hrr as (c & [= <-] & _ & -> & [? ?]); [|done|done|by apply FixedWrapper256.u128_wf].
  unfold is_u128 in *. split_and!; try done; lia.
Qed.

(** A share of the pool is worth at least as much after tokens are minted for a
    proportional deposit, or burned for a proportional withdrawal. *)
Lemma deposit_share r t a k : 0 < r → 0 ≤ t → 0 ≤ a → k ≤ scaled_div a t r → r * (t + k) ≤ (r + a) * t.
Proof.
  intros Hr Ht Ha Hk. destruct (scaled_bounds a t r) as (_ & H & _); [done..|].
  pose proof (Z.mul_le_mono_nonneg_r _ _ r ltac:(lia) Hk). lia.
Qed.

Lemma withdraw_share r t k a : 0 ≤ r → 0 ≤ k → 0 < t → a = scaled_div r k t → r * (t - k) ≤ (r - a) * t.
Proof. intros Hr Hk Ht ->. destruct (scaled_bounds r k t) as (_ & H & _); [done..|]. lia. Qed.
End spec.
