(* ===== verification/DataLayer.v ===== *)
(** * The data layer of the order book

    [DataLayer] is the trait of [pallets/order-book/src/traits.rs]: the order
    book's code is written against it.  [Storage] holds the six storage maps of
    the pallet that the layers index ([lib.rs]); storage maps are keyed by the
    encoding of their keys, hence [gmap].  [StorageDataLayer]
    ([storage_data_layer.rs]) works on them directly. *)

From stdpp Require Import sorting.
From S2P Require Import Prelude BTreeMap FixedPoint Units OrderTypes.

(** ** Storage *)

Record Storage := {
  LimitOrders : gmap (OrderBookId * OrderId) LimitOrder.t;
  Bids : gmap (OrderBookId * OrderPrice) (list OrderId);
  Asks : gmap (OrderBookId * OrderPrice) (list OrderId);
  AggregatedBids : gmap OrderBookId MarketSide;
  AggregatedAsks : gmap OrderBookId MarketSide;
  UserLimitOrders : gmap (AccountId * OrderBookId) (list OrderId)
}.

Definition empty_storage : Storage := {|
  LimitOrders := ∅; Bids := ∅; Asks := ∅; AggregatedBids := ∅; AggregatedAsks := ∅;
  UserLimitOrders := ∅ |}.

Definition set_LimitOrders (m : gmap (OrderBookId * OrderId) LimitOrder.t) (s : Storage) : Storage :=
  Build_Storage m (Bids s) (Asks s) (AggregatedBids s) (AggregatedAsks s) (UserLimitOrders s).
Definition set_UserLimitOrders (m : gmap (AccountId * OrderBookId) (list OrderId)) (s : Storage)
    : Storage :=
  Build_Storage (LimitOrders s) (Bids s) (Asks s) (AggregatedBids s) (AggregatedAsks s) m.

(** The two indices of a side: [Bids]/[AggregatedBids] for [Buy],
    [Asks]/[AggregatedAsks] for [Sell]. *)
Definition side_orders (sd : PriceVariant) (s : Storage)
    : gmap (OrderBookId * OrderPrice) (list OrderId) :=
  match sd with Buy => Bids s | Sell => Asks s end.
Definition set_side_orders (sd : PriceVariant)
    (m : gmap (OrderBookId * OrderPrice) (list OrderId)) (s : Storage) : Storage :=
  match sd with
  | Buy => Build_Storage (LimitOrders s) m (Asks s) (AggregatedBids s) (AggregatedAsks s)
             (UserLimitOrders s)
  | Sell => Build_Storage (LimitOrders s) (Bids s) m (AggregatedBids s) (AggregatedAsks s)
             (UserLimitOrders s)
  end.
Definition side_agg (sd : PriceVariant) (s : Storage) : gmap OrderBookId MarketSide :=
  match sd with Buy => AggregatedBids s | Sell => AggregatedAsks s end.
Definition set_side_agg (sd : PriceVariant) (m : gmap OrderBookId MarketSide) (s : Storage)
    : Storage :=
  match sd with
  | Buy => Build_Storage (LimitOrders s) (Bids s) (Asks s) m (AggregatedAsks s) (UserLimitOrders s)
  | Sell => Build_Storage (LimitOrders s) (Bids s) (Asks s) (AggregatedBids s) m (UserLimitOrders s)
  end.

(** ** Iteration over storage *)

(** Storage is iterated in the order of the raw storage keys.  The raw key of a
    [Blake2_128Concat] map contains a hash and the encoded key itself, so it
    determines the key; [storage_key] is that raw key (of a key's encoding) as a
    number. *)
Class StorageKeys := {
  storage_key : positive → Z;
  storage_key_inj :: Inj (=) (=) storage_key
}.

Section iteration.
Context {SK : StorageKeys} `{Countable K} {V : Type}.

Definition raw_key (k : K) : Z := storage_key (encode k).

Definition key_le (p q : K * V) : Prop := raw_key (fst p) ≤ raw_key (fst q).

#[global] Instance key_le_dec (p q : K * V) : Decision (key_le p q).
Proof. unfold key_le. apply _. Defined.

Definition iter_entries (l : list (K * V)) : list (K * V) := merge_sort key_le l.

(** [StorageMap::iter]. *)
Definition storage_iter (m : gmap K V) : list (K * V) := iter_entries (map_to_list m).

(** [StorageDoubleMap::iter_prefix]. *)
Definition iter_prefix `{Countable K1} (m : gmap (K1 * K) V) (k1 : K1) : list (K * V) :=
  iter_entries
    (omap (λ '((k, k2), v), if bool_decide (k = k1) then Some (k2, v) else None) (map_to_list m)).

(** [StorageDoubleMap::iter_prefix_from]: the entries after a raw key. *)
Definition iter_prefix_from `{Countable K1} (m : gmap (K1 * K) V) (k1 : K1) (from : K)
    : list (K * V) :=
  filter (λ p, raw_key from < raw_key (fst p)) (iter_prefix m k1).
End iteration.

Section iteration_lemmas.
Context {SK : StorageKeys} `{Countable K} {V : Type}.

Lemma iter_entries_Permutation (l : list (K * V)) : iter_entries l ≡ₚ l.
Proof. apply merge_sort_Permutation. Qed.

(** A storage map is visited entry by entry. *)
Lemma storage_iter_entries (m : gmap K V) :
  NoDup (storage_iter m).*1 ∧ ∀ k v, (k, v) ∈ storage_iter m ↔ m !! k = Some v.
Proof.
  unfold storage_iter. split.
  - rewrite (iter_entries_Permutation _). apply NoDup_fst_map_to_list.
  - intros k v. rewrite (iter_entries_Permutation _). apply elem_of_map_to_list.
Qed.

Context `{Countable K1}.
Implicit Types (m : gmap (K1 * K) V).

Lemma elem_of_iter_prefix m i k v : (k, v) ∈ iter_prefix m i ↔ m !! (i, k) = Some v.
Proof.
  unfold iter_prefix. rewrite (iter_entries_Permutation _), list_elem_of_omap. split.
  - intros ([[i' k'] v'] & Hin & Heq). apply elem_of_map_to_list in Hin.
    case_bool_decide; by simplify_eq.
  - intros Hm. exists ((i, k), v). split; [by apply elem_of_map_to_list|].
    by rewrite bool_decide_eq_true_2.
Qed.

Lemma NoDup_iter_prefix m i : NoDup (iter_prefix m i).*1.
Proof.
  unfold iter_prefix. rewrite (iter_entries_Permutation _).
  pose proof (NoDup_fst_map_to_list m) as Hnd. induction (map_to_list m) as [|[[i' k'] v'] l IH];
    [constructor|].
  simpl in *. apply NoDup_cons in Hnd as [Hni Hnd]. case_bool_decide; simpl; [|by apply IH].
  apply NoDup_cons. split; [|by apply IH]. subst.
  intros ([k v] & -> & ([[i2 k2] v2] & Hin & Heq)%list_elem_of_omap)%list_elem_of_fmap.
  case_bool_decide; simplify_eq/=. apply Hni, list_elem_of_fmap. by eexists (i, _, _).
Qed.
End iteration_lemmas.

(** [iter_prefix(k).collect::<BTreeMap<_, _>>()]. *)
Definition prefix_map {SK : StorageKeys} `{Countable K, Ord K} {V} `{Countable K1}
    (m : gmap (K1 * K) V) (k1 : K1) : BTreeMap K V :=
  fold_left (λ acc p, bt_insert (fst p) (snd p) acc) (iter_prefix m k1) [].

Section prefix_map.
Context {SK : StorageKeys} `{Countable K} {V : Type} `{Countable K1} `{LawfulOrd K}.
Implicit Types (m : gmap (K1 * K) V).

Lemma fold_insert_spec (l : list (K * V)) acc : bt_wf acc → NoDup l.*1 →
  bt_wf (fold_left (λ acc p, bt_insert (fst p) (snd p) acc) l acc) ∧
  ∀ k, bt_get k (fold_left (λ acc p, bt_insert (fst p) (snd p) acc) l acc) =
       match list_find (λ p, fst p = k) l with Some (_, p) => Some (snd p) | None => bt_get k acc end.
Proof.
  revert acc. induction l as [|[k v] l IH]; intros acc Hwf Hnd; [done|]. simpl.
  apply NoDup_cons in Hnd as [Hk Hnd]. destruct (IH (bt_insert k v acc)) as [Hwf' Hget];
    [by apply bt_wf_insert|done|]. split; [done|]. intros k'. rewrite Hget. simpl.
  case_decide as E; simpl.
  - subst k'. destruct (list_find _ l) as [[n p]|] eqn:El; simpl; [|apply bt_get_insert_eq].
    exfalso. apply list_find_Some in El as (El & Ep & _). apply Hk. apply list_elem_of_fmap.
    exists p. split; [done|]. by eapply list_elem_of_lookup_2.
  - destruct (list_find _ l) as [[n p]|]; simpl; [done|].
    apply bt_get_insert_ne. intros Ec. apply cmp_eq in Ec. by subst.
Qed.

Lemma prefix_map_wf m k1 : bt_wf (prefix_map m k1).
Proof. apply fold_insert_spec; [constructor|apply NoDup_iter_prefix]. Qed.

Lemma prefix_map_get m k1 k : bt_get k (prefix_map m k1) = m !! (k1, k).
Proof.
  unfold prefix_map. rewrite (proj2 (fold_insert_spec _ [] ltac:(constructor) (NoDup_iter_prefix m k1))).
  destruct (list_find _ _) as [[n [k' v]]|] eqn:El; simpl.
  - apply list_find_Some in El as (El & Ep & _). simpl in Ep. subst k'. symmetry.
    apply elem_of_iter_prefix. by eapply list_elem_of_lookup_2.
  - symmetry. destruct (m !! (k1, k)) as [v|] eqn:Em; [|done]. exfalso.
    apply elem_of_iter_prefix in Em. apply list_find_None in El.
    rewrite Forall_forall in El. by apply (El (k, v)).
Qed.

Lemma prefix_map_Permutation m k1 : prefix_map m k1 ≡ₚ iter_prefix m k1.
Proof.
  apply NoDup_Permutation.
  - apply bt_wf_NoDup, prefix_map_wf.
  - eapply NoDup_fmap_1. apply NoDup_iter_prefix.
  - intros [k v]. rewrite elem_of_iter_prefix, <- prefix_map_get. split.
    + apply bt_elem_get, prefix_map_wf.
    + intros (k' & ->%cmp_eq & Hin)%bt_get_elem. done.
Qed.
End prefix_map.

(** ** The trait *)

(** A method takes [&mut self], reads included (the cached layer fills its
    cache on a read): it is a computation on the layer's state [D]. *)
Class DataLayer (D : Type) := {
  get_limit_order : OrderBookId → OrderId → M D DispatchError LimitOrder.t;
  get_all_limit_orders : OrderBookId → M D DispatchError (list LimitOrder.t);
  insert_limit_order : OrderBookId → LimitOrder.t → M D DispatchError unit;
  update_limit_order_amount : OrderBookId → OrderId → OrderVolume → M D DispatchError unit;
  delete_limit_order : OrderBookId → OrderId → M D DispatchError unit;
  get_bids : OrderBookId → OrderPrice → M D DispatchError (option (list OrderId));
  is_bid_price_full : OrderBookId → OrderPrice → M D DispatchError (option bool);
  get_asks : OrderBookId → OrderPrice → M D DispatchError (option (list OrderId));
  is_ask_price_full : OrderBookId → OrderPrice → M D DispatchError (option bool);
  get_aggregated_bids : OrderBookId → M D DispatchError MarketSide;
  get_aggregated_bids_len : OrderBookId → M D DispatchError (option nat);
  best_bid : OrderBookId → M D DispatchError (option (OrderPrice * OrderVolume));
  get_aggregated_asks : OrderBookId → M D DispatchError MarketSide;
  get_aggregated_asks_len : OrderBookId → M D DispatchError (option nat);
  best_ask : OrderBookId → M D DispatchError (option (OrderPrice * OrderVolume));
  get_user_limit_orders : AccountId → OrderBookId → M D DispatchError (option (list OrderId));
  is_user_limit_orders_full : AccountId → OrderBookId → M D DispatchError (option bool);
  get_all_user_limit_orders :
    AccountId → M D DispatchError (BTreeMap OrderBookId (list OrderId))
}.

(** Provided method of the trait. *)
Definition get_limit_orders_by_price {D} `{DataLayer D} (id : OrderBookId) (side : PriceVariant)
    (price : OrderPrice) : M D DispatchError (option (list OrderId)) :=
  match side with
  | Buy => get_bids id price
  | Sell => get_asks id price
  end.

(** ** Bounded collections *)

(** [BoundedVec::try_push]. *)
Definition try_push {A} (bound : nat) (l : list A) (x : A) : option (list A) :=
  if (length l <? bound)%nat then Some (l ++ [x]) else None.

(** [BoundedBTreeMap::try_insert]: replacing a present key never fails. *)
Definition try_insert {K V} `{Ord K} (bound : nat) (k : K) (v : V) (m : BTreeMap K V)
    : option (BTreeMap K V) :=
  if (length m <? bound)%nat || bool_decide (is_Some (bt_get k m))
  then Some (bt_insert k v m) else None.

Definition is_full {A} (bound : nat) (l : list A) : bool := (bound <=? length l)%nat.

(** [vec.retain(|x| *x != id)]. *)
Definition retain_ne (i : OrderId) (l : list OrderId) : list OrderId :=
  filter (λ x, x ≠ i) l.

(** ** [StorageDataLayer] *)

Module StorageDataLayer.
Section layer.
Context {Cfg : Config} {SK : StorageKeys}.

Definition remove_from_side (sd : PriceVariant) (id : OrderBookId) (order : LimitOrder.t)
    : M Storage unit unit :=
  modify (λ s,
    match side_orders sd s !! (id, LimitOrder.price order) with
    | Some l =>
        let l' := retain_ne (LimitOrder.id order) l in
        set_side_orders sd
          (match l' with
           | [] => delete (id, LimitOrder.price order) (side_orders sd s)
           | _ => <[(id, LimitOrder.price order) := l']> (side_orders sd s)
           end) s
    | None => s
    end).

Definition remove_from_bids := remove_from_side Buy.
Definition remove_from_asks := remove_from_side Sell.

(** [AggregatedBids::mutate]: the (default) value is written back also when
    the closure fails. *)
Definition mutate_side (sd : PriceVariant) (id : OrderBookId)
    (f : MarketSide → option MarketSide) : M Storage unit unit := λ s,
  let m := default [] (side_agg sd s !! id) in
  match f m with
  | Some m' => (Ok tt, set_side_agg sd (<[id := m']> (side_agg sd s)) s)
  | None => (Err tt, set_side_agg sd (<[id := m]> (side_agg sd s)) s)
  end.

Definition add_to_aggregated (sd : PriceVariant) (id : OrderBookId) (price : OrderPrice)
    (value : OrderVolume) : M Storage unit unit :=
  mutate_side sd id (λ m,
    volume ← BalanceUnit.checked_add (default BalanceUnit.zero (bt_get price m)) value;
    try_insert MaxSidePriceCount price volume m).

Definition add_to_aggregated_bids := add_to_aggregated Buy.
Definition add_to_aggregated_asks := add_to_aggregated Sell.

Definition sub_from_aggregated (sd : PriceVariant) (id : OrderBookId) (price : OrderPrice)
    (value : OrderVolume) : M Storage unit unit :=
  mutate_side sd id (λ m,
    current ← bt_get price m;
    volume ← BalanceUnit.checked_sub current value;
    if BalanceUnit.is_zero volume then Some (bt_remove price m)
    else try_insert MaxSidePriceCount price volume m).

Definition sub_from_aggregated_bids := sub_from_aggregated Buy.
Definition sub_from_aggregated_asks := sub_from_aggregated Sell.

(** [Bids::try_append], [Asks::try_append]. *)
Definition try_append_side (sd : PriceVariant) (id : OrderBookId) (price : OrderPrice)
    (i : OrderId) : M Storage unit unit := λ s,
  match try_push MaxLimitOrdersForPrice (default [] (side_orders sd s !! (id, price))) i with
  | Some l => (Ok tt, set_side_orders sd (<[(id, price) := l]> (side_orders sd s)) s)
  | None => (Err tt, s)
  end.

(** [UserLimitOrders::try_append]. *)
Definition try_append_user (account : AccountId) (id : OrderBookId) (i : OrderId)
    : M Storage unit unit := λ s,
  match try_push MaxOpenedLimitOrdersPerUser (default [] (UserLimitOrders s !! (account, id))) i with
  | Some l => (Ok tt, set_UserLimitOrders (<[(account, id) := l]> (UserLimitOrders s)) s)
  | None => (Err tt, s)
  end.

Definition get_limit_order (id : OrderBookId) (order_id : OrderId)
    : M Storage DispatchError LimitOrder.t :=
  s ← get_state;
  ok_or (LimitOrders s !! (id, order_id)) (OrderBookError UnknownLimitOrder).

Definition get_all_limit_orders (id : OrderBookId) : M Storage DispatchError (list LimitOrder.t) :=
  s ← get_state;
  mret (snd <$> iter_prefix (LimitOrders s) id).

Definition insert_limit_order (id : OrderBookId) (order : LimitOrder.t)
    : M Storage DispatchError unit :=
  s ← get_state;
  _ ← ensure (negb (bool_decide (is_Some (LimitOrders s !! (id, LimitOrder.id order)))))
        (OrderBookError LimitOrderAlreadyExists);
  _ ← match LimitOrder.side order with
      | Buy =>
          _ ← map_err (try_append_side Buy id (LimitOrder.price order) (LimitOrder.id order))
                (λ _, OrderBookError LimitOrderStorageOverflow);
          map_err (add_to_aggregated_bids id (LimitOrder.price order) (LimitOrder.amount order))
            (λ _, OrderBookError LimitOrderStorageOverflow)
      | Sell =>
          _ ← map_err (try_append_side Sell id (LimitOrder.price order) (LimitOrder.id order))
                (λ _, OrderBookError LimitOrderStorageOverflow);
          map_err (add_to_aggregated_asks id (LimitOrder.price order) (LimitOrder.amount order))
            (λ _, OrderBookError LimitOrderStorageOverflow)
      end;
  _ ← map_err (try_append_user (LimitOrder.owner order) id (LimitOrder.id order))
        (λ _, OrderBookError LimitOrderStorageOverflow);
  modify (λ s, set_LimitOrders (<[(id, LimitOrder.id order) := order]> (LimitOrders s)) s).

Definition delete_limit_order (id : OrderBookId) (order_id : OrderId)
    : M Storage DispatchError unit :=
  s ← get_state;
  order ← ok_or (LimitOrders s !! (id, order_id)) (OrderBookError UnknownLimitOrder);
  _ ← modify (λ s, set_LimitOrders (delete (id, order_id) (LimitOrders s)) s);
  user_orders ← ok_or (UserLimitOrders s !! (LimitOrder.owner order, id))
                  (OrderBookError DeleteLimitOrderError);
  let user_orders := retain_ne (LimitOrder.id order) user_orders in
  _ ← modify (λ s, set_UserLimitOrders
        (match user_orders with
         | [] => delete (LimitOrder.owner order, id) (UserLimitOrders s)
         | _ => <[(LimitOrder.owner order, id) := user_orders]> (UserLimitOrders s)
         end) s);
  match LimitOrder.side order with
  | Buy =>
      _ ← map_err (remove_from_bids id order) (λ _, OrderBookError DeleteLimitOrderError);
      map_err (sub_from_aggregated_bids id (LimitOrder.price order) (LimitOrder.amount order))
        (λ _, OrderBookError DeleteLimitOrderError)
  | Sell =>
      _ ← map_err (remove_from_asks id order) (λ _, OrderBookError DeleteLimitOrderError);
      map_err (sub_from_aggregated_asks id (LimitOrder.price order) (LimitOrder.amount order))
        (λ _, OrderBookError DeleteLimitOrderError)
  end.

Definition update_limit_order_amount (id : OrderBookId) (order_id : OrderId)
    (new_amount : OrderVolume) : M Storage DispatchError unit :=
  s ← get_state;
  order ← ok_or (LimitOrders s !! (id, order_id)) (OrderBookError UnknownLimitOrder);
  if bool_decide (new_amount = LimitOrder.amount order) then mret tt else
  if BalanceUnit.is_zero new_amount then delete_limit_order id order_id else
  _ ← ensure (BalanceUnit.gt (LimitOrder.amount order) new_amount)
        (OrderBookError UpdateLimitOrderError);
  delta ← ok_or (BalanceUnit.checked_sub (LimitOrder.amount order) new_amount)
            (OrderBookError AmountCalculationFailed);
  _ ← match LimitOrder.side order with
      | Buy => map_err (sub_from_aggregated_bids id (LimitOrder.price order) delta)
                 (λ _, OrderBookError UpdateLimitOrderError)
      | Sell => map_err (sub_from_aggregated_asks id (LimitOrder.price order) delta)
                 (λ _, OrderBookError UpdateLimitOrderError)
      end;
  modify (λ s,
    set_LimitOrders (<[(id, order_id) := LimitOrder.set_amount order new_amount]> (LimitOrders s)) s).

(** A read that returns a function of the storage. *)
Definition reads {A} (f : Storage → A) : M Storage DispatchError A := λ s, (Ok (f s), s).

Definition get_bids (id : OrderBookId) (price : OrderPrice) :=
  reads (λ s, Bids s !! (id, price)).
Definition is_bid_price_full (id : OrderBookId) (price : OrderPrice) :=
  reads (λ s, is_full MaxLimitOrdersForPrice <$> Bids s !! (id, price)).
Definition get_asks (id : OrderBookId) (price : OrderPrice) :=
  reads (λ s, Asks s !! (id, price)).
Definition is_ask_price_full (id : OrderBookId) (price : OrderPrice) :=
  reads (λ s, is_full MaxLimitOrdersForPrice <$> Asks s !! (id, price)).
Definition get_aggregated_bids (id : OrderBookId) :=
  reads (λ s, default [] (AggregatedBids s !! id)).
Definition get_aggregated_bids_len (id : OrderBookId) :=
  reads (λ s, length <$> AggregatedBids s !! id).
Definition best_bid (id : OrderBookId) :=
  reads (λ s, iter_max (default [] (AggregatedBids s !! id))).
Definition get_aggregated_asks (id : OrderBookId) :=
  reads (λ s, default [] (AggregatedAsks s !! id)).
Definition get_aggregated_asks_len (id : OrderBookId) :=
  reads (λ s, length <$> AggregatedAsks s !! id).
Definition best_ask (id : OrderBookId) :=
  reads (λ s, iter_min (default [] (AggregatedAsks s !! id))).
Definition get_user_limit_orders (account : AccountId) (id : OrderBookId) :=
  reads (λ s, UserLimitOrders s !! (account, id)).
Definition is_user_limit_orders_full (account : AccountId) (id : OrderBookId) :=
  reads (λ s, is_full MaxOpenedLimitOrdersPerUser <$> UserLimitOrders s !! (account, id)).
Definition get_all_user_limit_orders (account : AccountId) :=
  reads (λ s, prefix_map (UserLimitOrders s) account).

#[global] Instance layer : DataLayer Storage := {|
  DataLayer.get_limit_order := get_limit_order;
  DataLayer.get_all_limit_orders := get_all_limit_orders;
  DataLayer.insert_limit_order := insert_limit_order;
  DataLayer.update_limit_order_amount := update_limit_order_amount;
  DataLayer.delete_limit_order := delete_limit_order;
  DataLayer.get_bids := get_bids;
  DataLayer.is_bid_price_full := is_bid_price_full;
  DataLayer.get_asks := get_asks;
  DataLayer.is_ask_price_full := is_ask_price_full;
  DataLayer.get_aggregated_bids := get_aggregated_bids;
  DataLayer.get_aggregated_bids_len := get_aggregated_bids_len;
  DataLayer.best_bid := best_bid;
  DataLayer.get_aggregated_asks := get_aggregated_asks;
  DataLayer.get_aggregated_asks_len := get_aggregated_asks_len;
  DataLayer.best_ask := best_ask;
  DataLayer.get_user_limit_orders := get_user_limit_orders;
  DataLayer.is_user_limit_orders_full := is_user_limit_orders_full;
  DataLayer.get_all_user_limit_orders := get_all_user_limit_orders
|}.

End layer.
End StorageDataLayer.
