(* ===== verification/StorageProps.v ===== *)
(** * Consistency of the order book's storage

    [Inv] is the invariant that ties the six storage maps together: the price
    indices, the user index and the aggregated volumes are exactly what the
    limit orders say, within the bounds of the collections.  Every operation of
    [StorageDataLayer] keeps it, deletion and amount updates of an existing
    order never fail under it, and insertion fails only at a bound. *)

From S2P Require Import Prelude BTreeMap FixedPoint Units OrderTypes DataLayer.

(** ** Projections of updated storages *)

Lemma side_orders_set_eq sd m s : side_orders sd (set_side_orders sd m s) = m.
Proof. by destruct sd. Qed.
Lemma side_orders_set_ne sd sd' m s :
  sd ≠ sd' → side_orders sd (set_side_orders sd' m s) = side_orders sd s.
Proof. by destruct sd, sd'. Qed.
Lemma side_orders_set_agg sd sd' m s : side_orders sd (set_side_agg sd' m s) = side_orders sd s.
Proof. by destruct sd, sd'. Qed.
Lemma side_orders_set_LimitOrders sd m s : side_orders sd (set_LimitOrders m s) = side_orders sd s.
Proof. by destruct sd. Qed.
Lemma side_orders_set_User sd m s : side_orders sd (set_UserLimitOrders m s) = side_orders sd s.
Proof. by destruct sd. Qed.
Lemma side_agg_set_eq sd m s : side_agg sd (set_side_agg sd m s) = m.
Proof. by destruct sd. Qed.
Lemma side_agg_set_ne sd sd' m s :
  sd ≠ sd' → side_agg sd (set_side_agg sd' m s) = side_agg sd s.
Proof. by destruct sd, sd'. Qed.
Lemma side_agg_set_orders sd sd' m s : side_agg sd (set_side_orders sd' m s) = side_agg sd s.
Proof. by destruct sd, sd'. Qed.
Lemma side_agg_set_LimitOrders sd m s : side_agg sd (set_LimitOrders m s) = side_agg sd s.
Proof. by destruct sd. Qed.
Lemma side_agg_set_User sd m s : side_agg sd (set_UserLimitOrders m s) = side_agg sd s.
Proof. by destruct sd. Qed.
Lemma LimitOrders_set_orders sd m s : LimitOrders (set_side_orders sd m s) = LimitOrders s.
Proof. by destruct sd. Qed.
Lemma LimitOrders_set_agg sd m s : LimitOrders (set_side_agg sd m s) = LimitOrders s.
Proof. by destruct sd. Qed.
Lemma User_set_orders sd m s : UserLimitOrders (set_side_orders sd m s) = UserLimitOrders s.
Proof. by destruct sd. Qed.
Lemma User_set_agg sd m s : UserLimitOrders (set_side_agg sd m s) = UserLimitOrders s.
Proof. by destruct sd. Qed.
Lemma LimitOrders_set_User m s : LimitOrders (set_UserLimitOrders m s) = LimitOrders s.
Proof. done. Qed.
Lemma LimitOrders_set m s : LimitOrders (set_LimitOrders m s) = m.
Proof. done. Qed.
Lemma User_set_LimitOrders m s : UserLimitOrders (set_LimitOrders m s) = UserLimitOrders s.
Proof. done. Qed.
Lemma User_set m s : UserLimitOrders (set_UserLimitOrders m s) = m.
Proof. done. Qed.

Create Rewrite HintDb storage.
#[export] Hint Rewrite side_orders_set_eq side_orders_set_agg side_orders_set_LimitOrders
  side_orders_set_User side_agg_set_eq side_agg_set_orders side_agg_set_LimitOrders
  side_agg_set_User LimitOrders_set_orders LimitOrders_set_agg User_set_orders
  User_set_agg LimitOrders_set_User LimitOrders_set User_set_LimitOrders User_set : storage.
#[export] Hint Rewrite side_orders_set_ne side_agg_set_ne using done : storage.

Ltac storage_simpl := autorewrite with storage in *; simpl in *.

(** ** Runs of insertion *)

Section runs.
Context {Cfg : Config}.

Definition index (l : option (list OrderId)) : list OrderId := default [] l.

Definition inserted (b : OrderBookId) (o : LimitOrder.t) (l u : list OrderId)
    (m : MarketSide) (s : Storage) : Storage :=
  set_LimitOrders (<[(b, LimitOrder.id o) := o]> (LimitOrders s))
    (set_UserLimitOrders (<[(LimitOrder.owner o, b) := u]> (UserLimitOrders s))
      (set_side_agg (LimitOrder.side o) (<[b := m]> (side_agg (LimitOrder.side o) s))
        (set_side_orders (LimitOrder.side o)
          (<[(b, LimitOrder.price o) := l]> (side_orders (LimitOrder.side o) s)) s))).

(** The checks insertion makes, in order. *)
Record insertable (b : OrderBookId) (o : LimitOrder.t) (l u : list OrderId) (v : OrderVolume)
    (m : MarketSide) (s : Storage) : Prop := {
  ins_fresh : LimitOrders s !! (b, LimitOrder.id o) = None;
  ins_side : try_push MaxLimitOrdersForPrice
    (index (side_orders (LimitOrder.side o) s !! (b, LimitOrder.price o))) (LimitOrder.id o) = Some l;
  ins_volume : BalanceUnit.checked_add
    (default BalanceUnit.zero
      (bt_get (LimitOrder.price o) (default [] (side_agg (LimitOrder.side o) s !! b))))
    (LimitOrder.amount o) = Some v;
  ins_agg : try_insert MaxSidePriceCount (LimitOrder.price o) v
    (default [] (side_agg (LimitOrder.side o) s !! b)) = Some m;
  ins_user : try_push MaxOpenedLimitOrdersPerUser
    (index (UserLimitOrders s !! (LimitOrder.owner o, b))) (LimitOrder.id o) = Some u
}.

Lemma try_append_side_ok sd b p i s s' :
  StorageDataLayer.try_append_side sd b p i s = (Ok tt, s') ↔
  ∃ l, try_push MaxLimitOrdersForPrice (index (side_orders sd s !! (b, p))) i = Some l ∧
       s' = set_side_orders sd (<[(b, p) := l]> (side_orders sd s)) s.
Proof. unfold StorageDataLayer.try_append_side, index. case_match; naive_solver. Qed.

Lemma try_append_user_ok a b i s s' :
  StorageDataLayer.try_append_user a b i s = (Ok tt, s') ↔
  ∃ l, try_push MaxOpenedLimitOrdersPerUser (index (UserLimitOrders s !! (a, b))) i = Some l ∧
       s' = set_UserLimitOrders (<[(a, b) := l]> (UserLimitOrders s)) s.
Proof. unfold StorageDataLayer.try_append_user, index. case_match; naive_solver. Qed.

Lemma mutate_side_ok sd b f s s' :
  StorageDataLayer.mutate_side sd b f s = (Ok tt, s') ↔
  ∃ m, f (default [] (side_agg sd s !! b)) = Some m ∧
       s' = set_side_agg sd (<[b := m]> (side_agg sd s)) s.
Proof. unfold StorageDataLayer.mutate_side. case_match; naive_solver. Qed.

#[local] Hint Rewrite try_append_side_ok try_append_user_ok mutate_side_ok : run_ok.

(** Both sides of the book run the same code on their own maps. *)
Lemma insert_by_side b o :
  StorageDataLayer.insert_limit_order b o =
  (s ← get_state;
   _ ← ensure (negb (bool_decide (is_Some (LimitOrders s !! (b, LimitOrder.id o)))))
         (OrderBookError LimitOrderAlreadyExists);
   _ ← (_ ← map_err (StorageDataLayer.try_append_side (LimitOrder.side o) b (LimitOrder.price o)
                       (LimitOrder.id o)) (λ _, OrderBookError LimitOrderStorageOverflow);
        map_err (StorageDataLayer.add_to_aggregated (LimitOrder.side o) b (LimitOrder.price o)
          (LimitOrder.amount o)) (λ _, OrderBookError LimitOrderStorageOverflow));
   _ ← map_err (StorageDataLayer.try_append_user (LimitOrder.owner o) b (LimitOrder.id o))
         (λ _, OrderBookError LimitOrderStorageOverflow);
   modify (λ s, set_LimitOrders (<[(b, LimitOrder.id o) := o]> (LimitOrders s)) s)).
Proof. unfold StorageDataLayer.insert_limit_order. by destruct (LimitOrder.side o). Qed.

Lemma insert_ok_iff b o s s' :
  StorageDataLayer.insert_limit_order b o s = (Ok tt, s') ↔
  ∃ l u v m, insertable b o l u v m s ∧ s' = inserted b o l u m s.
Proof.
  rewrite insert_by_side. unfold inserted, StorageDataLayer.add_to_aggregated. split.
  - intros H. run. storage_simpl. zbool. eexists _, _, _, _. split; [split|done]; try done.
    by apply eq_None_not_Some, (bool_decide_eq_false_1 _).
  - intros (l & u & v & m & [Hf Hs Hv Ha Hu] & ->).
    rewrite M_bind_ok. exists s, s. split; [done|]. rewrite Hf. simpl.
    rewrite M_bind_ok. eexists tt, _. split; [done|].
    rewrite M_bind_ok. eexists tt, _. split.
    { rewrite M_bind_ok. eexists tt, _. rewrite !map_err_ok.
      split; [apply try_append_side_ok; eauto|]. apply mutate_side_ok. exists m.
      storage_simpl. rewrite Hv. simpl. eauto. }
    rewrite M_bind_ok. eexists tt, _. rewrite map_err_ok. split.
    { apply try_append_user_ok. exists u. storage_simpl. eauto. }
    rewrite M_modify_ok. by storage_simpl.
Qed.
End runs.

(** ** The invariant *)

Section inv.
Context {Cfg : Config} {SK : StorageKeys}.

(** Divisibility of the base asset of a book. *)
Context (divisibility : OrderBookId → bool).

Record order_ok (b : OrderBookId) (o : LimitOrder.t) : Prop := {
  ok_price_div : BalanceUnit.is_divisible (LimitOrder.price o) = true;
  ok_price_wf : BalanceUnit.wf (LimitOrder.price o);
  ok_price_pos : 0 < BalanceUnit.inner (LimitOrder.price o);
  ok_amount_div : BalanceUnit.is_divisible (LimitOrder.amount o) = divisibility b;
  ok_amount_wf : BalanceUnit.wf (LimitOrder.amount o);
  ok_amount_pos : 0 < BalanceUnit.inner (LimitOrder.amount o)
}.

(** The volume of a list of orders. *)
Definition amount_of (s : Storage) (b : OrderBookId) (i : OrderId) : Z :=
  match LimitOrders s !! (b, i) with
  | Some o => BalanceUnit.inner (LimitOrder.amount o)
  | None => 0
  end.

Definition volume_of (s : Storage) (b : OrderBookId) (l : list OrderId) : Z :=
  foldr (λ i acc, amount_of s b i + acc) 0 l.

Record Inv (s : Storage) : Prop := {
  inv_order b i o : LimitOrders s !! (b, i) = Some o → LimitOrder.id o = i ∧ order_ok b o;
  inv_side_nodup b sd p : NoDup (index (side_orders sd s !! (b, p)));
  inv_side_len b sd p :
    (length (index (side_orders sd s !! (b, p))) ≤ MaxLimitOrdersForPrice)%nat;
  inv_side_iff b sd p i : i ∈ index (side_orders sd s !! (b, p)) ↔
    ∃ o, LimitOrders s !! (b, i) = Some o ∧ LimitOrder.side o = sd ∧ LimitOrder.price o = p;
  inv_side_nonempty b sd p : side_orders sd s !! (b, p) ≠ Some [];
  inv_user_nodup a b : NoDup (index (UserLimitOrders s !! (a, b)));
  inv_user_len a b :
    (length (index (UserLimitOrders s !! (a, b))) ≤ MaxOpenedLimitOrdersPerUser)%nat;
  inv_user_iff a b i : i ∈ index (UserLimitOrders s !! (a, b)) ↔
    ∃ o, LimitOrders s !! (b, i) = Some o ∧ LimitOrder.owner o = a;
  inv_user_nonempty a b : UserLimitOrders s !! (a, b) ≠ Some [];
  inv_agg_wf b sd : bt_wf (default [] (side_agg sd s !! b));
  inv_agg_len b sd : (length (default [] (side_agg sd s !! b)) ≤ MaxSidePriceCount)%nat;
  inv_agg_keys b sd :
    Forall (λ q, BalanceUnit.is_divisible (fst q) = true) (default [] (side_agg sd s !! b));
  inv_agg_get b sd p : BalanceUnit.is_divisible p = true →
    bt_get p (default [] (side_agg sd s !! b)) =
    (λ l, BalanceUnit.mk (volume_of s b l) (divisibility b)) <$> side_orders sd s !! (b, p);
  inv_volume b sd p l : side_orders sd s !! (b, p) = Some l → volume_of s b l ≤ u128_max
}.

Lemma Inv_empty : Inv empty_storage.
Proof.
  split; intros; try destruct sd; simpl in *; rewrite ?lookup_empty in *; simpl; try done.
  all: try (apply NoDup_nil_2).
  all: try lia.
  all: try (split; [by intros ?%elem_of_nil|by intros (?&?&?)]).
  all: try constructor.
  all: repeat constructor.
Qed.

(** *** Volumes *)

Lemma volume_app s b l1 l2 : volume_of s b (l1 ++ l2) = volume_of s b l1 + volume_of s b l2.
Proof. induction l1; simpl; lia. Qed.

Lemma volume_ext s s' b l :
  (∀ i, i ∈ l → LimitOrders s' !! (b, i) = LimitOrders s !! (b, i)) →
  volume_of s' b l = volume_of s b l.
Proof.
  intros Hext. induction l as [|i l IH]; simpl; [done|]. f_equal.
  - unfold amount_of. by rewrite Hext by set_solver.
  - apply IH. set_solver.
Qed.

Lemma amount_of_nonneg s b i : Inv s → 0 ≤ amount_of s b i.
Proof.
  intros HI. unfold amount_of. destruct (LimitOrders s !! (b, i)) as [o|] eqn:E; [|done].
  apply (inv_order _ HI) in E as [_ []]. lia.
Qed.

Lemma volume_nonneg s b l : Inv s → 0 ≤ volume_of s b l.
Proof.
  intros HI. induction l as [|i l IH]; simpl; [done|]. pose proof (amount_of_nonneg s b i HI). lia.
Qed.

(** A non-empty price level has a positive volume. *)
Lemma volume_pos s b sd p l : Inv s → side_orders sd s !! (b, p) = Some l → 0 < volume_of s b l.
Proof.
  intros HI Hl. destruct l as [|i l]; [by apply (inv_side_nonempty _ HI) in Hl|]. simpl.
  assert (∃ o, LimitOrders s !! (b, i) = Some o) as [o Ho].
  { destruct (proj1 (inv_side_iff _ HI b sd p i)) as (o & ? & _); [|eauto].
    rewrite Hl. simpl. left. }
  pose proof (volume_nonneg s b l HI). unfold amount_of at 1. rewrite Ho.
  apply (inv_order _ HI) in Ho as [_ []]. lia.
Qed.

Lemma volume_retain s b i l : NoDup l → i ∈ l →
  volume_of s b (retain_ne i l) = volume_of s b l - amount_of s b i.
Proof.
  unfold retain_ne. induction l as [|j l IH]; intros Hnd Hin; [by apply elem_of_nil in Hin|].
  apply NoDup_cons in Hnd as [Hj Hnd]. rewrite filter_cons. case_decide as Hji.
  - simpl. rewrite IH; [lia|done|]. apply elem_of_cons in Hin as [->|]; done.
  - assert (j = i) as -> by (destruct (decide (j = i)); naive_solver).
    simpl. replace (filter (λ x, x ≠ i) l) with l; [lia|]. clear -Hj.
    induction l as [|k l IH]; [done|]. rewrite filter_cons_True by set_solver.
    f_equal. apply IH. set_solver.
Qed.

(** *** Changing one order

    Insertion, deletion and amount updates all change one order [i] of a book
    together with its price level, its owner's index and the aggregated volumes
    of its side. [change] collects what such a step does to the storage. *)

Definition member_change (i : OrderId) (new : option LimitOrder.t) (l' l : list OrderId) : Prop :=
  ∀ j, j ∈ l' ↔ (j = i ∧ is_Some new) ∨ (j ≠ i ∧ j ∈ l).

Record change (b : OrderBookId) (i : OrderId) (sd : PriceVariant) (p : OrderPrice) (a : AccountId)
    (new : option LimitOrder.t) (L U : option (list OrderId)) (m : MarketSide)
    (s s' : Storage) : Prop := {
  ch_old o : LimitOrders s !! (b, i) = Some o →
    LimitOrder.side o = sd ∧ LimitOrder.price o = p ∧ LimitOrder.owner o = a;
  ch_new o : new = Some o → LimitOrder.id o = i ∧ order_ok b o ∧
    LimitOrder.side o = sd ∧ LimitOrder.price o = p ∧ LimitOrder.owner o = a;
  ch_orders : LimitOrders s' = partial_alter (λ _, new) (b, i) (LimitOrders s);
  ch_side : side_orders sd s' = partial_alter (λ _, L) (b, p) (side_orders sd s);
  ch_user : UserLimitOrders s' = partial_alter (λ _, U) (a, b) (UserLimitOrders s);
  ch_agg : side_agg sd s' = <[b := m]> (side_agg sd s);
  ch_other sd' : sd' ≠ sd →
    side_orders sd' s' = side_orders sd' s ∧ side_agg sd' s' = side_agg sd' s;
  ch_L_some : L ≠ Some [];
  ch_L_nodup : NoDup (index L);
  ch_L_len : (length (index L) ≤ MaxLimitOrdersForPrice)%nat;
  ch_L_mem : member_change i new (index L) (index (side_orders sd s !! (b, p)));
  ch_U_some : U ≠ Some [];
  ch_U_nodup : NoDup (index U);
  ch_U_len : (length (index U) ≤ MaxOpenedLimitOrdersPerUser)%nat;
  ch_U_mem : member_change i new (index U) (index (UserLimitOrders s !! (a, b)));
  ch_p : BalanceUnit.is_divisible p = true;
  ch_m_wf : bt_wf m;
  ch_m_len : (length m ≤ MaxSidePriceCount)%nat;
  ch_m_keys : Forall (λ q, BalanceUnit.is_divisible (fst q) = true) m;
  ch_m_get q : BalanceUnit.is_divisible q = true → q ≠ p →
    bt_get q m = bt_get q (default [] (side_agg sd s !! b));
  ch_m_p : bt_get p m = (λ l, BalanceUnit.mk (volume_of s' b l) (divisibility b)) <$> L;
  ch_volume l : L = Some l → volume_of s' b l ≤ u128_max
}.

Section change.
Context b i sd p a new L U m s s' (HI : Inv s) (Hch : change b i sd p a new L U m s s').

Lemma change_side b' sd' q :
  (b' = b ∧ sd' = sd ∧ q = p ∧ side_orders sd' s' !! (b', q) = L) ∨
  (¬ (b' = b ∧ sd' = sd ∧ q = p) ∧
   side_orders sd' s' !! (b', q) = side_orders sd' s !! (b', q) ∧
   ∀ l, side_orders sd' s !! (b', q) = Some l → volume_of s' b' l = volume_of s b' l).
Proof.
  destruct (decide (b' = b ∧ sd' = sd ∧ q = p)) as [(-> & -> & ->)|Hne].
  { left. rewrite (ch_side _ _ _ _ _ _ _ _ _ _ _ Hch), lookup_partial_alter_eq. done. }
  right. split; [done|]. split.
  - destruct (decide (sd' = sd)) as [->|].
    + rewrite (ch_side _ _ _ _ _ _ _ _ _ _ _ Hch), lookup_partial_alter_ne; naive_solver.
    + by destruct (ch_other _ _ _ _ _ _ _ _ _ _ _ Hch sd') as [-> _].
  - intros l Hl. apply volume_ext. intros j Hj.
    rewrite (ch_orders _ _ _ _ _ _ _ _ _ _ _ Hch), lookup_partial_alter_ne; [done|].
    intros [= <- <-]. apply Hne.
    destruct (proj1 (inv_side_iff _ HI b sd' q i)) as (o & Ho & <- & <-); [by rewrite Hl|].
    apply (ch_old _ _ _ _ _ _ _ _ _ _ _ Hch) in Ho. naive_solver.
Qed.

Lemma change_user a' b' :
  (a' = a ∧ b' = b ∧ UserLimitOrders s' !! (a', b') = U) ∨
  (¬ (a' = a ∧ b' = b) ∧ UserLimitOrders s' !! (a', b') = UserLimitOrders s !! (a', b')).
Proof.
  rewrite (ch_user _ _ _ _ _ _ _ _ _ _ _ Hch).
  destruct (decide (a' = a ∧ b' = b)) as [[-> ->]|Hne].
  - left. by rewrite lookup_partial_alter_eq.
  - right. rewrite lookup_partial_alter_ne; naive_solver.
Qed.

Lemma change_orders b' j :
  (b' = b ∧ j = i ∧ LimitOrders s' !! (b', j) = new) ∨
  (¬ (b' = b ∧ j = i) ∧ LimitOrders s' !! (b', j) = LimitOrders s !! (b', j)).
Proof.
  rewrite (ch_orders _ _ _ _ _ _ _ _ _ _ _ Hch).
  destruct (decide (b' = b ∧ j = i)) as [[-> ->]|Hne].
  - left. by rewrite lookup_partial_alter_eq.
  - right. rewrite lookup_partial_alter_ne; naive_solver.
Qed.

Lemma change_agg b' sd' :
  (b' = b ∧ sd' = sd ∧ side_agg sd' s' !! b' = Some m) ∨
  (¬ (b' = b ∧ sd' = sd) ∧ side_agg sd' s' !! b' = side_agg sd' s !! b').
Proof.
  destruct (decide (b' = b ∧ sd' = sd)) as [[-> ->]|Hne].
  - left. by rewrite (ch_agg _ _ _ _ _ _ _ _ _ _ _ Hch), lookup_insert_eq.
  - right. split; [done|]. destruct (decide (sd' = sd)) as [->|].
    + rewrite (ch_agg _ _ _ _ _ _ _ _ _ _ _ Hch), lookup_insert_ne; naive_solver.
    + by destruct (ch_other _ _ _ _ _ _ _ _ _ _ _ Hch sd') as [_ ->].
Qed.

Lemma change_side_iff b' sd' q j : j ∈ index (side_orders sd' s' !! (b', q)) ↔
  ∃ o, LimitOrders s' !! (b', j) = Some o ∧ LimitOrder.side o = sd' ∧ LimitOrder.price o = q.
Proof.
  pose proof (ch_old _ _ _ _ _ _ _ _ _ _ _ Hch) as Hold.
  pose proof (ch_new _ _ _ _ _ _ _ _ _ _ _ Hch) as Hnew.
  destruct (change_side b' sd' q) as [(-> & -> & -> & ->)|(Hne & -> & _)].
  - rewrite (ch_L_mem _ _ _ _ _ _ _ _ _ _ _ Hch j), (inv_side_iff _ HI).
    destruct (change_orders b j) as [(_ & -> & ->)|(? & ->)]; [|naive_solver].
    split; [intros [[_ [o Ho]]|[]]; [|done]|intros (o & Ho & _)]; naive_solver.
  - rewrite (inv_side_iff _ HI).
    destruct (change_orders b' j) as [(-> & -> & ->)|(? & ->)]; [|done].
    split; intros (o & Ho & <- & <-); exfalso; naive_solver.
Qed.

Lemma change_user_iff a' b' j : j ∈ index (UserLimitOrders s' !! (a', b')) ↔
  ∃ o, LimitOrders s' !! (b', j) = Some o ∧ LimitOrder.owner o = a'.
Proof.
  pose proof (ch_old _ _ _ _ _ _ _ _ _ _ _ Hch) as Hold.
  pose proof (ch_new _ _ _ _ _ _ _ _ _ _ _ Hch) as Hnew.
  destruct (change_user a' b') as [(-> & -> & ->)|(Hne & ->)].
  - rewrite (ch_U_mem _ _ _ _ _ _ _ _ _ _ _ Hch j), (inv_user_iff _ HI).
    destruct (change_orders b j) as [(_ & -> & ->)|(? & ->)]; [|naive_solver].
    split; [intros [[_ [o Ho]]|[]]; [|done]|intros (o & Ho & _)]; naive_solver.
  - rewrite (inv_user_iff _ HI).
    destruct (change_orders b' j) as [(-> & -> & ->)|(? & ->)]; [|done].
    split; intros (o & Ho & <-); exfalso; naive_solver.
Qed.

Lemma change_agg_get b' sd' q : BalanceUnit.is_divisible q = true →
  bt_get q (default [] (side_agg sd' s' !! b')) =
  (λ l, BalanceUnit.mk (volume_of s' b' l) (divisibility b')) <$> side_orders sd' s' !! (b', q).
Proof.
  intros Hq. destruct (change_agg b' sd') as [(-> & -> & ->)|(Hne & ->)].
  - simpl. destruct (change_side b sd q) as [(_ & _ & -> & ->)|(Hq' & -> & Hv)].
    + by apply (ch_m_p _ _ _ _ _ _ _ _ _ _ _ Hch).
    + rewrite (ch_m_get _ _ _ _ _ _ _ _ _ _ _ Hch) by naive_solver.
      rewrite (inv_agg_get _ HI) by done. destruct (side_orders sd s !! (b, q)) eqn:E; [|done].
      simpl. by rewrite Hv.
  - destruct (change_side b' sd' q) as [(-> & -> & _)|(_ & -> & Hv)]; [naive_solver|].
    rewrite (inv_agg_get _ HI) by done. destruct (side_orders sd' s !! (b', q)) eqn:E; [|done].
    simpl. by rewrite Hv.
Qed.

Lemma Inv_change : Inv s'.
Proof.
  pose proof Hch as Hch'. destruct Hch' as [].
  split.
  all: try (intros b' sd' q; destruct (change_side b' sd' q) as [(_&_&_&->)|(_&->&_)];
            [done|by apply HI]).
  all: try (intros a' b'; destruct (change_user a' b') as [(_&_&->)|(_&->)]; [done|by apply HI]).
  all: try (intros b' sd'; destruct (change_agg b' sd') as [(_&_&->)|(_&->)]; [done|by apply HI]).
  - intros b' j o. destruct (change_orders b' j) as [(-> & -> & ->)|(? & ->)].
    + naive_solver.
    + apply (inv_order _ HI).
  - apply change_side_iff.
  - apply change_user_iff.
  - apply change_agg_get.
  - intros b' sd' q l. destruct (change_side b' sd' q) as [(->&_&_&->)|(_&->&Hv)]; [auto|].
    intros Hl. rewrite Hv by done. eapply (inv_volume _ HI); eauto.
Qed.
End change.

(** ** Insertion *)

Lemma try_push_Some {A} n (l l' : list A) x :
  try_push n l x = Some l' ↔ l' = l ++ [x] ∧ (length l' ≤ n)%nat.
Proof.
  unfold try_push. destruct (Nat.ltb_spec (length l) n) as [Hl|Hl]; split; try done.
  - intros [= <-]. split; [done|]. rewrite length_app. simpl. lia.
  - by intros [-> _].
  - intros [-> H]. rewrite length_app in H. simpl in H. lia.
Qed.

Lemma try_insert_Some n p v (m m' : MarketSide) : (length m ≤ n)%nat →
  try_insert n p v m = Some m' → m' = bt_insert p v m ∧ (length m' ≤ n)%nat.
Proof.
  unfold try_insert. intros Hn H. case_match eqn:E; [|done]. injection H as <-. split; [done|].
  rewrite bt_length_insert. destruct (bt_get p m); [done|].
  apply orb_prop in E as [?%Nat.ltb_lt|[? [=]]%bool_decide_eq_true_1]; lia.
Qed.

Lemma try_insert_present n p v (m : MarketSide) :
  is_Some (bt_get p m) → try_insert n p v m = Some (bt_insert p v m).
Proof. intros. unfold try_insert. by rewrite (bool_decide_eq_true_2 _), orb_true_r. Qed.

(** Looking up another price of an aggregated side. *)
Lemma price_cmp_ne (p q : OrderPrice) : BalanceUnit.is_divisible p = true →
  BalanceUnit.is_divisible q = true → q ≠ p → cmp q p ≠ Eq.
Proof. intros Hp Hq Hne E. apply Hne, BalanceUnit.cmp_eq_same; congruence. Qed.

Lemma unit_eta u d : BalanceUnit.is_divisible u = d → u = BalanceUnit.mk (BalanceUnit.inner u) d.
Proof. by destruct u; simpl; intros ->. Qed.

(** The aggregated volume an insertion writes. *)
Lemma insert_volume b o l u v m s : Inv s → order_ok b o → insertable b o l u v m s →
  v = BalanceUnit.mk
        (volume_of s b (index (side_orders (LimitOrder.side o) s !! (b, LimitOrder.price o)))
         + BalanceUnit.inner (LimitOrder.amount o)) (divisibility b) ∧
  BalanceUnit.inner v ≤ u128_max.
Proof.
  intros HI [Hpd _ _ Had Haw Hap] Hins. pose proof (ins_volume _ _ _ _ _ _ _ Hins) as Hv.
  rewrite (inv_agg_get _ HI) in Hv by done.
  destruct (side_orders _ _ !! _) as [l0|] eqn:El; simpl in *.
  - pose proof (volume_nonneg s b l0 HI). pose proof (inv_volume _ HI _ _ _ _ El).
    apply BalanceUnit.checked_add_iff in Hv as (Hd & Hv & [_ Hw]); [|done|done].
    split; [|done]. apply BalanceUnit.value_inj; simpl in *.
    + rewrite Hd, Had. by destruct (divisibility b).
    + rewrite Hv. unfold BalanceUnit.value. simpl. rewrite Had.
      destruct (divisibility b); lia.
  - rewrite BalanceUnit.checked_add_zero_l in Hv by done. injection Hv as <-.
    split; [by apply unit_eta|apply Haw].
Qed.

Lemma inserted_volume b o l0 l u m s : (∀ j, j ∈ l0 → j ≠ LimitOrder.id o) →
  volume_of (inserted b o l u m s) b (l0 ++ [LimitOrder.id o]) =
  volume_of s b l0 + BalanceUnit.inner (LimitOrder.amount o).
Proof.
  intros Hne. rewrite volume_app. f_equal.
  - apply volume_ext. intros j Hj. unfold inserted. storage_simpl.
    rewrite lookup_insert_ne; [done|]. intros [= <-]. by apply (Hne (LimitOrder.id o)).
  - simpl. unfold amount_of, inserted. storage_simpl. rewrite lookup_insert_eq. lia.
Qed.

Lemma index_fresh_side b sd p i s : Inv s → LimitOrders s !! (b, i) = None →
  i ∉ index (side_orders sd s !! (b, p)).
Proof. intros HI Hn (o & Ho & _)%(inv_side_iff _ HI). congruence. Qed.

Lemma index_fresh_user a b i s : Inv s → LimitOrders s !! (b, i) = None →
  i ∉ index (UserLimitOrders s !! (a, b)).
Proof. intros HI Hn (o & Ho & _)%(inv_user_iff _ HI). congruence. Qed.

(** Appending a fresh element. *)
Lemma NoDup_snoc {A} (l : list A) x : NoDup l → x ∉ l → NoDup (l ++ [x]).
Proof.
  intros. apply NoDup_app. split; [done|]. split; [|apply NoDup_singleton].
  set_solver.
Qed.

Lemma Some_snoc_ne {A} (l : list A) x : Some (l ++ [x]) ≠ Some [].
Proof. by destruct l. Qed.

Lemma member_change_snoc i o l : i ∉ l → member_change i (Some o) (l ++ [i]) l.
Proof.
  intros Hi j. rewrite elem_of_app, list_elem_of_singleton.
  destruct (decide (j = i)) as [->|]; naive_solver.
Qed.
Lemma insert_change b o l u v m s : Inv s → order_ok b o → insertable b o l u v m s →
  change b (LimitOrder.id o) (LimitOrder.side o) (LimitOrder.price o) (LimitOrder.owner o)
    (Some o) (Some l) (Some u) m s (inserted b o l u m s).
Proof.
  intros HI Ho Hins. pose proof (insert_volume _ _ _ _ _ _ _ HI Ho Hins) as [Hv Hmax].
  pose proof (inv_agg_wf _ HI b (LimitOrder.side o)) as Hwf.
  pose proof (inv_agg_keys _ HI b (LimitOrder.side o)) as Hkeys.
  destruct Hins as [Hf [-> Hl]%try_push_Some _ Ha [-> Hu]%try_push_Some].
  apply try_insert_Some in Ha as [-> Hm]; [|apply HI]. pose proof Ho as [].
  pose proof (index_fresh_side b (LimitOrder.side o) (LimitOrder.price o) _ s HI Hf) as Hfs.
  pose proof (index_fresh_user (LimitOrder.owner o) b _ s HI Hf) as Hfu.
  assert (∀ l u m, volume_of (inserted b o l u m s) b
    (index (side_orders (LimitOrder.side o) s !! (b, LimitOrder.price o)) ++ [LimitOrder.id o])
    = BalanceUnit.inner v) as Hvol.
  { intros. rewrite inserted_volume; [by rewrite Hv|]. naive_solver. }
  split; unfold inserted; storage_simpl; try done.
  - intros o'. by rewrite Hf.
  - by intros ? [= <-].
  - intros sd' ?. by storage_simpl.
  - apply Some_snoc_ne.
  - apply NoDup_snoc; [apply HI|done].
  - by apply member_change_snoc.
  - apply Some_snoc_ne.
  - apply NoDup_snoc; [apply HI|done].
  - by apply member_change_snoc.
  - by apply bt_wf_insert.
  - by apply (bt_insert_keys (λ q, BalanceUnit.is_divisible q = true)).
  - intros. by apply bt_get_insert_ne, price_cmp_ne.
  - rewrite bt_get_insert_eq. setoid_rewrite Hvol. f_equal. by rewrite Hv.
  - intros l [= <-]. setoid_rewrite Hvol. done.
Qed.

Lemma insert_Inv b o s s' : Inv s → order_ok b o →
  StorageDataLayer.insert_limit_order b o s = (Ok tt, s') → Inv s'.
Proof.
  intros HI Ho (l & u & v & m & Hins & ->)%insert_ok_iff.
  by eapply Inv_change, insert_change.
Qed.
(** ** Deletion *)

Definition level (l : list OrderId) : option (list OrderId) :=
  match l with [] => None | _ => Some l end.

Lemma index_level l : index (level l) = l.
Proof. by destruct l. Qed.

Lemma level_ne l : level l ≠ Some [].
Proof. by destruct l. Qed.

Lemma alter_level `{Countable K} (k : K) (l : list OrderId) (m : gmap K (list OrderId)) :
  match l with [] => delete k m | _ => <[k := l]> m end = partial_alter (λ _, level l) k m.
Proof. by destruct l. Qed.

(** The aggregated side after a subtraction at one price. *)
Definition agg_set (p : OrderPrice) (v : OrderVolume) (m : MarketSide) : MarketSide :=
  if BalanceUnit.is_zero v then bt_remove p m else bt_insert p v m.

Lemma agg_set_spec p v (m : MarketSide) n : BalanceUnit.is_divisible p = true → bt_wf m →
  Forall (λ q, BalanceUnit.is_divisible (fst q) = true) m → is_Some (bt_get p m) →
  (length m ≤ n)%nat →
  bt_wf (agg_set p v m) ∧ (length (agg_set p v m) ≤ n)%nat ∧
  Forall (λ q, BalanceUnit.is_divisible (fst q) = true) (agg_set p v m) ∧
  (∀ q, BalanceUnit.is_divisible q = true → q ≠ p → bt_get q (agg_set p v m) = bt_get q m) ∧
  bt_get p (agg_set p v m) = if BalanceUnit.is_zero v then None else Some v.
Proof.
  intros Hp Hwf Hall [w Hw] Hn. unfold agg_set. destruct (BalanceUnit.is_zero v).
  - split; [by apply bt_wf_remove|]. split.
    { pose proof (bt_length_remove p m). lia. }
    split; [by apply bt_remove_Forall|]. split.
    + intros. by apply bt_get_remove_ne, price_cmp_ne.
    + by apply bt_get_remove_eq.
  - split; [by apply bt_wf_insert|]. split.
    { by rewrite bt_length_insert, Hw. }
    split; [by apply (bt_insert_keys (λ q, BalanceUnit.is_divisible q = true))|]. split.
    + intros. by apply bt_get_insert_ne, price_cmp_ne.
    + by apply bt_get_insert_eq.
Qed.

Lemma sub_from_aggregated_run sd b p v s cur vol :
  bt_get p (default [] (side_agg sd s !! b)) = Some cur →
  BalanceUnit.checked_sub cur v = Some vol →
  StorageDataLayer.sub_from_aggregated sd b p v s =
  (Ok tt, set_side_agg sd
            (<[b := agg_set p vol (default [] (side_agg sd s !! b))]> (side_agg sd s)) s).
Proof.
  intros Hg Hv. unfold StorageDataLayer.sub_from_aggregated, StorageDataLayer.mutate_side, agg_set.
  rewrite Hg. simpl. rewrite Hv. simpl. destruct (BalanceUnit.is_zero vol); [done|].
  rewrite try_insert_present; [done|]. by rewrite Hg.
Qed.

Lemma retain_ne_spec i l : NoDup l →
  NoDup (retain_ne i l) ∧ (length (retain_ne i l) ≤ length l)%nat ∧
  member_change i None (retain_ne i l) l.
Proof.
  intros Hnd. unfold retain_ne. split; [by apply NoDup_filter|].
  split; [apply length_filter|]. intros j. rewrite list_elem_of_filter.
  split; [naive_solver|]. intros [[_ [? [=]]]|]; done.
Qed.

(** The storage after the deletion of an order. *)
Definition deleted (b : OrderBookId) (o : LimitOrder.t) (s : Storage) : Storage :=
  let sd := LimitOrder.side o in
  let p := LimitOrder.price o in
  let a := LimitOrder.owner o in
  let i := LimitOrder.id o in
  let l := index (side_orders sd s !! (b, p)) in
  set_side_agg sd
    (<[b := agg_set p (BalanceUnit.mk (volume_of s b l - BalanceUnit.inner (LimitOrder.amount o))
                         (divisibility b))
              (default [] (side_agg sd s !! b))]> (side_agg sd s))
    (set_side_orders sd (partial_alter (λ _, level (retain_ne i l)) (b, p) (side_orders sd s))
      (set_UserLimitOrders
        (partial_alter (λ _, level (retain_ne i (index (UserLimitOrders s !! (a, b))))) (a, b)
          (UserLimitOrders s))
        (set_LimitOrders (delete (b, i) (LimitOrders s)) s))).

(** What the invariant gives for a stored order: it is in its price level and
    in its owner's index, and the aggregated volume covers it. *)
Lemma stored b i o s : Inv s → LimitOrders s !! (b, i) = Some o →
  LimitOrder.id o = i ∧ order_ok b o ∧
  ∃ l u, side_orders (LimitOrder.side o) s !! (b, LimitOrder.price o) = Some l ∧ i ∈ l ∧
    UserLimitOrders s !! (LimitOrder.owner o, b) = Some u ∧ i ∈ u ∧
    bt_get (LimitOrder.price o) (default [] (side_agg (LimitOrder.side o) s !! b)) =
      Some (BalanceUnit.mk (volume_of s b l) (divisibility b)) ∧
    BalanceUnit.inner (LimitOrder.amount o) ≤ volume_of s b l ≤ u128_max.
Proof.
  intros HI Ho. pose proof (inv_order _ HI _ _ _ Ho) as [Hi Hok]. split; [done|]. split; [done|].
  assert (i ∈ index (side_orders (LimitOrder.side o) s !! (b, LimitOrder.price o))) as Hl
    by (apply (inv_side_iff _ HI); eauto).
  assert (i ∈ index (UserLimitOrders s !! (LimitOrder.owner o, b))) as Hu
    by (apply (inv_user_iff _ HI); eauto).
  pose proof (inv_agg_get _ HI b (LimitOrder.side o) _ (ok_price_div _ _ Hok)) as Hg.
  destruct (side_orders _ _ !! _) as [l|] eqn:El; simpl in *; [|by apply elem_of_nil in Hl].
  destruct (UserLimitOrders _ !! _) as [u|] eqn:Eu; simpl in *; [|by apply elem_of_nil in Hu].
  exists l, u. repeat (split; [done|]). split; [|by eapply (inv_volume _ HI)].
  pose proof (volume_retain s b i l) as Hr. pose proof (volume_nonneg s b (retain_ne i l) HI).
  unfold amount_of in Hr. rewrite Ho in Hr. rewrite Hr in *; [lia| |done].
  pose proof (inv_side_nodup _ HI b (LimitOrder.side o) (LimitOrder.price o)) as Hnd.
  by rewrite El in Hnd.
Qed.

Lemma delete_by_side b i s o : LimitOrders s !! (b, i) = Some o →
  StorageDataLayer.delete_limit_order b i s =
  (_ ← modify (λ s, set_LimitOrders (delete (b, i) (LimitOrders s)) s);
   user_orders ← ok_or (UserLimitOrders s !! (LimitOrder.owner o, b))
                   (OrderBookError DeleteLimitOrderError);
   _ ← modify (λ s, set_UserLimitOrders
         (partial_alter (λ _, level (retain_ne (LimitOrder.id o) user_orders))
            (LimitOrder.owner o, b) (UserLimitOrders s)) s);
   _ ← map_err (StorageDataLayer.remove_from_side (LimitOrder.side o) b o)
         (λ _, OrderBookError DeleteLimitOrderError);
   map_err (StorageDataLayer.sub_from_aggregated (LimitOrder.side o) b (LimitOrder.price o)
              (LimitOrder.amount o)) (λ _, OrderBookError DeleteLimitOrderError)) s.
Proof.
  intros Ho. unfold StorageDataLayer.delete_limit_order.
  exec. rewrite Ho. exec. destruct (UserLimitOrders s !! _); exec; [|done].
  rewrite alter_level. by destruct (LimitOrder.side o).
Qed.

Lemma delete_run b i s o : Inv s → LimitOrders s !! (b, i) = Some o →
  StorageDataLayer.delete_limit_order b i s = (Ok tt, deleted b o s).
Proof.
  intros HI Ho. rewrite (delete_by_side _ _ _ _ Ho).
  destruct (stored _ _ _ _ HI Ho) as (<- & [] & l & u & Hl & Hil & Hu & Hiu & Hg & Hv).
  exec. rewrite Hu. exec. unfold StorageDataLayer.remove_from_side.
  erewrite M_bind_run_ok by (by apply map_err_run).
  storage_simpl. rewrite Hl, alter_level. apply map_err_run.
  unfold deleted. rewrite Hl, Hu. simpl.
  erewrite sub_from_aggregated_run; storage_simpl; [done|done|].
  apply BalanceUnit.checked_sub_same; try done.
  - split; simpl; [by apply volume_nonneg|lia].
  - apply BalanceUnit.value_le_same; [done|]. simpl. lia.
Qed.

(** The volumes of a book do not change where the changed order is not listed. *)
Lemma volume_other s s' b i new l : LimitOrders s' = partial_alter (λ _, new) (b, i) (LimitOrders s) →
  i ∉ l → volume_of s' b l = volume_of s b l.
Proof.
  intros E Hi. apply volume_ext. intros j Hj. rewrite E, lookup_partial_alter_ne; [done|].
  intros [= <-]. done.
Qed.

Lemma retain_notin i l : i ∉ retain_ne i l.
Proof. unfold retain_ne. rewrite list_elem_of_filter. naive_solver. Qed.

(** The levels of a stored order without it. *)
Lemma retained b o l u s : Inv s → LimitOrders s !! (b, LimitOrder.id o) = Some o →
  side_orders (LimitOrder.side o) s !! (b, LimitOrder.price o) = Some l →
  UserLimitOrders s !! (LimitOrder.owner o, b) = Some u →
  let l' := retain_ne (LimitOrder.id o) l in
  let u' := retain_ne (LimitOrder.id o) u in
  (NoDup l' ∧ (length l' ≤ MaxLimitOrdersForPrice)%nat ∧ member_change (LimitOrder.id o) None l' l) ∧
  (NoDup u' ∧ (length u' ≤ MaxOpenedLimitOrdersPerUser)%nat ∧
    member_change (LimitOrder.id o) None u' u) ∧
  volume_of s b l' = volume_of s b l - BalanceUnit.inner (LimitOrder.amount o) ∧
  volume_of (deleted b o s) b l' = volume_of s b l' ∧
  (BalanceUnit.is_zero (BalanceUnit.mk (volume_of s b l') (divisibility b)) = true ↔ l' = []).
Proof.
  intros HI Ho Hl Hu l' u'.
  pose proof (inv_side_nodup _ HI b (LimitOrder.side o) (LimitOrder.price o)) as Hnl.
  pose proof (inv_side_len _ HI b (LimitOrder.side o) (LimitOrder.price o)) as Hll.
  pose proof (inv_user_nodup _ HI (LimitOrder.owner o) b) as Hnu.
  pose proof (inv_user_len _ HI (LimitOrder.owner o) b) as Hlu.
  rewrite Hl in Hnl, Hll. rewrite Hu in Hnu, Hlu. simpl in *.
  destruct (retain_ne_spec (LimitOrder.id o) l Hnl) as (Hl1 & Hl2 & Hl3).
  destruct (retain_ne_spec (LimitOrder.id o) u Hnu) as (Hu1 & Hu2 & Hu3).
  split; [split_and!; [done|unfold l'; lia|done]|]. split; [split_and!; [done|unfold u'; lia|done]|]. split_and!.
  - unfold l'. rewrite volume_retain; [by unfold amount_of; rewrite Ho|done|].
    destruct (stored _ _ _ _ HI Ho) as (_ & _ & ? & ? & ? & ? & _). by simplify_eq.
  - eapply volume_other; [by unfold deleted; storage_simpl|apply retain_notin].
  - unfold BalanceUnit.is_zero. simpl. rewrite Z.eqb_eq. split; [|by intros ->].
    destruct l' as [|j l1] eqn:El'; [done|]. simpl.
    assert (j ∈ l) as Hj.
    { assert (j ∈ retain_ne (LimitOrder.id o) l) as Hj by (fold l'; rewrite El'; left).
      unfold retain_ne in Hj. by apply list_elem_of_filter in Hj as []. }
    destruct (proj1 (inv_side_iff _ HI b (LimitOrder.side o) (LimitOrder.price o) j))
      as (o' & Ho' & _); [by rewrite Hl|].
    pose proof (volume_nonneg s b l1 HI). unfold amount_of at 1. rewrite Ho'.
    apply (inv_order _ HI) in Ho' as [_ []]. lia.
Qed.

Lemma delete_change b i o s : Inv s → LimitOrders s !! (b, i) = Some o →
  ∃ L U m, change b i (LimitOrder.side o) (LimitOrder.price o) (LimitOrder.owner o) None L U m
    s (deleted b o s).
Proof.
  intros HI Ho. destruct (stored _ _ _ _ HI Ho) as (<- & Hok & l & u & Hl & Hil & Hu & Hiu & Hg & Hv).
  destruct (retained b o l u s HI Ho Hl Hu)
    as ((Hl1 & Hl2 & Hl3) & (Hu1 & Hu2 & Hu3) & Hvol & Hvd & Hz).
  destruct (agg_set_spec (LimitOrder.price o)
    (BalanceUnit.mk (volume_of s b (retain_ne (LimitOrder.id o) l)) (divisibility b))
    (default [] (side_agg (LimitOrder.side o) s !! b)) MaxSidePriceCount)
    as (Hm1 & Hm2 & Hm3 & Hm4 & Hm5); [apply Hok|apply HI|apply HI|by rewrite Hg|apply HI|].
  eexists (level (retain_ne (LimitOrder.id o) l)), (level (retain_ne (LimitOrder.id o) u)), _.
  split; rewrite ?index_level, ?Hl, ?Hu; simpl; try done.
  - intros o' ?. by simplify_eq.
  - unfold deleted. by storage_simpl.
  - unfold deleted. rewrite Hl. by storage_simpl.
  - unfold deleted. rewrite Hu. by storage_simpl.
  - unfold deleted. rewrite Hl. simpl. rewrite <- Hvol. by storage_simpl.
  - intros sd' ?. unfold deleted. by storage_simpl.
  - apply level_ne.
  - apply level_ne.
  - apply Hok.
  - rewrite Hm5, <- Hvd. rewrite <- Hvd in Hz. destruct (BalanceUnit.is_zero _) eqn:Ez.
    + by rewrite (proj1 Hz eq_refl).
    + destruct (retain_ne _ l); [|done]. by destruct (proj2 Hz eq_refl).
  - intros l'. assert (volume_of (deleted b o s) b (retain_ne (LimitOrder.id o) l) ≤ u128_max)
      by (destruct Hok; lia).
    destruct (retain_ne _ l); [done|]. by intros [= <-].
Qed.

Lemma delete_Inv b i o s : Inv s → LimitOrders s !! (b, i) = Some o → Inv (deleted b o s).
Proof.
  intros HI Ho. destruct (delete_change _ _ _ _ HI Ho) as (L & U & m & Hch).
  by eapply Inv_change.
Qed.

(** ** Amount updates *)

Definition updated (b : OrderBookId) (o : LimitOrder.t) (n : OrderVolume) (s : Storage) : Storage :=
  let sd := LimitOrder.side o in
  let p := LimitOrder.price o in
  let l := index (side_orders sd s !! (b, p)) in
  set_LimitOrders (<[(b, LimitOrder.id o) := LimitOrder.set_amount o n]> (LimitOrders s))
    (set_side_agg sd
      (<[b := agg_set p
                (BalanceUnit.mk (volume_of s b l - (BalanceUnit.inner (LimitOrder.amount o)
                                                    - BalanceUnit.inner n)) (divisibility b))
                (default [] (side_agg sd s !! b))]> (side_agg sd s)) s).

(** A smaller positive amount in the precision of the book. *)
Definition reduces (b : OrderBookId) (n : OrderVolume) (o : LimitOrder.t) : Prop :=
  BalanceUnit.is_divisible n = divisibility b ∧
  0 < BalanceUnit.inner n < BalanceUnit.inner (LimitOrder.amount o).

Lemma update_run b i s o n : Inv s → LimitOrders s !! (b, i) = Some o → reduces b n o →
  StorageDataLayer.update_limit_order_amount b i n s = (Ok tt, updated b o n s).
Proof.
  intros HI Ho [Hnd Hn].
  destruct (stored _ _ _ _ HI Ho) as (<- & [] & l & u & Hl & Hil & Hu & Hiu & Hg & Hv).
  assert (BalanceUnit.wf n) by (destruct ok_amount_wf0; split; lia).
  unfold StorageDataLayer.update_limit_order_amount. exec. rewrite Ho. exec.
  rewrite bool_decide_eq_false_2 by (intros ->; lia).
  unfold BalanceUnit.is_zero. rewrite (proj2 (Z.eqb_neq _ _)) by lia.
  rewrite BalanceUnit.gt_value, (proj2 (Z.ltb_lt _ _)).
  2: { apply Z.nle_gt. rewrite BalanceUnit.value_le_same by congruence. lia. }
  exec. rewrite BalanceUnit.checked_sub_same; [|done|done|congruence|].
  2: { rewrite BalanceUnit.value_le_same by congruence. lia. }
  exec. erewrite M_bind_run_ok.
  2: { instantiate (2 := tt).
    transitivity (map_err (StorageDataLayer.sub_from_aggregated (LimitOrder.side o) b
      (LimitOrder.price o) (BalanceUnit.mk (BalanceUnit.inner (LimitOrder.amount o)
        - BalanceUnit.inner n) (BalanceUnit.is_divisible (LimitOrder.amount o))))
      (λ _, OrderBookError UpdateLimitOrderError) s); [by destruct (LimitOrder.side o)|].
    apply map_err_run. eapply sub_from_aggregated_run; [done|].
    destruct ok_amount_wf0. apply BalanceUnit.checked_sub_same; [| |done|].
    + split; simpl; [by apply volume_nonneg|lia].
    + split; simpl; lia.
    + apply BalanceUnit.value_le_same; simpl; [done|lia]. }
  unfold updated, modify. rewrite Hl. by storage_simpl.
Qed.

Lemma updated_volume b o n l s : LimitOrders s !! (b, LimitOrder.id o) = Some o →
  NoDup l → LimitOrder.id o ∈ l →
  volume_of (updated b o n s) b l =
  volume_of s b l - (BalanceUnit.inner (LimitOrder.amount o) - BalanceUnit.inner n).
Proof.
  intros Ho Hnd Hin. set (i := LimitOrder.id o) in *.
  pose proof (volume_retain s b i l Hnd Hin) as H1.
  pose proof (volume_retain (updated b o n s) b i l Hnd Hin) as H2.
  assert (volume_of (updated b o n s) b (retain_ne i l) = volume_of s b (retain_ne i l)) as H3.
  { eapply (volume_other s _ b i (Some (LimitOrder.set_amount o n))); [done|apply retain_notin]. }
  revert H1 H2. unfold amount_of, updated. storage_simpl. rewrite Ho, lookup_insert_eq. simpl.
  unfold updated in H3. lia.
Qed.

Lemma member_change_same i o l : i ∈ l → member_change i (Some o) l l.
Proof. intros Hi j. destruct (decide (j = i)) as [->|]; naive_solver. Qed.

Lemma update_change b i o n s : Inv s → LimitOrders s !! (b, i) = Some o → reduces b n o →
  ∃ L U m, change b i (LimitOrder.side o) (LimitOrder.price o) (LimitOrder.owner o)
    (Some (LimitOrder.set_amount o n)) L U m s (updated b o n s).
Proof.
  intros HI Ho [Hnd Hn].
  destruct (stored _ _ _ _ HI Ho) as (<- & Hok & l & u & Hl & Hil & Hu & Hiu & Hg & Hv).
  pose proof (inv_side_nodup _ HI b (LimitOrder.side o) (LimitOrder.price o)) as Hnl.
  rewrite Hl in Hnl. pose proof (updated_volume b o n l s Ho Hnl Hil) as Hvu. pose proof Hok as [].
  destruct (agg_set_spec (LimitOrder.price o)
    (BalanceUnit.mk (volume_of (updated b o n s) b l) (divisibility b))
    (default [] (side_agg (LimitOrder.side o) s !! b)) MaxSidePriceCount)
    as (Hm1 & Hm2 & Hm3 & Hm4 & Hm5); [done|apply HI|apply HI|by rewrite Hg|apply HI|].
  eexists (Some l), (Some u), _.
  split; simpl; try done.
  - intros o' ?. by simplify_eq.
  - intros ? [= <-]. split; [done|]. split; [|done].
    split; simpl; try done; [|lia]. destruct ok_amount_wf0. split; lia.
  - unfold updated. storage_simpl. by rewrite <- Hl, partial_alter_self.
  - unfold updated. storage_simpl. by rewrite <- Hu, partial_alter_self.
  - unfold updated. storage_simpl. rewrite Hl. simpl. by rewrite <- Hvu.
  - intros sd' ?. unfold updated. by storage_simpl.
  - intros [= ->]. by apply elem_of_nil in Hil.
  - pose proof (inv_side_len _ HI b (LimitOrder.side o) (LimitOrder.price o)). by rewrite Hl in *.
  - rewrite Hl. simpl. by apply member_change_same.
  - intros [= ->]. by apply elem_of_nil in Hiu.
  - pose proof (inv_user_nodup _ HI (LimitOrder.owner o) b). by rewrite Hu in *.
  - pose proof (inv_user_len _ HI (LimitOrder.owner o) b). by rewrite Hu in *.
  - rewrite Hu. simpl. by apply member_change_same.
  - rewrite Hm5. unfold BalanceUnit.is_zero. simpl.
    rewrite (proj2 (Z.eqb_neq _ _)); [done|]. rewrite Hvu. lia.
  - intros l' [= <-]. rewrite Hvu. lia.
Qed.

Lemma update_Inv b i o n s : Inv s → LimitOrders s !! (b, i) = Some o → reduces b n o →
  Inv (updated b o n s).
Proof.
  intros HI Ho Hn. destruct (update_change _ _ _ _ _ HI Ho Hn) as (L & U & m & Hch).
  by eapply Inv_change.
Qed.

(** The other branches of an update. *)
Lemma update_same b i o s : LimitOrders s !! (b, i) = Some o →
  StorageDataLayer.update_limit_order_amount b i (LimitOrder.amount o) s = (Ok tt, s).
Proof.
  intros Ho. unfold StorageDataLayer.update_limit_order_amount. exec. rewrite Ho. exec.
  by rewrite bool_decide_eq_true_2.
Qed.

Lemma update_zero b i o n s : Inv s → LimitOrders s !! (b, i) = Some o → BalanceUnit.inner n = 0 →
  StorageDataLayer.update_limit_order_amount b i n s = StorageDataLayer.delete_limit_order b i s.
Proof.
  intros HI Ho Hn. unfold StorageDataLayer.update_limit_order_amount. exec. rewrite Ho. exec.
  apply (inv_order _ HI) in Ho as [_ []]. rewrite bool_decide_eq_false_2 by (intros ->; lia).
  unfold BalanceUnit.is_zero. by rewrite Hn.
Qed.

Lemma update_more b i o n s : Inv s → LimitOrders s !! (b, i) = Some o →
  BalanceUnit.is_divisible n = divisibility b →
  BalanceUnit.inner (LimitOrder.amount o) < BalanceUnit.inner n →
  StorageDataLayer.update_limit_order_amount b i n s = (Err (OrderBookError UpdateLimitOrderError), s).
Proof.
  intros HI Ho Hd Hn. unfold StorageDataLayer.update_limit_order_amount. exec. rewrite Ho. exec.
  apply (inv_order _ HI) in Ho as [_ []]. rewrite bool_decide_eq_false_2 by (intros ->; lia).
  unfold BalanceUnit.is_zero. rewrite (proj2 (Z.eqb_neq _ _)) by lia.
  rewrite BalanceUnit.gt_value, (proj2 (Z.ltb_ge _ _)); [by exec|].
  rewrite BalanceUnit.value_le_same by congruence. lia.
Qed.

Lemma unknown_order b i s : LimitOrders s !! (b, i) = None →
  StorageDataLayer.delete_limit_order b i s = (Err (OrderBookError UnknownLimitOrder), s) ∧
  ∀ n, StorageDataLayer.update_limit_order_amount b i n s = (Err (OrderBookError UnknownLimitOrder), s).
Proof.
  intros Ho. unfold StorageDataLayer.delete_limit_order, StorageDataLayer.update_limit_order_amount.
  split; intros; exec; rewrite Ho; by exec.
Qed.
(** ** When insertion succeeds *)

Definition has_room (b : OrderBookId) (o : LimitOrder.t) (s : Storage) : Prop :=
  let sd := LimitOrder.side o in
  let p := LimitOrder.price o in
  let l := index (side_orders sd s !! (b, p)) in
  LimitOrders s !! (b, LimitOrder.id o) = None ∧
  (length l < MaxLimitOrdersForPrice)%nat ∧
  (length (index (UserLimitOrders s !! (LimitOrder.owner o, b))) < MaxOpenedLimitOrdersPerUser)%nat ∧
  (is_Some (side_orders sd s !! (b, p)) ∨
   (length (default [] (side_agg sd s !! b)) < MaxSidePriceCount)%nat) ∧
  volume_of s b l + BalanceUnit.inner (LimitOrder.amount o) ≤ u128_max.

Lemma try_push_room {A} n (l : list A) x : (length l < n)%nat → try_push n l x = Some (l ++ [x]).
Proof. intros. apply try_push_Some. split; [done|]. rewrite length_app. simpl. lia. Qed.

Lemma insert_room b o s : Inv s → order_ok b o → has_room b o s →
  ∃ l u v m, insertable b o l u v m s.
Proof.
  intros HI [] (Hf & Hl & Hu & Ha & Hv).
  pose proof (inv_agg_get _ HI b (LimitOrder.side o) _ ok_price_div0) as Hg.
  assert (∃ v, BalanceUnit.checked_add
    (default BalanceUnit.zero
      (bt_get (LimitOrder.price o) (default [] (side_agg (LimitOrder.side o) s !! b))))
    (LimitOrder.amount o) = Some v) as [v Hadd].
  { rewrite Hg. destruct (side_orders _ _ !! _) as [l|] eqn:El; simpl in *.
    - pose proof (volume_nonneg s b l HI). eexists. destruct ok_amount_wf0.
      apply BalanceUnit.checked_add_same; [split; simpl; lia|split; lia|done|done].
    - eexists. by apply BalanceUnit.checked_add_zero_l. }
  eexists _, _, v, _. split; [done|by apply try_push_room|done| |by apply try_push_room].
  destruct Ha as [Ha|Ha%Nat.ltb_lt].
  - apply try_insert_present. rewrite Hg. by apply fmap_is_Some.
  - unfold try_insert. by rewrite Ha.
Qed.

Lemma insertable_room b o l u v m s : Inv s → order_ok b o → insertable b o l u v m s →
  has_room b o s.
Proof.
  intros HI Hok Hins. destruct (insert_volume _ _ _ _ _ _ _ HI Hok Hins) as [Hv Hmax].
  pose proof Hok as []. destruct Hins as [Hf [-> Hl]%try_push_Some _ Ha [-> Hu]%try_push_Some].
  rewrite length_app in Hl, Hu. simpl in *. split_and!; [done|lia|lia| |].
  - unfold try_insert in Ha. case_match eqn:E; [|done].
    apply orb_prop in E as [E%Nat.ltb_lt|E%bool_decide_eq_true_1]; [by right|].
    left. rewrite (inv_agg_get _ HI) in E by done. by apply fmap_is_Some in E.
  - rewrite Hv in Hmax. done.
Qed.

(** ** Insertion followed by deletion *)

Lemma retain_snoc i l : i ∉ l → retain_ne i (l ++ [i]) = l.
Proof.
  intros Hi. unfold retain_ne. rewrite filter_app, filter_cons_False, filter_nil by auto.
  rewrite app_nil_r. induction l as [|j l IH]; [done|].
  rewrite filter_cons_True by set_solver. f_equal. apply IH. set_solver.
Qed.

Lemma level_index o : o ≠ Some [] → level (index o) = o.
Proof. by destruct o as [[|]|]. Qed.

Lemma agg_set_back p v (m : MarketSide) old :
  (BalanceUnit.is_zero old = true → bt_get p m = None) →
  (BalanceUnit.is_zero old = false → bt_get p m = Some old) →
  agg_set p old (bt_insert p v m) = m.
Proof.
  unfold agg_set. destruct (BalanceUnit.is_zero old); intros H1 H2.
  - by apply bt_remove_insert, H1.
  - rewrite bt_insert_insert. by apply bt_insert_id, H2.
Qed.

Lemma storage_ext s s' :
  LimitOrders s = LimitOrders s' → UserLimitOrders s = UserLimitOrders s' →
  (∀ sd, side_orders sd s = side_orders sd s' ∧ side_agg sd s = side_agg sd s') → s = s'.
Proof.
  intros ? ? Hsd. destruct (Hsd Buy), (Hsd Sell), s, s'. simpl in *. congruence.
Qed.

Lemma inserted_level b o l u m s :
  side_orders (LimitOrder.side o) (inserted b o l u m s) !! (b, LimitOrder.price o) = Some l.
Proof. unfold inserted. storage_simpl. apply lookup_insert_eq. Qed.

Lemma deleted_inserted b o l u v m s : Inv s → order_ok b o → insertable b o l u v m s →
  deleted b o (inserted b o l u m s) =
  set_side_agg (LimitOrder.side o)
    (<[b := default [] (side_agg (LimitOrder.side o) s !! b)]> (side_agg (LimitOrder.side o) s)) s.
Proof.
  intros HI Hok Hins. destruct (insert_volume _ _ _ _ _ _ _ HI Hok Hins) as [Hv Hmax].
  pose proof Hok as []. destruct Hins as [Hf [-> Hl]%try_push_Some _ Ha [-> Hu]%try_push_Some].
  apply try_insert_Some in Ha as [-> Hm]; [|apply HI].
  pose proof (index_fresh_side b (LimitOrder.side o) (LimitOrder.price o) _ s HI Hf) as Hfs.
  pose proof (index_fresh_user (LimitOrder.owner o) b _ s HI Hf) as Hfu.
  pose proof (inv_agg_get _ HI b (LimitOrder.side o) _ ok_price_div0) as Hg.
  pose proof (λ l, volume_pos s b (LimitOrder.side o) (LimitOrder.price o) l HI) as Hpos.
  apply storage_ext; unfold deleted.
  - unfold inserted. storage_simpl. by apply delete_insert_id.
  - unfold inserted. storage_simpl. rewrite lookup_insert_eq. simpl.
    rewrite retain_snoc, level_index by (done || apply HI).
    by rewrite partial_alter_insert_eq, partial_alter_self.
  - intros sd. destruct (decide (sd = LimitOrder.side o)) as [->|];
      [|unfold inserted; by storage_simpl].
    split.
    + unfold inserted. storage_simpl. rewrite lookup_insert_eq. simpl.
      rewrite retain_snoc, level_index by (done || apply HI).
      by rewrite partial_alter_insert_eq, partial_alter_self.
    + storage_simpl. rewrite inserted_level. simpl. rewrite inserted_volume by naive_solver.
      unfold inserted. storage_simpl. rewrite lookup_insert_eq. simpl.
      rewrite insert_insert_eq. f_equal. apply agg_set_back;
        unfold BalanceUnit.is_zero; simpl; rewrite Hg; intros Hz; zbool;
        destruct (side_orders _ _ !! _) as [l0|]; simpl in *; try done.
      * specialize (Hpos l0 eq_refl). lia.
      * repeat f_equal. lia.
      * lia.
Qed.
End inv.

Arguments order_ok divisibility b o : assert.

(** ** Contracts of the storage layer *)

Section contracts.
Context {Cfg : Config} (divisibility : OrderBookId → bool).
Abbreviation Inv := (Inv divisibility).
Abbreviation order_ok := (order_ok divisibility).

(** Inserting a valid order succeeds exactly when the order id is new, the
    price level, the owner's index and the side have room and the level's volume
    stays a [u128]; a successful insertion keeps the storage consistent and adds
    exactly this order. *)
Theorem insert_limit_order_contract b o s : Inv s → order_ok b o →
  ((∃ s', StorageDataLayer.insert_limit_order b o s = (Ok tt, s')) ↔ has_room b o s) ∧
  (∀ s', StorageDataLayer.insert_limit_order b o s = (Ok tt, s') →
    Inv s' ∧ LimitOrders s' = <[(b, LimitOrder.id o) := o]> (LimitOrders s)).
Proof.
  intros HI Ho. split; [split|].
  - intros (s' & (l & u & v & m & Hins & _)%insert_ok_iff). by eapply insertable_room.
  - intros Hr. destruct (insert_room divisibility b o s HI Ho Hr) as (l & u & v & m & Hins).
    eexists. apply insert_ok_iff. by exists l, u, v, m.
  - intros s' Hs. split; [by eapply insert_Inv|].
    apply insert_ok_iff in Hs as (l & u & v & m & _ & ->). done.
Qed.

(** In a consistent storage, deleting an order never fails when the order
    exists: it removes exactly this order and leaves a consistent storage.  An
    unknown order is refused with [UnknownLimitOrder] and nothing changes. *)
Theorem delete_limit_order_contract b i s : Inv s →
  match LimitOrders s !! (b, i) with
  | Some _ => ∃ s', StorageDataLayer.delete_limit_order b i s = (Ok tt, s') ∧ Inv s' ∧
                LimitOrders s' = delete (b, i) (LimitOrders s)
  | None => StorageDataLayer.delete_limit_order b i s = (Err (OrderBookError UnknownLimitOrder), s)
  end.
Proof.
  intros HI. destruct (LimitOrders s !! (b, i)) as [o|] eqn:Ho; [|by apply unknown_order].
  eexists. rewrite (delete_run divisibility _ _ _ _ HI Ho). split; [done|].
  split; [by eapply delete_Inv|]. apply (inv_order _ _ HI) in Ho as [<- _].
  unfold deleted. by storage_simpl.
Qed.

(** In a consistent storage, setting the amount of an existing order (to a
    value in the book's precision) succeeds exactly when it does not grow: zero
    deletes the order, a smaller amount replaces it, and the storage stays
    consistent; a larger amount is refused with [UpdateLimitOrderError] and
    nothing changes. *)
Theorem update_limit_order_amount_contract b i o n s : Inv s →
  LimitOrders s !! (b, i) = Some o → BalanceUnit.is_divisible n = divisibility b →
  0 ≤ BalanceUnit.inner n →
  if BalanceUnit.inner (LimitOrder.amount o) <? BalanceUnit.inner n then
    StorageDataLayer.update_limit_order_amount b i n s =
      (Err (OrderBookError UpdateLimitOrderError), s)
  else ∃ s', StorageDataLayer.update_limit_order_amount b i n s = (Ok tt, s') ∧ Inv s' ∧
    LimitOrders s' = if BalanceUnit.inner n =? 0 then delete (b, i) (LimitOrders s)
                     else <[(b, i) := LimitOrder.set_amount o n]> (LimitOrders s).
Proof.
  intros HI Ho Hd Hn. pose proof (inv_order _ _ HI _ _ _ Ho) as [Hi Hok].
  destruct (Z.ltb_spec (BalanceUnit.inner (LimitOrder.amount o)) (BalanceUnit.inner n)).
  { by eapply update_more. }
  destruct (Z.eqb_spec (BalanceUnit.inner n) 0) as [Hz|Hz].
  { exists (deleted divisibility b o s). rewrite (update_zero divisibility _ _ o) by done.
    rewrite (delete_run divisibility _ _ _ _ HI Ho). split; [done|].
    split; [by eapply delete_Inv|]. unfold deleted. storage_simpl. by rewrite Hi. }
  destruct (decide (BalanceUnit.inner n = BalanceUnit.inner (LimitOrder.amount o))) as [E|E].
  - assert (n = LimitOrder.amount o) as ->.
    { rewrite (unit_eta n _ Hd), E. symmetry. apply unit_eta, Hok. }
    exists s. rewrite (update_same b i o s Ho). split; [done|]. split; [done|].
    rewrite insert_id; [done|]. by destruct o.
  - assert (reduces divisibility b n o) by (split; [done|lia]).
    exists (updated divisibility b o n s). rewrite (update_run divisibility b i s o n) by done.
    split; [done|]. split; [by eapply update_Inv|]. unfold updated. storage_simpl. by rewrite Hi.
Qed.

(** Deleting an order right after its insertion restores every storage map,
    except that the aggregated side of the book has an explicit (possibly empty)
    entry. *)
Theorem insert_delete_roundtrip b o s s' : Inv s → order_ok b o →
  StorageDataLayer.insert_limit_order b o s = (Ok tt, s') →
  StorageDataLayer.delete_limit_order b (LimitOrder.id o) s' =
  (Ok tt, set_side_agg (LimitOrder.side o)
            (<[b := default [] (side_agg (LimitOrder.side o) s !! b)]>
               (side_agg (LimitOrder.side o) s)) s).
Proof.
  intros HI Ho Hs. pose proof (insert_Inv _ _ _ _ _ HI Ho Hs) as HI'.
  apply insert_ok_iff in Hs as (l & u & v & m & Hins & ->).
  erewrite delete_run; [|done|unfold inserted; storage_simpl; apply lookup_insert_eq].
  by erewrite deleted_inserted.
Qed.
End contracts.

(** ** Examples *)

#[local] Existing Instance RuntimeConfig.

Module Samples.

(** A book of a divisible base asset (id 1) in the native asset (id 0). *)
Definition book : OrderBookId := {| dex_id := 0; base := 1%N; quote := 0%N |}.

Definition divisibility : OrderBookId → bool := λ _, true.

Definition e18 (x : Z) : BalanceUnit.t := BalanceUnit.divisible (x * 1000000000000000000).

Definition order (i : OrderId) (owner : AccountId) (side : PriceVariant) (price amount : Z)
    : LimitOrder.t :=
  LimitOrder.mk i owner side (e18 price) (e18 amount) (e18 amount) 0 60000 10.

(** One buy order of amount 5 at price 10. *)
Definition one_order : Storage :=
  snd (StorageDataLayer.insert_limit_order book (order 1 7%N Buy 10 5)
         empty_storage).

(** Storage keys ordered as numbers. *)
Definition plain_keys : StorageKeys.
Proof. refine {| storage_key := Zpos |}. Defined.

Lemma order_sample_ok : order_ok divisibility book (order 1 7%N Buy 10 5).
Proof. split; done. Qed.

Lemma one_order_run :
  StorageDataLayer.insert_limit_order book (order 1 7%N Buy 10 5)
    empty_storage = (Ok tt, one_order).
Proof. vm_compute. reflexivity. Qed.

Lemma one_order_Inv : Inv divisibility one_order.
Proof. eapply insert_Inv; [apply Inv_empty|apply order_sample_ok|apply one_order_run]. Qed.
End Samples.

Lemma insert_limit_order_contract_witness :
  ∃ s', StorageDataLayer.insert_limit_order Samples.book
          (Samples.order 1 7%N Buy 10 5) empty_storage = (Ok tt, s').
Proof.
  apply (insert_limit_order_contract Samples.divisibility Samples.book
    (Samples.order 1 7%N Buy 10 5) empty_storage (Inv_empty _) Samples.order_sample_ok).
  repeat split; vm_compute; try done; [lia|lia|right; lia].
Defined.

Lemma delete_limit_order_contract_witness :
  ∃ s', StorageDataLayer.delete_limit_order Samples.book 1 Samples.one_order = (Ok tt, s') ∧
        Inv Samples.divisibility s' ∧
        LimitOrders s' = delete (Samples.book, 1) (LimitOrders Samples.one_order).
Proof.
  exact (delete_limit_order_contract Samples.divisibility Samples.book 1
    Samples.one_order Samples.one_order_Inv).
Defined.

Lemma update_limit_order_amount_contract_witness :
  ∃ s', StorageDataLayer.update_limit_order_amount Samples.book 1
          (Samples.e18 2) Samples.one_order = (Ok tt, s').
Proof.
  destruct (update_limit_order_amount_contract Samples.divisibility
    Samples.book 1 (Samples.order 1 7%N Buy 10 5) (Samples.e18 2) Samples.one_order
    Samples.one_order_Inv) as (s' & Hs & _); [vm_compute; done|done|done|by exists s'].
Defined.

Lemma insert_delete_roundtrip_witness :
  fst (StorageDataLayer.delete_limit_order Samples.book 1 Samples.one_order) = Ok tt.
Proof.
  change 1 with (LimitOrder.id (Samples.order 1 7%N Buy 10 5)).
  rewrite (insert_delete_roundtrip Samples.divisibility Samples.book
    (Samples.order 1 7%N Buy 10 5) empty_storage Samples.one_order (Inv_empty _)
    Samples.order_sample_ok Samples.one_order_run).
  reflexivity.
Defined.
