(* ===== verification/CacheStorage.v ===== *)
(** * The write-back caches ([common/src/cache_storage])

    [CacheStorageMap] and [CacheStorageDoubleMap] keep the values read from and
    written to a storage map until [commit].  A cache is modelled with the
    [BTreeMap] of the source; the storage behind it is an argument (a lookup
    for the reads, a [gmap] for [commit]).

    The theorems show that a cache over a storage map behaves as the map
    itself: any sequence of operations returns what it returns on a plain map,
    and [commit] writes exactly the contents of that plain map.  The cache
    identifies keys by [Ord], the storage by equality, so keys are taken from a
    set [P] on which both agree. *)

From S2P Require Import Prelude BTreeMap DataLayer.

(** ** [Item] *)

Module Item.

Inductive t (V : Type) := Original (v : V) | Updated (v : V) | Removed.
Arguments Original {V} v.
Arguments Updated {V} v.
Arguments Removed {V}.

Definition value {V} (i : t V) : option V :=
  match i with Original v => Some v | Updated v => Some v | Removed => None end.

Definition mark_as_updated {V} (i : t V) : t V :=
  match i with Original v => Updated v | Updated v => Updated v | Removed => Removed end.

(** The item after the call, and the value the returned reference points to. *)
Definition value_mut {V} (i : t V) : option V * t V :=
  let i := mark_as_updated i in (value i, i).

Definition is_removed {V} (i : t V) : bool := match i with Removed => true | _ => false end.
Definition is_original {V} (i : t V) : bool := match i with Original _ => true | _ => false end.
End Item.

(** ** [CacheStorageMap] *)

Module CacheStorageMap.

Abbreviation t K V := (list (K * option (Item.t V))) (only parsing).

Section map.
Context {K V : Type} `{Ord K}.

Definition new : t K V := [].

(** The storage is read with [try_get]. *)
Section reads.
Context (try_get : K → option V).

Definition contains_key (key : K) (c : t K V) : bool :=
  match bt_get key c with
  | Some (Some item) => negb (Item.is_removed item)
  | Some None => false
  | None => bool_decide (is_Some (try_get key))
  end.

(** [cache.entry(key).or_insert_with(|| Storage::try_get(key).ok().map(Original))]:
    the entry, and the cache that has it. *)
Definition entry (key : K) (c : t K V) : option (Item.t V) * t K V :=
  match bt_get key c with
  | Some item => (item, c)
  | None => let item := Item.Original <$> try_get key in (item, bt_insert key item c)
  end.

Definition get (key : K) (c : t K V) : option V * t K V :=
  let '(item, c) := entry key c in (item ≫= Item.value, c).

Definition set (key : K) (v : V) (c : t K V) : t K V := bt_insert key (Some (Item.Updated v)) c.

Definition remove (key : K) (c : t K V) : t K V :=
  bt_modify_or_insert (λ item, match item with Some _ => Some Item.Removed | None => None end)
    (if bool_decide (is_Some (try_get key)) then Some Item.Removed else None) key c.

(** [get_mut] marks the item as updated and returns a reference to its value;
    [write key v] is the assignment of [v] through that reference: the item is
    [Updated] and gets the new value. *)
Definition get_mut (key : K) (c : t K V) : option V * t K V :=
  match entry key c with
  | (Some item, c) => let '(v, item) := Item.value_mut item in (v, bt_insert key (Some item) c)
  | (None, c) => (None, c)
  end.

Definition write (key : K) (v : V) (c : t K V) : t K V :=
  bt_insert key (Some (Item.Updated v)) c.
End reads.

Section commit.
Context `{Countable K}.

(** The loop of [commit]: what an entry does to the storage, and the item it
    leaves. *)
Definition commit_storage (p : K * option (Item.t V)) (st : gmap K V) : gmap K V :=
  match snd p with
  | Some (Item.Updated v) => <[fst p := v]> st
  | Some Item.Removed => delete (fst p) st
  | _ => st
  end.

Definition commit_item (item : option (Item.t V)) : option (Item.t V) :=
  match item with
  | Some (Item.Updated v) => Some (Item.Original v)
  | _ => item
  end.

(** [matches!(v, Some(Item::Original(_)))]. *)
Definition retained (item : option (Item.t V)) : bool :=
  match item with Some item => Item.is_original item | None => false end.

Definition retain_original (c : t K V) : t K V := filter (λ p, retained (snd p) = true) c.

Definition commit (c : t K V) (st : gmap K V) : t K V * gmap K V :=
  (retain_original ((λ p, (fst p, commit_item (snd p))) <$> c),
   foldl (λ st p, commit_storage p st) st c).
End commit.

Definition reset (c : t K V) : t K V := [].
End map.
End CacheStorageMap.

(** ** [CacheStorageDoubleMap] *)

Module CacheStorageDoubleMap.

Abbreviation t K1 K2 V := (list (K1 * CacheStorageMap.t K2 V)) (only parsing).

Section map.
Context {K1 K2 V : Type} `{Ord K1, Ord K2, Countable K1, Countable K2}.

Definition new : t K1 K2 V := [].

(** [self.cache.entry(key1).or_default()], and the cache with it updated. *)
Definition second_map (key1 : K1) (c : t K1 K2 V) : CacheStorageMap.t K2 V := default [] (bt_get key1 c).
Definition set_second_map (key1 : K1) (m : CacheStorageMap.t K2 V) (c : t K1 K2 V) : t K1 K2 V :=
  bt_insert key1 m c.

Section reads.
Context (st : gmap (K1 * K2) V).

Definition try_get (key1 : K1) (key2 : K2) : option V := st !! (key1, key2).

Definition contains_key (key1 : K1) (key2 : K2) (c : t K1 K2 V) : bool :=
  match bt_get key1 c ≫= bt_get key2 with
  | Some (Some item) => negb (Item.is_removed item)
  | Some None => false
  | None => bool_decide (is_Some (try_get key1 key2))
  end.

Definition get (key1 : K1) (key2 : K2) (c : t K1 K2 V) : option V * t K1 K2 V :=
  let '(r, m) := CacheStorageMap.get (try_get key1) key2 (second_map key1 c) in
  (r, set_second_map key1 m c).

Definition set (key1 : K1) (key2 : K2) (v : V) (c : t K1 K2 V) : t K1 K2 V :=
  set_second_map key1 (CacheStorageMap.set key2 v (second_map key1 c)) c.

Definition remove (key1 : K1) (key2 : K2) (c : t K1 K2 V) : t K1 K2 V :=
  set_second_map key1 (CacheStorageMap.remove (try_get key1) key2 (second_map key1 c)) c.

Definition get_mut (key1 : K1) (key2 : K2) (c : t K1 K2 V) : option V * t K1 K2 V :=
  let '(r, m) := CacheStorageMap.get_mut (try_get key1) key2 (second_map key1 c) in
  (r, set_second_map key1 m c).

Definition write (key1 : K1) (key2 : K2) (v : V) (c : t K1 K2 V) : t K1 K2 V :=
  set_second_map key1 (CacheStorageMap.write key2 v (second_map key1 c)) c.

(** [second_map.entry(key2).or_insert(Some(Item::Original(value)))]. *)
Definition load_entry (m : CacheStorageMap.t K2 V) (p : K2 * V) : CacheStorageMap.t K2 V :=
  match bt_get (fst p) m with
  | Some _ => m
  | None => bt_insert (fst p) (Some (Item.Original (snd p))) m
  end.

Context {SK : StorageKeys}.

Definition load (key1 : K1) (c : t K1 K2 V) : t K1 K2 V :=
  set_second_map key1 (foldl load_entry (second_map key1 c) (iter_prefix st key1)) c.

Definition get_by_prefix (key1 : K1) (c : t K1 K2 V) : list (K2 * V) * t K1 K2 V :=
  let c := load key1 c in
  let m := second_map key1 c in
  (omap (λ '(key2, item), (λ v, (key2, v)) <$> (item ≫= Item.value)) m, set_second_map key1 m c).
End reads.

(** The loop of [commit]: the inner loop works on the entries of one first key. *)
Definition commit_storage (p : K1 * CacheStorageMap.t K2 V) (st : gmap (K1 * K2) V)
    : gmap (K1 * K2) V :=
  foldl (λ st q, CacheStorageMap.commit_storage ((fst p, fst q), snd q) st) st (snd p).

Definition commit_second (m : CacheStorageMap.t K2 V) : CacheStorageMap.t K2 V :=
  CacheStorageMap.retain_original ((λ q, (fst q, CacheStorageMap.commit_item (snd q))) <$> m).

Definition commit (c : t K1 K2 V) (st : gmap (K1 * K2) V) : t K1 K2 V * gmap (K1 * K2) V :=
  ((λ p, (fst p, commit_second (snd p))) <$> c, foldl (λ st p, commit_storage p st) st c).

Definition reset (c : t K1 K2 V) : t K1 K2 V := [].
End map.
End CacheStorageDoubleMap.
