(* ===== verification/CacheProps.v ===== *)
(** * Correctness of the write-back caches

    [view] is the map a cache stands for over the storage behind it, [coherent]
    the condition that its clean entries agree with that storage.  The two trace
    theorems compare an arbitrary sequence of operations on a cache with the
    same sequence on a plain map. *)

From S2P Require Import Prelude BTreeMap DataLayer CacheStorage.

(** The keys on which [Ord] and equality agree. *)
Class KeySet (K : Type) `{Ord K} (P : K → Prop) : Prop := {
  key_total :: TotalOrd K;
  key_eq (x y : K) : P x → P y → cmp x y = Eq → x = y
}.

#[export] Instance all_keys {K} `{LawfulOrd K} : KeySet K (λ _, True).
Proof. split; [apply _|]. intros x y _ _. apply cmp_eq. Qed.

(** ** One map *)

Section map.
Context {K V : Type} `{Ord K} (P : K → Prop) `{!KeySet K P}.
Implicit Types (c : CacheStorageMap.t K V) (f : K → option V) (k : K).

Definition item_ok (o : option V) (item : option (Item.t V)) : Prop :=
  match item with
  | Some (Item.Original v) => o = Some v
  | None => o = None
  | _ => True
  end.

Record coherent (f : K → option V) (c : CacheStorageMap.t K V) : Prop := {
  coh_wf : bt_wf c;
  coh_keys : Forall (λ p, P (fst p)) c;
  coh_item k item : P k → bt_get k c = Some item → item_ok (f k) item
}.

Definition view (f : K → option V) (c : CacheStorageMap.t K V) (k : K) : option V :=
  match bt_get k c with Some item => item ≫= Item.value | None => f k end.

Lemma coherent_new f : coherent f CacheStorageMap.new.
Proof. split; [constructor|constructor|done]. Qed.

Lemma view_new f k : view f CacheStorageMap.new k = f k.
Proof. done. Qed.

Lemma cmp_ne k k' : P k → P k' → k ≠ k' → cmp k k' ≠ Eq.
Proof. intros ?? Hne E. by apply Hne, key_eq. Qed.

(** Every operation writes at most one entry. *)
Lemma coherent_insert f c k item :
  coherent f c → P k → item_ok (f k) item → coherent f (bt_insert k item c).
Proof.
  intros [Hwf Hkeys Hitem] Hk Hok. split.
  - by apply bt_wf_insert.
  - by apply bt_insert_keys.
  - intros k' item' Hk'. rewrite bt_get_insert. destruct (cmp k' k) eqn:E.
    + apply key_eq in E as ->; [|done..]. by intros [= <-].
    + by apply Hitem.
    + by apply Hitem.
Qed.

Lemma view_insert_eq f c k item : view f (bt_insert k item c) k = item ≫= Item.value.
Proof. unfold view. by rewrite bt_get_insert_eq. Qed.

Lemma view_insert_ne f c k k' item : P k → P k' → k' ≠ k →
  view f (bt_insert k item c) k' = view f c k'.
Proof. intros. unfold view. by rewrite bt_get_insert_ne by (by apply cmp_ne). Qed.

(** A cache step with its effect on the view. *)
Record steps (f : K → option V) (c' : CacheStorageMap.t K V) (a : K → option V) : Prop := {
  steps_coh : coherent f c';
  steps_view k : P k → view f c' k = a k
}.

Lemma steps_insert f c k item : coherent f c → P k → item_ok (f k) item →
  steps f (bt_insert k item c) (λ k', if bool_decide (cmp k' k = Eq) then item ≫= Item.value
                                        else view f c k').
Proof.
  intros Hc Hk Hi. split; [by apply coherent_insert|]. intros k' Hk'. unfold view.
  rewrite bt_get_insert. by destruct (cmp k' k).
Qed.

Lemma entry_spec f c k : coherent f c → P k →
  let '(item, c') := CacheStorageMap.entry f k c in
  item ≫= Item.value = view f c k ∧ bt_get k c' = Some item ∧ steps f c' (view f c).
Proof.
  intros Hc Hk. unfold CacheStorageMap.entry.
  destruct (bt_get k c) as [item|] eqn:E.
  - split; [unfold view; by rewrite E|]. split; [done|]. by split.
  - assert (view f c k = f k) as Hv by (unfold view; by rewrite E).
    assert ((Item.Original <$> f k) ≫= Item.value = f k) as Hf by (by destruct (f k)).
    rewrite Hv, Hf. split; [done|]. split; [apply bt_get_insert_eq|]. split.
    + apply coherent_insert; [done|done|]. by destruct (f k) eqn:Ef.
    + intros k' Hk'. unfold view at 1. rewrite bt_get_insert.
      destruct (cmp k' k) eqn:E'; [|done|done]. apply key_eq in E' as ->; [|done..].
      by rewrite Hf, Hv.
Qed.

Lemma get_spec f c k : coherent f c → P k →
  fst (CacheStorageMap.get f k c) = view f c k ∧
  steps f (snd (CacheStorageMap.get f k c)) (view f c).
Proof.
  intros Hc Hk. pose proof (entry_spec f c k Hc Hk) as He. unfold CacheStorageMap.get.
  destruct (CacheStorageMap.entry f k c) as [item c']. naive_solver.
Qed.

Lemma contains_key_spec f c k : coherent f c → P k →
  CacheStorageMap.contains_key f k c = bool_decide (is_Some (view f c k)).
Proof.
  intros Hc Hk. unfold CacheStorageMap.contains_key, view.
  destruct (bt_get k c) as [[[v|v|]|]|]; simpl; try done.
Qed.

Definition upd (k : K) (o : option V) (a : K → option V) (k' : K) : option V :=
  if bool_decide (cmp k' k = Eq) then o else a k'.

Lemma set_spec f c k v : coherent f c → P k →
  steps f (CacheStorageMap.set k v c) (upd k (Some v) (view f c)).
Proof. intros Hc Hk. by apply steps_insert. Qed.

Lemma remove_spec f c k : coherent f c → P k →
  steps f (CacheStorageMap.remove f k c) (upd k None (view f c)).
Proof.
  intros Hc Hk. unfold CacheStorageMap.remove, bt_modify_or_insert.
  match goal with |- steps _ (bt_insert _ ?it _) _ => set (item := it) end.
  assert (item ≫= Item.value = None ∧ item_ok (f k) item) as [Hv Hok].
  { subst item. destruct (bt_get k c) as [[i|]|] eqn:E; simpl; try done.
    - split; [done|]. by apply (coh_item _ _ Hc) in E.
    - case_bool_decide as Hf; [done|]. split; [done|]. by apply eq_None_not_Some. }
  destruct (steps_insert f c k item Hc Hk Hok) as [H1 H2].
  split; [done|]. intros k' Hk'. rewrite H2 by done. unfold upd. by rewrite Hv.
Qed.

Lemma get_mut_spec f c k : coherent f c → P k →
  fst (CacheStorageMap.get_mut f k c) = view f c k ∧
  steps f (snd (CacheStorageMap.get_mut f k c)) (view f c).
Proof.
  intros Hc Hk. pose proof (entry_spec f c k Hc Hk) as He. unfold CacheStorageMap.get_mut.
  destruct (CacheStorageMap.entry f k c) as [[item|] c'] eqn:Ee;
    destruct He as (Hv & Hg & [Hc' Hs]); simpl in *.
  - assert (Item.value (Item.mark_as_updated item) = view f c k) as Hm
      by (rewrite <- Hv; by destruct item).
    split; [done|].
    destruct (steps_insert f c' k (Some (Item.mark_as_updated item))) as [H1 H2];
      [done|done|by destruct item|].
    split; [done|]. intros k' Hk'. rewrite H2 by done. case_bool_decide as E; [|by apply Hs].
    apply key_eq in E as ->; done.
  - split; [done|]. by split.
Qed.

Lemma write_spec f c k v : coherent f c → P k →
  steps f (CacheStorageMap.write k v c) (upd k (Some v) (view f c)).
Proof. intros Hc Hk. by apply steps_insert. Qed.

(** *** Commit *)

Section commit.
Context `{Countable K'} (g : K → K') `{!Inj (=) (=) g}.
Implicit Types (st : gmap K' V).

(** The storage loop, for entries stored under the keys [g k]. *)
Definition store_all (c : CacheStorageMap.t K V) (st : gmap K' V) : gmap K' V :=
  foldl (λ st p, CacheStorageMap.commit_storage (g (fst p), snd p) st) st c.

Lemma commit_storage_ne x (p : K * option (Item.t V)) st : g (fst p) ≠ x →
  CacheStorageMap.commit_storage (g (fst p), snd p) st !! x = st !! x.
Proof.
  intros. unfold CacheStorageMap.commit_storage. simpl.
  destruct (snd p) as [[]|]; rewrite ?lookup_insert_ne, ?lookup_delete_ne by done; done.
Qed.

Lemma store_all_other x c st : (∀ p, p ∈ c → g (fst p) ≠ x) → store_all c st !! x = st !! x.
Proof.
  revert st. induction c as [|p c IH]; intros st Hk; [done|]. unfold store_all in *. simpl.
  rewrite IH by set_solver. apply commit_storage_ne. set_solver.
Qed.

Lemma store_all_ext x c st st' : st !! x = st' !! x → store_all c st !! x = store_all c st' !! x.
Proof.
  revert st st'. induction c as [|p c IH]; intros st st' Hx; [done|]. unfold store_all in *. simpl.
  apply IH. unfold CacheStorageMap.commit_storage. simpl. destruct (decide (g (fst p) = x)) as [<-|].
  - destruct (snd p) as [[]|]; by rewrite ?lookup_insert_eq, ?lookup_delete_eq.
  - destruct (snd p) as [[]|]; by rewrite ?lookup_insert_ne, ?lookup_delete_ne.
Qed.

Definition stored_item (o : option V) (item : option (option (Item.t V))) : option V :=
  match item with
  | Some (Some (Item.Updated v)) => Some v
  | Some (Some Item.Removed) => None
  | _ => o
  end.

Lemma store_all_lookup k c st : bt_wf c → Forall (λ p, P (fst p)) c → P k →
  store_all c st !! g k = stored_item (st !! g k) (bt_get k c).
Proof.
  revert st. induction c as [|[k1 item] c IH]; intros st Hwf Hkeys Hk; [done|].
  apply bt_wf_cons in Hwf as [Hwf Hall]. apply Forall_cons in Hkeys as [Hk1 Hkeys].
  unfold store_all in *. simpl in *. destruct (cmp k k1) eqn:E.
  - apply key_eq in E as ->; [|done..]. fold (store_all c (CacheStorageMap.commit_storage (g k1, item) st)).
    rewrite store_all_other.
    + destruct item as [[]|]; simpl; unfold CacheStorageMap.commit_storage; simpl;
        by rewrite ?lookup_insert_eq, ?lookup_delete_eq.
    + intros p Hp Heq. apply (inj g) in Heq. rewrite Forall_forall in Hall.
      specialize (Hall p Hp). rewrite Heq, cmp_refl in Hall. done.
  - rewrite IH by done. rewrite (bt_get_lt_Forall k k1) by eauto. simpl.
    apply (commit_storage_ne _ (k1, item)). intros Heq%(inj g). simpl in Heq. subst.
    by rewrite cmp_refl in E.
  - rewrite IH by done.
    rewrite (commit_storage_ne (g k) (k1, item)); [done|]. intros Heq%(inj g). simpl in Heq. subst.
    by rewrite cmp_refl in E.
Qed.

(** The storage after the loop holds the view. *)
Lemma store_all_view f c st k : coherent f c → P k → st !! g k = f k →
  store_all c st !! g k = view f c k.
Proof.
  intros [Hwf Hkeys Hitem] Hk Hf. rewrite store_all_lookup by done. unfold view.
  destruct (bt_get k c) as [item|] eqn:E; [|done]. apply Hitem in E; [|done].
  destruct item as [[]|]; simpl in *; congruence.
Qed.
End commit.

Definition committed (c : CacheStorageMap.t K V) : CacheStorageMap.t K V :=
  CacheStorageMap.retain_original ((λ p, (fst p, CacheStorageMap.commit_item (snd p))) <$> c).

Lemma committed_get c k : bt_wf c →
  bt_get k (committed c) =
  bt_get k c ≫= λ item, match item with
                        | Some (Item.Original v) => Some (Some (Item.Original v))
                        | Some (Item.Updated v) => Some (Some (Item.Original v))
                        | _ => None
                        end.
Proof.
  intros Hwf. unfold committed, CacheStorageMap.retain_original.
  rewrite (bt_get_filter CacheStorageMap.retained) by (by apply bt_wf_fmap).
  rewrite bt_get_fmap.
  by destruct (bt_get k c) as [[[]|]|].
Qed.

(** After a commit the cache is coherent with the new storage and shows the
    same map. *)
Lemma committed_spec f c : coherent f c → steps (view f c) (committed c) (view f c).
Proof.
  intros [Hwf Hkeys Hitem]. split; [split|].
  - apply bt_wf_filter. by apply bt_wf_fmap.
  - apply Forall_filter_weaken, Forall_fmap. by eapply Forall_impl.
  - intros k item Hk. rewrite committed_get by done. unfold view.
    destruct (bt_get k c) as [[[]|]|]; simpl; intros; simplify_eq; done.
  - intros k Hk. unfold view at 1. rewrite committed_get by done. unfold view.
    destruct (bt_get k c) as [[[]|]|]; simpl; done.
Qed.

Lemma coherent_ext f f' c : (∀ k, P k → f k = f' k) → coherent f c → coherent f' c.
Proof.
  intros Hf [Hwf Hkeys Hitem]. split; [done|done|]. intros k item Hk Hg. rewrite <- Hf by done.
  by apply Hitem.
Qed.

Lemma view_ext f f' c k : f k = f' k → view f c k = view f' c k.
Proof. intros Hf. unfold view. by rewrite Hf. Qed.
End map.

(** ** The interface of a cache

    The operations of both caches, over the keys of the storage behind them, and
    what they promise: [cached st c a] says that the cache [c] over the storage
    [st] stands for the map [a]. *)

Class Cache (C K V : Type) `{Countable K} := {
  c_new : C;
  c_contains_key : gmap K V → K → C → bool;
  c_get : gmap K V → K → C → option V * C;
  c_set : K → V → C → C;
  c_remove : gmap K V → K → C → C;
  c_get_mut : gmap K V → K → C → option V * C;
  c_write : K → V → C → C;
  c_commit : C → gmap K V → C * gmap K V;
  c_reset : C → C
}.

Class CacheLaws (C K V : Type) `{Cache C K V} (P : K → Prop) := {
  cached : gmap K V → C → gmap K V → Prop;
  cached_new st : cached st c_new st;
  cached_reset st c a : cached st c a → cached st (c_reset c) st;
  cached_contains st c a k : cached st c a → P k →
    c_contains_key st k c = bool_decide (is_Some (a !! k));
  cached_get st c a k : cached st c a → P k →
    fst (c_get st k c) = a !! k ∧ cached st (snd (c_get st k c)) a;
  cached_set st c a k v : cached st c a → P k → cached st (c_set k v c) (<[k := v]> a);
  cached_remove st c a k : cached st c a → P k → cached st (c_remove st k c) (delete k a);
  cached_get_mut st c a k : cached st c a → P k →
    fst (c_get_mut st k c) = a !! k ∧ cached st (snd (c_get_mut st k c)) a;
  cached_write st c a k v : cached st c a → P k → cached st (c_write k v c) (<[k := v]> a);
  cached_commit st c a : cached st c a →
    snd (c_commit c st) = a ∧ cached a (fst (c_commit c st)) a
}.

(** *** [CacheStorageMap] *)

Section map_instance.
Context {K V : Type} `{Ord K, Countable K} (P : K → Prop) `{!KeySet K P} `{∀ k, Decision (P k)}.

#[export] Instance map_cache : Cache (CacheStorageMap.t K V) K V := {|
  c_new := CacheStorageMap.new;
  c_contains_key st k c := CacheStorageMap.contains_key (st !!.) k c;
  c_get st k c := CacheStorageMap.get (st !!.) k c;
  c_set := CacheStorageMap.set;
  c_remove st k c := CacheStorageMap.remove (st !!.) k c;
  c_get_mut st k c := CacheStorageMap.get_mut (st !!.) k c;
  c_write := CacheStorageMap.write;
  c_commit := CacheStorageMap.commit;
  c_reset := CacheStorageMap.reset
|}.

Record map_cached (st : gmap K V) (c : CacheStorageMap.t K V) (a : gmap K V) : Prop := {
  mc_coh : coherent P (st !!.) c;
  mc_view k : P k → view (st !!.) c k = a !! k;
  mc_other k : ¬ P k → a !! k = st !! k
}.

Lemma map_cached_steps st c c' a : map_cached st c a →
  steps P (st !!.) c' (view (st !!.) c) → map_cached st c' a.
Proof.
  intros [Hc Hv Ho] [Hc' Hv']. split; [done| |done]. intros k Hk. by rewrite Hv', Hv.
Qed.

Lemma map_cached_upd st c c' a k o : map_cached st c a → P k →
  steps P (st !!.) c' (upd k o (view (st !!.) c)) → map_cached st c' (partial_alter (λ _, o) k a).
Proof.
  intros [Hc Hv Ho] Hk [Hc' Hv']. split; [done| |].
  - intros k' Hk'. rewrite Hv' by done. unfold upd. case_bool_decide as E.
    + apply key_eq in E as ->; [|done..]. by rewrite lookup_partial_alter_eq.
    + rewrite lookup_partial_alter_ne; [by apply Hv|]. intros <-. apply E, cmp_refl.
  - intros k' Hk'. rewrite lookup_partial_alter_ne; [by apply Ho|]. by intros <-.
Qed.

Lemma map_cached_commit st c a : map_cached st c a →
  snd (CacheStorageMap.commit c st) = a ∧ map_cached a (fst (CacheStorageMap.commit c st)) a.
Proof.
  intros [Hc Hv Ho]. pose proof (committed_spec P _ _ Hc) as [Hc' Hv'].
  change (fst (CacheStorageMap.commit c st)) with (committed c).
  assert (snd (CacheStorageMap.commit c st) = a) as Ea.
  { apply map_eq. intros k. change (snd (CacheStorageMap.commit c st)) with (store_all id c st).
    destruct (decide (P k)) as [Hk|Hk].
    - rewrite <- Hv by done. by apply (store_all_view P id).
    - rewrite Ho by done. apply (store_all_other P id). intros p Hp Heq. apply Hk.
      rewrite <- Heq. by eapply (proj1 (Forall_forall _ _) (coh_keys _ _ _ Hc)). }
  split; [done|]. split; [|intros k Hk|done].
  - by eapply coherent_ext.
  - rewrite <- Hv, <- Hv' by done. apply view_ext. symmetry. by apply Hv.
Qed.

#[export] Instance map_cache_laws : CacheLaws (CacheStorageMap.t K V) K V P.
Proof.
  refine {| cached := map_cached |}; simpl.
  - intros st. split; [apply coherent_new|done|done].
  - intros st c a _. split; [apply coherent_new|done|done].
  - intros st c a k [Hc Hv Ho] Hk. rewrite (contains_key_spec P), Hv by done. done.
  - intros st c a k Hc Hk. destruct (get_spec P _ _ k (mc_coh _ _ _ Hc) Hk) as [-> ?].
    split; [by apply Hc|]. by eapply map_cached_steps.
  - intros st c a k v Hc Hk. apply (map_cached_upd _ c); [done..|]. apply (set_spec P); [apply Hc|done].
  - intros st c a k Hc Hk. apply (map_cached_upd _ c); [done..|]. apply (remove_spec P); [apply Hc|done].
  - intros st c a k Hc Hk. destruct (get_mut_spec P _ _ k (mc_coh _ _ _ Hc) Hk) as [-> ?].
    split; [by apply Hc|]. by eapply map_cached_steps.
  - intros st c a k v Hc Hk. apply (map_cached_upd _ c); [done..|]. apply (write_spec P); [apply Hc|done].
  - apply map_cached_commit.
Defined.
End map_instance.

(** *** [CacheStorageDoubleMap] *)

Section double_instance.
Context {K1 K2 V : Type} `{LawfulOrd K1, Ord K2, Countable K1, Countable K2}.
Context (P : K2 → Prop) `{!KeySet K2 P} `{∀ k, Decision (P k)}.
Implicit Types (st a : gmap (K1 * K2) V) (c : CacheStorageDoubleMap.t K1 K2 V).

Definition double_keys (k : K1 * K2) : Prop := P (snd k).

#[export] Instance double_keys_dec k : Decision (double_keys k).
Proof. unfold double_keys. apply _. Defined.

#[export] Instance double_cache : Cache (CacheStorageDoubleMap.t K1 K2 V) (K1 * K2) V := {|
  c_new := CacheStorageDoubleMap.new;
  c_contains_key st k c := CacheStorageDoubleMap.contains_key st (fst k) (snd k) c;
  c_get st k c := CacheStorageDoubleMap.get st (fst k) (snd k) c;
  c_set k v c := CacheStorageDoubleMap.set (fst k) (snd k) v c;
  c_remove st k c := CacheStorageDoubleMap.remove st (fst k) (snd k) c;
  c_get_mut st k c := CacheStorageDoubleMap.get_mut st (fst k) (snd k) c;
  c_write k v c := CacheStorageDoubleMap.write (fst k) (snd k) v c;
  c_commit := CacheStorageDoubleMap.commit;
  c_reset := CacheStorageDoubleMap.reset
|}.

Abbreviation slice st k1 := (CacheStorageDoubleMap.try_get st k1).
Abbreviation second k1 c := (CacheStorageDoubleMap.second_map k1 c).

Record double_cached (st : gmap (K1 * K2) V) (c : CacheStorageDoubleMap.t K1 K2 V)
    (a : gmap (K1 * K2) V) : Prop := {
  dc_wf : bt_wf c;
  dc_coh k1 : coherent P (slice st k1) (second k1 c);
  dc_view k1 k2 : P k2 → view (slice st k1) (second k1 c) k2 = a !! (k1, k2);
  dc_other k1 k2 : ¬ P k2 → a !! (k1, k2) = st !! (k1, k2)
}.

Lemma second_set_eq k1 m c : second k1 (CacheStorageDoubleMap.set_second_map k1 m c) = m.
Proof.
  unfold CacheStorageDoubleMap.second_map, CacheStorageDoubleMap.set_second_map.
  by rewrite bt_get_insert_eq.
Qed.

Lemma second_set_ne k1 k1' m c : k1' ≠ k1 →
  second k1' (CacheStorageDoubleMap.set_second_map k1 m c) = second k1' c.
Proof.
  intros Hne. unfold CacheStorageDoubleMap.second_map, CacheStorageDoubleMap.set_second_map.
  rewrite bt_get_insert_ne; [done|]. intros E. by apply Hne, cmp_eq.
Qed.

(** An operation on the second map of one first key. *)
Lemma double_cached_set st c a k1 m a' : double_cached st c a →
  steps P (slice st k1) m (λ k2, a' !! (k1, k2)) →
  (∀ k2, ¬ P k2 → a' !! (k1, k2) = a !! (k1, k2)) →
  (∀ k1' k2, k1' ≠ k1 → a' !! (k1', k2) = a !! (k1', k2)) →
  double_cached st (CacheStorageDoubleMap.set_second_map k1 m c) a'.
Proof.
  intros [Hwf Hc Hv Ho] [Hm Hvm] Ha Ha'. split.
  - by apply bt_wf_insert.
  - intros k1'. destruct (decide (k1' = k1)) as [->|]; [by rewrite second_set_eq|].
    by rewrite second_set_ne.
  - intros k1' k2 Hk2. destruct (decide (k1' = k1)) as [->|].
    + rewrite second_set_eq. by apply Hvm.
    + rewrite second_set_ne, Ha' by done. by apply Hv.
  - intros k1' k2 Hk2. rewrite <- Ho by done.
    destruct (decide (k1' = k1)) as [->|]; [by apply Ha|by apply Ha'].
Qed.

Lemma double_cached_steps st c a k1 m : double_cached st c a →
  steps P (slice st k1) m (view (slice st k1) (second k1 c)) →
  double_cached st (CacheStorageDoubleMap.set_second_map k1 m c) a.
Proof.
  intros Hc [Hm Hv]. eapply double_cached_set; [done| |done|done]. split; [done|].
  intros k2 Hk2. rewrite Hv by done. by apply Hc.
Qed.

Lemma double_cached_upd st c a k1 k2 m o : double_cached st c a → P k2 →
  steps P (slice st k1) m (upd k2 o (view (slice st k1) (second k1 c))) →
  double_cached st (CacheStorageDoubleMap.set_second_map k1 m c)
    (partial_alter (λ _, o) (k1, k2) a).
Proof.
  intros Hc Hk [Hm Hv]. eapply double_cached_set; [done| | |].
  - split; [done|]. intros k2' Hk2'. rewrite Hv by done. unfold upd. case_bool_decide as E.
    + apply (key_eq (P := P)) in E as ->; [|done..]. by rewrite lookup_partial_alter_eq.
    + rewrite lookup_partial_alter_ne; [by apply Hc|]. intros [= <-]. apply E, cmp_refl.
  - intros k2' Hk2'. rewrite lookup_partial_alter_ne; [done|]. by intros [= <-].
  - intros k1' k2' Hne. rewrite lookup_partial_alter_ne; [done|]. by intros [= <- _].
Qed.

(** The storage written by [commit]. *)
#[local] Instance pair_inj_l {A B : Type} (x : A) : Inj (=) (=) (@pair A B x).
Proof. by intros ? ? [= ->]. Qed.

Lemma double_commit_storage p st :
  CacheStorageDoubleMap.commit_storage p st = store_all (pair (fst p)) (snd p) st.
Proof. done. Qed.

Lemma double_store_ne k1 k2 p st : fst p ≠ k1 →
  CacheStorageDoubleMap.commit_storage p st !! (k1, k2) = st !! (k1, k2).
Proof.
  intros Hne. rewrite double_commit_storage. apply (store_all_other P (pair (fst p))). intros q _ Heq. by simplify_eq.
Qed.

Lemma double_store_all k1 k2 c st : bt_wf c →
  foldl (λ st p, CacheStorageDoubleMap.commit_storage p st) st c !! (k1, k2) =
  store_all (pair k1) (second k1 c) st !! (k1, k2).
Proof.
  unfold CacheStorageDoubleMap.second_map. revert st.
  induction c as [|[k m] c IH]; intros st Hwf; [done|].
  apply bt_wf_cons in Hwf as [Hwf Hall]. simpl. rewrite IH by done.
  destruct (cmp k1 k) eqn:E.
  - apply cmp_eq in E as ->. rewrite (bt_get_lt_Forall k k) by (by rewrite ?cmp_refl; auto).
    done.
  - rewrite (bt_get_lt_Forall k1 k) by eauto. simpl. apply double_store_ne. intros Hk. simpl in Hk.
    subst. by rewrite cmp_refl in E.
  - apply store_all_ext. apply double_store_ne. intros Hk. simpl in Hk. subst.
    by rewrite cmp_refl in E.
Qed.

Lemma double_cached_commit st c a : double_cached st c a →
  snd (CacheStorageDoubleMap.commit c st) = a ∧
  double_cached a (fst (CacheStorageDoubleMap.commit c st)) a.
Proof.
  intros [Hwf Hc Hv Ho].
  assert (snd (CacheStorageDoubleMap.commit c st) = a) as Ea.
  { apply map_eq. intros [k1 k2]. simpl. rewrite double_store_all by done.
    destruct (decide (P k2)) as [Hk|Hk].
    - rewrite <- Hv by done. by apply (store_all_view P (pair k1)).
    - rewrite Ho by done. apply (store_all_other P (pair k1)). intros p Hp [= Heq]. apply Hk.
      rewrite <- Heq. by eapply (proj1 (Forall_forall _ _) (coh_keys _ _ _ (Hc k1))). }
  split; [done|].
  assert (∀ k1, second k1 (fst (CacheStorageDoubleMap.commit c st)) = committed (second k1 c)) as Hs.
  { intros k1. unfold CacheStorageDoubleMap.second_map. simpl.
    rewrite (bt_get_fmap CacheStorageDoubleMap.commit_second). by destruct (bt_get k1 c). }
  split; [by apply bt_wf_fmap|..|done].
  - intros k1. rewrite Hs. pose proof (committed_spec P _ _ (Hc k1)) as [Hc' _].
    eapply coherent_ext; [|done]. intros k2 Hk2. by apply Hv.
  - intros k1 k2 Hk2. rewrite Hs. pose proof (committed_spec P _ _ (Hc k1)) as [_ Hv'].
    rewrite <- Hv, <- Hv' by done. apply view_ext. symmetry. by apply Hv.
Qed.

#[export] Instance double_cache_laws :
  CacheLaws (CacheStorageDoubleMap.t K1 K2 V) (K1 * K2) V double_keys.
Proof.
  refine {| cached := double_cached |}; simpl.
  - intros st. split; [constructor|intros; apply coherent_new|done|done].
  - intros st c a _. split; [constructor|intros; apply coherent_new|done|done].
  - intros st c a [k1 k2] Hc Hk. simpl.
    transitivity (CacheStorageMap.contains_key (slice st k1) k2 (second k1 c)).
    { unfold CacheStorageDoubleMap.contains_key, CacheStorageMap.contains_key,
        CacheStorageDoubleMap.second_map. by destruct (bt_get k1 c). }
    rewrite (contains_key_spec P) by (done || apply Hc). apply bool_decide_ext.
    by rewrite (dc_view _ _ _ Hc).
  - intros st c a [k1 k2] Hc Hk. unfold CacheStorageDoubleMap.get. simpl.
    destruct (get_spec P (slice st k1) (second k1 c) k2) as [Hr Hs]; [apply Hc|done|].
    destruct (CacheStorageMap.get _ _ _) as [r m]. simpl in *. subst r.
    split; [by apply Hc|by apply double_cached_steps].
  - intros st c a [k1 k2] v Hc Hk. apply double_cached_upd; [done..|].
    apply (set_spec P); [apply Hc|done].
  - intros st c a [k1 k2] Hc Hk. apply double_cached_upd; [done..|].
    apply (remove_spec P); [apply Hc|done].
  - intros st c a [k1 k2] Hc Hk. unfold CacheStorageDoubleMap.get_mut. simpl.
    destruct (get_mut_spec P (slice st k1) (second k1 c) k2) as [Hr Hs]; [apply Hc|done|].
    destruct (CacheStorageMap.get_mut _ _ _) as [r m]. simpl in *. subst r.
    split; [by apply Hc|by apply double_cached_steps].
  - intros st c a [k1 k2] v Hc Hk. apply double_cached_upd; [done..|].
    apply (write_spec P); [apply Hc|done].
  - apply double_cached_commit.
Defined.
End double_instance.

(** *** Reading a whole prefix *)

Section prefix.
Context {SK : StorageKeys} {K1 K2 V : Type} `{LawfulOrd K1, LawfulOrd K2, Countable K1, Countable K2}.
Implicit Types (st a : gmap (K1 * K2) V) (c : CacheStorageDoubleMap.t K1 K2 V).

Abbreviation every := (λ _ : K2, True).

(** [load] keeps the view and caches every stored entry of the prefix. *)
Lemma load_entries st k1 l m : (∀ p, p ∈ l → st !! (k1, fst p) = Some (snd p)) →
  coherent every (CacheStorageDoubleMap.try_get st k1) m →
  let m' := foldl CacheStorageDoubleMap.load_entry m l in
  steps every (CacheStorageDoubleMap.try_get st k1) m'
    (view (CacheStorageDoubleMap.try_get st k1) m) ∧
  (∀ k, is_Some (bt_get k m) ∨ k ∈ l.*1 → is_Some (bt_get k m')).
Proof.
  revert m. induction l as [|[k v] l IH]; intros m Hl Hm; simpl.
  { split; [by split|]. intros k [?|[]%elem_of_nil]. done. }
  assert (coherent every (CacheStorageDoubleMap.try_get st k1)
            (CacheStorageDoubleMap.load_entry m (k, v)) ∧
          (∀ k', view (CacheStorageDoubleMap.try_get st k1)
                   (CacheStorageDoubleMap.load_entry m (k, v)) k' =
                 view (CacheStorageDoubleMap.try_get st k1) m k') ∧
          (∀ k', is_Some (bt_get k' m) ∨ k' = k →
                 is_Some (bt_get k' (CacheStorageDoubleMap.load_entry m (k, v)))))
    as (HH1 & HH2 & HH3).
  { unfold CacheStorageDoubleMap.load_entry. simpl. destruct (bt_get k m) eqn:E.
    { split; [done|]. split; [done|]. by intros k' [?| ->]; [|rewrite E]. }
    pose proof (Hl (k, v) ltac:(left)) as Hst. simpl in Hst. split; [by apply (coherent_insert every); [..|exact Hst]|]. split.
    - intros k'. unfold view. rewrite bt_get_insert. destruct (cmp k' k) eqn:E'; [|done..].
      apply cmp_eq in E' as ->. by rewrite E.
    - intros k' Hk'. rewrite bt_get_insert. destruct (cmp k' k) eqn:E'; [done|..];
        destruct Hk' as [?| ->]; rewrite ?cmp_refl in E'; done. }
  destruct (IH (CacheStorageDoubleMap.load_entry m (k, v))) as [[HH4 HH5] HH6]; [set_solver|done|].
  split; [split; [done|]|].
  - intros k' Hk'. by rewrite HH5, HH2.
  - intros k' Hk'. apply HH6. rewrite elem_of_cons in Hk'. naive_solver.
Qed.

Lemma get_by_prefix_spec st c a k1 : cached (CacheLaws := double_cache_laws every) st c a →
  let '(l, c') := CacheStorageDoubleMap.get_by_prefix st k1 c in
  bt_wf l ∧ (∀ k, bt_get k l = a !! (k1, k)) ∧
  cached (CacheLaws := double_cache_laws every) st c' a.
Proof.
  intros Hc. unfold CacheStorageDoubleMap.get_by_prefix, CacheStorageDoubleMap.load.
  rewrite second_set_eq.
  destruct (load_entries st k1 (iter_prefix st k1) (CacheStorageDoubleMap.second_map k1 c))
    as [Hs Hall].
  { intros [k v] Hp. by apply elem_of_iter_prefix in Hp. }
  { by apply (dc_coh _ _ _ _ Hc). }
  set (m' := foldl CacheStorageDoubleMap.load_entry _ _) in *.
  pose proof Hs as [Hcoh Hview].
  split; [by apply (bt_wf_omap (λ item, item ≫= Item.value)), Hcoh|]. split.
  - intros k. rewrite (bt_get_omap (λ item, item ≫= Item.value)) by apply Hcoh.
    rewrite <- (dc_view _ _ _ _ Hc k1 k I). rewrite <- Hview by done. unfold view.
    destruct (bt_get k m') as [item|] eqn:E; [done|].
    destruct (CacheStorageDoubleMap.try_get st k1 k) eqn:Est; [|done].
    destruct (Hall k) as [? ?]; [|congruence]. right. apply list_elem_of_fmap.
    eexists (k, v). split; [done|]. by apply elem_of_iter_prefix.
  - assert (cached (CacheLaws := double_cache_laws every) st
      (CacheStorageDoubleMap.set_second_map k1 m' c) a) as Hc'
      by (by apply double_cached_steps).
    apply double_cached_steps; [done|]. rewrite second_set_eq. by split.
Qed.
End prefix.

(** ** Sequences of operations *)

Inductive cache_op (K V : Type) :=
| CGet (k : K)
| CContainsKey (k : K)
| CSet (k : K) (v : V)
| CRemove (k : K)
| CUpdate (k : K) (v : V)   (** [if let Some(r) = get_mut(k) { *r = v }] *)
| CCommit
| CReset.
Arguments CGet {K V} k.
Arguments CContainsKey {K V} k.
Arguments CSet {K V} k v.
Arguments CRemove {K V} k.
Arguments CUpdate {K V} k v.
Arguments CCommit {K V}.
Arguments CReset {K V}.

Inductive cache_out (V : Type) := OutValue (o : option V) | OutBool (b : bool) | OutUnit.
Arguments OutValue {V} o.
Arguments OutBool {V} b.
Arguments OutUnit {V}.

Definition op_key {K V} (op : cache_op K V) : option K :=
  match op with
  | CGet k | CContainsKey k | CSet k _ | CRemove k | CUpdate k _ => Some k
  | CCommit | CReset => None
  end.

(** Runs a list of operations, collecting what they return. *)
Fixpoint run_ops {S K V} (step : cache_op K V → S → cache_out V * S) (ops : list (cache_op K V))
    (s : S) : list (cache_out V) * S :=
  match ops with
  | [] => ([], s)
  | op :: ops =>
      let '(o, s) := step op s in
      let '(os, s) := run_ops step ops s in (o :: os, s)
  end.

Section trace.
Context {C K V : Type} `{CacheLaws C K V P}.

(** The cache and the storage behind it. *)
Definition cache_step (op : cache_op K V) (s : C * gmap K V) : cache_out V * (C * gmap K V) :=
  let '(c, st) := s in
  match op with
  | CGet k => let '(r, c) := c_get st k c in (OutValue r, (c, st))
  | CContainsKey k => (OutBool (c_contains_key st k c), (c, st))
  | CSet k v => (OutUnit, (c_set k v c, st))
  | CRemove k => (OutUnit, (c_remove st k c, st))
  | CUpdate k v =>
      match c_get_mut st k c with
      | (Some r, c) => (OutValue (Some r), (c_write k v c, st))
      | (None, c) => (OutValue None, (c, st))
      end
  | CCommit => (OutUnit, c_commit c st)
  | CReset => (OutUnit, (c_reset c, st))
  end.

(** A plain map with a saved copy: the specification. *)
Definition plain_step (op : cache_op K V) (s : gmap K V * gmap K V)
    : cache_out V * (gmap K V * gmap K V) :=
  let '(a, st) := s in
  match op with
  | CGet k => (OutValue (a !! k), (a, st))
  | CContainsKey k => (OutBool (bool_decide (is_Some (a !! k))), (a, st))
  | CSet k v => (OutUnit, (<[k := v]> a, st))
  | CRemove k => (OutUnit, (delete k a, st))
  | CUpdate k v =>
      (OutValue (a !! k), (if bool_decide (is_Some (a !! k)) then <[k := v]> a else a, st))
  | CCommit => (OutUnit, (a, a))
  | CReset => (OutUnit, (st, st))
  end.

Definition op_ok (op : cache_op K V) : Prop :=
  match op_key op with Some k => P k | None => True end.

Lemma ops_ok ops : Forall (λ op : cache_op K V, ∀ k, op_key op = Some k → P k) ops → Forall op_ok ops.
Proof.
  intros Hops. eapply Forall_impl; [exact Hops|]. intros op Hop. unfold op_ok.
  destruct (op_key op) eqn:E; auto.
Qed.

Lemma step_refines op c st a : op_ok op → cached st c a →
  let '(o, (c', st')) := cache_step op (c, st) in
  let '(o', (a', sv)) := plain_step op (a, st) in
  o = o' ∧ st' = sv ∧ cached st' c' a'.
Proof.
  intros Hop Hc. destruct op as [k|k|k v|k|k v| |]; simpl in *.
  - destruct (cached_get st c a k Hc Hop) as [<- ?]. by destruct (c_get st k c).
  - by rewrite (cached_contains _ _ _ _ Hc Hop).
  - auto using cached_set.
  - auto using cached_remove.
  - destruct (cached_get_mut st c a k Hc Hop) as [Hr Hc'].
    destruct (c_get_mut st k c) as [r c']. simpl in *. subst r.
    destruct (a !! k) as [r|] eqn:E.
    + rewrite bool_decide_eq_true_2 by done. auto using cached_write.
    + rewrite bool_decide_eq_false_2; [done|]. by intros [? [=]].
  - destruct (cached_commit st c a Hc) as [Ha Hc']. destruct (c_commit c st) as [c' st'].
    simpl in *. by subst.
  - split; [done|]. split; [done|]. by eapply cached_reset.
Qed.

Lemma trace_refines ops c st a : Forall op_ok ops → cached st c a →
  let '(os, (c', st')) := run_ops cache_step ops (c, st) in
  let '(os', (a', sv)) := run_ops plain_step ops (a, st) in
  os = os' ∧ st' = sv ∧ cached st' c' a'.
Proof.
  revert c st a. induction ops as [|op ops IH]; intros c st a Hops Hc; [done|].
  apply Forall_cons in Hops as [Hop Hops]. cbn [run_ops].
  pose proof (step_refines op c st a Hop Hc) as Hs.
  destruct (cache_step op (c, st)) as [o [c1 st1]]. destruct (plain_step op (a, st)) as [o' [a1 sv1]].
  destruct Hs as (-> & <- & Hc1). specialize (IH c1 st1 a1 Hops Hc1).
  destruct (run_ops cache_step ops (c1, st1)) as [os [c2 st2]].
  destruct (run_ops plain_step ops (a1, st1)) as [os' [a2 sv2]]. by destruct IH as (-> & -> & ?).
Qed.
End trace.

(** A [CacheStorageMap] over a storage map is indistinguishable from the map:
    any sequence of reads, writes, removals, in-place updates, commits and resets
    returns the same values as on a plain map, and what the commits leave in
    storage is what the plain map held at the last commit. *)
Theorem cache_storage_map_trace {K V} `{Ord K, Countable K} (P : K → Prop) `{!KeySet K P}
    `{∀ k, Decision (P k)} (st : gmap K V) (ops : list (cache_op K V)) :
  Forall (λ op, ∀ k, op_key op = Some k → P k) ops →
  let '(outs, (_, st')) :=
    run_ops (cache_step (C := CacheStorageMap.t K V)) ops (CacheStorageMap.new, st) in
  let '(outs', (_, saved)) := run_ops plain_step ops (st, st) in
  outs = outs' ∧ st' = saved.
Proof.
  intros Hops%(ops_ok (P := P)).
  pose proof (trace_refines (P := P) ops CacheStorageMap.new st st Hops (cached_new st)) as Ht.
  destruct (run_ops cache_step _ _) as [os [c' st']], (run_ops plain_step _ _) as [os' [a' sv]].
  by destruct Ht as (-> & -> & _).
Qed.

(** The same for a [CacheStorageDoubleMap] over a storage double map. *)
Theorem cache_storage_double_map_trace {K1 K2 V} `{LawfulOrd K1, Ord K2, Countable K1, Countable K2}
    (P : K2 → Prop) `{!KeySet K2 P} `{∀ k, Decision (P k)} (st : gmap (K1 * K2) V)
    (ops : list (cache_op (K1 * K2) V)) :
  Forall (λ op, ∀ k, op_key op = Some k → P (snd k)) ops →
  let '(outs, (_, st')) :=
    run_ops (cache_step (C := CacheStorageDoubleMap.t K1 K2 V)) ops
      (CacheStorageDoubleMap.new, st) in
  let '(outs', (_, saved)) := run_ops plain_step ops (st, st) in
  outs = outs' ∧ st' = saved.
Proof.
  intros Hops%(ops_ok (P := double_keys P)).
  pose proof (trace_refines (P := double_keys P) ops CacheStorageDoubleMap.new st st Hops
    (cached_new st)) as Ht.
  destruct (run_ops cache_step _ _) as [os [c' st']], (run_ops plain_step _ _) as [os' [a' sv]].
  by destruct Ht as (-> & -> & _).
Qed.

Lemma cache_storage_map_trace_witness :
  let '(outs, (_, st)) :=
    run_ops (cache_step (C := CacheStorageMap.t Z Z))
      [CSet 1 5; CRemove 2; CUpdate 1 6; CCommit; CGet 1] (CacheStorageMap.new, {[2 := 7]}) in
  outs = [OutUnit; OutUnit; OutValue (Some 5); OutUnit; OutValue (Some 6)] ∧ st = {[1 := 6]}.
Proof.
  pose proof (cache_storage_map_trace (K := Z) (V := Z) (λ _, True) {[2 := 7]}
    [CSet 1 5; CRemove 2; CUpdate 1 6; CCommit; CGet 1] ltac:(repeat constructor)) as H.
  vm_compute in H. vm_compute. exact H.
Defined.

Lemma cache_storage_double_map_trace_witness :
  let '(outs, (_, st)) :=
    run_ops (cache_step (C := CacheStorageDoubleMap.t Z Z Z))
      [CSet (1, 1) 5; CRemove (2, 1); CCommit; CContainsKey (2, 1); CGet (1, 1)]
      (CacheStorageDoubleMap.new, {[(2, 1) := 7]}) in
  outs = [OutUnit; OutUnit; OutUnit; OutBool false; OutValue (Some 5)] ∧ st = {[(1, 1) := 5]}.
Proof.
  pose proof (cache_storage_double_map_trace (K1 := Z) (K2 := Z) (V := Z) (λ _, True) {[(2, 1) := 7]}
    [CSet (1, 1) 5; CRemove (2, 1); CCommit; CContainsKey (2, 1); CGet (1, 1)]
    ltac:(repeat constructor)) as H.
  vm_compute in H. vm_compute. exact H.
Defined.
