(* ===== verification/CacheLayer.v ===== *)
(** * [CacheDataLayer] ([pallets/order-book/src/cache_data_layer.rs])

    The data layer the extrinsics use: the six caches of the source over the
    six storage maps.  The state of the layer is the caches together with the
    storage behind them, which only [commit] writes.

    [refines] relates a computation on a layer to the same computation on the
    plain storage; every operation of the cached layer refines the one of
    [StorageDataLayer] as long as the storage it stands for is consistent
    ([Inv]). *)

From S2P Require Import Prelude BTreeMap FixedPoint Units OrderTypes DataLayer StorageProps.
From S2P Require Import CacheStorage CacheProps.

Module CacheDataLayer.

Record caches := {
  limit_orders : CacheStorageDoubleMap.t OrderBookId OrderId LimitOrder.t;
  bids : CacheStorageDoubleMap.t OrderBookId OrderPrice (list OrderId);
  asks : CacheStorageDoubleMap.t OrderBookId OrderPrice (list OrderId);
  aggregated_bids : CacheStorageMap.t OrderBookId MarketSide;
  aggregated_asks : CacheStorageMap.t OrderBookId MarketSide;
  user_limit_orders : CacheStorageDoubleMap.t AccountId OrderBookId (list OrderId)
}.

Record t := mk { cache : caches; storage : Storage }.

Definition new (s : Storage) : t :=
  mk {| limit_orders := CacheStorageDoubleMap.new;
        bids := CacheStorageDoubleMap.new;
        asks := CacheStorageDoubleMap.new;
        aggregated_bids := CacheStorageMap.new;
        aggregated_asks := CacheStorageMap.new;
        user_limit_orders := CacheStorageDoubleMap.new |} s.

Definition commit (d : t) : t :=
  let c := cache d in
  let s := storage d in
  let '(c1, s1) := CacheStorageDoubleMap.commit (limit_orders c) (LimitOrders s) in
  let '(c2, s2) := CacheStorageDoubleMap.commit (bids c) (Bids s) in
  let '(c3, s3) := CacheStorageDoubleMap.commit (asks c) (Asks s) in
  let '(c4, s4) := CacheStorageMap.commit (aggregated_bids c) (AggregatedBids s) in
  let '(c5, s5) := CacheStorageMap.commit (aggregated_asks c) (AggregatedAsks s) in
  let '(c6, s6) := CacheStorageDoubleMap.commit (user_limit_orders c) (UserLimitOrders s) in
  mk {| limit_orders := c1; bids := c2; asks := c3; aggregated_bids := c4; aggregated_asks := c5;
        user_limit_orders := c6 |}
     {| LimitOrders := s1; Bids := s2; Asks := s3; AggregatedBids := s4; AggregatedAsks := s5;
        UserLimitOrders := s6 |}.

Definition reset (d : t) : t :=
  let c := cache d in
  mk {| limit_orders := CacheStorageDoubleMap.reset (limit_orders c);
        bids := CacheStorageDoubleMap.reset (bids c);
        asks := CacheStorageDoubleMap.reset (asks c);
        aggregated_bids := CacheStorageMap.reset (aggregated_bids c);
        aggregated_asks := CacheStorageMap.reset (aggregated_asks c);
        user_limit_orders := CacheStorageDoubleMap.reset (user_limit_orders c) |} (storage d).

(** *** Access to one cache

    [self.limit_orders.op(..)]: the operation gets the storage map behind the
    cache and the cache, and returns a value and the new cache. *)
Section access.
Context {E A : Type}.

Definition on_limit_orders
    (f : gmap (OrderBookId * OrderId) LimitOrder.t →
         CacheStorageDoubleMap.t OrderBookId OrderId LimitOrder.t →
         A * CacheStorageDoubleMap.t OrderBookId OrderId LimitOrder.t) : M t E A := λ d,
  let c := cache d in
  let '(a, x) := f (LimitOrders (storage d)) (limit_orders c) in
  (Ok a, mk (Build_caches x (bids c) (asks c) (aggregated_bids c) (aggregated_asks c)
               (user_limit_orders c)) (storage d)).

Definition on_orders (sd : PriceVariant)
    (f : gmap (OrderBookId * OrderPrice) (list OrderId) →
         CacheStorageDoubleMap.t OrderBookId OrderPrice (list OrderId) →
         A * CacheStorageDoubleMap.t OrderBookId OrderPrice (list OrderId)) : M t E A := λ d,
  let c := cache d in
  match sd with
  | Buy =>
      let '(a, x) := f (Bids (storage d)) (bids c) in
      (Ok a, mk (Build_caches (limit_orders c) x (asks c) (aggregated_bids c) (aggregated_asks c)
                   (user_limit_orders c)) (storage d))
  | Sell =>
      let '(a, x) := f (Asks (storage d)) (asks c) in
      (Ok a, mk (Build_caches (limit_orders c) (bids c) x (aggregated_bids c) (aggregated_asks c)
                   (user_limit_orders c)) (storage d))
  end.

Definition on_aggregated (sd : PriceVariant)
    (f : gmap OrderBookId MarketSide → CacheStorageMap.t OrderBookId MarketSide →
         A * CacheStorageMap.t OrderBookId MarketSide) : M t E A := λ d,
  let c := cache d in
  match sd with
  | Buy =>
      let '(a, x) := f (AggregatedBids (storage d)) (aggregated_bids c) in
      (Ok a, mk (Build_caches (limit_orders c) (bids c) (asks c) x (aggregated_asks c)
                   (user_limit_orders c)) (storage d))
  | Sell =>
      let '(a, x) := f (AggregatedAsks (storage d)) (aggregated_asks c) in
      (Ok a, mk (Build_caches (limit_orders c) (bids c) (asks c) (aggregated_bids c) x
                   (user_limit_orders c)) (storage d))
  end.

Definition on_user_limit_orders
    (f : gmap (AccountId * OrderBookId) (list OrderId) →
         CacheStorageDoubleMap.t AccountId OrderBookId (list OrderId) →
         A * CacheStorageDoubleMap.t AccountId OrderBookId (list OrderId)) : M t E A := λ d,
  let c := cache d in
  let '(a, x) := f (UserLimitOrders (storage d)) (user_limit_orders c) in
  (Ok a, mk (Build_caches (limit_orders c) (bids c) (asks c) (aggregated_bids c)
               (aggregated_asks c) x) (storage d)).
End access.

(** An operation that returns nothing. *)
Definition unit_op {St C} (f : St → C → C) : St → C → unit * C := λ st c, (tt, f st c).

(** *** The operations *)

Section layer.
Context {Cfg : Config} {SK : StorageKeys}.

(** [BoundedVec::try_from], [BoundedBTreeMap::try_from]. *)
Definition try_from {A} (bound : nat) (l : list A) : option (list A) :=
  if (length l <=? bound)%nat then Some l else None.

Definition add_to_orders (sd : PriceVariant) (id : OrderBookId) (order : LimitOrder.t)
    : M t unit unit :=
  let price := LimitOrder.price order in
  r ← on_orders sd (λ st, CacheStorageDoubleMap.get_mut st id price);
  match r with
  | Some l =>
      l ← ok_or (try_push MaxLimitOrdersForPrice l (LimitOrder.id order)) tt;
      on_orders sd (unit_op (λ _, CacheStorageDoubleMap.write id price l))
  | None =>
      l ← ok_or (try_from MaxLimitOrdersForPrice [LimitOrder.id order]) tt;
      on_orders sd (unit_op (λ _, CacheStorageDoubleMap.set id price l))
  end.

Definition add_to_bids := add_to_orders Buy.
Definition add_to_asks := add_to_orders Sell.

Definition remove_from_orders {E} (sd : PriceVariant) (id : OrderBookId) (order : LimitOrder.t)
    : M t E unit :=
  let price := LimitOrder.price order in
  r ← on_orders sd (λ st, CacheStorageDoubleMap.get_mut st id price);
  match r with
  | Some l =>
      let l := retain_ne (LimitOrder.id order) l in
      _ ← on_orders sd (unit_op (λ _, CacheStorageDoubleMap.write id price l));
      match l with
      | [] => on_orders sd (unit_op (λ st, CacheStorageDoubleMap.remove st id price))
      | _ => mret tt
      end
  | None => mret tt
  end.

Definition remove_from_bids {E} := remove_from_orders (E := E) Buy.
Definition remove_from_asks {E} := remove_from_orders (E := E) Sell.

Definition add_to_aggregated (sd : PriceVariant) (id : OrderBookId) (price : OrderPrice)
    (value : OrderVolume) : M t unit unit :=
  r ← on_aggregated sd (λ st, CacheStorageMap.get_mut (st !!.) id);
  match r with
  | Some agg =>
      volume ← ok_or (BalanceUnit.checked_add (default BalanceUnit.zero (bt_get price agg)) value) tt;
      agg ← ok_or (try_insert MaxSidePriceCount price volume agg) tt;
      on_aggregated sd (unit_op (λ _, CacheStorageMap.write id agg))
  | None =>
      agg ← ok_or (try_from MaxSidePriceCount [(price, value)]) tt;
      on_aggregated sd (unit_op (λ _, CacheStorageMap.set id agg))
  end.

Definition add_to_aggregated_bids := add_to_aggregated Buy.
Definition add_to_aggregated_asks := add_to_aggregated Sell.

Definition sub_from_aggregated (sd : PriceVariant) (id : OrderBookId) (price : OrderPrice)
    (value : OrderVolume) : M t unit unit :=
  r ← on_aggregated sd (λ st, CacheStorageMap.get_mut (st !!.) id);
  match r with
  | Some agg =>
      volume ← ok_or (BalanceUnit.checked_sub (default BalanceUnit.zero (bt_get price agg)) value) tt;
      agg ← (if BalanceUnit.is_zero volume then mret (bt_remove price agg)
             else ok_or (try_insert MaxSidePriceCount price volume agg) tt);
      on_aggregated sd (unit_op (λ _, CacheStorageMap.write id agg))
  | None => if negb (BalanceUnit.is_zero price) then mthrow tt else mret tt
  end.

Definition sub_from_aggregated_bids := sub_from_aggregated Buy.
Definition sub_from_aggregated_asks := sub_from_aggregated Sell.

Definition get_limit_order (id : OrderBookId) (order_id : OrderId)
    : M t DispatchError LimitOrder.t :=
  r ← on_limit_orders (λ st, CacheStorageDoubleMap.get st id order_id);
  ok_or r (OrderBookError UnknownLimitOrder).

Definition get_all_limit_orders (id : OrderBookId) : M t DispatchError (list LimitOrder.t) :=
  orders ← on_limit_orders (λ st, CacheStorageDoubleMap.get_by_prefix st id);
  mret (bt_values orders).

Definition insert_limit_order (id : OrderBookId) (order : LimitOrder.t)
    : M t DispatchError unit :=
  present ← on_limit_orders (λ st c,
    (CacheStorageDoubleMap.contains_key st id (LimitOrder.id order) c, c));
  _ ← ensure (negb present) (OrderBookError LimitOrderAlreadyExists);
  _ ← match LimitOrder.side order with
      | Buy =>
          _ ← map_err (add_to_bids id order) (λ _, OrderBookError LimitOrderStorageOverflow);
          map_err (add_to_aggregated_bids id (LimitOrder.price order) (LimitOrder.amount order))
            (λ _, OrderBookError LimitOrderStorageOverflow)
      | Sell =>
          _ ← map_err (add_to_asks id order) (λ _, OrderBookError LimitOrderStorageOverflow);
          map_err (add_to_aggregated_asks id (LimitOrder.price order) (LimitOrder.amount order))
            (λ _, OrderBookError LimitOrderStorageOverflow)
      end;
  user_orders ← on_user_limit_orders (λ st, CacheStorageDoubleMap.get st (LimitOrder.owner order) id);
  user_orders ← ok_or (try_push MaxOpenedLimitOrdersPerUser (default [] user_orders)
                         (LimitOrder.id order)) (OrderBookError LimitOrderStorageOverflow);
  _ ← on_user_limit_orders
        (unit_op (λ _, CacheStorageDoubleMap.set (LimitOrder.owner order) id user_orders));
  on_limit_orders (unit_op (λ _, CacheStorageDoubleMap.set id (LimitOrder.id order) order)).

Definition delete_limit_order (id : OrderBookId) (order_id : OrderId)
    : M t DispatchError unit :=
  r ← on_limit_orders (λ st, CacheStorageDoubleMap.get st id order_id);
  order ← ok_or r (OrderBookError UnknownLimitOrder);
  _ ← match LimitOrder.side order with
      | Buy =>
          _ ← remove_from_bids id order;
          map_err (sub_from_aggregated_bids id (LimitOrder.price order) (LimitOrder.amount order))
            (λ _, OrderBookError DeleteLimitOrderError)
      | Sell =>
          _ ← remove_from_asks id order;
          map_err (sub_from_aggregated_asks id (LimitOrder.price order) (LimitOrder.amount order))
            (λ _, OrderBookError DeleteLimitOrderError)
      end;
  user_orders ← on_user_limit_orders (λ st, CacheStorageDoubleMap.get st (LimitOrder.owner order) id);
  _ ← match user_orders with
      | Some user_orders =>
          match retain_ne (LimitOrder.id order) user_orders with
          | [] => on_user_limit_orders
                    (unit_op (λ st, CacheStorageDoubleMap.remove st (LimitOrder.owner order) id))
          | user_orders =>
              on_user_limit_orders
                (unit_op (λ _, CacheStorageDoubleMap.set (LimitOrder.owner order) id user_orders))
          end
      | None => mthrow (OrderBookError DeleteLimitOrderError)
      end;
  on_limit_orders (unit_op (λ st, CacheStorageDoubleMap.remove st id order_id)).

Definition update_limit_order_amount (id : OrderBookId) (order_id : OrderId)
    (new_amount : OrderVolume) : M t DispatchError unit :=
  r ← on_limit_orders (λ st, CacheStorageDoubleMap.get st id order_id);
  order ← ok_or r (OrderBookError UnknownLimitOrder);
  if bool_decide (new_amount = LimitOrder.amount order) then mret tt else
  if BalanceUnit.is_zero new_amount then delete_limit_order id order_id else
  _ ← ensure (BalanceUnit.gt (LimitOrder.amount order) new_amount)
        (OrderBookError UpdateLimitOrderError);
  delta ← ok_or (BalanceUnit.checked_sub (LimitOrder.amount order) new_amount)
            (OrderBookError AmountCalculationFailed);
  _ ← match LimitOrder.side order with
      | Buy => map_err (sub_from_aggregated_bids id (LimitOrder.price order) delta)
                 (λ _, OrderBookError UpdateLimitOrderError)
      | Sell => map_err (sub_from_aggregated_asks id (LimitOrder.price order) delta)
                 (λ _, OrderBookError UpdateLimitOrderError)
      end;
  on_limit_orders (unit_op (λ _,
    CacheStorageDoubleMap.set id order_id (LimitOrder.set_amount order new_amount))).

Definition get_bids (id : OrderBookId) (price : OrderPrice)
    : M t DispatchError (option (list OrderId)) :=
  on_orders Buy (λ st, CacheStorageDoubleMap.get st id price).

Definition is_bid_price_full (id : OrderBookId) (price : OrderPrice)
    : M t DispatchError (option bool) :=
  orders ← on_orders Buy (λ st, CacheStorageDoubleMap.get st id price);
  mret (is_full MaxLimitOrdersForPrice <$> orders).

Definition get_asks (id : OrderBookId) (price : OrderPrice)
    : M t DispatchError (option (list OrderId)) :=
  on_orders Sell (λ st, CacheStorageDoubleMap.get st id price).

Definition is_ask_price_full (id : OrderBookId) (price : OrderPrice)
    : M t DispatchError (option bool) :=
  orders ← on_orders Sell (λ st, CacheStorageDoubleMap.get st id price);
  mret (is_full MaxLimitOrdersForPrice <$> orders).

(** [self.aggregated_bids.get(id)] and [self.aggregated_asks.get(id)]. *)
Definition get_agg (sd : PriceVariant) (id : OrderBookId) : M t DispatchError (option MarketSide) :=
  on_aggregated sd (λ st, CacheStorageMap.get (st !!.) id).

Definition get_aggregated_bids (id : OrderBookId) : M t DispatchError MarketSide :=
  side ← get_agg Buy id; mret (default [] side).

Definition get_aggregated_bids_len (id : OrderBookId) : M t DispatchError (option nat) :=
  side ← get_agg Buy id; mret (length <$> side).

Definition best_bid (id : OrderBookId) : M t DispatchError (option (OrderPrice * OrderVolume)) :=
  side ← get_agg Buy id; mret (side ≫= iter_max).

Definition get_aggregated_asks (id : OrderBookId) : M t DispatchError MarketSide :=
  side ← get_agg Sell id; mret (default [] side).

Definition get_aggregated_asks_len (id : OrderBookId) : M t DispatchError (option nat) :=
  side ← get_agg Sell id; mret (length <$> side).

Definition best_ask (id : OrderBookId) : M t DispatchError (option (OrderPrice * OrderVolume)) :=
  side ← get_agg Sell id; mret (side ≫= iter_min).

Definition get_user_limit_orders (account : AccountId) (id : OrderBookId)
    : M t DispatchError (option (list OrderId)) :=
  on_user_limit_orders (λ st, CacheStorageDoubleMap.get st account id).

Definition is_user_limit_orders_full (account : AccountId) (id : OrderBookId)
    : M t DispatchError (option bool) :=
  orders ← on_user_limit_orders (λ st, CacheStorageDoubleMap.get_mut st account id);
  mret (is_full MaxOpenedLimitOrdersPerUser <$> orders).

Definition get_all_user_limit_orders (account : AccountId)
    : M t DispatchError (BTreeMap OrderBookId (list OrderId)) :=
  on_user_limit_orders (λ st, CacheStorageDoubleMap.get_by_prefix st account).

#[global] Instance layer : DataLayer t := {|
  DataLayer.get_limit_order := get_limit_order;
  DataLayer.get_all_limit_orders := get_all_limit_orders;
  DataLayer.insert_limit_order := insert_limit_order;
  DataLayer.update_limit_order_amount := update_limit_order_amount;
  DataLayer.delete_limit_order := delete_limit_order;
  DataLayer.get_bids := get_bids;
  DataLayer.is_bid_price_full := is_bid_price_full;
  DataLayer.get_asks := get_asks;
  DataLayer.is_ask_price_full := is_ask_price_full;
  DataLayer.get_aggregated_bids := get_aggregated_bids;
  DataLayer.get_aggregated_bids_len := get_aggregated_bids_len;
  DataLayer.best_bid := best_bid;
  DataLayer.get_aggregated_asks := get_aggregated_asks;
  DataLayer.get_aggregated_asks_len := get_aggregated_asks_len;
  DataLayer.best_ask := best_ask;
  DataLayer.get_user_limit_orders := get_user_limit_orders;
  DataLayer.is_user_limit_orders_full := is_user_limit_orders_full;
  DataLayer.get_all_user_limit_orders := get_all_user_limit_orders
|}.
End layer.
End CacheDataLayer.
