(* ===== verification/CacheRefine.v ===== *)
(** * The cached layer implements the storage layer

    [related d s]: the cached layer [d] stands for the storage [s].  Each
    operation of [CacheDataLayer] is run forward on the maps it stands for
    ([runs], [fails]) and compared with the operation of [StorageDataLayer]. *)

From S2P Require Import Prelude BTreeMap FixedPoint Units OrderTypes DataLayer StorageProps.
From S2P Require Import CacheStorage CacheProps CacheLayer.

(** The prices of a book are divisible, where [Ord] and equality agree. *)
Definition price_key (p : OrderPrice) : Prop := BalanceUnit.is_divisible p = true.

#[export] Instance price_key_dec p : Decision (price_key p).
Proof. unfold price_key. apply _. Defined.

#[export] Instance price_keys : KeySet OrderPrice price_key.
Proof.
  split; [apply _|]. unfold price_key. intros x y Hx Hy. apply BalanceUnit.cmp_eq_same. congruence.
Qed.

Definition any {K : Type} (_ : K) : Prop := True.

#[export] Instance any_dec {K} (k : K) : Decision (any k).
Proof. unfold any. apply _. Defined.

#[export] Instance any_keys {K} `{LawfulOrd K} : KeySet K any.
Proof. apply all_keys. Qed.

(** The caches of the two sides. *)
Definition side_cache (sd : PriceVariant) (d : CacheDataLayer.t) :=
  match sd with
  | Buy => CacheDataLayer.bids (CacheDataLayer.cache d)
  | Sell => CacheDataLayer.asks (CacheDataLayer.cache d)
  end.

Definition agg_cache (sd : PriceVariant) (d : CacheDataLayer.t) :=
  match sd with
  | Buy => CacheDataLayer.aggregated_bids (CacheDataLayer.cache d)
  | Sell => CacheDataLayer.aggregated_asks (CacheDataLayer.cache d)
  end.

Record related (d : CacheDataLayer.t) (s : Storage) : Prop := {
  rel_orders : cached (CacheLaws := double_cache_laws any) (LimitOrders (CacheDataLayer.storage d))
    (CacheDataLayer.limit_orders (CacheDataLayer.cache d)) (LimitOrders s);
  rel_side sd : cached (CacheLaws := double_cache_laws price_key)
    (side_orders sd (CacheDataLayer.storage d)) (side_cache sd d) (side_orders sd s);
  rel_agg sd : cached (CacheLaws := map_cache_laws any)
    (side_agg sd (CacheDataLayer.storage d)) (agg_cache sd d) (side_agg sd s);
  rel_user : cached (CacheLaws := double_cache_laws any)
    (UserLimitOrders (CacheDataLayer.storage d))
    (CacheDataLayer.user_limit_orders (CacheDataLayer.cache d)) (UserLimitOrders s)
}.

Lemma related_new s : related (CacheDataLayer.new s) s.
Proof.
  split; [apply (cached_new (CacheLaws := double_cache_laws any))|..|
          apply (cached_new (CacheLaws := double_cache_laws any))].
  - intros []; apply (cached_new (CacheLaws := double_cache_laws price_key)).
  - intros []; apply (cached_new (CacheLaws := map_cache_laws any)).
Qed.

(** Committing writes the storage the layer stands for. *)
Lemma related_commit d s : related d s →
  CacheDataLayer.storage (CacheDataLayer.commit d) = s ∧ related (CacheDataLayer.commit d) s.
Proof.
  intros [Ho Hs Ha Hu].
  pose proof (cached_commit _ _ _ Ho) as [Eo Co]. pose proof (cached_commit _ _ _ Hu) as [Eu Cu].
  pose proof (cached_commit _ _ _ (Hs Buy)) as [Eb Cb].
  pose proof (cached_commit _ _ _ (Hs Sell)) as [Es Cs].
  pose proof (cached_commit _ _ _ (Ha Buy)) as [Eab Cab].
  pose proof (cached_commit _ _ _ (Ha Sell)) as [Eas Cas].
  destruct s as [lo bi as_ ab aa us]. simpl in *. split.
  - unfold CacheDataLayer.commit. simpl. by rewrite Eo, Eu, Eb, Es, Eab, Eas.
  - unfold CacheDataLayer.commit. split; simpl.
    + by rewrite Eo.
    + intros []; simpl; [by rewrite Eb|by rewrite Es].
    + intros []; simpl; [by rewrite Eab|by rewrite Eas].
    + by rewrite Eu.
Qed.

(** ** Forward runs *)

Section runs.
Context {E : Type}.

Definition runs {A} (c : M CacheDataLayer.t E A) (s : Storage) (a : A) (s' : Storage) : Prop :=
  ∀ d, related d s → ∃ d', c d = (Ok a, d') ∧ related d' s'.

Definition fails {A} (c : M CacheDataLayer.t E A) (s : Storage) (e : E) : Prop :=
  ∀ d, related d s → ∃ d', c d = (Err e, d').

Lemma runs_ret {A} (a : A) s : runs (mret a) s a s.
Proof. intros d Hd. by exists d. Qed.

Lemma runs_bind {A B} (c : M CacheDataLayer.t E A) (f : A → M CacheDataLayer.t E B) s a s1 b s2 :
  runs c s a s1 → runs (f a) s1 b s2 → runs (c ≫= f) s b s2.
Proof.
  intros Hc Hf d Hd. destruct (Hc d Hd) as (d1 & E1 & Hd1). destruct (Hf d1 Hd1) as (d2 & E2 & Hd2).
  exists d2. by rewrite (M_bind_run_ok _ _ _ _ _ E1).
Qed.

Lemma fails_bind {A B} (c : M CacheDataLayer.t E A) (f : A → M CacheDataLayer.t E B) s a s1 e :
  runs c s a s1 → fails (f a) s1 e → fails (c ≫= f) s e.
Proof.
  intros Hc Hf d Hd. destruct (Hc d Hd) as (d1 & E1 & Hd1). destruct (Hf d1 Hd1) as (d2 & E2).
  exists d2. by rewrite (M_bind_run_ok _ _ _ _ _ E1).
Qed.

Lemma fails_bind_l {A B} (c : M CacheDataLayer.t E A) (f : A → M CacheDataLayer.t E B) s e :
  fails c s e → fails (c ≫= f) s e.
Proof.
  intros Hc d Hd. destruct (Hc d Hd) as (d1 & E1). exists d1.
  by rewrite (M_bind_run_err _ _ _ _ _ E1).
Qed.

Lemma fails_throw {A} (e : E) s : fails (A := A) (mthrow e) s e.
Proof. intros d Hd. by exists d. Qed.
End runs.

Lemma runs_map_err {E E' A} (c : M CacheDataLayer.t E A) (f : E → E') s a s' :
  runs c s a s' → runs (map_err c f) s a s'.
Proof.
  intros Hc d Hd. destruct (Hc d Hd) as (d1 & E1 & Hd1). exists d1. by rewrite map_err_ok.
Qed.

Lemma fails_map_err {E E' A} (c : M CacheDataLayer.t E A) (f : E → E') s e :
  fails c s e → fails (map_err c f) s (f e).
Proof.
  intros Hc d Hd. destruct (Hc d Hd) as (d1 & E1). exists d1. unfold map_err. by rewrite E1.
Qed.

Lemma set_LimitOrders_id s : set_LimitOrders (LimitOrders s) s = s.
Proof. by destruct s. Qed.
Lemma set_UserLimitOrders_id s : set_UserLimitOrders (UserLimitOrders s) s = s.
Proof. by destruct s. Qed.
Lemma set_side_orders_id sd s : set_side_orders sd (side_orders sd s) s = s.
Proof. by destruct s, sd. Qed.
Lemma set_side_agg_id sd s : set_side_agg sd (side_agg sd s) s = s.
Proof. by destruct s, sd. Qed.

(** *** One cache operation *)

Section access.
Context {E : Type}.

Lemma on_limit_orders_runs {A} f (a : A) s m :
  (∀ st c, cached (CacheLaws := double_cache_laws any) st c (LimitOrders s) →
    fst (f st c) = a ∧ cached (CacheLaws := double_cache_laws any) st (snd (f st c)) m) →
  runs (E := E) (CacheDataLayer.on_limit_orders f) s a (set_LimitOrders m s).
Proof.
  intros Hf d [Ho Hs Ha Hu]. unfold CacheDataLayer.on_limit_orders.
  destruct (Hf _ _ Ho) as [Ea Hc]. destruct (f _ _) as [a' x]. simpl in *. subst a'.
  eexists. split; [done|]. split; [done|..|done].
  - intros sd. specialize (Hs sd). by destruct sd.
  - intros sd. specialize (Ha sd). by destruct sd.
Qed.

Lemma on_user_runs {A} f (a : A) s m :
  (∀ st c, cached (CacheLaws := double_cache_laws any) st c (UserLimitOrders s) →
    fst (f st c) = a ∧ cached (CacheLaws := double_cache_laws any) st (snd (f st c)) m) →
  runs (E := E) (CacheDataLayer.on_user_limit_orders f) s a (set_UserLimitOrders m s).
Proof.
  intros Hf d [Ho Hs Ha Hu]. unfold CacheDataLayer.on_user_limit_orders.
  destruct (Hf _ _ Hu) as [Ea Hc]. destruct (f _ _) as [a' x]. simpl in *. subst a'.
  eexists. split; [done|]. split; [done|..|done].
  - intros sd. specialize (Hs sd). by destruct sd.
  - intros sd. specialize (Ha sd). by destruct sd.
Qed.

Lemma on_orders_runs {A} sd f (a : A) s m :
  (∀ st c, cached (CacheLaws := double_cache_laws price_key) st c (side_orders sd s) →
    fst (f st c) = a ∧ cached (CacheLaws := double_cache_laws price_key) st (snd (f st c)) m) →
  runs (E := E) (CacheDataLayer.on_orders sd f) s a (set_side_orders sd m s).
Proof.
  intros Hf d [Ho Hs Ha Hu]. unfold CacheDataLayer.on_orders.
  destruct sd.
  - destruct (Hf _ _ (Hs Buy)) as [Ea Hc]. simpl in *. destruct (f _ _) as [a' x]. simpl in *. subst a'.
    eexists. split; [done|]. split; [done| | |done].
    + intros []; [done|apply (Hs Sell)].
    + intros sd. specialize (Ha sd). by destruct sd.
  - destruct (Hf _ _ (Hs Sell)) as [Ea Hc]. simpl in *. destruct (f _ _) as [a' x]. simpl in *. subst a'.
    eexists. split; [done|]. split; [done| | |done].
    + intros []; [apply (Hs Buy)|done].
    + intros sd. specialize (Ha sd). by destruct sd.
Qed.

Lemma on_agg_runs {A} sd f (a : A) s m :
  (∀ st c, cached (CacheLaws := map_cache_laws any) st c (side_agg sd s) →
    fst (f st c) = a ∧ cached (CacheLaws := map_cache_laws any) st (snd (f st c)) m) →
  runs (E := E) (CacheDataLayer.on_aggregated sd f) s a (set_side_agg sd m s).
Proof.
  intros Hf d [Ho Hs Ha Hu]. unfold CacheDataLayer.on_aggregated.
  destruct sd.
  - destruct (Hf _ _ (Ha Buy)) as [Ea Hc]. simpl in *. destruct (f _ _) as [a' x]. simpl in *. subst a'.
    eexists. split; [done|]. split; [done| | |done].
    + intros sd. specialize (Hs sd). by destruct sd.
    + intros []; [done|apply (Ha Sell)].
  - destruct (Hf _ _ (Ha Sell)) as [Ea Hc]. simpl in *. destruct (f _ _) as [a' x]. simpl in *. subst a'.
    eexists. split; [done|]. split; [done| | |done].
    + intros sd. specialize (Hs sd). by destruct sd.
    + intros []; [apply (Ha Buy)|done].
Qed.
(** Operations that leave the map the cache stands for. *)
Lemma on_limit_orders_reads {A} f (a : A) s :
  (∀ st c, cached (CacheLaws := double_cache_laws any) st c (LimitOrders s) →
    fst (f st c) = a ∧ cached (CacheLaws := double_cache_laws any) st (snd (f st c)) (LimitOrders s)) →
  runs (E := E) (CacheDataLayer.on_limit_orders f) s a s.
Proof. intros Hf. pose proof (on_limit_orders_runs f a s _ Hf) as Hr. by rewrite set_LimitOrders_id in Hr. Qed.

Lemma on_user_reads {A} f (a : A) s :
  (∀ st c, cached (CacheLaws := double_cache_laws any) st c (UserLimitOrders s) →
    fst (f st c) = a ∧
    cached (CacheLaws := double_cache_laws any) st (snd (f st c)) (UserLimitOrders s)) →
  runs (E := E) (CacheDataLayer.on_user_limit_orders f) s a s.
Proof. intros Hf. pose proof (on_user_runs f a s _ Hf) as Hr. by rewrite set_UserLimitOrders_id in Hr. Qed.

Lemma on_orders_reads {A} sd f (a : A) s :
  (∀ st c, cached (CacheLaws := double_cache_laws price_key) st c (side_orders sd s) →
    fst (f st c) = a ∧
    cached (CacheLaws := double_cache_laws price_key) st (snd (f st c)) (side_orders sd s)) →
  runs (E := E) (CacheDataLayer.on_orders sd f) s a s.
Proof. intros Hf. pose proof (on_orders_runs sd f a s _ Hf) as Hr. by rewrite set_side_orders_id in Hr. Qed.

Lemma on_agg_reads {A} sd f (a : A) s :
  (∀ st c, cached (CacheLaws := map_cache_laws any) st c (side_agg sd s) →
    fst (f st c) = a ∧ cached (CacheLaws := map_cache_laws any) st (snd (f st c)) (side_agg sd s)) →
  runs (E := E) (CacheDataLayer.on_aggregated sd f) s a s.
Proof. intros Hf. pose proof (on_agg_runs sd f a s _ Hf) as Hr. by rewrite set_side_agg_id in Hr. Qed.
End access.

Section ops.
Context {SK : StorageKeys} {E : Type}.
Abbreviation runs := (runs (E := E)).
Implicit Types (s : Storage) (b : OrderBookId) (i : OrderId) (p : OrderPrice) (acc : AccountId).

Lemma orders_get b i s :
  runs (CacheDataLayer.on_limit_orders (λ st, CacheStorageDoubleMap.get st b i)) s
    (LimitOrders s !! (b, i)) s.
Proof.
  apply on_limit_orders_reads. intros st c Hc.
  exact (cached_get (CacheLaws := double_cache_laws any) st c _ (b, i) Hc I).
Qed.

Lemma orders_contains b i s :
  runs (CacheDataLayer.on_limit_orders (λ st c, (CacheStorageDoubleMap.contains_key st b i c, c))) s
    (bool_decide (is_Some (LimitOrders s !! (b, i)))) s.
Proof.
  apply on_limit_orders_reads. intros st c Hc. split; [|done].
  exact (cached_contains (CacheLaws := double_cache_laws any) st c _ (b, i) Hc I).
Qed.

Lemma orders_set b i o s :
  runs (CacheDataLayer.on_limit_orders
          (CacheDataLayer.unit_op (λ _, CacheStorageDoubleMap.set b i o))) s tt
    (set_LimitOrders (<[(b, i) := o]> (LimitOrders s)) s).
Proof.
  apply on_limit_orders_runs. intros st c Hc. split; [done|].
  exact (cached_set (CacheLaws := double_cache_laws any) st c _ (b, i) o Hc I).
Qed.

Lemma orders_remove b i s :
  runs (CacheDataLayer.on_limit_orders
          (CacheDataLayer.unit_op (λ st, CacheStorageDoubleMap.remove st b i))) s tt
    (set_LimitOrders (delete (b, i) (LimitOrders s)) s).
Proof.
  apply on_limit_orders_runs. intros st c Hc. split; [done|].
  exact (cached_remove (CacheLaws := double_cache_laws any) st c _ (b, i) Hc I).
Qed.

Lemma user_get acc b s :
  runs (CacheDataLayer.on_user_limit_orders (λ st, CacheStorageDoubleMap.get st acc b)) s
    (UserLimitOrders s !! (acc, b)) s.
Proof.
  apply on_user_reads. intros st c Hc.
  exact (cached_get (CacheLaws := double_cache_laws any) st c _ (acc, b) Hc I).
Qed.

Lemma user_get_mut acc b s :
  runs (CacheDataLayer.on_user_limit_orders (λ st, CacheStorageDoubleMap.get_mut st acc b)) s
    (UserLimitOrders s !! (acc, b)) s.
Proof.
  apply on_user_reads. intros st c Hc.
  exact (cached_get_mut (CacheLaws := double_cache_laws any) st c _ (acc, b) Hc I).
Qed.

Lemma user_set acc b l s :
  runs (CacheDataLayer.on_user_limit_orders
          (CacheDataLayer.unit_op (λ _, CacheStorageDoubleMap.set acc b l))) s tt
    (set_UserLimitOrders (<[(acc, b) := l]> (UserLimitOrders s)) s).
Proof.
  apply on_user_runs. intros st c Hc. split; [done|].
  exact (cached_set (CacheLaws := double_cache_laws any) st c _ (acc, b) l Hc I).
Qed.

Lemma user_remove acc b s :
  runs (CacheDataLayer.on_user_limit_orders
          (CacheDataLayer.unit_op (λ st, CacheStorageDoubleMap.remove st acc b))) s tt
    (set_UserLimitOrders (delete (acc, b) (UserLimitOrders s)) s).
Proof.
  apply on_user_runs. intros st c Hc. split; [done|].
  exact (cached_remove (CacheLaws := double_cache_laws any) st c _ (acc, b) Hc I).
Qed.

Lemma level_get sd b p s : price_key p →
  runs (CacheDataLayer.on_orders sd (λ st, CacheStorageDoubleMap.get st b p)) s
    (side_orders sd s !! (b, p)) s.
Proof.
  intros Hp. apply on_orders_reads. intros st c Hc.
  exact (cached_get (CacheLaws := double_cache_laws price_key) st c _ (b, p) Hc Hp).
Qed.

Lemma level_get_mut sd b p s : price_key p →
  runs (CacheDataLayer.on_orders sd (λ st, CacheStorageDoubleMap.get_mut st b p)) s
    (side_orders sd s !! (b, p)) s.
Proof.
  intros Hp. apply on_orders_reads. intros st c Hc.
  exact (cached_get_mut (CacheLaws := double_cache_laws price_key) st c _ (b, p) Hc Hp).
Qed.

Lemma level_write sd b p l s : price_key p →
  runs (CacheDataLayer.on_orders sd
          (CacheDataLayer.unit_op (λ _, CacheStorageDoubleMap.write b p l))) s tt
    (set_side_orders sd (<[(b, p) := l]> (side_orders sd s)) s).
Proof.
  intros Hp. apply on_orders_runs. intros st c Hc. split; [done|].
  exact (cached_write (CacheLaws := double_cache_laws price_key) st c _ (b, p) l Hc Hp).
Qed.

Lemma level_set sd b p l s : price_key p →
  runs (CacheDataLayer.on_orders sd
          (CacheDataLayer.unit_op (λ _, CacheStorageDoubleMap.set b p l))) s tt
    (set_side_orders sd (<[(b, p) := l]> (side_orders sd s)) s).
Proof.
  intros Hp. apply on_orders_runs. intros st c Hc. split; [done|].
  exact (cached_set (CacheLaws := double_cache_laws price_key) st c _ (b, p) l Hc Hp).
Qed.

Lemma level_remove sd b p s : price_key p →
  runs (CacheDataLayer.on_orders sd
          (CacheDataLayer.unit_op (λ st, CacheStorageDoubleMap.remove st b p))) s tt
    (set_side_orders sd (delete (b, p) (side_orders sd s)) s).
Proof.
  intros Hp. apply on_orders_runs. intros st c Hc. split; [done|].
  exact (cached_remove (CacheLaws := double_cache_laws price_key) st c _ (b, p) Hc Hp).
Qed.

Lemma agg_get sd b s :
  runs (CacheDataLayer.on_aggregated sd (λ st, CacheStorageMap.get (st !!.) b)) s
    (side_agg sd s !! b) s.
Proof.
  apply on_agg_reads. intros st c Hc.
  exact (cached_get (CacheLaws := map_cache_laws any) st c _ b Hc I).
Qed.

Lemma agg_get_mut sd b s :
  runs (CacheDataLayer.on_aggregated sd (λ st, CacheStorageMap.get_mut (st !!.) b)) s
    (side_agg sd s !! b) s.
Proof.
  apply on_agg_reads. intros st c Hc.
  exact (cached_get_mut (CacheLaws := map_cache_laws any) st c _ b Hc I).
Qed.

Lemma agg_write sd b m s :
  runs (CacheDataLayer.on_aggregated sd
          (CacheDataLayer.unit_op (λ _, CacheStorageMap.write b m))) s tt
    (set_side_agg sd (<[b := m]> (side_agg sd s)) s).
Proof.
  apply on_agg_runs. intros st c Hc. split; [done|].
  exact (cached_write (CacheLaws := map_cache_laws any) st c _ b m Hc I).
Qed.

Lemma agg_store sd b m s :
  runs (CacheDataLayer.on_aggregated sd
          (CacheDataLayer.unit_op (λ _, CacheStorageMap.set b m))) s tt
    (set_side_agg sd (<[b := m]> (side_agg sd s)) s).
Proof.
  apply on_agg_runs. intros st c Hc. split; [done|].
  exact (cached_set (CacheLaws := map_cache_laws any) st c _ b m Hc I).
Qed.
End ops.

(** ** Composite operations *)

(** The outcome of a computation of the cached layer on [s], as a result of the
    storage layer. *)
Definition does {E A} (c : M CacheDataLayer.t E A) (s : Storage) (r : result E A * Storage) : Prop :=
  match r with
  | (Ok a, s') => runs c s a s'
  | (Err e, _) => fails c s e
  end.

Lemma does_bind {E A B} (c : M CacheDataLayer.t E A) (f : A → M CacheDataLayer.t E B)
    (c' : M Storage E A) (f' : A → M Storage E B) s :
  does c s (c' s) →
  (∀ a s1, c' s = (Ok a, s1) → does (f a) s1 (f' a s1)) →
  does (c ≫= f) s (mbind f' c' s).
Proof.
  intros Hc Hf. destruct (c' s) as [[a|e] s1] eqn:Ec.
  - rewrite (M_bind_run_ok _ _ _ _ _ Ec). specialize (Hf a s1 eq_refl).
    destruct (f' a s1) as [[b|e] s2]; simpl in *; [by eapply runs_bind|by eapply fails_bind].
  - rewrite (M_bind_run_err _ _ _ _ _ Ec). by apply fails_bind_l.
Qed.

(** The first step of the cached layer alone. *)
Lemma does_step {E A B} (c : M CacheDataLayer.t E A) (f : A → M CacheDataLayer.t E B) s a s1 r :
  runs c s a s1 → does (f a) s1 r → does (c ≫= f) s r.
Proof.
  intros Hc. destruct r as [[b|e] s2]; simpl; intros Hf; [by eapply runs_bind|by eapply fails_bind].
Qed.

Lemma does_map_err {E E' A} (c : M CacheDataLayer.t E A) (c' : M Storage E A) (f : E → E') s :
  does c s (c' s) → does (map_err c f) s (map_err c' f s).
Proof.
  unfold map_err at 2. destruct (c' s) as [[a|e] s1]; simpl; [apply runs_map_err|apply fails_map_err].
Qed.

Lemma does_ret {E A} (a : A) s : does (E := E) (mret a) s (Ok a, s).
Proof. apply runs_ret. Qed.

Lemma does_ok_or {E A} (o : option A) (e : E) s : does (ok_or o e) s (ok_or (F := M Storage E) o e s).
Proof. destruct o; [apply runs_ret|apply fails_throw]. Qed.

Lemma does_ensure {E} (b : bool) (e : E) s : does (ensure b e) s (ensure (F := M Storage E) b e s).
Proof. destruct b; [apply runs_ret|apply fails_throw]. Qed.

Section composite.
Context {Cfg : Config} {SK : StorageKeys}.

Lemma try_from_push {A} n (x : A) : CacheDataLayer.try_from n [x] = try_push n [] x.
Proof. unfold CacheDataLayer.try_from, try_push. by destruct n. Qed.

Lemma add_to_orders_does sd b o s : price_key (LimitOrder.price o) →
  does (CacheDataLayer.add_to_orders sd b o) s
    (StorageDataLayer.try_append_side sd b (LimitOrder.price o) (LimitOrder.id o) s).
Proof.
  intros Hp. unfold StorageDataLayer.try_append_side, CacheDataLayer.add_to_orders.
  destruct (side_orders sd s !! (b, LimitOrder.price o)) as [l|] eqn:El; simpl.
  - destruct (try_push _ l _) as [l'|] eqn:Et; simpl.
    + eapply runs_bind; [by apply level_get_mut|]. rewrite El, Et.
      eapply runs_bind; [apply runs_ret|]. by apply level_write.
    + eapply fails_bind; [by apply level_get_mut|]. rewrite El, Et.
      apply fails_bind_l, fails_throw.
  - destruct (try_push _ [] _) as [l'|] eqn:Et; simpl.
    + eapply runs_bind; [by apply level_get_mut|]. rewrite El, try_from_push, Et.
      eapply runs_bind; [apply runs_ret|]. by apply level_set.
    + eapply fails_bind; [by apply level_get_mut|]. rewrite El, try_from_push, Et.
      apply fails_bind_l, fails_throw.
Qed.

Lemma add_to_aggregated_does sd b p v s : BalanceUnit.wf v →
  does (CacheDataLayer.add_to_aggregated sd b p v) s
    (StorageDataLayer.add_to_aggregated sd b p v s).
Proof.
  intros Hv. unfold StorageDataLayer.add_to_aggregated, StorageDataLayer.mutate_side,
    CacheDataLayer.add_to_aggregated.
  destruct (side_agg sd s !! b) as [m|] eqn:Em; simpl.
  - destruct (BalanceUnit.checked_add _ v) as [w|] eqn:Ew; simpl.
    + destruct (try_insert _ p w m) as [m'|] eqn:Et; simpl.
      * eapply runs_bind; [apply agg_get_mut|]. rewrite Em, Ew.
        eapply runs_bind; [apply runs_ret|]. rewrite Et.
        eapply runs_bind; [apply runs_ret|]. apply agg_write.
      * eapply fails_bind; [apply agg_get_mut|]. rewrite Em, Ew.
        eapply fails_bind; [apply runs_ret|]. rewrite Et. apply fails_bind_l, fails_throw.
    + eapply fails_bind; [apply agg_get_mut|]. rewrite Em, Ew. apply fails_bind_l, fails_throw.
  - rewrite BalanceUnit.checked_add_zero_l by done. simpl.
    assert (CacheDataLayer.try_from MaxSidePriceCount [(p, v)] =
            try_insert MaxSidePriceCount p v []) as Et.
    { unfold CacheDataLayer.try_from, try_insert. simpl. by destruct MaxSidePriceCount. }
    destruct (try_insert _ p v []) as [m'|] eqn:Et'; simpl.
    + eapply runs_bind; [apply agg_get_mut|]. rewrite Em, Et.
      eapply runs_bind; [apply runs_ret|]. apply agg_store.
    + eapply fails_bind; [apply agg_get_mut|]. rewrite Em, Et. apply fails_bind_l, fails_throw.
Qed.

Lemma cache_insert_by_side b o :
  CacheDataLayer.insert_limit_order b o =
  (present ← CacheDataLayer.on_limit_orders (λ st c,
     (CacheStorageDoubleMap.contains_key st b (LimitOrder.id o) c, c));
   _ ← ensure (negb present) (OrderBookError LimitOrderAlreadyExists);
   _ ← (_ ← map_err (CacheDataLayer.add_to_orders (LimitOrder.side o) b o)
              (λ _, OrderBookError LimitOrderStorageOverflow);
        map_err (CacheDataLayer.add_to_aggregated (LimitOrder.side o) b (LimitOrder.price o)
          (LimitOrder.amount o)) (λ _, OrderBookError LimitOrderStorageOverflow));
   user_orders ← CacheDataLayer.on_user_limit_orders
                   (λ st, CacheStorageDoubleMap.get st (LimitOrder.owner o) b);
   user_orders ← ok_or (try_push MaxOpenedLimitOrdersPerUser (default [] user_orders)
                          (LimitOrder.id o)) (OrderBookError LimitOrderStorageOverflow);
   _ ← CacheDataLayer.on_user_limit_orders
         (CacheDataLayer.unit_op (λ _, CacheStorageDoubleMap.set (LimitOrder.owner o) b user_orders));
   CacheDataLayer.on_limit_orders
     (CacheDataLayer.unit_op (λ _, CacheStorageDoubleMap.set b (LimitOrder.id o) o))).
Proof. unfold CacheDataLayer.insert_limit_order. by destruct (LimitOrder.side o). Qed.

Lemma insert_does b o s : price_key (LimitOrder.price o) → BalanceUnit.wf (LimitOrder.amount o) →
  does (CacheDataLayer.insert_limit_order b o) s (StorageDataLayer.insert_limit_order b o s).
Proof.
  intros Hp Hv. rewrite cache_insert_by_side, insert_by_side. exec.
  eapply does_step; [apply orders_contains|].
  eapply does_bind; [apply does_ensure|]. intros _ s1 [_ ->]%M_ensure_ok.
  eapply does_bind.
  { eapply does_bind; [by apply does_map_err, add_to_orders_does|]. intros _ s1 _.
    by apply does_map_err, add_to_aggregated_does. }
  intros _ s2 _. eapply does_step; [apply user_get|].
  destruct (try_push _ _ _) as [u|] eqn:Et.
  - erewrite (M_bind_run_ok _ _ _ tt);
      [|apply map_err_run; unfold StorageDataLayer.try_append_user; by rewrite Et].
    eapply does_step; [apply runs_ret|]. eapply does_step; [apply user_set|]. apply orders_set.
  - erewrite M_bind_run_err;
      [|unfold map_err, StorageDataLayer.try_append_user; by rewrite Et].
    apply fails_bind_l, fails_throw.
Qed.

(** *** Deletion *)

Lemma remove_from_orders_runs {E} sd b o l s : price_key (LimitOrder.price o) →
  side_orders sd s !! (b, LimitOrder.price o) = Some l →
  runs (E := E) (CacheDataLayer.remove_from_orders sd b o) s tt
    (set_side_orders sd (partial_alter (λ _, level (retain_ne (LimitOrder.id o) l))
       (b, LimitOrder.price o) (side_orders sd s)) s).
Proof.
  intros Hp Hl. unfold CacheDataLayer.remove_from_orders.
  eapply runs_bind; [by apply level_get_mut|]. rewrite Hl.
  eapply runs_bind; [by apply level_write|].
  destruct (retain_ne _ l) as [|j l'] eqn:E'; [|apply runs_ret].
  pose proof (level_remove (E := E) sd b (LimitOrder.price o)
    (set_side_orders sd (<[(b, LimitOrder.price o) := []]> (side_orders sd s)) s) Hp) as Hr.
  rewrite side_orders_set_eq, delete_insert_eq in Hr. simpl.
  replace (set_side_orders sd _ (set_side_orders sd _ s))
    with (set_side_orders sd (delete (b, LimitOrder.price o) (side_orders sd s)) s) in Hr
    by (by destruct sd).
  done.
Qed.

Lemma sub_from_aggregated_runs sd b p v s cur vol :
  bt_get p (default [] (side_agg sd s !! b)) = Some cur →
  BalanceUnit.checked_sub cur v = Some vol →
  runs (CacheDataLayer.sub_from_aggregated sd b p v) s tt
    (set_side_agg sd (<[b := agg_set p vol (default [] (side_agg sd s !! b))]> (side_agg sd s)) s).
Proof.
  intros Hg Hv. unfold CacheDataLayer.sub_from_aggregated.
  eapply runs_bind; [apply agg_get_mut|].
  destruct (side_agg sd s !! b) as [m|] eqn:Em; simpl in *; [|done]. rewrite Hg. simpl. rewrite Hv.
  eapply runs_bind; [apply runs_ret|]. unfold agg_set.
  destruct (BalanceUnit.is_zero vol).
  - eapply runs_bind; [apply runs_ret|]. apply agg_write.
  - rewrite try_insert_present by (by rewrite Hg).
    eapply runs_bind; [apply runs_ret|]. apply agg_write.
Qed.

Context (divisibility : OrderBookId → bool).

(** The storage after a deletion, in the order of the cached layer's writes. *)
Lemma deleted_eq b o l u s :
  side_orders (LimitOrder.side o) s !! (b, LimitOrder.price o) = Some l →
  UserLimitOrders s !! (LimitOrder.owner o, b) = Some u →
  let s1 := set_side_orders (LimitOrder.side o)
    (partial_alter (λ _, level (retain_ne (LimitOrder.id o) l)) (b, LimitOrder.price o)
       (side_orders (LimitOrder.side o) s)) s in
  let s2 := set_side_agg (LimitOrder.side o)
    (<[b := agg_set (LimitOrder.price o)
              (BalanceUnit.mk (volume_of s b l - BalanceUnit.inner (LimitOrder.amount o))
                 (divisibility b)) (default [] (side_agg (LimitOrder.side o) s !! b))]>
       (side_agg (LimitOrder.side o) s)) s1 in
  let s3 := set_UserLimitOrders (partial_alter (λ _, level (retain_ne (LimitOrder.id o) u))
    (LimitOrder.owner o, b) (UserLimitOrders s)) s2 in
  deleted divisibility b o s = set_LimitOrders (delete (b, LimitOrder.id o) (LimitOrders s)) s3.
Proof.
  intros Hl Hu. simpl. apply storage_ext; unfold deleted; rewrite ?Hl, ?Hu; storage_simpl; try done.
  intros sd. destruct (decide (sd = LimitOrder.side o)) as [->|]; by storage_simpl.
Qed.

Lemma user_retain_runs acc b u i s : UserLimitOrders s !! (acc, b) = Some u →
  runs (E := DispatchError)
    match retain_ne i u with
    | [] => CacheDataLayer.on_user_limit_orders
              (CacheDataLayer.unit_op (λ st, CacheStorageDoubleMap.remove st acc b))
    | user_orders =>
        CacheDataLayer.on_user_limit_orders
          (CacheDataLayer.unit_op (λ _, CacheStorageDoubleMap.set acc b user_orders))
    end s tt
    (set_UserLimitOrders (partial_alter (λ _, level (retain_ne i u)) (acc, b) (UserLimitOrders s)) s).
Proof. intros Hu. destruct (retain_ne i u); [apply user_remove|apply user_set]. Qed.

Lemma delete_does b i s : Inv divisibility s →
  does (CacheDataLayer.delete_limit_order b i) s (StorageDataLayer.delete_limit_order b i s).
Proof.
  intros HI. unfold CacheDataLayer.delete_limit_order.
  destruct (LimitOrders s !! (b, i)) as [o|] eqn:Ho.
  2: { rewrite (proj1 (unknown_order b i s Ho)). eapply does_step; [apply orders_get|].
       rewrite Ho. apply fails_bind_l, fails_throw. }
  destruct (stored divisibility b i o s HI Ho)
    as (<- & Hok & l & u & Hl & Hil & Hu & Hiu & Hg & Hv). pose proof Hok as [].
  rewrite (delete_run divisibility b (LimitOrder.id o) s o) by done. simpl.
  rewrite (deleted_eq b o l u s Hl Hu).
  eapply runs_bind; [apply orders_get|]. rewrite Ho. eapply runs_bind; [apply runs_ret|].
  eapply runs_bind.
  { enough (runs (_ ← CacheDataLayer.remove_from_orders (LimitOrder.side o) b o;
      map_err (CacheDataLayer.sub_from_aggregated (LimitOrder.side o) b (LimitOrder.price o)
                 (LimitOrder.amount o)) (λ _, OrderBookError DeleteLimitOrderError)) s tt _) as H
      by (destruct (LimitOrder.side o); exact H).
    eapply runs_bind; [by apply remove_from_orders_runs|].
    apply runs_map_err. eapply sub_from_aggregated_runs; storage_simpl; [done|].
    apply BalanceUnit.checked_sub_same; try done.
    - split; simpl; [by eapply volume_nonneg|lia].
    - apply BalanceUnit.value_le_same; [done|]. simpl. lia. }
  storage_simpl. eapply runs_bind; [apply user_get|]. storage_simpl. rewrite Hu.
  eapply runs_bind; [by apply user_retain_runs; storage_simpl|]. storage_simpl.
  match goal with |- runs _ ?st _ _ =>
    pose proof (orders_remove (E := DispatchError) b (LimitOrder.id o) st) as Hr end.
  storage_simpl. exact Hr.
Qed.

(** *** Updates and reads *)

Lemma cache_update_by_side b n order :
  match LimitOrder.side order with
  | Buy => map_err (CacheDataLayer.sub_from_aggregated_bids b (LimitOrder.price order) n)
             (λ _, OrderBookError UpdateLimitOrderError)
  | Sell => map_err (CacheDataLayer.sub_from_aggregated_asks b (LimitOrder.price order) n)
             (λ _, OrderBookError UpdateLimitOrderError)
  end =
  map_err (CacheDataLayer.sub_from_aggregated (LimitOrder.side order) b (LimitOrder.price order) n)
    (λ _, OrderBookError UpdateLimitOrderError).
Proof. by destruct (LimitOrder.side order). Qed.

Lemma update_reduces_runs b i o n s : Inv divisibility s → LimitOrders s !! (b, i) = Some o →
  reduces divisibility b n o →
  runs (CacheDataLayer.update_limit_order_amount b i n) s tt (updated divisibility b o n s).
Proof.
  intros HI Ho [Hnd Hn]. unfold CacheDataLayer.update_limit_order_amount.
  destruct (stored divisibility b i o s HI Ho)
    as (<- & Hok & l & u & Hl & Hil & Hu & Hiu & Hg & Hv). pose proof Hok as [].
  assert (BalanceUnit.wf n) by (destruct ok_amount_wf; split; lia).
  eapply runs_bind; [apply orders_get|]. rewrite Ho. eapply runs_bind; [apply runs_ret|].
  rewrite bool_decide_eq_false_2 by (intros ->; lia).
  unfold BalanceUnit.is_zero at 1. rewrite (proj2 (Z.eqb_neq _ _)) by lia.
  rewrite BalanceUnit.gt_value, (proj2 (Z.ltb_lt _ _)).
  2: { apply Z.nle_gt. rewrite BalanceUnit.value_le_same by congruence. lia. }
  eapply runs_bind; [apply runs_ret|].
  rewrite BalanceUnit.checked_sub_same; [|done|done|congruence|].
  2: { rewrite BalanceUnit.value_le_same by congruence. lia. }
  eapply runs_bind; [apply runs_ret|]. rewrite cache_update_by_side.
  eapply runs_bind.
  { apply runs_map_err. eapply sub_from_aggregated_runs; [done|].
    destruct ok_amount_wf. apply BalanceUnit.checked_sub_same; [| |done|].
    + split; simpl; [by eapply volume_nonneg|lia].
    + split; simpl; lia.
    + apply BalanceUnit.value_le_same; simpl; [done|lia]. }
  match goal with |- runs _ ?st _ _ =>
    pose proof (orders_set (E := DispatchError) b (LimitOrder.id o) (LimitOrder.set_amount o n) st)
      as Hr end.
  unfold updated. rewrite Hl. storage_simpl. exact Hr.
Qed.

Lemma update_does b i n s : Inv divisibility s → BalanceUnit.is_divisible n = divisibility b →
  0 ≤ BalanceUnit.inner n →
  does (CacheDataLayer.update_limit_order_amount b i n) s
    (StorageDataLayer.update_limit_order_amount b i n s).
Proof.
  intros HI Hd Hn. destruct (LimitOrders s !! (b, i)) as [o|] eqn:Ho.
  2: { rewrite (proj2 (unknown_order b i s Ho)). eapply does_step; [apply orders_get|].
       rewrite Ho. apply fails_bind_l, fails_throw. }
  pose proof (inv_order _ _ HI _ _ _ Ho) as [Hi Hok]. pose proof Hok as [].
  destruct (decide (n = LimitOrder.amount o)) as [->|Hne].
  { rewrite (update_same b i o s Ho). eapply does_step; [apply orders_get|]. rewrite Ho.
    eapply does_step; [apply runs_ret|]. rewrite bool_decide_eq_true_2 by done. apply runs_ret. }
  assert (BalanceUnit.inner n ≠ BalanceUnit.inner (LimitOrder.amount o)) as Hne'.
  { intros E. apply Hne. rewrite (unit_eta n _ Hd), E. symmetry. by apply unit_eta. }
  destruct (decide (BalanceUnit.inner n = 0)) as [Hz|Hz].
  { rewrite (update_zero divisibility b i o n s) by done.
    eapply does_step; [apply orders_get|]. rewrite Ho. eapply does_step; [apply runs_ret|].
    rewrite bool_decide_eq_false_2 by done. unfold BalanceUnit.is_zero. rewrite Hz.
    by apply delete_does. }
  destruct (decide (BalanceUnit.inner n < BalanceUnit.inner (LimitOrder.amount o))).
  { assert (reduces divisibility b n o) by (split; [done|lia]).
    rewrite (update_run divisibility b i s o n) by done. by apply update_reduces_runs. }
  rewrite (update_more divisibility b i o n s) by (done || lia).
  eapply does_step; [apply orders_get|]. rewrite Ho. eapply does_step; [apply runs_ret|].
  rewrite bool_decide_eq_false_2 by done.
  unfold BalanceUnit.is_zero. rewrite (proj2 (Z.eqb_neq _ _)) by lia.
  rewrite BalanceUnit.gt_value, (proj2 (Z.ltb_ge _ _)); [apply fails_bind_l, fails_throw|].
  rewrite BalanceUnit.value_le_same by congruence. lia.
Qed.

(** A read of the aggregated side, mapped. *)
Lemma agg_read {A} (f : option MarketSide → A) sd b s :
  runs (E := DispatchError) (side ← CacheDataLayer.get_agg sd b; mret (f side)) s
    (f (side_agg sd s !! b)) s.
Proof. eapply runs_bind; [apply agg_get|apply runs_ret]. Qed.

Lemma level_read {A} (f : option (list OrderId) → A) sd b p s : price_key p →
  runs (E := DispatchError)
    (orders ← CacheDataLayer.on_orders sd (λ st, CacheStorageDoubleMap.get st b p); mret (f orders)) s
    (f (side_orders sd s !! (b, p))) s.
Proof. intros. eapply runs_bind; [by apply level_get|apply runs_ret]. Qed.

Lemma iter_max_default o :
  o ≫= iter_max = iter_max (default [] o : list (OrderPrice * OrderVolume)).
Proof. by destruct o. Qed.

Lemma iter_min_default o :
  o ≫= iter_min = iter_min (default [] o : list (OrderPrice * OrderVolume)).
Proof. by destruct o. Qed.

(** Reading a prefix gives the entries in key order. *)
Lemma get_by_prefix_map `{LawfulOrd K1, LawfulOrd K2, Countable K1, Countable K2} {V}
    (st a : gmap (K1 * K2) V) c k1 : cached (CacheLaws := double_cache_laws any) st c a →
  fst (CacheStorageDoubleMap.get_by_prefix st k1 c) = prefix_map a k1 ∧
  cached (CacheLaws := double_cache_laws any) st
    (snd (CacheStorageDoubleMap.get_by_prefix st k1 c)) a.
Proof.
  intros Hc. pose proof (get_by_prefix_spec st c a k1 Hc) as Hp.
  destruct (CacheStorageDoubleMap.get_by_prefix st k1 c) as [l c']. destruct Hp as (Hwf & Hg & Hc').
  split; [|done]. apply bt_ext; [done|apply prefix_map_wf|]. intros k. by rewrite Hg, prefix_map_get.
Qed.

Lemma all_orders_runs b s :
  runs (CacheDataLayer.get_all_limit_orders b) s (bt_values (prefix_map (LimitOrders s) b)) s.
Proof.
  eapply runs_bind; [|apply runs_ret]. apply on_limit_orders_reads. intros st c Hc.
  by apply get_by_prefix_map.
Qed.

Lemma all_user_orders_runs acc s :
  runs (CacheDataLayer.get_all_user_limit_orders acc) s (prefix_map (UserLimitOrders s) acc) s.
Proof. apply on_user_reads. intros st c Hc. by apply get_by_prefix_map. Qed.
End composite.
