(* ===== verification/LayerSpec.v ===== *)
(** * What a data layer promises

    [refines] compares a computation on a data layer with one on the plain
    storage.  [LayerRefines] is the interface the order book relies on: every
    operation of the layer refines the operation of [StorageDataLayer] while the
    storage is consistent.  The cached layer and the storage layer implement it,
    and any sequence of operations inherits the refinement. *)

From S2P Require Import Prelude BTreeMap FixedPoint Units OrderTypes DataLayer StorageProps.
From S2P Require Import CacheStorage CacheProps CacheLayer CacheRefine.

(** ** Simulation *)

(** [rel] relates the states before and after a success, [rerr] those after a
    failure: nothing has to hold of them when the caller rolls them back. *)
Class ErrRel {S S'} (rel rerr : S → S' → Prop) : Prop := err_rel s s' : rel s s' → rerr s s'.

Definition unrelated {S S'} (s : S) (s' : S') : Prop := True.

#[export] Instance err_unrelated {S S'} (rel : S → S' → Prop) : ErrRel rel unrelated.
Proof. done. Qed.
#[export] Instance err_same {S S'} (rel : S → S' → Prop) : ErrRel rel rel | 5.
Proof. by intros s s' Hs. Qed.

(** Two computations from related states fail with the same error, or both
    succeed with related results in related states. *)
Section sim.
Context {S S' E : Type} (rel rerr : S → S' → Prop).

Definition sim_run {A B} (Q : A → B → Prop) (x : result E A * S) (y : result E B * S') : Prop :=
  match x, y with
  | (Ok a, t), (Ok b, t') => Q a b ∧ rel t t'
  | (Err e, t), (Err e', t') => e = e' ∧ rerr t t'
  | _, _ => False
  end.

Definition sim {A B} (Q : A → B → Prop) (c : M S E A) (c' : M S' E B) : Prop :=
  ∀ s s', rel s s' → sim_run Q (c s) (c' s').

(** Sequencing from given states: the continuation may use how the reference
    computation ran. *)
Lemma sim_run_bind {A B A' B'} (Q : A → B → Prop) (Q' : A' → B' → Prop) c c'
    (f : A → M S E A') (f' : B → M S' E B') s s' :
  sim_run Q (c s) (c' s') →
  (∀ a b t t', Q a b → rel t t' → c' s' = (Ok b, t') → sim_run Q' (f a t) (f' b t')) →
  sim_run Q' ((c ≫= f) s) ((c' ≫= f') s').
Proof.
  intros Hc Hf. unfold mbind, M_bind, sim_run in *.
  destruct (c s) as [[a|e] t], (c' s') as [[b|e'] t']; try done.
  destruct Hc as [HQ Ht]. by apply Hf.
Qed.

Lemma sim_ret {A B} (Q : A → B → Prop) a b : Q a b → sim Q (mret a) (mret b).
Proof. by intros HQ s s' Hs. Qed.

Lemma sim_bind {A B A' B'} (Q : A → B → Prop) (Q' : A' → B' → Prop) c c'
    (f : A → M S E A') (f' : B → M S' E B') :
  sim Q c c' → (∀ a b, Q a b → sim Q' (f a) (f' b)) → sim Q' (c ≫= f) (c' ≫= f').
Proof.
  intros Hc Hf s s' Hs. apply (sim_run_bind Q); [by apply Hc|]. intros a b t t' HQ Ht _. by apply Hf.
Qed.

Lemma sim_get_state {A B} (Q : A → B → Prop) (f : S → M S E A) (f' : S' → M S' E B) :
  (∀ s s', rel s s' → sim Q (f s) (f' s')) → sim Q (get_state ≫= f) (get_state ≫= f').
Proof. intros Hf s s' Hs. exec. by apply Hf. Qed.

Lemma sim_modify (f : S → S) (f' : S' → S') :
  (∀ s s', rel s s' → rel (f s) (f' s')) → sim eq (modify f) (modify f').
Proof. intros Hf s s' Hs. split; [done|]. by apply Hf. Qed.

Lemma sim_for_each {X} (P : X → Prop) (xs : list X) (f : X → M S E unit) (f' : X → M S' E unit) :
  (∀ x, P x → sim eq (f x) (f' x)) → Forall P xs → sim eq (for_each xs f) (for_each xs f').
Proof.
  intros Hf. induction 1 as [|x xs Hx _ IH]; simpl; [by apply sim_ret|].
  eapply sim_bind; [by apply Hf|]. by intros _ _ _.
Qed.

Lemma sim_mono {A B} (Q Q' : A → B → Prop) c c' : (∀ a b, Q a b → Q' a b) → sim Q c c' → sim Q' c c'.
Proof.
  intros HQ Hc s s' Hs. specialize (Hc s s' Hs). unfold sim_run in *.
  destruct (c s) as [[a|e] t], (c' s') as [[b|e'] t']; naive_solver.
Qed.

Context {HE : ErrRel rel rerr}.

Lemma sim_throw {A B} (Q : A → B → Prop) (e : E) : sim Q (mthrow e) (mthrow e).
Proof. intros s s' Hs. split; [done|]. by apply err_rel. Qed.

Lemma sim_ensure b (e : E) : sim eq (ensure b e) (ensure b e).
Proof. destruct b; [by apply sim_ret|apply sim_throw]. Qed.

Lemma sim_ok_or {A} (o : option A) (e : E) : sim eq (ok_or o e) (ok_or o e).
Proof. destruct o; [by apply sim_ret|apply sim_throw]. Qed.

Lemma sim_lift {A} (r : result E A) : sim eq (lift r) (lift r).
Proof. destruct r; [by apply sim_ret|apply sim_throw]. Qed.
End sim.

(** Failures that need not be related. *)
Lemma sim_weaken {S S' E A B} (rel rerr : S → S' → Prop) (Q : A → B → Prop)
    (c : M S E A) (c' : M S' E B) : sim rel rerr Q c c' → sim rel unrelated Q c c'.
Proof.
  intros Hc s s' Hs. specialize (Hc s s' Hs). unfold sim_run in *.
  destruct (c s) as [[a|e] t], (c' s') as [[b|e'] t']; naive_solver.
Qed.

(** A computation on a data layer refines one on the storage it stands for, as
    long as the storage is consistent. *)
Definition stands {Cfg : Config} {D} (divisibility : OrderBookId → bool) (rel : D → Storage → Prop)
    (d : D) (s : Storage) : Prop := rel d s ∧ Inv divisibility s.

Abbreviation refines divisibility rel :=
  (sim (E := DispatchError) (stands divisibility rel) unrelated).

(** ** The interface *)

Class LayerRefines {Cfg : Config} {SK : StorageKeys} (divisibility : OrderBookId → bool)
    (D : Type) `{DataLayer D} := {
  lrel : D → Storage → Prop;
  lr_get_limit_order b i :
    refines divisibility lrel eq (get_limit_order b i) (StorageDataLayer.get_limit_order b i);
  lr_get_all_limit_orders b :
    refines divisibility lrel Permutation (get_all_limit_orders b)
      (StorageDataLayer.get_all_limit_orders b);
  lr_insert_limit_order b o : order_ok divisibility b o →
    refines divisibility lrel eq (insert_limit_order b o) (StorageDataLayer.insert_limit_order b o);
  lr_update_limit_order_amount b i n : BalanceUnit.is_divisible n = divisibility b →
    0 ≤ BalanceUnit.inner n →
    refines divisibility lrel eq (update_limit_order_amount b i n)
      (StorageDataLayer.update_limit_order_amount b i n);
  lr_delete_limit_order b i :
    refines divisibility lrel eq (delete_limit_order b i) (StorageDataLayer.delete_limit_order b i);
  lr_get_bids b p : price_key p →
    refines divisibility lrel eq (get_bids b p) (StorageDataLayer.get_bids b p);
  lr_is_bid_price_full b p : price_key p →
    refines divisibility lrel eq (is_bid_price_full b p) (StorageDataLayer.is_bid_price_full b p);
  lr_get_asks b p : price_key p →
    refines divisibility lrel eq (get_asks b p) (StorageDataLayer.get_asks b p);
  lr_is_ask_price_full b p : price_key p →
    refines divisibility lrel eq (is_ask_price_full b p) (StorageDataLayer.is_ask_price_full b p);
  lr_get_aggregated_bids b :
    refines divisibility lrel eq (get_aggregated_bids b) (StorageDataLayer.get_aggregated_bids b);
  lr_get_aggregated_bids_len b :
    refines divisibility lrel eq (get_aggregated_bids_len b)
      (StorageDataLayer.get_aggregated_bids_len b);
  lr_best_bid b : refines divisibility lrel eq (best_bid b) (StorageDataLayer.best_bid b);
  lr_get_aggregated_asks b :
    refines divisibility lrel eq (get_aggregated_asks b) (StorageDataLayer.get_aggregated_asks b);
  lr_get_aggregated_asks_len b :
    refines divisibility lrel eq (get_aggregated_asks_len b)
      (StorageDataLayer.get_aggregated_asks_len b);
  lr_best_ask b : refines divisibility lrel eq (best_ask b) (StorageDataLayer.best_ask b);
  lr_get_user_limit_orders a b :
    refines divisibility lrel eq (get_user_limit_orders a b)
      (StorageDataLayer.get_user_limit_orders a b);
  lr_is_user_limit_orders_full a b :
    refines divisibility lrel eq (is_user_limit_orders_full a b)
      (StorageDataLayer.is_user_limit_orders_full a b);
  lr_get_all_user_limit_orders a :
    refines divisibility lrel eq (get_all_user_limit_orders a)
      (StorageDataLayer.get_all_user_limit_orders a)
}.

Section instances.
Context {Cfg : Config} {SK : StorageKeys} (divisibility : OrderBookId → bool).

Lemma get_refines_self b i :
  refines divisibility eq eq (StorageDataLayer.get_limit_order b i)
    (StorageDataLayer.get_limit_order b i).
Proof.
  intros d s [-> HI]. unfold StorageDataLayer.get_limit_order. exec. by destruct (LimitOrders s !! _).
Qed.

Lemma insert_refines_self b o : order_ok divisibility b o →
  refines divisibility eq eq (StorageDataLayer.insert_limit_order b o)
    (StorageDataLayer.insert_limit_order b o).
Proof.
  intros Ho d s [-> HI]. destruct (StorageDataLayer.insert_limit_order b o s) as [[[]|e] s'] eqn:E; [|done].
  split; [done|]. split; [done|]. by eapply insert_Inv.
Qed.

Lemma delete_refines_self b i :
  refines divisibility eq eq (StorageDataLayer.delete_limit_order b i)
    (StorageDataLayer.delete_limit_order b i).
Proof.
  intros d s [-> HI]. destruct (LimitOrders s !! (b, i)) as [o|] eqn:Ho.
  - rewrite (delete_run divisibility b i s o HI Ho). split; [done|]. split; [done|].
    by eapply delete_Inv.
  - by rewrite (proj1 (unknown_order b i s Ho)).
Qed.

Lemma update_refines_self b i n : BalanceUnit.is_divisible n = divisibility b →
  0 ≤ BalanceUnit.inner n →
  refines divisibility eq eq (StorageDataLayer.update_limit_order_amount b i n)
    (StorageDataLayer.update_limit_order_amount b i n).
Proof.
  intros Hd Hn d s [-> HI]. destruct (LimitOrders s !! (b, i)) as [o|] eqn:Ho.
  2: { by rewrite (proj2 (unknown_order b i s Ho)). }
  pose proof (inv_order _ _ HI _ _ _ Ho) as [Hi Hok].
  destruct (Z.lt_ge_cases (BalanceUnit.inner (LimitOrder.amount o)) (BalanceUnit.inner n)).
  { by rewrite (update_more divisibility b i o n s). }
  destruct (decide (BalanceUnit.inner n = 0)) as [Hz|Hz].
  { rewrite (update_zero divisibility b i o n s HI Ho Hz). by apply delete_refines_self. }
  destruct (decide (n = LimitOrder.amount o)) as [->|Hne].
  { by rewrite (update_same b i o s Ho). }
  assert (BalanceUnit.inner n ≠ BalanceUnit.inner (LimitOrder.amount o)).
  { intros E. apply Hne. rewrite (unit_eta n _ Hd), E. symmetry. apply unit_eta, Hok. }
  assert (reduces divisibility b n o) by (split; [done|lia]).
  rewrite (update_run divisibility b i s o n) by done.
  split; [done|]. split; [done|]. by eapply update_Inv.
Qed.

(** The storage layer refines itself. *)
#[export] Instance storage_layer_refines : LayerRefines divisibility Storage.
Proof.
  refine {| lrel := eq |}; intros.
  all: try (by intros d s [-> HI]).
  - apply get_refines_self.
  - by apply insert_refines_self.
  - by apply update_refines_self.
  - by apply delete_refines_self.
Defined.

(** The cached layer. *)
Lemma does_refines {A} (c : M CacheDataLayer.t DispatchError A) (c' : M Storage DispatchError A) :
  refines divisibility eq eq c' c' →
  (∀ s, Inv divisibility s → does c s (c' s)) → refines divisibility related eq c c'.
Proof.
  intros Hc' Hc d s [Hd HI]. specialize (Hc s HI). specialize (Hc' s s (conj eq_refl HI)).
  destruct (c' s) as [[a|e] s'].
  - destruct (Hc d Hd) as (d' & -> & Hd'). destruct Hc' as (_ & _ & HI'). by split.
  - destruct (Hc d Hd) as (d' & ->). done.
Qed.

Lemma runs_refines {A B} (Q : A → B → Prop) (c : M CacheDataLayer.t DispatchError A)
    (f : Storage → A) (g : Storage → B) :
  (∀ s, runs c s (f s) s) → (∀ s, Q (f s) (g s)) →
  refines divisibility related Q c (StorageDataLayer.reads g).
Proof.
  intros Hc HQ d s [Hd HI]. destruct (Hc s d Hd) as (d' & -> & Hd'). by split.
Qed.

#[export] Instance cache_layer_refines : LayerRefines divisibility CacheDataLayer.t.
Proof.
  refine {| lrel := related |}; intros; simpl.
  - apply does_refines; [apply get_refines_self|]. intros s _.
    eapply does_step; [apply orders_get|].
    unfold StorageDataLayer.get_limit_order. exec. apply does_ok_or.
  - eapply runs_refines; [apply all_orders_runs|]. intros s. unfold bt_values.
    by rewrite prefix_map_Permutation.
  - apply does_refines; [by apply insert_refines_self|]. intros s _. destruct H as [].
    by apply insert_does.
  - apply does_refines; [by apply update_refines_self|]. intros s HI. by eapply update_does.
  - apply does_refines; [by apply delete_refines_self|]. intros s HI. by eapply delete_does.
  - eapply runs_refines; [intros; by apply (level_get Buy)|done].
  - eapply runs_refines; [intros; by apply (level_read (fmap (is_full _)) Buy)|done].
  - eapply runs_refines; [intros; by apply (level_get Sell)|done].
  - eapply runs_refines; [intros; by apply (level_read (fmap (is_full _)) Sell)|done].
  - eapply runs_refines; [intros; by apply (agg_read (default []) Buy)|done].
  - eapply runs_refines; [intros; by apply (agg_read (fmap length) Buy)|done].
  - eapply runs_refines; [intros; by apply (agg_read (λ side, side ≫= iter_max) Buy)|].
    intros s. apply iter_max_default.
  - eapply runs_refines; [intros; by apply (agg_read (default []) Sell)|done].
  - eapply runs_refines; [intros; by apply (agg_read (fmap length) Sell)|done].
  - eapply runs_refines; [intros; by apply (agg_read (λ side, side ≫= iter_min) Sell)|].
    intros s. apply iter_min_default.
  - eapply runs_refines; [intros; apply user_get|done].
  - eapply runs_refines; [intros; eapply runs_bind; [apply user_get_mut|apply runs_ret]|done].
  - eapply runs_refines; [apply all_user_orders_runs|done].
Defined.
End instances.

(** ** Sequences of operations *)

Inductive dl_op :=
| DGetLimitOrder (b : OrderBookId) (i : OrderId)
| DGetAllLimitOrders (b : OrderBookId)
| DInsertLimitOrder (b : OrderBookId) (o : LimitOrder.t)
| DUpdateLimitOrderAmount (b : OrderBookId) (i : OrderId) (n : OrderVolume)
| DDeleteLimitOrder (b : OrderBookId) (i : OrderId)
| DGetLimitOrdersByPrice (b : OrderBookId) (sd : PriceVariant) (p : OrderPrice)
| DIsPriceFull (b : OrderBookId) (sd : PriceVariant) (p : OrderPrice)
| DGetAggregated (b : OrderBookId) (sd : PriceVariant)
| DGetAggregatedLen (b : OrderBookId) (sd : PriceVariant)
| DBest (b : OrderBookId) (sd : PriceVariant)
| DGetUserLimitOrders (a : AccountId) (b : OrderBookId)
| DIsUserLimitOrdersFull (a : AccountId) (b : OrderBookId)
| DGetAllUserLimitOrders (a : AccountId).

Inductive dl_out :=
| OutDone
| OutOrder (o : LimitOrder.t)
| OutOrders (l : list LimitOrder.t)
| OutIds (l : option (list OrderId))
| OutFull (b : option bool)
| OutSide (m : MarketSide)
| OutLen (n : option nat)
| OutBest (p : option (OrderPrice * OrderVolume))
| OutUser (m : BTreeMap OrderBookId (list OrderId)).

(** Equal answers; the orders of a book come in any order. *)
Definition same_out (x y : dl_out) : Prop :=
  match x, y with OutOrders l, OutOrders l' => l ≡ₚ l' | _, _ => x = y end.

Section trace.
Context {D : Type} `{DataLayer D}.

Definition dl_step (op : dl_op) : M D DispatchError dl_out :=
  match op with
  | DGetLimitOrder b i => o ← get_limit_order b i; mret (OutOrder o)
  | DGetAllLimitOrders b => l ← get_all_limit_orders b; mret (OutOrders l)
  | DInsertLimitOrder b o => _ ← insert_limit_order b o; mret OutDone
  | DUpdateLimitOrderAmount b i n => _ ← update_limit_order_amount b i n; mret OutDone
  | DDeleteLimitOrder b i => _ ← delete_limit_order b i; mret OutDone
  | DGetLimitOrdersByPrice b sd p => l ← get_limit_orders_by_price b sd p; mret (OutIds l)
  | DIsPriceFull b Buy p => r ← is_bid_price_full b p; mret (OutFull r)
  | DIsPriceFull b Sell p => r ← is_ask_price_full b p; mret (OutFull r)
  | DGetAggregated b Buy => m ← get_aggregated_bids b; mret (OutSide m)
  | DGetAggregated b Sell => m ← get_aggregated_asks b; mret (OutSide m)
  | DGetAggregatedLen b Buy => n ← get_aggregated_bids_len b; mret (OutLen n)
  | DGetAggregatedLen b Sell => n ← get_aggregated_asks_len b; mret (OutLen n)
  | DBest b Buy => p ← best_bid b; mret (OutBest p)
  | DBest b Sell => p ← best_ask b; mret (OutBest p)
  | DGetUserLimitOrders a b => l ← get_user_limit_orders a b; mret (OutIds l)
  | DIsUserLimitOrdersFull a b => r ← is_user_limit_orders_full a b; mret (OutFull r)
  | DGetAllUserLimitOrders a => m ← get_all_user_limit_orders a; mret (OutUser m)
  end.

(** Runs operations until one fails. *)
Fixpoint dl_run (ops : list dl_op) : M D DispatchError (list dl_out) :=
  match ops with
  | [] => mret []
  | op :: ops => o ← dl_step op; os ← dl_run ops; mret (o :: os)
  end.
End trace.

Section trace_refines.
Context {Cfg : Config} {SK : StorageKeys} (divisibility : OrderBookId → bool).

(** The arguments the order book passes: valid orders, amounts in the precision
    of the book, divisible prices. *)
Definition dl_op_ok (op : dl_op) : Prop :=
  match op with
  | DInsertLimitOrder b o => order_ok divisibility b o
  | DUpdateLimitOrderAmount b i n =>
      BalanceUnit.is_divisible n = divisibility b ∧ 0 ≤ BalanceUnit.inner n
  | DGetLimitOrdersByPrice b sd p | DIsPriceFull b sd p => price_key p
  | _ => True
  end.

Context {D : Type} `{LayerRefines divisibility D}.

Lemma dl_step_refines op : dl_op_ok op →
  refines divisibility lrel same_out (dl_step op) (dl_step (D := Storage) op).
Proof.
  intros Hop. destruct op; try destruct sd; simpl in *.
  all: eapply sim_bind; [|intros x y Hxy; apply sim_ret].
  all: first
    [ apply lr_get_limit_order | apply lr_get_all_limit_orders | by apply lr_insert_limit_order
    | apply lr_update_limit_order_amount; apply Hop | apply lr_delete_limit_order | by apply lr_get_bids
    | by apply lr_get_asks | by apply lr_is_bid_price_full | by apply lr_is_ask_price_full
    | apply lr_get_aggregated_bids | apply lr_get_aggregated_asks | apply lr_get_aggregated_bids_len
    | apply lr_get_aggregated_asks_len | apply lr_best_bid | apply lr_best_ask
    | apply lr_get_user_limit_orders | apply lr_is_user_limit_orders_full
    | apply lr_get_all_user_limit_orders | simpl; congruence | done ].
Qed.

Lemma dl_run_refines ops : Forall dl_op_ok ops →
  refines divisibility lrel (Forall2 same_out) (dl_run ops) (dl_run (D := Storage) ops).
Proof.
  induction 1 as [|op ops Hop Hops IH]; simpl; [by apply sim_ret|].
  eapply sim_bind; [by apply dl_step_refines|]. intros o o' Ho.
  eapply sim_bind; [exact IH|]. intros os os' Hos. apply sim_ret. by constructor.
Qed.
End trace_refines.

(** The cached data layer implements the storage data layer: from a consistent
    storage, a sequence of data layer operations through a fresh cache fails with
    the same error or gives the same answers as directly on storage, and
    committing the cache then writes exactly the storage of the direct run, which
    is consistent again. *)
Theorem cached_layer_refines_storage {Cfg : Config} {SK : StorageKeys}
    (divisibility : OrderBookId → bool) (s : Storage) (ops : list dl_op) :
  Inv divisibility s → Forall (dl_op_ok divisibility) ops →
  match dl_run ops (CacheDataLayer.new s), dl_run ops s with
  | (Ok outs, d'), (Ok outs', s') =>
      Forall2 same_out outs outs' ∧ CacheDataLayer.storage (CacheDataLayer.commit d') = s' ∧
      Inv divisibility s'
  | (Err e, _), (Err e', _) => e = e'
  | _, _ => False
  end.
Proof.
  intros HI Hops.
  pose proof (dl_run_refines divisibility (D := CacheDataLayer.t) ops Hops (CacheDataLayer.new s) s
    (conj (related_new s) HI)) as Hr.
  destruct (dl_run ops (CacheDataLayer.new s)) as [[outs|e] d'], (dl_run ops s) as [[outs'|e'] s'];
    try done; [|apply Hr].
  destruct Hr as (Ho & Hd & HI'). split; [done|]. split; [by apply related_commit|done].
Qed.

(** ** Example *)

#[local] Existing Instance RuntimeConfig.
#[local] Existing Instance Samples.plain_keys.

Definition sample_ops : list dl_op :=
  [DDeleteLimitOrder Samples.book 1; DInsertLimitOrder Samples.book (Samples.order 1 7%N Buy 10 5);
   DBest Samples.book Buy].

Lemma cached_layer_refines_storage_witness :
  let d := snd (dl_run sample_ops (CacheDataLayer.new Samples.one_order)) in
  CacheDataLayer.storage (CacheDataLayer.commit d) = snd (dl_run sample_ops Samples.one_order).
Proof.
  assert (Forall (dl_op_ok Samples.divisibility) sample_ops) as Hops.
  { repeat constructor; apply Samples.order_sample_ok. }
  pose proof (cached_layer_refines_storage Samples.divisibility Samples.one_order sample_ops
    Samples.one_order_Inv Hops) as H.
  assert (∃ os s', dl_run sample_ops Samples.one_order = (Ok os, s')) as (os & s' & E).
  { eexists _, _. vm_compute. reflexivity. }
  rewrite E in H |- *. destruct (dl_run sample_ops (CacheDataLayer.new Samples.one_order)) as [[] d].
  - apply H.
  - destruct H.
Defined.
