(* ===== verification/World.v ===== *)
(** * The state an order book works on

    [World] is what the functions of [order_book.rs] reach through their
    configuration: the data layer, the balances ([T::Locker] and [T::Unlocker],
    which move funds through the technical pallet and the assets pallet), the
    expiration agenda ([T::Scheduler]) and the events ([T::Delegate]).

    The currencies behind the assets pallet, the asset regulator and the hash
    that derives the account of an order book are not part of this repository's
    order book: they are the parameters [MultiCurrency] and [TechAccounts]. *)

From S2P Require Import Prelude BTreeMap FixedPoint Units OrderTypes DataLayer.

(** ** Currencies *)

(** [T::Currency], [T::AssetRegulator] and the asset registry of the assets
    pallet, over a state [L]. *)
Class MultiCurrency (L : Type) := {
  free_balance : L → AssetId → AccountId → Balance;
  currency_transfer : AssetId → AccountId → AccountId → Balance → M L DispatchError unit;
  check_permission : L → AccountId → AccountId → AssetId → result DispatchError unit;
  asset_exists : L → AssetId → bool
}.

(** The balance moved by a transfer. *)
Definition moved (asset : AssetId) (account : AccountId) (amount : Balance) (a : AssetId)
    (x : AccountId) : Z :=
  if bool_decide (a = asset ∧ x = account) then amount else 0.

Lemma moved_add asset who u v c z : moved asset who (u + v) c z = moved asset who u c z + moved asset who v c z.
Proof. unfold moved. case_bool_decide; lia. Qed.
Lemma moved_sub asset who u v c z : moved asset who (u - v) c z = moved asset who u c z - moved asset who v c z.
Proof. unfold moved. case_bool_decide; lia. Qed.
Lemma moved_eq asset who amount : moved asset who amount asset who = amount.
Proof. unfold moved. by rewrite bool_decide_eq_true_2. Qed.
Lemma moved_asset asset who amount c z : c ≠ asset → moved asset who amount c z = 0.
Proof. intros Hn. unfold moved. by rewrite bool_decide_eq_false_2 by naive_solver. Qed.
Lemma moved_who asset who amount c z : z ≠ who → moved asset who amount c z = 0.
Proof. intros Hn. unfold moved. by rewrite bool_decide_eq_false_2 by naive_solver. Qed.
Lemma moved_zero asset who c z : moved asset who 0 c z = 0.
Proof. unfold moved. by case_bool_decide. Qed.

(** A successful transfer moves exactly the amount (the runtime has no
    existential deposits, so no dust is lost) and never overdraws; a failed one
    moves nothing. *)
Class MultiCurrencyLaws (L : Type) `{MultiCurrency L} : Prop := {
  transfer_spec asset from to amount l l' :
    currency_transfer asset from to amount l = (Ok tt, l') →
    amount ≤ free_balance l asset from ∧
    ∀ a x, free_balance l' a x =
           free_balance l a x - moved asset from amount a x + moved asset to amount a x;
  transfer_error asset from to amount l e l' :
    currency_transfer asset from to amount l = (Err e, l') →
    ∀ a x, free_balance l' a x = free_balance l a x
}.

(** [technical::tech_account_id_to_account_id] of the account of an order book. *)
Class TechAccounts := {
  tech_account : OrderBookId → AccountId
}.

Definition AssetIdNotExists : DispatchError := ExternalError 1.

(** The transfer of the assets pallet, its error replaced for unknown assets. *)
Definition checked_transfer {L} `{MultiCurrency L} (asset : AssetId) (from to : AccountId)
    (amount : Balance) : M L DispatchError unit := λ l,
  match currency_transfer asset from to amount l with
  | (Ok _, l') => (Ok tt, l')
  | (Err e, l') => if asset_exists l' asset then (Err e, l') else (Err AssetIdNotExists, l')
  end.

(** [assets::Pallet::transfer_from] (its event is not modelled). *)
Definition transfer_from {L} `{MultiCurrency L} (asset : AssetId) (from to : AccountId)
    (amount : Balance) : M L DispatchError unit :=
  l ← get_state;
  _ ← lift (check_permission l from to asset);
  checked_transfer asset from to amount.

(** ** Events *)

Inductive Event :=
| OrderBookCreated (order_book_id : OrderBookId) (creator : option AccountId)
| OrderBookDeleted (order_book_id : OrderBookId)
| OrderBookStatusChanged (order_book_id : OrderBookId) (new_status : OrderBookStatus)
| OrderBookUpdated (order_book_id : OrderBookId)
| FromOrderBook (order_book_id : OrderBookId) (event : OrderBookEvent)
| ExpirationFailure (order_book_id : OrderBookId) (order_id : OrderId) (error : DispatchError)
| AlignmentFailure (order_book_id : OrderBookId) (error : DispatchError).

(** ** The world *)

Abbreviation Agenda := (gmap BlockNumber (list (OrderBookId * OrderId))) (only parsing).

Record World (D L : Type) := mkWorld {
  data : D;
  ledger : L;
  (** [technical::TechAccounts], restricted to order books. *)
  registered : gmap AccountId OrderBookId;
  (** [ExpirationsAgenda]. *)
  agenda : Agenda;
  events : list Event
}.
Arguments mkWorld {D L} data ledger registered agenda events.
Arguments data {D L} w.
Arguments ledger {D L} w.
Arguments registered {D L} w.
Arguments agenda {D L} w.
Arguments events {D L} w.

Section world.
Context {D L : Type}.
Implicit Types (w : World D L).

Definition set_data (d : D) (w : World D L) : World D L :=
  mkWorld d (ledger w) (registered w) (agenda w) (events w).
Definition set_ledger (l : L) (w : World D L) : World D L :=
  mkWorld (data w) l (registered w) (agenda w) (events w).
Definition set_registered (r : gmap AccountId OrderBookId) (w : World D L) : World D L :=
  mkWorld (data w) (ledger w) r (agenda w) (events w).
Definition set_agenda (a : Agenda) (w : World D L) : World D L :=
  mkWorld (data w) (ledger w) (registered w) a (events w).
Definition set_events (e : list Event) (w : World D L) : World D L :=
  mkWorld (data w) (ledger w) (registered w) (agenda w) e.

(** Computations on the parts of the world. *)
Definition on_data {E A} (c : M D E A) : M (World D L) E A := zoom data set_data c.
Definition on_ledger {E A} (c : M L E A) : M (World D L) E A := zoom ledger set_ledger c.

Definition deposit_event {E} (e : Event) : M (World D L) E unit :=
  modify (λ w, set_events (events w ++ [e]) w).

(** [Delegate::emit_event]. *)
Definition emit_event {E} (id : OrderBookId) (event : OrderBookEvent) : M (World D L) E unit :=
  deposit_event (FromOrderBook id event).

(** *** The expiration agenda ([ExpirationScheduler], [scheduler.rs]) *)

Section agenda.
Context {Cfg : Config}.

Definition schedule_expiration (when : BlockNumber) (id : OrderBookId) (order_id : OrderId)
    : M (World D L) DispatchError unit :=
  w ← get_state;
  block_expirations ←
    ok_or (try_push MaxExpiringOrdersPerBlock (default [] (agenda w !! when)) (id, order_id))
      (OrderBookError BlockScheduleFull);
  modify (λ w, set_agenda (<[when := block_expirations]> (agenda w)) w).

(** [position] and [remove]: drops the first occurrence. *)
Fixpoint remove_first {A} `{EqDecision A} (x : A) (l : list A) : option (list A) :=
  match l with
  | [] => None
  | y :: l => if bool_decide (y = x) then Some l else (λ l, y :: l) <$> remove_first x l
  end.

Definition unschedule_expiration (when : BlockNumber) (id : OrderBookId) (order_id : OrderId)
    : M (World D L) DispatchError unit :=
  w ← get_state;
  block_expirations ← ok_or (remove_first (id, order_id) (default [] (agenda w !! when)))
                        (OrderBookError ExpirationNotFound);
  modify (λ w, set_agenda (<[when := block_expirations]> (agenda w)) w).
End agenda.

(** *** Locking and unlocking ([CurrencyLocker], [CurrencyUnlocker], [lib.rs]) *)

Section currency.
Context `{MultiCurrency L} {TA : TechAccounts}.

(** [technical::ensure_account_registered]. *)
Definition ensure_account_registered (account : AccountId) : M (World D L) DispatchError unit :=
  w ← get_state;
  ensure (bool_decide (is_Some (registered w !! account))) TechAccountIdIsNotRegistered.

(** [technical::transfer_in] and [technical::transfer_out]. *)
Definition transfer_in (asset : AssetId) (source tech_dest : AccountId) (amount : Balance)
    : M (World D L) DispatchError unit :=
  _ ← ensure_account_registered tech_dest;
  on_ledger (transfer_from asset source tech_dest amount).

Definition transfer_out (asset : AssetId) (tech_source to : AccountId) (amount : Balance)
    : M (World D L) DispatchError unit :=
  _ ← ensure_account_registered tech_source;
  on_ledger (transfer_from asset tech_source to amount).

Definition lock_liquidity (account : AccountId) (id : OrderBookId) (asset : AssetId)
    (amount : OrderVolume) : M (World D L) DispatchError unit :=
  transfer_in asset account (tech_account id) (BalanceUnit.balance amount).

Definition unlock_liquidity (account : AccountId) (id : OrderBookId) (asset : AssetId)
    (amount : OrderVolume) : M (World D L) DispatchError unit :=
  transfer_out asset (tech_account id) account (BalanceUnit.balance amount).

Definition unlock_liquidity_batch (id : OrderBookId) (asset : AssetId)
    (receivers : BTreeMap AccountId OrderVolume) : M (World D L) DispatchError unit :=
  for_each receivers (λ '(account, amount),
    transfer_out asset (tech_account id) account (BalanceUnit.balance amount)).

(** [Payment::lock], [Payment::unlock], [Payment::execute_all]. *)
Definition lock (p : Payment.t) : M (World D L) DispatchError unit :=
  for_each (Payment.to_lock p) (λ '(asset, from_whom),
    for_each from_whom (λ '(account, amount),
      lock_liquidity account (Payment.order_book_id p) asset amount)).

Definition unlock (p : Payment.t) : M (World D L) DispatchError unit :=
  for_each (Payment.to_unlock p) (λ '(asset, to_whom),
    unlock_liquidity_batch (Payment.order_book_id p) asset to_whom).

Definition execute_all (p : Payment.t) : M (World D L) DispatchError unit :=
  _ ← lock p;
  unlock p.
End currency.
End world.
