(* ===== verification/Permissions.v ===== *)
(** * Permissions ([pallets/permissions/src/lib.rs])

    Who holds which permission in which scope, and who owns it.  Account
    references are counted by the framework: they are the parameter
    [References], over a state of their own. *)

From stdpp Require Import sorting.
From S2P Require Import Prelude OrderTypes.

Abbreviation PermissionId := Z (only parsing).

(** [common/src/permissions.rs]. *)
Definition MINT : PermissionId := 2.
Definition BURN : PermissionId := 3.
Definition SLASH : PermissionId := 4.
Definition INIT_DEX : PermissionId := 5.
Definition MANAGE_DEX : PermissionId := 6.
Definition CREATE_FARM : PermissionId := 7.
Definition CHECK_FARM : PermissionId := 8.
Definition LOCK_TO_FARM : PermissionId := 9.
Definition UNLOCK_FROM_FARM : PermissionId := 13.
Definition CLAIM_FROM_FARM : PermissionId := 10.
Definition GET_FARM_INFO : PermissionId := 11.
Definition GET_FARMER_INFO : PermissionId := 12.
Definition TRANSFER : PermissionId := 13.

Module Permissions.

(** A hash is a number. *)
Inductive Scope := Limited (hash : N) | Unlimited.

#[export] Instance Scope_eq_dec : EqDecision Scope.
Proof. solve_decision. Defined.
#[export] Instance Scope_countable : Countable Scope.
Proof.
  refine (inj_countable' (λ s, match s with Limited h => Some h | Unlimited => None end)
    (λ o, match o with Some h => Limited h | None => Unlimited end) _).
  by intros [].
Defined.

Inductive Error :=
| PermissionNotFound | PermissionNotOwned | PermissionAlreadyExists | Forbidden | IncRefError.

Inductive Event :=
| PermissionGranted (permission_id : PermissionId) (account_id : AccountId)
| PermissionTransfered (permission_id : PermissionId) (account_id : AccountId)
| PermissionCreated (permission_id : PermissionId) (account_id : AccountId).

(** [frame_system::inc_consumers] and [dec_consumers]. *)
Class References (R : Type) := {
  inc_consumers : AccountId → R → option R;
  dec_consumers : AccountId → R → R
}.

Record t (R : Type) := mk {
  Owners : gmap (PermissionId * Scope) (list AccountId);
  Permissions : gmap (AccountId * Scope) (list PermissionId);
  references : R;
  events : list Event
}.
Arguments mk {R} Owners Permissions references events.
Arguments Owners {R} _.
Arguments Permissions {R} _.
Arguments references {R} _.
Arguments events {R} _.

(** [slice::binary_search], on a sorted slice: where the element is ([inl]), or
    where it has to be inserted ([inr]). *)
Fixpoint binary_search (x : Z) (l : list Z) : nat + nat :=
  match l with
  | [] => inr O
  | y :: l =>
      match x ?= y with
      | Eq => inl O
      | Lt => inr O
      | Gt => match binary_search x l with inl n => inl (S n) | inr n => inr (S n) end
      end
  end.

(** [Vec::insert]. *)
Definition vec_insert {A} (n : nat) (x : A) (l : list A) : list A := take n l ++ x :: drop n l.

(** [if let Err(index) = v.binary_search(&x) { v.insert(index, x) }], and whether
    it inserted. *)
Definition insert_sorted (x : Z) (l : list Z) : bool * list Z :=
  match binary_search x l with
  | inl _ => (false, l)
  | inr index => (true, vec_insert index x l)
  end.

Section pallet.
Context {R : Type} `{References R}.
Abbreviation P := (M (t R) Error).

Definition set_Owners (o : gmap (PermissionId * Scope) (list AccountId)) (p : t R) : t R :=
  mk o (Permissions p) (references p) (events p).
Definition set_Permissions (m : gmap (AccountId * Scope) (list PermissionId)) (p : t R) : t R :=
  mk (Owners p) m (references p) (events p).
Definition set_references (r : R) (p : t R) : t R :=
  mk (Owners p) (Permissions p) r (events p).
Definition deposit_event (e : Event) : P unit :=
  modify (λ p, mk (Owners p) (Permissions p) (references p) (events p ++ [e])).

Definition inc_reference (account : AccountId) : P unit :=
  p ← get_state;
  r ← ok_or (inc_consumers account (references p)) IncRefError;
  modify (set_references r).

Definition owners_of (permission_id : PermissionId) (scope : Scope) (p : t R) : list AccountId :=
  default [] (Owners p !! (permission_id, scope)).
Definition permissions_of (holder : AccountId) (scope : Scope) (p : t R) : list PermissionId :=
  default [] (Permissions p !! (holder, scope)).

(** [Permissions::iter_prefix_values(account).count() == 0]. *)
Definition has_no_permissions (account : AccountId) (p : t R) : bool :=
  bool_decide (map_Forall (λ k _, fst k ≠ account) (Permissions p)).

(** [Permissions::mutate] with [insert_sorted]; whether it inserted. *)
Definition add_permission (holder : AccountId) (scope : Scope) (permission_id : PermissionId)
    : P bool := λ p,
  let '(inserted, l) := insert_sorted permission_id (permissions_of holder scope p) in
  (Ok inserted, set_Permissions (<[(holder, scope) := l]> (Permissions p)) p).

Definition account_has_permission (holder : AccountId) (scope : Scope) (permission_id : PermissionId)
    (p : t R) : bool :=
  match binary_search permission_id (permissions_of holder scope p) with
  | inl _ => true
  | inr _ => false
  end.

Definition check_permission_with_scope (who : AccountId) (permission_id : PermissionId)
    (scope : Scope) : P unit :=
  p ← get_state;
  let permission_found :=
    account_has_permission who scope permission_id p ||
    (negb (bool_decide (scope = Unlimited)) && account_has_permission who Unlimited permission_id p) in
  ensure permission_found Forbidden.

Definition check_permission (who : AccountId) (permission_id : PermissionId) : P unit :=
  check_permission_with_scope who permission_id Unlimited.

(** Whether the permission exists and whether [who] owns it in the scope. *)
Definition ownership (who : AccountId) (permission_id : PermissionId) (scope : Scope) (p : t R)
    : bool * bool :=
  let owners := owners_of permission_id scope p in
  if bool_decide (who ∈ owners) then (true, true)
  else if negb (bool_decide (scope = Unlimited)) then
    let owners := owners_of permission_id Unlimited p in
    (negb (bool_decide (owners = [])), bool_decide (who ∈ owners))
  else (negb (bool_decide (owners = [])), false).

Definition inc_if_first (account : AccountId) : P unit :=
  p ← get_state;
  if has_no_permissions account p then inc_reference account else mret tt.

Definition grant_permission_with_scope (who account_id : AccountId) (permission_id : PermissionId)
    (scope : Scope) : P unit :=
  p ← get_state;
  let '(permission_found, owns_permission) := ownership who permission_id scope p in
  if owns_permission : bool then
    _ ← inc_if_first account_id;
    _ ← add_permission account_id scope permission_id;
    deposit_event (PermissionGranted permission_id account_id)
  else if permission_found : bool then mthrow PermissionNotOwned
  else mthrow PermissionNotFound.

Definition grant_permission (who account_id : AccountId) (permission_id : PermissionId) : P unit :=
  grant_permission_with_scope who account_id permission_id Unlimited.

(** [owners[pos] = account_id] for the first position of [who]. *)
Fixpoint replace_first (who account_id : AccountId) (l : list AccountId) : option (list AccountId) :=
  match l with
  | [] => None
  | o :: l =>
      if bool_decide (o = who) then Some (account_id :: l)
      else (λ l, o :: l) <$> replace_first who account_id l
  end.

(** [Owners::mutate] writes the value back also when its closure fails. *)
Definition transfer_permission (who account_id : AccountId) (permission_id : PermissionId)
    (scope : Scope) : P unit :=
  p ← get_state;
  let owners := owners_of permission_id scope p in
  let write l := modify (λ p, set_Owners (<[(permission_id, scope) := l]> (Owners p)) p) in
  match replace_first who account_id owners with
  | Some owners' =>
      _ ← write owners';
      _ ← modify (λ p, set_references (dec_consumers who (references p)) p);
      _ ← inc_reference account_id;
      deposit_event (PermissionTransfered permission_id account_id)
  | None =>
      _ ← write owners;
      match owners with
      | [] => mthrow PermissionNotFound
      | _ => mthrow PermissionNotOwned
      end
  end.

Definition create_permission (owner account_id : AccountId) (permission_id : PermissionId)
    (scope : Scope) : P unit :=
  _ ← inc_if_first account_id;
  _ ← inc_reference owner;
  p ← get_state;
  let owners := owners_of permission_id scope p in
  let write l := modify (λ p, set_Owners (<[(permission_id, scope) := l]> (Owners p)) p) in
  match owners with
  | [] =>
      _ ← write [owner];
      _ ← add_permission account_id scope permission_id;
      deposit_event (PermissionCreated permission_id account_id)
  | _ =>
      _ ← write owners;
      mthrow PermissionAlreadyExists
  end.

Definition assign_permission (owner holder_id : AccountId) (permission_id : PermissionId)
    (scope : Scope) : P unit :=
  _ ← inc_reference owner;
  p ← get_state;
  let owners := owners_of permission_id scope p in
  let made_owner := negb (bool_decide (owner ∈ owners)) in
  _ ← modify (λ p, set_Owners (<[(permission_id, scope) :=
        if made_owner then owners ++ [owner] else owners]> (Owners p)) p);
  _ ← inc_if_first holder_id;
  granted_permission ← add_permission holder_id scope permission_id;
  ensure (made_owner || granted_permission) PermissionAlreadyExists.

(** [AssetRegulator::check_permission], the scope being the hash of the asset. *)
Definition regulator_check_permission (issuer affected_account : AccountId) (asset_scope : Scope)
    (permission_id : PermissionId) : P unit := λ p,
  if bool_decide (permission_id = BURN ∧ affected_account = issuer) then (Ok tt, p)
  else if bool_decide (permission_id = TRANSFER) then (Ok tt, p)
  else
    match check_permission_with_scope issuer permission_id asset_scope p with
    | (Ok _, p) => (Ok tt, p)
    | (Err _, p) => check_permission_with_scope issuer permission_id Unlimited p
    end.

(** [AssetRegulator::assign_permission]. *)
Definition regulator_assign_permission (owner : AccountId) (asset_scope : Scope)
    (permission_id : PermissionId) : P unit :=
  assign_permission owner owner permission_id asset_scope.
End pallet.

(** ** Sorted vectors *)

Abbreviation sorted := (StronglySorted Z.lt).

Lemma binary_search_spec x l : sorted l →
  match binary_search x l with
  | inl n => l !! n = Some x
  | inr n => (n ≤ length l)%nat ∧ Forall (λ y, y < x) (take n l) ∧ Forall (λ y, x < y) (drop n l)
  end.
Proof.
  induction 1 as [|y l Hl IH Hy]; simpl; [by repeat constructor|].
  destruct (Z.compare_spec x y) as [->|Hlt|Hgt]; simpl; [done|..].
  - split; [lia|]. split; [constructor|]. constructor; [done|].
    eapply Forall_impl; [exact Hy|]. simpl. lia.
  - destruct (binary_search x l) as [n|n]; simpl; [done|]. destruct IH as (? & ? & ?).
    split; [lia|]. split; [|done]. by constructor.
Qed.

Lemma binary_search_found x l : sorted l → (∃ n, binary_search x l = inl n) ↔ x ∈ l.
Proof.
  intros Hl. pose proof (binary_search_spec x l Hl) as Hs. destruct (binary_search x l) as [n|n].
  - split; [intros _; by eapply list_elem_of_lookup_2|by eexists].
  - destruct Hs as (_ & H1 & H2). split; [by intros [? ?]|]. intros Hx. exfalso.
    rewrite <- (take_drop n l), elem_of_app in Hx. rewrite Forall_forall in H1, H2.
    destruct Hx as [Hx%H1|Hx%H2]; lia.
Qed.

Lemma sorted_insert x l r : sorted (l ++ r) → Forall (λ y, y < x) l → Forall (λ y, x < y) r →
  sorted (l ++ x :: r).
Proof.
  intros Hs Hl Hr. induction l as [|y l IH]; simpl in *; [by constructor|].
  apply StronglySorted_inv in Hs as [Hs Hy]. apply Forall_cons in Hl as [? Hl].
  constructor; [by apply IH|]. rewrite Forall_app in *. destruct Hy as [Hy1 Hy2].
  split; [done|]. by constructor.
Qed.

Lemma insert_sorted_spec x l : sorted l →
  let r := insert_sorted x l in
  sorted (snd r) ∧ (∀ y, y ∈ snd r ↔ y ∈ l ∨ y = x) ∧ (fst r = true ↔ x ∉ l).
Proof.
  intros Hl. cbn zeta. pose proof (binary_search_spec x l Hl) as Hs.
  pose proof (binary_search_found x l Hl) as Hf. unfold insert_sorted.
  destruct (binary_search x l) as [n|n]; simpl.
  - assert (x ∈ l) by (apply Hf; by eexists). split; [done|]. split; [naive_solver|]. naive_solver.
  - destruct Hs as (_ & H1 & H2). split; [|split].
    + unfold vec_insert. by apply sorted_insert; [rewrite take_drop|..].
    + intros y. unfold vec_insert. rewrite <- (take_drop n l) at 3. set_solver.
    + split; [|done]. intros _ Hx. apply Hf in Hx as [? [=]].
Qed.

(** ** Holders and owners *)

Section properties.
Context {R : Type} `{References R}.
Implicit Types (p : t R).

Definition holds p (holder : AccountId) (scope : Scope) (permission_id : PermissionId) : Prop :=
  permission_id ∈ permissions_of holder scope p.

Definition owns p (who : AccountId) (permission_id : PermissionId) (scope : Scope) : Prop :=
  who ∈ owners_of permission_id scope p ∨ who ∈ owners_of permission_id Unlimited p.

#[local] Instance holds_dec p h s x : Decision (holds p h s x).
Proof. unfold holds. apply _. Defined.
#[local] Instance owns_dec p who x s : Decision (owns p who x s).
Proof. unfold owns. apply _. Defined.

(** Every vector of permissions is strictly sorted, as [binary_search] needs. *)
Definition all_sorted p : Prop := ∀ holder scope, sorted (permissions_of holder scope p).

Lemma has_permission_spec p holder scope x : all_sorted p →
  account_has_permission holder scope x p = bool_decide (holds p holder scope x).
Proof.
  intros Hp. unfold account_has_permission, holds.
  pose proof (binary_search_found x _ (Hp holder scope)) as Hf.
  destruct (binary_search _ _); case_bool_decide as Hx; try done.
  - exfalso. apply Hx, Hf. by eexists.
  - by apply Hf in Hx as [? [=]].
Qed.

Lemma inc_reference_frame account r p p' : inc_reference account p = (r, p') →
  Owners p' = Owners p ∧ Permissions p' = Permissions p.
Proof.
  unfold inc_reference. exec. destruct (inc_consumers _ _); exec; by intros [= _ <-].
Qed.

Lemma inc_if_first_frame account r p p' : inc_if_first account p = (r, p') →
  Owners p' = Owners p ∧ Permissions p' = Permissions p.
Proof.
  unfold inc_if_first. exec. destruct (has_no_permissions _ _); [apply inc_reference_frame|].
  by intros [= _ <-].
Qed.

Lemma permissions_of_insert holder scope l p h s :
  permissions_of h s (set_Permissions (<[(holder, scope) := l]> (Permissions p)) p) =
  if decide (h = holder ∧ s = scope) then l else permissions_of h s p.
Proof.
  unfold permissions_of. cbn. case_decide as E.
  - destruct E as [-> ->]. by rewrite lookup_insert_eq.
  - rewrite lookup_insert_ne; [done|]. intros [= -> ->]. naive_solver.
Qed.

(** Adding a permission. *)
Lemma add_permission_spec holder scope x p : all_sorted p →
  ∃ p', add_permission holder scope x p = (Ok (negb (bool_decide (holds p holder scope x))), p') ∧
    Owners p' = Owners p ∧ references p' = references p ∧ events p' = events p ∧ all_sorted p' ∧
    ∀ h s y, holds p' h s y ↔ holds p h s y ∨ (h = holder ∧ s = scope ∧ y = x).
Proof.
  intros Hp. unfold add_permission.
  destruct (insert_sorted_spec x (permissions_of holder scope p) (Hp holder scope)) as (Hs & Hin & Hb).
  destruct (insert_sorted x _) as [b l]. cbn [fst snd] in *. eexists. split; [f_equal; f_equal|].
  { unfold holds. destruct b; case_bool_decide; naive_solver. }
  split_and!; try done.
  - intros h s. rewrite permissions_of_insert. by case_decide.
  - intros h s y. unfold holds at 1. rewrite permissions_of_insert. case_decide as E.
    + destruct E as [-> ->]. rewrite Hin. unfold holds. naive_solver.
    + unfold holds. naive_solver.
Qed.

Lemma owned_by who x s p : snd (ownership who x s p) = bool_decide (owns p who x s).
Proof.
  unfold ownership, owns. case_bool_decide as H1; cbn.
  - by rewrite bool_decide_eq_true_2 by by left.
  - case_bool_decide as H2; cbn.
    + subst. by rewrite bool_decide_eq_false_2 by naive_solver.
    + apply bool_decide_ext. naive_solver.
Qed.

(** A check succeeds exactly for the holders in the scope or in all scopes. *)
Lemma check_permission_run who x s p : all_sorted p →
  check_permission_with_scope who x s p =
  (if bool_decide (holds p who s x ∨ holds p who Unlimited x) then Ok tt else Err Forbidden, p).
Proof.
  intros Hp. unfold check_permission_with_scope. exec. rewrite !has_permission_spec by done.
  destruct (bool_decide (holds p who s x)) eqn:H1; cbn.
  - apply bool_decide_eq_true in H1. by rewrite bool_decide_eq_true_2 by by left.
  - apply bool_decide_eq_false in H1. destruct (bool_decide (s = Unlimited)) eqn:H2; cbn.
    + apply bool_decide_eq_true in H2 as ->. by rewrite bool_decide_eq_false_2 by naive_solver.
    + destruct (bool_decide (holds p who Unlimited x)) eqn:H3.
      * apply bool_decide_eq_true in H3. by rewrite bool_decide_eq_true_2 by by right.
      * apply bool_decide_eq_false in H3. by rewrite bool_decide_eq_false_2 by naive_solver.
Qed.

(** ** Operations *)

Inductive op :=
| Grant (who account_id : AccountId) (permission_id : PermissionId) (scope : Scope)
| Transfer (who account_id : AccountId) (permission_id : PermissionId) (scope : Scope)
| Create (owner account_id : AccountId) (permission_id : PermissionId) (scope : Scope)
| Assign (owner holder_id : AccountId) (permission_id : PermissionId) (scope : Scope).

Definition perform_op (o : op) : M (t R) Error unit :=
  match o with
  | Grant who account x s => grant_permission_with_scope who account x s
  | Transfer who account x s => transfer_permission who account x s
  | Create owner account x s => create_permission owner account x s
  | Assign owner holder x s => assign_permission owner holder x s
  end.

(** The permission an operation may give, and what entitles it to. *)
Definition gives (o : op) p (h : AccountId) (s : Scope) (y : PermissionId) : Prop :=
  match o with
  | Grant who account x sc => h = account ∧ s = sc ∧ y = x ∧ owns p who x sc
  | Transfer _ _ _ _ => False
  | Create _ account x sc => h = account ∧ s = sc ∧ y = x ∧ owners_of x sc p = []
  | Assign _ holder x sc => h = holder ∧ s = sc ∧ y = x
  end.

(** What an operation may do to the holders. *)
Definition allowed (o : op) p p' : Prop :=
  all_sorted p' ∧ (∀ h s y, holds p h s y → holds p' h s y) ∧
  (∀ h s y, holds p' h s y → holds p h s y ∨ gives o p h s y).

Lemma allowed_same o p p' : all_sorted p → Permissions p' = Permissions p → allowed o p p'.
Proof.
  intros Hp E. assert (∀ h s, permissions_of h s p' = permissions_of h s p) as Hof.
  { intros h s. unfold permissions_of. by rewrite E. }
  unfold allowed, all_sorted, holds. setoid_rewrite Hof. naive_solver.
Qed.

Lemma allowed_add o holder s x p p1 p' b : all_sorted p → Permissions p1 = Permissions p →
  gives o p holder s x → add_permission holder s x p1 = (Ok b, p') → allowed o p p'.
Proof.
  intros Hp E Hg Hr. destruct (allowed_same o p p1 Hp E) as (Hp1 & Hle & Hge).
  destruct (add_permission_spec holder s x p1 Hp1) as (p2 & Hr' & _ & _ & _ & Hp2 & Hh).
  rewrite Hr in Hr'. injection Hr' as _ <-. unfold allowed in *. split; [done|].
  assert (∀ h sc y, holds p1 h sc y ↔ holds p h sc y) as Eh.
  { intros h sc y. unfold holds, permissions_of. by rewrite E. }
  split; intros h sc y; rewrite Hh, Eh; [auto|]. intros [?|(-> & -> & ->)]; auto.
Qed.

Lemma allowed_events o p p' ev : allowed o p p' →
  allowed o p (mk (Owners p') (Permissions p') (references p') ev).
Proof. done. Qed.

Lemma bind_run {S E A B} (f : A → M S E B) (c : M S E A) s r s' : mbind f c s = (r, s') →
  (∃ e, c s = (Err e, s') ∧ r = Err e) ∨ ∃ a s1, c s = (Ok a, s1) ∧ f a s1 = (r, s').
Proof. unfold mbind, M_bind. destruct (c s) as [[a|e] s1]; naive_solver. Qed.

Lemma grant_allowed who account x s r p p' : all_sorted p →
  grant_permission_with_scope who account x s p = (r, p') → allowed (Grant who account x s) p p'.
Proof.
  intros Hp. unfold grant_permission_with_scope. exec.
  pose proof (owned_by who x s p) as Ho. destruct (ownership who x s p) as [found own]. cbn in Ho. subst own.
  case_bool_decide as Ho; [|destruct found; intros [= _ <-]; by apply allowed_same].
  intros [(e & [_ E]%inc_if_first_frame & _)|([] & p1 & [_ E]%inc_if_first_frame & Hr)]%bind_run;
    [by apply allowed_same|].
  apply bind_run in Hr as [(e & Hr & _)|(b & p2 & Hr & [= _ <-])].
  - by destruct (insert_sorted x (permissions_of account s p1)) eqn:Ei; unfold add_permission in Hr; rewrite Ei in Hr.
  - apply allowed_events. by eapply allowed_add in Hr.
Qed.

Lemma transfer_allowed who account x s r p p' : all_sorted p →
  transfer_permission who account x s p = (r, p') → allowed (Transfer who account x s) p p'.
Proof.
  intros Hp. unfold transfer_permission. exec. destruct (replace_first _ _ _).
  - intros Hr. exec. revert Hr. exec.
    intros [(e & [_ E]%inc_reference_frame & _)|([] & p1 & [_ E]%inc_reference_frame & [= _ <-])]%bind_run;
      by apply allowed_same.
  - intros Hr. exec. revert Hr. exec. destruct (owners_of x s p); intros [= _ <-]; by apply allowed_same.
Qed.

Lemma create_allowed owner account x s r p p' : all_sorted p →
  create_permission owner account x s p = (r, p') → allowed (Create owner account x s) p p'.
Proof.
  intros Hp. unfold create_permission.
  intros [(e & [_ E]%inc_if_first_frame & _)|([] & p1 & [Eo E]%inc_if_first_frame & Hr)]%bind_run;
    [by apply allowed_same|].
  apply bind_run in Hr as [(e & [_ E2]%inc_reference_frame & _)|([] & p2 & [Eo2 E2]%inc_reference_frame & Hr)];
    [apply allowed_same; [done|congruence]|]. revert Hr. exec.
  destruct (owners_of x s p2) eqn:Ew; exec; [|intros [= _ <-]; apply allowed_same; [done|cbn; congruence]].
  intros [(e & Hr & _)|(b & p3 & Hr & [= _ <-])]%bind_run.
  - unfold add_permission in Hr. by destruct (insert_sorted _ _).
  - apply allowed_events. eapply allowed_add in Hr; [exact Hr|done|cbn; congruence|].
    cbn. split_and!; try done. unfold owners_of in *. by rewrite Eo2, Eo in Ew.
Qed.

Lemma assign_allowed owner holder x s r p p' : all_sorted p →
  assign_permission owner holder x s p = (r, p') → allowed (Assign owner holder x s) p p'.
Proof.
  intros Hp. unfold assign_permission.
  intros [(e & [_ E]%inc_reference_frame & _)|([] & p1 & [_ E]%inc_reference_frame & Hr)]%bind_run;
    [by apply allowed_same|]. revert Hr. exec.
  intros [(e & [_ E2]%inc_if_first_frame & _)|([] & p2 & [_ E2]%inc_if_first_frame & Hr)]%bind_run;
    [apply allowed_same; [done|cbn in *; congruence]|].
  apply bind_run in Hr as [(e & Hr & _)|(b & p3 & Hr & Hk)].
  - unfold add_permission in Hr. by destruct (insert_sorted _ _).
  - apply (allowed_add (Assign owner holder x s) holder s x p) in Hr; [|done|cbn in *; congruence|done].
    revert Hk. destruct (_ || _); intros [= _ <-]; exact Hr.
Qed.

(** C33. Holders change only as their owners allow: no operation, successful or
    failed, takes a permission away; a new holder of a permission got it by a
    grant of an owner of the permission in that scope or in all scopes, by the
    creation of a permission nobody owned, or by an assignment; and the vectors
    of permissions stay sorted, as the binary search requires. *)
Theorem permission_change o r p p' : all_sorted p → perform_op o p = (r, p') → allowed o p p'.
Proof.
  destruct o; cbn; [apply grant_allowed|apply transfer_allowed|apply create_allowed|apply assign_allowed].
Qed.

(** A grant succeeds only for an owner, and then the check of the holder
    succeeds in the granted scope; for anybody else it fails without a change.
    A check succeeds exactly for the holders of the permission in the scope or
    in all scopes, and never changes the state. *)
Theorem grant_permission_check who account x s p : all_sorted p →
  (∀ y sc h, check_permission_with_scope h y sc p =
     (if bool_decide (holds p h sc y ∨ holds p h Unlimited y) then Ok tt else Err Forbidden, p)) ∧
  (¬ owns p who x s → ∃ e, grant_permission_with_scope who account x s p = (Err e, p)) ∧
  ∀ p', grant_permission_with_scope who account x s p = (Ok tt, p') →
    owns p who x s ∧ check_permission_with_scope account x s p' = (Ok tt, p').
Proof.
  intros Hp. split; [intros y sc h; by apply check_permission_run|].
  pose proof (owned_by who x s p) as Ho. unfold grant_permission_with_scope. exec.
  destruct (ownership who x s p) as [found own]. cbn in Ho. subst own. case_bool_decide as Ho.
  - split; [done|]. intros p' Hr. split; [done|].
    apply M_bind_ok in Hr as ([] & p1 & [_ E]%inc_if_first_frame & Hr).
    apply M_bind_ok in Hr as (b & p2 & Hr & [= <-]).
    destruct (allowed_same (Grant who account x s) p p1 Hp E) as (Hp1 & _).
    destruct (add_permission_spec account s x p1 Hp1) as (p3 & Hr' & _ & _ & _ & Hp2 & Hh).
    rewrite Hr in Hr'. injection Hr' as _ <-.
    rewrite check_permission_run; [|exact Hp2]. rewrite bool_decide_eq_true_2; [done|].
    left. apply Hh. auto.
  - split; [|destruct found; by intros p' [=]]. intros _. destruct found; by eexists.
Qed.
End properties.

(** ** Examples *)

Module PermissionSamples.
#[export] Instance no_references : References unit :=
  {| inc_consumers _ r := Some r; dec_consumers _ r := r |}.

(** Account 1 owns the permission to mint in all scopes. *)
Definition start : t unit := mk {[ (MINT, Unlimited) := [1%N] ]} ∅ tt [].
Definition granted : t unit := snd (grant_permission_with_scope 1%N 2%N MINT (Limited 5%N) start).

Lemma grant_run : grant_permission_with_scope 1%N 2%N MINT (Limited 5%N) start = (Ok tt, granted).
Proof. vm_compute. reflexivity. Qed.

Lemma start_sorted : all_sorted start.
Proof. intros h s. constructor. Qed.
End PermissionSamples.
Import PermissionSamples.

Lemma permission_change_witness : allowed (Grant 1%N 2%N MINT (Limited 5%N)) start granted.
Proof.
  exact (permission_change (Grant 1%N 2%N MINT (Limited 5%N)) (Ok tt) start granted start_sorted
    grant_run).
Defined.

Lemma grant_permission_check_witness :
  check_permission_with_scope 2%N MINT (Limited 5%N) granted = (Ok tt, granted).
Proof.
  destruct (grant_permission_check 1%N 2%N MINT (Limited 5%N) start start_sorted) as (_ & _ & Hg).
  apply Hg. exact grant_run.
Defined.
End Permissions.
