(* ===== verification/TradingPair.v ===== *)
(** * Exchanges and trading pairs ([pallets/dex-manager], [pallets/trading-pair])

    The registry of exchanges ([DEXInfos]), of the trading pairs of every
    exchange with the liquidity sources enabled for them ([EnabledSources]), and
    the sources that are locked everywhere. *)

From S2P Require Import Prelude BTreeMap FixedPoint Units OrderTypes DataLayer World Permissions.

(** ** Data ([common/src/primitives.rs]) *)

Record TradingPair := mkPair { base_asset_id : AssetId; target_asset_id : AssetId }.

#[export] Instance TradingPair_eq_dec : EqDecision TradingPair.
Proof. solve_decision. Defined.
#[export] Instance TradingPair_countable : Countable TradingPair.
Proof.
  refine (inj_countable' (λ p, (base_asset_id p, target_asset_id p)) (λ x, mkPair x.1 x.2) _).
  by intros [].
Defined.

Inductive LiquiditySourceType :=
| XYKPool | BondingCurvePool | MulticollateralBondingCurvePool | MockPool | MockPool2
| MockPool3 | MockPool4 | XSTPool | OrderBookSource.

#[export] Instance LiquiditySourceType_eq_dec : EqDecision LiquiditySourceType.
Proof. solve_decision. Defined.
#[export] Instance LiquiditySourceType_countable : Countable LiquiditySourceType.
Proof.
  refine (inj_countable
    (λ s, match s with
          | XYKPool => 0 | BondingCurvePool => 1 | MulticollateralBondingCurvePool => 2
          | MockPool => 3 | MockPool2 => 4 | MockPool3 => 5 | MockPool4 => 6 | XSTPool => 7
          | OrderBookSource => 8
          end)
    (λ n, match n with
          | 0 => Some XYKPool | 1 => Some BondingCurvePool
          | 2 => Some MulticollateralBondingCurvePool | 3 => Some MockPool | 4 => Some MockPool2
          | 5 => Some MockPool3 | 6 => Some MockPool4 | 7 => Some XSTPool | 8 => Some OrderBookSource
          | _ => None
          end) _).
  by intros [].
Defined.

Record DEXInfo := mkDEXInfo {
  dex_base_asset_id : AssetId;
  synthetic_base_asset_id : AssetId;
  is_public : bool
}.

Inductive RawOrigin := Root | Signed (who : AccountId) | Unsigned.
Inductive ManagementMode := Private | Public.

Record Market := mkMarket {
  DEXInfos : gmap DEXId DEXInfo;
  EnabledSources : gmap (DEXId * TradingPair) (gset LiquiditySourceType);
  LockedLiquiditySources : list LiquiditySourceType;
  (** [TradingPairStored] events. *)
  stored_pairs : list (DEXId * TradingPair)
}.

Definition set_sources (e : gmap (DEXId * TradingPair) (gset LiquiditySourceType)) (m : Market)
    : Market :=
  mkMarket (DEXInfos m) e (LockedLiquiditySources m) (stored_pairs m).
Definition set_locked (l : list LiquiditySourceType) (m : Market) : Market :=
  mkMarket (DEXInfos m) (EnabledSources m) l (stored_pairs m).
Definition set_stored (l : list (DEXId * TradingPair)) (m : Market) : Market :=
  mkMarket (DEXInfos m) (EnabledSources m) (LockedLiquiditySources m) l.

(** ** [dex-manager] *)

Module DexManager.
Definition get_dex_info (dex_id : DEXId) : M Market DispatchError DEXInfo :=
  m ← get_state;
  ok_or (DEXInfos m !! dex_id) (DexManagerError DEXDoesNotExist).

Definition ensure_dex_exists (dex_id : DEXId) : M Market DispatchError unit :=
  m ← get_state;
  ensure (bool_decide (is_Some (DEXInfos m !! dex_id))) (DexManagerError DEXDoesNotExist).

Definition list_dex_ids {SK : StorageKeys} (m : Market) : list DEXId :=
  fst <$> storage_iter (DEXInfos m).

Section permissions.
Context {R : Type} `{Permissions.References R}.
(** The hash of a DEX id. *)
Context (dex_hash : DEXId → N).

Definition ensure_direct_manager (dex_id : DEXId) (who : AccountId) (p : Permissions.t R)
    : result DispatchError unit :=
  match fst (Permissions.check_permission_with_scope who MANAGE_DEX
               (Permissions.Limited (dex_hash dex_id)) p) with
  | Ok _ => Ok tt
  | Err _ => Err PermissionForbidden
  end.

Definition ensure_can_manage (p : Permissions.t R) (dex_id : DEXId) (origin : RawOrigin)
    (mode : ManagementMode) : M Market DispatchError (option AccountId) :=
  match origin with
  | Signed who =>
      dex_info ← get_dex_info dex_id;
      _ ← (if negb (is_public dex_info) || match mode with Public => false | Private => true end
           then lift (ensure_direct_manager dex_id who p)
           else mret tt);
      mret (Some who)
  | _ => mthrow (DexManagerError InvalidAccountId)
  end.
End permissions.
End DexManager.

(** ** [trading-pair] *)

Module TradingPairs.
Definition is_trading_pair_enabled (dex_id : DEXId) (base_asset target_asset : AssetId)
    : M Market DispatchError bool :=
  _ ← DexManager.ensure_dex_exists dex_id;
  m ← get_state;
  mret (bool_decide (is_Some (EnabledSources m !! (dex_id, mkPair base_asset target_asset)))).

Definition ensure_trading_pair_exists (dex_id : DEXId) (base_asset target_asset : AssetId)
    : M Market DispatchError unit :=
  enabled ← is_trading_pair_enabled dex_id base_asset target_asset;
  ensure enabled (TradingPairError TradingPairDoesntExist).

Definition get_locked (m : Market) : list LiquiditySourceType := LockedLiquiditySources m.
Definition append_locked (s : LiquiditySourceType) (m : Market) : Market :=
  set_locked (LockedLiquiditySources m ++ [s]) m.

(** [EnabledSourcesManager::mutate_remove]. *)
Definition mutate_remove (dex_id : DEXId) (base_asset target_asset : AssetId) (m : Market) : Market :=
  let key := (dex_id, mkPair base_asset target_asset) in
  match EnabledSources m !! key with
  | Some sources => set_sources (<[key := sources ∖ {[XYKPool]}]> (EnabledSources m)) m
  | None => m
  end.

Definition list_enabled_sources_for_trading_pair (dex_id : DEXId) (base_asset target_asset : AssetId)
    : M Market DispatchError (gset LiquiditySourceType) :=
  _ ← DexManager.ensure_dex_exists dex_id;
  m ← get_state;
  sources ← ok_or (EnabledSources m !! (dex_id, mkPair base_asset target_asset))
              (TradingPairError TradingPairDoesntExist);
  mret (foldl (λ sources locked_source, sources ∖ {[locked_source]}) sources
          (LockedLiquiditySources m)).

Definition is_source_enabled_for_trading_pair (dex_id : DEXId) (base_asset target_asset : AssetId)
    (source_type : LiquiditySourceType) : M Market DispatchError bool :=
  sources ← list_enabled_sources_for_trading_pair dex_id base_asset target_asset;
  mret (bool_decide (source_type ∈ sources)).

(** [EnabledSources::mutate], where [unwrap] is safe after the check. *)
Definition mutate_sources (f : gset LiquiditySourceType → gset LiquiditySourceType)
    (dex_id : DEXId) (base_asset target_asset : AssetId) : M Market DispatchError unit :=
  _ ← ensure_trading_pair_exists dex_id base_asset target_asset;
  modify (λ m,
    set_sources (alter f (dex_id, mkPair base_asset target_asset) (EnabledSources m)) m).

Definition enable_source_for_trading_pair (dex_id : DEXId) (base_asset target_asset : AssetId)
    (source_type : LiquiditySourceType) : M Market DispatchError unit :=
  mutate_sources (λ sources, sources ∪ {[source_type]}) dex_id base_asset target_asset.

Definition disable_source_for_trading_pair (dex_id : DEXId) (base_asset target_asset : AssetId)
    (source_type : LiquiditySourceType) : M Market DispatchError unit :=
  mutate_sources (λ sources, sources ∖ {[source_type]}) dex_id base_asset target_asset.

Definition list_trading_pairs {SK : StorageKeys} (dex_id : DEXId)
    : M Market DispatchError (list TradingPair) :=
  _ ← DexManager.ensure_dex_exists dex_id;
  m ← get_state;
  mret (fst <$> iter_prefix (EnabledSources m) dex_id).

Section assets.
Context {L : Type} `{MultiCurrency L}.

(** [AssetInfoProvider::ensure_asset_exists]. *)
Definition ensure_asset_exists {S} (l : L) (asset : AssetId) : M S DispatchError unit :=
  ensure (asset_exists l asset) AssetIdNotExists.

Definition register_pair (l : L) (dex_id : DEXId) (base_asset target_asset : AssetId)
    : M Market DispatchError unit :=
  _ ← ensure (negb (bool_decide (base_asset = target_asset))) (TradingPairError IdenticalAssetIds);
  dex_info ← DexManager.get_dex_info dex_id;
  _ ← ensure (bool_decide (base_asset = dex_base_asset_id dex_info) ||
              bool_decide (base_asset = synthetic_base_asset_id dex_info))
        (TradingPairError ForbiddenBaseAssetId);
  _ ← ensure_asset_exists l base_asset;
  _ ← ensure_asset_exists l target_asset;
  let pair := mkPair base_asset target_asset in
  m ← get_state;
  _ ← ensure (bool_decide (EnabledSources m !! (dex_id, pair) = None)) (TradingPairError TradingPairExists);
  _ ← modify (λ m, set_sources (<[(dex_id, pair) := ∅]> (EnabledSources m)) m);
  modify (λ m, set_stored (stored_pairs m ++ [(dex_id, pair)]) m).

(** The extrinsic [register]. *)
Definition register {R} `{Permissions.References R} (dex_hash : DEXId → N) (p : Permissions.t R)
    (l : L) (origin : RawOrigin) (dex_id : DEXId) (base_asset target_asset : AssetId)
    : M Market DispatchError unit :=
  _ ← DexManager.ensure_can_manage dex_hash p dex_id origin Public;
  register_pair l dex_id base_asset target_asset.
End assets.
End TradingPairs.

(** ** Properties *)

Section properties.
Context {L : Type} `{MultiCurrency L}.
Implicit Types (m : Market) (l : L).

(** The sources that are enabled and not locked. *)
Definition open_sources m (sources : gset LiquiditySourceType) : gset LiquiditySourceType :=
  sources ∖ list_to_set (LockedLiquiditySources m).

Lemma remove_locked (locked : list LiquiditySourceType) (sources : gset LiquiditySourceType) :
  foldl (λ sources s, sources ∖ {[s]}) sources locked = sources ∖ list_to_set locked.
Proof.
  revert sources. induction locked as [|s locked IH]; intros sources; simpl; [set_solver|].
  rewrite IH. set_solver.
Qed.

Lemma dex_exists_run dex_id m : is_Some (DEXInfos m !! dex_id) →
  DexManager.ensure_dex_exists dex_id m = (Ok tt, m).
Proof. intros Hd. unfold DexManager.ensure_dex_exists. exec. by rewrite bool_decide_eq_true_2. Qed.

Lemma pair_exists_run dex_id b t m sources : is_Some (DEXInfos m !! dex_id) →
  EnabledSources m !! (dex_id, mkPair b t) = Some sources →
  TradingPairs.ensure_trading_pair_exists dex_id b t m = (Ok tt, m).
Proof.
  intros Hd Hs. unfold TradingPairs.ensure_trading_pair_exists, TradingPairs.is_trading_pair_enabled.
  unfold mbind, M_bind. rewrite dex_exists_run by done. unfold get_state, mret, M_ret. rewrite Hs.
  by rewrite bool_decide_eq_true_2.
Qed.

Lemma mutate_sources_run f dex_id b t m sources : is_Some (DEXInfos m !! dex_id) →
  EnabledSources m !! (dex_id, mkPair b t) = Some sources →
  TradingPairs.mutate_sources f dex_id b t m =
  (Ok tt, set_sources (<[(dex_id, mkPair b t) := f sources]> (EnabledSources m)) m).
Proof.
  intros Hd Hs. unfold TradingPairs.mutate_sources, mbind, M_bind. rewrite (pair_exists_run _ _ _ _ sources) by done.
  unfold modify. by rewrite (alter_alt_Some _ _ _ _ Hs).
Qed.

Lemma list_sources_run dex_id b t m sources : is_Some (DEXInfos m !! dex_id) →
  EnabledSources m !! (dex_id, mkPair b t) = Some sources →
  TradingPairs.list_enabled_sources_for_trading_pair dex_id b t m = (Ok (open_sources m sources), m).
Proof.
  intros Hd Hs. unfold TradingPairs.list_enabled_sources_for_trading_pair, mbind, M_bind.
  rewrite dex_exists_run by done. unfold get_state. rewrite Hs. unfold ok_or, mret, M_ret.
  by rewrite remove_locked.
Qed.

Lemma pair_missing_run dex_id b t m : is_Some (DEXInfos m !! dex_id) →
  EnabledSources m !! (dex_id, mkPair b t) = None → ∀ f,
  TradingPairs.mutate_sources f dex_id b t m = (Err (TradingPairError TradingPairDoesntExist), m).
Proof.
  intros Hd Hs f. unfold TradingPairs.mutate_sources, TradingPairs.ensure_trading_pair_exists,
    TradingPairs.is_trading_pair_enabled, mbind, M_bind.
  rewrite dex_exists_run by done. unfold get_state, mret, M_ret. rewrite Hs.
  by rewrite bool_decide_eq_false_2 by (by intros []).
Qed.

(** Switching a liquidity source of a registered pair on an existing exchange
    never fails; a source that is switched on is listed exactly when it is not
    locked, switching it off removes it, switching on and off restores the
    registry, and no other pair is affected.  For a pair that is not registered
    both are refused without a change. *)
Theorem source_switching dex_id b t source m : is_Some (DEXInfos m !! dex_id) →
  match EnabledSources m !! (dex_id, mkPair b t) with
  | None =>
      TradingPairs.enable_source_for_trading_pair dex_id b t source m
        = (Err (TradingPairError TradingPairDoesntExist), m) ∧
      TradingPairs.disable_source_for_trading_pair dex_id b t source m
        = (Err (TradingPairError TradingPairDoesntExist), m)
  | Some sources =>
      ∃ on, TradingPairs.enable_source_for_trading_pair dex_id b t source m = (Ok tt, on) ∧
        (∀ s, TradingPairs.is_source_enabled_for_trading_pair dex_id b t s on =
           (Ok (bool_decide ((s = source ∨ s ∈ sources) ∧ s ∉ LockedLiquiditySources m)), on)) ∧
        (∀ k, k ≠ (dex_id, mkPair b t) → EnabledSources on !! k = EnabledSources m !! k) ∧
        ∃ off, TradingPairs.disable_source_for_trading_pair dex_id b t source on = (Ok tt, off) ∧
          (∀ s, TradingPairs.is_source_enabled_for_trading_pair dex_id b t s off =
             (Ok (bool_decide (s ≠ source ∧ s ∈ sources ∧ s ∉ LockedLiquiditySources m)), off)) ∧
          (source ∉ sources → off = m)
  end.
Proof.
  intros Hd. destruct (EnabledSources m !! (dex_id, mkPair b t)) as [sources|] eqn:Hs.
  2: { split; by apply pair_missing_run. }
  eexists. split; [by apply mutate_sources_run|]. split; [|split].
  - intros s. unfold TradingPairs.is_source_enabled_for_trading_pair, mbind at 1, M_bind at 1.
    erewrite list_sources_run; [|done|apply lookup_insert_eq]. unfold mret, M_ret. f_equal. f_equal.
    apply bool_decide_ext. unfold open_sources. cbn. set_solver.
  - intros k Hk. cbn. by apply lookup_insert_ne.
  - eexists. split; [apply mutate_sources_run; [done|apply lookup_insert_eq]|]. split.
    + intros s. unfold TradingPairs.is_source_enabled_for_trading_pair, mbind at 1, M_bind at 1.
      erewrite list_sources_run; [|done|apply lookup_insert_eq]. unfold mret, M_ret. f_equal. f_equal.
      apply bool_decide_ext. unfold open_sources. cbn. set_solver.
    + intros Hn. cbn. rewrite insert_insert_eq. replace ((sources ∪ {[source]}) ∖ {[source]}) with sources by set_solver.
      rewrite insert_id by done. by destruct m.
Qed.

(** A registered pair belongs to an existing exchange and trades another asset
    against one of the base assets of the exchange. *)
Definition pair_ok m (k : DEXId * TradingPair) : Prop :=
  ∃ info, DEXInfos m !! fst k = Some info ∧ base_asset_id (snd k) ≠ target_asset_id (snd k) ∧
    (base_asset_id (snd k) = dex_base_asset_id info ∨
     base_asset_id (snd k) = synthetic_base_asset_id info).

Definition pairs_ok m : Prop := ∀ k, is_Some (EnabledSources m !! k) → pair_ok m k.

(** The operations that change the registry. *)
Inductive market_op :=
| Register (l : L) (dex_id : DEXId) (b t : AssetId)
| Enable (dex_id : DEXId) (b t : AssetId) (s : LiquiditySourceType)
| Disable (dex_id : DEXId) (b t : AssetId) (s : LiquiditySourceType)
| RemovePool (dex_id : DEXId) (b t : AssetId)
| Lock (s : LiquiditySourceType).

Definition market_step (o : market_op) (m : Market) : Market :=
  match o with
  | Register l d b t => snd (TradingPairs.register_pair l d b t m)
  | Enable d b t s => snd (TradingPairs.enable_source_for_trading_pair d b t s m)
  | Disable d b t s => snd (TradingPairs.disable_source_for_trading_pair d b t s m)
  | RemovePool d b t => TradingPairs.mutate_remove d b t m
  | Lock s => TradingPairs.append_locked s m
  end.

Lemma register_cases l d b t m :
  (∃ e, TradingPairs.register_pair l d b t m = (Err e, m)) ∨
  (EnabledSources m !! (d, mkPair b t) = None ∧ pair_ok m (d, mkPair b t) ∧
   asset_exists l b = true ∧ asset_exists l t = true ∧
   TradingPairs.register_pair l d b t m =
   (Ok tt, set_stored (stored_pairs m ++ [(d, mkPair b t)])
             (set_sources (<[(d, mkPair b t) := ∅]> (EnabledSources m)) m))).
Proof.
  unfold TradingPairs.register_pair. case_bool_decide as Hbt; cbn [negb]; exec; [left; by eexists|].
  unfold DexManager.get_dex_info. exec. destruct (DEXInfos m !! d) as [info|] eqn:Hd; exec; [|left; by eexists].
  destruct (bool_decide (b = dex_base_asset_id info) || _) eqn:Hb; exec; [|left; by eexists].
  unfold TradingPairs.ensure_asset_exists. destruct (asset_exists l b); exec; [|left; by eexists].
  destruct (asset_exists l t); exec; [|left; by eexists].
  destruct (EnabledSources m !! (d, mkPair b t)) eqn:Hn; exec.
  { left. by eexists. }
  right. split_and!; try done.
  exists info. split; [done|]. split; [done|]. cbn.
  apply orb_prop in Hb as [?%bool_decide_eq_true|?%bool_decide_eq_true]; auto.
Qed.

Lemma pairs_ok_keep m m' : pairs_ok m → DEXInfos m' = DEXInfos m →
  (∀ k, is_Some (EnabledSources m' !! k) → is_Some (EnabledSources m !! k)) → pairs_ok m'.
Proof. intros Hm Ed Hs k Hk%Hs%Hm. unfold pair_ok. by rewrite Ed. Qed.

Lemma mutate_sources_keep f d b t m : pairs_ok m →
  pairs_ok (snd (TradingPairs.mutate_sources f d b t m)).
Proof.
  intros Hm. destruct (EnabledSources m !! (d, mkPair b t)) as [sources|] eqn:Hs.
  - assert (is_Some (DEXInfos m !! d)) as Hd.
    { destruct (Hm (d, mkPair b t)) as (info & Hi & _); by eexists. }
    rewrite (mutate_sources_run _ _ _ _ _ _ Hd Hs). apply (pairs_ok_keep m); [done..|]. cbn.
    intros k. destruct (decide (k = (d, mkPair b t))) as [->|]; [by eexists|by rewrite lookup_insert_ne].
  - destruct (DEXInfos m !! d) as [info|] eqn:Hd.
    + rewrite pair_missing_run by (done || by eexists). done.
    + unfold TradingPairs.mutate_sources, TradingPairs.ensure_trading_pair_exists,
        TradingPairs.is_trading_pair_enabled, DexManager.ensure_dex_exists. exec. rewrite Hd.
      rewrite bool_decide_eq_false_2 by (by intros []). exec. done.
Qed.

(** Every registered trading pair belongs to an existing exchange, trades two
    different assets, and has a base asset of its exchange: registration checks
    it, and no operation on the registry, successful or failed, breaks it. *)
Theorem trading_pairs_well_formed (os : list market_op) m : pairs_ok m →
  pairs_ok (foldl (λ m o, market_step o m) m os).
Proof.
  revert m. induction os as [|o os IH]; intros m Hm; simpl; [done|]. apply IH.
  destruct o as [l d b t|d b t s|d b t s|d b t|s]; cbn.
  - destruct (register_cases l d b t m) as [[e ->]|(_ & Hp & _ & _ & ->)]; [done|]. cbn.
    intros k Hk. destruct (decide (k = (d, mkPair b t))) as [->|Hne]; [exact Hp|].
    cbn in Hk. rewrite lookup_insert_ne in Hk by done. by apply Hm.
  - by apply mutate_sources_keep.
  - by apply mutate_sources_keep.
  - unfold TradingPairs.mutate_remove. destruct (EnabledSources m !! _) eqn:Hs; [|done].
    apply (pairs_ok_keep m); [done..|]. cbn. intros k.
    destruct (decide (k = (d, mkPair b t))) as [->|]; [by eexists|by rewrite lookup_insert_ne].
  - by apply (pairs_ok_keep m).
Qed.
End properties.

(** ** Examples *)

Module PairSamples.
(** Every asset exists and nothing can be transferred. *)
#[export] Instance no_currency : MultiCurrency unit := {|
  free_balance _ _ _ := 0;
  currency_transfer _ _ _ _ := mthrow AssetIdNotExists;
  check_permission _ _ _ _ := Ok tt;
  asset_exists _ _ := true
|}.

(** The exchange 0 with base asset 0 and the pair of the assets 0 and 1. *)
Definition market : Market :=
  mkMarket {[ 0 := mkDEXInfo 0%N 2%N true ]} {[ (0, mkPair 0%N 1%N) := {[ XYKPool ]} ]} [] [].

Lemma market_ok : pairs_ok market.
Proof.
  intros k [s Hk]. cbn in Hk. apply lookup_singleton_Some in Hk as [<- _].
  exists (mkDEXInfo 0%N 2%N true). split; [reflexivity|]. split; [done|]. by left.
Qed.
End PairSamples.
Import PairSamples.

Lemma source_switching_witness :
  ∃ on, TradingPairs.enable_source_for_trading_pair 0 0%N 1%N OrderBookSource market = (Ok tt, on) ∧
    TradingPairs.is_source_enabled_for_trading_pair 0 0%N 1%N OrderBookSource on = (Ok true, on).
Proof.
  destruct (source_switching 0 0%N 1%N OrderBookSource market ltac:(by eexists)) as (on & Hon & Hs & _).
  exists on. split; [exact Hon|]. rewrite Hs. vm_compute. reflexivity.
Defined.

Lemma trading_pairs_well_formed_witness :
  pairs_ok (foldl (λ m o, market_step (L := unit) o m) market
              [Register tt 0 0%N 3%N; Enable 0 0%N 1%N OrderBookSource; Lock XYKPool; Disable 0 0%N 1%N OrderBookSource]).
Proof. exact (trading_pairs_well_formed _ market market_ok). Defined.
