(* ===== verification/Payments.v ===== *)
(** * What a payment does to the balances

    [credit] and [total] read off a payment map what an account receives and
    what all accounts receive of an asset; [settle] is the net effect of
    [Payment::execute_all] on any account, the account of the book included. *)

From S2P Require Import Prelude BTreeMap FixedPoint Units OrderTypes DataLayer World.

Abbreviation inner := BalanceUnit.inner (only parsing).

Section totals.
Implicit Types (m : BTreeMap AssetId (BTreeMap AccountId OrderVolume)) (a : AssetId) (x : AccountId).

Definition account_credit x (accs : BTreeMap AccountId OrderVolume) : Z :=
  sum_by (λ p, if bool_decide (fst p = x) then inner (snd p) else 0) accs.

Definition account_total (accs : BTreeMap AccountId OrderVolume) : Z :=
  sum_by (λ p, inner (snd p)) accs.

Definition of_asset a (f : BTreeMap AccountId OrderVolume → Z) m : Z :=
  sum_by (λ p, if bool_decide (fst p = a) then f (snd p) else 0) m.

(** What account [x] gets of asset [a]; what all the accounts get. *)
Definition credit m a x : Z := of_asset a (account_credit x) m.
Definition total m a : Z := of_asset a account_total m.

(** The amounts are balances in the precision of their asset. *)
Definition amount_ok (d : bool) (v : OrderVolume) : Prop :=
  BalanceUnit.is_divisible v = d ∧ BalanceUnit.wf v.

Definition pay_ok (flag : AssetId → bool) m : Prop :=
  ∀ a accs x v, (a, accs) ∈ m → (x, v) ∈ accs → amount_ok (flag a) v.

Lemma pay_ok_nil flag : pay_ok flag [].
Proof. intros a accs x v H%elem_of_nil. done. Qed.

Lemma total_nil a : total [] a = 0.
Proof. done. Qed.
Lemma credit_nil a x : credit [] a x = 0.
Proof. done. Qed.

(** The amount an entry adds. *)
Definition at_asset a asset (v : Z) : Z := if bool_decide (a = asset) then v else 0.

Section flag.
Context (flag : AssetId → bool).

(** The accounts of an asset and the entry of an account, before [add_entry]. *)
Definition accounts m a : BTreeMap AccountId OrderVolume := default [] (bt_get a m).

Lemma accounts_ok m a x v : pay_ok flag m → (x, v) ∈ accounts m a → amount_ok (flag a) v.
Proof.
  unfold accounts. destruct (bt_get a m) as [accs|] eqn:E; simpl; [|by intros _ ?%elem_of_nil].
  apply bt_get_elem_eq in E. eauto.
Qed.

Definition new_amount (accs : BTreeMap AccountId OrderVolume) x (amount : OrderVolume) : OrderVolume :=
  match bt_get x accs with Some v => BalanceUnit.saturating_add v amount | None => amount end.

Lemma new_amount_ok m a x amount : pay_ok flag m → amount_ok (flag a) amount →
  let old := match bt_get x (accounts m a) with Some v => inner v | None => 0 end in
  amount_ok (flag a) (new_amount (accounts m a) x amount) ∧
  inner (new_amount (accounts m a) x amount) = Z.min u128_max (old + inner amount).
Proof.
  intros Hm [Hd Hw]. unfold new_amount.
  destruct (bt_get x (accounts m a)) as [v|] eqn:E; [|split; [done|unfold BalanceUnit.wf, is_u128 in Hw; lia]].
  apply bt_get_elem_eq in E. destruct (accounts_ok m a x v Hm E) as [Hdv Hwv].
  rewrite BalanceUnit.saturating_add_same by congruence. simpl. split; [|done].
  split; [done|]. unfold BalanceUnit.wf, is_u128, u128_max in *. simpl. lia.
Qed.

Lemma add_entry_ok asset x amount m : pay_ok flag m → amount_ok (flag asset) amount →
  pay_ok flag (Payment.add_entry asset x amount m).
Proof.
  intros Hm Ha a accs y v [[= -> ->]|Hin]%bt_insert_elem_eq Hv; [|eauto].
  apply bt_insert_elem_eq in Hv as [[= -> ->]|Hv]; [by apply new_amount_ok|].
  by eapply accounts_ok.
Qed.

Lemma of_asset_insert a f asset accs m : f [] = 0 →
  of_asset a f (bt_insert asset accs m) = of_asset a f m + at_asset a asset (f accs - f (accounts m asset)).
Proof.
  intros Hf. unfold of_asset, at_asset, accounts. rewrite sum_by_insert. simpl.
  destruct (bt_get asset m); simpl; repeat case_bool_decide; subst; try done; lia.
Qed.

(** An entry adds at most its amount to the total. *)
Lemma total_add_le asset x amount m a : pay_ok flag m → amount_ok (flag asset) amount →
  total (Payment.add_entry asset x amount m) a ≤ total m a + at_asset a asset (inner amount).
Proof.
  intros Hm Ha. destruct (new_amount_ok m asset x amount Hm Ha) as [_ Hn].
  unfold total, Payment.add_entry, bt_modify_or_insert.
  fold (accounts m asset). fold (new_amount (accounts m asset) x amount).
  rewrite of_asset_insert by done. unfold at_asset. case_bool_decide; [|lia].
  unfold account_total. rewrite sum_by_insert. simpl. rewrite Hn. destruct (bt_get x _); lia.
Qed.

Lemma account_credit_nonneg x d accs : (∀ y v, (y, v) ∈ accs → amount_ok d v) →
  0 ≤ account_credit x accs ≤ account_total accs.
Proof.
  intros Hok. split; [apply sum_by_nonneg|apply sum_by_le]; intros [y v] Hin;
    destruct (Hok y v Hin) as [_ [? ?]]; simpl; case_bool_decide; lia.
Qed.

Lemma entry_le_total m a x v : pay_ok flag m → bt_get x (accounts m a) = Some v →
  inner v ≤ account_total (accounts m a).
Proof.
  intros Hm E%bt_get_elem_eq. apply (sum_by_elem (λ p, inner (snd p)) _ (x, v)); [|done].
  intros [y u] Hin. by destruct (accounts_ok m a y u Hm Hin) as [_ [? ?]].
Qed.

Lemma account_total_le m a : pay_ok flag m → account_total (accounts m a) ≤ total m a.
Proof.
  intros Hm. unfold accounts. assert (Hn : ∀ p, p ∈ m →
    0 ≤ (if bool_decide (fst p = a) then account_total (snd p) else 0)).
  { intros [a' accs] Hin. simpl. case_bool_decide; [|done]. apply sum_by_nonneg.
    intros [x v] Hv. by destruct (Hm a' accs x v Hin Hv) as [_ [? ?]]. }
  destruct (bt_get a m) as [accs|] eqn:E; simpl; [|by apply sum_by_nonneg].
  apply bt_get_elem_eq in E. pose proof (sum_by_elem _ _ _ Hn E) as Hle. simpl in Hle.
  by rewrite bool_decide_eq_true_2 in Hle.
Qed.

(** When the total of the asset fits a balance, nothing saturates. *)
Lemma add_entry_exact asset x amount m : pay_ok flag m → amount_ok (flag asset) amount →
  total m asset + inner amount ≤ u128_max → ∀ a,
  total (Payment.add_entry asset x amount m) a = total m a + at_asset a asset (inner amount) ∧
  ∀ y, credit (Payment.add_entry asset x amount m) a y =
       credit m a y + at_asset a asset (if bool_decide (x = y) then inner amount else 0).
Proof.
  intros Hm Ha Hle a. destruct (new_amount_ok m asset x amount Hm Ha) as [_ Hn].
  assert (inner (new_amount (accounts m asset) x amount) =
          match bt_get x (accounts m asset) with Some v => inner v | None => 0 end + inner amount) as Hv.
  { rewrite Hn. pose proof (account_total_le m asset Hm).
    destruct (bt_get x (accounts m asset)) as [v|] eqn:E; [|destruct Ha as [_ []]; lia].
    pose proof (entry_le_total m asset x v Hm E). lia. }
  unfold total, credit, Payment.add_entry, bt_modify_or_insert.
  fold (accounts m asset). fold (new_amount (accounts m asset) x amount).
  split; [|intros y]; rewrite of_asset_insert by done; f_equal; unfold at_asset; case_bool_decide; try done.
  - unfold account_total. rewrite sum_by_insert. simpl. rewrite Hv.
    destruct (bt_get x _); lia.
  - unfold account_credit. rewrite sum_by_insert. simpl. rewrite Hv.
    destruct (bt_get x _); case_bool_decide; lia.
Qed.

(** A single entry. *)
Lemma single_entry asset x amount a : amount_ok (flag asset) amount →
  total (Payment.add_entry asset x amount []) a = at_asset a asset (inner amount) ∧
  ∀ y, credit (Payment.add_entry asset x amount []) a y =
       at_asset a asset (if bool_decide (x = y) then inner amount else 0).
Proof.
  intros Ha. apply (add_entry_exact asset x amount [] (pay_ok_nil flag) Ha).
  rewrite total_nil. destruct Ha as [_ [? ?]]. lia.
Qed.

Lemma credit_nonneg m a x : pay_ok flag m → 0 ≤ credit m a x.
Proof.
  intros Hm. apply sum_by_nonneg. intros [a' accs] Hin. simpl. case_bool_decide; [|done].
  apply (account_credit_nonneg x (flag a')). intros y v. by apply (Hm a' accs).
Qed.
End flag.
End totals.

(** ** The balances after a payment *)

Section settle.
Context {D L : Type} `{MultiCurrencyLaws L} {TA : TechAccounts}.
Implicit Types (w : World D L) (p : Payment.t) (a : AssetId) (x : AccountId).

Abbreviation balance w := (free_balance (ledger w)).

(** [c] changes only the balances, by [f]. *)
Definition pays (f : AssetId → AccountId → Z) (w w' : World D L) : Prop :=
  w' = set_ledger (ledger w') w ∧ ∀ a x, balance w' a x = balance w a x + f a x.

Lemma pays_refl w : pays (λ _ _, 0) w w.
Proof. split; [by destruct w|lia]. Qed.

Lemma pays_trans f g w1 w2 w3 : pays f w1 w2 → pays g w2 w3 → pays (λ a x, f a x + g a x) w1 w3.
Proof.
  intros [E1 H1] [E2 H2]. split; [rewrite E2, E1; by destruct w1|].
  intros a x. rewrite H2, H1. lia.
Qed.

Lemma pays_ext f g w w' : (∀ a x, f a x = g a x) → pays f w w' → pays g w w'.
Proof. intros Hfg [E Hb]. split; [done|]. intros a x. by rewrite Hb, Hfg. Qed.

Lemma transfer_from_pays asset from to amount w w' :
  on_ledger (transfer_from asset from to amount) w = (Ok tt, w') →
  pays (λ a x, moved asset to amount a x - moved asset from amount a x) w w'.
Proof.
  intros Hr. unfold on_ledger, transfer_from in Hr. run.
  match goal with Hc : checked_transfer _ _ _ _ _ = _ |- _ => unfold checked_transfer in Hc end.
  repeat case_match; simplify_eq. match goal with u : unit |- _ => destruct u end.
  split; [done|]. intros b y.
  match goal with Hc : currency_transfer _ _ _ _ _ = _ |- _ =>
    apply transfer_spec in Hc as [_ Hb] end.
  simpl. rewrite Hb. lia.
Qed.

Lemma ensure_registered_ok account w w' :
  ensure_account_registered account w = (Ok tt, w') → w' = w.
Proof. intros Hr. unfold ensure_account_registered in Hr. by run. Qed.

Lemma lock_pays account id asset amount w w' :
  lock_liquidity account id asset amount w = (Ok tt, w') →
  pays (λ a x, moved asset (tech_account id) (inner amount) a x
             - moved asset account (inner amount) a x) w w'.
Proof.
  intros Hr. unfold lock_liquidity, transfer_in in Hr. apply M_bind_ok in Hr as ([] & w1 & Hw & Hr).
  apply ensure_registered_ok in Hw as ->. by apply transfer_from_pays.
Qed.

Lemma transfer_out_pays account id asset amount w w' :
  transfer_out asset (tech_account id) account amount w = (Ok tt, w') →
  pays (λ a x, moved asset account amount a x - moved asset (tech_account id) amount a x) w w'.
Proof.
  intros Hr. unfold transfer_out in Hr. apply M_bind_ok in Hr as ([] & w1 & Hw & Hr).
  apply ensure_registered_ok in Hw as ->. by apply transfer_from_pays.
Qed.

(** A loop of payments adds up. *)
Lemma for_each_pays {A} (xs : list A) (body : A → M (World D L) DispatchError unit)
    (f : A → AssetId → AccountId → Z) w w' :
  (∀ y w1 w2, body y w1 = (Ok tt, w2) → pays (f y) w1 w2) →
  for_each xs body w = (Ok tt, w') → pays (λ a x, sum_by (λ y, f y a x) xs) w w'.
Proof.
  intros Hb. revert w. induction xs as [|y xs IH]; intros w; simpl.
  - rewrite M_ret_ok. intros [_ ->]. apply pays_refl.
  - rewrite M_bind_ok. intros ([] & w1 & Hy & Hr). eapply pays_trans; eauto.
Qed.

Definition at_account x y (v : Z) : Z := if bool_decide (x = y) then v else 0.

Definition locked p a x : Z :=
  at_account x (tech_account (Payment.order_book_id p)) (total (Payment.to_lock p) a)
  - credit (Payment.to_lock p) a x.
Definition unlocked p a x : Z :=
  credit (Payment.to_unlock p) a x
  - at_account x (tech_account (Payment.order_book_id p)) (total (Payment.to_unlock p) a).
Definition settle p a x : Z := locked p a x + unlocked p a x.

Lemma moved_split asset y v a x :
  moved asset y v a x = (if bool_decide (asset = a) then (if bool_decide (y = x) then v else 0) else 0).
Proof. unfold moved. repeat case_bool_decide; naive_solver. Qed.

(** What one asset of a payment map moves: to the accounts, from the account [y]. *)
Definition flow (y : AccountId) (q : AssetId * BTreeMap AccountId OrderVolume) a x : Z :=
  if bool_decide (fst q = a) then account_credit x (snd q) - at_account x y (account_total (snd q))
  else 0.

Lemma sum_moved asset y (accs : BTreeMap AccountId OrderVolume) a x :
  sum_by (λ q, moved asset (fst q) (inner (snd q)) a x
             - moved asset y (inner (snd q)) a x) accs = flow y (asset, accs) a x.
Proof.
  unfold flow, account_credit, account_total, at_account.
  induction accs as [|[z v] accs IH]; simpl; [by repeat case_bool_decide|].
  rewrite IH, !moved_split. simpl. repeat case_bool_decide; naive_solver lia.
Qed.

Lemma sum_flow (m : BTreeMap AssetId (BTreeMap AccountId OrderVolume)) y a x :
  sum_by (λ q, flow y q a x) m = credit m a x - at_account x y (total m a).
Proof.
  unfold flow, credit, total, of_asset, at_account.
  induction m as [|[z v] m IH]; simpl; [by case_bool_decide|].
  rewrite IH. repeat case_bool_decide; lia.
Qed.

Lemma sum_by_opp {A} (f : A → Z) l : sum_by (λ q, - f q) l = - sum_by f l.
Proof. induction l as [|q l IH]; simpl; lia. Qed.

Lemma lock_settles p w w' : lock p w = (Ok tt, w') → pays (locked p) w w'.
Proof.
  intros Hr. set (y := tech_account (Payment.order_book_id p)).
  apply (for_each_pays _ _ (λ q a x, - flow y q a x)) in Hr.
  - revert Hr. apply pays_ext. intros a x. rewrite sum_by_opp, sum_flow. unfold locked, y. lia.
  - intros [asset accs] w1 w2 Hb.
    apply (for_each_pays _ _ (λ q a x, moved asset y (inner (snd q)) a x
             - moved asset (fst q) (inner (snd q)) a x)) in Hb.
    + revert Hb. apply pays_ext. intros a x. rewrite <- sum_moved, <- sum_by_opp.
      apply sum_by_ext. lia.
    + intros [z v] w3 w4. apply lock_pays.
Qed.

Lemma unlock_settles p w w' : unlock p w = (Ok tt, w') → pays (unlocked p) w w'.
Proof.
  intros Hr. set (y := tech_account (Payment.order_book_id p)).
  apply (for_each_pays _ _ (λ q, flow y q)) in Hr.
  - revert Hr. apply pays_ext. intros a x. apply sum_flow.
  - intros [asset accs] w1 w2 Hb.
    apply (for_each_pays _ _ (λ q a x, moved asset (fst q) (inner (snd q)) a x
             - moved asset y (inner (snd q)) a x)) in Hb.
    + revert Hb. apply pays_ext. intros a x. apply sum_moved.
    + intros [z v] w3 w4. apply transfer_out_pays.
Qed.

Lemma execute_all_settles p w w' : execute_all p w = (Ok tt, w') → pays (settle p) w w'.
Proof.
  intros Hr. apply M_bind_ok in Hr as ([] & w1 & Hl & Hu).
  eapply pays_trans; [by apply lock_settles|by apply unlock_settles].
Qed.
End settle.
