(* ===== verification/SampleLedger.v ===== *)
(** * A ledger for the examples

    An instance of the currencies with its laws, and accounts for the order
    books: even numbers, so that odd accounts are users. *)

From S2P Require Import Prelude BTreeMap FixedPoint Units OrderTypes DataLayer StorageProps World.
From S2P Require Import Payments.

Abbreviation Ledger := (gmap (AssetId * AccountId) Balance) (only parsing).

Definition ledger_balance (l : Ledger) (a : AssetId) (x : AccountId) : Balance :=
  default 0 (l !! (a, x)).

Definition ledger_add (a : AssetId) (x : AccountId) (v : Z) (l : Ledger) : Ledger :=
  <[(a, x) := ledger_balance l a x + v]> l.

Definition NoFunds : DispatchError := ExternalError 2.

Definition ledger_transfer (a : AssetId) (from to : AccountId) (amount : Balance)
    : M Ledger DispatchError unit :=
  l ← get_state;
  _ ← ensure (amount <=? ledger_balance l a from) NoFunds;
  put_state (ledger_add a to amount (ledger_add a from (- amount) l)).

#[export] Instance sample_currency : MultiCurrency Ledger := {|
  free_balance := ledger_balance;
  currency_transfer := ledger_transfer;
  check_permission := λ _ _ _ _, Ok tt;
  asset_exists := λ _ _, true
|}.

Lemma ledger_balance_add l a x v a' x' :
  ledger_balance (ledger_add a x v l) a' x' = ledger_balance l a' x' + moved a x v a' x'.
Proof.
  unfold ledger_balance at 1, ledger_add, moved. case_bool_decide as E.
  - destruct E as [-> ->]. by rewrite lookup_insert_eq.
  - rewrite lookup_insert_ne by naive_solver. unfold ledger_balance. lia.
Qed.

#[export] Instance sample_currency_laws : MultiCurrencyLaws Ledger.
Proof.
  split; intros asset from to amount l.
  - intros l' Hr. unfold currency_transfer in Hr. cbn in Hr. unfold ledger_transfer in Hr. run. zbool.
    split; [done|]. intros a y. cbn.
    rewrite !ledger_balance_add. unfold moved. case_bool_decide; case_bool_decide; lia.
  - intros e l' Hr. cbn in Hr. unfold ledger_transfer in Hr. revert Hr. exec.
    destruct (_ <=? _); [done|]. by intros [= _ <-].
Qed.

#[export] Instance sample_accounts : TechAccounts := {|
  tech_account b := N.double (Npos (encode b))
|}.

Lemma sample_accounts_inj b b' : tech_account b = tech_account b' → b = b'.
Proof. cbn. intros E. apply (inj encode). by injection E. Qed.

Lemma odd_user x : N.odd x = true → ∀ b, x ≠ tech_account b.
Proof. intros Hx b ->. done. Qed.

(** A world with no orders: account 7 holds 1000 of asset 0, account 9 holds
    1000 of asset 1, and the book of the examples has its account. *)
Definition sample_world : World Storage Ledger :=
  mkWorld empty_storage
    (<[(0%N, 7%N) := 1000 * 10 ^ 18]> (<[(1%N, 9%N) := 1000 * 10 ^ 18]> ∅))
    {[ tech_account Samples.book := Samples.book ]} ∅ [].
