(* ===== verification/OrderBook.v ===== *)
(** * The order book ([pallets/order-book/src/order_book.rs])

    One definition per method.  The methods are written over any data layer
    [D] and any currencies [L]; those that only read the data are computations
    on [D], those that apply a change are computations on the [World].

    The step and the tick of an order book are non-zero (the pallet verifies it
    when it registers or updates a book), so the divisions and remainders by
    them, which would panic otherwise, are those of [Z]. *)

From S2P Require Import Prelude BTreeMap FixedPoint Units OrderTypes SwapTypes DataLayer World.

Module OrderBook.

Record t := mk {
  order_book_id : OrderBookId;
  status : OrderBookStatus;
  last_order_id : OrderId;
  tick_size : OrderPrice;
  step_lot_size : OrderVolume;
  min_lot_size : OrderVolume;
  max_lot_size : OrderVolume;
  tech_status : OrderBookTechStatus
}.

Definition new (id : OrderBookId) (tick_size : OrderPrice)
    (step_lot_size min_lot_size max_lot_size : OrderVolume) : t :=
  mk id Trade 0 tick_size step_lot_size min_lot_size max_lot_size Ready.

(** [next_order_id]: the id and the updated book ([OrderId] is [u128]). *)
Definition next_order_id (self : t) : OrderId * t :=
  let id := sat_add u128_max (last_order_id self) 1 in
  (id, mk (order_book_id self) (status self) id (tick_size self) (step_lot_size self)
         (min_lot_size self) (max_lot_size self) (tech_status self)).

(** ** Pure parts *)

Definition is_none {A} (o : option A) : bool := match o with None => true | Some _ => false end.

Definition get_direction (self : t) (input_asset_id output_asset_id : AssetId)
    : result DispatchError PriceVariant :=
  let id := order_book_id self in
  if bool_decide (base id = output_asset_id) && bool_decide (quote id = input_asset_id)
  then mret Buy
  else if bool_decide (base id = input_asset_id) && bool_decide (quote id = output_asset_id)
  then mret Sell
  else mthrow (OrderBookError InvalidAsset).

Definition align_amount (self : t) (amount : OrderVolume) : OrderVolume :=
  let steps := BalanceUnit.balance amount / BalanceUnit.balance (step_lot_size self) in
  let aligned := sat_mul u128_max steps (BalanceUnit.balance (step_lot_size self)) in
  BalanceUnit.set amount aligned.

Definition ensure_limit_order_valid {Cfg : Config} (self : t) (limit_order : LimitOrder.t)
    : result DispatchError unit :=
  _ ← LimitOrder.ensure_valid limit_order;
  _ ← ensure (BalanceUnit.balance (LimitOrder.price limit_order)
                mod BalanceUnit.balance (tick_size self) =? 0)
        (OrderBookError InvalidLimitOrderPrice);
  _ ← ensure (BalanceUnit.le (min_lot_size self) (LimitOrder.amount limit_order)
              && BalanceUnit.le (LimitOrder.amount limit_order) (max_lot_size self))
        (OrderBookError InvalidOrderAmount);
  _ ← ensure (BalanceUnit.balance (LimitOrder.amount limit_order)
                mod BalanceUnit.balance (step_lot_size self) =? 0)
        (OrderBookError InvalidOrderAmount);
  mret tt.

Definition ensure_market_order_valid (self : t) (market_order : MarketOrder.t)
    : result DispatchError unit :=
  _ ← MarketOrder.ensure_valid market_order;
  _ ← ensure (bool_decide (MarketOrder.order_book_id market_order = order_book_id self))
        (OrderBookError InvalidOrderBookId);
  _ ← ensure (BalanceUnit.le (min_lot_size self) (MarketOrder.amount market_order)
              && BalanceUnit.le (MarketOrder.amount market_order) (max_lot_size self))
        (OrderBookError InvalidOrderAmount);
  _ ← ensure (BalanceUnit.balance (MarketOrder.amount market_order)
                mod BalanceUnit.balance (step_lot_size self) =? 0)
        (OrderBookError InvalidOrderAmount);
  mret tt.

(** The change a limit order that does not cross the spread makes: its owner
    locks what a taker would receive. *)
Definition calculate_limit_order_impact (self : t) (limit_order : LimitOrder.t)
    : result DispatchError MarketChange.t :=
  lock_amount ← LimitOrder.deal_amount limit_order Taker None;
  let lock_asset := OrderAmount.associated_asset lock_amount (order_book_id self) in
  let payment :=
    Payment.mk (order_book_id self)
      (Payment.add_entry lock_asset (LimitOrder.owner limit_order)
         (OrderAmount.value lock_amount) []) [] in
  mret (MarketChange.mk None None (Some lock_amount) None
          [(LimitOrder.id limit_order, limit_order)] [] [] [] [] payment false).

Definition calculate_cancellation_limit_order_impact (self : t) (limit_order : LimitOrder.t)
    (reason : CancelReason) (ignore_unschedule_error : bool)
    : result DispatchError MarketChange.t :=
  unlock_amount ← LimitOrder.deal_amount limit_order Taker None;
  let unlock_asset := OrderAmount.associated_asset unlock_amount (order_book_id self) in
  let payment :=
    Payment.mk (order_book_id self) []
      (Payment.add_entry unlock_asset (LimitOrder.owner limit_order)
         (OrderAmount.value unlock_amount) []) in
  mret (MarketChange.mk None None None (Some unlock_amount)
          [] [] [] [(LimitOrder.id limit_order, (limit_order, reason))] [] payment
          ignore_unschedule_error).

(** The loop of [calculate_cancellation_of_all_limit_orders_impact]: the orders
    to cancel and the funds to unlock. *)
Fixpoint cancellation_loop (self : t) (reason : CancelReason) (limit_orders : list LimitOrder.t)
    (to_cancel : BTreeMap OrderId (LimitOrder.t * CancelReason))
    (to_unlock : BTreeMap AssetId (BTreeMap AccountId OrderVolume))
    : result DispatchError (BTreeMap OrderId (LimitOrder.t * CancelReason)
                            * BTreeMap AssetId (BTreeMap AccountId OrderVolume)) :=
  match limit_orders with
  | [] => mret (to_cancel, to_unlock)
  | limit_order :: limit_orders =>
      unlock_amount ← LimitOrder.deal_amount limit_order Taker None;
      let unlock_asset := OrderAmount.associated_asset unlock_amount (order_book_id self) in
      cancellation_loop self reason limit_orders
        (bt_insert (LimitOrder.id limit_order) (limit_order, reason) to_cancel)
        (Payment.add_entry unlock_asset (LimitOrder.owner limit_order)
           (OrderAmount.value unlock_amount) to_unlock)
  end.

(** The loop of [calculate_align_limit_orders_impact]. *)
Fixpoint align_loop (self : t) (limit_orders : list LimitOrder.t)
    (to_cancel : BTreeMap OrderId (LimitOrder.t * CancelReason))
    (to_force_update : BTreeMap OrderId LimitOrder.t)
    (to_unlock : BTreeMap AssetId (BTreeMap AccountId OrderVolume))
    : result DispatchError (BTreeMap OrderId (LimitOrder.t * CancelReason)
                            * BTreeMap OrderId LimitOrder.t
                            * BTreeMap AssetId (BTreeMap AccountId OrderVolume)) :=
  match limit_orders with
  | [] => mret (to_cancel, to_force_update, to_unlock)
  | limit_order :: limit_orders =>
      if negb (BalanceUnit.balance (LimitOrder.amount limit_order)
                 mod BalanceUnit.balance (step_lot_size self) =? 0) then
        '(limit_order, refund, to_cancel, to_force_update) ←
          (if BalanceUnit.lt (LimitOrder.amount limit_order) (step_lot_size self) then
             mret (limit_order, LimitOrder.amount limit_order,
                   bt_insert (LimitOrder.id limit_order) (limit_order, Aligned) to_cancel,
                   to_force_update)
           else
             let amount := align_amount self (LimitOrder.amount limit_order) in
             dust ← ok_or (BalanceUnit.checked_sub (LimitOrder.amount limit_order) amount)
                      (OrderBookError AmountCalculationFailed);
             let limit_order := LimitOrder.set_amount limit_order amount in
             mret (limit_order, dust, to_cancel,
                   bt_insert (LimitOrder.id limit_order) limit_order to_force_update));
        refund ← LimitOrder.deal_amount limit_order Taker (Some refund);
        align_loop self limit_orders to_cancel to_force_update
          (Payment.add_entry (OrderAmount.associated_asset refund (order_book_id self))
             (LimitOrder.owner limit_order) (OrderAmount.value refund) to_unlock)
      else align_loop self limit_orders to_cancel to_force_update to_unlock
  end.

Definition calculate_align_limit_orders_impact (self : t) (limit_orders : list LimitOrder.t)
    : result DispatchError MarketChange.t :=
  '(to_cancel, to_force_update, to_unlock) ← align_loop self limit_orders [] [] [];
  mret (MarketChange.mk None None None None [] [] [] to_cancel to_force_update
          (Payment.mk (order_book_id self) [] to_unlock) false).

(** The loop of [sum_market]: the volumes counted and whether the target is
    reached. *)
Fixpoint sum_market_loop (self : t) (target_amount : option OrderAmount.t)
    (market_data : list (OrderPrice * OrderVolume))
    (market_base_volume market_quote_volume : OrderVolume)
    : result DispatchError (OrderVolume * OrderVolume * bool) :=
  match market_data with
  | [] => mret (market_base_volume, market_quote_volume, false)
  | (price, base_volume) :: market_data =>
      let err := OrderBookError AmountCalculationFailed in
      quote_volume ← ok_or (BalanceUnit.checked_mul price base_volume) err;
      let finish (delta : OrderVolume) : result DispatchError (OrderVolume * OrderVolume * bool) :=
        base ← ok_or (BalanceUnit.checked_add market_base_volume delta) err;
        delta_quote ← ok_or (BalanceUnit.checked_mul price delta) err;
        quote ← ok_or (BalanceUnit.checked_add market_quote_volume delta_quote) err;
        mret (base, quote, true) in
      let continue : result DispatchError (OrderVolume * OrderVolume * bool) :=
        base ← ok_or (BalanceUnit.checked_add market_base_volume base_volume) err;
        quote ← ok_or (BalanceUnit.checked_add market_quote_volume quote_volume) err;
        sum_market_loop self target_amount market_data base quote in
      match target_amount with
      | Some (OrderAmount.Base base_target) =>
          sum ← ok_or (BalanceUnit.checked_add market_base_volume base_volume) err;
          if BalanceUnit.ge sum base_target then
            delta ← ok_or (BalanceUnit.checked_sub base_target market_base_volume) err;
            finish (align_amount self delta)
          else continue
      | Some (OrderAmount.Quote quote_target) =>
          sum ← ok_or (BalanceUnit.checked_add market_quote_volume quote_volume) err;
          if BalanceUnit.ge sum quote_target then
            delta ← ok_or (BalanceUnit.checked_sub quote_target market_quote_volume) err;
            delta ← ok_or (BalanceUnit.checked_div delta price) err;
            finish (align_amount self delta)
          else continue
      | None => continue
      end
  end.

Definition sum_market (self : t) (market_data : list (OrderPrice * OrderVolume))
    (target_amount : option OrderAmount.t) (filled_target : bool)
    : result DispatchError (OrderAmount.t * OrderAmount.t) :=
  '(base, quote, enough_liquidity) ←
    sum_market_loop self target_amount market_data BalanceUnit.zero BalanceUnit.zero;
  _ ← ensure (is_none target_amount || enough_liquidity || negb filled_target)
        (OrderBookError NotEnoughLiquidityInOrderBook);
  mret (OrderAmount.Base base, OrderAmount.Quote quote).

(** [calculate_market_depth_volume_to_price]: the volume up to the price, and
    what remains of the amount. *)
Fixpoint depth_volume_loop (stop : comparison) (price : OrderPrice)
    (market_data : list (OrderPrice * OrderVolume)) (market_amount amount : OrderVolume)
    : OrderVolume * OrderVolume :=
  match market_data with
  | [] => (market_amount, amount)
  | (market_price, volume) :: market_data =>
      if bool_decide (cmp market_price price = stop) then (market_amount, amount) else
      let '(market_amount, amount) :=
        if BalanceUnit.ge amount volume
        then (BalanceUnit.saturating_add market_amount volume,
              BalanceUnit.saturating_sub amount volume)
        else (BalanceUnit.saturating_add market_amount amount, BalanceUnit.zero) in
      if BalanceUnit.is_zero amount then (market_amount, amount)
      else depth_volume_loop stop price market_data market_amount amount
  end.

Definition calculate_market_depth_volume_to_price (side : PriceVariant) (price : OrderPrice)
    (amount : OrderVolume) (market_data : list (OrderPrice * OrderVolume))
    : OrderVolume * OrderVolume :=
  let stop := match side with Buy => Lt | Sell => Gt end in
  depth_volume_loop stop price market_data BalanceUnit.zero amount.

(** The loop of [get_market_depth] under a volume limit. *)
Fixpoint market_depth_loop (volume_limit : OrderAmount.t)
    (market_data : list (OrderPrice * OrderVolume)) (limit : OrderVolume)
    : list (OrderPrice * OrderVolume) :=
  match market_data with
  | [] => []
  | (price, volume) :: market_data =>
      let limit :=
        match volume_limit with
        | OrderAmount.Base _ => BalanceUnit.saturating_sub limit volume
        | OrderAmount.Quote _ =>
            BalanceUnit.saturating_sub limit (BalanceUnit.saturating_mul volume price)
        end in
      (price, volume) ::
        if BalanceUnit.is_zero limit then [] else market_depth_loop volume_limit market_data limit
  end.

Definition get_market_depth (volume_limit : option OrderAmount.t)
    (market_data : list (OrderPrice * OrderVolume)) : list (OrderPrice * OrderVolume) :=
  match volume_limit with
  | Some volume_limit =>
      let limit := OrderAmount.value volume_limit in
      if BalanceUnit.is_zero limit then [] else market_depth_loop volume_limit market_data limit
  | None => market_data
  end.

(** ** Parts that read the data *)

Section data.
Context {D : Type} {DL : DataLayer D}.

Definition best_bid (self : t) : M D DispatchError (option (OrderPrice * OrderVolume)) :=
  DataLayer.best_bid (order_book_id self).

Definition best_ask (self : t) : M D DispatchError (option (OrderPrice * OrderVolume)) :=
  DataLayer.best_ask (order_book_id self).

(** The side of the market a deal in the direction meets, best price first. *)
Definition market_data (self : t) (side : PriceVariant)
    : M D DispatchError (list (OrderPrice * OrderVolume)) :=
  match side with
  | Sell => get_aggregated_asks (order_book_id self)
  | Buy => bids ← get_aggregated_bids (order_book_id self); mret (reverse bids)
  end.

Definition calculate_cancellation_of_all_limit_orders_impact (self : t) (reason : CancelReason)
    : M D DispatchError MarketChange.t :=
  limit_orders ← get_all_limit_orders (order_book_id self);
  '(to_cancel, to_unlock) ← lift (cancellation_loop self reason limit_orders [] []);
  mret (MarketChange.mk None None None None [] [] [] to_cancel []
          (Payment.mk (order_book_id self) [] to_unlock) false).

(** The variables of the loops of [calculate_market_impact]. *)
Record Impact := mkImpact {
  remaining_amount : OrderVolume;
  taker_amount : OrderVolume;
  maker_amount : OrderVolume;
  limit_orders_to_part_execute : BTreeMap OrderId (LimitOrder.t * OrderAmount.t);
  limit_orders_to_full_execute : BTreeMap OrderId LimitOrder.t;
  payment_to_unlock : BTreeMap AssetId (BTreeMap AccountId OrderVolume)
}.

(** The body of the inner loop: one limit order. *)
Definition impact_step (maker_out_asset : AssetId) (limit_order : LimitOrder.t) (i : Impact)
    : result DispatchError Impact :=
  let err := OrderBookError AmountCalculationFailed in
  if BalanceUnit.ge (remaining_amount i) (LimitOrder.amount limit_order) then
    remaining ← ok_or (BalanceUnit.checked_sub (remaining_amount i)
                         (LimitOrder.amount limit_order)) err;
    taker_payment ← LimitOrder.deal_amount limit_order Taker None;
    taker ← ok_or (BalanceUnit.checked_add (taker_amount i) (OrderAmount.value taker_payment)) err;
    maker_payment ← LimitOrder.deal_amount limit_order Maker None;
    let maker_payment := OrderAmount.value maker_payment in
    maker ← ok_or (BalanceUnit.checked_add (maker_amount i) maker_payment) err;
    mret (mkImpact remaining taker maker (limit_orders_to_part_execute i)
            (bt_insert (LimitOrder.id limit_order) limit_order (limit_orders_to_full_execute i))
            (Payment.add_entry maker_out_asset (LimitOrder.owner limit_order) maker_payment
               (payment_to_unlock i)))
  else
    taker_payment ← LimitOrder.deal_amount limit_order Taker (Some (remaining_amount i));
    taker ← ok_or (BalanceUnit.checked_add (taker_amount i) (OrderAmount.value taker_payment)) err;
    maker_payment ← LimitOrder.deal_amount limit_order Maker (Some (remaining_amount i));
    let maker_payment := OrderAmount.value maker_payment in
    maker ← ok_or (BalanceUnit.checked_add (maker_amount i) maker_payment) err;
    amount ← ok_or (BalanceUnit.checked_sub (LimitOrder.amount limit_order)
                      (remaining_amount i)) err;
    let limit_order' := LimitOrder.set_amount limit_order amount in
    mret (mkImpact BalanceUnit.zero taker maker
            (bt_insert (LimitOrder.id limit_order)
               (limit_order', OrderAmount.Base (remaining_amount i))
               (limit_orders_to_part_execute i))
            (limit_orders_to_full_execute i)
            (Payment.add_entry maker_out_asset (LimitOrder.owner limit_order) maker_payment
               (payment_to_unlock i))).

(** The inner loop: it stops as soon as nothing remains. *)
Fixpoint level_loop (self : t) (maker_out_asset : AssetId) (price_level : list OrderId)
    (i : Impact) : M D DispatchError Impact :=
  match price_level with
  | [] => mret i
  | limit_order_id :: price_level =>
      limit_order ← get_limit_order (order_book_id self) limit_order_id;
      i ← lift (impact_step maker_out_asset limit_order i);
      if BalanceUnit.is_zero (remaining_amount i) then mret i
      else level_loop self maker_out_asset price_level i
  end.

(** The outer loop over the prices. *)
Fixpoint market_loop (self : t) (direction : PriceVariant) (maker_out_asset : AssetId)
    (market_data : list (OrderPrice * OrderVolume)) (i : Impact) : M D DispatchError Impact :=
  match market_data with
  | [] => mret i
  | (price, _) :: market_data =>
      level ← get_limit_orders_by_price (order_book_id self) (switched direction) price;
      price_level ← ok_or level (OrderBookError NotEnoughLiquidityInOrderBook);
      i ← level_loop self maker_out_asset price_level i;
      if BalanceUnit.is_zero (remaining_amount i) then mret i
      else market_loop self direction maker_out_asset market_data i
  end.

Definition calculate_market_impact (self : t) (direction : PriceVariant)
    (taker receiver : AccountId) (taker_base_amount : OrderVolume)
    (market_data : list (OrderPrice * OrderVolume)) : M D DispatchError MarketChange.t :=
  let id := order_book_id self in
  let '(maker_out_asset, taker_out_asset) :=
    match direction with Buy => (quote id, base id) | Sell => (base id, quote id) end in
  i ← market_loop self direction maker_out_asset market_data
        (mkImpact taker_base_amount BalanceUnit.zero BalanceUnit.zero [] [] []);
  _ ← ensure (BalanceUnit.is_zero (remaining_amount i))
        (OrderBookError NotEnoughLiquidityInOrderBook);
  let to_lock := Payment.add_entry maker_out_asset taker (maker_amount i) [] in
  let to_unlock :=
    Payment.add_entry taker_out_asset receiver (taker_amount i) (payment_to_unlock i) in
  let '(deal_input, deal_output) :=
    match direction with
    | Buy => (OrderAmount.Quote (maker_amount i), OrderAmount.Base (taker_amount i))
    | Sell => (OrderAmount.Base (maker_amount i), OrderAmount.Quote (taker_amount i))
    end in
  mret (MarketChange.mk (Some deal_input) (Some deal_output) None (Some deal_output) []
          (limit_orders_to_part_execute i) (limit_orders_to_full_execute i) [] []
          (Payment.mk id to_lock to_unlock) false).

Definition calculate_market_order_impact (self : t) (market_order : MarketOrder.t)
    : M D DispatchError MarketChange.t :=
  let receiver := default (MarketOrder.owner market_order) (MarketOrder.to market_order) in
  data ← market_data self (switched (MarketOrder.direction market_order));
  calculate_market_impact self (MarketOrder.direction market_order)
    (MarketOrder.owner market_order) receiver (MarketOrder.amount market_order) data.

Definition calculate_deal (self : t) (input_asset_id output_asset_id : AssetId)
    (amount : QuoteAmount) : M D DispatchError DealInfo.t :=
  direction ← lift (get_direction self input_asset_id output_asset_id);
  data ← market_data self (switched direction);
  let target :=
    match amount, direction with
    | WithDesiredInput amount_in, Buy =>
        OrderAmount.Quote (BalanceUnit.copy_divisibility (tick_size self) amount_in)
    | WithDesiredInput amount_in, Sell =>
        OrderAmount.Base (BalanceUnit.copy_divisibility (step_lot_size self) amount_in)
    | WithDesiredOutput amount_out, Buy =>
        OrderAmount.Base (BalanceUnit.copy_divisibility (step_lot_size self) amount_out)
    | WithDesiredOutput amount_out, Sell =>
        OrderAmount.Quote (BalanceUnit.copy_divisibility (tick_size self) amount_out)
    end in
  '(base, quote) ← lift (sum_market self data (Some target) true);
  _ ← ensure (BalanceUnit.gt (OrderAmount.value base) BalanceUnit.zero
              && BalanceUnit.gt (OrderAmount.value quote) BalanceUnit.zero)
        (OrderBookError InvalidOrderAmount);
  let '(input_amount, output_amount) :=
    match direction with Buy => (quote, base) | Sell => (base, quote) end in
  average_price ← ok_or (OrderAmount.average_price input_amount output_amount)
                    (OrderBookError PriceCalculationFailed);
  mret (DealInfo.mk input_asset_id input_amount output_asset_id output_amount average_price
          direction).

Definition market_volume (self : t) (side : PriceVariant) : M D DispatchError OrderVolume :=
  let sum := foldl (λ sum '(_, volume), BalanceUnit.saturating_add sum volume) BalanceUnit.zero in
  match side with
  | Buy => bids ← get_aggregated_bids (order_book_id self); mret (sum bids)
  | Sell => asks ← get_aggregated_asks (order_book_id self); mret (sum asks)
  end.

Definition market_depth (self : t) (side : PriceVariant) (volume_limit : option OrderAmount.t)
    : M D DispatchError (list (OrderPrice * OrderVolume)) :=
  data ← market_data self side;
  mret (get_market_depth volume_limit data).

Definition cross_spread (self : t) (limit_order : LimitOrder.t) : M D DispatchError MarketChange.t :=
  let err := OrderBookError AmountCalculationFailed in
  let side := LimitOrder.side limit_order in
  data ← market_data self (switched side);
  let '(market_amount, limit_amount) :=
    calculate_market_depth_volume_to_price (switched side) (LimitOrder.price limit_order)
      (LimitOrder.amount limit_order) data in
  '(market_amount, limit_amount) ←
    (if BalanceUnit.lt limit_amount (min_lot_size self) then
       market_volume ← market_volume self (switched side);
       rest ← ok_or (BalanceUnit.checked_sub market_volume market_amount) err;
       if BalanceUnit.ge rest limit_amount then
         market_amount ← ok_or (BalanceUnit.checked_add market_amount limit_amount) err;
         mret (market_amount, BalanceUnit.zero)
       else mret (market_amount, BalanceUnit.zero)
     else mret (market_amount, limit_amount));
  market_change ←
    (if negb (BalanceUnit.is_zero market_amount) then
       calculate_market_order_impact self
         (MarketOrder.new (LimitOrder.owner limit_order) side (order_book_id self) market_amount
            None)
     else mret (MarketChange.new (order_book_id self)));
  if negb (BalanceUnit.is_zero limit_amount) then
    limit_change ← lift (calculate_limit_order_impact self
                           (LimitOrder.set_amount limit_order limit_amount));
    ok_or (MarketChange.merge market_change limit_change) err
  else mret market_change.

Definition check_restrictions {Cfg : Config} (self : t) (limit_order : LimitOrder.t)
    : M D DispatchError unit :=
  let id := order_book_id self in
  is_user_orders_full ← is_user_limit_orders_full (LimitOrder.owner limit_order) id;
  _ ← match is_user_orders_full with
      | Some full => ensure (negb full) (OrderBookError UserHasMaxCountOfOpenedOrders)
      | None => mret tt
      end;
  match LimitOrder.side limit_order with
  | Buy =>
      price_full ← is_bid_price_full id (LimitOrder.price limit_order);
      match price_full with
      | Some full => ensure (negb full) (OrderBookError PriceReachedMaxCountOfLimitOrders)
      | None =>
          len ← get_aggregated_bids_len id;
          ensure (default 0%nat len <? MaxSidePriceCount)%nat
            (OrderBookError OrderBookReachedMaxCountOfPricesForSide)
      end
  | Sell =>
      price_full ← is_ask_price_full id (LimitOrder.price limit_order);
      match price_full with
      | Some full => ensure (negb full) (OrderBookError PriceReachedMaxCountOfLimitOrders)
      | None =>
          len ← get_aggregated_asks_len id;
          ensure (default 0%nat len <? MaxSidePriceCount)%nat
            (OrderBookError OrderBookReachedMaxCountOfPricesForSide)
      end
  end.
End data.

(** ** Operations *)

Section operations.
Context {Cfg : Config} {D : Type} {DL : DataLayer D} {L : Type} `{MultiCurrency L}
  {TA : TechAccounts}.

Abbreviation W := (M (World D L) DispatchError) (only parsing).

(** [let unschedule_result = unschedule_expiration(..);
     if !ignore_unschedule_error { unschedule_result?; }]. *)
Definition unschedule (ignore_unschedule_error : bool) (self : t) (limit_order : LimitOrder.t)
    : W unit := λ w,
  match unschedule_expiration (LimitOrder.expires_at limit_order) (order_book_id self)
          (LimitOrder.id limit_order) w with
  | (Err e, w') => if ignore_unschedule_error then (Ok tt, w') else (Err e, w')
  | (Ok _, w') => (Ok tt, w')
  end.

Definition apply_cancel (self : t) (ignore : bool) (limit_order : LimitOrder.t)
    (reason : CancelReason) : W unit :=
  let id := order_book_id self in
  _ ← on_data (delete_limit_order id (LimitOrder.id limit_order));
  _ ← unschedule ignore self limit_order;
  emit_event id
    (LimitOrderCanceled (LimitOrder.id limit_order) (LimitOrder.owner limit_order) reason).

Definition apply_full_execute (self : t) (ignore : bool) (limit_order : LimitOrder.t) : W unit :=
  let id := order_book_id self in
  _ ← on_data (delete_limit_order id (LimitOrder.id limit_order));
  _ ← unschedule ignore self limit_order;
  _ ← emit_event id
        (LimitOrderExecuted (LimitOrder.id limit_order) (LimitOrder.owner limit_order)
           (LimitOrder.side limit_order) (LimitOrder.price limit_order)
           (OrderAmount.Base (LimitOrder.amount limit_order)));
  emit_event id (LimitOrderFilled (LimitOrder.id limit_order) (LimitOrder.owner limit_order)).

Definition apply_part_execute (self : t) (limit_order : LimitOrder.t)
    (executed_amount : OrderAmount.t) : W unit :=
  let id := order_book_id self in
  _ ← on_data (update_limit_order_amount id (LimitOrder.id limit_order)
                 (LimitOrder.amount limit_order));
  emit_event id
    (LimitOrderExecuted (LimitOrder.id limit_order) (LimitOrder.owner limit_order)
       (LimitOrder.side limit_order) (LimitOrder.price limit_order) executed_amount).

Definition apply_force_update (self : t) (limit_order : LimitOrder.t) : W unit :=
  let id := order_book_id self in
  _ ← on_data (update_limit_order_amount id (LimitOrder.id limit_order)
                 (LimitOrder.amount limit_order));
  emit_event id
    (LimitOrderUpdated (LimitOrder.id limit_order) (LimitOrder.owner limit_order)
       (LimitOrder.amount limit_order)).

Definition apply_place (self : t) (limit_order : LimitOrder.t) : W unit :=
  let id := order_book_id self in
  _ ← on_data (insert_limit_order id limit_order);
  _ ← schedule_expiration (LimitOrder.expires_at limit_order) id (LimitOrder.id limit_order);
  emit_event id
    (LimitOrderPlaced (LimitOrder.id limit_order) (LimitOrder.owner limit_order)
       (LimitOrder.side limit_order) (LimitOrder.price limit_order)
       (LimitOrder.amount limit_order) (LimitOrder.lifespan limit_order)).

Definition apply_market_change (self : t) (c : MarketChange.t) : W unit :=
  let ignore := MarketChange.ignore_unschedule_error c in
  _ ← execute_all (MarketChange.payment c);
  _ ← for_each (bt_values (MarketChange.to_cancel c))
        (λ '(limit_order, reason), apply_cancel self ignore limit_order reason);
  _ ← for_each (bt_values (MarketChange.to_full_execute c)) (apply_full_execute self ignore);
  _ ← for_each (bt_values (MarketChange.to_part_execute c))
        (λ '(limit_order, executed_amount), apply_part_execute self limit_order executed_amount);
  _ ← for_each (bt_values (MarketChange.to_force_update c)) (apply_force_update self);
  for_each (bt_values (MarketChange.to_place c)) (apply_place self).

(** Whether the order crosses the spread. *)
Definition crosses (self : t) (limit_order : LimitOrder.t) : M D DispatchError bool :=
  match LimitOrder.side limit_order with
  | Buy =>
      best ← best_ask self;
      mret (match best with
            | Some (best_ask_price, _) => BalanceUnit.ge (LimitOrder.price limit_order) best_ask_price
            | None => false
            end)
  | Sell =>
      best ← best_bid self;
      mret (match best with
            | Some (best_bid_price, _) => BalanceUnit.le (LimitOrder.price limit_order) best_bid_price
            | None => false
            end)
  end.

Definition is_trade (s : OrderBookStatus) : bool := match s with Trade => true | _ => false end.

(** The direction of a market order, from what it gives. *)
Definition input_direction (input : OrderAmount.t) : PriceVariant :=
  if OrderAmount.is_quote input then Buy else Sell.

(** The last part of [place_limit_order]: the event that tells what became of
    the order. *)
Definition report_placement (self : t) (order_id : OrderId) (owner_id : AccountId)
    (c : MarketChange.t) : W unit :=
  let id := order_book_id self in
  match MarketChange.market_input c, MarketChange.deal_input c with
  | None, Some market_order_input =>
      match MarketChange.deal_base_amount c, MarketChange.average_deal_price c with
      | Some deal_amount, Some average_price =>
          emit_event id (LimitOrderConvertedToMarketOrder owner_id
            (input_direction market_order_input) (OrderAmount.Base deal_amount) average_price)
      | _, _ => mthrow (OrderBookError PriceCalculationFailed)
      end
  | Some _, None => mret tt
  | Some _, Some market_order_input =>
      match MarketChange.deal_base_amount c, MarketChange.average_deal_price c with
      | Some deal_amount, Some average_price =>
          emit_event id (LimitOrderIsSplitIntoMarketOrderAndLimitOrder owner_id
            (input_direction market_order_input) (OrderAmount.Base deal_amount) average_price
            order_id)
      | _, _ => mthrow (OrderBookError PriceCalculationFailed)
      end
  | None, None => mthrow (OrderBookError InvalidOrderAmount)
  end.

(** Returns the count of executed limit orders. *)
Definition place_limit_order (self : t) (limit_order : LimitOrder.t) : W nat :=
  _ ← ensure (match status self with Trade | PlaceAndCancel => true | _ => false end)
        (OrderBookError PlacementOfLimitOrdersIsForbidden);
  _ ← lift (ensure_limit_order_valid self limit_order);
  _ ← on_data (check_restrictions self limit_order);
  crossing ← on_data (crosses self limit_order);
  market_change ←
    (if (crossing : bool) then
       if is_trade (status self) then on_data (cross_spread self limit_order)
       else mthrow (OrderBookError InvalidLimitOrderPrice)
     else lift (calculate_limit_order_impact self limit_order));
  _ ← apply_market_change self market_change;
  _ ← report_placement self (LimitOrder.id limit_order) (LimitOrder.owner limit_order)
        market_change;
  mret (MarketChange.count_of_executed_orders market_change).

Definition cancel_limit_order_unchecked (self : t) (limit_order : LimitOrder.t)
    (reason : CancelReason) (ignore_unschedule_error : bool) : W unit :=
  market_change ←
    lift (calculate_cancellation_limit_order_impact self limit_order reason
            ignore_unschedule_error);
  apply_market_change self market_change.

Definition cancel_limit_order (self : t) (limit_order : LimitOrder.t) : W unit :=
  _ ← ensure (match status self with Trade | PlaceAndCancel | OnlyCancel => true | _ => false end)
        (OrderBookError CancellationOfLimitOrdersIsForbidden);
  cancel_limit_order_unchecked self limit_order Manual false.

(** Returns the count of cancelled orders. *)
Definition cancel_all_limit_orders (self : t) (reason : CancelReason) : W nat :=
  market_change ← on_data (calculate_cancellation_of_all_limit_orders_impact self reason);
  _ ← apply_market_change self market_change;
  mret (length (MarketChange.to_cancel market_change)).

Definition expire_limit_order (self : t) (limit_order : LimitOrder.t) : W unit :=
  cancel_limit_order_unchecked self limit_order Expired true.

(** Returns the input and output amounts and the count of executed limit
    orders. *)
Definition execute_market_order (self : t) (market_order : MarketOrder.t)
    : W (OrderAmount.t * OrderAmount.t * nat) :=
  _ ← ensure (is_trade (status self)) (OrderBookError TradingIsForbidden);
  _ ← lift (ensure_market_order_valid self market_order);
  market_change ← on_data (calculate_market_order_impact self market_order);
  match MarketChange.deal_input market_change, MarketChange.deal_output market_change with
  | Some input, Some output =>
      average_price ← ok_or (MarketChange.average_deal_price market_change)
                        (OrderBookError PriceCalculationFailed);
      _ ← apply_market_change self market_change;
      _ ← emit_event (order_book_id self)
            (MarketOrderExecuted (MarketOrder.owner market_order)
               (MarketOrder.direction market_order)
               (OrderAmount.Base (MarketOrder.amount market_order)) average_price
               (MarketOrder.to market_order));
      mret (input, output, MarketChange.count_of_executed_orders market_change)
  | _, _ => mthrow (OrderBookError PriceCalculationFailed)
  end.

Definition align_limit_orders (self : t) (limit_orders : list LimitOrder.t) : W unit :=
  match limit_orders with
  | [] => mret tt
  | _ =>
      market_change ← lift (calculate_align_limit_orders_impact self limit_orders);
      apply_market_change self market_change
  end.
End operations.

End OrderBook.
