(* ===== verification/Matching.v ===== *)
(** * Matching: price-time priority

    The orders a deal can meet form a [queue]: best price first and, at one
    price, in the order of the price level.  The nested loops of
    [calculate_market_impact] fill the deal from that queue ([fill]), and what
    they execute is the greedy split [take] of it. *)

From S2P Require Import Prelude BTreeMap FixedPoint Units OrderTypes DataLayer StorageProps World.
From S2P Require Import Payments OrderBook.

(** ** Amounts of deals *)

(** The quote amount of [v] at price [p], rounded down. *)
Definition quote_of (p : OrderPrice) (v : OrderVolume) : Z :=
  BalanceUnit.value p * BalanceUnit.value v / BalanceUnit.RATIO.

(** What the book owes to the order (what is locked for it, and what a taker of
    it receives) and what its owner is due when it is taken, for an amount. *)
Definition owed_for (o : LimitOrder.t) (v : OrderVolume) : Z :=
  match LimitOrder.side o with Buy => quote_of (LimitOrder.price o) v | Sell => inner v end.
Definition due_for (o : LimitOrder.t) (v : OrderVolume) : Z :=
  match LimitOrder.side o with Buy => inner v | Sell => quote_of (LimitOrder.price o) v end.

Definition owed_asset (b : OrderBookId) (o : LimitOrder.t) : AssetId :=
  match LimitOrder.side o with Buy => quote b | Sell => base b end.
Definition due_asset (b : OrderBookId) (o : LimitOrder.t) : AssetId :=
  match LimitOrder.side o with Buy => base b | Sell => quote b end.

Definition owed_of (o : LimitOrder.t) : Z := owed_for o (LimitOrder.amount o).
Definition due_of (o : LimitOrder.t) : Z := due_for o (LimitOrder.amount o).

(** A sum that starts from the (indivisible) zero. *)
Definition acc_ok (d : bool) (v : OrderVolume) : Prop := v = BalanceUnit.zero ∨ amount_ok d v.

Lemma acc_add d v x r : acc_ok d v → amount_ok d x → BalanceUnit.checked_add v x = Some r →
  amount_ok d r ∧ inner r = inner v + inner x.
Proof.
  intros Hv [Hd Hw] Hr. assert (BalanceUnit.wf BalanceUnit.zero) by (split; done).
  assert (BalanceUnit.wf v) as Hwv by (destruct Hv as [->|[]]; done).
  apply BalanceUnit.checked_add_iff in Hr as (Hrd & Hrv & Hrw); [|done|done].
  destruct Hv as [->|[Hvd _]]; simpl in *.
  - split; [split; congruence|]. unfold BalanceUnit.value in Hrv. simpl in Hrv.
    rewrite Hrd, Hd in Hrv. destruct d; unfold BalanceUnit.RATIO in *; lia.
  - rewrite Hd, Hvd, orb_diag in Hrd. split; [done|]. unfold BalanceUnit.value in Hrv.
    rewrite Hrd, Hvd, Hd in Hrv. destruct d; unfold BalanceUnit.RATIO in *; lia.
Qed.

Lemma amount_eta d (v : OrderVolume) : amount_ok d v → v = BalanceUnit.mk (inner v) d.
Proof. intros [Hd _]. by apply unit_eta. Qed.

Lemma checked_sub_eq (u v r : OrderVolume) : BalanceUnit.checked_sub u v = Some r →
  BalanceUnit.wf u → BalanceUnit.wf v → BalanceUnit.is_divisible u = BalanceUnit.is_divisible v →
  r = BalanceUnit.mk (inner u - inner v) (BalanceUnit.is_divisible u).
Proof.
  intros Hr Hu Hv Hd. pose proof Hr as (Hrd & Hrv & Hrw)%BalanceUnit.checked_sub_Some; [|done|done].
  rewrite <- Hd, orb_diag in Hrd. rewrite (unit_eta r _ Hrd). f_equal.
  unfold BalanceUnit.value in Hrv. rewrite Hrd, <- Hd in Hrv.
  destruct (BalanceUnit.is_divisible u); unfold BalanceUnit.RATIO in *; lia.
Qed.

Section deals.
Context (divisibility : OrderBookId → bool) (b : OrderBookId).

(** Precision of the amounts of an asset of the book. *)
Definition flag (a : AssetId) : bool := if bool_decide (a = base b) then divisibility b else true.

Lemma quote_of_mul p v r : BalanceUnit.is_divisible p = true → BalanceUnit.wf p → BalanceUnit.wf v →
  BalanceUnit.checked_mul p v = Some r → amount_ok true r ∧ inner r = quote_of p v.
Proof.
  intros Hd Hp Hv (Hrd & Hrv & Hrw)%BalanceUnit.checked_mul_value; [|done|done].
  rewrite Hd in Hrd. simpl in Hrd. split; [done|]. unfold quote_of. rewrite <- Hrv.
  unfold BalanceUnit.value. by rewrite Hrd.
Qed.

(** The amount of a deal with an order, and of which asset. *)
Lemma deal_amount_ok o role v r : base b ≠ quote b → order_ok divisibility b o →
  (∀ v', v = Some v' → amount_ok (divisibility b) v') →
  LimitOrder.deal_amount o role v = Ok r →
  let v' := default (LimitOrder.amount o) v in
  BalanceUnit.value v' ≤ BalanceUnit.value (LimitOrder.amount o) ∧
  amount_ok (flag (OrderAmount.associated_asset r b)) (OrderAmount.value r) ∧
  inner (OrderAmount.value r) = match role with Taker => owed_for o v' | Maker => due_for o v' end ∧
  OrderAmount.associated_asset r b =
    match role with Taker => owed_asset b o | Maker => due_asset b o end.
Proof.
  intros Hbq Ho Hv Hr. unfold LimitOrder.deal_amount in Hr.
  assert (Hf : flag (quote b) = true ∧ flag (base b) = divisibility b).
  { unfold flag. rewrite bool_decide_eq_false_2, bool_decide_eq_true_2; auto. }
  destruct Hf as [Hfq Hfb].
  assert (amount_ok (divisibility b) (default (LimitOrder.amount o) v)) as Hva.
  { destruct v as [v'|]; [by apply Hv|]. split; apply Ho. }
  apply result_bind_ok in Hr as (v' & Hv' & Hr).
  assert (v' = default (LimitOrder.amount o) v ∧
    BalanceUnit.value v' ≤ BalanceUnit.value (LimitOrder.amount o)) as [-> Hle].
  { destruct v as [u|]; run; [|done]. rewrite BalanceUnit.le_value in *. zbool. done. }
  intros u. subst u. split; [done|]. unfold owed_for, due_for, owed_asset, due_asset.
  destruct role, (LimitOrder.side o); run; simpl; rewrite ?Hfq, ?Hfb; try done.
  all: match goal with E : BalanceUnit.checked_mul _ _ = _ |- _ => apply quote_of_mul in E as [??] end.
  all: try done; try apply Ho; apply Hva.
Qed.

Lemma quote_of_nonneg p v : BalanceUnit.wf p → BalanceUnit.wf v → 0 ≤ quote_of p v.
Proof.
  intros Hp Hv. apply Z.div_pos; [|done].
  apply Z.mul_nonneg_nonneg; by apply BalanceUnit.value_nonneg.
Qed.

Lemma owed_for_nonneg o v : order_ok divisibility b o → BalanceUnit.wf v →
  0 ≤ owed_for o v ∧ 0 ≤ due_for o v.
Proof.
  intros Ho Hv. pose proof (quote_of_nonneg _ v (ok_price_wf _ _ _ Ho) Hv).
  unfold owed_for, due_for. destruct Hv as [? _]. destruct (LimitOrder.side o); lia.
Qed.

(** The amount owed is superadditive: splitting an order never makes the book
    owe more. *)
Lemma quote_of_split p v1 v2 v : 0 ≤ BalanceUnit.value p →
  BalanceUnit.value v1 + BalanceUnit.value v2 ≤ BalanceUnit.value v →
  quote_of p v1 + quote_of p v2 ≤ quote_of p v.
Proof.
  intros Hp Hv. unfold quote_of.
  transitivity ((BalanceUnit.value p * BalanceUnit.value v1 + BalanceUnit.value p * BalanceUnit.value v2)
                / BalanceUnit.RATIO).
  - apply Z.div_le_lower_bound; [done|].
    pose proof (Z.mul_div_le (BalanceUnit.value p * BalanceUnit.value v1) BalanceUnit.RATIO ltac:(done)).
    pose proof (Z.mul_div_le (BalanceUnit.value p * BalanceUnit.value v2) BalanceUnit.RATIO ltac:(done)).
    lia.
  - apply Z.div_le_mono; [done|]. nia.
Qed.

Lemma owed_split o v1 v2 : order_ok divisibility b o →
  amount_ok (divisibility b) v1 → amount_ok (divisibility b) v2 →
  inner v1 + inner v2 ≤ inner (LimitOrder.amount o) →
  owed_for o v1 + owed_for o v2 ≤ owed_of o.
Proof.
  intros Ho [H1 _] [H2 _] Hle. unfold owed_of, owed_for.
  destruct (LimitOrder.side o); [|done]. apply quote_of_split.
  - apply BalanceUnit.value_nonneg, Ho.
  - unfold BalanceUnit.value. rewrite H1, H2, (ok_amount_div _ _ _ Ho).
    destruct (divisibility b); [done|]. unfold BalanceUnit.RATIO. lia.
Qed.
End deals.

(** ** The queue and the greedy split *)

Section queue.
Context {Cfg : Config}.

Definition orders_at (s : Storage) (b : OrderBookId) (ids : list OrderId) : list LimitOrder.t :=
  omap (λ i, LimitOrders s !! (b, i)) ids.

(** The price levels of a side, best price first. *)
Definition levels (s : Storage) (b : OrderBookId) (sd : PriceVariant) : MarketSide :=
  match sd with
  | Buy => reverse (default [] (side_agg Buy s !! b))
  | Sell => default [] (side_agg Sell s !! b)
  end.

Definition queue_of (s : Storage) (b : OrderBookId) (sd : PriceVariant)
    (data : list (OrderPrice * OrderVolume)) : list LimitOrder.t :=
  data ≫= λ q, orders_at s b (index (side_orders sd s !! (b, fst q))).

Definition queue (s : Storage) (b : OrderBookId) (sd : PriceVariant) : list LimitOrder.t :=
  queue_of s b sd (levels s b sd).

(** The greedy split of [n] over a queue: the orders taken whole, and the one
    taken in part with the amount taken. *)
Fixpoint take (q : list LimitOrder.t) (n : Z) : list LimitOrder.t * option (LimitOrder.t * Z) :=
  match q with
  | [] => ([], None)
  | o :: q =>
      let a := inner (LimitOrder.amount o) in
      if a <=? n then
        if n - a =? 0 then ([o], None)
        else let '(whole, part) := take q (n - a) in (o :: whole, part)
      else ([], Some (o, n))
  end.

Definition part_amount (part : option (LimitOrder.t * Z)) : Z :=
  match part with Some (_, r) => r | None => 0 end.

Definition volume (q : list LimitOrder.t) : Z := sum_by (λ o, inner (LimitOrder.amount o)) q.

#[local] Arguments volume : simpl never.

Lemma volume_cons o q : volume (o :: q) = inner (LimitOrder.amount o) + volume q.
Proof. done. Qed.

Lemma queue_volume_app q1 q2 : volume (q1 ++ q2) = volume q1 + volume q2.
Proof. apply sum_by_app. Qed.

Lemma queue_of_cons s b sd q data :
  queue_of s b sd (q :: data) =
  orders_at s b (index (side_orders sd s !! (b, fst q))) ++ queue_of s b sd data.
Proof. done. Qed.

Definition positive (q : list LimitOrder.t) : Prop := Forall (λ o, 0 < inner (LimitOrder.amount o)) q.

Lemma queue_volume_nonneg q : positive q → 0 ≤ volume q.
Proof. intros Hq. apply sum_by_nonneg. intros o Ho.
  unfold positive in Hq. rewrite Forall_forall in Hq. specialize (Hq o Ho). lia. Qed.

Lemma take_spec q n : positive q → 0 < n →
  let '(whole, part) := take q n in
  ∃ rest, q = whole ++ rest ∧
    volume whole + part_amount part = Z.min n (volume q) ∧
    match part with
    | Some (o, r) => (∃ rest', rest = o :: rest') ∧ 0 < r < inner (LimitOrder.amount o)
    | None => True
    end.
Proof.
  revert n. induction q as [|o q IH]; intros n Hq Hn; simpl.
  { exists []. split; [done|]. split; [unfold volume; simpl; lia|done]. }
  apply Forall_cons in Hq as [Ho Hq]. pose proof (queue_volume_nonneg q Hq).
  destruct (Z.leb_spec (inner (LimitOrder.amount o)) n) as [Hle|Hle].
  - destruct (Z.eqb_spec (n - inner (LimitOrder.amount o)) 0) as [Hz|Hz].
    + exists q. split; [done|]. split; [|done]. rewrite !volume_cons. unfold volume at 1. simpl. lia.
    + specialize (IH (n - inner (LimitOrder.amount o)) Hq ltac:(lia)).
      destruct (take q _) as [whole part]. destruct IH as (rest & -> & Hsum & Hpart).
      exists rest. split; [done|]. split; [|done]. rewrite !volume_cons. lia.
  - exists (o :: q). split; [done|]. rewrite !volume_cons. unfold volume at 1. simpl.
    split; [lia|]. split; [by eexists|lia].
Qed.

(** ** The loops *)

(** The loops of [calculate_market_impact] over the orders they read. *)
Fixpoint fill (maker_out_asset : AssetId) (q : list LimitOrder.t) (i : OrderBook.Impact)
    : result DispatchError OrderBook.Impact :=
  match q with
  | [] => Ok i
  | o :: q =>
      i ← OrderBook.impact_step maker_out_asset o i;
      if BalanceUnit.is_zero (OrderBook.remaining_amount i) then Ok i else fill maker_out_asset q i
  end.

Lemma fill_app mo q1 q2 i :
  fill mo (q1 ++ q2) i =
  match q1 with
  | [] => fill mo q2 i
  | _ => i ← fill mo q1 i;
         if BalanceUnit.is_zero (OrderBook.remaining_amount i) then Ok i else fill mo q2 i
  end.
Proof.
  revert i. induction q1 as [|o q1 IH]; intros i; [done|]. cbn [fill app].
  destruct (OrderBook.impact_step mo o i) as [i'|e]; [|done]. cbn.
  destruct (BalanceUnit.is_zero _) eqn:Ez; cbn; [by rewrite Ez|].
  rewrite IH. destruct q1; cbn; [by rewrite Ez|done].
Qed.

Section storage.
Context {SK : StorageKeys} (divisibility : OrderBookId → bool) (self : OrderBook.t).
Abbreviation id := (OrderBook.order_book_id self).

Lemma level_loop_fill mo ids i s :
  (∀ j, j ∈ ids → is_Some (LimitOrders s !! (id, j))) →
  OrderBook.level_loop self mo ids i s = (fill mo (orders_at s id ids) i, s).
Proof.
  revert i. induction ids as [|j ids IH]; intros i Hids; [done|]. simpl.
  destruct (Hids j) as [o Ho]; [left|].
  assert (StorageDataLayer.get_limit_order id j s = (Ok o, s)) as Hg.
  { unfold StorageDataLayer.get_limit_order. exec. by rewrite Ho. }
  rewrite (M_bind_run_ok _ _ _ _ _ Hg). unfold orders_at. simpl. rewrite Ho. cbn [fill].
  destruct (OrderBook.impact_step mo o i) as [i'|e]; [|done]. exec. cbn.
  destruct (BalanceUnit.is_zero _); [done|]. apply IH. intros j' Hj. apply Hids. by right.
Qed.

Lemma level_ids_stored s sd p j : Inv divisibility s →
  j ∈ index (side_orders sd s !! (id, p)) → is_Some (LimitOrders s !! (id, j)).
Proof. intros HI (o & Ho & _)%(inv_side_iff _ _ HI). eauto. Qed.

(** The price levels that the aggregated volumes name. *)
Definition listed s sd (data : list (OrderPrice * OrderVolume)) : Prop :=
  Forall (λ q, ∃ l, side_orders sd s !! (id, fst q) = Some l ∧ l ≠ [] ∧
               snd q = BalanceUnit.mk (volume_of s id l) (divisibility id)) data.

Lemma orders_at_ne s ids : ids ≠ [] → (∀ j, j ∈ ids → is_Some (LimitOrders s !! (id, j))) →
  orders_at s id ids ≠ [].
Proof.
  destruct ids as [|j ids]; [done|]. intros _ Hs. destruct (Hs j) as [o Ho]; [left|].
  unfold orders_at. simpl. by rewrite Ho.
Qed.

Lemma market_loop_fill dir mo data i s : Inv divisibility s → listed s (switched dir) data →
  OrderBook.market_loop self dir mo data i s =
  (fill mo (queue_of s id (switched dir) data) i, s).
Proof.
  intros HI. revert i. induction data as [|[p v] data IH]; intros i Hd; [done|].
  apply Forall_cons in Hd as [(l & Hl & Hne & _) Hd]. simpl in Hl.
  unfold queue_of. simpl. fold (queue_of s id (switched dir) data).
  assert (get_limit_orders_by_price id (switched dir) p s = (Ok (Some l), s)) as Hg.
  { by destruct dir; simpl in *; unfold StorageDataLayer.get_bids, StorageDataLayer.get_asks,
      StorageDataLayer.reads; rewrite Hl. }
  rewrite (M_bind_run_ok _ _ _ _ _ Hg). exec.
  assert (∀ j, j ∈ l → is_Some (LimitOrders s !! (id, j))) as Hs.
  { intros j Hj. eapply level_ids_stored; [done|]. by rewrite Hl. }
  rewrite Hl. simpl index. rewrite fill_app.
  pose proof (orders_at_ne s l Hne Hs). pose proof (level_loop_fill mo l i s Hs) as Hlv.
  destruct (orders_at s id l) as [|o os]; [done|].
  destruct (fill mo (o :: os) i) as [i'|e]; cbn.
  - rewrite (M_bind_run_ok _ _ _ _ _ Hlv). destruct (BalanceUnit.is_zero _); [done|by apply IH].
  - by rewrite (M_bind_run_err _ _ _ _ _ Hlv).
Qed.

Lemma agg_listed s sd : Inv divisibility s → listed s sd (default [] (side_agg sd s !! id)).
Proof.
  intros HI. apply Forall_forall. intros [p v] Hin.
  pose proof (inv_agg_keys _ _ HI id sd) as Hk. rewrite Forall_forall in Hk.
  specialize (Hk _ Hin). apply (bt_elem_get _ _ _ (inv_agg_wf _ _ HI id sd)) in Hin.
  rewrite (inv_agg_get _ _ HI) in Hin by done. simpl.
  destruct (side_orders sd s !! (id, p)) as [l|] eqn:El; [|done]. injection Hin as <-.
  exists l. split; [done|]. split; [|done]. intros ->. by apply (inv_side_nonempty _ _ HI) in El.
Qed.

Lemma levels_Permutation s sd : levels s id sd ≡ₚ default [] (side_agg sd s !! id).
Proof. destruct sd; simpl; [apply reverse_Permutation|done]. Qed.

Lemma levels_listed s sd : Inv divisibility s → listed s sd (levels s id sd).
Proof. intros HI. unfold listed. rewrite levels_Permutation. by apply agg_listed. Qed.

Lemma elem_of_orders_at s ids o : Inv divisibility s →
  o ∈ orders_at s id ids ↔ LimitOrder.id o ∈ ids ∧ LimitOrders s !! (id, LimitOrder.id o) = Some o.
Proof.
  intros HI. unfold orders_at. rewrite list_elem_of_omap. split.
  - intros (j & Hj & Ho). by destruct (inv_order _ _ HI _ _ _ Ho) as [-> _].
  - intros [Hin Ho]. eauto.
Qed.

(** The queue holds exactly the orders of the side. *)
Lemma elem_of_queue s sd o : Inv divisibility s →
  o ∈ queue s id sd ↔
  LimitOrders s !! (id, LimitOrder.id o) = Some o ∧ LimitOrder.side o = sd.
Proof.
  intros HI. unfold queue, queue_of. rewrite list_elem_of_bind. split.
  - intros ([p v] & [Hi Ho]%elem_of_orders_at & _); [|done].
    apply (inv_side_iff _ _ HI) in Hi as (o' & Ho' & ? & _). by simplify_eq.
  - intros [Ho Hsd]. destruct (inv_order _ _ HI _ _ _ Ho) as [_ Hok].
    assert (LimitOrder.id o ∈ index (side_orders sd s !! (id, LimitOrder.price o))) as Hi.
    { apply (inv_side_iff _ _ HI). eauto. }
    destruct (side_orders sd s !! (id, LimitOrder.price o)) as [l|] eqn:El; [|by apply elem_of_nil in Hi].
    pose proof (inv_agg_get _ _ HI id sd _ (ok_price_div _ _ _ Hok)) as Hg. rewrite El in Hg.
    apply bt_get_elem in Hg as (p & Hp & Hin).
    assert (p = LimitOrder.price o) as ->.
    { pose proof (inv_agg_keys _ _ HI id sd) as Hk. rewrite Forall_forall in Hk.
      specialize (Hk _ Hin). symmetry. apply BalanceUnit.cmp_eq_same; [|done].
      by rewrite (ok_price_div _ _ _ Hok). }
    eexists (LimitOrder.price o, _). split; [|by rewrite levels_Permutation].
    apply elem_of_orders_at; [done|]. simpl. by rewrite El.
Qed.

Lemma queue_order s sd o : Inv divisibility s → o ∈ queue s id sd → order_ok divisibility id o.
Proof. intros HI [Ho _]%elem_of_queue; [|done]. by apply (inv_order _ _ HI) in Ho as [_ ?]. Qed.

Lemma queue_positive s sd : Inv divisibility s → positive (queue s id sd).
Proof. intros HI. apply Forall_forall. intros o Ho. eapply queue_order; eauto. Qed.

Lemma orders_at_volume s ids : (∀ j, j ∈ ids → is_Some (LimitOrders s !! (id, j))) →
  volume (orders_at s id ids) = volume_of s id ids.
Proof.
  induction ids as [|j ids IH]; intros Hids; [done|]. unfold orders_at. simpl.
  destruct (Hids j) as [o Ho]; [left|]. unfold amount_of. rewrite Ho, volume_cons. f_equal.
  apply IH. intros j' Hj. apply Hids. by right.
Qed.

(** The volume of the queue is the aggregated volume of the side. *)
Lemma queue_volume s sd : Inv divisibility s →
  volume (queue s id sd) = sum_by (λ q, inner (snd q)) (levels s id sd).
Proof.
  intros HI. pose proof (levels_listed s sd HI) as Hl. unfold queue.
  induction Hl as [|[p v] data (l & El & _ & Hv) Hl IH]; [done|].
  rewrite queue_of_cons, queue_volume_app, IH. cbn. f_equal. simpl in *. rewrite El. subst v. simpl.
  apply orders_at_volume. intros j Hj. eapply (level_ids_stored s sd p); [done|]. by rewrite El.
Qed.
End storage.
End queue.

#[global] Arguments queue_of : simpl never.
#[global] Arguments volume : simpl never.

(** ** What the loops compute *)

Section impact.
Context (divisibility : OrderBookId → bool) (b : OrderBookId) (Hbq : base b ≠ quote b).
Context (sd : PriceVariant).
Abbreviation flag := (flag divisibility b).
Abbreviation order_ok := (order_ok divisibility b).

(** The assets of a deal with orders of side [sd]: what their owners get and
    what the taker gets. *)
Definition maker_out : AssetId := match sd with Buy => base b | Sell => quote b end.
Definition taker_out : AssetId := match sd with Buy => quote b | Sell => base b end.

Definition in_side (o : LimitOrder.t) : Prop := order_ok o ∧ LimitOrder.side o = sd.

Lemma due_in_side o : in_side o → due_asset b o = maker_out.
Proof. intros [_ E]. unfold due_asset, maker_out. by rewrite E. Qed.
Lemma owed_in_side o : in_side o → owed_asset b o = taker_out.
Proof. intros [_ E]. unfold owed_asset, taker_out. by rewrite E. Qed.

(** Executing the amount [v] of [o]. *)
Record executes (o : LimitOrder.t) (v : OrderVolume) (i i' : OrderBook.Impact) : Prop := {
  ex_taker_ok : amount_ok (flag taker_out) (OrderBook.taker_amount i');
  ex_taker : inner (OrderBook.taker_amount i') = inner (OrderBook.taker_amount i) + owed_for o v;
  ex_maker_ok : amount_ok (flag maker_out) (OrderBook.maker_amount i');
  ex_maker : inner (OrderBook.maker_amount i') = inner (OrderBook.maker_amount i) + due_for o v;
  ex_due_ok : amount_ok (flag maker_out) (BalanceUnit.mk (due_for o v) (flag maker_out));
  ex_unlock : OrderBook.payment_to_unlock i' =
    Payment.add_entry maker_out (LimitOrder.owner o) (BalanceUnit.mk (due_for o v) (flag maker_out))
      (OrderBook.payment_to_unlock i)
}.

Record accs_ok (i : OrderBook.Impact) : Prop := {
  acc_taker : acc_ok (flag taker_out) (OrderBook.taker_amount i);
  acc_maker : acc_ok (flag maker_out) (OrderBook.maker_amount i)
}.

Lemma executes_accs o v i i' : executes o v i i' → accs_ok i'.
Proof. intros []. split; by right. Qed.

(** The two payments of a step. *)
Lemma step_payments o v i tp mp tk mk rem part full un : in_side o → accs_ok i →
  (∀ v', v = Some v' → amount_ok (divisibility b) v') →
  LimitOrder.deal_amount o Taker v = Ok tp →
  BalanceUnit.checked_add (OrderBook.taker_amount i) (OrderAmount.value tp) = Some tk →
  LimitOrder.deal_amount o Maker v = Ok mp →
  BalanceUnit.checked_add (OrderBook.maker_amount i) (OrderAmount.value mp) = Some mk →
  un = Payment.add_entry maker_out (LimitOrder.owner o) (OrderAmount.value mp)
         (OrderBook.payment_to_unlock i) →
  executes o (default (LimitOrder.amount o) v) i (OrderBook.mkImpact rem tk mk part full un).
Proof.
  intros Ho [Hat Ham] Hv Htp Htk Hmp Hmk ->.
  apply (deal_amount_ok divisibility b) in Htp as (_ & Htok & Htv & Hta); try done; [|apply Ho].
  apply (deal_amount_ok divisibility b) in Hmp as (_ & Hmok & Hmv & Hma); try done; [|apply Ho].
  rewrite Hta, (owed_in_side o Ho) in Htok. rewrite Hma, (due_in_side o Ho) in Hmok.
  destruct (acc_add _ _ _ _ Hat Htok Htk) as [Hk1 Hk2].
  destruct (acc_add _ _ _ _ Ham Hmok Hmk) as [Hm1 Hm2].
  rewrite Htv in Hk2. rewrite Hmv in Hm2.
  pose proof (amount_eta _ _ Hmok) as He. rewrite Hmv in He.
  split; simpl; try done; by rewrite <- He.
Qed.

Abbreviation d := (divisibility b).

Lemma impact_step_ok o i i' : in_side o → accs_ok i →
  amount_ok d (OrderBook.remaining_amount i) →
  OrderBook.impact_step maker_out o i = Ok i' →
  let n := inner (OrderBook.remaining_amount i) in
  let a := inner (LimitOrder.amount o) in
  if a <=? n then
    executes o (LimitOrder.amount o) i i' ∧
    OrderBook.remaining_amount i' = BalanceUnit.mk (n - a) d ∧
    OrderBook.limit_orders_to_part_execute i' = OrderBook.limit_orders_to_part_execute i ∧
    OrderBook.limit_orders_to_full_execute i' =
      bt_insert (LimitOrder.id o) o (OrderBook.limit_orders_to_full_execute i)
  else
    executes o (BalanceUnit.mk n d) i i' ∧
    OrderBook.remaining_amount i' = BalanceUnit.zero ∧
    OrderBook.limit_orders_to_part_execute i' =
      bt_insert (LimitOrder.id o)
        (LimitOrder.set_amount o (BalanceUnit.mk (a - n) d), OrderAmount.Base (BalanceUnit.mk n d))
        (OrderBook.limit_orders_to_part_execute i) ∧
    OrderBook.limit_orders_to_full_execute i' = OrderBook.limit_orders_to_full_execute i.
Proof.
  intros Ho Hacc Hrem Hs n a. pose proof Hrem as [Hrd Hrw].
  pose proof (ok_amount_div _ _ _ (proj1 Ho)) as Hod.
  pose proof (ok_amount_wf _ _ _ (proj1 Ho)) as How.
  unfold OrderBook.impact_step in Hs. rewrite BalanceUnit.ge_value in Hs.
  assert ((BalanceUnit.value (LimitOrder.amount o) <=? BalanceUnit.value (OrderBook.remaining_amount i))
          = (a <=? n)) as E.
  { apply eq_true_iff_eq. rewrite !Z.leb_le. apply BalanceUnit.value_le_same. congruence. }
  rewrite E in Hs. unfold a, n in *. destruct (Z.leb_spec (inner (LimitOrder.amount o))
    (inner (OrderBook.remaining_amount i))) as [Hle|Hle]; run;
    match goal with E : BalanceUnit.checked_sub _ _ = _ |- _ => rename E into Hsub end.
  - split; [by eapply (step_payments o None)|]. simpl. split; [|done].
    apply checked_sub_eq in Hsub as ->; [by rewrite Hrd|done..|congruence].
  - rewrite <- (amount_eta _ _ Hrem).
    split; [by eapply (step_payments o (Some _)); try done; intros ? [= <-]|]. simpl. split; [done|].
    apply checked_sub_eq in Hsub as ->; [by rewrite Hod|done..|congruence].
Qed.
(** What is executed of each order, and what the loops accumulate from it. *)
Definition executed (whole : list LimitOrder.t) (part : option (LimitOrder.t * Z))
    : list (LimitOrder.t * OrderVolume) :=
  ((λ o, (o, LimitOrder.amount o)) <$> whole) ++
  match part with Some (o, r) => [(o, BalanceUnit.mk r d)] | None => [] end.

Definition due_unit (p : LimitOrder.t * OrderVolume) : OrderVolume :=
  BalanceUnit.mk (due_for (fst p) (snd p)) (flag maker_out).

Definition pay_makers (ex : list (LimitOrder.t * OrderVolume)) m :=
  fold_left (λ m p, Payment.add_entry maker_out (LimitOrder.owner (fst p)) (due_unit p) m) ex m.

Definition whole_map (whole : list LimitOrder.t) (m : BTreeMap OrderId LimitOrder.t) :=
  fold_left (λ m o, bt_insert (LimitOrder.id o) o m) whole m.

Definition part_map (part : option (LimitOrder.t * Z))
    (m : BTreeMap OrderId (LimitOrder.t * OrderAmount.t)) :=
  match part with
  | Some (o, r) =>
      bt_insert (LimitOrder.id o)
        (LimitOrder.set_amount o (BalanceUnit.mk (inner (LimitOrder.amount o) - r) d),
         OrderAmount.Base (BalanceUnit.mk r d)) m
  | None => m
  end.

Definition owed_total (ex : list (LimitOrder.t * OrderVolume)) : Z :=
  sum_by (λ p, owed_for (fst p) (snd p)) ex.
Definition due_total (ex : list (LimitOrder.t * OrderVolume)) : Z :=
  sum_by (λ p, due_for (fst p) (snd p)) ex.

Lemma owed_total_cons p ex : owed_total (p :: ex) = owed_for (fst p) (snd p) + owed_total ex.
Proof. done. Qed.
Lemma due_total_cons p ex : due_total (p :: ex) = due_for (fst p) (snd p) + due_total ex.
Proof. done. Qed.

Definition exact (i : OrderBook.Impact) : Prop :=
  amount_ok (flag taker_out) (OrderBook.taker_amount i) ∧
  amount_ok (flag maker_out) (OrderBook.maker_amount i).

Record filled (whole : list LimitOrder.t) (part : option (LimitOrder.t * Z))
    (i i' : OrderBook.Impact) : Prop := {
  fi_remaining : inner (OrderBook.remaining_amount i') =
    inner (OrderBook.remaining_amount i) - volume whole - part_amount part;
  fi_taker : inner (OrderBook.taker_amount i') =
    inner (OrderBook.taker_amount i) + owed_total (executed whole part);
  fi_maker : inner (OrderBook.maker_amount i') =
    inner (OrderBook.maker_amount i) + due_total (executed whole part);
  fi_accs : accs_ok i';
  fi_exact : exact i ∨ executed whole part ≠ [] → exact i';
  fi_due : Forall (λ p, amount_ok (flag maker_out) (due_unit p)) (executed whole part);
  fi_unlock : OrderBook.payment_to_unlock i' =
    pay_makers (executed whole part) (OrderBook.payment_to_unlock i);
  fi_part : OrderBook.limit_orders_to_part_execute i' =
    part_map part (OrderBook.limit_orders_to_part_execute i);
  fi_full : OrderBook.limit_orders_to_full_execute i' =
    whole_map whole (OrderBook.limit_orders_to_full_execute i)
}.

Lemma filled_nil i : accs_ok i → filled [] None i i.
Proof.
  intros. split; try done; unfold volume; cbn; try lia. by intros [?|?].
Qed.

(** One more whole order in front. *)
Lemma filled_cons o whole part i1 i2 i3 :
  executes o (LimitOrder.amount o) i1 i2 →
  inner (OrderBook.remaining_amount i2) =
    inner (OrderBook.remaining_amount i1) - inner (LimitOrder.amount o) →
  OrderBook.limit_orders_to_part_execute i2 = OrderBook.limit_orders_to_part_execute i1 →
  OrderBook.limit_orders_to_full_execute i2 =
    bt_insert (LimitOrder.id o) o (OrderBook.limit_orders_to_full_execute i1) →
  filled whole part i2 i3 → filled (o :: whole) part i1 i3.
Proof.
  intros [] Hrem Hpart Hfull [Fr Ft Fm Fa Fe Fd Fu Fp Ff]. rewrite Hpart in Fp. rewrite Hfull in Ff.
  assert (executed (o :: whole) part = (o, LimitOrder.amount o) :: executed whole part) as E by done.
  split; rewrite ?E; try done.
  - rewrite Fr, Hrem, volume_cons. lia.
  - rewrite Ft, ex_taker0, owed_total_cons. simpl. lia.
  - rewrite Fm, ex_maker0, due_total_cons. simpl. lia.
  - intros _. apply Fe. by left.
  - by constructor.
  - by rewrite Fu, ex_unlock0.
Qed.

Lemma filled_part o r i i' :
  executes o (BalanceUnit.mk r d) i i' → inner (OrderBook.remaining_amount i) = r →
  OrderBook.remaining_amount i' = BalanceUnit.zero →
  OrderBook.limit_orders_to_part_execute i' =
    part_map (Some (o, r)) (OrderBook.limit_orders_to_part_execute i) →
  OrderBook.limit_orders_to_full_execute i' = OrderBook.limit_orders_to_full_execute i →
  filled [] (Some (o, r)) i i'.
Proof.
  intros Hex Hn Hrem Hpart Hfull. pose proof (executes_accs _ _ _ _ Hex). destruct Hex.
  split; try done.
  - rewrite Hrem. unfold volume. cbn. lia.
  - rewrite ex_taker0. unfold executed, owed_total, sum_by. cbn [app fmap list_fmap foldr fst snd]. lia.
  - rewrite ex_maker0. unfold executed, due_total, sum_by. cbn [app fmap list_fmap foldr fst snd]. lia.
  - apply Forall_singleton. done.
Qed.

Lemma fill_spec q i i' : Forall in_side q → accs_ok i →
  amount_ok d (OrderBook.remaining_amount i) → 0 < inner (OrderBook.remaining_amount i) →
  fill maker_out q i = Ok i' →
  filled (fst (take q (inner (OrderBook.remaining_amount i))))
    (snd (take q (inner (OrderBook.remaining_amount i)))) i i'.
Proof.
  revert i. induction q as [|o q IH]; intros i Hq Hacc Hrem Hn Hf.
  { injection Hf as <-. by apply filled_nil. }
  apply Forall_cons in Hq as [Ho Hq]. cbn [fill] in Hf. apply result_bind_ok in Hf as (i1 & Hs & Hf).
  apply impact_step_ok in Hs; [|done..]. simpl in *.
  destruct (Z.leb_spec (inner (LimitOrder.amount o)) (inner (OrderBook.remaining_amount i))).
  - destruct Hs as (Hex & Hr & Hp & Hfu). unfold BalanceUnit.is_zero in Hf. rewrite Hr in Hf.
    simpl in Hf. destruct (Z.eqb_spec (inner (OrderBook.remaining_amount i) -
      inner (LimitOrder.amount o)) 0) as [Hz|Hz].
    + injection Hf as <-. eapply filled_cons; try done; [by rewrite Hr|].
      apply filled_nil. by eapply executes_accs.
    + pose proof (ok_amount_pos _ _ _ (proj1 Ho)). destruct Hrem as [_ [? ?]].
      specialize (IH i1 Hq (executes_accs _ _ _ _ Hex)). rewrite Hr in IH. simpl in IH.
      specialize (IH ltac:(split; [done|split; simpl; lia]) ltac:(lia) Hf).
      destruct (take q _) as [whole part]. eapply filled_cons; try done. by rewrite Hr.
  - destruct Hs as (Hex & Hr & Hp & Hfu). unfold BalanceUnit.is_zero in Hf. rewrite Hr in Hf.
    injection Hf as <-. by apply filled_part.
Qed.

(** *** The change a deal makes *)

(** The amounts of the deal are balances. *)
Record deal_fits (ex : list (LimitOrder.t * OrderVolume)) : Prop := {
  df_owed : amount_ok (flag taker_out) (BalanceUnit.mk (owed_total ex) (flag taker_out));
  df_due : amount_ok (flag maker_out) (BalanceUnit.mk (due_total ex) (flag maker_out));
  df_each : Forall (λ p, amount_ok (flag maker_out) (due_unit p)) ex
}.

(** What the makers are paid: nothing saturates when the sum fits. *)
Lemma pay_makers_exact ex m : pay_ok flag m →
  Forall (λ p, amount_ok (flag maker_out) (due_unit p)) ex →
  total m maker_out + due_total ex ≤ u128_max →
  pay_ok flag (pay_makers ex m) ∧ ∀ a,
  total (pay_makers ex m) a = total m a + at_asset a maker_out (due_total ex) ∧
  ∀ y, credit (pay_makers ex m) a y = credit m a y + at_asset a maker_out
         (sum_by (λ p, if bool_decide (LimitOrder.owner (fst p) = y)
                       then due_for (fst p) (snd p) else 0) ex).
Proof.
  revert m. induction ex as [|p ex IH]; intros m Hm Hex Hle.
  { split; [done|]. intros a. change (pay_makers [] m) with m.
    unfold at_asset, due_total. rewrite !sum_by_nil. case_bool_decide; split; intros; rewrite ?sum_by_nil; lia. }
  apply Forall_cons in Hex as [Hp Hex]. rewrite due_total_cons in Hle.
  assert (0 ≤ due_total ex) as Hnn.
  { apply sum_by_nonneg. intros q Hq. rewrite Forall_forall in Hex. by destruct (Hex q Hq) as [_ [? _]]. }
  pose proof (add_entry_exact flag maker_out (LimitOrder.owner (fst p)) (due_unit p) m Hm Hp
    ltac:(simpl; lia)) as Hadd.
  destruct (IH (Payment.add_entry maker_out (LimitOrder.owner (fst p)) (due_unit p) m)) as [Hok Hex'].
  - by apply add_entry_ok.
  - done.
  - rewrite (proj1 (Hadd maker_out)). unfold at_asset. rewrite bool_decide_eq_true_2 by done. simpl. lia.
  - split; [done|]. intros a. destruct (Hex' a) as [E1 E2], (Hadd a) as [F1 F2].
    split.
    + etransitivity; [exact E1|]. rewrite F1, due_total_cons. unfold at_asset. simpl. case_bool_decide; lia.
    + intros y. etransitivity; [apply E2|]. rewrite F2, sum_by_cons. unfold at_asset. simpl.
      case_bool_decide; lia.
Qed.

(** The loops do not overflow on what they execute. *)
Record no_overflow (whole : list LimitOrder.t) (part : option (LimitOrder.t * Z)) : Prop := {
  no_mul p : p ∈ executed whole part →
    is_Some (BalanceUnit.checked_mul (LimitOrder.price (fst p)) (snd p));
  no_owed : owed_total (executed whole part) ≤ u128_max;
  no_due : due_total (executed whole part) ≤ u128_max
}.

Lemma deal_amount_total o role v : in_side o →
  (∀ v', v = Some v' → amount_ok d v' ∧ inner v' ≤ inner (LimitOrder.amount o)) →
  is_Some (BalanceUnit.checked_mul (LimitOrder.price o) (default (LimitOrder.amount o) v)) →
  ∃ r, LimitOrder.deal_amount o role v = Ok r.
Proof.
  intros [Ho _] Hv [m Hm]. unfold LimitOrder.deal_amount.
  assert ((match v with
           | Some base_amount =>
               _ ← ensure (BalanceUnit.le base_amount (LimitOrder.amount o)) (OrderBookError InvalidOrderAmount);
               mret base_amount
           | None => mret (LimitOrder.amount o)
           end) = Ok (E := DispatchError) (default (LimitOrder.amount o) v)) as ->.
  { destruct v as [v'|]; [|done]. destruct (Hv v' eq_refl) as [[Hd _] Hle].
    rewrite BalanceUnit.le_value, (proj2 (Z.leb_le _ _)); [done|].
    apply BalanceUnit.value_le_same; [|done]. by rewrite (ok_amount_div _ _ _ Ho). }
  cbn. destruct role, (LimitOrder.side o); rewrite ?Hm; cbn; eauto.
Qed.

Lemma acc_add_total f v x : acc_ok f v → amount_ok f x → inner v + inner x ≤ u128_max →
  is_Some (BalanceUnit.checked_add v x).
Proof.
  intros [->|[Hd Hw]] [Hdx Hwx] Hle; [rewrite BalanceUnit.checked_add_zero_l by done; eauto|].
  rewrite BalanceUnit.checked_add_same by (done || congruence). eauto.
Qed.

Lemma step_payments_total o v i : in_side o → accs_ok i →
  (∀ v', v = Some v' → amount_ok d v' ∧ inner v' ≤ inner (LimitOrder.amount o)) →
  let v' := default (LimitOrder.amount o) v in
  is_Some (BalanceUnit.checked_mul (LimitOrder.price o) v') →
  inner (OrderBook.taker_amount i) + owed_for o v' ≤ u128_max →
  inner (OrderBook.maker_amount i) + due_for o v' ≤ u128_max →
  ∃ tp tk mp mk, LimitOrder.deal_amount o Taker v = Ok tp ∧
    BalanceUnit.checked_add (OrderBook.taker_amount i) (OrderAmount.value tp) = Some tk ∧
    LimitOrder.deal_amount o Maker v = Ok mp ∧
    BalanceUnit.checked_add (OrderBook.maker_amount i) (OrderAmount.value mp) = Some mk.
Proof.
  intros Ho [Hat Ham] Hv v' Hm Ht Hmk.
  destruct (deal_amount_total o Taker v Ho Hv Hm) as [tp Htp].
  destruct (deal_amount_total o Maker v Ho Hv Hm) as [mp Hmp].
  assert (∀ u, v = Some u → amount_ok d u) as Hv' by (intros u Hu; by apply Hv).
  pose proof Htp as (_ & Htok & Htv & Hta)%(deal_amount_ok divisibility b); [|done|apply Ho|done].
  pose proof Hmp as (_ & Hmok & Hmv & Hma)%(deal_amount_ok divisibility b); [|done|apply Ho|done].
  rewrite Hta, (owed_in_side o Ho) in Htok. rewrite Hma, (due_in_side o Ho) in Hmok.
  fold v' in Htv, Hmv.
  destruct (acc_add_total _ _ _ Hat Htok ltac:(by rewrite Htv)) as [tk Htk].
  destruct (acc_add_total _ _ _ Ham Hmok ltac:(by rewrite Hmv)) as [mk Hmk'].
  by exists tp, tk, mp, mk.
Qed.

#[local] Arguments LimitOrder.deal_amount : simpl never.
#[local] Arguments BalanceUnit.checked_add : simpl never.
#[local] Arguments BalanceUnit.checked_sub : simpl never.

Lemma impact_step_total o i : in_side o → accs_ok i →
  amount_ok d (OrderBook.remaining_amount i) →
  let n := inner (OrderBook.remaining_amount i) in
  let v := if inner (LimitOrder.amount o) <=? n then LimitOrder.amount o else BalanceUnit.mk n d in
  is_Some (BalanceUnit.checked_mul (LimitOrder.price o) v) →
  inner (OrderBook.taker_amount i) + owed_for o v ≤ u128_max →
  inner (OrderBook.maker_amount i) + due_for o v ≤ u128_max →
  ∃ i', OrderBook.impact_step maker_out o i = Ok i'.
Proof.
  intros Ho Hacc Hrem n v Hm Ht Hmk. pose proof Hrem as [Hrd Hrw].
  pose proof (ok_amount_div _ _ _ (proj1 Ho)) as Hod.
  pose proof (ok_amount_wf _ _ _ (proj1 Ho)) as How.
  unfold OrderBook.impact_step. rewrite BalanceUnit.ge_value. unfold v, n in *. clear v n.
  destruct (Z.leb_spec (BalanceUnit.value (LimitOrder.amount o))
              (BalanceUnit.value (OrderBook.remaining_amount i))) as [Hle|Hle].
  - pose proof Hle as Hle'. rewrite BalanceUnit.value_le_same in Hle' by congruence.
    rewrite (proj2 (Z.leb_le _ _) Hle') in *.
    destruct (step_payments_total o None i) as (tp & tk & mp & mk & E1 & E2 & E3 & E4); try done.
    rewrite BalanceUnit.checked_sub_same by (done || congruence). cbn.
    rewrite E1. cbn. rewrite E2. cbn. rewrite E3. cbn. rewrite E4. cbn. eauto.
  - assert (inner (OrderBook.remaining_amount i) < inner (LimitOrder.amount o)) as Hlt.
    { apply Z.lt_nge. intros ?%(BalanceUnit.value_le_same (LimitOrder.amount o)
        (OrderBook.remaining_amount i)); [lia|congruence]. }
    rewrite (proj2 (Z.leb_gt _ _) Hlt), <- (amount_eta _ _ Hrem) in *.
    destruct (step_payments_total o (Some (OrderBook.remaining_amount i)) i)
      as (tp & tk & mp & mk & E1 & E2 & E3 & E4); try done.
    { intros ? [= <-]. split; [done|lia]. }
    rewrite E1. cbn. rewrite E2. cbn. rewrite E3. cbn. rewrite E4. cbn.
    rewrite BalanceUnit.checked_sub_same by (done || congruence || lia). cbn. eauto.
Qed.

Definition executed_of (q : list LimitOrder.t) (n : Z) : list (LimitOrder.t * OrderVolume) :=
  executed (fst (take q n)) (snd (take q n)).

(** The amount executed of the first order, and whether the next one is met. *)
Definition first_amount (o : LimitOrder.t) (n : Z) : OrderVolume :=
  if inner (LimitOrder.amount o) <=? n then LimitOrder.amount o else BalanceUnit.mk n d.
Definition goes_on (o : LimitOrder.t) (n : Z) : bool :=
  (inner (LimitOrder.amount o) <=? n) && negb (n - inner (LimitOrder.amount o) =? 0).

Lemma executed_of_cons o q n :
  executed_of (o :: q) n = (o, first_amount o n) ::
    if goes_on o n then executed_of q (n - inner (LimitOrder.amount o)) else [].
Proof.
  unfold executed_of, first_amount, goes_on. cbn [take].
  destruct (_ <=? n); [|done]. destruct (_ =? 0); [done|]. by destruct (take q _).
Qed.

Lemma first_amount_ok o n : in_side o → 0 < n ≤ u128_max → amount_ok d (first_amount o n).
Proof.
  intros [Ho _] Hn. unfold first_amount. destruct (_ <=? n); [split; apply Ho|].
  split; [done|split; simpl; lia].
Qed.

Lemma take_executed_ok q n : Forall in_side q → 0 < n ≤ u128_max →
  Forall (λ p, in_side (fst p) ∧ amount_ok d (snd p)) (executed_of q n).
Proof.
  revert n. induction q as [|o q IH]; intros n Hq Hn; [constructor|].
  apply Forall_cons in Hq as [Ho Hq]. rewrite executed_of_cons.
  constructor; [split; [done|by apply first_amount_ok]|].
  unfold goes_on. pose proof (ok_amount_pos _ _ _ (proj1 Ho)).
  destruct (Z.leb_spec (inner (LimitOrder.amount o)) n); simpl; [|done].
  destruct (Z.eqb_spec (n - inner (LimitOrder.amount o)) 0); simpl; [done|]. apply IH; [done|lia].
Qed.

Lemma totals_nonneg ex : Forall (λ p, in_side (fst p) ∧ amount_ok d (snd p)) ex →
  0 ≤ owed_total ex ∧ 0 ≤ due_total ex.
Proof.
  intros Hex. rewrite Forall_forall in Hex.
  split; apply sum_by_nonneg; intros p [[Hp _] [_ Hw]]%Hex;
    by apply (owed_for_nonneg divisibility b).
Qed.

(** After a step: whether the loop goes on, and from which state. *)
Lemma impact_step_next o i i' : in_side o → accs_ok i →
  amount_ok d (OrderBook.remaining_amount i) → 0 < inner (OrderBook.remaining_amount i) →
  OrderBook.impact_step maker_out o i = Ok i' →
  let n := inner (OrderBook.remaining_amount i) in
  executes o (first_amount o n) i i' ∧
  BalanceUnit.is_zero (OrderBook.remaining_amount i') = negb (goes_on o n) ∧
  (goes_on o n = true → inner (OrderBook.remaining_amount i') = n - inner (LimitOrder.amount o) ∧
     0 < inner (OrderBook.remaining_amount i') ∧ amount_ok d (OrderBook.remaining_amount i')).
Proof.
  intros Ho Hacc Hrem Hn Hs n. apply impact_step_ok in Hs; [|done..]. cbn zeta in Hs. fold n in Hs.
  unfold first_amount, goes_on, BalanceUnit.is_zero. pose proof (ok_amount_pos _ _ _ (proj1 Ho)).
  destruct Hrem as [_ [_ Hmax]]. fold n in Hmax.
  destruct (Z.leb_spec (inner (LimitOrder.amount o)) n); destruct Hs as (Hx & Hr & _); rewrite Hr; simpl.
  - split; [done|]. destruct (Z.eqb_spec (n - inner (LimitOrder.amount o)) 0); [done|].
    split; [done|]. intros _. split; [done|]. split; [lia|]. split; [done|split; simpl; lia].
  - done.
Qed.

Lemma fill_total q i : Forall in_side q → accs_ok i →
  amount_ok d (OrderBook.remaining_amount i) → 0 < inner (OrderBook.remaining_amount i) →
  let ex := executed_of q (inner (OrderBook.remaining_amount i)) in
  (∀ p, p ∈ ex → is_Some (BalanceUnit.checked_mul (LimitOrder.price (fst p)) (snd p))) →
  inner (OrderBook.taker_amount i) + owed_total ex ≤ u128_max →
  inner (OrderBook.maker_amount i) + due_total ex ≤ u128_max →
  ∃ i', fill maker_out q i = Ok i'.
Proof.
  revert i. induction q as [|o q IH]; intros i Hq Hacc Hrem Hn ex Hmul Ht Hm; [by eexists|].
  pose proof Hrem as [_ [_ Hmax]].
  assert (Forall (λ p, in_side (fst p) ∧ amount_ok d (snd p)) ex) as Hex by by apply take_executed_ok.
  apply Forall_cons in Hq as [Ho Hq]. cbn [fill]. subst ex. rewrite executed_of_cons in *.
  apply Forall_cons in Hex as [_ Hex]. apply totals_nonneg in Hex as [??].
  rewrite owed_total_cons in Ht. rewrite due_total_cons in Hm. cbn [fst snd] in *.
  destruct (impact_step_total o i Ho Hacc Hrem) as [i1 Hs];
    [apply (Hmul (_, _)); left|unfold first_amount in *; lia..|].
  rewrite Hs. apply impact_step_next in Hs as (Hx & Hz & Hgo); [|done..]. cbn. rewrite Hz.
  destruct (goes_on o _); simpl; [|by eexists]. destruct (Hgo eq_refl) as (Hr & ? & ?).
  apply IH; try done; rewrite ?Hr.
  - by eapply executes_accs.
  - intros p Hp. apply Hmul. by right.
  - rewrite (ex_taker _ _ _ _ Hx). lia.
  - rewrite (ex_maker _ _ _ _ Hx). lia.
Qed.
End impact.

(** ** The change of a market order *)

Section market_order.
Context {Cfg : Config} {SK : StorageKeys} (divisibility : OrderBookId → bool).
Context (self : OrderBook.t).
Abbreviation id := (OrderBook.order_book_id self).
Abbreviation d := (divisibility id).

(** The change a deal of direction [dir] makes that takes the orders [whole] and
    [part]: the taker locks what the makers are due, which is unlocked for them,
    and the receiver gets what the book owed to the orders. *)
Definition deal_change (dir : PriceVariant) (taker receiver : AccountId)
    (whole : list LimitOrder.t) (part : option (LimitOrder.t * Z)) : MarketChange.t :=
  let sd := switched dir in
  let ex := executed divisibility id whole part in
  let maker_amount :=
    BalanceUnit.mk (due_total ex) (flag divisibility id (maker_out id sd)) in
  let taker_amount :=
    BalanceUnit.mk (owed_total ex) (flag divisibility id (taker_out id sd)) in
  let '(input, output) :=
    match dir with
    | Buy => (OrderAmount.Quote maker_amount, OrderAmount.Base taker_amount)
    | Sell => (OrderAmount.Base maker_amount, OrderAmount.Quote taker_amount)
    end in
  MarketChange.mk (Some input) (Some output) None (Some output) []
    (part_map divisibility id part []) (whole_map whole []) [] []
    (Payment.mk id (Payment.add_entry (maker_out id sd) taker maker_amount [])
       (Payment.add_entry (taker_out id sd) receiver taker_amount
          (pay_makers divisibility id sd ex []))) false.

Lemma market_data_storage sd s : OrderBook.market_data self sd s = (Ok (levels s id sd), s).
Proof. by destruct sd. Qed.

Lemma market_order_fill o s : Inv divisibility s →
  OrderBook.calculate_market_order_impact self o s =
  (let dir := MarketOrder.direction o in
   let q := queue s id (switched dir) in
   i ← lift (fill (maker_out id (switched dir)) q
          (OrderBook.mkImpact (MarketOrder.amount o) BalanceUnit.zero BalanceUnit.zero [] [] []));
   _ ← ensure (BalanceUnit.is_zero (OrderBook.remaining_amount i))
         (OrderBookError NotEnoughLiquidityInOrderBook);
   let '(input, output) :=
     match dir with
     | Buy => (OrderAmount.Quote (OrderBook.maker_amount i), OrderAmount.Base (OrderBook.taker_amount i))
     | Sell => (OrderAmount.Base (OrderBook.maker_amount i), OrderAmount.Quote (OrderBook.taker_amount i))
     end in
   mret (MarketChange.mk (Some input) (Some output) None (Some output) []
     (OrderBook.limit_orders_to_part_execute i) (OrderBook.limit_orders_to_full_execute i) [] []
     (Payment.mk id
        (Payment.add_entry (maker_out id (switched dir)) (MarketOrder.owner o) (OrderBook.maker_amount i) [])
        (Payment.add_entry (taker_out id (switched dir))
           (default (MarketOrder.owner o) (MarketOrder.to o)) (OrderBook.taker_amount i)
           (OrderBook.payment_to_unlock i))) false)) s.
Proof.
  intros HI. unfold OrderBook.calculate_market_order_impact.
  rewrite (M_bind_run_ok _ _ _ _ _ (market_data_storage _ s)).
  unfold OrderBook.calculate_market_impact.
  destruct (MarketOrder.direction o) eqn:E; cbn zeta iota beta; unfold mbind at 1, M_bind at 1;
    rewrite (market_loop_fill divisibility self) by (done || by apply levels_listed); cbn [switched];
    by destruct (fill _ _ _).
Qed.

Section order.
Context (o : MarketOrder.t) (s : Storage).
Context (HI : Inv divisibility s) (Hbq : base id ≠ quote id).
Context (Ha : amount_ok d (MarketOrder.amount o)) (Hn : 0 < inner (MarketOrder.amount o)).
Abbreviation n := (inner (MarketOrder.amount o)).
Abbreviation q := (queue s id (switched (MarketOrder.direction o))).
Abbreviation whole := (fst (take q n)).
Abbreviation part := (snd (take q n)).
Abbreviation change :=
  (deal_change (MarketOrder.direction o) (MarketOrder.owner o)
     (default (MarketOrder.owner o) (MarketOrder.to o)) whole part).

Lemma queue_in_side sd : Forall (in_side divisibility id sd) (queue s id sd).
Proof.
  apply Forall_forall. intros o' Ho. split; [by eapply queue_order|].
  by apply (elem_of_queue divisibility) in Ho as [_ ?].
Qed.

Lemma take_q : volume whole + part_amount part = Z.min n (volume q).
Proof.
  pose proof (take_spec q n (queue_positive divisibility _ _ _ HI) Hn) as Ht.
  destruct (take q n). by destruct Ht as (rest & _ & ? & _).
Qed.

Lemma start_accs : accs_ok divisibility id (switched (MarketOrder.direction o))
  (OrderBook.mkImpact (MarketOrder.amount o) BalanceUnit.zero BalanceUnit.zero [] [] []).
Proof. split; by left. Qed.

Lemma executed_ne : 0 < volume q → executed divisibility id whole part ≠ [].
Proof.
  intros Hv E. pose proof take_q as Ht. unfold executed in E.
  apply app_nil in E as [E1 E2]. apply fmap_nil_inv in E1. rewrite E1 in Ht.
  destruct part as [[o' r]|]; [done|]. unfold volume at 1 in Ht. cbn in Ht. lia.
Qed.

Lemma market_order_ok c s' :
  OrderBook.calculate_market_order_impact self o s = (Ok c, s') →
  s' = s ∧
  (n ≤ volume q ∧
   deal_fits divisibility id (switched (MarketOrder.direction o)) (executed divisibility id whole part)) ∧
  c = change.
Proof.
  rewrite market_order_fill by done. cbn zeta. intros Hr.
  apply M_bind_ok in Hr as (i & s1 & [Hf ->]%M_lift_ok & Hr).
  apply M_bind_ok in Hr as ([] & s2 & [Hz ->]%M_ensure_ok & Hr).
  apply (fill_spec divisibility id Hbq) in Hf; [|apply queue_in_side|apply start_accs|done|done].
  unfold BalanceUnit.is_zero in Hz. zbool. destruct Hf as [Fr Ft Fm Fa Fe Fd Fu Fp Ff]. simpl in *.
  pose proof take_q as Hq. assert (n ≤ volume q) as Hv by lia.
  destruct Fe as [Et Em]; [right; apply executed_ne; lia|].
  pose proof Et as Et'. rewrite (amount_eta _ _ Et), Ft in Et'.
  pose proof Em as Em'. rewrite (amount_eta _ _ Em), Fm in Em'.
  assert (deal_fits divisibility id (switched (MarketOrder.direction o)) (executed divisibility id whole part))
    as Hfits by by split.
  rewrite (amount_eta _ _ Et), (amount_eta _ _ Em), Ft, Fm, Fu, Fp, Ff in Hr.
  by destruct (MarketOrder.direction o); run.
Qed.

Lemma market_order_total : n ≤ volume q → no_overflow divisibility id whole part →
  OrderBook.calculate_market_order_impact self o s = (Ok change, s).
Proof.
  intros Hv [Hmul Howed Hdue].
  assert (∃ c, OrderBook.calculate_market_order_impact self o s = (Ok c, s)) as [c Hc].
  { rewrite market_order_fill by done. cbn zeta.
    destruct (fill_total divisibility id Hbq (switched (MarketOrder.direction o)) q
      (OrderBook.mkImpact (MarketOrder.amount o) BalanceUnit.zero BalanceUnit.zero [] [] []))
      as [i Hf]; try done; [apply queue_in_side|apply start_accs|].
    rewrite Hf. exec.
    apply (fill_spec divisibility id Hbq) in Hf; [|apply queue_in_side|apply start_accs|done|done].
    unfold BalanceUnit.is_zero. pose proof (fi_remaining _ _ _ _ _ _ _ Hf) as Hr. simpl in Hr.
    pose proof take_q. rewrite (proj2 (Z.eqb_eq _ _)) by lia. exec.
    destruct (MarketOrder.direction o); eauto. }
  by apply market_order_ok in Hc as Hc'; destruct Hc' as (_ & _ & <-).
Qed.

Lemma market_order_short : volume q < n →
  ∃ e, OrderBook.calculate_market_order_impact self o s = (Err e, s).
Proof.
  intros Hv. destruct (OrderBook.calculate_market_order_impact self o s) as [[c|e] s'] eqn:Hr.
  { apply market_order_ok in Hr as (_ & [? _] & _). lia. }
  exists e. rewrite market_order_fill in Hr by done. cbn zeta in Hr.
  destruct (fill _ _ _) as [i|e']; [|by injection Hr as <- <-]. revert Hr. exec.
  destruct (BalanceUnit.is_zero _); exec; [|by intros [= <- <-]].
  by destruct (MarketOrder.direction o).
Qed.
End order.
End market_order.
