(* ===== verification/Priority.v ===== *)
(** * Price-time priority

    The queue that a deal is filled from is ordered by price, best first, and
    within a price by the time of placement; a market order executes a prefix of
    it, with at most the last order of the prefix executed in part. *)

From Stdlib Require Import Sorting.Sorted.
From stdpp Require Import sorting.
From S2P Require Import Prelude BTreeMap FixedPoint Units OrderTypes DataLayer StorageProps World.
From S2P Require Import Payments OrderBook Matching.

(** Prices from the point of view of a taker of side [sd]. *)
Definition no_worse (sd : PriceVariant) (p p' : OrderPrice) : Prop :=
  match sd with
  | Sell => BalanceUnit.value p ≤ BalanceUnit.value p'
  | Buy => BalanceUnit.value p' ≤ BalanceUnit.value p
  end.

Definition better (sd : PriceVariant) (p p' : OrderPrice) : Prop :=
  match sd with
  | Sell => BalanceUnit.value p < BalanceUnit.value p'
  | Buy => BalanceUnit.value p' < BalanceUnit.value p
  end.

Lemma StronglySorted_reverse {A} (R : A → A → Prop) (l : list A) :
  StronglySorted R l → StronglySorted (λ x y, R y x) (reverse l).
Proof.
  induction 1 as [|x l Hl IH Hx]; [constructor|]. rewrite reverse_cons.
  apply StronglySorted_app_2; [|done|by repeat constructor].
  intros y z Hy Hz. apply list_elem_of_singleton in Hz as ->.
  rewrite Forall_forall in Hx. apply Hx. by rewrite reverse_Permutation in Hy.
Qed.

Section priority.
Context {Cfg : Config} (divisibility : OrderBookId → bool) (self : OrderBook.t).
Abbreviation id := (OrderBook.order_book_id self).

Lemma levels_sorted s sd : Inv divisibility s →
  StronglySorted (λ x y, better sd (fst x) (fst y)) (levels s id sd).
Proof.
  intros HI. assert (∀ sd, StronglySorted (λ x y : OrderPrice * OrderVolume,
    BalanceUnit.value (fst x) < BalanceUnit.value (fst y)) (default [] (side_agg sd s !! id))) as Hs.
  { intros sd'. pose proof (inv_agg_wf _ _ HI id sd') as Hwf. unfold bt_wf in Hwf.
    induction Hwf as [|x l Hl IH Hx]; constructor; [done|].
    eapply Forall_impl; [exact Hx|]. simpl. intros y. rewrite BalanceUnit.cmp_value.
    apply Z.compare_lt_iff. }
  destruct sd; simpl; [apply StronglySorted_reverse, (Hs Buy)|apply (Hs Sell)].
Qed.

Lemma orders_at_price s sd p o : Inv divisibility s →
  o ∈ orders_at s id (index (side_orders sd s !! (id, p))) → LimitOrder.price o = p.
Proof.
  intros HI [Hi Ho]%(elem_of_orders_at divisibility self); [|done].
  apply (inv_side_iff _ _ HI) in Hi as (o' & Ho' & _ & <-). by simplify_eq.
Qed.

Lemma queue_of_prices s sd data o : Inv divisibility s →
  o ∈ queue_of s id sd data → ∃ q, q ∈ data ∧ LimitOrder.price o = fst q.
Proof.
  intros HI (q & Ho & Hq)%list_elem_of_bind. exists q. split; [done|]. by eapply orders_at_price.
Qed.

Lemma better_no_worse sd p p' : better sd p p' → no_worse sd p p'.
Proof. destruct sd; simpl; lia. Qed.

Lemma StronglySorted_same (sd : PriceVariant) p (os : list LimitOrder.t) :
  (∀ o, o ∈ os → LimitOrder.price o = p) →
  StronglySorted (λ o o', no_worse sd (LimitOrder.price o) (LimitOrder.price o')) os.
Proof.
  induction os as [|o os IH]; intros Hp; constructor.
  - apply IH. intros o' Ho'. apply Hp. by right.
  - apply Forall_forall. intros o' Ho'. rewrite (Hp o), (Hp o') by (by left || by right).
    destruct sd; simpl; lia.
Qed.

Lemma queue_sorted s sd : Inv divisibility s →
  StronglySorted (λ o o', no_worse sd (LimitOrder.price o) (LimitOrder.price o')) (queue s id sd).
Proof.
  intros HI. pose proof (levels_sorted s sd HI) as Hs. unfold queue.
  induction Hs as [|q data Hd IH Hq]; [constructor|]. rewrite queue_of_cons.
  apply StronglySorted_app_2; [| |done].
  2: { eapply StronglySorted_same. intros o Ho. by eapply orders_at_price. }
  - intros o o' Ho (q' & Hq' & ->)%queue_of_prices; [|done].
    apply orders_at_price in Ho as ->; [|done]. rewrite Forall_forall in Hq.
    by apply better_no_worse, Hq.
Qed.

Lemma filter_all {A} (P : A → Prop) `{∀ x, Decision (P x)} (l : list A) : (∀ x, x ∈ l → P x) → filter P l = l.
Proof.
  induction l as [|x l IH]; intros Hl; [done|]. rewrite filter_cons_True by (apply Hl; left).
  f_equal. apply IH. intros y Hy. apply Hl. by right.
Qed.

Lemma filter_none {A} (P : A → Prop) `{∀ x, Decision (P x)} (l : list A) : (∀ x, x ∈ l → ¬ P x) → filter P l = [].
Proof.
  induction l as [|x l IH]; intros Hl; [done|]. rewrite filter_cons_False by (apply Hl; left).
  apply IH. intros y Hy. apply Hl. by right.
Qed.

Lemma queue_of_other s sd p data : Inv divisibility s → p ∉ data.*1 →
  filter (λ o, LimitOrder.price o = p) (queue_of s id sd data) = [].
Proof.
  intros HI Hp. apply filter_none. intros o (q & Hq & ->)%queue_of_prices; [|done].
  intros <-. apply Hp. by apply list_elem_of_fmap_2.
Qed.

Lemma queue_of_level s sd p data : Inv divisibility s → NoDup data.*1 → p ∈ data.*1 →
  filter (λ o, LimitOrder.price o = p) (queue_of s id sd data) =
  orders_at s id (index (side_orders sd s !! (id, p))).
Proof.
  intros HI. induction data as [|q data IH]; [by intros _ ?%elem_of_nil|].
  intros [Hq Hnd]%NoDup_cons Hp. rewrite queue_of_cons, filter_app.
  destruct (decide (fst q = p)) as [<-|Hne].
  - rewrite (filter_all _ (orders_at _ _ _)), queue_of_other, app_nil_r; try done.
    intros o. by apply orders_at_price.
  - apply elem_of_cons in Hp as [|Hp]; [done|]. rewrite (filter_none _ (orders_at _ _ _)), IH; try done.
    by intros o ->%orders_at_price.
Qed.

Lemma levels_NoDup s sd : Inv divisibility s → NoDup (levels s id sd).*1.
Proof.
  intros HI. pose proof (levels_sorted s sd HI) as Hs.
  induction Hs as [|q data Hd IH Hq]; [constructor|]. simpl. apply NoDup_cons. split; [|done].
  intros (q' & Heq & Hq')%list_elem_of_fmap. rewrite Forall_forall in Hq. specialize (Hq _ Hq').
  rewrite Heq in Hq. destruct sd; simpl in Hq; lia.
Qed.

Lemma levels_price s sd p : Inv divisibility s → BalanceUnit.is_divisible p = true →
  p ∈ (levels s id sd).*1 ↔ is_Some (side_orders sd s !! (id, p)).
Proof.
  intros HI Hp. rewrite (levels_Permutation self s sd), list_elem_of_fmap. split.
  - intros (q & -> & Hq). pose proof (agg_listed divisibility self s sd HI) as Hl.
    unfold listed in Hl. rewrite Forall_forall in Hl. destruct (Hl q Hq) as (l & El & _). eauto.
  - intros [l El]. pose proof (inv_agg_get _ _ HI id sd p Hp) as Hg. rewrite El in Hg.
    apply bt_get_elem in Hg as (p' & Hc & Hin). eexists. split; [|exact Hin]. simpl.
    pose proof (inv_agg_keys _ _ HI id sd) as Hk. rewrite Forall_forall in Hk.
    specialize (Hk _ Hin). apply BalanceUnit.cmp_eq_same; [by rewrite Hp|done].
Qed.

(** At one price, the queue is the price level. *)
Lemma queue_level s sd p : Inv divisibility s → BalanceUnit.is_divisible p = true →
  filter (λ o, LimitOrder.price o = p) (queue s id sd) =
  orders_at s id (index (side_orders sd s !! (id, p))).
Proof.
  intros HI Hp. destruct (decide (p ∈ (levels s id sd).*1)) as [Hin|Hni].
  - apply queue_of_level; [done|by apply levels_NoDup|done].
  - unfold queue. rewrite queue_of_other by done. rewrite levels_price in Hni by done.
    by destruct (side_orders sd s !! (id, p)); [destruct Hni; eauto|].
Qed.

Lemma orders_at_ext s s' ids : (∀ j, j ∈ ids → LimitOrders s' !! (id, j) = LimitOrders s !! (id, j)) →
  orders_at s' id ids = orders_at s id ids.
Proof.
  intros Hext. apply list_omap_ext. apply Forall_Forall2_diag, Forall_forall. auto.
Qed.

Lemma orders_at_app s l1 l2 : orders_at s id (l1 ++ l2) = orders_at s id l1 ++ orders_at s id l2.
Proof. apply omap_app. Qed.

Lemma level_after_insert o s s' p sd : Inv divisibility s →
  StorageDataLayer.insert_limit_order id o s = (Ok tt, s') →
  orders_at s' id (index (side_orders sd s' !! (id, p))) =
  orders_at s id (index (side_orders sd s !! (id, p))) ++
  if decide (p = LimitOrder.price o ∧ sd = LimitOrder.side o) then [o] else [].
Proof.
  intros HI (l & u & v & m & Hins & ->)%insert_ok_iff. destruct Hins as [Hf Hl _ _ _].
  assert (∀ sd, orders_at (inserted id o l u m s) id (index (side_orders sd s !! (id, p))) =
          orders_at s id (index (side_orders sd s !! (id, p)))) as Hold.
  { intros sd'. apply orders_at_ext. intros j Hj. unfold inserted. storage_simpl.
    apply lookup_insert_ne. intros [= <-]. by eapply index_fresh_side in Hj. }
  apply try_push_Some in Hl as [-> _]. case_decide as Hd.
  - destruct Hd as [-> ->]. unfold inserted at 2. storage_simpl. rewrite lookup_insert_eq. simpl.
    rewrite orders_at_app, Hold. f_equal. unfold orders_at, inserted. simpl. storage_simpl.
    by rewrite lookup_insert_eq.
  - rewrite app_nil_r, <- Hold. f_equal. f_equal. unfold inserted. storage_simpl.
    destruct (decide (sd = LimitOrder.side o)) as [->|Hne].
    + storage_simpl. apply lookup_insert_ne. naive_solver.
    + by rewrite side_orders_set_ne.
Qed.

Lemma orders_at_ids s ids : Inv divisibility s → (∀ j, j ∈ ids → is_Some (LimitOrders s !! (id, j))) →
  LimitOrder.id <$> orders_at s id ids = ids.
Proof.
  intros HI. induction ids as [|j ids IH]; intros Hs; [done|].
  destruct (Hs j) as [o Ho]; [left|]. unfold orders_at. simpl. rewrite Ho. simpl.
  destruct (inv_order _ _ HI _ _ _ Ho) as [-> _]. f_equal. apply IH. intros i Hi. apply Hs. by right.
Qed.

Lemma queue_of_NoDup s sd data : Inv divisibility s → NoDup data.*1 →
  NoDup (LimitOrder.id <$> queue_of s id sd data).
Proof.
  intros HI. induction data as [|q data IH]; [by constructor|].
  rewrite fmap_cons. intros [Hq Hnd]%NoDup_cons. rewrite queue_of_cons, fmap_app. apply NoDup_app.
  assert (∀ j, j ∈ index (side_orders sd s !! (id, fst q)) → is_Some (LimitOrders s !! (id, j))) as Hst.
  { intros j. by apply (level_ids_stored divisibility). }
  split; [rewrite orders_at_ids by done; apply (inv_side_nodup _ _ HI)|]. split; [|by apply IH].
  intros i. rewrite orders_at_ids by done. intros (o & Ho & _ & Hp)%(inv_side_iff _ _ HI).
  intros (o' & -> & Ho')%list_elem_of_fmap. apply Hq.
  pose proof Ho' as (q' & Hq' & Hp')%queue_of_prices; [|done].
  apply list_elem_of_bind in Ho' as (q2 & [_ Hst']%(elem_of_orders_at divisibility self) & _); [|done].
  simplify_eq. rewrite <- Hp, Hp'. by apply list_elem_of_fmap_2.
Qed.

Lemma queue_NoDup s sd : Inv divisibility s → NoDup (LimitOrder.id <$> queue s id sd).
Proof. intros HI. apply queue_of_NoDup; [done|by apply levels_NoDup]. Qed.
End priority.

(** ** Properties *)

Section properties.
Context {Cfg : Config} {SK : StorageKeys} (divisibility : OrderBookId → bool) (self : OrderBook.t).
Abbreviation id := (OrderBook.order_book_id self).

(** C4. The queue of a side holds exactly the open orders of that side, its
    prices never improve from front to back, and placing an order puts it behind
    every earlier order of its price and changes nothing else at any price: price
    first, then time of placement. *)
Theorem queue_price_time_priority s o s' : Inv divisibility s → order_ok divisibility id o →
  StorageDataLayer.insert_limit_order id o s = (Ok tt, s') →
  (∀ sd o', o' ∈ queue s' id sd ↔
     LimitOrders s' !! (id, LimitOrder.id o') = Some o' ∧ LimitOrder.side o' = sd) ∧
  (∀ sd, StronglySorted (λ o1 o2, no_worse sd (LimitOrder.price o1) (LimitOrder.price o2))
           (queue s' id sd)) ∧
  (∀ sd p, BalanceUnit.is_divisible p = true →
     filter (λ o', LimitOrder.price o' = p) (queue s' id sd) =
     filter (λ o', LimitOrder.price o' = p) (queue s id sd) ++
     if decide (p = LimitOrder.price o ∧ sd = LimitOrder.side o) then [o] else []).
Proof.
  intros HI Ho Hs. pose proof (insert_Inv _ _ _ _ _ HI Ho Hs) as HI'.
  split; [intros; by apply (elem_of_queue divisibility)|]. split; [intros; by apply (queue_sorted divisibility)|].
  intros sd p Hp. rewrite !(queue_level divisibility) by done.
  by apply (level_after_insert divisibility).
Qed.

(** C3. Calculating a market order of amount [n] never changes the data.  It is
    refused when the side it meets holds less than [n]; otherwise, unless an
    amount overflows, the orders it executes are a prefix of the queue, whole
    except possibly the last one, their volume is exactly [n], and the change
    pays every maker and the taker what those executions are worth. *)
Theorem market_order_matching o s : Inv divisibility s → base id ≠ quote id →
  amount_ok (divisibility id) (MarketOrder.amount o) → 0 < inner (MarketOrder.amount o) →
  let dir := MarketOrder.direction o in
  let n := inner (MarketOrder.amount o) in
  let q := queue s id (switched dir) in
  let run := OrderBook.calculate_market_order_impact self o s in
  let whole := fst (take q n) in
  let part := snd (take q n) in
  let change :=
    deal_change divisibility self dir (MarketOrder.owner o)
      (default (MarketOrder.owner o) (MarketOrder.to o)) whole part in
  if volume q <? n then ∃ e, run = (Err e, s)
  else
    (∃ rest, q = whole ++ rest ∧ volume whole + part_amount part = n ∧
     match part with
     | Some (o', r) => head rest = Some o' ∧ 0 < r < inner (LimitOrder.amount o')
     | None => True
     end) ∧
    (no_overflow divisibility id whole part → run = (Ok change, s)) ∧
    (∀ c s', run = (Ok c, s') → s' = s ∧ c = change).
Proof.
  intros HI Hbq Ha Hn dir n q run whole part change.
  destruct (Z.ltb_spec (volume q) n) as [Hlt|Hge]; [by apply (market_order_short divisibility)|].
  split; [|split; [by apply (market_order_total divisibility)|]].
  - pose proof (take_spec q n (queue_positive divisibility _ _ _ HI) Hn) as Ht.
    unfold part, whole. destruct (take q n) as [w pt]. destruct Ht as (rest & Hq & Hv & Hp).
    exists rest. split; [done|]. split; [simpl; lia|]. simpl.
    destruct pt as [[o' r]|]; [|done]. by destruct Hp as [[rest' ->] ?].
  - by intros c s' (-> & _ & ->)%(market_order_ok divisibility).
Qed.
End properties.

(** ** Examples *)

#[local] Existing Instance RuntimeConfig.
#[local] Existing Instance Samples.plain_keys.

Module MarketSamples.
(** A book with tick and step of one unit and lots from 1 to 1000. *)
Definition order_book : OrderBook.t :=
  OrderBook.new Samples.book (Samples.e18 1) (Samples.e18 1) (Samples.e18 1) (Samples.e18 1000).

(** Account 8 sells 2 units. *)
Definition sell_two : MarketOrder.t :=
  MarketOrder.new 8%N Sell Samples.book (Samples.e18 2) None.
End MarketSamples.

Lemma queue_price_time_priority_witness :
  filter (λ o', LimitOrder.price o' = Samples.e18 10)
    (queue (snd (StorageDataLayer.insert_limit_order Samples.book (Samples.order 2 9%N Buy 10 1)
                   Samples.one_order)) Samples.book Buy) =
  [Samples.order 1 7%N Buy 10 5; Samples.order 2 9%N Buy 10 1].
Proof.
  destruct (queue_price_time_priority Samples.divisibility MarketSamples.order_book
    Samples.one_order (Samples.order 2 9%N Buy 10 1)
    (snd (StorageDataLayer.insert_limit_order Samples.book (Samples.order 2 9%N Buy 10 1)
            Samples.one_order))) as (_ & _ & Hq).
  - apply Samples.one_order_Inv.
  - split; done.
  - vm_compute. reflexivity.
  - etransitivity; [exact (Hq Buy (Samples.e18 10) eq_refl)|]. vm_compute. reflexivity.
Defined.

Lemma market_order_matching_witness :
  ∃ c, OrderBook.calculate_market_order_impact MarketSamples.order_book MarketSamples.sell_two
         Samples.one_order = (Ok c, Samples.one_order).
Proof.
  pose proof (market_order_matching Samples.divisibility MarketSamples.order_book
    MarketSamples.sell_two Samples.one_order Samples.one_order_Inv ltac:(done) ltac:(split; done)
    ltac:(done)) as Hm.
  cbv zeta in Hm. destruct (_ <? _) eqn:E; [vm_compute in E; discriminate|].
  destruct Hm as (_ & Hrun & _). eexists. apply Hrun. split; [|vm_compute; discriminate..].
  intros p Hp. vm_compute in Hp. apply list_elem_of_singleton in Hp as ->. by eexists.
Defined.
