(* ===== verification/CrossSpread.v ===== *)
(** * Limit orders that cross the spread

    An order whose price reaches the other side is split: what the other side
    offers at no worse a price is a deal, the rest becomes a limit order.  A rest
    below the minimal lot is either dealt beyond the limit price, if the side has
    the volume for it, or dropped. *)

From S2P Require Import Prelude BTreeMap FixedPoint Units OrderTypes DataLayer StorageProps World.
From S2P Require Import Payments OrderBook Matching Priority.

(** ** Depth up to a price *)

(** The levels a taker with limit [price] reaches. *)
Fixpoint reachable (stop : comparison) (price : OrderPrice) (data : list (OrderPrice * OrderVolume))
    : list (OrderPrice * OrderVolume) :=
  match data with
  | [] => []
  | q :: data => if bool_decide (cmp (fst q) price = stop) then [] else q :: reachable stop price data
  end.

Definition depth (data : list (OrderPrice * OrderVolume)) : Z := sum_by (λ q, inner (snd q)) data.

Section depth.
Context (d : bool).

Definition levels_ok (data : list (OrderPrice * OrderVolume)) : Prop :=
  Forall (λ q, amount_ok d (snd q)) data.

Lemma depth_nonneg data : levels_ok data → 0 ≤ depth data.
Proof.
  intros Hd. apply sum_by_nonneg. intros q Hq. unfold levels_ok in Hd. rewrite Forall_forall in Hd.
  by destruct (Hd q Hq) as [_ [? _]].
Qed.

Lemma reachable_ok stop price data : levels_ok data → levels_ok (reachable stop price data).
Proof.
  induction 1 as [|q data Hq Hd IH]; simpl; [constructor|]. case_bool_decide; by constructor.
Qed.

(** Saturating addition to a sum that starts from zero. *)
Lemma acc_sat_add v x : acc_ok d v → amount_ok d x → inner v + inner x ≤ u128_max →
  amount_ok d (BalanceUnit.saturating_add v x) ∧
  inner (BalanceUnit.saturating_add v x) = inner v + inner x.
Proof.
  intros Hv [Hd Hw] Hle. destruct Hv as [->|[Hvd Hvw]].
  - rewrite BalanceUnit.saturating_add_zero_l by done. split; [done|]. simpl. lia.
  - rewrite BalanceUnit.saturating_add_same by congruence. simpl. destruct Hvw, Hw.
    split; [split; [done|split; simpl; lia]|]. lia.
Qed.

Lemma ge_same (u v : OrderVolume) : amount_ok d u → amount_ok d v →
  BalanceUnit.ge u v = (inner v <=? inner u).
Proof.
  intros [Hu _] [Hv _]. rewrite BalanceUnit.ge_value. apply eq_true_iff_eq. rewrite !Z.leb_le.
  apply BalanceUnit.value_le_same. congruence.
Qed.

Lemma sat_sub_same (u v : OrderVolume) : amount_ok d u → amount_ok d v → inner v ≤ inner u →
  amount_ok d (BalanceUnit.saturating_sub u v) ∧
  inner (BalanceUnit.saturating_sub u v) = inner u - inner v.
Proof.
  intros [Hu [? ?]] [Hv [? ?]] Hle. rewrite BalanceUnit.saturating_sub_same by (done || congruence).
  simpl. split; [split; [done|split; simpl; lia]|lia].
Qed.

Lemma depth_loop_ok stop price data ma am : levels_ok data → acc_ok d ma → amount_ok d am →
  0 < inner am → inner ma + inner am ≤ u128_max →
  let '(ma', am') := OrderBook.depth_volume_loop stop price data ma am in
  let R := Z.min (inner am) (depth (reachable stop price data)) in
  acc_ok d ma' ∧ inner ma' = inner ma + R ∧ acc_ok d am' ∧ inner am' = inner am - R.
Proof.
  intros Hd. revert ma am. induction Hd as [|[p v] data Hv Hd IH]; intros ma am Hma Ham Hpos Hle.
  { cbn. replace (Z.min (inner am) 0) with 0 by (destruct Ham as [_ [? _]]; lia).
    split; [done|]. split; [lia|]. split; [by right|lia]. }
  simpl in Hv. cbn [OrderBook.depth_volume_loop reachable fst].
  pose proof (depth_nonneg _ (reachable_ok stop price data Hd)) as HR.
  case_bool_decide.
  { unfold depth. rewrite sum_by_nil. destruct Ham as [? [? ?]].
    replace (Z.min (inner am) 0) with 0 by lia. split; [done|]. split; [lia|]. split; [by right|lia]. }
  unfold depth. rewrite sum_by_cons. fold (depth (reachable stop price data)). cbn [snd].
  pose proof Hv as [_ [? ?]]. rewrite ge_same by done.
  destruct (Z.leb_spec (inner v) (inner am)) as [Hle'|Hlt]; cbn beta iota.
  - destruct (acc_sat_add ma v) as [Ha1 Ha2]; [done|done|lia|].
    destruct (sat_sub_same am v) as [Hs1 Hs2]; [done..|].
    unfold BalanceUnit.is_zero. rewrite Hs2. destruct (Z.eqb_spec (inner am - inner v) 0).
    + rewrite Ha2, Hs2. split; [by right|]. split; [lia|]. split; [by right|lia].
    + specialize (IH _ _ (or_intror Ha1) Hs1). rewrite Ha2, Hs2 in IH.
      specialize (IH ltac:(lia) ltac:(lia)). destruct (OrderBook.depth_volume_loop _ _ _ _ _).
      destruct IH as (? & -> & ? & ->). split; [done|]. split; [lia|]. split; [done|lia].
  - destruct (acc_sat_add ma am) as [Ha1 Ha2]; [done|done|lia|].
    change (BalanceUnit.is_zero BalanceUnit.zero) with true. cbn beta iota. rewrite Ha2.
    split; [by right|]. split; [lia|]. split; [by left|]. cbn. lia.
Qed.
End depth.

(** ** Sums that may still be the indivisible zero *)

Section accs.
Context (d : bool).

Lemma acc_wf v : acc_ok d v → BalanceUnit.wf v.
Proof. intros [->|[_ ?]]; [split; done|done]. Qed.

Lemma acc_value v : acc_ok d v → BalanceUnit.value v = BalanceUnit.value (BalanceUnit.mk (inner v) d).
Proof. intros [->|[Hd _]]; unfold BalanceUnit.value; simpl; [by destruct d|by rewrite Hd]. Qed.

Lemma value_inner_le x y : BalanceUnit.value (BalanceUnit.mk x d) ≤ BalanceUnit.value (BalanceUnit.mk y d) ↔ x ≤ y.
Proof. by apply BalanceUnit.value_le_same. Qed.

Lemma acc_ge u v : acc_ok d u → acc_ok d v → BalanceUnit.ge u v = (inner v <=? inner u).
Proof.
  intros Hu Hv. rewrite BalanceUnit.ge_value, (acc_value u Hu), (acc_value v Hv).
  apply eq_true_iff_eq. rewrite !Z.leb_le. apply value_inner_le.
Qed.

Lemma acc_lt u v : acc_ok d u → acc_ok d v → BalanceUnit.lt u v = (inner u <? inner v).
Proof.
  intros Hu Hv. rewrite BalanceUnit.lt_value, (acc_value u Hu), (acc_value v Hv).
  apply eq_true_iff_eq. rewrite !Z.ltb_lt. pose proof (value_inner_le (inner v) (inner u)). lia.
Qed.

(** A result in the finer precision of two sums is a sum again. *)
Lemma acc_result u v r : acc_ok d u → acc_ok d v → BalanceUnit.wf r →
  BalanceUnit.is_divisible r = BalanceUnit.is_divisible u || BalanceUnit.is_divisible v →
  (u = BalanceUnit.zero → v = BalanceUnit.zero → BalanceUnit.value r = 0) → acc_ok d r.
Proof.
  intros [->|[Hu _]] [->|[Hv _]] Hw Hr Hz; simpl in *.
  - left. destruct r as [x e]. simpl in *. subst e. specialize (Hz eq_refl eq_refl).
    unfold BalanceUnit.value in Hz. simpl in Hz. unfold BalanceUnit.zero, BalanceUnit.new.
    f_equal. unfold BalanceUnit.RATIO in Hz. lia.
  - right. split; congruence.
  - right. rewrite orb_false_r in Hr. split; congruence.
  - right. rewrite Hu, Hv, orb_diag in Hr. done.
Qed.

Lemma acc_inner r x : acc_ok d r → BalanceUnit.value r = BalanceUnit.value (BalanceUnit.mk x d) → inner r = x.
Proof.
  intros Hr. rewrite (acc_value r Hr). unfold BalanceUnit.value. simpl.
  destruct d; [done|]. unfold BalanceUnit.RATIO. lia.
Qed.

Lemma acc_sub u v r : acc_ok d u → acc_ok d v → BalanceUnit.checked_sub u v = Some r →
  acc_ok d r ∧ inner r = inner u - inner v.
Proof.
  intros Hu Hv (Hd & Hval & Hw)%BalanceUnit.checked_sub_Some; [|by apply acc_wf..].
  assert (acc_ok d r) as Hr by (eapply acc_result; [exact Hu|exact Hv|done..|]; intros -> ->; done).
  split; [done|]. apply acc_inner; [done|]. rewrite Hval, (acc_value u Hu), (acc_value v Hv).
  unfold BalanceUnit.value. simpl. destruct d; unfold BalanceUnit.RATIO; lia.
Qed.

Lemma acc_acc_add u v r : acc_ok d u → acc_ok d v → BalanceUnit.checked_add u v = Some r →
  acc_ok d r ∧ inner r = inner u + inner v.
Proof.
  intros Hu Hv (Hd & Hval & Hw)%BalanceUnit.checked_add_iff; [|by apply acc_wf..].
  assert (acc_ok d r) as Hr by (eapply acc_result; [exact Hu|exact Hv|done..|]; intros -> ->; done).
  split; [done|]. apply acc_inner; [done|]. rewrite Hval, (acc_value u Hu), (acc_value v Hv).
  unfold BalanceUnit.value. simpl. destruct d; unfold BalanceUnit.RATIO; lia.
Qed.

Lemma acc_nonzero v : acc_ok d v → inner v ≠ 0 → v = BalanceUnit.mk (inner v) d ∧ amount_ok d v.
Proof. intros [->|Hv] Hn; [done|]. split; [by apply amount_eta|done]. Qed.

(** The saturating sum of volumes. *)
Lemma sat_sum_ok (data : list (OrderPrice * OrderVolume)) v : levels_ok d data → acc_ok d v →
  acc_ok d (foldl (λ sum '(_, volume), BalanceUnit.saturating_add sum volume) v data) ∧
  inner (foldl (λ sum '(_, volume), BalanceUnit.saturating_add sum volume) v data) =
  Z.min u128_max (inner v + depth data).
Proof.
  intros Hd. revert v. induction Hd as [|[p x] data Hx Hd IH]; intros v Hv.
  { unfold depth. rewrite sum_by_nil. cbn [foldl]. split; [done|]. destruct (acc_wf v Hv). lia. }
  cbn [foldl]. simpl in Hx. pose proof (depth_nonneg d data Hd).
  assert (acc_ok d (BalanceUnit.saturating_add v x) ∧
          inner (BalanceUnit.saturating_add v x) = Z.min u128_max (inner v + inner x)) as [Ha Hi].
  { destruct Hx as [Hxd Hxw]. destruct Hv as [->|[Hvd Hvw]].
    - rewrite BalanceUnit.saturating_add_zero_l by done. split; [by right|].
      destruct Hxw. cbn. lia.
    - rewrite BalanceUnit.saturating_add_same by (done || congruence). destruct Hvw, Hxw.
      split; [right; split; [done|split; simpl; lia]|done]. }
  destruct (IH _ Ha) as [? ->]. split; [done|]. rewrite Hi. unfold depth. rewrite sum_by_cons.
  fold (depth data). destruct Hx as [_ [? ?]]. cbn [snd]. lia.
Qed.
End accs.

(** ** The split *)

(** How an order of [amount] splits into a deal and a limit order, when [reach]
    is offered at no worse a price and [side] on the whole side. *)
Definition cross_split (amount min_lot reach side : Z) : Z * Z :=
  let market := Z.min amount reach in
  if amount - market <? min_lot then
    if amount <=? Z.min u128_max side then (amount, 0) else (market, 0)
  else (market, amount - market).

Section cross.
Context {Cfg : Config} {SK : StorageKeys} (divisibility : OrderBookId → bool) (self : OrderBook.t).
Abbreviation id := (OrderBook.order_book_id self).
Abbreviation d := (divisibility id).

Lemma listed_levels_ok s sd data : Inv divisibility s → listed divisibility self s sd data →
  levels_ok d data.
Proof.
  intros HI Hl. eapply Forall_impl; [exact Hl|]. intros [p v] (l & El & _ & Hv). simpl in Hv. subst v. simpl. split; [done|].
  split; simpl; [by apply (volume_nonneg divisibility)|by eapply inv_volume].
Qed.

Lemma market_volume_ok s sd v s' : Inv divisibility s →
  OrderBook.market_volume self sd s = (Ok v, s') →
  s' = s ∧ acc_ok d v ∧ inner v = Z.min u128_max (depth (levels s id sd)).
Proof.
  intros HI Hv.
  assert (depth (levels s id sd) = depth (default [] (side_agg sd s !! id))) as ->.
  { apply sum_by_perm, levels_Permutation. }
  destruct (sat_sum_ok d (default [] (side_agg sd s !! id)) BalanceUnit.zero) as [Ha Hi].
  { eapply listed_levels_ok; [done|by apply agg_listed]. }
  { by left. }
  by destruct sd; cbn in Hv; injection Hv as <- <-.
Qed.

Definition stop_of (sd : PriceVariant) : comparison := match sd with Buy => Lt | Sell => Gt end.

(** What the side offers at no worse a price than [p], and in all. *)
Definition reach (s : Storage) (sd : PriceVariant) (p : OrderPrice) : Z :=
  depth (reachable (stop_of sd) p (levels s id sd)).
Definition side_depth (s : Storage) (sd : PriceVariant) : Z := depth (levels s id sd).

Lemma depth_to_price_ok s sd price amount ma am : Inv divisibility s → amount_ok d amount →
  0 < inner amount →
  OrderBook.calculate_market_depth_volume_to_price sd price amount (levels s id sd) = (ma, am) →
  acc_ok d ma ∧ inner ma = Z.min (inner amount) (reach s sd price) ∧
  acc_ok d am ∧ inner am = inner amount - Z.min (inner amount) (reach s sd price).
Proof.
  intros HI Ha Hpos E. unfold OrderBook.calculate_market_depth_volume_to_price in E.
  pose proof (depth_loop_ok d (stop_of sd) price (levels s id sd) BalanceUnit.zero amount) as Hl.
  change (match sd with Buy => Lt | Sell => Gt end) with (stop_of sd) in E. rewrite E in Hl.
  apply Hl; [|by left|done|done|].
  - eapply listed_levels_ok; [done|by apply levels_listed].
  - destruct Ha as [_ [_ ?]]. simpl. lia.
Qed.

(** The two parts of a crossing order. *)
Section order.
Context (o : LimitOrder.t) (s : Storage) (HI : Inv divisibility s) (Hbq : base id ≠ quote id).
Context (Ho : order_ok divisibility id o).
Context (Hmin : amount_ok d (OrderBook.min_lot_size self)).
Abbreviation sd := (switched (LimitOrder.side o)).
Abbreviation amount := (inner (LimitOrder.amount o)).

Definition crossing_split : Z * Z :=
  cross_split amount (inner (OrderBook.min_lot_size self)) (reach s sd (LimitOrder.price o))
    (side_depth s sd).
Abbreviation market := (fst crossing_split).
Abbreviation limit := (snd crossing_split).

Definition limit_part : LimitOrder.t := LimitOrder.set_amount o (BalanceUnit.mk limit d).
Definition deal_part : MarketChange.t :=
  let t := take (queue s id sd) market in
  deal_change divisibility self (LimitOrder.side o) (LimitOrder.owner o) (LimitOrder.owner o)
    (fst t) (snd t).

(** The change of a crossing order. *)
Definition crossing_change (c : MarketChange.t) : Prop :=
  ∃ c1,
    (if market =? 0 then c1 = MarketChange.new id
     else c1 = deal_part ∧ 0 < market ≤ volume (queue s id sd) ∧
          deal_fits divisibility id sd
            (executed divisibility id (fst (take (queue s id sd) market))
                (snd (take (queue s id sd) market)))) ∧
    (if limit =? 0 then c = c1
     else ∃ c2, OrderBook.calculate_limit_order_impact self limit_part = Ok c2 ∧
                MarketChange.merge c1 c2 = Some c).

Lemma split_bounds : 0 ≤ market ∧ 0 ≤ limit ∧ market + limit ≤ amount.
Proof.
  pose proof (ok_amount_pos _ _ _ Ho). unfold crossing_split, cross_split.
  assert (0 ≤ reach s sd (LimitOrder.price o)).
  { apply (depth_nonneg d), reachable_ok. eapply listed_levels_ok; [done|by apply levels_listed]. }
  destruct (_ <? _); [destruct (_ <=? _)|]; simpl; lia.
Qed.

(** The rest below the minimal lot is dealt or dropped. *)
Lemma cross_rest_ok (ma am : OrderVolume) ma' am' s' :
  acc_ok d ma → acc_ok d am →
  inner ma = Z.min amount (reach s sd (LimitOrder.price o)) →
  inner am = amount - Z.min amount (reach s sd (LimitOrder.price o)) →
  (if BalanceUnit.lt am (OrderBook.min_lot_size self) then
     market_volume ← OrderBook.market_volume self sd;
     rest ← ok_or (BalanceUnit.checked_sub market_volume ma) (OrderBookError AmountCalculationFailed);
     if BalanceUnit.ge rest am then
       ma ← ok_or (BalanceUnit.checked_add ma am) (OrderBookError AmountCalculationFailed);
       mret (ma, BalanceUnit.zero)
     else mret (ma, BalanceUnit.zero)
   else mret (ma, am)) s = (Ok (ma', am'), s') →
  s' = s ∧ acc_ok d ma' ∧ inner ma' = market ∧ acc_ok d am' ∧ inner am' = limit.
Proof.
  intros Hma Ham Ema Eam Hr. unfold crossing_split, cross_split.
  rewrite (acc_lt d) in Hr by (done || by right). rewrite Eam in Hr.
  destruct (_ <? _); [|by apply M_ret_ok in Hr as [[= -> ->] ->]].
  apply M_bind_ok in Hr as (v & s1 & (-> & Hv & Ev)%market_volume_ok & Hr); [|done].
  apply M_bind_ok in Hr as (rest & s2 & [Hrest ->]%M_ok_or_ok & Hr).
  destruct (acc_sub d _ _ _ Hv Hma Hrest) as [Hrs Ers]. rewrite (acc_ge d) in Hr by done.
  rewrite Ers, Ev, Ema, Eam in Hr. unfold side_depth.
  assert ((amount - Z.min amount (reach s sd (LimitOrder.price o)) <=?
           Z.min u128_max (depth (levels s id sd)) - Z.min amount (reach s sd (LimitOrder.price o))) =
          (amount <=? Z.min u128_max (depth (levels s id sd)))) as Eb.
  { apply eq_true_iff_eq. rewrite !Z.leb_le. lia. }
  rewrite Eb in Hr. destruct (_ <=? _).
  - apply M_bind_ok in Hr as (x & s3 & [Hx ->]%M_ok_or_ok & [[= -> ->] ->]%M_ret_ok).
    destruct (acc_acc_add d _ _ _ Hma Ham Hx) as [? Ex].
    split; [done|]. split; [done|]. split; [simpl; lia|]. split; [by left|done].
  - apply M_ret_ok in Hr as [[= -> ->] ->]. split; [done|]. split; [done|]. split; [done|].
    split; [by left|done].
Qed.

Lemma cross_spread_ok c s' : OrderBook.cross_spread self o s = (Ok c, s') →
  s' = s ∧ crossing_change c.
Proof.
  intros Hr. unfold OrderBook.cross_spread in Hr.
  rewrite (M_bind_run_ok _ _ _ _ _ (market_data_storage self sd s)) in Hr.
  destruct (OrderBook.calculate_market_depth_volume_to_price _ _ _ _) as [ma am] eqn:E.
  apply depth_to_price_ok in E as (Hma & Ema & Ham & Eam); [|done|split; apply Ho|apply Ho].
  apply M_bind_ok in Hr as ([ma' am'] & s1 & Hrest & Hr).
  apply cross_rest_ok in Hrest as (-> & Hma' & Ema' & Ham' & Eam'); [|done..].
  pose proof split_bounds as (Hm0 & Hl0 & _).
  apply M_bind_ok in Hr as (c1 & s2 & Hdeal & Hr). unfold BalanceUnit.is_zero in *.
  rewrite Ema' in Hdeal. rewrite Eam' in Hr.
  assert (s2 = s ∧ if market =? 0 then c1 = MarketChange.new id
     else c1 = deal_part ∧ 0 < market ≤ volume (queue s id sd) ∧
          deal_fits divisibility id sd
            (executed divisibility id (fst (take (queue s id sd) market))
                (snd (take (queue s id sd) market)))) as [-> Hc1].
  { destruct (Z.eqb_spec market 0) as [Hz|Hz]; cbn [negb] in Hdeal; [by apply M_ret_ok in Hdeal as [-> ->]|].
    destruct (acc_nonzero d ma' Hma' ltac:(lia)) as [_ Hok].
    apply (market_order_ok divisibility) in Hdeal; cbn; try done; [|lia].
    cbn in Hdeal. rewrite Ema' in Hdeal. destruct Hdeal as (-> & [? ?] & ->).
    split; [done|]. split; [done|]. split; [lia|done]. }
  unfold crossing_change. destruct (Z.eqb_spec limit 0) as [Hz|Hz]; cbn [negb] in Hr.
  - apply M_ret_ok in Hr as [-> ->]. split; [done|]. by exists c1.
  - apply M_bind_ok in Hr as (c2 & s3 & [Hc2 ->]%M_lift_ok & [Hmerge ->]%M_ok_or_ok).
    split; [done|]. exists c1. split; [done|]. exists c2. split; [|done].
    destruct (acc_nonzero d am' Ham' ltac:(lia)) as [Heta _]. unfold limit_part.
    rewrite Heta, Eam' in Hc2. exact Hc2.
Qed.
End order.
End cross.
