(* ===== verification/BookState.v ===== *)
(** * The state of the order books: orders, agenda and funds

    [state_ok]: the data are consistent ([Inv]) and every open order has its
    entry in the expiration agenda.  The lemmas of this file say what the steps
    of [apply_market_change] do to such a state; the properties built on them are
    in the following files. *)

From S2P Require Import Prelude BTreeMap FixedPoint Units OrderTypes DataLayer StorageProps World.
From S2P Require Import Payments OrderBook Matching.

(** ** The agenda *)

Abbreviation entry := (OrderBookId * OrderId)%type (only parsing).

Definition scheduled (ag : Agenda) (t : BlockNumber) : list entry := default [] (ag !! t).

(** Every open order has exactly one entry, at its expiration block.  [pending]
    are orders whose entries the scheduler has taken out and not yet handled. *)
Record agenda_ok (pending : list entry) (s : Storage) (ag : Agenda) : Prop := {
  ag_iff t x : x ∈ scheduled ag t ↔
    ∃ o, LimitOrders s !! x = Some o ∧ LimitOrder.expires_at o = t ∧ x ∉ pending;
  ag_nodup t : NoDup (scheduled ag t)
}.

Lemma scheduled_insert ag t t' l :
  scheduled (<[t := l]> ag) t' = if decide (t' = t) then l else scheduled ag t'.
Proof.
  unfold scheduled. case_decide as E; [subst; by rewrite lookup_insert_eq|].
  by rewrite lookup_insert_ne.
Qed.

Lemma remove_first_Some {A} `{EqDecision A} (x : A) l l' : remove_first x l = Some l' → NoDup l →
  NoDup l' ∧ ∀ y, y ∈ l' ↔ y ∈ l ∧ y ≠ x.
Proof.
  revert l'. induction l as [|z l IH]; intros l'; simpl; [done|].
  case_bool_decide as E.
  - intros [= <-] [Hz Hnd]%NoDup_cons. subst. split; [done|]. intros y. rewrite elem_of_cons.
    split; [|naive_solver]. intros Hy. split; [by right|]. by intros ->.
  - intros (l1 & E1 & ->)%fmap_Some [Hz Hnd]%NoDup_cons. destruct (IH l1 E1 Hnd) as [Hnd1 Hiff].
    split; [apply NoDup_cons; split; [rewrite Hiff; naive_solver|done]|].
    intros y. rewrite !elem_of_cons, Hiff. naive_solver.
Qed.

Lemma remove_first_None {A} `{EqDecision A} (x : A) l : remove_first x l = None ↔ x ∉ l.
Proof.
  induction l as [|z l IH]; simpl; [by split; intros; [apply not_elem_of_nil|]|].
  rewrite not_elem_of_cons. case_bool_decide as E; [naive_solver|].
  rewrite fmap_None, IH. naive_solver.
Qed.

Section agenda_steps.
Context {Cfg : Config} {L : Type}.
Implicit Types (w : World Storage L).

(** Unscheduling, with or without its error: the entry is gone. *)
Lemma unschedule_ok ignore self o w w' :
  OrderBook.unschedule ignore self o w = (Ok tt, w') →
  (∀ t, NoDup (scheduled (agenda w) t)) →
  w' = set_agenda (agenda w') w ∧
  (∀ t, NoDup (scheduled (agenda w') t)) ∧
  ∀ t x, x ∈ scheduled (agenda w') t ↔ x ∈ scheduled (agenda w) t ∧
    ¬ (t = LimitOrder.expires_at o ∧ x = (OrderBook.order_book_id self, LimitOrder.id o)).
Proof.
  unfold OrderBook.unschedule, unschedule_expiration. exec. fold (scheduled (agenda w) (LimitOrder.expires_at o)).
  destruct (remove_first _ _) as [l|] eqn:E; exec.
  - cbn. intros [= <-] Hnd. split; [done|]. apply remove_first_Some in E as [Hl Hiff]; [|done].
    cbn. split.
    + intros t. rewrite scheduled_insert. case_decide; done.
    + intros t x. rewrite scheduled_insert. case_decide; [subst; rewrite Hiff|]; naive_solver.
  - apply remove_first_None in E. destruct ignore; cbn; [|done]. intros [= <-] Hnd.
    split; [by destruct w|]. split; [done|]. intros t x. naive_solver.
Qed.

Lemma schedule_ok t id i w w' : schedule_expiration t id i w = (Ok tt, w') →
  w' = set_agenda (agenda w') w ∧
  ∀ t', scheduled (agenda w') t' = scheduled (agenda w) t' ++ if decide (t' = t) then [(id, i)] else [].
Proof.
  unfold schedule_expiration. intros Hr. run.
  match goal with E : try_push _ _ _ = _ |- _ => apply try_push_Some in E as [-> _] end.
  split; [done|]. intros t'. simpl. rewrite scheduled_insert.
  case_decide; [by subst|by rewrite app_nil_r].
Qed.

(** How the agenda follows the orders. *)
Lemma agenda_delete pending s s' ag ag' x o :
  agenda_ok pending s ag → LimitOrders s !! x = Some o → LimitOrders s' = delete x (LimitOrders s) →
  (∀ t, NoDup (scheduled ag' t)) →
  (∀ t y, y ∈ scheduled ag' t ↔ y ∈ scheduled ag t ∧ ¬ (t = LimitOrder.expires_at o ∧ y = x)) →
  agenda_ok pending s' ag'.
Proof.
  intros [Hiff _] Ho Hs Hnd Hag. split; [|done]. intros t y. rewrite Hag, Hiff, Hs.
  destruct (decide (y = x)) as [->|Hne].
  - rewrite lookup_delete_eq. naive_solver.
  - rewrite lookup_delete_ne by done. naive_solver.
Qed.

Lemma agenda_update pending s s' ag x o n :
  agenda_ok pending s ag → LimitOrders s !! x = Some o →
  LimitOrders s' = <[x := LimitOrder.set_amount o n]> (LimitOrders s) →
  agenda_ok pending s' ag.
Proof.
  intros [Hiff Hnd] Ho Hs. split; [|done]. intros t y. rewrite Hiff, Hs.
  destruct (decide (y = x)) as [->|Hne]; [rewrite lookup_insert_eq|by rewrite lookup_insert_ne].
  rewrite Ho. split; intros (o' & [= <-] & Ht & Hp); eauto.
Qed.

Lemma agenda_insert pending s s' ag ag' x o :
  agenda_ok pending s ag → LimitOrders s !! x = None → x ∉ pending →
  LimitOrders s' = <[x := o]> (LimitOrders s) →
  (∀ t, scheduled ag' t = scheduled ag t ++ if decide (t = LimitOrder.expires_at o) then [x] else []) →
  agenda_ok pending s' ag'.
Proof.
  intros [Hiff Hnd] Hx Hp Hs Hag. split.
  - intros t y. rewrite Hag, elem_of_app, Hiff, Hs. destruct (decide (y = x)) as [->|Hne].
    + rewrite lookup_insert_eq, Hx. case_decide; [rewrite list_elem_of_singleton|]; [naive_solver|].
      split; [intros [(? & [=] & _)|[]%elem_of_nil]|]. intros (? & [= <-] & <- & _). done.
    + rewrite lookup_insert_ne by done. case_decide; [rewrite list_elem_of_singleton|]; [naive_solver|].
      split; [intros [?|[]%elem_of_nil]; done|auto].
  - intros t. rewrite Hag. case_decide; [|by rewrite app_nil_r]. apply NoDup_snoc; [done|].
    intros (o' & Ho' & _)%Hiff. congruence.
Qed.
End agenda_steps.

(** ** Steps of [apply_market_change] *)

Section steps.
Context {Cfg : Config} {SK : StorageKeys} (divisibility : OrderBookId → bool).
Context {L : Type} `{MultiCurrency L} {TA : TechAccounts}.
Context (self : OrderBook.t) (pending : list entry).
Implicit Types (w : World Storage L) (o : LimitOrder.t).
Abbreviation id := (OrderBook.order_book_id self).
Abbreviation orders w := (LimitOrders (data w)).

Record state_ok (w : World Storage L) : Prop := {
  st_inv : Inv divisibility (data w);
  st_agenda : agenda_ok pending (data w) (agenda w)
}.

(** A step turns the orders into [m] and leaves the funds alone. *)
Record step_to (m : gmap entry LimitOrder.t) (w w' : World Storage L) : Prop := {
  to_ok : state_ok w';
  to_orders : orders w' = m;
  to_ledger : ledger w' = ledger w;
  to_registered : registered w' = registered w
}.

Lemma step_to_trans m m' w1 w2 w3 : step_to m w1 w2 → step_to m' w2 w3 → step_to m' w1 w3.
Proof. intros [] []. split; congruence. Qed.

Lemma removal_step (c : M (World Storage L) DispatchError unit) ignore o w w' :
  (∀ w1 w2, c w1 = (Ok tt, w2) → ∃ ev, w2 = set_events ev w1) →
  state_ok w → orders w !! (id, LimitOrder.id o) = Some o →
  (_ ← on_data (delete_limit_order id (LimitOrder.id o));
   _ ← OrderBook.unschedule ignore self o;
   c) w = (Ok tt, w') →
  step_to (delete (id, LimitOrder.id o) (orders w)) w w'.
Proof.
  intros Hc [HI Hag] Ho Hr. apply M_bind_ok in Hr as ([] & w1 & Hd & Hr).
  apply M_bind_ok in Hr as ([] & w2 & Hu & Hr). apply Hc in Hr as [ev ->].
  apply zoom_ok in Hd as (s1 & Hd & ->). cbn in Hd.
  rewrite (delete_run divisibility _ _ _ _ HI Ho) in Hd. injection Hd as <-.
  apply unschedule_ok in Hu as (Hw2 & Hnd & Hiff); [|intros t; apply Hag].
  assert (data w2 = deleted divisibility id o (data w)) as Ed by (by rewrite Hw2).
  assert (LimitOrders (data w2) = delete (id, LimitOrder.id o) (orders w)) as Em.
  { rewrite Ed. unfold deleted. by storage_simpl. }
  split; cbn; [split; cbn|done|by rewrite Hw2|by rewrite Hw2].
  - rewrite Ed. by eapply delete_Inv.
  - eapply agenda_delete; [exact Hag|exact Ho|exact Em|exact Hnd|exact Hiff].
Qed.

Lemma emits_events id' ev w1 w2 : emit_event (D := Storage) (L := L) (E := DispatchError) id' ev w1 = (Ok tt, w2) →
  ∃ ev', w2 = set_events ev' w1.
Proof. intros [= <-]. by eexists. Qed.

Lemma cancel_step ignore o reason w w' : state_ok w → orders w !! (id, LimitOrder.id o) = Some o →
  OrderBook.apply_cancel self ignore o reason w = (Ok tt, w') →
  step_to (delete (id, LimitOrder.id o) (orders w)) w w'.
Proof. apply removal_step. intros w1 w2. apply emits_events. Qed.

Lemma full_step ignore o w w' : state_ok w → orders w !! (id, LimitOrder.id o) = Some o →
  OrderBook.apply_full_execute self ignore o w = (Ok tt, w') →
  step_to (delete (id, LimitOrder.id o) (orders w)) w w'.
Proof.
  apply removal_step. intros w1 w2 Hr. apply M_bind_ok in Hr as ([] & w3 & H1 & H2).
  apply emits_events in H1 as [? ->], H2 as [? ->]. by eexists.
Qed.

(** An update to a smaller, non-zero amount. *)
Definition reduced (m : gmap entry LimitOrder.t) (o' : LimitOrder.t) : Prop :=
  ∃ o n, m !! (id, LimitOrder.id o') = Some o ∧ o' = LimitOrder.set_amount o n ∧
    reduces divisibility id n o.

Lemma update_step (c : M (World Storage L) DispatchError unit) o' w w' :
  (∀ w1 w2, c w1 = (Ok tt, w2) → ∃ ev, w2 = set_events ev w1) →
  state_ok w → reduced (orders w) o' →
  (_ ← on_data (update_limit_order_amount id (LimitOrder.id o') (LimitOrder.amount o'));
   c) w = (Ok tt, w') →
  step_to (<[(id, LimitOrder.id o') := o']> (orders w)) w w'.
Proof.
  intros Hc [HI Hag] (o & n & Ho & -> & Hred) Hr. apply M_bind_ok in Hr as ([] & w1 & Hd & Hr).
  apply Hc in Hr as [ev ->]. apply zoom_ok in Hd as (s1 & Hd & ->). cbn in Hd, Ho |- *.
  pose proof (inv_order _ _ HI _ _ _ Ho) as [Hid _].
  rewrite (update_run divisibility _ _ _ _ _ HI Ho Hred) in Hd. injection Hd as <-.
  assert (LimitOrders (updated divisibility id o n (data w)) =
          <[(id, LimitOrder.id o) := LimitOrder.set_amount o n]> (orders w)) as Em.
  { unfold updated. by storage_simpl. }
  split; cbn; try done. split; cbn; [by eapply update_Inv|].
  by eapply agenda_update.
Qed.

Lemma part_step o' amount w w' : state_ok w → reduced (orders w) o' →
  OrderBook.apply_part_execute self o' amount w = (Ok tt, w') →
  step_to (<[(id, LimitOrder.id o') := o']> (orders w)) w w'.
Proof. apply update_step. intros w1 w2. apply emits_events. Qed.

Lemma force_step o' w w' : state_ok w → reduced (orders w) o' →
  OrderBook.apply_force_update self o' w = (Ok tt, w') →
  step_to (<[(id, LimitOrder.id o') := o']> (orders w)) w w'.
Proof. apply update_step. intros w1 w2. apply emits_events. Qed.

Lemma place_step o w w' : state_ok w → order_ok divisibility id o → (id, LimitOrder.id o) ∉ pending →
  OrderBook.apply_place self o w = (Ok tt, w') →
  orders w !! (id, LimitOrder.id o) = None ∧
  step_to (<[(id, LimitOrder.id o) := o]> (orders w)) w w'.
Proof.
  intros [HI Hag] Ho Hp Hr. apply M_bind_ok in Hr as ([] & w1 & Hd & Hr).
  apply M_bind_ok in Hr as ([] & w2 & Hsch & Hr). apply emits_events in Hr as [ev ->].
  apply zoom_ok in Hd as (s1 & Hd & ->). cbn in Hd.
  pose proof (insert_Inv _ _ _ _ _ HI Ho Hd) as HI'.
  pose proof Hd as (l & u & v & m & Hins & Hs1)%insert_ok_iff.
  assert (LimitOrders s1 = <[(id, LimitOrder.id o) := o]> (orders w)) as Em.
  { rewrite Hs1. unfold inserted. by storage_simpl. }
  apply schedule_ok in Hsch as [Hw2 Hsch]. split; [apply Hins|].
  split; cbn; [split; cbn|by rewrite Hw2|by rewrite Hw2|by rewrite Hw2].
  - by rewrite Hw2.
  - rewrite Hw2 at 1. cbn. eapply agenda_insert; [exact Hag|apply Hins|done|exact Em|exact Hsch].
Qed.

(** *** Loops *)

Definition delete_orders (os : list LimitOrder.t) (m : gmap entry LimitOrder.t) :=
  foldl (λ m o, delete (id, LimitOrder.id o) m) m os.
Definition insert_orders (os : list LimitOrder.t) (m : gmap entry LimitOrder.t) :=
  foldl (λ m o, <[(id, LimitOrder.id o) := o]> m) m os.

Lemma lookup_delete_orders os m x : x ∉ (λ o, (id, LimitOrder.id o)) <$> os →
  delete_orders os m !! x = m !! x.
Proof.
  revert m. induction os as [|o os IH]; intros m Hx; [done|].
  rewrite fmap_cons, not_elem_of_cons in Hx. destruct Hx as [? Hx].
  etransitivity; [by apply IH|]. by apply lookup_delete_ne.
Qed.

Lemma lookup_insert_orders os m x : x ∉ (λ o, (id, LimitOrder.id o)) <$> os →
  insert_orders os m !! x = m !! x.
Proof.
  revert m. induction os as [|o os IH]; intros m Hx; [done|].
  rewrite fmap_cons, not_elem_of_cons in Hx. destruct Hx as [? Hx].
  etransitivity; [by apply IH|]. by apply lookup_insert_ne.
Qed.

Lemma step_to_refl w : state_ok w → step_to (orders w) w w.
Proof. done. Qed.

Lemma loop_steps {A} (get : A → LimitOrder.t) (pre : LimitOrder.t → option LimitOrder.t → Prop)
    (f : LimitOrder.t → gmap entry LimitOrder.t → gmap entry LimitOrder.t)
    (body : A → M (World Storage L) DispatchError unit) xs w w' :
  (∀ o m x, x ≠ (id, LimitOrder.id o) → f o m !! x = m !! x) →
  (∀ y w1 w2, state_ok w1 → pre (get y) (orders w1 !! (id, LimitOrder.id (get y))) →
     body y w1 = (Ok tt, w2) → step_to (f (get y) (orders w1)) w1 w2) →
  NoDup ((λ y, LimitOrder.id (get y)) <$> xs) → state_ok w →
  (∀ y, y ∈ xs → pre (get y) (orders w !! (id, LimitOrder.id (get y)))) →
  for_each xs body w = (Ok tt, w') →
  step_to (foldl (λ m o, f o m) (orders w) (get <$> xs)) w w'.
Proof.
  intros Hf Hbody. revert w. induction xs as [|y xs IH]; intros w Hnd Hok Hpre; cbn.
  - rewrite M_ret_ok. intros [_ ->]. by apply step_to_refl.
  - rewrite M_bind_ok. intros ([] & w1 & Hy & Hr). cbn in Hnd. apply NoDup_cons in Hnd as [Hy' Hnd].
    apply Hbody in Hy as Hst; [|done|apply Hpre; left]. pose proof Hst as [Hok1 Ho1 _ _].
    eapply step_to_trans; [exact Hst|]. rewrite <- Ho1. apply IH; try done.
    intros z Hz. rewrite Ho1, Hf; [apply Hpre; by right|].
    intros [= E]. apply Hy'. rewrite <- E. by apply (list_elem_of_fmap_2 (λ y, LimitOrder.id (get y))).
Qed.

(** The orders a change removes, reduces and places. *)
Definition removed (c : MarketChange.t) : list LimitOrder.t :=
  (fst <$> bt_values (MarketChange.to_cancel c)) ++ bt_values (MarketChange.to_full_execute c).
Definition lowered (c : MarketChange.t) : list LimitOrder.t :=
  (fst <$> bt_values (MarketChange.to_part_execute c)) ++ bt_values (MarketChange.to_force_update c).
Definition placed (c : MarketChange.t) : list LimitOrder.t := bt_values (MarketChange.to_place c).

(** The change speaks of orders as they are stored. *)
Record change_ok (c : MarketChange.t) (m : gmap entry LimitOrder.t) : Prop := {
  co_nodup : NoDup (LimitOrder.id <$> removed c ++ lowered c);
  co_removed o : o ∈ removed c → m !! (id, LimitOrder.id o) = Some o;
  co_lowered o : o ∈ lowered c → reduced m o;
  co_placed o : o ∈ placed c → order_ok divisibility id o ∧ (id, LimitOrder.id o) ∉ pending
}.

Definition orders_after (c : MarketChange.t) (m : gmap entry LimitOrder.t) : gmap entry LimitOrder.t :=
  insert_orders (lowered c ++ placed c) (delete_orders (removed c) m).

Definition stored_as (o : LimitOrder.t) (x : option LimitOrder.t) : Prop := x = Some o.
Definition reduced_from (o' : LimitOrder.t) (x : option LimitOrder.t) : Prop :=
  ∃ o n, x = Some o ∧ o' = LimitOrder.set_amount o n ∧ reduces divisibility id n o.

Lemma cancel_loop ignore xs w w' : NoDup (LimitOrder.id <$> xs.*1) → state_ok w →
  (∀ o, o ∈ xs.*1 → orders w !! (id, LimitOrder.id o) = Some o) →
  for_each xs (λ '(o, reason), OrderBook.apply_cancel self ignore o reason) w = (Ok tt, w') →
  step_to (delete_orders xs.*1 (orders w)) w w'.
Proof.
  intros Hnd Hok Hpre. apply (loop_steps fst stored_as (λ o, delete (id, LimitOrder.id o))).
  - intros. by apply lookup_delete_ne.
  - intros [o reason] w1 w2. apply cancel_step.
  - by rewrite <- list_fmap_compose in Hnd.
  - done.
  - intros y Hy. apply Hpre. by apply list_elem_of_fmap_2.
Qed.

Lemma full_loop ignore xs w w' : NoDup (LimitOrder.id <$> xs) → state_ok w →
  (∀ o, o ∈ xs → orders w !! (id, LimitOrder.id o) = Some o) →
  for_each xs (OrderBook.apply_full_execute self ignore) w = (Ok tt, w') →
  step_to (delete_orders xs (orders w)) w w'.
Proof.
  intros Hnd Hok Hpre Hr. rewrite <- (list_fmap_id xs).
  eapply (loop_steps (λ o, o) stored_as (λ o, delete (id, LimitOrder.id o))); try done.
  - intros. by apply lookup_delete_ne.
  - intros o w1 w2. apply full_step.
Qed.

Lemma part_loop xs w w' : NoDup (LimitOrder.id <$> xs.*1) → state_ok w →
  (∀ o, o ∈ xs.*1 → reduced (orders w) o) →
  for_each xs (λ '(o, amount), OrderBook.apply_part_execute self o amount) w = (Ok tt, w') →
  step_to (insert_orders xs.*1 (orders w)) w w'.
Proof.
  intros Hnd Hok Hpre. apply (loop_steps fst reduced_from (λ o, <[(id, LimitOrder.id o) := o]>)).
  - intros. by apply lookup_insert_ne.
  - intros [o amount] w1 w2. apply part_step.
  - by rewrite <- list_fmap_compose in Hnd.
  - done.
  - intros y Hy. apply (Hpre (fst y)). by apply list_elem_of_fmap_2.
Qed.

Lemma force_loop xs w w' : NoDup (LimitOrder.id <$> xs) → state_ok w →
  (∀ o, o ∈ xs → reduced (orders w) o) →
  for_each xs (OrderBook.apply_force_update self) w = (Ok tt, w') →
  step_to (insert_orders xs (orders w)) w w'.
Proof.
  intros Hnd Hok Hpre Hr. rewrite <- (list_fmap_id xs).
  eapply (loop_steps (λ o, o) reduced_from (λ o, <[(id, LimitOrder.id o) := o]>)); try done.
  - intros. by apply lookup_insert_ne.
  - intros o w1 w2. apply force_step.
Qed.

Lemma place_loop xs w w' : state_ok w →
  (∀ o, o ∈ xs → order_ok divisibility id o ∧ (id, LimitOrder.id o) ∉ pending) →
  for_each xs (OrderBook.apply_place self) w = (Ok tt, w') →
  step_to (insert_orders xs (orders w)) w w'.
Proof.
  revert w. induction xs as [|o xs IH]; intros w Hok Hpre; cbn.
  - rewrite M_ret_ok. intros [_ ->]. by apply step_to_refl.
  - rewrite M_bind_ok. intros ([] & w1 & Hy & Hr). destruct (Hpre o) as [??]; [left|].
    apply place_step in Hy as [_ Hst]; [|done..]. pose proof Hst as [Hok1 Ho1 _ _].
    eapply step_to_trans; [exact Hst|]. rewrite <- Ho1. apply IH; try done.
    intros z Hz. apply Hpre. by right.
Qed.

(** Orders listed elsewhere in the change are not touched by a loop. *)
Lemma untouched (os1 os2 : list LimitOrder.t) o :
  NoDup (LimitOrder.id <$> os1 ++ os2) → o ∈ os2 →
  (id, LimitOrder.id o) ∉ (λ o, (id, LimitOrder.id o)) <$> os1.
Proof.
  rewrite fmap_app, NoDup_app. intros (_ & Hdis & _) Ho (o' & [= E] & Ho')%list_elem_of_fmap.
  apply (Hdis (LimitOrder.id o')); [by apply list_elem_of_fmap_2|].
  rewrite <- E. by apply list_elem_of_fmap_2.
Qed.

Lemma NoDup_ids_app (os1 os2 : list LimitOrder.t) : NoDup (LimitOrder.id <$> os1 ++ os2) →
  NoDup (LimitOrder.id <$> os1) ∧ NoDup (LimitOrder.id <$> os2).
Proof. rewrite fmap_app, NoDup_app. naive_solver. Qed.

Lemma removal_loops ignore xs ys w w1 w2 : NoDup (LimitOrder.id <$> xs.*1 ++ ys) → state_ok w →
  (∀ o, o ∈ xs.*1 ++ ys → orders w !! (id, LimitOrder.id o) = Some o) →
  for_each xs (λ '(o, reason), OrderBook.apply_cancel self ignore o reason) w = (Ok tt, w1) →
  for_each ys (OrderBook.apply_full_execute self ignore) w1 = (Ok tt, w2) →
  step_to (delete_orders (xs.*1 ++ ys) (orders w)) w w2.
Proof.
  intros Hnd Hok Hpre Hx Hy. pose proof (NoDup_ids_app _ _ Hnd) as [Hn1 Hn2].
  apply cancel_loop in Hx; [|done|done|intros o Ho; apply Hpre, elem_of_app; by left].
  pose proof Hx as [Hok1 Ho1 _ _]. apply full_loop in Hy; [|done|done|].
  - eapply step_to_trans; [exact Hx|]. unfold delete_orders. rewrite foldl_app.
    fold (delete_orders xs.*1 (orders w)). by rewrite <- Ho1.
  - intros o Ho. rewrite Ho1, lookup_delete_orders; [apply Hpre, elem_of_app; by right|].
    by eapply untouched.
Qed.

Lemma reduced_ext m m' o : reduced m o → m' !! (id, LimitOrder.id o) = m !! (id, LimitOrder.id o) →
  reduced m' o.
Proof. intros (o0 & n & H1 & H2) E. exists o0, n. by rewrite E. Qed.

Lemma update_loops xs ys w w1 w2 : NoDup (LimitOrder.id <$> xs.*1 ++ ys) → state_ok w →
  (∀ o, o ∈ xs.*1 ++ ys → reduced (orders w) o) →
  for_each xs (λ '(o, amount), OrderBook.apply_part_execute self o amount) w = (Ok tt, w1) →
  for_each ys (OrderBook.apply_force_update self) w1 = (Ok tt, w2) →
  step_to (insert_orders (xs.*1 ++ ys) (orders w)) w w2.
Proof.
  intros Hnd Hok Hpre Hx Hy. pose proof (NoDup_ids_app _ _ Hnd) as [Hn1 Hn2].
  apply part_loop in Hx; [|done|done|intros o Ho; apply Hpre, elem_of_app; by left].
  pose proof Hx as [Hok1 Ho1 _ _]. apply force_loop in Hy; [|done|done|].
  - eapply step_to_trans; [exact Hx|]. unfold insert_orders. rewrite foldl_app.
    fold (insert_orders xs.*1 (orders w)). by rewrite <- Ho1.
  - intros o Ho. apply (reduced_ext (orders w)); [apply Hpre, elem_of_app; by right|].
    rewrite Ho1, lookup_insert_orders; [done|]. by eapply untouched.
Qed.

Context {LL : MultiCurrencyLaws L}.

(** What applying a change does. *)
Record applied (c : MarketChange.t) (w w' : World Storage L) : Prop := {
  ap_ok : state_ok w';
  ap_orders : orders w' = orders_after c (orders w);
  ap_balances a x : free_balance (ledger w') a x =
    free_balance (ledger w) a x + settle (MarketChange.payment c) a x;
  ap_registered : registered w' = registered w
}.

Lemma apply_change_ok c w w' : state_ok w → change_ok c (orders w) →
  OrderBook.apply_market_change self c w = (Ok tt, w') → applied c w w'.
Proof.
  intros Hok [Hnd Hrem Hlow Hpl] Hr. unfold OrderBook.apply_market_change in Hr.
  apply M_bind_ok in Hr as ([] & w1 & Hpay & Hr). apply execute_all_settles in Hpay as [Hw1 Hb].
  apply M_bind_ok in Hr as ([] & w2 & Hx & Hr). apply M_bind_ok in Hr as ([] & w3 & Hy & Hr).
  apply M_bind_ok in Hr as ([] & w4 & Hp & Hr). apply M_bind_ok in Hr as ([] & w5 & Hu & Hr).
  assert (state_ok w1) as Hok1 by (rewrite Hw1; destruct Hok; by split).
  assert (orders w1 = orders w) as E1 by (by rewrite Hw1).
  pose proof (NoDup_ids_app _ _ Hnd) as [Hn1 Hn2].
  destruct (removal_loops _ _ _ _ _ _ Hn1 Hok1 ltac:(by rewrite E1) Hx Hy) as [Hok3 E3 L3 R3].
  eapply update_loops in Hu as [Hok5 E5 L5 R5]; [|exact Hn2|exact Hok3| |exact Hp].
  2: { intros o Ho. apply (reduced_ext (orders w)); [by apply Hlow|].
       rewrite E3, E1, lookup_delete_orders; [done|]. by eapply untouched. }
  apply place_loop in Hr as [Hok6 E6 L6 R6]; [|done|done]. split; [done|..].
  - rewrite E6, E5, E3, E1. unfold orders_after, insert_orders. by rewrite (foldl_app _ (lowered c)).
  - intros a x. by rewrite L6, L5, L3, Hb.
  - rewrite R6, R5, R3. by rewrite Hw1.
Qed.
End steps.
