(* ===== verification/Solvency.v ===== *)
(** * Solvency: the account of a book holds what it owes to the open orders

    Placing an order locks funds on the account of the book; cancelling,
    expiring, executing and aligning orders pay out of it.  The invariant
    [Solvent] says that, for every book and asset, the account holds at least
    what is locked for the open orders.  Every operation of the order book keeps
    it; rounding always favours the book. *)

From S2P Require Import Prelude BTreeMap FixedPoint Units OrderTypes DataLayer StorageProps World.
From S2P Require Import Payments OrderBook Matching Priority CrossSpread BookState.

(** ** What the open orders are owed *)

Definition owed_at (b : OrderBookId) (a : AssetId) (x : entry) (o : LimitOrder.t) : Z :=
  if bool_decide (fst x = b ∧ owed_asset b o = a) then owed_of o else 0.

Definition owed (m : gmap entry LimitOrder.t) (b : OrderBookId) (a : AssetId) : Z :=
  map_fold (λ x o acc, owed_at b a x o + acc) 0 m.

Section owed.
Implicit Types (m : gmap entry LimitOrder.t) (b : OrderBookId) (a : AssetId) (o : LimitOrder.t).

Lemma owed_empty b a : owed ∅ b a = 0.
Proof. apply map_fold_empty. Qed.

Lemma owed_fresh m x o b a : m !! x = None → owed (<[x := o]> m) b a = owed_at b a x o + owed m b a.
Proof. intros Hx. unfold owed. rewrite map_fold_insert_L; [done|intros; lia|done]. Qed.

Lemma owed_delete m x o b a : m !! x = Some o → owed (delete x m) b a = owed m b a - owed_at b a x o.
Proof.
  intros Hx. rewrite <- (insert_delete_id m x o Hx) at 2.
  rewrite owed_fresh by apply lookup_delete_eq. lia.
Qed.

(** What is owed for the order stored at [x]. *)
Definition old_owed m x b a : Z := match m !! x with Some o => owed_at b a x o | None => 0 end.

Lemma owed_insert m x o b a :
  owed (<[x := o]> m) b a = owed m b a + owed_at b a x o - old_owed m x b a.
Proof.
  unfold old_owed. destruct (m !! x) as [o0|] eqn:Hx.
  - rewrite <- insert_delete_eq, owed_fresh by apply lookup_delete_eq.
    rewrite (owed_delete _ _ _ _ _ Hx). lia.
  - rewrite owed_fresh by done. lia.
Qed.

Definition nonneg m : Prop := ∀ x o, m !! x = Some o → 0 ≤ owed_of o.

Lemma old_owed_nonneg m x b a : nonneg m → 0 ≤ old_owed m x b a.
Proof.
  intros Hm. unfold old_owed, owed_at. destruct (m !! x) as [o|] eqn:Hx; [|done].
  case_bool_decide; [|done]. by eapply Hm.
Qed.
End owed.

Section books.
Context {Cfg : Config} {SK : StorageKeys} (divisibility : OrderBookId → bool).
Context {L : Type} `{MultiCurrencyLaws L} {TA : TechAccounts}.
Context (self : OrderBook.t).
Implicit Types (w : World Storage L) (o : LimitOrder.t) (m : gmap entry LimitOrder.t).
Abbreviation id := (OrderBook.order_book_id self).
Abbreviation orders w := (LimitOrders (data w)).
Abbreviation key o := (id, LimitOrder.id o).

Lemma owed_delete_orders os m b a : NoDup (LimitOrder.id <$> os) →
  (∀ o, o ∈ os → m !! key o = Some o) →
  owed (delete_orders self os m) b a = owed m b a - sum_by (λ o, owed_at b a (key o) o) os.
Proof.
  revert m. induction os as [|o os IH]; intros m Hnd Hs; [rewrite sum_by_nil; cbn [delete_orders insert_orders foldl]; lia|].
  rewrite fmap_cons in Hnd. apply NoDup_cons in Hnd as [Ho Hnd].
  transitivity (owed (delete_orders self os (delete (key o) m)) b a); [done|].
  rewrite IH; [|done|].
  - rewrite (owed_delete _ _ o), sum_by_cons by (apply Hs; left). lia.
  - intros o' Ho'. rewrite lookup_delete_ne; [apply Hs; by right|]. intros [= E].
    apply Ho. rewrite E. by apply list_elem_of_fmap_2.
Qed.

Lemma owed_lower_orders os m b a : NoDup (LimitOrder.id <$> os) →
  owed (insert_orders self os m) b a =
  owed m b a + sum_by (λ o, owed_at b a (key o) o - old_owed m (key o) b a) os.
Proof.
  revert m. induction os as [|o os IH]; intros m Hnd; [rewrite sum_by_nil; cbn [delete_orders insert_orders foldl]; lia|].
  rewrite fmap_cons in Hnd. apply NoDup_cons in Hnd as [Ho Hnd].
  transitivity (owed (insert_orders self os (<[key o := o]> m)) b a); [done|].
  rewrite IH, owed_insert, sum_by_cons by done.
  rewrite (sum_by_ext _ (λ o, owed_at b a (key o) o - old_owed m (key o) b a)); [lia|].
  intros o' Ho'. unfold old_owed. rewrite lookup_insert_ne; [done|]. intros [= E].
  apply Ho. rewrite E. by apply list_elem_of_fmap_2.
Qed.

Lemma owed_place_orders os m b a : nonneg m → (∀ o, o ∈ os → 0 ≤ owed_of o) →
  owed (insert_orders self os m) b a ≤ owed m b a + sum_by (λ o, owed_at b a (key o) o) os.
Proof.
  revert m. induction os as [|o os IH]; intros m Hm Hos; [rewrite sum_by_nil; cbn [delete_orders insert_orders foldl]; lia|].
  transitivity (owed (insert_orders self os (<[key o := o]> m)) b a); [done|].
  etransitivity; [apply IH|].
  - intros x o' [[<- <-]|[_ Hx]]%lookup_insert_Some; [apply Hos; left|by eapply Hm].
  - intros o' Ho'. apply Hos. by right.
  - rewrite owed_insert. pose proof (old_owed_nonneg m (key o) b a Hm). rewrite sum_by_cons. lia.
Qed.

(** What a change releases of an asset of the book. *)
Definition released (c : MarketChange.t) m (a : AssetId) : Z :=
  sum_by (λ o, owed_at id a (key o) o) (removed c)
  + sum_by (λ o, old_owed m (key o) id a - owed_at id a (key o) o) (lowered c)
  - sum_by (λ o, owed_at id a (key o) o) (placed c).

Lemma owed_of_nonneg b o : order_ok divisibility b o → 0 ≤ owed_of o.
Proof.
  intros Ho. apply (owed_for_nonneg divisibility b); [done|]. apply Ho.
Qed.

Lemma Inv_nonneg s : Inv divisibility s → nonneg (LimitOrders s).
Proof. intros HI [b i] o [_ Ho]%(inv_order _ _ HI). by eapply owed_of_nonneg. Qed.

Lemma reduced_order_ok s o' : Inv divisibility s → reduced divisibility self (LimitOrders s) o' →
  order_ok divisibility id o'.
Proof.
  intros HI (o & n & Ho & -> & Hd & Hn). apply (inv_order _ _ HI) in Ho as [_ []].
  split; try done; simpl; try lia. unfold BalanceUnit.wf, is_u128 in *. lia.
Qed.

Lemma nonneg_insert_orders os m : nonneg m → (∀ o, o ∈ os → 0 ≤ owed_of o) →
  nonneg (insert_orders self os m).
Proof.
  revert m. induction os as [|o os IH]; intros m Hm Hos; [done|]. apply IH.
  - intros x o' [[<- <-]|[_ Hx]]%lookup_insert_Some; [apply Hos; left|by eapply Hm].
  - intros o' Ho'. apply Hos. by right.
Qed.

Lemma nonneg_delete_orders os m : nonneg m → nonneg (delete_orders self os m).
Proof.
  revert m. induction os as [|o os IH]; intros m Hm; [done|]. apply IH.
  intros x o' [_ Hx]%lookup_delete_Some. by eapply Hm.
Qed.

Lemma owed_at_other b a o : b ≠ id → owed_at b a (key o) o = 0.
Proof. intros Hb. unfold owed_at. rewrite bool_decide_eq_false_2; naive_solver. Qed.

Lemma old_owed_other m b a o : b ≠ id → old_owed m (key o) b a = 0.
Proof.
  intros Hb. unfold old_owed, owed_at. case_match; [|done].
  rewrite bool_decide_eq_false_2; naive_solver.
Qed.

Lemma owed_after pending c s b a : Inv divisibility s →
  change_ok divisibility self pending c (LimitOrders s) →
  owed (orders_after self c (LimitOrders s)) b a ≤
  owed (LimitOrders s) b a - if decide (b = id) then released c (LimitOrders s) a else 0.
Proof.
  intros HI [Hnd Hrem Hlow Hpl]. unfold orders_after, insert_orders. rewrite foldl_app.
  fold (insert_orders self (lowered c) (delete_orders self (removed c) (LimitOrders s))).
  set (m := LimitOrders s) in *.
  pose proof (NoDup_ids_app _ _ Hnd) as [Hn1 Hn2].
  assert (∀ o, o ∈ lowered c → 0 ≤ owed_of o) as Hl.
  { intros o Ho. eapply owed_of_nonneg, reduced_order_ok; [done|by apply Hlow]. }
  etransitivity; [apply owed_place_orders|].
  { apply nonneg_insert_orders; [|done]. by apply nonneg_delete_orders, Inv_nonneg. }
  { intros o Ho. eapply owed_of_nonneg. by apply Hpl. }
  rewrite owed_lower_orders, owed_delete_orders by done.
  rewrite (sum_by_ext _ (λ o, - (old_owed m (key o) b a - owed_at b a (key o) o)) (lowered c)).
  2: { intros o Ho. unfold old_owed. rewrite lookup_delete_orders; [lia|by eapply untouched]. }
  rewrite sum_by_opp. case_decide as Hb; [subst b; unfold released; lia|].
  rewrite !sum_by_zero; [lia|..]; intros o _; rewrite ?old_owed_other, ?owed_at_other by done; lia.
Qed.

(** ** The invariant *)

Definition Solvent (w : World Storage L) : Prop :=
  ∀ b a, owed (orders w) b a ≤ free_balance (ledger w) a (tech_account b).

(** An account no book uses (it belongs to a user). *)
Definition user_account (x : AccountId) : Prop := ∀ b, x ≠ tech_account b.

Definition tech_injective : Prop := ∀ b b', tech_account b = tech_account b' → b = b'.

(** A payment of the book that never pays out more than the change releases. *)
Record covered (c : MarketChange.t) m : Prop := {
  cv_id : Payment.order_book_id (MarketChange.payment c) = id;
  cv_lock a b : credit (Payment.to_lock (MarketChange.payment c)) a (tech_account b) = 0;
  cv_unlock a x : 0 ≤ credit (Payment.to_unlock (MarketChange.payment c)) a x;
  cv_net a : total (Payment.to_unlock (MarketChange.payment c)) a
    - total (Payment.to_lock (MarketChange.payment c)) a ≤ released c m a
}.

Lemma solvent_applied pending c w w' : tech_injective →
  Inv divisibility (data w) → change_ok divisibility self pending c (orders w) →
  covered c (orders w) → applied divisibility self pending c w w' → Solvent w → Solvent w'.
Proof.
  intros Hinj HI Hc [Hid Hlock Hunlock Hnet] [_ Eo Hb _] Hs b a. rewrite Eo, Hb.
  pose proof (owed_after pending c (data w) b a HI Hc) as Hle. specialize (Hs b a).
  unfold settle, locked, unlocked, at_account. rewrite Hid, Hlock.
  pose proof (Hunlock a (tech_account b)). specialize (Hnet a).
  case_decide as Hd; [subst b; rewrite !bool_decide_eq_true_2 by done; lia|].
  rewrite !bool_decide_eq_false_2 by (intros E; by apply Hd, Hinj). lia.
Qed.
End books.

(** ** The calculated changes are covered *)

(** Projections of a change that is given in full. *)
Ltac proj :=
  cbn [MarketChange.payment MarketChange.to_place MarketChange.to_part_execute
       MarketChange.to_full_execute MarketChange.to_cancel MarketChange.to_force_update
       Payment.order_book_id Payment.to_lock Payment.to_unlock bt_values app fmap list_fmap fst snd].

Section changes.
Context {Cfg : Config} {SK : StorageKeys} (divisibility : OrderBookId → bool).
Context {L : Type} `{MultiCurrencyLaws L} {TA : TechAccounts}.
Context (self : OrderBook.t) (pending : list entry).
Implicit Types (w : World Storage L) (o : LimitOrder.t) (m : gmap entry LimitOrder.t).
Abbreviation id := (OrderBook.order_book_id self).
Abbreviation key o := (id, LimitOrder.id o).
Context (Hbq : base id ≠ quote id).

Lemma owed_at_self a o : owed_at id a (key o) o = at_asset a (owed_asset id o) (owed_of o).
Proof. unfold owed_at, at_asset. repeat case_bool_decide; naive_solver. Qed.

Lemma taker_amount_ok o v r : order_ok divisibility id o →
  (∀ v', v = Some v' → amount_ok (divisibility id) v') →
  LimitOrder.deal_amount o Taker v = Ok r →
  amount_ok (flag divisibility id (owed_asset id o)) (OrderAmount.value r) ∧
  OrderAmount.associated_asset r id = owed_asset id o ∧
  inner (OrderAmount.value r) = owed_for o (default (LimitOrder.amount o) v).
Proof.
  intros Ho Hv (_ & Hok & Hi & Ha)%(deal_amount_ok divisibility id); try done.
  by rewrite Ha in Hok.
Qed.

Lemma limit_order_covered o c m : order_ok divisibility id o → user_account (LimitOrder.owner o) →
  key o ∉ pending → OrderBook.calculate_limit_order_impact self o = Ok c →
  change_ok divisibility self pending c m ∧ covered self c m.
Proof.
  intros Ho Hu Hp Hc. unfold OrderBook.calculate_limit_order_impact in Hc. run.
  match goal with E : LimitOrder.deal_amount _ _ _ = _ |- _ =>
    apply taker_amount_ok in E as (Hok & Ha & Hi); [|done|done] end.
  rewrite Ha. pose proof (λ a, single_entry (flag divisibility id) _ (LimitOrder.owner o) _ a Hok) as Hs.
  split.
  - split; cbn; [constructor|by intros ? ?%elem_of_nil..|].
    by intros o' ->%list_elem_of_singleton.
  - split; proj; try done.
    + intros a b. rewrite (proj2 (Hs a)). rewrite bool_decide_eq_false_2 by apply Hu.
      unfold at_asset. by case_bool_decide.
    + intros a. rewrite (proj1 (Hs a)), total_nil. unfold released, removed, lowered, placed. proj.
      rewrite ?sum_by_cons, !sum_by_nil, owed_at_self, Hi. cbn [default]. unfold owed_of. lia.
Qed.

Lemma cancellation_covered o reason ignore c m : order_ok divisibility id o →
  m !! key o = Some o → OrderBook.calculate_cancellation_limit_order_impact self o reason ignore = Ok c →
  change_ok divisibility self pending c m ∧ covered self c m.
Proof.
  intros Ho Hm Hc. unfold OrderBook.calculate_cancellation_limit_order_impact in Hc. run.
  match goal with E : LimitOrder.deal_amount _ _ _ = _ |- _ =>
    apply taker_amount_ok in E as (Hok & Ha & Hi); [|done|done] end.
  rewrite Ha. pose proof (λ a, single_entry (flag divisibility id) _ (LimitOrder.owner o) _ a Hok) as Hs.
  split.
  - split; cbn; try by intros ? ?%elem_of_nil.
    + repeat constructor. apply not_elem_of_nil.
    + by intros o' ->%list_elem_of_singleton.
  - split; proj; try done.
    + intros a y. apply (credit_nonneg (flag divisibility id)).
      apply add_entry_ok; [apply pay_ok_nil|done].
    + intros a. rewrite (proj1 (Hs a)), total_nil. unfold released, removed, lowered, placed. proj.
      rewrite ?sum_by_cons, !sum_by_nil, owed_at_self, Hi. cbn [default]. unfold owed_of. lia.
Qed.

(** *** Lists of orders refunded one by one *)

(** The refund of an amount of an order. *)
Definition refund (p : LimitOrder.t * OrderVolume) a : Z :=
  at_asset a (owed_asset id (fst p)) (owed_for (fst p) (snd p)).

(** The payment map refunds at most [l]. *)
Record refunds (l : list (LimitOrder.t * OrderVolume))
    (tu : BTreeMap AssetId (BTreeMap AccountId OrderVolume)) : Prop := {
  rf_ok : pay_ok (flag divisibility id) tu;
  rf_total a : total tu a ≤ sum_by (λ p, refund p a) l
}.

Lemma refunds_nil : refunds [] [].
Proof. split; [apply pay_ok_nil|done]. Qed.

Lemma refunds_add l tu o v r asset : order_ok divisibility id o →
  (∀ v', v = Some v' → amount_ok (divisibility id) v') →
  LimitOrder.deal_amount o Taker v = Ok r → asset = OrderAmount.associated_asset r id →
  refunds l tu →
  refunds (l ++ [(o, default (LimitOrder.amount o) v)])
    (Payment.add_entry asset (LimitOrder.owner o) (OrderAmount.value r) tu).
Proof.
  intros Ho Hv Hr -> [Hok Htot]. apply taker_amount_ok in Hr as (Ha & -> & Hi); [|done|done].
  split; [by apply add_entry_ok|]. intros a. rewrite sum_by_app, sum_by_cons, sum_by_nil.
  pose proof (total_add_le _ _ (LimitOrder.owner o) _ tu a Hok Ha). specialize (Htot a).
  assert (refund (o, default (LimitOrder.amount o) v) a =
          at_asset a (owed_asset id o) (inner (OrderAmount.value r))) as -> by (by rewrite Hi).
  lia.
Qed.

Lemma cancellation_loop_ok reason os l tc tu tc' tu' :
  (∀ o, o ∈ os → order_ok divisibility id o) → refunds l tu →
  OrderBook.cancellation_loop self reason os tc tu = Ok (tc', tu') →
  tc' = fold_left (λ acc o, bt_insert (LimitOrder.id o) (o, reason) acc) os tc ∧
  refunds (l ++ ((λ o, (o, LimitOrder.amount o)) <$> os)) tu'.
Proof.
  revert l tc tu. induction os as [|o os IH]; intros l tc tu Hos Href Hr; cbn in Hr.
  { rewrite app_nil_r. by injection Hr as <- <-. }
  apply result_bind_ok in Hr as (r & Hd & Hr).
  eapply (refunds_add l tu o None) in Href; [|apply Hos; left|done|exact Hd|done].
  eapply IH in Hr as [-> Href']; [|intros o' Ho'; apply Hos; by right|exact Href].
  split; [done|]. by rewrite <- app_assoc in Href'.
Qed.

(** All the orders of the book. *)
Lemma all_orders_spec s : Inv divisibility s →
  let os := snd <$> iter_prefix (LimitOrders s) id in
  NoDup (LimitOrder.id <$> os) ∧
  ∀ o, o ∈ os ↔ LimitOrders s !! key o = Some o.
Proof.
  intros HI os.
  assert (∀ i o, (i, o) ∈ iter_prefix (LimitOrders s) id → LimitOrder.id o = i) as Hid.
  { intros i o Hio%elem_of_iter_prefix. by apply (inv_order _ _ HI) in Hio as [? _]. }
  split.
  - unfold os. rewrite <- list_fmap_compose.
    rewrite (list_fmap_ext _ fst); [apply NoDup_iter_prefix|].
    intros n [i o] Hio. simpl. apply Hid. by eapply list_elem_of_lookup_2.
  - intros o. unfold os. rewrite list_elem_of_fmap. split.
    + intros ([i o'] & -> & Hio). pose proof (Hid _ _ Hio) as E. apply elem_of_iter_prefix in Hio.
      simpl. by rewrite E.
    + intros Ho. exists (LimitOrder.id o, o). split; [done|]. by apply elem_of_iter_prefix.
Qed.

Lemma sum_refunds_removed a os :
  sum_by (λ p, refund p a) ((λ o, (o, LimitOrder.amount o)) <$> os) =
  sum_by (λ o, owed_at id a (key o) o) os.
Proof. rewrite sum_by_fmap. apply sum_by_ext. intros o _. by rewrite owed_at_self. Qed.

Lemma all_cancellation_covered reason s c s' : Inv divisibility s →
  OrderBook.calculate_cancellation_of_all_limit_orders_impact self reason s = (Ok c, s') →
  s' = s ∧ change_ok divisibility self pending c (LimitOrders s) ∧ covered self c (LimitOrders s) ∧
  removed c ≡ₚ snd <$> iter_prefix (LimitOrders s) id ∧ lowered c = [] ∧ placed c = [].
Proof.
  intros HI Hc. unfold OrderBook.calculate_cancellation_of_all_limit_orders_impact in Hc.
  destruct (all_orders_spec s HI) as [Hnd Hin].
  apply M_bind_ok in Hc as (os & s1 & Hos & Hc). cbn in Hos. injection Hos as <- <-.
  apply M_bind_ok in Hc as ([tc tu] & s1 & [Hl ->]%M_lift_ok & Hc).
  apply M_ret_ok in Hc as [-> ->].
  eapply (cancellation_loop_ok reason _ []) in Hl as [-> Href]; [| |apply refunds_nil].
  2: { intros o Ho%Hin. by apply (inv_order _ _ HI) in Ho as [_ ?]. }
  split; [done|]. set (os := snd <$> iter_prefix (LimitOrders s) id) in *.
  assert (bt_values (fold_left (λ acc o, bt_insert (LimitOrder.id o) (o, reason) acc) os []) ≡ₚ
          (λ o, (o, reason)) <$> os) as Hperm.
  { unfold bt_values. rewrite (fold_insert_fresh LimitOrder.id (λ o, (o, reason))) by done.
    simpl. by rewrite <- list_fmap_compose. }
  set (c := MarketChange.mk _ _ _ _ _ _ _ _ _ _ _).
  assert (removed c ≡ₚ os) as Hrem.
  { unfold removed, c. proj. rewrite app_nil_r, Hperm, <- list_fmap_compose. by rewrite list_fmap_id. }
  split; [|split; [|done]].
  - split; try by intros ? ?%elem_of_nil.
    + unfold lowered, c at 2. proj. by rewrite app_nil_r, Hrem.
    + intros o. rewrite Hrem. apply Hin.
  - split; try done.
    + intros a y. by apply (credit_nonneg (flag divisibility id)), Href.
    + intros a. pose proof (rf_total _ _ Href a) as Ht. cbn [app] in Ht.
      rewrite sum_refunds_removed in Ht. unfold released.
      rewrite (sum_by_perm _ _ _ Hrem). unfold lowered, placed, c. proj. rewrite !sum_by_nil, total_nil. lia.
Qed.

(** *** Alignment *)

Section align.
Abbreviation step := (inner (OrderBook.step_lot_size self)).
Context (Hstep_div : BalanceUnit.is_divisible (OrderBook.step_lot_size self) = divisibility id)
  (Hstep : 0 < step).

Definition misaligned o : bool := negb (inner (LimitOrder.amount o) mod step =? 0).
(** Orders smaller than a step are cancelled, larger ones cut to whole steps. *)
Definition is_small o : Prop := misaligned o = true ∧ inner (LimitOrder.amount o) < step.
Definition is_big o : Prop := misaligned o = true ∧ step ≤ inner (LimitOrder.amount o).

#[local] Instance is_small_dec o : Decision (is_small o).
Proof. unfold is_small. apply _. Defined.
#[local] Instance is_big_dec o : Decision (is_big o).
Proof. unfold is_big. apply _. Defined.

Definition aligned o : LimitOrder.t :=
  LimitOrder.set_amount o (OrderBook.align_amount self (LimitOrder.amount o)).

Lemma align_amount_eq v : BalanceUnit.wf v →
  OrderBook.align_amount self v = BalanceUnit.mk (inner v - inner v mod step) (BalanceUnit.is_divisible v).
Proof.
  intros [? ?]. unfold OrderBook.align_amount, BalanceUnit.set, BalanceUnit.balance, sat_mul.
  pose proof (Z.div_mod (inner v) step ltac:(lia)). pose proof (Z.mod_pos_bound (inner v) step Hstep).
  f_equal. lia.
Qed.

Lemma big_reduces o : order_ok divisibility id o → is_big o →
  reduces divisibility id (OrderBook.align_amount self (LimitOrder.amount o)) o.
Proof.
  intros Ho [Hm Hb]. rewrite align_amount_eq by apply Ho. unfold misaligned in Hm. zbool.
  pose proof (Z.div_mod (inner (LimitOrder.amount o)) step ltac:(lia)).
  pose proof (Z.mod_pos_bound (inner (LimitOrder.amount o)) step Hstep).
  assert (1 ≤ inner (LimitOrder.amount o) / step) by (apply Z.div_le_lower_bound; lia).
  split; [simpl; apply Ho|]. simpl. nia.
Qed.

(** The dust of a cut order, and its refund. *)
Lemma dust_refund o : order_ok divisibility id o → is_big o →
  let dust := BalanceUnit.mk (inner (LimitOrder.amount o) mod step) (divisibility id) in
  amount_ok (divisibility id) dust ∧ owed_for o dust ≤ owed_of o - owed_of (aligned o).
Proof.
  intros Ho Hb dust. pose proof (ok_amount_wf _ _ _ Ho) as [? ?].
  pose proof (Z.mod_pos_bound (inner (LimitOrder.amount o)) step Hstep).
  assert (inner (LimitOrder.amount o) mod step ≤ inner (LimitOrder.amount o)) by (apply Z.mod_le; lia).
  assert (amount_ok (divisibility id) dust) as Hd by (split; [done|split; simpl; lia]).
  split; [done|]. destruct (big_reduces o Ho Hb) as [Hrd Hr].
  pose proof (owed_split divisibility id o dust (OrderBook.align_amount self (LimitOrder.amount o)) Ho Hd) as Hs.
  change (owed_of (aligned o)) with (owed_for o (OrderBook.align_amount self (LimitOrder.amount o))).
  rewrite align_amount_eq in * by apply Ho. cbn [BalanceUnit.inner BalanceUnit.is_divisible] in *.
  specialize (Hs ltac:(split; [done|split; simpl; lia]) ltac:(simpl; lia)). lia.
Qed.

Definition small os : list LimitOrder.t := filter is_small os.
Definition cut os : list LimitOrder.t := aligned <$> filter is_big os.

(** What aligning releases. *)
Definition align_released a os : Z :=
  sum_by (λ o, owed_at id a (key o) o) (small os)
  + sum_by (λ o, owed_at id a (key o) o - owed_at id a (key o) (aligned o)) (filter is_big os).

Lemma align_cases o : order_ok divisibility id o →
  (misaligned o = false ∧ ¬ is_small o ∧ ¬ is_big o) ∨
  (is_small o ∧ ¬ is_big o ∧ misaligned o = true ∧
   BalanceUnit.lt (LimitOrder.amount o) (OrderBook.step_lot_size self) = true) ∨
  (¬ is_small o ∧ is_big o ∧ misaligned o = true ∧
   BalanceUnit.lt (LimitOrder.amount o) (OrderBook.step_lot_size self) = false).
Proof.
  intros Ho. unfold is_small, is_big. destruct (misaligned o); [right|by left; naive_solver].
  rewrite BalanceUnit.lt_value.
  assert (BalanceUnit.is_divisible (OrderBook.step_lot_size self) =
          BalanceUnit.is_divisible (LimitOrder.amount o)) as Hd.
  { by rewrite (ok_amount_div _ _ _ Ho). }
  pose proof (BalanceUnit.value_le_same _ _ Hd).
  destruct (Z.ltb_spec (BalanceUnit.value (LimitOrder.amount o))
    (BalanceUnit.value (OrderBook.step_lot_size self))); [left|right]; naive_solver lia.
Qed.

Lemma dust_eq o v : order_ok divisibility id o →
  BalanceUnit.checked_sub (LimitOrder.amount o) (OrderBook.align_amount self (LimitOrder.amount o)) = Some v →
  v = BalanceUnit.mk (inner (LimitOrder.amount o) mod step) (divisibility id).
Proof.
  intros Ho Hv. pose proof (ok_amount_wf _ _ _ Ho) as [? ?].
  pose proof (Z.mod_pos_bound (inner (LimitOrder.amount o)) step Hstep).
  assert (inner (LimitOrder.amount o) mod step ≤ inner (LimitOrder.amount o)) by (apply Z.mod_le; lia).
  rewrite align_amount_eq in Hv by apply Ho.
  apply checked_sub_eq in Hv as ->; [|done|split; simpl; lia|done].
  rewrite (ok_amount_div _ _ _ Ho). simpl. f_equal. lia.
Qed.

Lemma big_order_ok o : order_ok divisibility id o → is_big o → order_ok divisibility id (aligned o).
Proof.
  intros Ho Hb. destruct (big_reduces o Ho Hb) as [Hd [? ?]]. destruct Ho as [? ? ? ? [? ?] ?].
  split; try done; simpl; try lia. split; lia.
Qed.

Lemma align_loop_cut o os tc tf tu r : order_ok divisibility id o → is_big o →
  BalanceUnit.lt (LimitOrder.amount o) (OrderBook.step_lot_size self) = false →
  OrderBook.align_loop self (o :: os) tc tf tu = Ok r →
  pay_ok (flag divisibility id) tu →
  ∃ tu1, OrderBook.align_loop self os tc (bt_insert (LimitOrder.id o) (aligned o) tf) tu1 = Ok r ∧
    pay_ok (flag divisibility id) tu1 ∧
    ∀ a, total tu1 a ≤ total tu a + (owed_at id a (key o) o - owed_at id a (key o) (aligned o)).
Proof.
  intros Ho Hb Hlt Hr Hok. cbn [OrderBook.align_loop] in Hr. unfold BalanceUnit.balance in Hr.
  pose proof (proj1 Hb) as Hm. unfold misaligned in Hm. rewrite Hm, Hlt in Hr. run.
  destruct (dust_refund o Ho Hb) as [Hd Hle].
  match goal with E : BalanceUnit.checked_sub _ _ = _ |- _ => apply (dust_eq _ _ Ho) in E as -> end.
  match goal with E : LimitOrder.deal_amount _ _ _ = _ |- _ =>
    apply taker_amount_ok in E as (Ha & Hasset & Hi);
      [|by apply big_order_ok|by intros ? [= <-]] end.
  rewrite Hasset in *. eexists. split; [eassumption|]. split; [by apply add_entry_ok|].
  intros a. etransitivity; [by apply (total_add_le (flag divisibility id))|]. rewrite Hi.
  change (owed_asset id (LimitOrder.set_amount o (OrderBook.align_amount self (LimitOrder.amount o))))
    with (owed_asset id o). change (default _ (Some ?x)) with x.
  change (owed_for (LimitOrder.set_amount o ?y) ?x) with (owed_for o x).
  assert (owed_at id a (key o) (aligned o) = at_asset a (owed_asset id o) (owed_of (aligned o))) as ->.
  { apply (owed_at_self a (aligned o)). }
  rewrite owed_at_self. unfold at_asset. case_bool_decide; lia.
Qed.

Lemma align_loop_ok os tc tf tu tc' tf' tu' :
  (∀ o, o ∈ os → order_ok divisibility id o) → pay_ok (flag divisibility id) tu →
  OrderBook.align_loop self os tc tf tu = Ok (tc', tf', tu') →
  tc' = fold_left (λ acc o, bt_insert (LimitOrder.id o) (o, Aligned) acc) (small os) tc ∧
  tf' = fold_left (λ acc o, bt_insert (LimitOrder.id o) o acc) (cut os) tf ∧
  pay_ok (flag divisibility id) tu' ∧
  ∀ a, total tu' a ≤ total tu a + align_released a os.
Proof.
  revert tc tf tu. induction os as [|o os IH]; intros tc tf tu Hos Hok Hr.
  { injection Hr as <- <- <-. split; [done|]. split; [done|]. split; [done|]. intros a.
    unfold align_released, small. rewrite !filter_nil, !sum_by_nil. lia. }
  pose proof (Hos o ltac:(left)) as Ho. pose proof (λ o' Ho', Hos o' ltac:(by right)) as Hos'.
  unfold align_released, small, cut in *.
  destruct (align_cases o Ho) as [(Hm & Hs & Hb)|[(Hs & Hb & Hm & Hlt)|(Hs & Hb & Hm & Hlt)]].
  - rewrite !filter_cons_False by done. cbn [OrderBook.align_loop] in Hr.
    unfold misaligned, BalanceUnit.balance in *. rewrite Hm in Hr. eauto.
  - rewrite filter_cons_True, filter_cons_False by done. cbn [OrderBook.align_loop] in Hr.
    unfold misaligned, BalanceUnit.balance in *. rewrite Hm, Hlt in Hr. run.
    match goal with E : LimitOrder.deal_amount _ _ _ = _ |- _ =>
      apply taker_amount_ok in E as (Ha & Hasset & Hi);
        [|done|by intros ? [= <-]; split; apply Ho] end.
    rewrite Hasset in *.
    match goal with E : OrderBook.align_loop _ _ _ _ _ = _ |- _ =>
      eapply IH in E as (-> & -> & Hok' & Ht); [|done|by apply add_entry_ok] end.
    split; [done|]. split; [done|]. split; [done|]. intros a. specialize (Ht a).
    pose proof (total_add_le (flag divisibility id) _ (LimitOrder.owner o) _ tu a Hok Ha) as Hadd.
    rewrite sum_by_cons, owed_at_self. rewrite Hi in Hadd.
    change (default _ (Some ?v)) with v in Hadd.
    unfold owed_of. lia.
  - rewrite filter_cons_False, (filter_cons_True is_big) by done.
    eapply align_loop_cut in Hr as (tu1 & Hr & Hok1 & Ht1); [|done..].
    eapply IH in Hr as (-> & -> & Hok' & Ht); [|done|done].
    split; [done|]. split; [done|]. split; [done|]. intros a. specialize (Ht a). specialize (Ht1 a).
    rewrite sum_by_cons. lia.
Qed.

Lemma NoDup_ids_filter (P : LimitOrder.t → Prop) `{∀ o, Decision (P o)} os :
  NoDup (LimitOrder.id <$> os) → NoDup (LimitOrder.id <$> filter P os).
Proof.
  induction os as [|o os IH]; [done|]. rewrite fmap_cons. intros [Ho Hnd]%NoDup_cons.
  rewrite filter_cons. case_decide; [|by apply IH]. rewrite fmap_cons. apply NoDup_cons.
  split; [|by apply IH]. intros (o' & E & [_ Ho']%list_elem_of_filter)%list_elem_of_fmap.
  apply Ho. rewrite E. by apply list_elem_of_fmap_2.
Qed.

Lemma NoDup_ids_inj os o o' : NoDup (LimitOrder.id <$> os) → o ∈ os → o' ∈ os →
  LimitOrder.id o = LimitOrder.id o' → o = o'.
Proof.
  induction os as [|x os IH]; [by intros _ ?%elem_of_nil|]. rewrite fmap_cons.
  intros [Hx Hnd]%NoDup_cons. rewrite !elem_of_cons. intros [->|Ho] [->|Ho'] E; try done.
  - destruct Hx. rewrite E. by apply list_elem_of_fmap_2.
  - destruct Hx. rewrite <- E. by apply list_elem_of_fmap_2.
  - by apply IH.
Qed.

Lemma NoDup_small_cut os : NoDup (LimitOrder.id <$> os) → NoDup (LimitOrder.id <$> small os ++ cut os).
Proof.
  intros Hnd. rewrite fmap_app. apply NoDup_app. unfold small, cut. rewrite <- list_fmap_compose.
  split; [by apply NoDup_ids_filter|]. split; [|by apply NoDup_ids_filter].
  intros i (o & -> & [Hs Ho]%list_elem_of_filter)%list_elem_of_fmap
    (o' & E & [Hb Ho']%list_elem_of_filter)%list_elem_of_fmap. simpl in E.
  apply (NoDup_ids_inj os) in E as ->; try done. destruct Hs, Hb. lia.
Qed.

Lemma align_covered os c m : NoDup (LimitOrder.id <$> os) →
  (∀ o, o ∈ os → m !! key o = Some o ∧ order_ok divisibility id o) →
  OrderBook.calculate_align_limit_orders_impact self os = Ok c →
  change_ok divisibility self pending c m ∧ covered self c m ∧
  removed c ≡ₚ small os ∧ lowered c ≡ₚ cut os ∧ placed c = [].
Proof.
  intros Hnd Hos Hc. unfold OrderBook.calculate_align_limit_orders_impact in Hc.
  apply result_bind_ok in Hc as ([[tc tf] tu] & Hl & Hc). injection Hc as <-.
  apply align_loop_ok in Hl as (-> & -> & Hok & Ht); [|by intros o [_ ?]%Hos|apply pay_ok_nil].
  pose proof (NoDup_small_cut os Hnd) as Hn. pose proof (NoDup_ids_app _ _ Hn) as [Hn1 Hn2].
  set (c := MarketChange.mk _ _ _ _ _ _ _ _ _ _ _).
  assert (removed c ≡ₚ small os) as Hrem.
  { unfold removed, c, bt_values. proj. rewrite app_nil_r.
    rewrite (fold_insert_fresh LimitOrder.id (λ o, (o, Aligned))) by done.
    cbn [app]. rewrite <- !list_fmap_compose. cbn. by rewrite list_fmap_id. }
  assert (lowered c ≡ₚ cut os) as Hlow.
  { unfold lowered, c, bt_values. proj. rewrite (fold_insert_fresh LimitOrder.id (λ o, o)) by done.
    cbn [app]. rewrite <- !list_fmap_compose. cbn. by rewrite list_fmap_id. }
  split; [|split; [|done]].
  - split; try by intros ? ?%elem_of_nil.
    + by rewrite Hrem, Hlow.
    + intros o. rewrite Hrem. intros [_ Ho]%list_elem_of_filter. by apply Hos.
    + intros o'. rewrite Hlow. intros (o & -> & [Hb Ho]%list_elem_of_filter)%list_elem_of_fmap.
      exists o, (OrderBook.align_amount self (LimitOrder.amount o)).
      destruct (Hos o Ho) as [Hm Hok']. split; [done|]. split; [done|]. by apply big_reduces.
  - split; try done; [intros a y; by apply (credit_nonneg (flag divisibility id))|].
    intros a. unfold released. rewrite (sum_by_perm _ _ _ Hrem), (sum_by_perm _ _ _ Hlow).
    specialize (Ht a). unfold c at 1 2 3. proj. rewrite total_nil in *. unfold placed, c. proj.
    rewrite sum_by_nil. unfold cut. rewrite sum_by_fmap. unfold align_released in Ht.
    rewrite (sum_by_ext (λ o, old_owed m (key (aligned o)) id a - owed_at id a (key (aligned o)) (aligned o))
      (λ o, owed_at id a (key o) o - owed_at id a (key o) (aligned o))); [lia|].
    intros o [_ Ho]%list_elem_of_filter. unfold old_owed. cbn [LimitOrder.id aligned LimitOrder.set_amount].
    by rewrite (proj1 (Hos o Ho)).
Qed.
End align.

(** *** Deals *)

Section deal.
Context (s : Storage) (HI : Inv divisibility s).
Context (dir : PriceVariant) (taker receiver : AccountId) (n : Z) (Hn : 0 < n).
Abbreviation sd := (switched dir).
Abbreviation q := (queue s id sd).
Abbreviation whole := (fst (take q n)).
Abbreviation part := (snd (take q n)).
Abbreviation ex := (executed divisibility id whole part).
Abbreviation deal := (deal_change divisibility self dir taker receiver whole part).

Lemma take_q_prefix : ∃ rest, q = whole ++ rest ∧
  match part with
  | Some (o, r) => (∃ rest', rest = o :: rest') ∧ 0 < r < inner (LimitOrder.amount o)
  | None => True
  end.
Proof.
  pose proof (take_spec q n (queue_positive divisibility _ _ _ HI) Hn) as Ht.
  destruct (take q n). destruct Ht as (rest & ? & _ & ?). eauto.
Qed.

Definition part_order : list LimitOrder.t :=
  match part with
  | Some (o, r) =>
      [LimitOrder.set_amount o (BalanceUnit.mk (inner (LimitOrder.amount o) - r) (divisibility id))]
  | None => []
  end.

Lemma deal_ids : NoDup (LimitOrder.id <$> whole ++ part_order).
Proof.
  destruct take_q_prefix as (rest & Hq & Hp). pose proof (queue_NoDup divisibility self s sd HI) as Hnd.
  rewrite Hq in Hnd. unfold part_order. destruct part as [[o r]|].
  - destruct Hp as [[rest' ->] _]. rewrite (cons_middle o), app_assoc, fmap_app in Hnd.
    apply NoDup_app in Hnd as (Hnd & _). rewrite fmap_app in *. exact Hnd.
  - rewrite app_nil_r. by apply NoDup_ids_app in Hnd as [? _].
Qed.

Lemma deal_removed : removed deal ≡ₚ whole.
Proof.
  pose proof (NoDup_ids_app _ _ deal_ids) as [Hnd _].
  unfold removed, deal_change. destruct dir; proj; unfold bt_values, whole_map.
  all: rewrite (fold_insert_fresh LimitOrder.id (λ o, o)) by done.
  all: cbn [app]; rewrite <- list_fmap_compose; cbn; by rewrite list_fmap_id.
Qed.

Lemma deal_lowered : lowered deal = part_order.
Proof.
  unfold lowered, deal_change, part_order, part_map.
  destruct dir; destruct (snd (take _ _)) as [[o r]|]; done.
Qed.

Lemma deal_placed : placed deal = [].
Proof. unfold placed, deal_change. by destruct dir. Qed.

Lemma in_whole o : o ∈ whole → LimitOrders s !! key o = Some o ∧ LimitOrder.side o = sd.
Proof.
  intros Ho. destruct take_q_prefix as (rest & Hq & _).
  apply (elem_of_queue divisibility self s sd o HI). rewrite Hq. apply elem_of_app. by left.
Qed.

Lemma part_in o r : part = Some (o, r) → LimitOrders s !! key o = Some o ∧ LimitOrder.side o = sd ∧
  order_ok divisibility id o ∧ 0 < r < inner (LimitOrder.amount o).
Proof.
  intros E. destruct take_q_prefix as (rest & Hq & Hp). rewrite E in Hp. destruct Hp as [[rest' ->] Hr].
  assert (o ∈ q) as Ho by (rewrite Hq; apply elem_of_app; right; left).
  pose proof (queue_order divisibility self s sd o HI Ho).
  by apply (elem_of_queue divisibility self s sd o HI) in Ho as [? ?].
Qed.

Lemma deal_change_ok : change_ok divisibility self pending deal (LimitOrders s).
Proof.
  split.
  - rewrite deal_removed, deal_lowered. apply deal_ids.
  - intros o. rewrite deal_removed. intros Ho. by apply in_whole.
  - intros o'. rewrite deal_lowered. unfold part_order. destruct part as [[o r]|] eqn:E;
      [|by intros ?%elem_of_nil]. intros ->%list_elem_of_singleton.
    destruct (part_in o r E) as (Ho & _ & _ & Hr). eexists _, _. split; [exact Ho|]. split; [done|].
    split; [done|]. simpl. lia.
  - intros o. rewrite deal_placed. by intros ?%elem_of_nil.
Qed.

Context (Hfits : deal_fits divisibility id sd ex).

(** The taker brings what the makers get; what the taker gets is released. *)
Lemma deal_payment a :
  total (Payment.to_lock (MarketChange.payment deal)) a = at_asset a (maker_out id sd) (due_total ex) ∧
  total (Payment.to_unlock (MarketChange.payment deal)) a ≤
    at_asset a (maker_out id sd) (due_total ex) + at_asset a (taker_out id sd) (owed_total ex) ∧
  pay_ok (flag divisibility id) (Payment.to_unlock (MarketChange.payment deal)) ∧
  ∀ y, credit (Payment.to_lock (MarketChange.payment deal)) a y =
       at_asset a (maker_out id sd) (if bool_decide (taker = y) then due_total ex else 0).
Proof.
  pose proof Hfits as [Howed Hdue Heach].
  destruct (pay_makers_exact divisibility id Hbq sd ex [] (pay_ok_nil _) Heach) as [Hok Hpm].
  { rewrite total_nil. by destruct Hdue as [_ [_ ?]]. }
  pose proof (single_entry (flag divisibility id) _ taker _ a Hdue) as [Hl1 Hl2].
  pose proof (total_add_le (flag divisibility id) _ receiver _ _ a Hok Howed) as Hu.
  rewrite (proj1 (Hpm a)), total_nil in Hu. cbn [inner] in *.
  unfold deal_change. destruct dir; proj; (split; [done|]); (split; [simpl in *; lia|]);
    (split; [by apply add_entry_ok|done]).
Qed.

Lemma executed_released a : at_asset a (taker_out id sd) (owed_total ex) ≤ released self deal (LimitOrders s) a.
Proof.
  unfold released. rewrite (sum_by_perm _ _ _ deal_removed), deal_lowered, deal_placed, sum_by_nil.
  assert (at_asset a (taker_out id sd) (sum_by owed_of whole) =
          sum_by (λ o, owed_at id a (key o) o) whole) as <-.
  { unfold at_asset. rewrite (sum_by_ext (λ o, owed_at id a (key o) o)
      (λ o, if bool_decide (a = taker_out id sd) then owed_of o else 0)).
    - case_bool_decide; [done|]. by rewrite sum_by_zero.
    - intros o [_ Hsd]%in_whole. rewrite owed_at_self. unfold at_asset, owed_asset, taker_out.
      by rewrite Hsd. }
  unfold part_order, executed, owed_total. rewrite sum_by_app, sum_by_fmap. cbn [fst snd].
  destruct part as [[o r]|] eqn:E; rewrite ?sum_by_cons, !sum_by_nil;
    [|unfold at_asset, owed_of; case_bool_decide; lia].
  destruct (part_in o r E) as (Ho & Hsd & Hok & Hr). cbn [fst snd].
  unfold old_owed. cbn [LimitOrder.id LimitOrder.set_amount]. rewrite Ho, !owed_at_self.
  pose proof (ok_amount_wf _ _ _ Hok) as [? ?].
  pose proof (owed_split divisibility id o (BalanceUnit.mk r (divisibility id))
    (BalanceUnit.mk (inner (LimitOrder.amount o) - r) (divisibility id)) Hok
    ltac:(split; [done|split; simpl; lia]) ltac:(split; [done|split; simpl; lia])
    ltac:(simpl; lia)) as Hsplit.
  assert (owed_asset id o = taker_out id sd) as Ea by (unfold owed_asset, taker_out; by rewrite Hsd).
  change (owed_at id a (key o) (LimitOrder.set_amount o ?v))
    with (owed_at id a (key (LimitOrder.set_amount o v)) (LimitOrder.set_amount o v)).
  rewrite owed_at_self. change (owed_asset id (LimitOrder.set_amount o ?v)) with (owed_asset id o).
  change (owed_of (LimitOrder.set_amount o ?v)) with (owed_for o v). rewrite Ea.
  unfold at_asset, owed_of in *. case_bool_decide; lia.
Qed.

Lemma deal_covered : user_account taker → covered self deal (LimitOrders s).
Proof.
  intros Hu. split.
  - unfold deal_change. by destruct dir.
  - intros a b. destruct (deal_payment a) as (_ & _ & _ & ->).
    rewrite bool_decide_eq_false_2 by apply Hu. unfold at_asset. by case_bool_decide.
  - intros a y. apply (credit_nonneg (flag divisibility id)). apply (deal_payment a).
  - intros a. destruct (deal_payment a) as (-> & ? & _ & _). pose proof (executed_released a). lia.
Qed.
End deal.

(** *** Crossing orders *)

(** What an order brings into a deal and into the book is added with saturation.
    The sum is below the maximum when somebody can pay it, as long as nobody
    holds the maximal balance. *)
Definition affordable (c : MarketChange.t) : Prop :=
  ∀ a x v, Payment.to_lock (MarketChange.payment c) = Payment.add_entry a x v [] →
    inner v < u128_max.

Definition supply_fits (l : L) : Prop := ∀ a x, free_balance l a x < u128_max.

Lemma lock_affordable c w w' : supply_fits (ledger w) →
  execute_all (MarketChange.payment c) w = (Ok tt, w') → affordable c.
Proof.
  clear Hbq. intros Hs Hr a x v Hl. apply M_bind_ok in Hr as ([] & w1 & Hr & _). unfold lock in Hr. rewrite Hl in Hr.
  cbn in Hr. apply M_bind_ok in Hr as ([] & w2 & Hr & _). apply M_bind_ok in Hr as ([] & w3 & Hr & _).
  apply M_bind_ok in Hr as ([] & w4 & ->%ensure_registered_ok & Hr).
  unfold on_ledger, transfer_from in Hr. run.
  match goal with Hc : checked_transfer _ _ _ _ _ = _ |- _ => unfold checked_transfer in Hc end.
  repeat case_match; simplify_eq. match goal with u : unit |- _ => destruct u end.
  match goal with Hc : currency_transfer _ _ _ _ _ = _ |- _ => apply transfer_spec in Hc as [Hle _] end.
  unfold BalanceUnit.balance in Hle. specialize (Hs a x). lia.
Qed.

Lemma sat_add_below b v1 v2 : amount_ok b v1 → amount_ok b v2 →
  inner (BalanceUnit.saturating_add v1 v2) < u128_max → inner v1 + inner v2 ≤ u128_max.
Proof.
  intros [D1 W1] [D2 W2]. rewrite BalanceUnit.saturating_add_same by congruence. simpl. lia.
Qed.

Lemma merge_single asset x v1 v2 :
  Payment.merge_asset_map (Payment.add_entry asset x v1 []) (Payment.add_entry asset x v2 []) =
  Payment.add_entry asset x (BalanceUnit.saturating_add v1 v2) [].
Proof.
  unfold Payment.merge_asset_map, Payment.add_entry, Payment.merge_account_map, bt_modify_or_insert.
  cbn. rewrite !cmp_refl. cbn. by rewrite !cmp_refl.
Qed.

(** Adding a limit order to a deal. *)
Definition with_limit (c : MarketChange.t) (o : LimitOrder.t) (r : OrderAmount.t)
    (lock : BTreeMap AssetId (BTreeMap AccountId OrderVolume)) : MarketChange.t :=
  MarketChange.mk (MarketChange.deal_input c) (MarketChange.deal_output c) (Some r)
    (MarketChange.market_output c) [(LimitOrder.id o, o)] (MarketChange.to_part_execute c)
    (MarketChange.to_full_execute c) [] []
    (Payment.mk id lock (Payment.to_unlock (MarketChange.payment c))) false.

Lemma merge_limit c o r a x v1 v2 :
  MarketChange.market_input c = None → MarketChange.to_place c = [] →
  MarketChange.to_cancel c = [] → MarketChange.to_force_update c = [] →
  MarketChange.ignore_unschedule_error c = false →
  Payment.order_book_id (MarketChange.payment c) = id →
  Payment.to_lock (MarketChange.payment c) = Payment.add_entry a x v1 [] →
  MarketChange.merge c
    (MarketChange.mk None None (Some r) None [(LimitOrder.id o, o)] [] [] [] []
       (Payment.mk id (Payment.add_entry a x v2 []) []) false) =
  Some (with_limit c o r (Payment.add_entry a x (BalanceUnit.saturating_add v1 v2) [])).
Proof.
  destruct c as [di dout mi mo tp pe fe tc tf [pid pl pu] ig].
  cbn -[Payment.add_entry Payment.merge_asset_map MarketChange.merge].
  intros -> -> -> -> -> -> ->.
  unfold MarketChange.merge, Payment.merge, with_limit.
  cbn -[Payment.merge_asset_map Payment.add_entry]. rewrite bool_decide_eq_true_2 by done.
  destruct di, dout, mo; cbn -[Payment.merge_asset_map Payment.add_entry]; by rewrite merge_single.
Qed.

Lemma limit_impact_eq o c : order_ok divisibility id o →
  OrderBook.calculate_limit_order_impact self o = Ok c →
  ∃ r, amount_ok (flag divisibility id (owed_asset id o)) (OrderAmount.value r) ∧
    inner (OrderAmount.value r) = owed_of o ∧
    c = MarketChange.mk None None (Some r) None [(LimitOrder.id o, o)] [] [] [] []
          (Payment.mk id (Payment.add_entry (owed_asset id o) (LimitOrder.owner o)
                            (OrderAmount.value r) []) []) false.
Proof.
  intros Ho Hc. unfold OrderBook.calculate_limit_order_impact in Hc. run.
  match goal with E : LimitOrder.deal_amount _ _ _ = Ok ?r |- _ =>
    apply taker_amount_ok in E as (Hok & Ha & Hi); [|done|done]; exists r end.
  by rewrite Ha.
Qed.

Lemma maker_out_owed o sd' : LimitOrder.side o = sd' → maker_out id (switched sd') = owed_asset id o.
Proof. intros <-. unfold maker_out, owed_asset. by destruct (LimitOrder.side o). Qed.

(** A deal together with the limit order of the rest. *)
Lemma split_covered s dir n o c2 c : Inv divisibility s → 0 < n →
  let t := take (queue s id (switched dir)) n in
  let deal := deal_change divisibility self dir (LimitOrder.owner o) (LimitOrder.owner o) (fst t) (snd t) in
  deal_fits divisibility id (switched dir) (executed divisibility id (fst t) (snd t)) →
  LimitOrder.side o = dir → order_ok divisibility id o → user_account (LimitOrder.owner o) →
  key o ∉ pending → OrderBook.calculate_limit_order_impact self o = Ok c2 →
  MarketChange.merge deal c2 = Some c →
  change_ok divisibility self pending c (LimitOrders s) ∧
  (affordable c → covered self c (LimitOrders s)).
Proof.
  intros HI Hn t deal Hfits Hdir Ho Hu Hp Hc2 Hm.
  pose proof (deal_change_ok s HI dir (LimitOrder.owner o) (LimitOrder.owner o) n Hn) as [Hnd Hrem Hlow _].
  pose proof (deal_covered s HI dir (LimitOrder.owner o) (LimitOrder.owner o) n Hn Hfits Hu)
    as [_ _ Hunl Hnet].
  fold t in Hnd, Hrem, Hlow, Hunl, Hnet. fold deal in Hnd, Hrem, Hlow, Hunl, Hnet.
  apply limit_impact_eq in Hc2 as (r & Hr & Ei & ->); [|done].
  assert (∃ x, amount_ok (flag divisibility id (owed_asset id o)) x ∧
    MarketChange.deal_input deal = Some (match dir with Buy => OrderAmount.Quote x | Sell => OrderAmount.Base x end) ∧
    Payment.to_lock (MarketChange.payment deal) =
      Payment.add_entry (owed_asset id o) (LimitOrder.owner o) x []) as (x & Hx & Edi & El).
  { rewrite <- (maker_out_owed o dir Hdir). eexists. split; [apply Hfits|].
    unfold deal, deal_change. by destruct dir. }
  rewrite (merge_limit _ _ _ (owed_asset id o) (LimitOrder.owner o) x) in Hm;
    [|unfold deal, deal_change; by destruct dir..|done]. injection Hm as <-.
  set (c := with_limit _ _ _ _).
  assert (removed c = removed deal ∧ lowered c = lowered deal) as [Erem Elow]
    by (unfold c, deal, deal_change; by destruct dir).
  assert (placed deal = []) as Epl by apply deal_placed.
  split.
  - split; rewrite ?Erem, ?Elow; try done. by intros o' ->%list_elem_of_singleton.
  - intros Haff. specialize (Haff _ _ _ eq_refl).
    assert (inner x + inner (OrderAmount.value r) ≤ u128_max) as Hle by (by eapply sat_add_below).
    destruct (acc_sat_add _ x (OrderAmount.value r) (or_intror Hx) Hr Hle) as [Hsok Hsum].
    pose proof (λ a, single_entry (flag divisibility id) _ (LimitOrder.owner o) _ a Hsok) as Hlock.
    pose proof (λ a, single_entry (flag divisibility id) _ (LimitOrder.owner o) _ a Hx) as Hlock1.
    split; try done.
    + intros a b. unfold c, with_limit. proj. rewrite (proj2 (Hlock a)).
      rewrite bool_decide_eq_false_2 by apply Hu. unfold at_asset. by case_bool_decide.
    + intros a. specialize (Hnet a). rewrite El, (proj1 (Hlock1 a)) in Hnet.
      unfold released in *. rewrite Erem, Elow. unfold c, with_limit. proj.
      rewrite (proj1 (Hlock a)), Hsum, Ei. unfold placed. proj.
      rewrite sum_by_cons, sum_by_nil, owed_at_self. rewrite Epl, sum_by_nil in Hnet. unfold at_asset in *. case_bool_decide; lia.
Qed.

Lemma new_covered m : change_ok divisibility self pending (MarketChange.new id) m ∧
  covered self (MarketChange.new id) m.
Proof.
  split; split; cbn; try done; try by intros ? ?%elem_of_nil. constructor.
Qed.

Lemma crossing_covered s o c : Inv divisibility s → order_ok divisibility id o →
  amount_ok (divisibility id) (OrderBook.min_lot_size self) →
  user_account (LimitOrder.owner o) → key o ∉ pending →
  crossing_change divisibility self o s c →
  change_ok divisibility self pending c (LimitOrders s) ∧
  (affordable c → covered self c (LimitOrders s)).
Proof.
  intros HI Ho Hmin Hu Hp (c1 & H1 & H2).
  pose proof (split_bounds divisibility self o s HI Hbq Ho) as (Hm & Hl & Hsum).
  assert (snd (crossing_split self o s) ≠ 0 → order_ok divisibility id (limit_part divisibility self o s)) as Hlo.
  { intros Hne. destruct Ho as [? ? ? ? [? ?] ?]. split; try done; simpl; [split; simpl; lia|lia]. }
  destruct (Z.eqb_spec (snd (crossing_split self o s)) 0) as [Hl0|Hl0];
    destruct (Z.eqb_spec (fst (crossing_split self o s)) 0) as [Hm0|Hm0].
  - subst c c1. split; [|intros _]; apply new_covered.
  - subst c. destruct H1 as (-> & Hmv & Hfits). unfold deal_part.
    split; [apply deal_change_ok; [done|lia]|]. intros _. by apply deal_covered; [|lia|..].
  - destruct H2 as (c2 & Hc2 & Hmerge). subst c1.
    pose proof Hc2 as (r & Hr & Ei & ->)%limit_impact_eq; [|by apply Hlo].
    assert (c = MarketChange.mk None None (Some r) None
      [(LimitOrder.id o, limit_part divisibility self o s)] [] [] [] []
      (Payment.mk id (Payment.add_entry (owed_asset id o) (LimitOrder.owner o)
         (OrderAmount.value r) []) []) false) as ->.
    { revert Hmerge. unfold MarketChange.merge, Payment.merge.
      cbn -[Payment.add_entry]. rewrite bool_decide_eq_true_2 by done. cbn. by intros [= <-]. }
    destruct (limit_order_covered (limit_part divisibility self o s) _ (LimitOrders s) (Hlo Hl0) Hu Hp Hc2).
    by split.
  - destruct H2 as (c2 & Hc2 & Hmerge), H1 as (-> & Hmv & Hfits).
    eapply (split_covered s (LimitOrder.side o) (fst (crossing_split self o s))
      (limit_part divisibility self o s)); try done; [lia|by apply Hlo].
Qed.
End changes.
