(* ===== verification/Operations.v ===== *)
(** * The operations of the order book keep the books consistent and solvent

    The headline invariant of the order book: from a state in which the data are
    consistent, every open order is scheduled and every book holds what it owes,
    any successful operation leads to such a state again. *)

From S2P Require Import Prelude BTreeMap FixedPoint Units OrderTypes DataLayer StorageProps World.
From S2P Require Import Payments OrderBook Matching Priority CrossSpread BookState Solvency SampleLedger.

(** ** Operations *)

Inductive operation :=
| Place (o : LimitOrder.t)
| Cancel (o : LimitOrder.t)
| CancelAll (reason : CancelReason)
| Expire (o : LimitOrder.t)
| Execute (o : MarketOrder.t)
| Align (os : list LimitOrder.t).

Definition perform {Cfg : Config} {D : Type} {DL : DataLayer D} {L : Type} `{MultiCurrency L}
    {TA : TechAccounts} (self : OrderBook.t) (op : operation) : M (World D L) DispatchError unit :=
  match op with
  | Place o => _ ← OrderBook.place_limit_order self o; mret tt
  | Cancel o => OrderBook.cancel_limit_order self o
  | CancelAll reason => _ ← OrderBook.cancel_all_limit_orders self reason; mret tt
  | Expire o => OrderBook.expire_limit_order self o
  | Execute o => _ ← OrderBook.execute_market_order self o; mret tt
  | Align os => OrderBook.align_limit_orders self os
  end.

Section operations.
Context {Cfg : Config} {SK : StorageKeys} (divisibility : OrderBookId → bool).
Context {L : Type} `{MultiCurrencyLaws L} {TA : TechAccounts}.
Context (self : OrderBook.t) (pending : list entry).
Implicit Types (w : World Storage L) (o : LimitOrder.t).
Abbreviation id := (OrderBook.order_book_id self).
Abbreviation key o := (id, LimitOrder.id o).
Abbreviation orders w := (LimitOrders (data w)).

(** The parameters of a registered order book. *)
Record book_ok : Prop := {
  bk_assets : base id ≠ quote id;
  bk_min : amount_ok (divisibility id) (OrderBook.min_lot_size self);
  bk_step : BalanceUnit.is_divisible (OrderBook.step_lot_size self) = divisibility id;
  bk_step_pos : 0 < inner (OrderBook.step_lot_size self)
}.

Lemma set_data_same w : set_data (data w) w = w.
Proof. by destruct w. Qed.

(** Reads of the data leave the world alone. *)
Lemma on_data_read {A} (c : M Storage DispatchError A) w a w' :
  (∀ s s', c s = (Ok a, s') → s' = s) → on_data c w = (Ok a, w') →
  c (data w) = (Ok a, data w) ∧ w' = w.
Proof.
  intros Hc (s & Hr & ->)%zoom_ok. pose proof (Hc _ _ Hr) as ->. by rewrite set_data_same.
Qed.

Lemma check_restrictions_read o s u s' : OrderBook.check_restrictions self o s = (Ok u, s') → s' = s.
Proof.
  unfold OrderBook.check_restrictions. intros Hr.
  apply M_bind_ok in Hr as (x & s1 & [= _ <-] & Hr).
  apply M_bind_ok in Hr as (y & s2 & Hy & Hr).
  assert (s2 = s) as ->.
  { destruct x; [by apply M_ensure_ok in Hy as [_ ->]|by apply M_ret_ok in Hy as [_ ->]]. }
  destruct (LimitOrder.side o); apply M_bind_ok in Hr as (z & s3 & [= _ <-] & Hr); destruct z.
  all: try (by apply M_ensure_ok in Hr as [_ ->]).
  all: apply M_bind_ok in Hr as (n & s4 & [= _ <-] & Hr); by apply M_ensure_ok in Hr as [_ ->].
Qed.

Lemma crosses_read o s u s' : OrderBook.crosses (D := Storage) self o s = (Ok u, s') → s' = s.
Proof. unfold OrderBook.crosses. destruct (LimitOrder.side o); by intros [= _ <-]. Qed.

(** ** The invariant *)

Record Good (w : World Storage L) : Prop := {
  good_state : state_ok divisibility pending w;
  good_funds : Solvent w
}.

Lemma set_events_state ev w : state_ok divisibility pending w →
  state_ok divisibility pending (set_events ev w).
Proof. intros [? ?]. by split. Qed.

Lemma Good_events w w' : Good w → data w' = data w → agenda w' = agenda w → ledger w' = ledger w → Good w'.
Proof.
  intros [[HI Hag] Hs] Ed Ea El. split; [split; by rewrite ?Ed, ?Ea|].
  intros b a. rewrite Ed, El. apply Hs.
Qed.

Lemma apply_good c w w' : tech_injective → Good w →
  change_ok divisibility self pending c (orders w) → covered self c (orders w) →
  OrderBook.apply_market_change self c w = (Ok tt, w') → Good w' ∧ applied divisibility self pending c w w'.
Proof.
  intros Hinj [Hst Hso] Hc Hcov Hr. pose proof (apply_change_ok _ _ _ _ _ _ Hst Hc Hr) as Hap.
  split; [|done]. split; [apply Hap|].
  eapply solvent_applied; [done|apply Hst|done|done|done|done].
Qed.

(** What the callers of an operation provide: amounts in the precision of the
    book, accounts of users, orders as they are stored. *)
Definition operation_ok (op : operation) (w : World Storage L) : Prop :=
  match op with
  | Place o => order_ok divisibility id o ∧ user_account (LimitOrder.owner o) ∧ (key o ∉ pending) ∧
      supply_fits (ledger w)
  | Cancel o | Expire o => orders w !! key o = Some o
  | CancelAll _ => True
  | Execute o => amount_ok (divisibility id) (MarketOrder.amount o) ∧ user_account (MarketOrder.owner o)
  | Align os => NoDup (LimitOrder.id <$> os) ∧ (∀ o, o ∈ os → orders w !! key o = Some o)
  end.

Context (Hbook : book_ok) (Hinj : tech_injective).

Lemma report_keeps i owner c w w' : OrderBook.report_placement self i owner c w = (Ok tt, w') →
  data w' = data w ∧ agenda w' = agenda w ∧ ledger w' = ledger w ∧ registered w' = registered w.
Proof.
  unfold OrderBook.report_placement.
  repeat case_match; try (by intros [=]); intros [= <-]; done.
Qed.

Lemma apply_affordable c w w' : supply_fits (ledger w) →
  OrderBook.apply_market_change self c w = (Ok tt, w') → affordable c.
Proof. intros Hs Hr. apply M_bind_ok in Hr as ([] & w1 & Hr & _). by eapply lock_affordable. Qed.

(** The change a placement applies: that of a crossing order, or the placement
    alone. *)
Lemma place_change o (crossing : bool) c w w1 : Good w → operation_ok (Place o) w →
  (if crossing then
     if OrderBook.is_trade (OrderBook.status self) then on_data (OrderBook.cross_spread self o)
     else mthrow (OrderBookError InvalidLimitOrderPrice)
   else lift (OrderBook.calculate_limit_order_impact self o)) w = (Ok c, w1) →
  w1 = w ∧ change_ok divisibility self pending c (orders w) ∧
  (affordable c → covered self c (orders w)) ∧
  (crossing_change divisibility self o (data w) c ∨
   OrderBook.calculate_limit_order_impact self o = Ok c).
Proof.
  intros [[HI _] _] (Ho & Hu & Hp & _) Hc. pose proof (bk_assets Hbook). destruct crossing.
  - destruct (OrderBook.is_trade _); [|by apply M_throw_ok in Hc].
    apply zoom_ok in Hc as (s & Hc & ->).
    apply (cross_spread_ok divisibility) in Hc as [-> Hc]; try done; [|apply Hbook].
    rewrite set_data_same. split; [done|].
    destruct (crossing_covered divisibility self pending (bk_assets Hbook) (data w) o c) as [? ?]; try done.
    + apply Hbook.
    + split_and!; [done..|by left].
  - apply M_lift_ok in Hc as [Hc ->]. split; [done|].
    pose proof Hc as Hc'. eapply limit_order_covered in Hc as [? ?]; [|done..].
    split_and!; [done..|by right].
Qed.

Lemma place_inv o w n w' : Good w → operation_ok (Place o) w →
  OrderBook.place_limit_order self o w = (Ok n, w') →
  OrderBook.ensure_limit_order_valid self o = Ok tt ∧
  ∃ c w1, Good w1 ∧ change_ok divisibility self pending c (orders w) ∧
    applied divisibility self pending c w w1 ∧
    (crossing_change divisibility self o (data w) c ∨
     OrderBook.calculate_limit_order_impact self o = Ok c) ∧
    data w' = data w1 ∧ agenda w' = agenda w1 ∧ ledger w' = ledger w1 ∧ registered w' = registered w1.
Proof.
  intros Hg Hop Hr. unfold OrderBook.place_limit_order in Hr.
  apply M_bind_ok in Hr as ([] & w1 & [_ ->]%M_ensure_ok & Hr).
  apply M_bind_ok in Hr as ([] & w1 & [Hv ->]%M_lift_ok & Hr). split; [done|].
  apply M_bind_ok in Hr as ([] & w1 & [_ ->]%on_data_read & Hr); [|intros ? ?; apply check_restrictions_read].
  apply M_bind_ok in Hr as (crossing & w1 & [_ ->]%on_data_read & Hr); [|intros ? ?; apply crosses_read].
  apply M_bind_ok in Hr as (c & w1 & Hc & Hr).
  apply place_change in Hc as (-> & Hok & Hcov & Hwhich); [|done..].
  apply M_bind_ok in Hr as ([] & w2 & Ha & Hr).
  pose proof (apply_affordable _ _ _ (proj2 (proj2 (proj2 Hop))) Ha) as Haff.
  apply apply_good in Ha as [Hg2 Hap]; [|done..|by apply Hcov].
  apply M_bind_ok in Hr as ([] & w3 & Hrep & [_ ->]%M_ret_ok).
  apply report_keeps in Hrep as (? & ? & ? & ?). exists c, w2. by split_and!.
Qed.

Lemma place_keeps o w n w' : Good w → operation_ok (Place o) w →
  OrderBook.place_limit_order self o w = (Ok n, w') → Good w'.
Proof.
  intros Hg Hop (_ & c & w1 & Hg1 & _ & _ & _ & ? & ? & ? & _)%place_inv; [|done..].
  by eapply Good_events.
Qed.

Lemma cancel_unchecked_keeps o reason ignore w w' : Good w → orders w !! key o = Some o →
  OrderBook.cancel_limit_order_unchecked self o reason ignore w = (Ok tt, w') → Good w'.
Proof.
  intros Hg Ho Hr. apply M_bind_ok in Hr as (c & w1 & [Hc ->]%M_lift_ok & Hr).
  pose proof (inv_order _ _ (st_inv _ _ _ (good_state _ Hg)) _ _ _ Ho) as [_ Hok].
  eapply cancellation_covered in Hc as [Hc1 Hc2]; [|apply Hbook|done|done].
  by eapply apply_good in Hr as [? _].
Qed.

Lemma market_amount_pos (o : MarketOrder.t) u : amount_ok (divisibility id) (MarketOrder.amount o) →
  OrderBook.ensure_market_order_valid self o = Ok u → 0 < inner (MarketOrder.amount o).
Proof.
  intros [_ [? _]] Hv. unfold OrderBook.ensure_market_order_valid, MarketOrder.ensure_valid in Hv. run.
  unfold BalanceUnit.is_zero in *. zbool. lia.
Qed.

Lemma execute_inv (o : MarketOrder.t) r w w' : Good w → operation_ok (Execute o) w →
  OrderBook.execute_market_order self o w = (Ok r, w') →
  let n := inner (MarketOrder.amount o) in
  let q := queue (data w) id (switched (MarketOrder.direction o)) in
  let deal := deal_change divisibility self (MarketOrder.direction o) (MarketOrder.owner o)
                (default (MarketOrder.owner o) (MarketOrder.to o)) (fst (take q n)) (snd (take q n)) in
  OrderBook.ensure_market_order_valid self o = Ok tt ∧ 0 < n ≤ volume q ∧
  ∃ w1, Good w1 ∧ change_ok divisibility self pending deal (orders w) ∧
    applied divisibility self pending deal w w1 ∧
    data w' = data w1 ∧ agenda w' = agenda w1 ∧ ledger w' = ledger w1 ∧ registered w' = registered w1.
Proof.
  intros Hg [Ha Hu] Hr n q deal. unfold OrderBook.execute_market_order in Hr.
  apply M_bind_ok in Hr as ([] & w1 & [_ ->]%M_ensure_ok & Hr).
  apply M_bind_ok in Hr as ([] & w1 & [Hv ->]%M_lift_ok & Hr).
  pose proof (market_amount_pos o _ Ha Hv) as Hpos.
  apply M_bind_ok in Hr as (c & w1 & (s & Hc & ->)%zoom_ok & Hr).
  pose proof (good_state _ Hg) as [HI _]. pose proof (bk_assets Hbook) as Hbq.
  apply (market_order_ok divisibility) in Hc as (-> & [Hvol Hfits] & ->); try done.
  rewrite set_data_same in Hr. repeat case_match; try (by apply M_throw_ok in Hr).
  apply M_bind_ok in Hr as (p & w2 & [_ ->]%M_ok_or_ok & Hr).
  apply M_bind_ok in Hr as ([] & w2 & Hap & Hr).
  pose proof (deal_change_ok divisibility self pending Hbq _ HI (MarketOrder.direction o)
    (MarketOrder.owner o) (default (MarketOrder.owner o) (MarketOrder.to o)) n Hpos) as Hok.
  eapply apply_good in Hap as [Hg2 Hap2]; [|done|done|exact Hok|by apply deal_covered].
  apply M_bind_ok in Hr as ([] & w3 & [= <-] & [_ ->]%M_ret_ok).
  split; [done|]. split; [done|]. exists w2. by split_and!.
Qed.

Lemma execute_keeps (o : MarketOrder.t) r w w' : Good w → operation_ok (Execute o) w →
  OrderBook.execute_market_order self o w = (Ok r, w') → Good w'.
Proof.
  intros Hg Hop Hr. apply execute_inv in Hr as (_ & _ & w1 & Hg1 & _ & _ & ? & ? & ? & _); [|done..].
  by eapply Good_events.
Qed.

Lemma align_keeps os w w' : Good w → operation_ok (Align os) w →
  OrderBook.align_limit_orders self os w = (Ok tt, w') → Good w'.
Proof.
  intros Hg [Hnd Hos] Hr. unfold OrderBook.align_limit_orders in Hr.
  destruct os as [|o os]; [by apply M_ret_ok in Hr as [_ ->]|].
  apply M_bind_ok in Hr as (c & w1 & [Hc ->]%M_lift_ok & Hr).
  eapply align_covered in Hc as (Hc1 & Hc2 & _); [|apply Hbook..|exact Hnd|].
  - by eapply apply_good in Hr as [? _].
  - intros o' Ho'%Hos. split; [done|].
    by apply (inv_order _ _ (st_inv _ _ _ (good_state _ Hg))) in Ho' as [_ ?].
Qed.

Lemma perform_keeps op w w' : Good w → operation_ok op w →
  perform self op w = (Ok tt, w') → Good w'.
Proof.
  intros Hg Hop Hr. destruct op as [o|o|reason|o|o|os]; cbn in Hr.
  - apply M_bind_ok in Hr as (n & w1 & Hr & [_ ->]%M_ret_ok). by eapply place_keeps.
  - apply M_bind_ok in Hr as ([] & w1 & [_ ->]%M_ensure_ok & Hr). by eapply cancel_unchecked_keeps.
  - apply M_bind_ok in Hr as (n & w1 & Hr & [_ ->]%M_ret_ok).
    apply M_bind_ok in Hr as (c & w2 & (s & Hc & ->)%zoom_ok & Hr).
    apply (all_cancellation_covered divisibility self pending) in Hc as (-> & Hc1 & Hc2 & _);
      [|apply Hbook|apply Hg].
    rewrite set_data_same in Hr. apply M_bind_ok in Hr as ([] & w3 & Hr & [_ ->]%M_ret_ok).
    by eapply apply_good in Hr as [? _].
  - by eapply cancel_unchecked_keeps.
  - apply M_bind_ok in Hr as (r & w1 & Hr & [_ ->]%M_ret_ok). by eapply execute_keeps.
  - by eapply align_keeps.
Qed.
End operations.

(** ** Runs *)

Section runs.
Context {Cfg : Config} {SK : StorageKeys} (divisibility : OrderBookId → bool).
Context {L : Type} `{MultiCurrencyLaws L} {TA : TechAccounts}.
Implicit Types (w : World Storage L).

(** The states that operations of any books lead to.  Between them, the rest of
    the chain may move funds as long as it does not take from the accounts of the
    books; a failed operation is rolled back by its caller. *)
Inductive reached (w0 : World Storage L) : World Storage L → Prop :=
| reached_start : reached w0 w0
| reached_operation w self op w' :
    reached w0 w → book_ok divisibility self → operation_ok divisibility self [] op w →
    perform self op w = (Ok tt, w') → reached w0 w'
| reached_outside w w' :
    reached w0 w → data w' = data w → agenda w' = agenda w →
    (∀ a b, free_balance (ledger w) a (tech_account b) ≤ free_balance (ledger w') a (tech_account b)) →
    reached w0 w'.

(** C2. Whatever sequence of placements, cancellations, expirations, market
    orders and alignments runs, on whatever books: the stored orders and all
    indices stay consistent, exactly the open orders are scheduled for expiration
    (once each), and the account of every book holds, of each asset, at least
    what its open orders have locked. *)
Theorem order_books_stay_solvent w0 w : tech_injective → Good divisibility [] w0 → reached w0 w →
  Inv divisibility (data w) ∧ agenda_ok [] (data w) (agenda w) ∧
  ∀ b a, owed (LimitOrders (data w)) b a ≤ free_balance (ledger w) a (tech_account b).
Proof.
  intros Hinj Hg0 Hr. enough (Good divisibility [] w) as [[??] ?] by done.
  induction Hr as [|w self op w' Hr IH Hb Hop Hrun|w w' Hr IH Ed Ea El]; [done|..].
  - by eapply perform_keeps.
  - destruct IH as [[HI Hag] Hs]. split; [split; by rewrite ?Ed, ?Ea|].
    intros b a. rewrite Ed. etransitivity; [apply Hs|apply El].
Qed.
End runs.

(** ** Examples *)

#[local] Existing Instance RuntimeConfig.
#[local] Existing Instance Samples.plain_keys.

Module OperationSamples.
Definition buy : LimitOrder.t := Samples.order 1 7%N Buy 10 5.
Definition place_buy := perform (L := Ledger) MarketSamples.order_book (Place buy).

(** The world after account 7 has placed a buy order. *)
Definition after_buy : World Storage Ledger := snd (place_buy sample_world).

Lemma book_sample_ok : book_ok Samples.divisibility MarketSamples.order_book.
Proof. split; [done|split; done|done|done]. Qed.

Lemma sample_good : Good Samples.divisibility [] sample_world.
Proof.
  split; [split; [apply Inv_empty|]|].
  - split; [|intros t; constructor]. intros t x. split; [by intros ?%elem_of_nil|].
    by intros (o & Ho & _).
  - intros b a. unfold owed. cbn. rewrite map_fold_empty. unfold ledger_balance.
    destruct (_ !! _) as [v|] eqn:E; [|done]. cbn.
    apply lookup_insert_Some in E as [[_ <-]|[_ [[_ <-]|[_ E]]%lookup_insert_Some]]; done.
Qed.

Lemma sample_supply : supply_fits (ledger sample_world).
Proof.
  intros a x. cbn. unfold ledger_balance. destruct (_ !! _) as [v|] eqn:E; [|done]. cbn.
  apply lookup_insert_Some in E as [[_ <-]|[_ [[_ <-]|[_ E]]%lookup_insert_Some]]; done.
Qed.
End OperationSamples.

Lemma order_books_stay_solvent_witness :
  50 * 10 ^ 18 ≤ free_balance (ledger OperationSamples.after_buy) 0%N (tech_account Samples.book).
Proof.
  destruct (order_books_stay_solvent Samples.divisibility sample_world OperationSamples.after_buy)
    as (_ & _ & Hs).
  - intros b b'. apply sample_accounts_inj.
  - apply OperationSamples.sample_good.
  - apply (reached_operation _ _ sample_world MarketSamples.order_book (Place OperationSamples.buy)).
    + apply reached_start.
    + apply OperationSamples.book_sample_ok.
    + split; [split; done|]. split; [exact (odd_user 7 eq_refl)|]. split; [apply not_elem_of_nil|].
      apply OperationSamples.sample_supply.
    + vm_compute. reflexivity.
  - refine (Z.le_trans _ _ _ _ (Hs Samples.book 0%N)). vm_compute. discriminate.
Defined.
