(* ===== verification/WorldRefine.v ===== *)
(** * The order book over any data layer

    The theorems on the operations are proved over the plain storage; the pallet
    runs them over [CacheDataLayer].  Every operation of the order book, written
    against the [DataLayer] trait, simulates itself over the storage for any layer
    that keeps the promise [LayerRefines]. *)

From S2P Require Import Prelude BTreeMap FixedPoint Units OrderTypes DataLayer StorageProps.
From S2P Require Import CacheStorage CacheProps CacheLayer CacheRefine LayerSpec World Payments.
From S2P Require Import OrderBook Matching Priority CrossSpread BookState Solvency Operations.
From S2P Require Import SampleLedger.

(** Proof search of simulations: sequencing and the steps known to the database. *)
Create HintDb sim discriminated.
#[export] Hint Resolve sim_ensure sim_ok_or sim_lift sim_throw err_unrelated err_same : sim.

Ltac sim_step :=
  first
    [ solve [auto with sim]
    | eapply sim_bind; [solve [auto with sim]|intros ? ? <-]
    | eapply sim_ret; reflexivity ].

(** ** Reads *)

Section reads.
Context {Cfg : Config} {SK : StorageKeys} (divisibility : OrderBookId → bool).
Context {D : Type} `{LayerRefines divisibility D}.
Context (self : OrderBook.t).
Abbreviation id := (OrderBook.order_book_id self).
Abbreviation refines := (sim (E := DispatchError) (stands divisibility lrel) unrelated).

#[local] Hint Resolve lr_get_limit_order lr_best_bid lr_best_ask lr_get_aggregated_bids
  lr_get_aggregated_asks lr_get_aggregated_bids_len lr_get_aggregated_asks_len
  lr_is_user_limit_orders_full lr_delete_limit_order : sim.

(** The prices of a side are divisible, as the keys of the price levels. *)
Definition sides (m m' : list (OrderPrice * OrderVolume)) : Prop :=
  m = m' ∧ Forall (λ q, price_key (fst q)) m'.

Lemma aggregated_keys sd (c : M D DispatchError MarketSide) :
  refines eq c (StorageDataLayer.reads (λ s, default [] (side_agg sd s !! id))) →
  refines sides c (StorageDataLayer.reads (λ s, default [] (side_agg sd s !! id))).
Proof.
  intros Hc d s Hs. specialize (Hc d s Hs). simpl in *. destruct (c d) as [[m|e] d']; [|done].
  destruct Hc as [-> ?]. split; [|done]. split; [done|]. apply (inv_agg_keys divisibility), Hs.
Qed.

Lemma market_data_refines sd :
  refines sides (OrderBook.market_data self sd) (OrderBook.market_data self sd).
Proof.
  destruct sd; simpl.
  - eapply sim_bind; [apply (aggregated_keys Buy), lr_get_aggregated_bids|]. intros m ? [<- Hm].
    apply sim_ret. split; [done|]. by rewrite reverse_Permutation.
  - apply (aggregated_keys Sell), lr_get_aggregated_asks.
Qed.

Lemma market_volume_refines sd :
  refines eq (OrderBook.market_volume self sd) (OrderBook.market_volume self sd).
Proof. destruct sd; simpl; repeat sim_step. Qed.

Lemma market_depth_refines sd limit :
  refines eq (OrderBook.market_depth self sd limit) (OrderBook.market_depth self sd limit).
Proof. eapply sim_bind; [apply market_data_refines|]. intros m ? [<- _]. sim_step. Qed.

Lemma crosses_refines o : refines eq (OrderBook.crosses self o) (OrderBook.crosses self o).
Proof.
  unfold OrderBook.crosses, OrderBook.best_ask, OrderBook.best_bid.
  destruct (LimitOrder.side o); repeat sim_step.
Qed.

Lemma check_restrictions_refines o : price_key (LimitOrder.price o) →
  refines eq (OrderBook.check_restrictions self o) (OrderBook.check_restrictions self o).
Proof.
  intros Hp. unfold OrderBook.check_restrictions. sim_step.
  eapply sim_bind; [destruct a; repeat sim_step|]. intros _ _ _.
  destruct (LimitOrder.side o).
  - eapply sim_bind; [by apply lr_is_bid_price_full|]. intros full ? <-. destruct full; repeat sim_step.
  - eapply sim_bind; [by apply lr_is_ask_price_full|]. intros full ? <-. destruct full; repeat sim_step.
Qed.

(** ** Impacts *)

Lemma level_loop_refines asset ids i :
  refines eq (OrderBook.level_loop self asset ids i) (OrderBook.level_loop self asset ids i).
Proof.
  revert i. induction ids as [|o ids IH]; intros i; simpl; [sim_step|]. sim_step. sim_step.
  destruct (BalanceUnit.is_zero _); [sim_step|apply IH].
Qed.

Lemma price_level_refines sd p : price_key p →
  refines eq (get_limit_orders_by_price id sd p) (get_limit_orders_by_price id sd p).
Proof. intros Hp. destruct sd; [by apply lr_get_bids|by apply lr_get_asks]. Qed.

Lemma market_loop_refines dir asset m i : Forall (λ q, price_key (fst q)) m →
  refines eq (OrderBook.market_loop self dir asset m i) (OrderBook.market_loop self dir asset m i).
Proof.
  intros Hm. revert i. induction Hm as [|[p v] m Hp _ IH]; intros i; simpl; [sim_step|].
  eapply sim_bind; [by apply price_level_refines|]. intros l ? <-. sim_step.
  eapply sim_bind; [apply level_loop_refines|]. intros j ? <-.
  destruct (BalanceUnit.is_zero _); [sim_step|apply IH].
Qed.

Lemma market_order_impact_refines o :
  refines eq (OrderBook.calculate_market_order_impact self o)
    (OrderBook.calculate_market_order_impact self o).
Proof.
  eapply sim_bind; [apply market_data_refines|]. intros m ? [<- Hm].
  unfold OrderBook.calculate_market_impact. destruct (MarketOrder.direction o).
  all: eapply sim_bind; [by apply market_loop_refines|]; intros j ? <-; repeat sim_step.
Qed.

Lemma calculate_deal_refines input output amount :
  refines eq (OrderBook.calculate_deal self input output amount)
    (OrderBook.calculate_deal self input output amount).
Proof.
  unfold OrderBook.calculate_deal. sim_step.
  eapply sim_bind; [apply market_data_refines|]. intros m ? [<- _]. sim_step.
  destruct a0 as [b q]. sim_step. destruct (match a with Buy => (q, b) | Sell => (b, q) end).
  repeat sim_step.
Qed.

Lemma cross_spread_refines o :
  refines eq (OrderBook.cross_spread self o) (OrderBook.cross_spread self o).
Proof.
  eapply sim_bind; [apply market_data_refines|]. intros m ? [<- _].
  destruct (OrderBook.calculate_market_depth_volume_to_price _ _ _ m) as [market limit].
  eapply (sim_bind _ _ eq).
  { destruct (BalanceUnit.lt _ _); [|sim_step].
    eapply sim_bind; [apply market_volume_refines|]. intros v ? <-. sim_step.
    destruct (BalanceUnit.ge _ _); repeat sim_step. }
  intros [market' limit'] ? <-. eapply (sim_bind _ _ eq).
  { destruct (negb _); [apply market_order_impact_refines|sim_step]. }
  intros c ? <-. destruct (negb _); repeat sim_step.
Qed.
End reads.

(** ** Worlds *)

Section worlds.
Context {Cfg : Config} {SK : StorageKeys} (divisibility : OrderBookId → bool).
Context {D : Type} `{LayerRefines divisibility D}.
Context {L : Type} `{MultiCurrency L} {TA : TechAccounts}.
Context (self : OrderBook.t).
Abbreviation id := (OrderBook.order_book_id self).
Abbreviation refines := (sim (E := DispatchError) (stands divisibility lrel) unrelated).

(** Worlds that differ only in the layer over the same data. *)
Record same_world (w : World D L) (w' : World Storage L) : Prop := {
  sw_data : stands divisibility lrel (data w) (data w');
  sw_ledger : ledger w = ledger w';
  sw_registered : registered w = registered w';
  sw_agenda : agenda w = agenda w';
  sw_events : events w = events w'
}.
Section frame.
Context (rerr : World D L → World Storage L → Prop) {HE : ErrRel same_world rerr}.
Abbreviation wsim := (sim (E := DispatchError) same_world rerr).

Lemma on_ledger_sim {A} (c : M L DispatchError A) : wsim eq (on_ledger c) (on_ledger c).
Proof.
  intros w w' [Hd El ? ? ?]. unfold on_ledger, zoom, sim_run. rewrite El.
  destruct (c (ledger w')) as [[a|e] l]; (split; [done|]); [by split|]. by apply err_rel.
Qed.

Lemma emit_event_sim ev : wsim eq (emit_event id ev) (emit_event id ev).
Proof. apply sim_modify. intros w w' [? ? ? ? Ee]. split; try done. simpl. by rewrite Ee. Qed.

(** Changes of the agenda. *)
Lemma set_agenda_sim (f : Agenda → Agenda) :
  wsim eq (modify (λ w, set_agenda (f (agenda w)) w)) (modify (λ w, set_agenda (f (agenda w)) w)).
Proof. apply sim_modify. intros w w' [? ? ? Ea ?]. split; try done. simpl. by rewrite Ea. Qed.

Lemma schedule_sim t i : wsim eq (schedule_expiration t id i) (schedule_expiration t id i).
Proof.
  apply sim_get_state. intros w w' Hw. rewrite (sw_agenda _ _ Hw). sim_step.
  apply (set_agenda_sim (λ ag, <[t := a]> ag)).
Qed.

Lemma unschedule_expiration_sim t i :
  wsim eq (unschedule_expiration t id i) (unschedule_expiration t id i).
Proof.
  apply sim_get_state. intros w w' Hw. rewrite (sw_agenda _ _ Hw). sim_step.
  apply (set_agenda_sim (λ ag, <[t := a]> ag)).
Qed.

Lemma unschedule_sim ignore o :
  wsim eq (OrderBook.unschedule ignore self o) (OrderBook.unschedule ignore self o).
Proof.
  intros w w' Hw. unfold OrderBook.unschedule.
  pose proof (unschedule_expiration_sim (LimitOrder.expires_at o) (LimitOrder.id o) w w' Hw) as Hs.
  unfold unschedule_expiration in *. revert Hs. exec. rewrite (sw_agenda _ _ Hw).
  destruct (remove_first _ _); exec; simpl; [by intros [_ ?]|]. intros _.
  destruct ignore; split; try done. by apply err_rel.
Qed.

Lemma transfer_sim asset x y amount t :
  wsim eq (ensure_account_registered t ≫= λ _, on_ledger (transfer_from asset x y amount))
    (ensure_account_registered t ≫= λ _, on_ledger (transfer_from asset x y amount)).
Proof.
  eapply (sim_bind _ _ eq); [|intros _ _ _; apply on_ledger_sim].
  apply sim_get_state. intros w w' Hw. rewrite (sw_registered _ _ Hw). sim_step.
Qed.

Lemma for_each_sim {X} (xs : list X) (f : X → M (World D L) DispatchError unit)
    (f' : X → M (World Storage L) DispatchError unit) :
  (∀ x, wsim eq (f x) (f' x)) → wsim eq (for_each xs f) (for_each xs f').
Proof. intros Hf. by apply (sim_for_each _ _ (λ _, True)); [|apply Forall_true]. Qed.

Lemma execute_all_sim p : wsim eq (execute_all p) (execute_all p).
Proof.
  eapply (sim_bind _ _ eq); [|intros _ _ _]; apply for_each_sim; intros [asset accounts];
    apply for_each_sim; intros [account amount]; apply transfer_sim.
Qed.

End frame.

Abbreviation wsim := (sim (E := DispatchError) same_world unrelated).

Lemma on_data_sim {A B} (Q : A → B → Prop) c c' : refines Q c c' → wsim Q (on_data c) (on_data c').
Proof.
  intros Hc w w' [Hd ? ? ? ?]. specialize (Hc _ _ Hd). unfold on_data, zoom, sim_run in *.
  destruct (c (data w)) as [[a|e] d], (c' (data w')) as [[b|e'] s]; try done.
  destruct Hc as [HQ Hs]. split; [done|]. by split.
Qed.

(** What an applied change passes to the data layer. *)
Record change_wf (c : MarketChange.t) : Prop := {
  cw_placed : Forall (order_ok divisibility id) (placed c);
  cw_lowered : Forall (λ o, BalanceUnit.is_divisible (LimitOrder.amount o) = divisibility id ∧
                            0 ≤ inner (LimitOrder.amount o)) (lowered c)
}.

Lemma change_ok_wf pending c m : change_ok divisibility self pending c m → change_wf c.
Proof.
  intros [_ _ Hl Hp]. split; apply Forall_forall.
  - intros o Ho. by apply Hp.
  - intros o (o0 & n & _ & -> & Hd & Hn)%Hl. simpl. split; [done|lia].
Qed.

Lemma removal_sim i : wsim eq (on_data (delete_limit_order id i)) (on_data (delete_limit_order id i)).
Proof. apply on_data_sim, lr_delete_limit_order. Qed.

#[local] Hint Resolve emit_event_sim unschedule_sim schedule_sim execute_all_sim removal_sim : sim.

Lemma update_sim i n : BalanceUnit.is_divisible n = divisibility id ∧ 0 ≤ inner n →
  wsim eq (on_data (update_limit_order_amount id i n)) (on_data (update_limit_order_amount id i n)).
Proof. intros [? ?]. by apply on_data_sim, lr_update_limit_order_amount. Qed.

Lemma apply_cancel_sim ignore o reason :
  wsim eq (OrderBook.apply_cancel self ignore o reason) (OrderBook.apply_cancel self ignore o reason).
Proof. unfold OrderBook.apply_cancel. repeat sim_step. Qed.

Lemma apply_change_sim c : change_wf c →
  wsim eq (OrderBook.apply_market_change self c) (OrderBook.apply_market_change self c).
Proof.
  intros [Hp Hl]. unfold lowered in Hl. apply Forall_app in Hl as [Hl1 Hl2]. rewrite Forall_fmap in Hl1.
  unfold OrderBook.apply_market_change. sim_step. eapply (sim_bind _ _ eq); [|intros _ _ _; eapply (sim_bind _ _ eq)].
  - apply for_each_sim. intros [o r]. apply apply_cancel_sim.
  - apply for_each_sim. intros o. unfold OrderBook.apply_full_execute. repeat sim_step.
  - intros _ _ _. eapply (sim_bind _ _ eq); [|intros _ _ _; eapply (sim_bind _ _ eq)].
    + eapply sim_for_each; [|exact Hl1]. intros [o r] Ho. unfold OrderBook.apply_part_execute.
      eapply sim_bind; [by apply update_sim|]. intros _ _ _. sim_step.
    + eapply sim_for_each; [|exact Hl2]. intros o Ho. unfold OrderBook.apply_force_update.
      eapply sim_bind; [by apply update_sim|]. intros _ _ _. sim_step.
    + intros _ _ _. eapply sim_for_each; [|exact Hp]. intros o Ho. unfold OrderBook.apply_place.
      eapply sim_bind; [by apply on_data_sim, lr_insert_limit_order|]. intros _ _ _. repeat sim_step.
Qed.

Lemma report_sim i owner c :
  wsim eq (OrderBook.report_placement self i owner c) (OrderBook.report_placement self i owner c).
Proof. unfold OrderBook.report_placement. repeat case_match; sim_step. Qed.

Lemma cancel_unchecked_sim o reason ignore :
  wsim eq (OrderBook.cancel_limit_order_unchecked self o reason ignore)
    (OrderBook.cancel_limit_order_unchecked self o reason ignore).
Proof.
  intros w w' Hw. eapply sim_run_bind; [by apply sim_lift|]. intros c ? t t' <- Ht [Hc ->]%M_lift_ok.
  apply apply_change_sim; [|done]. unfold OrderBook.calculate_cancellation_limit_order_impact in Hc. run.
  split; constructor.
Qed.
End worlds.

(** ** Operations *)

Section operations.
Context {Cfg : Config} {SK : StorageKeys} (divisibility : OrderBookId → bool).
Context {D : Type} `{LayerRefines divisibility D}.
Context {L : Type} `{MultiCurrencyLaws L} {TA : TechAccounts}.
Context (self : OrderBook.t) (pending : list entry).
Context (Hbook : book_ok divisibility self) (Hinj : tech_injective).
Implicit Types (w : World D L) (v : World Storage L).
Abbreviation id := (OrderBook.order_book_id self).
Abbreviation Good := (Operations.Good divisibility pending).
Abbreviation same_world := (WorldRefine.same_world divisibility).

Lemma place_sim o w v : same_world w v → Good v → operation_ok divisibility self pending (Place o) v →
  sim_run same_world unrelated eq (OrderBook.place_limit_order self o w) (OrderBook.place_limit_order self o v).
Proof.
  intros Hw Hg Hop. unfold OrderBook.place_limit_order.
  eapply sim_run_bind; [by apply sim_ensure|]. clear w Hw. intros _ _ w ? _ Hw [_ ->]%M_ensure_ok.
  eapply sim_run_bind; [by apply sim_lift|]. clear w Hw. intros _ _ w ? _ Hw [_ ->]%M_lift_ok.
  eapply sim_run_bind.
  { apply (on_data_sim divisibility); [|done]. apply (check_restrictions_refines divisibility), Hop. }
  clear w Hw. intros _ _ w ? _ Hw [_ ->]%on_data_read; [|intros ? ?; apply check_restrictions_read].
  eapply sim_run_bind.
  { apply (on_data_sim divisibility); [|done]. apply (crosses_refines divisibility). }
  clear w Hw. intros crossing ? w ? <- Hw [_ ->]%on_data_read; [|intros ? ?; apply crosses_read].
  eapply (sim_run_bind _ _ eq).
  { destruct crossing; [|by apply sim_lift]. destruct (OrderBook.is_trade _); [|by apply sim_throw].
    apply (on_data_sim divisibility); [|done]. apply (cross_spread_refines divisibility). }
  clear w Hw. intros c ? w ? <- Hw (-> & Hc & _)%(place_change divisibility self pending); [|done..].
  eapply sim_run_bind; [by apply (apply_change_sim divisibility self c (change_ok_wf _ _ _ _ _ Hc))|].
  clear w Hw. intros _ _ w u _ Hw _.
  eapply sim_run_bind; [by apply (report_sim divisibility)|]. clear w Hw. intros _ _ w ? _ Hw _.
  by apply sim_ret.
Qed.

Lemma execute_sim (o : MarketOrder.t) w v : same_world w v → Good v →
  operation_ok divisibility self pending (Execute o) v →
  sim_run same_world unrelated eq (OrderBook.execute_market_order self o w)
    (OrderBook.execute_market_order self o v).
Proof.
  intros Hw Hg [Ha Hu]. unfold OrderBook.execute_market_order.
  eapply sim_run_bind; [by apply sim_ensure|]. clear w Hw. intros _ _ w ? _ Hw [_ ->]%M_ensure_ok.
  eapply sim_run_bind; [by apply sim_lift|]. clear w Hw. intros [] ? w ? <- Hw [Hv ->]%M_lift_ok.
  pose proof (market_amount_pos _ _ _ _ Ha Hv) as Hpos. pose proof (good_state _ _ _ Hg) as [HI _].
  eapply sim_run_bind.
  { apply (on_data_sim divisibility); [|done]. apply (market_order_impact_refines divisibility). }
  clear w Hw. intros c ? w u <- Hw (s & Hc & ->)%zoom_ok.
  apply (market_order_ok divisibility) in Hc as (-> & _ & ->); [|done|apply Hbook|done|done].
  rewrite set_data_same in *. repeat case_match; try by apply sim_throw.
  eapply sim_run_bind; [by apply sim_ok_or|]. clear w Hw. intros p ? w ? <- Hw [_ ->]%M_ok_or_ok.
  eapply sim_run_bind.
  { apply (apply_change_sim divisibility self); [|done]. eapply change_ok_wf with (pending := pending), deal_change_ok; [apply Hbook|done|done]. }
  clear w Hw. intros _ _ w ? _ Hw _. eapply sim_run_bind; [by apply (emit_event_sim divisibility)|].
  clear w Hw. intros _ _ w ? _ Hw _. by apply sim_ret.
Qed.

Lemma align_sim os w v : same_world w v → Good v → operation_ok divisibility self pending (Align os) v →
  sim_run same_world unrelated eq (OrderBook.align_limit_orders self os w) (OrderBook.align_limit_orders self os v).
Proof.
  intros Hw Hg [Hnd Hos]. unfold OrderBook.align_limit_orders.
  destruct os as [|o os]; [by apply sim_ret|].
  eapply sim_run_bind; [by apply sim_lift|]. clear w Hw. intros c ? w ? <- Hw [Hc ->]%M_lift_ok.
  eapply (align_covered divisibility self pending) in Hc as (Hc & _); [|apply Hbook..|exact Hnd|].
  - by apply (apply_change_sim divisibility self c (change_ok_wf _ _ _ _ _ Hc)).
  - intros o' Ho'%Hos. split; [done|].
    by apply (inv_order _ _ (st_inv _ _ _ (good_state _ _ _ Hg))) in Ho' as [_ ?].
Qed.

(** The operations the pallet runs ([cancel_all_limit_orders] is not one). *)
Definition reachable_operation (op : operation) : Prop :=
  match op with CancelAll _ => False | _ => True end.

Lemma perform_sim op w v : same_world w v → Good v → operation_ok divisibility self pending op v →
  reachable_operation op → sim_run same_world unrelated eq (perform self op w) (perform self op v).
Proof.
  intros Hw Hg Hop Hre. destruct op as [o|o|reason|o|o|os]; simpl; try done.
  - eapply sim_run_bind; [by apply place_sim|]. intros ? ? ? ? _ ? _. by apply sim_ret.
  - eapply sim_run_bind; [by apply sim_ensure|]. intros ? ? ? ? _ ? _.
    by apply (cancel_unchecked_sim divisibility).
  - by apply (cancel_unchecked_sim divisibility).
  - eapply sim_run_bind; [by apply execute_sim|]. intros ? ? ? ? _ ? _. by apply sim_ret.
  - by apply align_sim.
Qed.
End operations.

(** ** The cached layer *)

Section cached.
Context {Cfg : Config} {SK : StorageKeys} (divisibility : OrderBookId → bool).
Context {L : Type} `{MultiCurrencyLaws L} {TA : TechAccounts}.

(** [CacheDataLayer::new()] at the start of a call, [data.commit()] at its end. *)
Definition open_cache (w : World Storage L) : World CacheDataLayer.t L :=
  mkWorld (CacheDataLayer.new (data w)) (ledger w) (registered w) (agenda w) (events w).
Definition commit_cache (w : World CacheDataLayer.t L) : World Storage L :=
  mkWorld (CacheDataLayer.storage (CacheDataLayer.commit (data w))) (ledger w) (registered w)
    (agenda w) (events w).

Lemma open_same w : Inv divisibility (data w) → same_world divisibility (open_cache w) w.
Proof. intros HI. split; try done. split; [apply related_new|done]. Qed.

Lemma commit_same w v : same_world divisibility w v → commit_cache w = v.
Proof.
  intros [[Hd _] El Er Ea Ee]. destruct v. unfold commit_cache. simpl in *. subst.
  f_equal. by apply related_commit.
Qed.

(** C18. An operation of the order book run through a fresh [CacheDataLayer] and
    committed fails with the same error, or succeeds and leaves exactly the same
    storage, balances, agenda and events, as the operation run directly on
    storage. *)
Theorem cached_operation_refines self op w : book_ok divisibility self →
  Good divisibility [] w → operation_ok divisibility self [] op w → reachable_operation op →
  match perform self op (open_cache w), perform self op w with
  | (Ok _, wc), (Ok _, w') => commit_cache wc = w'
  | (Err e, _), (Err e', _) => e = e'
  | _, _ => False
  end.
Proof.
  intros Hb Hg Hop Hre.
  pose proof (perform_sim divisibility self [] Hb op (open_cache w) w) as Hs.
  specialize (Hs (open_same _ (st_inv _ _ _ (good_state _ _ _ Hg))) Hg Hop Hre). unfold sim_run in Hs.
  destruct (perform self op (open_cache w)) as [[?|?] wc], (perform self op w) as [[?|?] w']; try done.
  - apply commit_same, Hs.
  - apply Hs.
Qed.
End cached.

(** ** Example *)

#[local] Existing Instance RuntimeConfig.
#[local] Existing Instance Samples.plain_keys.
Import OperationSamples.

Lemma buy_ok : operation_ok Samples.divisibility MarketSamples.order_book [] (Place buy) sample_world.
Proof.
  split; [split; done|]. split; [exact (odd_user 7 eq_refl)|]. split; [apply not_elem_of_nil|].
  apply sample_supply.
Qed.

Definition cached_buy := perform MarketSamples.order_book (Place buy) (open_cache sample_world).

Lemma cached_operation_refines_witness : commit_cache (snd cached_buy) = after_buy.
Proof.
  pose proof (cached_operation_refines Samples.divisibility MarketSamples.order_book (Place buy)
    sample_world book_sample_ok sample_good buy_ok I) as Hr.
  assert (place_buy sample_world = (Ok tt, after_buy)) as E by (vm_compute; reflexivity).
  unfold place_buy in E. rewrite E in Hr. fold cached_buy in Hr.
  destruct cached_buy as [[] wc]; [exact Hr|destruct Hr].
Defined.
