(* ===== verification/Effects.v ===== *)
(** * What the operations do

    The exact effect of every successful operation of an order book on the open
    orders and on all balances, and the conditions under which operations are
    refused.  [moved asset account v] is [v] of [asset] on [account] and zero
    elsewhere, so that a settlement reads as a sum of what each party gains and
    pays. *)

From S2P Require Import Prelude BTreeMap FixedPoint Units OrderTypes DataLayer StorageProps World.
From S2P Require Import Payments OrderBook Matching Priority CrossSpread BookState Solvency Operations.
From S2P Require Import SampleLedger WorldRefine.

Lemma at_asset_moved a x asset y v :
  at_asset a asset (if bool_decide (y = x) then v else 0) = moved asset y v a x.
Proof. unfold at_asset, moved. repeat case_bool_decide; naive_solver. Qed.

Lemma at_account_moved a x asset y v : at_account x y (at_asset a asset v) = moved asset y v a x.
Proof. unfold at_account, at_asset, moved. repeat case_bool_decide; naive_solver. Qed.

Lemma at_asset_sum {A} a asset (f : A → Z) l :
  at_asset a asset (sum_by f l) = sum_by (λ x, at_asset a asset (f x)) l.
Proof. unfold at_asset. case_bool_decide; [done|]. by rewrite sum_by_zero. Qed.

(** Several payments one after the other. *)
Definition pay_all (l : list (AssetId * AccountId * OrderVolume))
    (m : BTreeMap AssetId (BTreeMap AccountId OrderVolume)) :=
  fold_left (λ acc '(a, x, v), Payment.add_entry a x v acc) l m.

Definition paid (l : list (AssetId * AccountId * OrderVolume)) (a : AssetId) (x : AccountId) : Z :=
  sum_by (λ '(b, y, v), moved b y (inner v) a x) l.

Definition paid_total (l : list (AssetId * AccountId * OrderVolume)) (a : AssetId) : Z :=
  sum_by (λ '(b, _, v), at_asset a b (inner v)) l.

(** They are exact when the totals fit a balance. *)
Lemma pay_all_exact flag l m : pay_ok flag m →
  Forall (λ '(a, _, v), amount_ok (flag a) v) l →
  (∀ a, total m a + paid_total l a ≤ u128_max) →
  pay_ok flag (pay_all l m) ∧
  ∀ a, total (pay_all l m) a = total m a + paid_total l a ∧
       ∀ x, credit (pay_all l m) a x = credit m a x + paid l a x.
Proof.
  unfold paid, paid_total. revert m. induction l as [|[[b y] v] l IH]; intros m Hm Hl Hle.
  { split; [done|]. intros a. split; intros; rewrite sum_by_nil; unfold pay_all; cbn [fold_left]; lia. }
  apply Forall_cons in Hl as [Hv Hl].
  assert (∀ a, 0 ≤ sum_by (λ '(b, _, v), at_asset a b (inner v)) l) as Hnn.
  { intros a. apply sum_by_nonneg. intros [[b' y'] v'] Hin. rewrite Forall_forall in Hl.
    destruct (Hl _ Hin) as [_ [? _]]. unfold at_asset. by case_bool_decide. }
  assert (∀ a, total m a + (at_asset a b (inner v) + sum_by (λ '(b, _, v), at_asset a b (inner v)) l)
    ≤ u128_max) as Hle' by exact Hle.
  pose proof (add_entry_exact flag b y v m Hm Hv) as Hadd.
  assert (total m b + inner v ≤ u128_max) as Hb.
  { specialize (Hle' b). specialize (Hnn b). unfold at_asset at 1 in Hle'.
    rewrite bool_decide_eq_true_2 in Hle' by done. lia. }
  specialize (Hadd Hb). destruct (IH (Payment.add_entry b y v m)) as [Hok Hex].
  - by apply add_entry_ok.
  - done.
  - intros a. rewrite (proj1 (Hadd a)). specialize (Hle' a). lia.
  - split; [done|]. intros a. destruct (Hex a) as [E1 E2], (Hadd a) as [F1 F2].
    change (pay_all ((b, y, v) :: l) m) with (pay_all l (Payment.add_entry b y v m)).
    split; [|intros x]; rewrite ?E1, ?E2, ?F1, ?F2, sum_by_cons, ?at_asset_moved; lia.
Qed.

Section effects.
Context {Cfg : Config} {SK : StorageKeys} (divisibility : OrderBookId → bool).
Context {L : Type} `{MultiCurrencyLaws L} {TA : TechAccounts}.
Context (self : OrderBook.t) (pending : list entry).
Implicit Types (w : World Storage L) (o : LimitOrder.t).
Abbreviation id := (OrderBook.order_book_id self).
Abbreviation key o := (id, LimitOrder.id o).
Abbreviation orders w := (LimitOrders (data w)).
Abbreviation balance w := (free_balance (ledger w)).
Abbreviation Good := (Operations.Good divisibility pending).

(** ** Settlements *)

(** The single entry of a placement or of a cancellation. *)
Lemma settle_lock asset x v a y : amount_ok (flag divisibility id asset) v →
  settle (Payment.mk id (Payment.add_entry asset x v []) []) a y =
  moved asset (tech_account id) (inner v) a y - moved asset x (inner v) a y.
Proof.
  intros Hv. destruct (single_entry (flag divisibility id) asset x v a Hv) as [Ht Hc].
  unfold settle, locked, unlocked. proj. rewrite Ht, Hc, at_asset_moved, at_account_moved.
  rewrite credit_nil, total_nil. unfold at_account. case_bool_decide; lia.
Qed.

Lemma settle_unlock asset x v a y : amount_ok (flag divisibility id asset) v →
  settle (Payment.mk id [] (Payment.add_entry asset x v [])) a y =
  moved asset x (inner v) a y - moved asset (tech_account id) (inner v) a y.
Proof.
  intros Hv. destruct (single_entry (flag divisibility id) asset x v a Hv) as [Ht Hc].
  unfold settle, locked, unlocked. proj. rewrite Ht, Hc, at_asset_moved, at_account_moved.
  rewrite credit_nil, total_nil. unfold at_account. case_bool_decide; lia.
Qed.

(** A payment that only unlocks. *)
Lemma settle_pay_all l a x : Forall (λ '(b, _, v), amount_ok (flag divisibility id b) v) l →
  (∀ b, paid_total l b ≤ u128_max) →
  settle (Payment.mk id [] (pay_all l [])) a x =
  paid l a x - at_account x (tech_account id) (paid_total l a).
Proof.
  intros Hl Hle. destruct (pay_all_exact _ l [] (pay_ok_nil _) Hl) as [_ Hex].
  { intros b. rewrite total_nil. apply Hle. }
  unfold settle, locked, unlocked. proj. destruct (Hex a) as [-> Hc].
  rewrite Hc, !credit_nil, !total_nil. unfold at_account. case_bool_decide; lia.
Qed.

(** The refund of an amount of an order. *)
Definition refund_entry (p : LimitOrder.t * OrderVolume) : AssetId * AccountId * OrderVolume :=
  (owed_asset id (fst p), LimitOrder.owner (fst p),
   BalanceUnit.mk (owed_for (fst p) (snd p)) (flag divisibility id (owed_asset id (fst p)))).

Lemma paid_total_refunds l a :
  paid_total (refund_entry <$> l) a = sum_by (λ p, refund self p a) l.
Proof. unfold paid_total. by rewrite sum_by_fmap. Qed.

(** A deal: the taker pays the makers, the book pays the receiver. *)
Definition deal_moves (sd : PriceVariant) (taker receiver : AccountId)
    (ex : list (LimitOrder.t * OrderVolume)) (a : AssetId) (x : AccountId) : Z :=
  sum_by (λ p, moved (maker_out id sd) (LimitOrder.owner (fst p)) (due_for (fst p) (snd p)) a x) ex
  - moved (maker_out id sd) taker (due_total ex) a x
  + moved (taker_out id sd) receiver (owed_total ex) a x
  - moved (taker_out id sd) (tech_account id) (owed_total ex) a x.

Lemma settle_deal dir taker receiver whole part a x : base id ≠ quote id →
  let ex := executed divisibility id whole part in
  deal_fits divisibility id (switched dir) ex →
  settle (MarketChange.payment (deal_change divisibility self dir taker receiver whole part)) a x =
  deal_moves (switched dir) taker receiver ex a x.
Proof.
  intros Hbq ex [Howed Hdue Heach]. set (sd := switched dir) in *.
  assert (maker_out id sd ≠ taker_out id sd) as Hne.
  { unfold maker_out, taker_out. destruct sd; congruence. }
  destruct (pay_makers_exact divisibility id Hbq sd ex [] (pay_ok_nil _) Heach) as [Hok Hpm].
  { rewrite total_nil. by destruct Hdue as [_ [_ ?]]. }
  destruct (single_entry (flag divisibility id) _ taker _ a Hdue) as [Hl1 Hl2].
  destruct (add_entry_exact (flag divisibility id) _ receiver _ _ Hok Howed) with (a := a) as [Hu1 Hu2].
  { rewrite (proj1 (Hpm _)), total_nil. unfold at_asset. rewrite bool_decide_eq_false_2 by congruence.
    destruct Howed as [_ [_ ?]]. simpl in *. lia. }
  assert (MarketChange.payment (deal_change divisibility self dir taker receiver whole part) =
    Payment.mk id
      (Payment.add_entry (maker_out id sd) taker
         (BalanceUnit.mk (due_total ex) (flag divisibility id (maker_out id sd))) [])
      (Payment.add_entry (taker_out id sd) receiver
         (BalanceUnit.mk (owed_total ex) (flag divisibility id (taker_out id sd)))
         (pay_makers divisibility id sd ex []))) as -> by by destruct dir.
  unfold settle, locked, unlocked, deal_moves. proj. clearbody sd. cbn [inner] in *.
  rewrite Hl1, (Hl2 x), Hu1, (Hu2 x), (proj1 (Hpm a)), (proj2 (Hpm a) x), total_nil, credit_nil.
  rewrite !at_asset_moved, at_asset_sum, at_account_moved.
  rewrite (sum_by_ext _ _ _ (λ p _, at_asset_moved a x _ _ _)).
  rewrite <- (at_account_moved a x _ (tech_account id) (owed_total ex)).
  rewrite <- (at_account_moved a x _ (tech_account id) (due_total ex)).
  unfold at_account. case_bool_decide; lia.
Qed.

(** ** Cancellation and placement *)

Context (Hbook : book_ok divisibility self) (Hinj : tech_injective).

Lemma cancel_impact_eq o reason ignore c : order_ok divisibility id o →
  OrderBook.calculate_cancellation_limit_order_impact self o reason ignore = Ok c →
  ∃ r, amount_ok (flag divisibility id (owed_asset id o)) (OrderAmount.value r) ∧
    inner (OrderAmount.value r) = owed_of o ∧
    c = MarketChange.mk None None None (Some r) [] [] [] [(LimitOrder.id o, (o, reason))] []
          (Payment.mk id [] (Payment.add_entry (owed_asset id o) (LimitOrder.owner o)
                               (OrderAmount.value r) [])) ignore.
Proof.
  intros Ho Hc. unfold OrderBook.calculate_cancellation_limit_order_impact in Hc. run.
  match goal with E : LimitOrder.deal_amount _ _ _ = Ok ?r |- _ =>
    apply (taker_amount_ok divisibility self) in E as (Hok & Ha & Hi); [|apply Hbook|done|done]; exists r end.
  by rewrite Ha.
Qed.

(** A cancellation gives back what is locked for the order. *)
Lemma cancel_unchecked_effect o reason ignore w w' : Good w → orders w !! key o = Some o →
  OrderBook.cancel_limit_order_unchecked self o reason ignore w = (Ok tt, w') →
  Good w' ∧ orders w' = delete (key o) (orders w) ∧ registered w' = registered w ∧
  ∀ a x, balance w' a x = balance w a x + moved (owed_asset id o) (LimitOrder.owner o) (owed_of o) a x
           - moved (owed_asset id o) (tech_account id) (owed_of o) a x.
Proof.
  intros Hg Ho Hr. apply M_bind_ok in Hr as (c & w1 & [Hc ->]%M_lift_ok & Hr).
  pose proof (inv_order _ _ (st_inv _ _ _ (good_state _ _ _ Hg)) _ _ _ Ho) as [_ Hok].
  pose proof Hc as (r & Hra & Hri & Hceq)%cancel_impact_eq; [|done].
  eapply (cancellation_covered divisibility) in Hc as [Hc1 Hc2]; [|apply Hbook|done|done].
  eapply apply_good in Hr as [Hg' [_ Eo Eb Er]]; [|done..]. subst c. split; [done|].
  split; [done|]. split; [done|]. intros a x. rewrite Eb. cbn [MarketChange.payment].
  rewrite settle_unlock by done. rewrite Hri. lia.
Qed.

(** A change that only places an order succeeds only if its id is new. *)
Lemma placement_fresh r o p w w' : state_ok divisibility pending w → order_ok divisibility id o →
  key o ∉ pending →
  OrderBook.apply_market_change self
    (MarketChange.mk None None r None [(LimitOrder.id o, o)] [] [] [] [] p false) w = (Ok tt, w') →
  orders w !! key o = None.
Proof.
  intros Hst Ho Hp Hr. unfold OrderBook.apply_market_change in Hr.
  apply M_bind_ok in Hr as ([] & w1 & [Hw1 _]%execute_all_settles & Hr).
  do 4 apply M_bind_ok in Hr as ([] & ? & [_ ->]%M_ret_ok & Hr).
  apply M_bind_ok in Hr as ([] & w2 & Hr & _).
  apply (place_step divisibility self pending) in Hr as [Hn _]; [by rewrite Hw1 in Hn| |done..].
  rewrite Hw1. by destruct Hst.
Qed.

(** A placement that does not cross the spread locks what the order owes. *)
Lemma place_effect o w n w' : Good w → operation_ok divisibility self pending (Place o) w →
  OrderBook.crosses self o (data w) = (Ok false, data w) →
  OrderBook.place_limit_order self o w = (Ok n, w') →
  n = 0%nat ∧ Good w' ∧ orders w !! key o = None ∧ orders w' = <[key o := o]> (orders w) ∧
  registered w' = registered w ∧
  ∀ a x, balance w' a x = balance w a x + moved (owed_asset id o) (tech_account id) (owed_of o) a x
           - moved (owed_asset id o) (LimitOrder.owner o) (owed_of o) a x.
Proof.
  intros Hg Hop Hx Hr. pose proof (place_keeps _ _ _ Hbook Hinj _ _ _ _ Hg Hop Hr) as Hg'.
  destruct Hop as (Ho & Hu & Hp & _). unfold OrderBook.place_limit_order in Hr.
  apply M_bind_ok in Hr as ([] & w1 & [_ ->]%M_ensure_ok & Hr).
  apply M_bind_ok in Hr as ([] & w1 & [_ ->]%M_lift_ok & Hr).
  apply M_bind_ok in Hr as ([] & w1 & [_ ->]%on_data_read & Hr); [|intros ? ?; apply check_restrictions_read].
  apply M_bind_ok in Hr as (crossing & w1 & [Hcr ->]%on_data_read & Hr); [|intros ? ?; apply crosses_read].
  rewrite Hx in Hcr. injection Hcr as <-.
  apply M_bind_ok in Hr as (c & w1 & [Hc ->]%M_lift_ok & Hr).
  pose proof Hc as (r & Hra & Hri & Hceq)%(limit_impact_eq divisibility); [|apply Hbook|done].
  apply (limit_order_covered divisibility self pending) with (m := orders w) in Hc as [Hc1 Hc2];
    try done; [|apply Hbook].
  apply M_bind_ok in Hr as ([] & w2 & Ha & Hr).
  pose proof Ha as [_ [_ Eo Eb Er]]%(apply_good _ _ _ _ _ _ Hinj Hg Hc1 Hc2).
  apply M_bind_ok in Hr as ([] & w3 & (Ed & _ & El & Er3)%report_keeps & [-> ->]%M_ret_ok). subst c.
  apply placement_fresh in Ha as Hfresh; [|apply Hg|done..].
  rewrite Ed, El, Er3. split; [done|]. split; [done|]. split; [done|]. split; [done|].
  split; [done|]. intros a x. rewrite Eb. cbn [MarketChange.payment].
  rewrite settle_lock by done. rewrite Hri. lia.
Qed.

(** ** Cancellation of all orders *)

Lemma refund_entry_eq o v r : order_ok divisibility id o →
  (∀ v', v = Some v' → amount_ok (divisibility id) v') → LimitOrder.deal_amount o Taker v = Ok r →
  let p := (o, default (LimitOrder.amount o) v) in
  (OrderAmount.associated_asset r id, LimitOrder.owner o, OrderAmount.value r) = refund_entry p ∧
  (λ '(a, _, v), amount_ok (flag divisibility id a) v) (refund_entry p).
Proof.
  intros Ho Hv (Ha & Hasset & Hi)%(taker_amount_ok divisibility self); [|apply Hbook|done|done].
  unfold refund_entry. cbn [fst snd]. pose proof (amount_eta _ _ Ha) as E. rewrite Hi in E.
  split; [by rewrite Hasset, E|by rewrite <- E].
Qed.

Lemma cancellation_loop_pays reason os tc tu tc' tu' :
  (∀ o, o ∈ os → order_ok divisibility id o) →
  OrderBook.cancellation_loop self reason os tc tu = Ok (tc', tu') →
  let l := refund_entry <$> ((λ o, (o, LimitOrder.amount o)) <$> os) in
  tu' = pay_all l tu ∧ Forall (λ '(a, _, v), amount_ok (flag divisibility id a) v) l.
Proof.
  revert tc tu. induction os as [|o os IH]; intros tc tu Hos Hr; cbn in Hr.
  { by injection Hr as <- <-. }
  apply result_bind_ok in Hr as (r & Hd & Hr).
  apply IH in Hr as [-> Hl]; [|intros o' Ho'; apply Hos; by right].
  apply (refund_entry_eq o None) in Hd as [E Hok]; [|apply Hos; left|done]. cbn [default] in *.
  split; [|by constructor]. rewrite !fmap_cons. unfold pay_all at 2. cbn [fold_left].
  rewrite <- E. done.
Qed.

Lemma owed_nonneg m b a : nonneg m → 0 ≤ owed m b a.
Proof.
  induction m as [|x o m Hx IH] using map_ind; intros Hm; [by rewrite owed_empty|].
  rewrite owed_fresh by done. assert (0 ≤ owed m b a).
  { apply IH. intros y o' Hy. apply (Hm y). apply lookup_insert_Some. right. split; [|done].
    intros ->. congruence. }
  pose proof (Hm x o (lookup_insert_eq _ _ _)). unfold owed_at. case_bool_decide; lia.
Qed.

Lemma lookup_deleted os m x :
  delete_orders self os m !! x = if decide (x ∈ (λ o, key o) <$> os) then None else m !! x.
Proof.
  case_decide as Hx; [|by apply lookup_delete_orders]. revert m Hx.
  induction os as [|o os IH]; intros m Hx; [by apply elem_of_nil in Hx|].
  change (delete_orders self os (delete (key o) m) !! x = None).
  destruct (decide (x ∈ (λ o, key o) <$> os)) as [Hin|Hin]; [by apply IH|].
  rewrite fmap_cons, elem_of_cons in Hx. destruct Hx as [->|?]; [|done].
  rewrite lookup_delete_orders by done. apply lookup_delete_eq.
Qed.

Lemma orders_after_removed c m : lowered c = [] → placed c = [] →
  orders_after self c m = delete_orders self (removed c) m.
Proof. intros Hl Hp. unfold orders_after. by rewrite Hl, Hp. Qed.

Lemma owed_absent m b a : (∀ i, m !! (b, i) = None) → owed m b a = 0.
Proof.
  induction m as [|[b' i] o m Hx IH] using map_ind; intros Hb; [by rewrite owed_empty|].
  assert (b' ≠ b) by (intros ->; specialize (Hb i); by rewrite lookup_insert_eq in Hb).
  rewrite owed_fresh, IH by (done || intros j; specialize (Hb j); by rewrite lookup_insert_ne in Hb by congruence).
  unfold owed_at. rewrite bool_decide_eq_false_2; [done|]. naive_solver.
Qed.

(** The orders of the book are what it owes. *)
Lemma owed_all s a : Inv divisibility s →
  sum_by (λ o, owed_at id a (key o) o) (snd <$> iter_prefix (LimitOrders s) id) =
  owed (LimitOrders s) id a.
Proof.
  intros HI. destruct (all_orders_spec divisibility self s HI) as [Hnd Hin].
  pose proof (owed_delete_orders self _ (LimitOrders s) id a Hnd (λ o Ho, proj1 (Hin o) Ho)) as Hd.
  rewrite owed_absent in Hd; [lia|]. intros i. rewrite lookup_deleted. case_decide as Hi; [done|].
  apply eq_None_not_Some. intros [o Ho]. apply Hi, list_elem_of_fmap. exists o.
  pose proof (inv_order _ _ HI _ _ _ Ho) as [<- _]. split; [done|]. by apply Hin.
Qed.

(** ** Alignment *)

Abbreviation step := (inner (OrderBook.step_lot_size self)).

(** What exceeds the last whole step of an order. *)
Definition dust o : OrderVolume :=
  BalanceUnit.mk (inner (LimitOrder.amount o) mod step) (divisibility id).

Lemma dust_ok o : order_ok divisibility id o →
  amount_ok (divisibility id) (dust o) ∧ inner (dust o) ≤ inner (LimitOrder.amount o).
Proof.
  intros Ho. pose proof (ok_amount_wf _ _ _ Ho) as [? ?]. pose proof (bk_step_pos _ _ Hbook) as Hs.
  pose proof (Z.mod_pos_bound (inner (LimitOrder.amount o)) _ Hs).
  assert (inner (LimitOrder.amount o) mod step ≤ inner (LimitOrder.amount o)) by (apply Z.mod_le; lia).
  split; [split; [done|split; simpl; lia]|done].
Qed.

Lemma dust_owed o : order_ok divisibility id o → 0 ≤ owed_for o (dust o) ≤ owed_of o.
Proof.
  intros Ho. destruct (dust_ok o Ho) as [Hd Hle]. pose proof (ok_amount_wf _ _ _ Ho) as [? ?].
  set (r := BalanceUnit.mk (inner (LimitOrder.amount o) - inner (dust o)) (divisibility id)).
  assert (amount_ok (divisibility id) r) as Hr.
  { split; [done|]. destruct Hd as [_ [? ?]]. split; unfold r; cbn [BalanceUnit.inner]; lia. }
  pose proof (owed_split divisibility id o (dust o) r Ho Hd Hr
    ltac:(unfold r; cbn [BalanceUnit.inner]; lia)).
  pose proof (proj1 (owed_for_nonneg divisibility id o r Ho (proj2 Hr))).
  pose proof (proj1 (owed_for_nonneg divisibility id o (dust o) Ho (proj2 Hd))). lia.
Qed.

Lemma dust_aligned o : misaligned self o = false → order_ok divisibility id o → owed_for o (dust o) = 0.
Proof.
  intros Hm Ho. unfold misaligned in Hm. zbool. unfold dust, owed_for, quote_of. rewrite Hm.
  destruct (LimitOrder.side o); [|done]. unfold BalanceUnit.value. simpl.
  destruct (divisibility id); by rewrite ?Z.mul_0_l, ?Z.mul_0_r.
Qed.

Definition refunded os : list (LimitOrder.t * OrderVolume) :=
  (λ o, (o, dust o)) <$> filter (λ o, misaligned self o = true) os.

Lemma dust_small o : order_ok divisibility id o → is_small self o → dust o = LimitOrder.amount o.
Proof.
  intros Ho [_ Hs]. pose proof (ok_amount_wf _ _ _ Ho) as [? ?]. unfold dust.
  rewrite Z.mod_small by lia. symmetry. apply amount_eta. split; [apply Ho|by split].
Qed.

Lemma refunded_cons o a x v l tu : (a, x, v) = refund_entry (o, dust o) →
  (λ '(a, _, v), amount_ok (flag divisibility id a) v) (refund_entry (o, dust o)) →
  Forall (λ '(a, _, v), amount_ok (flag divisibility id a) v) (refund_entry <$> l) →
  pay_all (refund_entry <$> l) (Payment.add_entry a x v tu) = pay_all (refund_entry <$> ((o, dust o) :: l)) tu ∧
  Forall (λ '(a, _, v), amount_ok (flag divisibility id a) v) (refund_entry <$> ((o, dust o) :: l)).
Proof. intros E Ho Hl. rewrite fmap_cons. split; [|by constructor]. by rewrite <- E. Qed.

(** The loop refunds the dust of every order that needs aligning. *)
Lemma align_loop_pays os tc tf tu tc' tf' tu' :
  (∀ o, o ∈ os → order_ok divisibility id o) →
  OrderBook.align_loop self os tc tf tu = Ok (tc', tf', tu') →
  tu' = pay_all (refund_entry <$> refunded os) tu ∧
  Forall (λ '(a, _, v), amount_ok (flag divisibility id a) v) (refund_entry <$> refunded os).
Proof.
  revert tc tf tu. induction os as [|o os IH]; intros tc tf tu Hos Hr.
  { injection Hr as <- <- <-. by split. }
  pose proof (Hos o ltac:(left)) as Ho. pose proof (λ o' Ho', Hos o' ltac:(by right)) as Hos'.
  destruct (align_cases divisibility self (bk_assets _ _ Hbook) (bk_step _ _ Hbook) o Ho)
    as [(Hm & _ & _)|[(Hs & _ & Hm & Hlt)|(_ & Hb & Hm & Hlt)]];
    unfold refunded in *; cbn [OrderBook.align_loop] in Hr; unfold BalanceUnit.balance in Hr;
    pose proof Hm as Hm'; unfold misaligned in Hm'; rewrite Hm', ?Hlt in Hr.
  - rewrite filter_cons_False by congruence. eauto.
  - rewrite filter_cons_True by done. run. fold (refunded os) in *.
    match goal with E : OrderBook.align_loop _ _ _ _ _ = _ |- _ => apply IH in E as [-> Hl]; [|done] end.
    match goal with E : LimitOrder.deal_amount _ _ _ = _ |- _ =>
      apply refund_entry_eq in E as [E Hok]; [|done|by intros ? [= <-]; split; apply Ho] end.
    change (default _ (Some ?v)) with v in *. rewrite <- (dust_small o Ho Hs) in *. by apply refunded_cons.
  - rewrite filter_cons_True by done. run. fold (refunded os) in *.
    match goal with E : OrderBook.align_loop _ _ _ _ _ = _ |- _ => apply IH in E as [-> Hl]; [|done] end.
    match goal with E : BalanceUnit.checked_sub _ _ = _ |- _ =>
      apply (dust_eq divisibility self (bk_assets _ _ Hbook) (bk_step_pos _ _ Hbook) o _ Ho) in E as -> end.
    fold (dust o) in *.
    match goal with E : LimitOrder.deal_amount _ _ _ = _ |- _ =>
      apply refund_entry_eq in E as [E Hok]; [|by apply big_order_ok; [apply Hbook..| |]|
        by intros ? [= <-]; apply dust_ok] end.
    by apply refunded_cons.
Qed.

Lemma lookup_inserted os m o : NoDup (LimitOrder.id <$> os) → o ∈ os →
  insert_orders self os m !! key o = Some o.
Proof.
  revert m. induction os as [|o' os IH]; intros m Hnd Hin; [by apply elem_of_nil in Hin|].
  rewrite fmap_cons in Hnd. apply NoDup_cons in Hnd as [Ho' Hnd].
  change (insert_orders self os (<[key o' := o']> m) !! key o = Some o).
  apply elem_of_cons in Hin as [->|Hin]; [|by apply IH].
  rewrite lookup_insert_orders; [apply lookup_insert_eq|].
  intros (o & [= E] & Ho)%list_elem_of_fmap. apply Ho'. rewrite E. by apply list_elem_of_fmap_2.
Qed.

(** The orders after aligning [os]. *)
Lemma align_lookup c m os : NoDup (LimitOrder.id <$> os) →
  (∀ o, o ∈ os → m !! key o = Some o ∧ order_ok divisibility id o) →
  removed c ≡ₚ small self os → lowered c ≡ₚ cut self os → placed c = [] →
  (∀ o, o ∈ os → orders_after self c m !! key o =
     if negb (misaligned self o) then Some o
     else if inner (LimitOrder.amount o) <? step then None
     else Some (LimitOrder.set_amount o
            (BalanceUnit.mk (inner (LimitOrder.amount o) - inner (dust o)) (divisibility id)))) ∧
  ∀ x, x ∉ (λ o, key o) <$> os → orders_after self c m !! x = m !! x.
Proof.
  intros Hnd Hos Hrem Hlow Hpl. unfold orders_after. rewrite Hpl, app_nil_r.
  pose proof (NoDup_small_cut self (bk_assets _ _ Hbook) os Hnd) as Hsc.
  pose proof (NoDup_ids_app _ _ Hsc) as [_ Hc]. rewrite <- Hlow in Hc.
  assert (∀ x, x ∈ (λ o, key o) <$> lowered c → ∃ o, x = key o ∧ o ∈ os ∧ is_big self o) as Hinl.
  { intros x. rewrite Hlow. intros (o' & -> & (o & -> & [? ?]%list_elem_of_filter)%list_elem_of_fmap)%list_elem_of_fmap.
    by exists o. }
  assert (∀ x, x ∈ (λ o, key o) <$> removed c → ∃ o, x = key o ∧ o ∈ os ∧ is_small self o) as Hinr.
  { intros x. rewrite Hrem. intros (o & -> & [? ?]%list_elem_of_filter)%list_elem_of_fmap. by exists o. }
  assert (∀ o o', o ∈ os → o' ∈ os → key o = key o' → o = o') as Hinj_key.
  { intros o o' Ho Ho' [= E]. by apply (NoDup_ids_inj os). }
  split.
  - intros o Hin. destruct (Hos o Hin) as [Hm Hok].
    destruct (align_cases divisibility self (bk_assets _ _ Hbook) (bk_step _ _ Hbook) o Hok)
      as [(Hmis & Hs & Hb)|[(Hs & Hb & Hmis & _)|(_ & Hb & Hmis & _)]]; rewrite Hmis; cbn [negb].
    + rewrite lookup_insert_orders, lookup_delete_orders; [done|..].
      * intros (o' & E & Ho' & Hs')%Hinr. apply Hinj_key in E; [|done..]. by subst.
      * intros (o' & E & Ho' & Hb')%Hinl. apply Hinj_key in E; [|done..]. by subst.
    + rewrite (proj2 (Z.ltb_lt _ _)) by apply Hs. rewrite lookup_insert_orders, lookup_deleted.
      * rewrite decide_True; [done|]. rewrite Hrem. apply list_elem_of_fmap. exists o. split; [done|].
        by apply list_elem_of_filter.
      * intros (o' & E & Ho' & Hb')%Hinl. apply Hinj_key in E; [|done..]. by subst.
    + rewrite (proj2 (Z.ltb_ge _ _)) by apply Hb.
      etransitivity; [apply (lookup_inserted _ _ (aligned self o) Hc)|].
      * rewrite Hlow. apply list_elem_of_fmap. exists o. split; [done|]. by apply list_elem_of_filter.
      * unfold aligned. rewrite align_amount_eq by (apply Hbook || apply Hok).
        by rewrite (ok_amount_div _ _ _ Hok).
  - intros x Hx. rewrite lookup_insert_orders, lookup_delete_orders; [done|..].
    + intros (o' & -> & Ho' & _)%Hinr. apply Hx. apply list_elem_of_fmap. by exists o'.
    + intros (o' & -> & Ho' & _)%Hinl. apply Hx. apply list_elem_of_fmap. by exists o'.
Qed.

(** ** Deals *)

Section deals.
Context (s : Storage) (HI : Inv divisibility s) (dir : PriceVariant) (n : Z) (Hn : 0 < n).

(** The amounts of a deal. *)
Definition deal_input (ex : list (LimitOrder.t * OrderVolume)) : OrderAmount.t :=
  let v := BalanceUnit.mk (due_total ex) (flag divisibility id (maker_out id (switched dir))) in
  match dir with Buy => OrderAmount.Quote v | Sell => OrderAmount.Base v end.
Definition deal_output (ex : list (LimitOrder.t * OrderVolume)) : OrderAmount.t :=
  let v := BalanceUnit.mk (owed_total ex) (flag divisibility id (taker_out id (switched dir))) in
  match dir with Buy => OrderAmount.Base v | Sell => OrderAmount.Quote v end.

Lemma deal_count taker receiver :
  let t := take (queue s id (switched dir)) n in
  MarketChange.count_of_executed_orders
    (deal_change divisibility self dir taker receiver (fst t) (snd t)) =
  length (executed divisibility id (fst t) (snd t)).
Proof.
  intros t. pose proof (deal_ids divisibility self s HI dir n Hn) as Hnd.
  apply NoDup_ids_app in Hnd as [Hnd _]. fold t in Hnd.
  assert (length (whole_map (fst t) []) = length (fst t)) as Hw.
  { unfold whole_map. rewrite (fold_insert_fresh LimitOrder.id (λ o, o)) by done.
    by rewrite length_app, length_fmap. }
  unfold MarketChange.count_of_executed_orders, deal_change, executed.
  rewrite length_app, length_fmap. destruct dir; proj; rewrite Hw; by destruct (snd t) as [[]|].
Qed.

Lemma deal_lookup taker receiver x :
  let t := take (queue s id (switched dir)) n in
  orders_after self (deal_change divisibility self dir taker receiver (fst t) (snd t))
    (LimitOrders s) !! x =
  if decide (x ∈ (λ o, key o) <$> fst t) then None
  else match snd t with
       | Some (o', r) =>
           if decide (x = key o') then
             Some (LimitOrder.set_amount o'
                     (BalanceUnit.mk (inner (LimitOrder.amount o') - r) (divisibility id)))
           else LimitOrders s !! x
       | None => LimitOrders s !! x
       end.
Proof.
  cbv zeta. pose proof (deal_ids divisibility self s HI dir n Hn) as Hnd.
  pose proof (deal_removed divisibility self s HI dir taker receiver n Hn) as Hrem.
  pose proof (deal_lowered divisibility self s dir taker receiver n) as Hlow.
  pose proof (deal_placed divisibility self s dir taker receiver n) as Hpl.
  unfold orders_after. rewrite Hpl, app_nil_r, Hlow. clear Hpl Hlow. unfold part_order in *.
  set (c := deal_change _ _ _ _ _ _ _) in *. clearbody c.
  destruct (take _ _) as [whole [[o' r]|]]; cbn [fst snd] in *.
  - assert (key o' ∉ (λ o, key o) <$> whole) as Ho'.
    { rewrite fmap_app in Hnd. apply NoDup_app in Hnd as (_ & Hdis & _).
      intros (o & [= E] & Ho)%list_elem_of_fmap. apply (Hdis (LimitOrder.id o)).
      - by apply list_elem_of_fmap_2.
      - rewrite <- E. apply list_elem_of_singleton. done. }
    transitivity (<[key o' := LimitOrder.set_amount o' (BalanceUnit.mk (inner (LimitOrder.amount o') - r) (divisibility id))]>
      (delete_orders self (removed c) (LimitOrders s)) !! x); [done|].
    destruct (decide (x = key o')) as [->|Hx].
    + rewrite decide_False by done. apply lookup_insert_eq.
    + rewrite lookup_insert_ne, lookup_deleted by done. case_decide as Hd; rewrite Hrem in Hd; by case_decide.
  - transitivity (delete_orders self (removed c) (LimitOrders s) !! x); [done|]. rewrite lookup_deleted.
    case_decide as Hd; rewrite Hrem in Hd; by case_decide.
Qed.
End deals.

(** A successful market order applies the change of the deal. *)
Lemma execute_run (o : MarketOrder.t) w input output count w' : Good w →
  operation_ok divisibility self pending (Execute o) w →
  OrderBook.execute_market_order self o w = (Ok (input, output, count), w') →
  let sd := switched (MarketOrder.direction o) in
  let n := inner (MarketOrder.amount o) in
  let t := take (queue (data w) id sd) n in
  let ex := executed divisibility id (fst t) (snd t) in
  let deal := deal_change divisibility self (MarketOrder.direction o) (MarketOrder.owner o)
                (default (MarketOrder.owner o) (MarketOrder.to o)) (fst t) (snd t) in
  OrderBook.status self = Trade ∧ 0 < n ∧ deal_fits divisibility id sd ex ∧
  volume (fst t) + part_amount (snd t) = n ∧
  (input = deal_input (MarketOrder.direction o) ex ∧ output = deal_output (MarketOrder.direction o) ex ∧
   count = length ex) ∧
  orders w' = orders_after self deal (orders w) ∧
  ∀ a x, balance w' a x = balance w a x + settle (MarketChange.payment deal) a x.
Proof.
  intros Hg [Ha Hu] Hr. unfold OrderBook.execute_market_order in Hr.
  apply M_bind_ok in Hr as ([] & w1 & [Hst ->]%M_ensure_ok & Hr).
  apply M_bind_ok in Hr as ([] & w1 & [Hv ->]%M_lift_ok & Hr).
  pose proof (market_amount_pos _ _ _ _ Ha Hv) as Hpos.
  apply M_bind_ok in Hr as (c & w1 & (s & Hc & ->)%zoom_ok & Hr).
  pose proof (good_state _ _ _ Hg) as [HI _]. pose proof (bk_assets _ _ Hbook) as Hbq.
  apply (market_order_ok divisibility) in Hc as (-> & [Hvol Hfits] & ->); try done.
  rewrite set_data_same in Hr.
  pose proof (take_q divisibility self o (data w) HI Hpos) as Ht. rewrite Z.min_l in Ht by done.
  intros sd n t ex deal. fold sd n in Hfits, Hr, Ht, Hpos. fold t ex in Hfits, Hr, Ht. fold deal in Hr.
  assert (MarketChange.deal_input deal = Some (deal_input (MarketOrder.direction o) ex) ∧
          MarketChange.deal_output deal = Some (deal_output (MarketOrder.direction o) ex)) as [Ei Eo].
  { unfold deal, deal_change, deal_input, deal_output, ex, sd. by destruct (MarketOrder.direction o). }
  rewrite Ei, Eo in Hr. apply M_bind_ok in Hr as (p & w2 & [_ ->]%M_ok_or_ok & Hr).
  apply M_bind_ok in Hr as ([] & w2 & Hap & Hr).
  apply (apply_good _ _ _ _ _ _ Hinj Hg
    (deal_change_ok divisibility self pending Hbq _ HI _ _ _ n Hpos)
    (deal_covered divisibility self Hbq _ HI _ _ _ n Hpos Hfits Hu)) in Hap as [_ [_ Eor Eb _]].
  apply M_bind_ok in Hr as ([] & w3 & [= <-] & [[= -> -> ->] ->]%M_ret_ok). cbn [data ledger set_events].
  split; [by destruct (OrderBook.status self)|]. split; [done|]. split; [done|]. split; [done|].
  split; [|done]. split; [done|]. split; [done|]. by apply deal_count.
Qed.
End effects.

(** ** Properties *)

Section properties.
Context {Cfg : Config} {SK : StorageKeys} (divisibility : OrderBookId → bool).
Context {L : Type} `{MultiCurrencyLaws L} {TA : TechAccounts}.
Context (self : OrderBook.t).
Context (Hbook : book_ok divisibility self) (Hinj : tech_injective).
Implicit Types (w : World Storage L) (o : LimitOrder.t).
Abbreviation id := (OrderBook.order_book_id self).
Abbreviation key o := (id, LimitOrder.id o).
Abbreviation orders w := (LimitOrders (data w)).
Abbreviation balance w := (free_balance (ledger w)).
Abbreviation Good := (Operations.Good divisibility []).

(** Cancelling all orders of a book removes exactly the orders of that book and
    refunds every owner exactly what is locked for their orders. *)
Theorem cancel_all_limit_orders_effect reason w n w' : Good w →
  (∀ a, owed (orders w) id a ≤ u128_max) →
  OrderBook.cancel_all_limit_orders self reason w = (Ok n, w') →
  let os := snd <$> iter_prefix (orders w) id in
  n = length os ∧ Good w' ∧
  (∀ x, orders w' !! x = if decide (fst x = id) then None else orders w !! x) ∧
  ∀ a x, balance w' a x = balance w a x
           + sum_by (λ o, moved (owed_asset id o) (LimitOrder.owner o) (owed_of o) a x) os
           - at_account x (tech_account id) (owed (orders w) id a).
Proof.
  intros Hg Hfit Hr os. apply M_bind_ok in Hr as (c & w1 & (s & Hc & ->)%zoom_ok & Hr).
  pose proof (st_inv _ _ _ (good_state _ _ _ Hg)) as HI.
  destruct (all_orders_spec divisibility self _ HI) as [Hnd Hin].
  pose proof Hc as (-> & Hc1 & Hc2 & Hrem & Hlow & Hpl)%(all_cancellation_covered divisibility self []);
    [|apply Hbook|done].
  rewrite set_data_same in Hr. apply M_bind_ok in Hr as ([] & w2 & Hr & [-> ->]%M_ret_ok).
  eapply apply_good in Hr as [Hg' [_ Eo Eb _]]; [|done..].
  apply M_bind_ok in Hc as (os' & s1 & Hos & Hc). cbn in Hos. injection Hos as <- <-. fold os in Hc, Hrem.
  apply M_bind_ok in Hc as ([tc tu] & s1 & [Hl ->]%M_lift_ok & [-> _]%M_ret_ok).
  apply cancellation_loop_pays with (divisibility := divisibility) in Hl as [-> Hl]; [|done|].
  2: { intros o Ho%Hin. by apply (inv_order _ _ HI) in Ho as [_ ?]. }
  cbn [MarketChange.to_cancel MarketChange.payment] in *.
  split; [|split; [done|split]].
  - apply Permutation_length in Hrem. unfold removed, bt_values in Hrem. proj.
    by rewrite app_nil_r, !length_fmap in Hrem.
  - intros x. rewrite Eo, orders_after_removed, lookup_deleted by done. destruct x as [b i]. cbn [fst].
    case_decide as Hx; rewrite Hrem in Hx; case_decide as Hb; try done.
    + apply list_elem_of_fmap in Hx as (o & [= -> _] & _). done.
    + subst b. apply eq_None_not_Some. intros [o Ho]. apply Hx, list_elem_of_fmap. exists o.
      pose proof (inv_order _ _ HI _ _ _ Ho) as [<- _]. split; [done|]. by apply Hin.
  - intros a x. rewrite Eb, settle_pay_all with (divisibility := divisibility); [|done|].
    + rewrite paid_total_refunds, sum_refunds_removed. unfold os at 2. rewrite owed_all with (divisibility := divisibility) by done.
      assert (paid (refund_entry divisibility self <$> ((λ o, (o, LimitOrder.amount o)) <$> os)) a x =
        sum_by (λ o, moved (owed_asset id o) (LimitOrder.owner o) (owed_of o) a x) os) as ->; [|lia].
      unfold paid. by rewrite !sum_by_fmap.
    + intros b. rewrite paid_total_refunds, sum_refunds_removed. unfold os. by rewrite owed_all with (divisibility := divisibility).
Qed.

(** C6. A limit order that does not cross the spread is placed under a new id, in
    the only book statuses that allow it; its owner pays exactly what the order
    owes to the account of the book, no other balance and no other order
    changes, and no order is executed. *)
Theorem place_limit_order_effect o w n w' : Good w →
  operation_ok divisibility self [] (Place o) w →
  OrderBook.crosses self o (data w) = (Ok false, data w) →
  OrderBook.place_limit_order self o w = (Ok n, w') →
  (OrderBook.status self = Trade ∨ OrderBook.status self = PlaceAndCancel) ∧
  n = 0%nat ∧ Good w' ∧ orders w !! key o = None ∧ orders w' = <[key o := o]> (orders w) ∧
  ∀ a x, balance w' a x = balance w a x + moved (owed_asset id o) (tech_account id) (owed_of o) a x
           - moved (owed_asset id o) (LimitOrder.owner o) (owed_of o) a x.
Proof.
  intros Hg Hop Hx Hr. split.
  - apply M_bind_ok in Hr as ([] & w1 & [Hs _]%M_ensure_ok & _). destruct (OrderBook.status self); naive_solver.
  - apply place_effect with (divisibility := divisibility) (pending := []) in Hr; [|done..].
    destruct Hr as (-> & ? & ? & ? & _ & ?). done.
Qed.

(** C7. A cancellation is refused, without any change, only when the book is
    stopped; otherwise a successful one removes exactly the order and refunds its
    owner exactly what is locked for it. *)
Theorem cancel_limit_order_effect o w : Good w → orders w !! key o = Some o →
  if bool_decide (OrderBook.status self = Stop)
  then OrderBook.cancel_limit_order self o w
       = (Err (OrderBookError CancellationOfLimitOrdersIsForbidden), w)
  else ∀ w', OrderBook.cancel_limit_order self o w = (Ok tt, w') →
    Good w' ∧ orders w' = delete (key o) (orders w) ∧
    ∀ a x, balance w' a x = balance w a x
             + moved (owed_asset id o) (LimitOrder.owner o) (owed_of o) a x
             - moved (owed_asset id o) (tech_account id) (owed_of o) a x.
Proof.
  intros Hg Ho. unfold OrderBook.cancel_limit_order. case_bool_decide as Hs.
  - by rewrite Hs.
  - intros w' ([] & w1 & [_ ->]%M_ensure_ok & Hr)%M_bind_ok.
    apply cancel_unchecked_effect with (divisibility := divisibility) (pending := []) in Hr; [|done..].
    destruct Hr as (? & ? & _ & ?). done.
Qed.

(** Placing an order that does not cross the spread and cancelling it restores
    the open orders and every balance. *)
Theorem place_cancel_roundtrip o w n w1 w2 : Good w →
  operation_ok divisibility self [] (Place o) w →
  OrderBook.crosses self o (data w) = (Ok false, data w) →
  OrderBook.place_limit_order self o w = (Ok n, w1) →
  OrderBook.cancel_limit_order self o w1 = (Ok tt, w2) →
  orders w2 = orders w ∧ ∀ a x, balance w2 a x = balance w a x.
Proof.
  intros Hg Hop Hx Hr Hc.
  apply place_effect with (divisibility := divisibility) (pending := []) in Hr; [|done..].
  destruct Hr as (_ & Hg1 & Hn & Ho1 & _ & Hb1).
  apply M_bind_ok in Hc as ([] & w' & [_ ->]%M_ensure_ok & Hc).
  apply cancel_unchecked_effect with (divisibility := divisibility) (pending := []) in Hc; [|done..|].
  - destruct Hc as (_ & Ho2 & _ & Hb2). rewrite Ho2, Ho1. split; [by apply delete_insert_id|].
    intros a x. rewrite Hb2, Hb1. lia.
  - rewrite Ho1. apply lookup_insert_eq.
Qed.

(** C5. A market order is executed only in the status [Trade] and only for its full
    amount.  It takes a prefix of the price-time queue of the other side: those
    orders leave the book, the last one may only be reduced, nothing else
    changes.  The taker pays every maker what the maker's order asks for, the
    receiver gets what was locked for the executed amounts, and the returned
    input, output and count are these amounts. *)
Theorem execute_market_order_effect (o : MarketOrder.t) w input output count w' : Good w →
  operation_ok divisibility self [] (Execute o) w →
  OrderBook.execute_market_order self o w = (Ok (input, output, count), w') →
  let sd := switched (MarketOrder.direction o) in
  let n := inner (MarketOrder.amount o) in
  let whole := fst (take (queue (data w) id sd) n) in
  let part := snd (take (queue (data w) id sd) n) in
  let ex := executed divisibility id whole part in
  OrderBook.status self = Trade ∧ Good w' ∧ volume whole + part_amount part = n ∧
  inner (OrderAmount.value input) = due_total ex ∧
  inner (OrderAmount.value output) = owed_total ex ∧ count = length ex ∧
  (∀ x, orders w' !! x =
     if decide (x ∈ (λ o, key o) <$> whole) then None
     else match part with
          | Some (o', r) =>
              if decide (x = key o') then
                Some (LimitOrder.set_amount o'
                        (BalanceUnit.mk (inner (LimitOrder.amount o') - r) (divisibility id)))
              else orders w !! x
          | None => orders w !! x
          end) ∧
  ∀ a x, balance w' a x = balance w a x
           + deal_moves self sd (MarketOrder.owner o)
               (default (MarketOrder.owner o) (MarketOrder.to o)) ex a x.
Proof.
  intros Hg Hop Hr sd n. pose proof (bk_assets _ _ Hbook) as Hbq.
  pose proof (execute_keeps _ _ _ Hbook Hinj _ _ _ _ Hg Hop Hr) as Hg'.
  apply execute_run with (divisibility := divisibility) (pending := []) in Hr; [|done..].
  destruct Hr as (Hst & Hpos & Hfits & Ht & (Ei & Eu & Ec) & Eo & Eb).
  fold sd n in Hpos, Hfits, Ht, Eo, Eb, Ei, Eu, Ec.
  pose proof (good_state _ _ _ Hg) as [HI _].
  pose proof (deal_lookup divisibility self (data w) HI (MarketOrder.direction o) n Hpos) as Hl.
  cbv zeta in Hl. fold sd in Hl.
  destruct (take (queue (data w) id sd) n) as [whole part]. cbn [fst snd] in *.
  split; [done|]. split; [done|]. split; [done|].
  split; [rewrite Ei; unfold deal_input; by destruct (MarketOrder.direction o)|].
  split; [rewrite Eu; unfold deal_output; by destruct (MarketOrder.direction o)|]. split; [done|].
  split; [intros x; rewrite Eo; apply Hl|]. intros a x. rewrite Eb. f_equal. by apply settle_deal.
Qed.

Lemma refunded_le w os a : Inv divisibility (data w) → NoDup (LimitOrder.id <$> os) →
  (∀ o, o ∈ os → orders w !! key o = Some o) →
  paid_total (refund_entry divisibility self <$> refunded divisibility self os) a ≤ owed (orders w) id a.
Proof.
  intros HI Hnd Hos. rewrite paid_total_refunds. unfold refunded. rewrite sum_by_fmap.
  pose proof (owed_delete_orders self os (orders w) id a Hnd Hos) as Hd.
  pose proof (owed_nonneg (delete_orders self os (orders w)) id a
    (nonneg_delete_orders self os _ (Inv_nonneg _ _ HI))) as Hnn.
  enough (sum_by (λ o, refund self (o, dust divisibility self o) a) (filter (λ o, misaligned self o = true) os)
    ≤ sum_by (λ o, owed_at id a (key o) o) os) by lia.
  assert (∀ o, o ∈ os → 0 ≤ refund self (o, dust divisibility self o) a ≤ owed_at id a (key o) o) as Hle.
  { intros o [_ Hok]%Hos%(inv_order _ _ HI). rewrite owed_at_self. unfold refund, at_asset. cbn [fst snd].
    pose proof (dust_owed divisibility self Hbook o Hok). by case_bool_decide. }
  clear Hd Hnn Hnd Hos. induction os as [|o os IH]; [done|]. rewrite filter_cons, sum_by_cons.
  specialize (IH (λ o' Ho', Hle o' ltac:(by right))). pose proof (Hle o ltac:(left)).
  case_decide; rewrite ?sum_by_cons; lia.
Qed.

(** Aligned orders have no dust, so the refunds can be read over all orders. *)
Lemma refunded_moves os a x : (∀ o, o ∈ os → order_ok divisibility id o) →
  let l := refund_entry divisibility self <$> refunded divisibility self os in
  paid l a x - at_account x (tech_account id) (paid_total l a) =
  sum_by (λ o, moved (owed_asset id o) (LimitOrder.owner o) (owed_for o (dust divisibility self o)) a x
             - moved (owed_asset id o) (tech_account id) (owed_for o (dust divisibility self o)) a x) os.
Proof.
  intros Hos l. subst l. unfold paid, paid_total, refunded. rewrite !sum_by_fmap.
  induction os as [|o os IH]; [unfold at_account; by case_bool_decide|].
  specialize (IH (λ o' Ho', Hos o' ltac:(by right))). rewrite filter_cons, (sum_by_cons _ o os).
  case_decide as Hm.
  - rewrite !sum_by_cons, <- IH. cbn [refund_entry fst snd inner].
    rewrite <- (at_account_moved a x _ (tech_account id)). unfold at_account. case_bool_decide; lia.
  - rewrite <- IH, dust_aligned; [|by destruct (misaligned self o)|apply Hos; left].
    unfold moved. repeat case_bool_decide; lia.
Qed.

(** C19. Aligning orders to the lot step cancels the orders below one step, cuts the
    others down to whole steps, leaves aligned and all other orders alone, and
    refunds every owner exactly the cut-off part. *)
Theorem align_limit_orders_effect os w w' : Good w → operation_ok divisibility self [] (Align os) w →
  (∀ a, owed (orders w) id a ≤ u128_max) →
  OrderBook.align_limit_orders self os w = (Ok tt, w') →
  let rest o := inner (LimitOrder.amount o) mod inner (OrderBook.step_lot_size self) in
  let back o := owed_for o (BalanceUnit.mk (rest o) (divisibility id)) in
  Good w' ∧
  (∀ o, o ∈ os → orders w' !! key o =
     if rest o =? 0 then Some o
     else if inner (LimitOrder.amount o) <? inner (OrderBook.step_lot_size self) then None
     else Some (LimitOrder.set_amount o
            (BalanceUnit.mk (inner (LimitOrder.amount o) - rest o) (divisibility id)))) ∧
  (∀ x, x ∉ (λ o, key o) <$> os → orders w' !! x = orders w !! x) ∧
  ∀ a x, balance w' a x = balance w a x
           + sum_by (λ o, moved (owed_asset id o) (LimitOrder.owner o) (back o) a x
                        - moved (owed_asset id o) (tech_account id) (back o) a x) os.
Proof.
  intros Hg Hop Hfit Hr rest back. pose proof (align_keeps _ _ _ Hbook Hinj _ _ _ Hg Hop Hr) as Hg'.
  pose proof (good_state _ _ _ Hg) as [HI _]. destruct Hop as [Hnd Hos]. split; [done|].
  unfold OrderBook.align_limit_orders in Hr. destruct os as [|o0 os0] eqn:Eos.
  { apply M_ret_ok in Hr as [_ ->]. split; [by intros o ?%elem_of_nil|]. split; [done|].
    intros a x. rewrite sum_by_nil. lia. }
  rewrite <- Eos in *. apply M_bind_ok in Hr as (c & w1 & [Hc ->]%M_lift_ok & Hr).
  assert (∀ o, o ∈ os → orders w !! key o = Some o ∧ order_ok divisibility id o) as Hos'.
  { intros o Ho%Hos. split; [done|]. by apply (inv_order _ _ HI) in Ho as [_ ?]. }
  pose proof Hc as (Hc1 & Hc2 & Hrem & Hlow & Hpl)%(align_covered divisibility self []
    (bk_assets _ _ Hbook) (bk_step _ _ Hbook) (bk_step_pos _ _ Hbook) os c (orders w) Hnd Hos').
  apply (apply_good _ _ _ _ _ _ Hinj Hg Hc1 Hc2) in Hr as [_ [_ Eo Eb _]].
  destruct (align_lookup divisibility self Hbook c (orders w) os) as [Hl1 Hl2]; [done..|].
  rewrite <- Eo in Hl1, Hl2. split; [|split; [done|]].
  - intros o Ho. rewrite (Hl1 o Ho). unfold misaligned. by rewrite negb_involutive.
  - intros a x. rewrite Eb. apply result_bind_ok in Hc as ([[tc tf] tu] & Hl & [= <-]).
    apply (align_loop_pays divisibility self Hbook) in Hl as [-> Hl]; [|by intros o [_ ?]%Hos'].
    cbn [MarketChange.payment]. rewrite (settle_pay_all divisibility); [|done|].
    + f_equal. apply refunded_moves. by intros o [_ ?]%Hos'.
    + intros b. etransitivity; [by apply refunded_le|apply Hfit].
Qed.
End properties.

(** ** Examples *)

#[local] Existing Instance RuntimeConfig.
#[local] Existing Instance Samples.plain_keys.

Module EffectSamples.
Import OperationSamples.

Lemma tech_inj : tech_injective.
Proof. intros b b'. apply sample_accounts_inj. Qed.

Lemma buy_placed : place_buy sample_world = (Ok tt, after_buy).
Proof. vm_compute. reflexivity. Qed.

Lemma after_buy_good : Good Samples.divisibility [] after_buy.
Proof.
  pose proof buy_placed as Hr. unfold place_buy in Hr. revert Hr.
  generalize after_buy. intros w Hr. revert Hr.
  apply (perform_keeps Samples.divisibility MarketSamples.order_book [] book_sample_ok tech_inj
    (Place buy) sample_world w sample_good buy_ok).
Qed.

Lemma after_buy_owed a : owed (LimitOrders (data after_buy)) Samples.book a ≤ u128_max.
Proof.
  assert (LimitOrders (data after_buy) = <[(Samples.book, 1) := buy]> ∅) as -> by (vm_compute; reflexivity).
  rewrite owed_fresh, owed_empty by done. unfold owed_at. case_bool_decide; vm_compute; discriminate.
Qed.

(** The same book with a lot step of two units. *)
Definition coarse_book : OrderBook.t :=
  OrderBook.new Samples.book (Samples.e18 1) (Samples.e18 2) (Samples.e18 2) (Samples.e18 1000).

Lemma coarse_book_ok : book_ok Samples.divisibility coarse_book.
Proof. split; [done|split; done|done|done]. Qed.

Lemma align_buy_ok : operation_ok Samples.divisibility coarse_book [] (Align [buy]) after_buy.
Proof.
  split; [apply NoDup_singleton|]. intros o ->%list_elem_of_singleton. vm_compute. reflexivity.
Qed.

(** Account 9 sells 2 units. *)
Definition sell_two : MarketOrder.t := MarketOrder.new 9%N Sell Samples.book (Samples.e18 2) None.

Lemma sell_two_ok :
  operation_ok Samples.divisibility MarketSamples.order_book [] (Execute sell_two) after_buy.
Proof. split; [split; done|exact (odd_user 9 eq_refl)]. Qed.

(** The worlds after the operations of the examples. *)
Definition after_cancel : World Storage Ledger :=
  snd (OrderBook.cancel_limit_order MarketSamples.order_book buy after_buy).
Definition after_cancel_all : World Storage Ledger :=
  snd (OrderBook.cancel_all_limit_orders MarketSamples.order_book Manual after_buy).
Definition after_sell : World Storage Ledger :=
  snd (OrderBook.execute_market_order MarketSamples.order_book sell_two after_buy).
Definition after_align : World Storage Ledger :=
  snd (OrderBook.align_limit_orders coarse_book [buy] after_buy).
End EffectSamples.
Import OperationSamples EffectSamples.

Lemma place_limit_order_effect_witness :
  free_balance (ledger after_buy) 0%N 7%N = free_balance (ledger sample_world) 0%N 7%N - 50 * 10 ^ 18.
Proof.
  destruct (place_limit_order_effect Samples.divisibility MarketSamples.order_book
    book_sample_ok tech_inj buy sample_world 0%nat after_buy sample_good buy_ok
    ltac:(vm_compute; reflexivity) ltac:(vm_compute; reflexivity)) as (_ & _ & _ & _ & _ & Hb).
  rewrite Hb. vm_compute. reflexivity.
Defined.

Lemma cancel_limit_order_effect_witness :
  free_balance (ledger after_cancel) 0%N 7%N =
  free_balance (ledger after_buy) 0%N 7%N + 50 * 10 ^ 18.
Proof.
  destruct (cancel_limit_order_effect Samples.divisibility MarketSamples.order_book book_sample_ok tech_inj
    buy after_buy after_buy_good ltac:(vm_compute; reflexivity)
    after_cancel
    ltac:(vm_compute; reflexivity)) as (_ & _ & Hb).
  rewrite Hb. vm_compute. reflexivity.
Defined.

Lemma place_cancel_roundtrip_witness :
  free_balance (ledger after_cancel) 0%N 7%N =
  free_balance (ledger sample_world) 0%N 7%N.
Proof.
  apply (place_cancel_roundtrip Samples.divisibility MarketSamples.order_book book_sample_ok tech_inj
    buy sample_world 0%nat after_buy _ sample_good buy_ok); vm_compute; reflexivity.
Defined.

Lemma cancel_all_limit_orders_effect_witness :
  LimitOrders (data after_cancel_all)
    !! (Samples.book, 1) = None.
Proof.
  destruct (cancel_all_limit_orders_effect Samples.divisibility MarketSamples.order_book book_sample_ok
    tech_inj Manual after_buy 1%nat
    after_cancel_all
    after_buy_good after_buy_owed ltac:(vm_compute; reflexivity)) as (_ & _ & Hl & _).
  exact (Hl (Samples.book, 1)).
Defined.

Lemma execute_market_order_effect_witness :
  free_balance (ledger after_sell)
    0%N 9%N = free_balance (ledger after_buy) 0%N 9%N + 20 * 10 ^ 18.
Proof.
  destruct (execute_market_order_effect Samples.divisibility MarketSamples.order_book book_sample_ok
    tech_inj sell_two after_buy (OrderAmount.Base (Samples.e18 2)) (OrderAmount.Quote (Samples.e18 20)) 1%nat
    after_sell
    after_buy_good sell_two_ok ltac:(vm_compute; reflexivity)) as (_ & _ & _ & _ & _ & _ & _ & Hb).
  rewrite Hb. vm_compute. reflexivity.
Defined.

Lemma align_limit_orders_effect_witness :
  LimitOrders (data after_align) !! (Samples.book, 1) = Some (LimitOrder.set_amount buy (Samples.e18 4)).
Proof.
  destruct (align_limit_orders_effect Samples.divisibility coarse_book coarse_book_ok tech_inj [buy] after_buy
    after_align after_buy_good align_buy_ok
    after_buy_owed ltac:(vm_compute; reflexivity)) as (_ & Hl & _).
  etransitivity; [exact (Hl buy ltac:(left))|]. vm_compute. reflexivity.
Defined.
