(* ===== verification/Lots.v ===== *)
(** * What the operations leave of the other orders, and whole lots

    An operation of a book does not touch the orders of other books, adds at most
    the order that is placed, and keeps all amounts multiples of the lot step. *)

From S2P Require Import Prelude BTreeMap FixedPoint Units OrderTypes DataLayer StorageProps World.
From S2P Require Import Payments OrderBook Matching Priority CrossSpread BookState Solvency Operations.
From S2P Require Import SampleLedger WorldRefine Effects.

Section lots.
Context {Cfg : Config} {SK : StorageKeys} (divisibility : OrderBookId → bool).
Context {L : Type} `{MultiCurrencyLaws L} {TA : TechAccounts}.
Context (self : OrderBook.t) (pending : list entry).
Implicit Types (w : World Storage L) (o : LimitOrder.t) (m : gmap entry LimitOrder.t).
Abbreviation id := (OrderBook.order_book_id self).
Abbreviation key o := (id, LimitOrder.id o).
Abbreviation orders w := (LimitOrders (data w)).
Abbreviation Good := (Operations.Good divisibility pending).
Abbreviation step := (inner (OrderBook.step_lot_size self)).

(** ** The orders after a change *)

Lemma inserted_orders os m x o' : insert_orders self os m !! x = Some o' →
  m !! x = Some o' ∨ x = key o' ∧ o' ∈ os.
Proof.
  revert m. induction os as [|o os IH]; intros m Hx; [by left|]. cbn in Hx.
  destruct (IH _ Hx) as [Hx'|[-> ?]]; [|right; split; [done|by right]].
  destruct (decide (x = key o)) as [->|Hne].
  - rewrite lookup_insert_eq in Hx'. injection Hx' as <-. right. split; [done|left].
  - rewrite lookup_insert_ne in Hx' by done. by left.
Qed.

Lemma deleted_orders os m x o' : delete_orders self os m !! x = Some o' → m !! x = Some o'.
Proof.
  revert m. induction os as [|o os IH]; intros m Hx; [done|]. cbn in Hx.
  apply IH in Hx. by apply lookup_delete_Some in Hx as [_ ?].
Qed.

Lemma orders_after_some c m x o' : orders_after self c m !! x = Some o' →
  m !! x = Some o' ∨ x = key o' ∧ (o' ∈ lowered c ∨ o' ∈ placed c).
Proof.
  intros [Hx%deleted_orders|[-> Ho]]%inserted_orders; [by left|right]. by rewrite elem_of_app in Ho.
Qed.

Lemma orders_after_other c m x : fst x ≠ id → orders_after self c m !! x = m !! x.
Proof.
  intros Hx. unfold orders_after.
  rewrite lookup_insert_orders, lookup_delete_orders; [done|..];
    by intros (? & -> & _)%list_elem_of_fmap.
Qed.

(** The change of an operation, with the orders it lowers and places. *)
Record evolution (new : option OrderId) w w' : Prop := {
  ev_registered : registered w' = registered w;
  ev_other x : fst x ≠ id → orders w' !! x = orders w !! x;
  ev_self i o' : orders w' !! (id, i) = Some o' → is_Some (orders w !! (id, i)) ∨ new = Some i
}.

(** All orders of the book are whole lots. *)
Definition in_lots m : Prop := ∀ i o, m !! (id, i) = Some o → (step | inner (LimitOrder.amount o)).

Lemma applied_evolution c w w' new : change_ok divisibility self pending c (orders w) →
  applied divisibility self pending c w w' → (∀ o, o ∈ placed c → new = Some (LimitOrder.id o)) →
  evolution new w w'.
Proof.
  intros Hc [_ Eo _ Er] Hnew. split; [done|..].
  - intros x Hx. rewrite Eo. by apply orders_after_other.
  - intros i o' Ho'. rewrite Eo in Ho'. apply orders_after_some in Ho' as [?|[[= ->] [Hl|Hp]]].
    + left. by eexists.
    + left. apply Hc in Hl as (o & n & Ho & -> & _). by exists o.
    + right. by apply Hnew.
Qed.

Lemma applied_lots c w w' : applied divisibility self pending c w w' → in_lots (orders w) →
  (∀ o, o ∈ lowered c ∨ o ∈ placed c → (step | inner (LimitOrder.amount o))) → in_lots (orders w').
Proof.
  intros [_ Eo _ _] Hm Hc i o' Ho'. rewrite Eo in Ho'.
  apply orders_after_some in Ho' as [?|[_ Ho']]; [by eapply Hm|by apply Hc].
Qed.

(** The orders a crossing order places and lowers. *)
Lemma crossing_parts o s c : crossing_change divisibility self o s c →
  placed c = (if snd (crossing_split self o s) =? 0 then [] else [limit_part divisibility self o s]) ∧
  ∀ o', o' ∈ lowered c →
    0 < fst (crossing_split self o s) ≤ volume (queue s id (switched (LimitOrder.side o))) ∧
    o' ∈ lowered (deal_part divisibility self o s).
Proof.
  intros (c1 & H1 & H2).
  assert (placed c1 = [] ∧ ∀ o', o' ∈ lowered c1 →
    0 < fst (crossing_split self o s) ≤ volume (queue s id (switched (LimitOrder.side o))) ∧
    o' ∈ lowered (deal_part divisibility self o s)) as [Hp1 Hl1].
  { destruct (_ =? 0).
    - subst c1. split; [done|]. by intros o' Hx%elem_of_nil.
    - destruct H1 as (-> & Hv & _). split; [apply deal_placed|done]. }
  destruct (snd (crossing_split self o s) =? 0); [by subst c|].
  destruct H2 as (c2 & Hc2 & Hmerge).
  unfold OrderBook.calculate_limit_order_impact in Hc2. run. unfold MarketChange.merge in Hmerge. run.
  unfold placed in Hp1. apply fmap_nil_inv in Hp1.
  split; [unfold placed; cbn; by rewrite Hp1|]. intros o' Ho'. by apply Hl1.
Qed.

(** ** Lots in deals *)

Section deal.
Context (s : Storage) (HI : Inv divisibility s) (Hlots : in_lots (LimitOrders s)).

Lemma volume_lots os : (∀ o, o ∈ os → LimitOrders s !! key o = Some o) → (step | volume os).
Proof.
  intros Hos. unfold volume. induction os as [|o os IH]; [apply Z.divide_0_r|].
  rewrite sum_by_cons. apply Z.divide_add_r; [eapply Hlots, Hos; left|]. apply IH. intros o' Ho'.
  apply Hos. by right.
Qed.

Lemma deal_lots dir taker receiver n o' : 0 < n → n ≤ volume (queue s id (switched dir)) → (step | n) →
  let t := take (queue s id (switched dir)) n in
  o' ∈ lowered (deal_change divisibility self dir taker receiver (fst t) (snd t)) →
  (step | inner (LimitOrder.amount o')).
Proof.
  intros Hn Hle Hdiv t Ho'. unfold t in Ho'. rewrite deal_lowered in Ho'. unfold part_order in Ho'.
  pose proof (take_spec _ n (queue_positive divisibility self s (switched dir) HI) Hn) as Ht.
  destruct (take _ n) as [whole [[o r]|]]; cbn [snd] in Ho'; [|by apply elem_of_nil in Ho'].
  apply list_elem_of_singleton in Ho' as ->. destruct Ht as (rest & Hq & Hv & [rest' ->] & Hr).
  assert (∀ x, x ∈ whole ++ o :: rest' → LimitOrders s !! key x = Some x) as Hin.
  { intros x. rewrite <- Hq. intros Hx. by apply (elem_of_queue divisibility self s (switched dir) x HI). }
  pose proof (volume_lots whole ltac:(set_solver)) as Hw.
  assert (step | inner (LimitOrder.amount o)) as Ho by (eapply Hlots, Hin; set_solver).
  cbn [part_amount] in Hv. rewrite Z.min_l in Hv by done. cbn.
  replace r with (n - volume whole) by lia.
  by repeat apply Z.divide_sub_r.
Qed.

Lemma index_lots l : (step | volume_of s id l).
Proof.
  unfold volume_of. induction l as [|j l IH]; [apply Z.divide_0_r|]. cbn. apply Z.divide_add_r; [|done].
  unfold amount_of. destruct (LimitOrders s !! (id, j)) eqn:Ho; [by eapply Hlots|apply Z.divide_0_r].
Qed.

Lemma reach_lots sd p : (step | reach self s sd p).
Proof.
  unfold reach. pose proof (levels_listed divisibility self s sd HI) as Hl. unfold listed in Hl.
  induction Hl as [|q data (l & El & Hne & Hv) Hd IH]; [apply Z.divide_0_r|]. cbn [reachable].
  case_bool_decide; [apply Z.divide_0_r|]. unfold depth. rewrite sum_by_cons. apply Z.divide_add_r; [|exact IH].
  rewrite Hv. apply index_lots.
Qed.

(** Both parts of a crossing order are whole lots. *)
Lemma split_lots o : (step | inner (LimitOrder.amount o)) →
  (step | fst (crossing_split self o s)) ∧ (step | snd (crossing_split self o s)).
Proof.
  intros Ho. unfold crossing_split, cross_split.
  set (r := reach self s (switched (LimitOrder.side o)) (LimitOrder.price o)).
  assert (step | Z.min (inner (LimitOrder.amount o)) r) as Hmin.
  { destruct (Z.min_spec (inner (LimitOrder.amount o)) r) as [[_ ->]|[_ ->]]; [done|apply reach_lots]. }
  destruct (_ <? _); [destruct (_ <=? _)|]; cbn; split; try done; try apply Z.divide_0_r.
  by apply Z.divide_sub_r.
Qed.

Lemma crossing_lots o c : (step | inner (LimitOrder.amount o)) →
  crossing_change divisibility self o s c →
  ∀ o', o' ∈ lowered c ∨ o' ∈ placed c → (step | inner (LimitOrder.amount o')).
Proof.
  intros Ho Hc o'. destruct (split_lots o Ho) as [Hm Hl].
  destruct (crossing_parts o s c Hc) as [-> Hlow]. intros [[Hv Hd]%Hlow|Hp].
  - by eapply deal_lots in Hd; [|lia..|].
  - destruct (_ =? 0); [by apply elem_of_nil in Hp|]. by apply list_elem_of_singleton in Hp as ->.
Qed.
End deal.

Context (Hbook : book_ok divisibility self) (Hinj : tech_injective).

(** ** Operations *)

Lemma divide_mod x : x mod step = 0 → (step | x).
Proof. intros Hx. apply Z.mod_divide; [|done]. pose proof (bk_step_pos _ _ Hbook). lia. Qed.

Lemma place_evolution o w n w' : Good w → operation_ok divisibility self pending (Place o) w →
  OrderBook.place_limit_order self o w = (Ok n, w') →
  evolution (Some (LimitOrder.id o)) w w' ∧ (in_lots (orders w) → in_lots (orders w')).
Proof.
  intros Hg Hop Hr. pose proof (good_state _ _ _ Hg) as [HI _].
  apply (place_inv divisibility self pending) in Hr
    as (Hv & c & w1 & Hg1 & Hc & Hap & Hwhich & Ed & _ & _ & Er); [|done..].
  assert (step | inner (LimitOrder.amount o)) as Hdiv.
  { unfold OrderBook.ensure_limit_order_valid in Hv. run. zbool. by apply divide_mod. }
  assert ((∀ o', o' ∈ placed c → LimitOrder.id o' = LimitOrder.id o) ∧
    (in_lots (orders w) → ∀ o', o' ∈ lowered c ∨ o' ∈ placed c → (step | inner (LimitOrder.amount o'))))
    as [Hids Hlots].
  { destruct Hwhich as [Hx|Hx].
    - split.
      + intros o'. rewrite (proj1 (crossing_parts _ _ _ Hx)).
        destruct (_ =? 0); [by intros Hn%elem_of_nil|]. by intros ->%list_elem_of_singleton.
      + intros Hl. by eapply crossing_lots.
    - unfold OrderBook.calculate_limit_order_impact in Hx. run. unfold placed, lowered. cbn. split.
      + by intros o' ->%list_elem_of_singleton.
      + intros _ o' [Hn%elem_of_nil| ->%list_elem_of_singleton]; done. }
  eapply applied_evolution in Hc; [|exact Hap|].
  2: { intros o' Ho'. f_equal. symmetry. by apply Hids. }
  split.
  - destruct Hc. split; rewrite ?Er, ?Ed; done.
  - intros Hl. unfold in_lots. rewrite Ed. eapply applied_lots; [done|done|]. by apply Hlots.
Qed.

Lemma execute_evolution (o : MarketOrder.t) r w w' : Good w →
  operation_ok divisibility self pending (Execute o) w →
  OrderBook.execute_market_order self o w = (Ok r, w') →
  evolution None w w' ∧ (in_lots (orders w) → in_lots (orders w')).
Proof.
  intros Hg Hop Hr. pose proof (good_state _ _ _ Hg) as [HI _].
  apply (execute_inv divisibility self pending) in Hr
    as (Hv & Hn & w1 & Hg1 & Hc & Hap & Ed & _ & _ & Er); [|done..].
  assert (step | inner (MarketOrder.amount o)) as Hdiv.
  { unfold OrderBook.ensure_market_order_valid in Hv. run. zbool. by apply divide_mod. }
  eapply applied_evolution with (new := None) in Hc; [|exact Hap|].
  2: { intros o'. rewrite deal_placed. by intros Hx%elem_of_nil. }
  split.
  - destruct Hc. split; rewrite ?Er, ?Ed; done.
  - intros Hl. unfold in_lots. rewrite Ed. eapply applied_lots; [done|done|].
    intros o'. rewrite deal_placed. intros [Ho'|Hx%elem_of_nil]; [|done].
    refine (deal_lots (data w) HI Hl _ _ _ _ o' _ _ Hdiv Ho'); lia.
Qed.

Lemma cancel_evolution o reason ignore w w' : Good w → orders w !! key o = Some o →
  OrderBook.cancel_limit_order_unchecked self o reason ignore w = (Ok tt, w') →
  evolution None w w' ∧ (in_lots (orders w) → in_lots (orders w')).
Proof.
  intros Hg Ho Hr.
  apply (cancel_unchecked_effect divisibility self pending) in Hr as (_ & Eo & Er & _); [|done..].
  assert (∀ x o', orders w' !! x = Some o' → orders w !! x = Some o') as Hsub.
  { intros x o'. rewrite Eo. by intros [_ ?]%lookup_delete_Some. }
  split; [split; [done|..]|].
  - intros x Hx. rewrite Eo. apply lookup_delete_ne. by intros <-.
  - intros i o' ?%Hsub. left. by eexists.
  - intros Hl i o' ?%Hsub. by eapply Hl.
Qed.

(** Alignment turns the given orders into whole lots and leaves all others. *)
Lemma align_evolution os w w' : Good w → operation_ok divisibility self pending (Align os) w →
  OrderBook.align_limit_orders self os w = (Ok tt, w') →
  evolution None w w' ∧
  (∀ i o', orders w' !! (id, i) = Some o' →
     (i ∈ LimitOrder.id <$> os) ∧ (step | inner (LimitOrder.amount o')) ∨
     (i ∉ LimitOrder.id <$> os) ∧ orders w !! (id, i) = Some o').
Proof.
  intros Hg [Hnd Hos] Hr. unfold OrderBook.align_limit_orders in Hr.
  destruct os as [|o0 os0] eqn:Eos.
  { apply M_ret_ok in Hr as [_ ->]. split; [split; try done|].
    - intros i o' Ho'. left. by eexists.
    - intros i o' Ho'. right. split; [apply not_elem_of_nil|done]. }
  rewrite <- Eos in *. clear Eos o0 os0.
  apply M_bind_ok in Hr as (c & w1 & [Hc ->]%M_lift_ok & Hr).
  assert (∀ o, o ∈ os → orders w !! key o = Some o ∧ order_ok divisibility id o) as Hos'.
  { intros o Ho%Hos. split; [done|].
    by apply (inv_order _ _ (st_inv _ _ _ (good_state _ _ _ Hg))) in Ho as [_ ?]. }
  eapply align_covered in Hc as (Hc1 & Hc2 & Hrem & Hlow & Hpl); [|apply Hbook..|exact Hnd|exact Hos'].
  eapply apply_good in Hr as [_ Hap]; [|done..]. split.
  - eapply applied_evolution; [done..|]. rewrite Hpl. by intros o Hx%elem_of_nil.
  - destruct (align_lookup divisibility self Hbook c (orders w) os Hnd Hos' Hrem Hlow Hpl) as [Hin Hout].
    intros i o'. rewrite (ap_orders _ _ _ _ _ _ Hap). intros Ho'.
    destruct (decide (i ∈ LimitOrder.id <$> os)) as [Hi|Hi]; [left|right]; (split; [done|]).
    + apply list_elem_of_fmap in Hi as (o & -> & Ho). rewrite (Hin o Ho) in Ho'.
      unfold misaligned in Ho'. pose proof (bk_step_pos _ _ Hbook) as Hstep.
      destruct (Z.eqb_spec (inner (LimitOrder.amount o) mod step) 0); cbn [negb] in Ho'.
      * injection Ho' as <-. by apply divide_mod.
      * destruct (_ <? _); [done|]. injection Ho' as <-. cbn.
        exists (inner (LimitOrder.amount o) / step).
        pose proof (Z.div_mod (inner (LimitOrder.amount o)) step ltac:(lia)). lia.
    + rewrite Hout in Ho'; [done|]. intros (o & [= ->] & Ho)%list_elem_of_fmap.
      apply Hi. by apply list_elem_of_fmap_2.
Qed.
End lots.
