(* ===== verification/Scheduler.v ===== *)
(** * The scheduler of the order book ([pallets/order-book/src/scheduler.rs])

    What runs at the start of every block ([on_initialize], [lib.rs]): orders
    whose time has come expire, and the orders of updated books are aligned to
    the new lot step, both within a weight limit.

    [Weight] and [WeightMeter] are types of the framework, which is not part of
    the repository, and so are the benchmarked weights, which depend on the cost
    of a database access: they are the parameters [Weights] and [WeightInfo].
    [debug_assert!] does nothing in a release build and is not modelled. *)

From S2P Require Import Prelude BTreeMap FixedPoint Units OrderTypes DataLayer StorageProps.
From S2P Require Import CacheStorage CacheProps CacheLayer CacheRefine LayerSpec World OrderBook.
From S2P Require Import WorldRefine.

(** ** Weights *)

Class Weights := {
  Weight : Type;
  ref_time : Weight → Z;
  proof_size : Weight → Z;
  weight_saturating_mul : Weight → Z → Weight;
  weight_saturating_add : Weight → Weight → Weight;
  WeightMeter : Type;
  with_limit : Weight → WeightMeter;
  remaining : WeightMeter → Weight;
  consumed : WeightMeter → Weight;
  can_consume : WeightMeter → Weight → bool;
  (** [None] for [Err(())]. *)
  try_consume : WeightMeter → Weight → option WeightMeter;
  consume : WeightMeter → Weight → WeightMeter
}.

(** [WeightInfo] and the weight limits of [Config]. *)
Class WeightInfo {Wt : Weights} := {
  service_expiration_base : Weight;
  service_expiration_block_base : Weight;
  service_single_expiration_weight : Weight;
  align_single_order : Weight;
  MaxExpirationWeightPerBlock : Weight;
  MaxAlignmentWeightPerBlock : Weight
}.

(** [u64::checked_div(..).unwrap_or(u64::MAX)]. *)
Definition div_or_max (x y : Z) : Z := if y =? 0 then u64_max else x / y.

(** [common::weights::check_accrue_n]. *)
Definition check_accrue_n {Wt : Weights} (meter : WeightMeter) (w : Weight) (max_n : Z)
    (consume_weight : bool) : Z * WeightMeter :=
  let weight_left := remaining meter in
  let n_ref_time := div_or_max (ref_time weight_left) (ref_time w) in
  let n_proof_size := div_or_max (proof_size weight_left) (proof_size w) in
  let n := Z.min (Z.min n_ref_time n_proof_size) max_n in
  (n, if consume_weight then consume meter (weight_saturating_mul w n) else meter).

(** ** The storage of the pallet *)

Abbreviation Books := (gmap OrderBookId OrderBook.t) (only parsing).

(** [world] holds the storages that the order books use, the agenda included. *)
Record Pallet (L : Type) := mkPallet {
  world : World Storage L;
  OrderBooks : Books;
  AlignmentCursor : gmap OrderBookId OrderId;
  IncompleteExpirationsSince : option BlockNumber
}.
Arguments mkPallet {L} world OrderBooks AlignmentCursor IncompleteExpirationsSince.
Arguments world {L} p.
Arguments OrderBooks {L} p.
Arguments AlignmentCursor {L} p.
Arguments IncompleteExpirationsSince {L} p.

Definition set_world {L} (w : World Storage L) (p : Pallet L) : Pallet L :=
  mkPallet w (OrderBooks p) (AlignmentCursor p) (IncompleteExpirationsSince p).
Definition set_books {L} (b : Books) (p : Pallet L) : Pallet L :=
  mkPallet (world p) b (AlignmentCursor p) (IncompleteExpirationsSince p).
Definition set_cursors {L} (c : gmap OrderBookId OrderId) (p : Pallet L) : Pallet L :=
  mkPallet (world p) (OrderBooks p) c (IncompleteExpirationsSince p).
Definition set_since {L} (s : option BlockNumber) (p : Pallet L) : Pallet L :=
  mkPallet (world p) (OrderBooks p) (AlignmentCursor p) s.

(** ** Expiration *)

Section expiration.
Context {Cfg : Config} {Wt : Weights} {WI : WeightInfo}.
Context {D : Type} {DL : DataLayer D} {L : Type} `{MultiCurrency L} {TA : TechAccounts}.
Implicit Types (w : World D L) (books : Books).

Definition report (e : Event) (w : World D L) : World D L := set_events (events w ++ [e]) w.

Definition service_single_expiration (books : Books) (order_book_id : OrderBookId)
    (order_id : OrderId) (w : World D L) : World D L :=
  match on_data (get_limit_order order_book_id order_id) w with
  | (Err error, w) => report (ExpirationFailure order_book_id order_id error) w
  | (Ok order, w) =>
      match books !! order_book_id with
      | None =>
          report (ExpirationFailure order_book_id order_id (OrderBookError UnknownOrderBook)) w
      | Some order_book =>
          match OrderBook.expire_limit_order order_book order w with
          | (Ok _, w) => w
          | (Err error, w) => report (ExpirationFailure order_book_id order_id error) w
          end
      end
  end.

(** The [while let Some(..) = expirations.pop()] loop, over the expirations in
    the order they are popped; returns those left. *)
Fixpoint service_loop (books : Books) (to_service : Z) (popped : list (OrderBookId * OrderId))
    (serviced : Z) (w : World D L) : list (OrderBookId * OrderId) * World D L :=
  match popped with
  | [] => ([], w)
  | (order_book_id, order_id) :: popped =>
      let w := service_single_expiration books order_book_id order_id w in
      let serviced := serviced + 1 in
      if to_service <=? serviced then (popped, w)
      else service_loop books to_service popped serviced w
  end.

(** Returns whether all expirations of the block are processed. *)
Definition service_expiration_block (books : Books) (block : BlockNumber) (weight : WeightMeter)
    (w : World D L) : bool * WeightMeter * World D L :=
  match try_consume weight service_expiration_block_base with
  | None => (false, weight, w)
  | Some weight =>
      let expirations := default [] (agenda w !! block) in
      let w := set_agenda (delete block (agenda w)) w in
      match expirations with
      | [] => (true, weight, w)
      | _ =>
          let '(to_service, weight) :=
            check_accrue_n weight service_single_expiration_weight (Z.of_nat (length expirations))
              true in
          let '(rest, w) := service_loop books to_service (reverse expirations) 0 w in
          match rest with
          | [] => (true, weight, w)
          | _ => (false, weight, set_agenda (<[block := reverse rest]> (agenda w)) w)
          end
      end
  end.

(** The [while] loop of [service_expiration] from [when]; [blocks] bounds its
    iterations. *)
Fixpoint service_blocks (books : Books) (current_block : BlockNumber) (blocks : nat)
    (when incomplete_since : BlockNumber) (weight : WeightMeter) (w : World D L)
    : BlockNumber * BlockNumber * WeightMeter * World D L :=
  match blocks with
  | O => (when, incomplete_since, weight, w)
  | S blocks =>
      if (when <=? current_block) && can_consume weight service_expiration_block_base then
        let '(complete, weight, w) := service_expiration_block books when weight w in
        let incomplete_since := if complete : bool then incomplete_since
                                else Z.min incomplete_since when in
        service_blocks books current_block blocks (sat_add u32_max when 1) incomplete_since weight w
      else (when, incomplete_since, weight, w)
  end.
End expiration.

Section hooks.
Context {Cfg : Config} {Wt : Weights} {WI : WeightInfo} {SK : StorageKeys}.
Context {L : Type} `{MultiCurrency L} {TA : TechAccounts}.

(** A block later than [current_block] ends the loop, so it has no more
    iterations than there are blocks from [when] on. *)
Definition service_expiration (current_block : BlockNumber) (weight : WeightMeter) (p : Pallet L)
    : WeightMeter * Pallet L :=
  match try_consume weight service_expiration_base with
  | None => (weight, p)
  | Some weight =>
      let incomplete_since := current_block + 1 in
      let when := default current_block (IncompleteExpirationsSince p) in
      let p := set_since None p in
      let blocks := Z.to_nat (current_block + 1 - when) in
      let '(when, incomplete_since, weight, w) :=
        service_blocks (OrderBooks p) current_block blocks when incomplete_since weight
          (open_cache (world p)) in
      let incomplete_since := Z.min incomplete_since when in
      let p := if incomplete_since <=? current_block then set_since (Some incomplete_since) p
               else p in
      (weight, set_world (commit_cache w) p)
  end.

(** ** Alignment *)

Definition get_limit_orders (s : Storage) (order_book_id : OrderBookId) (maybe_cursor : option OrderId)
    (count : nat) : list LimitOrder.t :=
  let all := take count (snd <$> iter_prefix (LimitOrders s) order_book_id) in
  match maybe_cursor with
  | Some cursor =>
      if negb (cursor =? 0)
      then take count (snd <$> iter_prefix_from (LimitOrders s) order_book_id cursor)
      else all
  | None => all
  end.

(** The variables of the loop of [service_alignment]. *)
Record Alignment := mkAlignment {
  new_cursors : BTreeMap OrderBookId OrderId;
  finished : list OrderBook.t;
  align_weight : WeightMeter;
  align_world : World CacheDataLayer.t L
}.

(** The loop over the cursors.  It returns early ([inr]) with an error; then
    the funds that were paid out stay paid and the changes of the data are
    lost with the cache. *)
Fixpoint alignment_loop (p : Pallet L) (cursors : list (OrderBookId * OrderId)) (a : Alignment)
    : Alignment + Alignment :=
  match cursors with
  | [] => inl a
  | (order_book_id, cursor) :: cursors =>
      if negb (can_consume (align_weight a) align_single_order) then inl a else
      match OrderBooks p !! order_book_id with
      | None =>
          inr (mkAlignment (new_cursors a) (finished a) (align_weight a)
                 (report (AlignmentFailure order_book_id (OrderBookError UnknownOrderBook))
                    (align_world a)))
      | Some order_book =>
          let '(count, _) :=
            check_accrue_n (align_weight a) align_single_order SOFT_MIN_MAX_RATIO false in
          let limit_orders :=
            get_limit_orders (data (world p)) order_book_id (Some cursor) (Z.to_nat count) in
          match last limit_orders with
          | None =>
              alignment_loop p cursors
                (mkAlignment (new_cursors a) (finished a ++ [order_book]) (align_weight a)
                   (align_world a))
          | Some last_order =>
              let cursors' := bt_insert order_book_id (LimitOrder.id last_order) (new_cursors a) in
              let weight :=
                consume (align_weight a)
                  (weight_saturating_mul align_single_order (Z.of_nat (length limit_orders))) in
              match OrderBook.align_limit_orders order_book limit_orders (align_world a) with
              | (Ok _, w) => alignment_loop p cursors (mkAlignment cursors' (finished a) weight w)
              | (Err error, w) =>
                  inr (mkAlignment cursors' (finished a) weight
                         (report (AlignmentFailure order_book_id error) w))
              end
          end
      end
  end.

(** The world without the uncommitted changes of the data. *)
Definition drop_cache (w : World CacheDataLayer.t L) : World Storage L :=
  mkWorld (CacheDataLayer.storage (data w)) (ledger w) (registered w) (agenda w) (events w).

Definition set_ready (b : OrderBook.t) : OrderBook.t :=
  OrderBook.mk (OrderBook.order_book_id b) (OrderBook.status b) (OrderBook.last_order_id b)
    (OrderBook.tick_size b) (OrderBook.step_lot_size b) (OrderBook.min_lot_size b)
    (OrderBook.max_lot_size b) Ready.

Definition finish_alignment (b : OrderBook.t) (p : Pallet L) : Pallet L :=
  let id := OrderBook.order_book_id b in
  set_books (<[id := set_ready b]> (OrderBooks p))
    (set_cursors (delete id (AlignmentCursor p)) p).

Definition service_alignment (weight : WeightMeter) (p : Pallet L) : WeightMeter * Pallet L :=
  if negb (can_consume weight align_single_order) then (weight, p) else
  match alignment_loop p (storage_iter (AlignmentCursor p))
          (mkAlignment [] [] weight (open_cache (world p))) with
  | inr a => (align_weight a, set_world (drop_cache (align_world a)) p)
  | inl a =>
      let p := set_world (commit_cache (align_world a)) p in
      let p := fold_left (λ p '(id, cursor), set_cursors (<[id := cursor]> (AlignmentCursor p)) p)
                 (new_cursors a) p in
      (align_weight a, fold_left (λ p b, finish_alignment b p) (finished a) p)
  end.

(** [Hooks::on_initialize]: the weight it returns and the new state. *)
Definition on_initialize (current_block : BlockNumber) (p : Pallet L) : Weight * Pallet L :=
  let '(expiration_weight, p) :=
    service_expiration current_block (with_limit MaxExpirationWeightPerBlock) p in
  let '(alignment_weight, p) := service_alignment (with_limit MaxAlignmentWeightPerBlock) p in
  (weight_saturating_add (consumed expiration_weight) (consumed alignment_weight), p).
End hooks.
