(* ===== verification/Expiration.v ===== *)
(** * Expiration of orders

    What [service_expiration] does to the orders, the funds and the agenda: the
    effect of one expiration, of the entries of a block, of all overdue blocks,
    and of the hook over the cache.  [orphans] are open orders whose expiration
    failed in an earlier block: their entries are gone from the agenda. *)

From S2P Require Import Prelude BTreeMap FixedPoint Units OrderTypes DataLayer StorageProps.
From S2P Require Import CacheStorage CacheProps CacheLayer CacheRefine LayerSpec World Payments.
From S2P Require Import OrderBook Matching Priority CrossSpread BookState Solvency Operations.
From S2P Require Import SampleLedger WorldRefine Effects Scheduler.

(** ** One expiration *)

Section one.
Context {Cfg : Config} {SK : StorageKeys} (divisibility : OrderBookId → bool).
Context {L : Type} `{MultiCurrencyLaws L} {TA : TechAccounts}.
Context (self : OrderBook.t) (pending : list entry).
Context (Hbook : book_ok divisibility self) (Hinj : tech_injective).
Implicit Types (w : World Storage L) (o : LimitOrder.t).
Abbreviation id := (OrderBook.order_book_id self).
Abbreviation key o := (id, LimitOrder.id o).
Abbreviation orders w := (LimitOrders (data w)).
Abbreviation balance w := (free_balance (ledger w)).
Abbreviation Good := (Operations.Good divisibility pending).

(** Nothing has happened. *)
Record unchanged w w' : Prop := {
  un_data : data w' = data w;
  un_registered : registered w' = registered w;
  un_agenda : agenda w' = agenda w;
  un_events : events w' = events w;
  un_balance a x : balance w' a x = balance w a x
}.

Lemma unchanged_refl w : unchanged w w.
Proof. by split. Qed.

Lemma unchanged_Good w w' : Good w → unchanged w w' → Good w'.
Proof.
  intros [[HI Hag] Hs] [Ed _ Ea _ Eb]. split; [split; by rewrite ?Ed, ?Ea|].
  intros b a. rewrite Ed, Eb. apply Hs.
Qed.

Lemma transfer_out_error asset from to amount w e w' :
  transfer_out asset from to amount w = (Err e, w') → unchanged w w'.
Proof.
  intros [Hr|([] & w1 & Hr & Ht)]%M_bind_err.
  { revert Hr. unfold ensure_account_registered. exec. case_bool_decide; [done|].
    intros [= _ <-]. apply unchanged_refl. }
  assert (w1 = w) as ->.
  { revert Hr. unfold ensure_account_registered. exec. case_bool_decide; [|done]. by intros [= <-]. }
  unfold on_ledger, zoom in Ht.
  destruct (transfer_from asset from to amount (ledger w)) as [[u|e'] l'] eqn:E; [done|].
  injection Ht as <- <-. split; try done. simpl. revert E. unfold transfer_from, checked_transfer. exec.
  unfold lift, mbind, M_bind. destruct (check_permission _ _ _ _) as [?|?]; [|by intros [= _ <-]].
  destruct (currency_transfer _ _ _ _ _) as [[?|?] l1] eqn:Ec; [done|].
  pose proof (transfer_error _ _ _ _ _ _ _ Ec). by destruct (asset_exists _ _); intros [= _ <-].
Qed.

(** The payment of a cancellation is one transfer. *)
Lemma execute_unlock asset x v w :
  execute_all (Payment.mk id [] (Payment.add_entry asset x v [])) w =
  transfer_out asset (tech_account id) x (BalanceUnit.balance v) w.
Proof.
  unfold execute_all, lock, unlock, unlock_liquidity_batch. cbn.
  unfold mbind, M_bind, mret, M_ret. by destruct (transfer_out _ _ _ _ _) as [[[]|?] ?].
Qed.

Lemma apply_cancel_runs o reason w : Inv divisibility (data w) → orders w !! key o = Some o →
  ∃ w', OrderBook.apply_cancel self true o reason w = (Ok tt, w').
Proof.
  intros HI Ho. pose proof (delete_run divisibility _ _ _ _ HI Ho) as Hd.
  unfold OrderBook.apply_cancel, OrderBook.unschedule, on_data, zoom, mbind, M_bind. cbn.
  unfold mbind, M_bind in Hd. cbn in Hd. rewrite Hd.
  destruct (unschedule_expiration _ _ _ _) as [[?|?] ?]; by eexists.
Qed.

(** An expiration succeeds, or fails without an effect. *)
Lemma cancel_ignoring_error o reason w e w' : Inv divisibility (data w) → orders w !! key o = Some o →
  OrderBook.cancel_limit_order_unchecked self o reason true w = (Err e, w') → unchanged w w'.
Proof.
  intros HI Ho [Hc|(c & w1 & [Hc ->]%M_lift_ok & Hr)]%M_bind_err.
  { unfold lift in Hc. injection Hc as _ <-. apply unchanged_refl. }
  pose proof (inv_order _ _ HI _ _ _ Ho) as [_ Hok].
  apply (cancel_impact_eq divisibility) in Hc as (r & _ & _ & ->); [|done|done].
  unfold OrderBook.apply_market_change in Hr. cbn [MarketChange.payment] in Hr.
  apply M_bind_err in Hr as [Hr|([] & w1 & Hr & Hk)].
  { rewrite execute_unlock in Hr. by eapply transfer_out_error. }
  exfalso. apply execute_all_settles in Hr as [Hw1 _].
  destruct (apply_cancel_runs o reason w1) as [w2 Hw2]; [by rewrite Hw1..|].
  revert Hk. cbn. unfold mbind, M_bind, mret, M_ret. by rewrite Hw2.
Qed.

(** The entry of a pending order is not in the agenda, which stays as it is. *)
Lemma cancel_pending_frame o reason w w' : Good w → orders w !! key o = Some o → key o ∈ pending →
  OrderBook.cancel_limit_order_unchecked self o reason true w = (Ok tt, w') →
  agenda w' = agenda w ∧ events w `prefix_of` events w'.
Proof.
  intros [[HI Hag] _] Ho Hp Hr. apply M_bind_ok in Hr as (c & w1 & [Hc ->]%M_lift_ok & Hr).
  pose proof (inv_order _ _ HI _ _ _ Ho) as [_ Hok].
  apply (cancel_impact_eq divisibility) in Hc as (r & _ & _ & ->); [|done|done].
  apply M_bind_ok in Hr as ([] & w1 & [Hw1 _]%execute_all_settles & Hr). cbn in Hr.
  apply M_bind_ok in Hr as ([] & w2 & Hr & Hk).
  repeat (apply M_bind_ok in Hk as ([] & ? & [_ ->]%M_ret_ok & Hk)). apply M_ret_ok in Hk as [_ ->].
  apply M_bind_ok in Hr as ([] & w3 & Hr & [_ ->]%M_ret_ok).
  apply M_bind_ok in Hr as ([] & w4 & (s & Hd & ->)%zoom_ok & Hr).
  apply M_bind_ok in Hr as ([] & w5 & Hu & [= <-]).
  revert Hu. unfold OrderBook.unschedule, unschedule_expiration. exec. cbn [agenda set_data].
  rewrite Hw1. cbn [agenda set_ledger]. rewrite (proj2 (remove_first_None _ _)).
  - intros [= <-]. cbn. split; [done|]. by apply prefix_app_r.
  - intros (? & _ & _ & ?)%(ag_iff _ _ _ Hag). done.
Qed.

(** ** The same over another data layer *)

Context {D : Type} `{!DataLayer D} `{!LayerRefines divisibility D}.
Implicit Types (c : World D L).
Abbreviation same_world := (WorldRefine.same_world divisibility).

Lemma sim_run_ok {S S' E A B} (rel rerr : S → S' → Prop) (Q : A → B → Prop)
    (x : result E A * S) (y : result E B * S') b t :
  sim_run rel unrelated Q x y → y = (Ok b, t) → sim_run rel rerr Q x y.
Proof. intros Hs ->. by destruct x as [[?|?] ?]. Qed.

Lemma expire_sim o c w : same_world c w → Inv divisibility (data w) → orders w !! key o = Some o →
  sim_run same_world same_world eq (OrderBook.expire_limit_order self o c)
    (OrderBook.expire_limit_order self o w).
Proof.
  intros Hw HI Ho. unfold OrderBook.expire_limit_order, OrderBook.cancel_limit_order_unchecked.
  eapply (sim_run_bind _ _ eq); [by apply sim_lift; [apply err_same|]|]. clear c Hw.
  intros x ? c ? <- Hw [Hc ->]%M_lift_ok.
  pose proof (inv_order _ _ HI _ _ _ Ho) as [_ Hok].
  apply (cancel_impact_eq divisibility) in Hc as (r & _ & _ & ->); [|done|done].
  unfold OrderBook.apply_market_change. cbn [MarketChange.payment].
  eapply (sim_run_bind _ _ eq); [eapply (execute_all_sim divisibility); [apply err_same|exact Hw]|]. clear c Hw.
  intros _ [] c w1 _ Hw [Hw1 _]%execute_all_settles.
  destruct (apply_cancel_runs o Expired w1) as [w2 Hw2]; [by rewrite Hw1..|].
  eapply (sim_run_ok _ _ _ _ _ tt w2).
  - eapply (sim_bind _ _ eq); [|intros _ _ _|exact Hw].
    + apply for_each_sim. intros [o' reason]. apply (apply_cancel_sim divisibility).
    + cbn. repeat (eapply (sim_bind _ _ eq); [by apply sim_ret|intros _ _ _]). by apply sim_ret.
  - cbn. unfold mbind, M_bind, mret, M_ret. by rewrite Hw2.
Qed.
End one.

(** ** Expirations in a row *)

Section expirations.
Context {Cfg : Config} {Wt : Weights} {WI : WeightInfo} {SK : StorageKeys}.
Context (divisibility : OrderBookId → bool).
Context {L : Type} `{MultiCurrencyLaws L} {TA : TechAccounts}.
Context (Hinj : tech_injective).
Implicit Types (w : World Storage L) (books : Books) (x : entry).
Abbreviation orders w := (LimitOrders (data w)).
Abbreviation balance w := (free_balance (ledger w)).
Abbreviation Good := (Operations.Good divisibility).

(** The registered books. *)
Definition books_ok (books : Books) : Prop :=
  ∀ b self, books !! b = Some self → OrderBook.order_book_id self = b ∧ book_ok divisibility self.

(** What the owners get back, from the accounts of the books. *)
Definition refunds_of (gone : list (entry * LimitOrder.t)) (a : AssetId) (y : AccountId) : Z :=
  sum_by (λ '(x, o), moved (owed_asset (fst x) o) (LimitOrder.owner o) (owed_of o) a y
                     - moved (owed_asset (fst x) o) (tech_account (fst x)) (owed_of o) a y) gone.

(** The orders [gone] have left the books, and their owners are refunded; the
    expirations [failed] are reported; nothing else has changed. *)
Record expired (gone : list (entry * LimitOrder.t)) (failed : list entry) w w' : Prop := {
  ex_gone : Forall (λ p, orders w !! (fst p) = Some (snd p)) gone;
  ex_once : NoDup (fst <$> gone);
  ex_orders x : orders w' !! x = if decide (x ∈ (fst <$> gone)) then None else orders w !! x;
  ex_balance a y : balance w' a y = balance w a y + refunds_of gone a y;
  ex_registered : registered w' = registered w;
  ex_events : events w `prefix_of` events w';
  ex_failed x : x ∈ failed → is_Some (orders w' !! x) ∧
    ∃ e, ExpirationFailure (fst x) (snd x) e ∈ events w'
}.

Lemma refunds_app g1 g2 a y : refunds_of (g1 ++ g2) a y = refunds_of g1 a y + refunds_of g2 a y.
Proof. apply sum_by_app. Qed.

Lemma no_refunds a y : refunds_of [] a y = 0.
Proof. apply sum_by_nil. Qed.

Lemma expired_refl w : expired [] [] w w.
Proof.
  split; try done.
  - constructor.
  - intros a y. rewrite no_refunds. lia.
  - by intros x []%elem_of_nil.
Qed.

Lemma expired_trans g1 f1 g2 f2 w w1 w2 : expired g1 f1 w w1 → expired g2 f2 w1 w2 →
  (∀ x, x ∈ f1 → x ∉ (fst <$> g2)) → expired (g1 ++ g2) (f1 ++ f2) w w2.
Proof.
  intros [Hg1 Hn1 Ho1 Hb1 Hr1 He1 Hf1] [Hg2 Hn2 Ho2 Hb2 Hr2 He2 Hf2] Hd.
  assert (∀ p, p ∈ g2 → (fst p ∉ (fst <$> g1)) ∧ orders w !! (fst p) = Some (snd p)) as Hg12.
  { rewrite Forall_forall in Hg2. intros p Hp%Hg2. rewrite Ho1 in Hp. by case_decide. }
  split.
  - apply Forall_app. split; [done|]. apply Forall_forall. intros p Hp. by apply Hg12.
  - rewrite fmap_app. apply NoDup_app. split; [done|]. split; [|done].
    intros x Hx (p & -> & Hp)%list_elem_of_fmap. by destruct (Hg12 p Hp).
  - intros x. rewrite Ho2, Ho1, fmap_app. repeat case_decide; set_solver.
  - intros a y. rewrite Hb2, Hb1, refunds_app. lia.
  - congruence.
  - by trans (events w1).
  - intros x [Hx|Hx]%elem_of_app; [|by apply Hf2]. destruct (Hf1 x Hx) as [Hs [e He]]. split.
    + rewrite Ho2. case_decide; [naive_solver|done].
    + exists e. destruct He2 as [k ->]. set_solver.
Qed.

(** Pending entries only matter while the order is open. *)
Lemma Good_pending p p' w : Good p w →
  (∀ x, is_Some (orders w !! x) → (x ∈ p ↔ x ∈ p')) → Good p' w.
Proof.
  intros [[HI [Hiff Hnd]] Hs] Hp. split; [split; [done|split]|done]; [|done].
  intros t x. rewrite Hiff. split; intros (o & Ho & Ht & Hx); exists o; split_and!; try done;
    (rewrite Hp || rewrite <- Hp); try done; by eexists.
Qed.

(** *** One entry *)

Context {D : Type} `{!DataLayer D} `{!LayerRefines divisibility D}.
Implicit Types (c : World D L).
Abbreviation same_world := (WorldRefine.same_world divisibility).

Lemma report_same e c w : same_world c w → same_world (report e c) (report e w).
Proof. intros [? ? ? ? Ee]. split; try done. simpl. by rewrite Ee. Qed.

Lemma expired_report b i e w w1 : is_Some (orders w !! (b, i)) → unchanged w w1 →
  expired [] [(b, i)] w (report (ExpirationFailure b i e) w1).
Proof.
  intros Ho [Ed Er _ Ee Eb]. split; try done.
  - constructor.
  - intros x. simpl. by rewrite Ed.
  - intros a y. rewrite no_refunds. simpl. rewrite Eb. lia.
  - simpl. rewrite Ee. by apply prefix_app_r.
  - intros x ->%list_elem_of_singleton. simpl. rewrite Ed. split; [done|]. exists e. set_solver.
Qed.

Lemma service_single_spec books b i o p c w : books_ok books → same_world c w → Good p w →
  (b, i) ∈ p → orders w !! (b, i) = Some o →
  let c' := service_single_expiration books b i c in
  let w' := service_single_expiration books b i w in
  same_world c' w' ∧ Good p w' ∧ agenda w' = agenda w ∧
  (expired [(b, i, o)] [] w w' ∨ expired [] [(b, i)] w w').
Proof.
  intros Hbooks Hw Hg Hp Ho. pose proof (st_inv _ _ _ (good_state _ _ _ Hg)) as HI.
  unfold service_single_expiration.
  assert (on_data (get_limit_order b i) w = (Ok o, w)) as Hget.
  { unfold on_data, zoom. cbn. unfold StorageDataLayer.get_limit_order. exec. rewrite Ho. exec. by destruct w. }
  pose proof (on_data_sim divisibility eq _ _ (lr_get_limit_order b i) c w Hw) as Hs.
  change (StorageDataLayer.get_limit_order b i) with (get_limit_order (D := Storage) b i) in Hs.
  rewrite Hget in *. destruct (on_data (get_limit_order b i) c) as [[o'|?] c1]; [|done].
  destruct Hs as [-> Hw1]. clear c Hw.
  assert (∀ e w1 c2, same_world c2 w1 → unchanged w w1 →
    let rc := report (ExpirationFailure b i e) c2 in
    let rw := report (ExpirationFailure b i e) w1 in
    same_world rc rw ∧ Good p rw ∧ agenda rw = agenda w ∧
    (expired [(b, i, o)] [] w rw ∨ expired [] [(b, i)] w rw)) as Hfail.
  { intros e w1 c2 Hw2 Hu. split_and!; [by apply report_same|..|right; by apply expired_report].
    - eapply Good_events; [by eapply unchanged_Good|done..].
    - apply Hu. }
  destruct (books !! b) as [self|] eqn:Hb; [|by apply Hfail; [|apply unchanged_refl]].
  destruct (Hbooks _ _ Hb) as [<- Hbook]. pose proof (inv_order _ _ HI _ _ _ Ho) as [<- Hok].
  pose proof (expire_sim divisibility self Hbook o c1 w Hw1 HI Ho) as Hs.
  destruct (OrderBook.expire_limit_order self o c1) as [[[]|e] c2], (OrderBook.expire_limit_order self o w) as [[[]|e'] w2] eqn:E;
    try done; destruct Hs as [Heq Hw2].
  - pose proof (cancel_pending_frame divisibility self p Hbook o Expired w w2 Hg Ho Hp E) as [Ea Ee].
    apply (cancel_unchecked_effect divisibility self p) in E as (Hg2 & Eo & Er & Eb); [|done..].
    split_and!; [done..|left]. split.
    + by repeat constructor.
    + repeat constructor. apply not_elem_of_nil.
    + intros x. rewrite Eo. cbn. case_decide as Hx.
      * apply list_elem_of_singleton in Hx as ->. apply lookup_delete_eq.
      * apply lookup_delete_ne. intros <-. apply Hx. left.
    + intros a y. rewrite Eb. unfold refunds_of. rewrite sum_by_cons, sum_by_nil. cbn. lia.
    + done.
    + done.
    + by intros x []%elem_of_nil.
  - subst e'. apply Hfail; [done|]. by eapply cancel_ignoring_error in E.
Qed.

(** *** The entries of a block *)

Lemma service_loop_spec books n popped k p c w : books_ok books → same_world c w →
  Good (p ++ popped) w → NoDup popped → (∀ x, x ∈ popped → is_Some (orders w !! x)) →
  let rc := service_loop books n popped k c in
  let r := service_loop books n popped k w in
  fst rc = fst r ∧ same_world (snd rc) (snd r) ∧ agenda (snd r) = agenda w ∧
  ∃ gone failed, Good (p ++ failed ++ fst r) (snd r) ∧ expired gone failed w (snd r) ∧
    popped ≡ₚ (fst <$> gone) ++ failed ++ fst r.
Proof.
  intros Hbooks. revert k p c w. induction popped as [|[b i] popped IH]; intros k p c w Hw Hg Hnd Hopen.
  { split_and!; [done..|]. exists [], []. split; [done|]. split; [apply expired_refl|done]. }
  apply NoDup_cons in Hnd as [Hx Hnd]. destruct (Hopen (b, i)) as [o Ho]; [left|].
  pose proof (service_single_spec books b i o _ c w Hbooks Hw Hg) as Hs.
  specialize (Hs ltac:(set_solver) Ho). cbn zeta in Hs. cbn [service_loop].
  set (c1 := service_single_expiration books b i c) in *.
  set (w1 := service_single_expiration books b i w) in *. clearbody c1 w1.
  destruct Hs as (Hw1 & Hg1 & Ea & Hs).
  assert (∃ g f, expired g f w w1 ∧ Good ((p ++ f) ++ popped) w1 ∧ [(b, i)] ≡ₚ (fst <$> g) ++ f)
    as (g & f & Hex & Hg1' & Hgf).
  { destruct Hs as [Hs|Hs]; [exists [(b, i, o)], []|exists [], [(b, i)]]; split_and!; try done.
    - eapply Good_pending; [exact Hg1|]. intros x Hsx. rewrite app_nil_r, !elem_of_app, elem_of_cons.
      split; [|naive_solver]. intros [?|[->|?]]; [auto| |auto].
      rewrite (ex_orders _ _ _ _ Hs) in Hsx. rewrite decide_True in Hsx by (simpl; left). by destruct Hsx.
    - by rewrite <- app_assoc. }
  assert (∀ y, y ∈ popped → y ∉ (fst <$> g) ++ f) as Hdis.
  { intros y Hy. rewrite <- Hgf, list_elem_of_singleton. by intros ->. }
  destruct (n <=? k + 1).
  - split_and!; [done..|]. exists g, f. cbn [fst snd]. rewrite app_assoc. split_and!; [done..|].
    by rewrite app_assoc, <- Hgf.
  - destruct (IH (k + 1) (p ++ f) c1 w1 Hw1 Hg1' Hnd) as (E1 & E2 & E3 & g2 & f2 & Hg2 & Hex2 & Hp2).
    { intros y Hy. rewrite (ex_orders _ _ _ _ Hex), decide_False; [apply Hopen; by right|].
      intros Hin. apply (Hdis y Hy). set_solver. }
    split_and!; [done..|by rewrite E3|]. exists (g ++ g2), (f ++ f2). split_and!.
    + by rewrite <- !app_assoc in *.
    + eapply expired_trans; [done..|]. intros y Hy Hy2. apply (Hdis y); [|set_solver].
      rewrite Hp2. set_solver.
    + rewrite fmap_app. etrans; [apply (Permutation_app Hgf Hp2)|]. solve_Permutation.
Qed.

Lemma scheduled_delete ag t t' : scheduled (delete t ag) t' = if decide (t' = t) then [] else scheduled ag t'.
Proof.
  unfold scheduled. case_decide as E; [subst; by rewrite lookup_delete_eq|]. by rewrite lookup_delete_ne.
Qed.

(** Taking the entries of a block out of the agenda, and putting some back. *)
Lemma take_Good p t w : Good p w →
  Good (p ++ scheduled (agenda w) t) (set_agenda (delete t (agenda w)) w).
Proof.
  intros [[HI [Hiff Hnd]] Hs]. split; [split; [done|split]|done]; cbn.
  - intros t' x. rewrite scheduled_delete. setoid_rewrite not_elem_of_app. case_decide as Et.
    + subst. setoid_rewrite Hiff. split; [by intros []%elem_of_nil|]. intros (o & Ho & Ht & Hp & Hx). naive_solver.
    + setoid_rewrite Hiff. split; intros (o & Ho & Ht & Hp); exists o; split_and!; try done; naive_solver.
  - intros t'. rewrite scheduled_delete. case_decide; [constructor|done].
Qed.

Lemma untake_Good p t rest w : Good (p ++ rest) w → scheduled (agenda w) t = [] → NoDup rest →
  (∀ x, x ∈ rest → (x ∉ p) ∧ ∃ o, orders w !! x = Some o ∧ LimitOrder.expires_at o = t) →
  Good p (set_agenda (<[t := reverse rest]> (agenda w)) w).
Proof.
  intros [[HI [Hiff Hnd]] Hs] Ht Hr Hx. split; [split; [done|split]|done]; cbn.
  - intros t' x. rewrite scheduled_insert. case_decide as Et.
    + subst. rewrite elem_of_reverse. split.
      * intros [? (o & ? & ?)]%Hx. eauto.
      * intros (o & Ho & Ho' & Hp). destruct (decide (x ∈ rest)) as [|Hn]; [done|exfalso].
        assert (x ∈ scheduled (agenda w) t) as Hin; [|rewrite Ht in Hin; by apply elem_of_nil in Hin].
        apply Hiff. exists o. rewrite not_elem_of_app. auto.
    + rewrite Hiff. split; intros (o & Ho & Ht' & Hp); exists o; split_and!; try done.
      * by apply not_elem_of_app in Hp as [? _].
      * apply not_elem_of_app. split; [done|]. intros [_ (o' & ? & ?)]%Hx. naive_solver.
  - intros t'. rewrite scheduled_insert. case_decide; [|done]. by rewrite reverse_Permutation.
Qed.

Lemma set_agenda_same ag ag' c w : same_world c w → ag = ag' → same_world (set_agenda ag c) (set_agenda ag' w).
Proof. intros [? ? ? ? ?] ->. by split. Qed.

(** The due orders: open, scheduled and not among [p]. *)
Definition due (p : list entry) w (t : BlockNumber) x : Prop :=
  ∃ o, orders w !! x = Some o ∧ LimitOrder.expires_at o = t ∧ x ∉ p.

Lemma scheduled_due p w t x : Good p w → x ∈ scheduled (agenda w) t ↔ due p w t x.
Proof. intros [[_ Hag] _]. apply Hag. Qed.

Lemma service_block_spec books t m p c w : books_ok books → same_world c w → Good p w →
  let rc := service_expiration_block books t m c in
  let r := service_expiration_block books t m w in
  fst rc = fst r ∧ same_world (snd rc) (snd r) ∧
  ∃ gone failed, Good (p ++ failed) (snd r) ∧ expired gone failed w (snd r) ∧
    scheduled (agenda w) t ≡ₚ (fst <$> gone) ++ failed ++ scheduled (agenda (snd r)) t ∧
    (∀ t', t' ≠ t → scheduled (agenda (snd r)) t' = scheduled (agenda w) t') ∧
    (fst (fst r) = true → scheduled (agenda (snd r)) t = []).
Proof.
  intros Hbooks Hw Hg. cbn zeta. unfold service_expiration_block.
  destruct (try_consume m _) as [m'|]; cbn [fst snd].
  2: { split_and!; [done..|]. exists [], []. rewrite app_nil_r. split_and!; try done. apply expired_refl. }
  fold (scheduled (agenda c) t) (scheduled (agenda w) t). rewrite (sw_agenda _ _ _ Hw).
  pose proof (take_Good p t w Hg) as Hgt. set (w0 := set_agenda _ w) in *.
  pose proof (set_agenda_same _ _ c w Hw (eq_refl (delete t (agenda w)))) as Hw0.
  destruct (scheduled (agenda w) t) as [|x0 es] eqn:Es.
  { cbn [fst snd]. split_and!; [done..|]. exists [], []. cbn [app fmap list_fmap]. unfold w0. cbn.
    rewrite app_nil_r in *. split_and!; try done.
    - destruct (expired_refl w). by split.
    - by rewrite scheduled_delete, decide_True.
    - intros t' Ht. by rewrite scheduled_delete, decide_False.
    - intros _. by rewrite scheduled_delete, decide_True. }
  rewrite <- Es in *.
  destruct (check_accrue_n m' _ _ true) as [n m2].
  pose proof (service_loop_spec books n (reverse (scheduled (agenda w) t)) 0 p _ w0 Hbooks Hw0) as Hl.
  destruct Hl as (E1 & Hw1 & Ea1 & g & f & Hg1 & Hex & Hperm).
  { eapply Good_pending; [exact Hgt|]. intros x _. by rewrite !elem_of_app, elem_of_reverse. }
  { rewrite reverse_Permutation. by destruct Hg as [[_ [_ ?]] _]. }
  { intros x Hx. rewrite elem_of_reverse in Hx. apply (scheduled_due p w t x Hg) in Hx as (o & Ho & _). by exists o. }
  destruct (service_loop books n _ 0 (set_agenda _ c)) as [rc c1].
  destruct (service_loop books n _ 0 w0) as [r w1]. cbn [fst snd] in *. subst rc.
  rewrite reverse_Permutation in Hperm.
  assert (scheduled (agenda w1) t = []) as Et1.
  { rewrite Ea1. unfold w0. cbn. by rewrite scheduled_delete, decide_True. }
  assert (∀ t', t' ≠ t → scheduled (agenda w1) t' = scheduled (agenda w) t') as Ht1.
  { intros t' Ht. rewrite Ea1. unfold w0. cbn. by rewrite scheduled_delete, decide_False. }
  assert (expired g f w w1) as Hex' by (destruct Hex; by split).
  destruct r as [|x1 r]; cbn [fst snd].
  { split_and!; [done..|]. exists g, f. rewrite app_nil_r in *. rewrite Et1, app_nil_r. done. }
  split; [done|]. rewrite (sw_agenda _ _ _ Hw1). split; [by apply set_agenda_same|].
  exists g, f. cbn [agenda set_agenda]. rewrite scheduled_insert, decide_True by done.
  assert (NoDup ((fst <$> g) ++ f ++ x1 :: r)) as Hnd.
  { rewrite <- Hperm. by destruct Hg as [[_ [_ ?]] _]. }
  apply NoDup_app in Hnd as (_ & Hd1 & (_ & Hd2 & Hnd)%NoDup_app).
  split_and!.
  - apply untake_Good; [by rewrite <- app_assoc|done|done|]. intros x Hx.
    assert (due p w t x) as (o & Ho & Ht & Hp).
    { apply scheduled_due; [done|]. rewrite Hperm. set_solver. }
    split; [apply not_elem_of_app; split; [done|]; intros ?; by eapply Hd2|].
    exists o. split; [|done]. rewrite (ex_orders _ _ _ _ Hex'). rewrite decide_False; [done|].
    intros Hin. eapply Hd1; [done|]. set_solver.
  - destruct Hex'. by split.
  - by rewrite reverse_Permutation.
  - intros t' Ht. rewrite scheduled_insert, decide_False by done. by apply Ht1.
  - done.
Qed.

(** *** The blocks up to the current one *)

Lemma due_before p f g w w1 t x : expired g f w w1 → due (p ++ f) w1 t x → due p w t x.
Proof.
  intros Hex (o & Ho & Ht & Hx). exists o. rewrite (ex_orders _ _ _ _ Hex) in Ho. case_decide; [done|].
  rewrite not_elem_of_app in Hx. naive_solver.
Qed.

Lemma service_blocks_spec books cur n when since m p c w when' since' m' w' :
  books_ok books → same_world c w → Good p w → cur < u32_max →
  service_blocks books cur n when since m w = (when', since', m', w') →
  ∃ c' gone failed, service_blocks books cur n when since m c = (when', since', m', c') ∧
    same_world c' w' ∧ Good (p ++ failed) w' ∧ expired gone failed w w' ∧
    (∀ x, x ∈ (fst <$> gone) ++ failed → ∃ t, when ≤ t ≤ cur ∧ due p w t x) ∧
    (∀ t, t < when ∨ cur < t → scheduled (agenda w') t = scheduled (agenda w) t) ∧
    when ≤ when' ∧ since' ≤ since ∧ (since' = since ∨ when ≤ since') ∧
    (∀ t, when ≤ t < when' → scheduled (agenda w') t ≠ [] → since' ≤ t).
Proof.
  intros Hbooks. revert when since m p c w. induction n as [|n IH]; intros when since m p c w Hw Hg Hcur Hr;
    cbn [service_blocks] in *.
  { injection Hr as <- <- <- <-. exists c, [], []. rewrite app_nil_r. split_and!; try done; try lia.
    - apply expired_refl.
    - by intros x []%elem_of_nil. }
  destruct ((when <=? cur) && can_consume m service_expiration_block_base) eqn:Hgo.
  2: { injection Hr as <- <- <- <-. exists c, [], []. rewrite app_nil_r. split_and!; try done; try lia.
    - apply expired_refl.
    - by intros x []%elem_of_nil. }
  apply andb_prop in Hgo as [Hle _]. zbool.
  pose proof (service_block_spec books when m p c w Hbooks Hw Hg) as Hb.
  destruct (service_expiration_block books when m c) as [[okc mc] c1].
  destruct (service_expiration_block books when m w) as [[ok m1] w1]. cbn [fst snd] in Hb.
  destruct Hb as ([= -> ->] & Hw1 & g1 & f1 & Hg1 & Hex1 & Hperm & Hother & Hdone).
  assert (sat_add u32_max when 1 = when + 1) as Hsat by (unfold sat_add; lia). rewrite Hsat in *.
  destruct (IH _ _ _ _ c1 w1 Hw1 Hg1 Hcur Hr)
    as (c' & g2 & f2 & Hrc & Hw2 & Hg2 & Hex2 & Hdue2 & Hout2 & Hwhen & Hsince & Hfrom & Hinc).
  exists c', (g1 ++ g2), (f1 ++ f2). split_and!; try done; try lia.
  - by rewrite app_assoc.
  - eapply expired_trans; [done..|]. intros x Hx Hx2.
    destruct (Hdue2 x) as (t & _ & o & _ & _ & Hn); [set_solver|]. set_solver.
  - intros x Hx. assert (x ∈ (fst <$> g1) ++ f1 ∨ x ∈ (fst <$> g2) ++ f2) as [Hx1|Hx2] by set_solver.
    + exists when. split; [lia|]. apply scheduled_due; [done|]. rewrite Hperm. set_solver.
    + destruct (Hdue2 x Hx2) as (t & Ht & Hd). exists t. split; [lia|]. by eapply due_before.
  - intros t Ht. rewrite Hout2 by lia. apply Hother. lia.
  - destruct ok; lia.
  - destruct ok; lia.
  - intros t Ht Hne. destruct (decide (t = when)) as [->|Hnw]; [|apply Hinc; [lia|done]].
    rewrite Hout2 in Hne by lia. destruct ok; [by specialize (Hdone eq_refl)|lia].
Qed.
End expirations.

(** ** The hook *)

(** What the scheduler relies on of a weight meter. *)
Class WeightsLaws {Wt : Weights} : Prop := {
  weight_nonneg w : 0 ≤ ref_time w ∧ 0 ≤ proof_size w;
  can_consume_try m w : can_consume m w = true → is_Some (try_consume m w);
  can_consume_remaining m w : can_consume m w = true →
    ref_time w ≤ ref_time (remaining m) ∧ proof_size w ≤ proof_size (remaining m)
}.

Section service.
Context {Cfg : Config} {Wt : Weights} {WI : WeightInfo} {SK : StorageKeys}.
Context (divisibility : OrderBookId → bool).
Context {L : Type} `{MultiCurrencyLaws L} {TA : TechAccounts}.
Context (Hinj : tech_injective).
Implicit Types (p : Pallet L) (x : entry).
Abbreviation Good := (Operations.Good divisibility).
Abbreviation first_block cur p := (default cur (IncompleteExpirationsSince p)).

Lemma service_expiration_run cur weight p orphans :
  books_ok divisibility (OrderBooks p) → Good orphans (world p) → cur < u32_max →
  is_Some (try_consume weight service_expiration_base) →
  let p' := snd (service_expiration cur weight p) in
  OrderBooks p' = OrderBooks p ∧ AlignmentCursor p' = AlignmentCursor p ∧
  ∃ gone failed, expired gone failed (world p) (world p') ∧ Good (orphans ++ failed) (world p') ∧
    (∀ x, x ∈ (fst <$> gone) ++ failed →
       ∃ t, first_block cur p ≤ t ≤ cur ∧ due orphans (world p) t x) ∧
    (∀ t, t < first_block cur p ∨ cur < t →
       scheduled (agenda (world p')) t = scheduled (agenda (world p)) t) ∧
    (∀ n, IncompleteExpirationsSince p' = Some n → n ≤ cur) ∧
    (∀ t, first_block cur p ≤ t ≤ cur → scheduled (agenda (world p')) t ≠ [] →
       ∃ n, IncompleteExpirationsSince p' = Some n ∧ n ≤ t).
Proof.
  intros Hbooks Hg Hcur [m Hm]. unfold service_expiration. rewrite Hm.
  set (n := Z.to_nat _). cbn [OrderBooks set_since world].
  pose proof (st_inv _ _ _ (good_state _ _ _ Hg)) as HI.
  destruct (service_blocks (OrderBooks p) cur n (first_block cur p) (cur + 1) m (world p))
    as [[[when since] m'] w'] eqn:Hr.
  eapply (service_blocks_spec divisibility) in Hr as (c' & gone & failed & -> & Hw & Hg' & Hex & Hdue & Hout & Hwhen & Hsince & _ & Hinc);
    [|done..|by apply open_same|done|done].
  apply commit_same in Hw as ->.
  destruct (Z.min since when <=? cur) eqn:E; cbn; (split; [done|]); (split; [done|]); zbool;
    exists gone, failed; split_and!; try done.
  - by intros ? [= <-].
  - intros t Ht Hne. eexists; split; [done|]. destruct (decide (t < when)); [|lia].
    specialize (Hinc t ltac:(lia) Hne). lia.
  - intros t Ht Hne. specialize (Hinc t ltac:(lia) Hne). lia.
Qed.

(** The loop over the overdue blocks ends by its own condition: with as many
    iterations as there are blocks left it stops because the current block is
    passed or the weight is used up. *)
Theorem service_blocks_terminates {D} `{DataLayer D} books cur n when since m (w : World D L) :
  cur < u32_max → (Z.to_nat (cur + 1 - when) ≤ n)%nat →
  let r := service_blocks books cur n when since m w in
  (fst (fst (fst r)) <=? cur) && can_consume (snd (fst r)) service_expiration_block_base = false.
Proof.
  intros Hcur. revert when since m w. induction n as [|n IH]; intros when since m w Hn; cbn [service_blocks].
  - cbn. by rewrite (proj2 (Z.leb_gt when cur)) by lia.
  - destruct ((when <=? cur) && _) eqn:Hgo; [|done]. apply andb_prop in Hgo as [Hle _]. zbool.
    destruct (service_expiration_block books when m w) as [[ok m1] w1].
    assert (sat_add u32_max when 1 = when + 1) as -> by (unfold sat_add; lia). apply IH. lia.
Qed.

(** C31. The expiration hook: the orders it removes and the failures it reports are
    exactly orders that were due; every due order of the serviced blocks is
    removed with a full refund to its owner, or reported by an
    [ExpirationFailure] event and left open, or its block is at or after the
    stored block from which the next call goes on.  Nothing else changes, the
    books stay consistent and solvent. *)
Theorem service_expiration_effect cur weight p orphans :
  books_ok divisibility (OrderBooks p) → Good orphans (world p) → cur < u32_max →
  is_Some (try_consume weight service_expiration_base) →
  let p' := snd (service_expiration cur weight p) in
  OrderBooks p' = OrderBooks p ∧ AlignmentCursor p' = AlignmentCursor p ∧
  ∃ gone failed, expired gone failed (world p) (world p') ∧ Good (orphans ++ failed) (world p') ∧
    (∀ x, x ∈ (fst <$> gone) ++ failed →
       ∃ t, first_block cur p ≤ t ≤ cur ∧ due orphans (world p) t x) ∧
    (∀ t x, first_block cur p ≤ t ≤ cur → due orphans (world p) t x →
       x ∈ (fst <$> gone) ++ failed ∨ ∃ n, IncompleteExpirationsSince p' = Some n ∧ n ≤ t).
Proof.
  intros Hbooks Hg Hcur Hm. cbn zeta.
  destruct (service_expiration_run cur weight p orphans Hbooks Hg Hcur Hm)
    as (Hb & Hc & gone & failed & Hex & Hg' & Hdue & _ & _ & Hinc).
  split_and!; [done..|]. exists gone, failed. split_and!; [done..|].
  intros t x Ht (o & Ho & Hot & Hx). destruct (decide (x ∈ (fst <$> gone) ++ failed)) as [|Hn]; [by left|right].
  apply Hinc; [done|]. intros Hempty.
  assert (x ∈ scheduled (agenda (world (snd (service_expiration cur weight p)))) t) as Hin.
  { apply (scheduled_due divisibility (orphans ++ failed)); [done|]. exists o.
    rewrite (ex_orders _ _ _ _ Hex), decide_False by set_solver. set_solver. }
  rewrite Hempty in Hin. by apply elem_of_nil in Hin.
Qed.

(** No overdue entry is forgotten: the blocks up to [cur] that still have entries
    are at or after the block the next service starts from. *)
Record tracked (cur : BlockNumber) p : Prop := {
  tr_past n : IncompleteExpirationsSince p = Some n → n ≤ cur;
  tr_overdue t : t ≤ cur → scheduled (agenda (world p)) t ≠ [] →
    ∃ n, IncompleteExpirationsSince p = Some n ∧ n ≤ t
}.

(** No overdue expiration is forgotten: as long as the base weight is available
    in every block, a block up to the current one that still has entries is at or
    after the stored first incomplete block. *)
Theorem overdue_expirations_tracked cur weight p orphans :
  books_ok divisibility (OrderBooks p) → Good orphans (world p) → cur < u32_max →
  is_Some (try_consume weight service_expiration_base) →
  tracked (cur - 1) p → tracked cur (snd (service_expiration cur weight p)).
Proof.
  intros Hbooks Hg Hcur Hm [Hpast Hover].
  destruct (service_expiration_run cur weight p orphans Hbooks Hg Hcur Hm)
    as (_ & _ & gone & failed & _ & _ & _ & Hout & Hle & Hinc).
  split; [done|]. intros t Ht Hne.
  destruct (decide (first_block cur p ≤ t)) as [Hf|Hf]; [by apply Hinc|].
  rewrite Hout in Hne by lia. destruct (IncompleteExpirationsSince p) as [n|] eqn:En; cbn in Hf.
  - specialize (Hpast n eq_refl). destruct (Hover t ltac:(lia) Hne) as (? & [= <-] & ?). lia.
  - by destruct (Hover t ltac:(lia) Hne) as (? & [=] & _).
Qed.

Lemma service_loop_shorter {D} `{DataLayer D} books n x popped k (w : World D L) :
  (length (fst (service_loop books n (x :: popped) k w)) ≤ length popped)%nat.
Proof.
  revert x k w. induction popped as [|y popped IH]; intros [b i] k w; cbn.
  - by destruct (_ <=? _).
  - destruct (n <=? k + 1); [done|]. etrans; [apply IH|simpl; lia].
Qed.

Lemma service_block_shrinks {D} `{DataLayer D} `{!WeightsLaws} books t m (w : World D L) :
  can_consume m service_expiration_block_base = true →
  let r := service_expiration_block books t m w in
  fst (fst r) = true ∨
  (length (scheduled (agenda (snd r)) t) < length (scheduled (agenda w) t))%nat.
Proof.
  intros [m' Hm]%can_consume_try. cbn zeta. unfold service_expiration_block. rewrite Hm.
  fold (scheduled (agenda w) t). destruct (scheduled (agenda w) t) as [|x es] eqn:Es; [by left|].
  rewrite <- Es. destruct (check_accrue_n _ _ _ _) as [k m2].
  destruct (reverse (scheduled (agenda w) t)) as [|y ys] eqn:Er.
  { apply (f_equal length) in Er. rewrite length_reverse, Es in Er. done. }
  pose proof (service_loop_shorter books k y ys 0 (set_agenda (delete t (agenda w)) w)) as Hl.
  apply (f_equal length) in Er. rewrite length_reverse in Er.
  destruct (service_loop _ _ _ _ _) as [[|z rest] w1]; [by left|right]. cbn [fst snd agenda set_agenda] in *.
  rewrite scheduled_insert, decide_True, length_reverse by done. cbn [length] in *. lia.
Qed.

(** A call that starts from an incomplete block finishes all blocks, or moves on to a later one, or
    leaves fewer entries in it. *)
Lemma expiration_advances `{!WeightsLaws} cur weight m p orphans n :
  books_ok divisibility (OrderBooks p) → Good orphans (world p) → cur < u32_max →
  try_consume weight service_expiration_base = Some m →
  can_consume m service_expiration_block_base = true →
  IncompleteExpirationsSince p = Some n → n ≤ cur →
  let p' := snd (service_expiration cur weight p) in
  ∀ n', IncompleteExpirationsSince p' = Some n' →
    n < n' ∨ n' = n ∧ (length (scheduled (agenda (world p')) n) < length (scheduled (agenda (world p)) n))%nat.
Proof.
  intros Hbooks Hg Hcur Hm Hm2 Hn Hle. unfold service_expiration. rewrite Hm, Hn.
  cbn [OrderBooks set_since world]. change (default cur (Some n)) with n.
  replace (Z.to_nat (cur + 1 - n)) with (S (Z.to_nat (cur - n))) by lia. cbn [service_blocks].
  rewrite (proj2 (Z.leb_le n cur) Hle), Hm2. cbn [andb].
  pose proof (st_inv _ _ _ (good_state _ _ _ Hg)) as HI.
  pose proof (service_block_spec divisibility Hinj (OrderBooks p) n m orphans _ _ Hbooks (open_same _ _ HI) Hg) as Hb.
  pose proof (service_block_shrinks (OrderBooks p) n m (world p) Hm2) as Hs.
  destruct (service_expiration_block _ n m (open_cache (world p))) as [[okc mc] c1].
  destruct (service_expiration_block _ n m (world p)) as [[ok m1] w1]. cbn [fst snd] in Hb, Hs.
  destruct Hb as ([= -> ->] & Hw1 & g1 & f1 & Hg1 & _).
  assert (sat_add u32_max n 1 = n + 1) as -> by (unfold sat_add; lia).
  set (since := if ok then _ else _).
  destruct (service_blocks (OrderBooks p) cur (Z.to_nat (cur - n)) (n + 1) since m1 w1)
    as [[[when since'] m'] w'] eqn:Hr.
  eapply (service_blocks_spec divisibility) in Hr
    as (c' & gone & failed & -> & Hw & _ & _ & _ & Hout & Hwhen & Hsince & Hfrom & Hinc); [|done..].
  apply commit_same in Hw as ->.
  destruct (Z.min since' when <=? cur); cbn; [|done]. intros n' [= <-]. rewrite Hout by lia.
  unfold since in *. destruct Hs as [->|Hs]; [left; lia|]. destruct ok; [left; lia|].
  destruct (decide (n < Z.min since' when)); [by left|right]. split; [lia|done].
Qed.

(** C32. Expiration makes progress.  When the weight limit allows to open one block, a call that
    starts from an incomplete block services a stretch of blocks: every order that was due in them
    is removed with its refund or reported as a failure, no entry is left in them, and the next
    call starts after them.  The stretch is not empty, or else strictly fewer entries are left in
    the first block. *)
Theorem expiration_progress `{!WeightsLaws} cur weight m p orphans n :
  books_ok divisibility (OrderBooks p) → Good orphans (world p) → cur < u32_max →
  try_consume weight service_expiration_base = Some m →
  can_consume m service_expiration_block_base = true →
  IncompleteExpirationsSince p = Some n → n ≤ cur →
  let p' := snd (service_expiration cur weight p) in
  let next := default (cur + 1) (IncompleteExpirationsSince p') in
  ∃ gone failed, expired gone failed (world p) (world p') ∧ Good (orphans ++ failed) (world p') ∧
    (∀ t, n ≤ t < next → scheduled (agenda (world p')) t = []) ∧
    (∀ t x, n ≤ t < next → due orphans (world p) t x → x ∈ (fst <$> gone) ++ failed) ∧
    (n < next ∨ next = n ∧ (length (scheduled (agenda (world p')) n)
                            < length (scheduled (agenda (world p)) n))%nat).
Proof.
  intros Hbooks Hg Hcur Hm Hm2 Hn Hle p' next.
  pose proof (expiration_advances cur weight m p orphans n Hbooks Hg Hcur Hm Hm2 Hn Hle) as Hadv.
  destruct (service_expiration_run cur weight p orphans Hbooks Hg Hcur ltac:(by rewrite Hm))
    as (_ & _ & gone & failed & Hex & Hg' & _ & _ & Hpast & Hinc). fold p' in Hadv, Hex, Hg', Hpast, Hinc.
  rewrite Hn in Hinc. change (default cur (Some n)) with n in Hinc. exists gone, failed. split; [done|]. split; [done|].
  assert (∀ t, n ≤ t < next → scheduled (agenda (world p')) t = []) as Hempty.
  { intros t Ht. destruct (decide (scheduled (agenda (world p')) t = [])) as [|Hne]; [done|exfalso].
    unfold next in Ht. destruct (IncompleteExpirationsSince p') as [n'|] eqn:E; cbn in Ht.
    - destruct (Hinc t) as (? & [= <-] & ?); [specialize (Hpast n' eq_refl); lia|done|lia].
    - by destruct (Hinc t ltac:(lia) Hne) as (? & [=] & _). }
  split; [done|]. split.
  - intros t x Ht (o & Ho & Hot & Hx). destruct (decide (x ∈ (fst <$> gone) ++ failed)) as [|Hno]; [done|exfalso].
    assert (x ∈ scheduled (agenda (world p')) t) as Hin.
    { apply (scheduled_due divisibility (orphans ++ failed)); [done|]. exists o.
      rewrite (ex_orders _ _ _ _ Hex), decide_False by set_solver. set_solver. }
    rewrite Hempty in Hin by done. by apply elem_of_nil in Hin.
  - unfold next. destruct (IncompleteExpirationsSince p') as [n'|] eqn:E; cbn; [by apply Hadv|left; lia].
Qed.

(** ** Orders without an entry *)

(** An order without an entry in the agenda cannot be cancelled. *)
Lemma unscheduled_not_cancelled self o pending w w' : book_ok divisibility self → Good pending w →
  LimitOrders (data w) !! (OrderBook.order_book_id self, LimitOrder.id o) = Some o →
  (OrderBook.order_book_id self, LimitOrder.id o) ∈ pending →
  OrderBook.cancel_limit_order self o w ≠ (Ok tt, w').
Proof.
  intros Hbook Hg Ho Hp Hr. pose proof Hg as [[HI Hag] _].
  apply M_bind_ok in Hr as ([] & w0 & [_ ->]%M_ensure_ok & Hr).
  apply M_bind_ok in Hr as (c & w1 & [Hc ->]%M_lift_ok & Hr).
  pose proof (inv_order _ _ HI _ _ _ Ho) as [_ Hok].
  apply (cancel_impact_eq divisibility) in Hc as (r & _ & _ & ->); [|done|done].
  apply M_bind_ok in Hr as ([] & w1 & [Hw1 _]%execute_all_settles & Hr).
  apply M_bind_ok in Hr as ([] & w2 & Hr & _). cbn in Hr.
  apply M_bind_ok in Hr as ([] & w3 & Hr & [_ ->]%M_ret_ok).
  apply M_bind_ok in Hr as ([] & w4 & (s & Hd & ->)%zoom_ok & Hr).
  apply M_bind_ok in Hr as ([] & w5 & Hu & _). revert Hu.
  unfold OrderBook.unschedule, unschedule_expiration. exec. cbn [agenda set_data].
  rewrite Hw1. cbn [agenda set_ledger]. rewrite (proj2 (remove_first_None _ _)); [done|].
  by intros (? & _ & _ & ?)%(ag_iff _ _ _ Hag).
Qed.

(** What may follow: operations of any books, where no order is placed under the key of an order
    without an entry (ids are not used twice), and payments that take nothing from the books. *)
Inductive later (pending : list entry) (w0 : World Storage L) : World Storage L → Prop :=
| later_start : later pending w0 w0
| later_operation w self op w' :
    later pending w0 w → book_ok divisibility self → operation_ok divisibility self pending op w →
    perform self op w = (Ok tt, w') → later pending w0 w'
| later_outside w w' :
    later pending w0 w → data w' = data w → agenda w' = agenda w →
    (∀ a b, free_balance (ledger w) a (tech_account b) ≤ free_balance (ledger w') a (tech_account b)) →
    later pending w0 w'.

Lemma later_good pending w0 w : Good pending w0 → later pending w0 w → Good pending w.
Proof.
  intros Hg0. induction 1 as [|w self op w' Hr IH Hb Hop Hrun|w w' Hr IH Ed Ea El]; [done|..].
  - by eapply perform_keeps.
  - destruct IH as [[HI Hag] Hs]. split; [split; by rewrite ?Ed, ?Ea|].
    intros b a. rewrite Ed. etransitivity; [apply Hs|apply El].
Qed.

(** C36. When the hook has serviced the block of a due order and the order is still stored, its
    expiration has failed: the failure is reported, and the order has no entry in the agenda any
    more.  From then on, whatever operations of the order books follow, its owner cannot cancel it
    as long as it is stored. *)
Theorem failed_expiration_is_final cur weight p orphans t x self :
  books_ok divisibility (OrderBooks p) → Good orphans (world p) → cur < u32_max →
  is_Some (try_consume weight service_expiration_base) →
  first_block cur p ≤ t ≤ cur → due orphans (world p) t x →
  book_ok divisibility self → OrderBook.order_book_id self = fst x →
  let p' := snd (service_expiration cur weight p) in
  (∀ n, IncompleteExpirationsSince p' = Some n → t < n) → is_Some (LimitOrders (data (world p')) !! x) →
  (∃ e, ExpirationFailure (fst x) (snd x) e ∈ events (world p')) ∧
  (∀ t', x ∉ scheduled (agenda (world p')) t') ∧
  ∃ pending, x ∈ pending ∧ Good pending (world p') ∧
    ∀ w o, later pending (world p') w → LimitOrders (data w) !! x = Some o →
      ∃ e, fst (OrderBook.cancel_limit_order self o w) = Err e.
Proof.
  intros Hbooks Hg Hcur Hm Ht Hdue Hbook Hself p' Hserviced Hstored.
  destruct (service_expiration_run cur weight p orphans Hbooks Hg Hcur Hm)
    as (_ & _ & gone & failed & Hex & Hg' & _ & _ & _ & Hinc). fold p' in Hex, Hg', Hinc.
  assert (x ∉ fst <$> gone) as Hgone.
  { intros Hx. rewrite (ex_orders _ _ _ _ Hex), decide_True in Hstored by done. by destruct Hstored. }
  assert (x ∈ failed) as Hf.
  { destruct (decide (x ∈ failed)) as [|Hnf]; [done|exfalso]. destruct Hdue as (o & Ho & Hot & Hx).
    assert (x ∈ scheduled (agenda (world p')) t) as Hin.
    { apply (scheduled_due divisibility (orphans ++ failed)); [done|]. exists o.
      rewrite (ex_orders _ _ _ _ Hex), decide_False by done. set_solver. }
    destruct (Hinc t Ht) as (n & En & Hle); [by intros E; rewrite E in Hin; apply elem_of_nil in Hin|].
    specialize (Hserviced n En). lia. }
  split; [by apply (ex_failed _ _ _ _ Hex)|]. split.
  { intros t' (o & _ & _ & Hx)%(scheduled_due divisibility _ _ _ _ Hg'). set_solver. }
  exists (orphans ++ failed). split; [set_solver|]. split; [done|]. intros w o Hl Ho.
  apply (later_good _ _ _ Hg') in Hl.
  assert ((OrderBook.order_book_id self, LimitOrder.id o) = x) as Ex.
  { rewrite Hself. destruct x as [b i]. cbn.
    by destruct (inv_order _ _ (st_inv _ _ _ (good_state _ _ _ Hl)) _ _ _ Ho) as [-> _]. }
  destruct (OrderBook.cancel_limit_order self o w) as [[[]|e] w'] eqn:Ec; [exfalso|by eexists].
  apply (unscheduled_not_cancelled self o (orphans ++ failed) w w'); rewrite ?Ex; [done..|set_solver|done].
Qed.
End service.

(** ** Examples *)

#[local] Existing Instance RuntimeConfig.
#[local] Existing Instance Samples.plain_keys.
Import OperationSamples EffectSamples.

Module ExpirationSamples.
(** Weights as pairs, a meter as what is left of a limit and what is consumed. *)
Definition weight_le (v w : N * N) : bool := ((fst v <=? fst w) && (snd v <=? snd w))%N.
Definition weight_op (f : N → N → N) (v w : N * N) : N * N := (f (fst v) (fst w), f (snd v) (snd w)).
Definition saturated (x : N) : N := N.min (Z.to_N u64_max) x.

#[export] Instance sample_weights : Weights := {|
  Weight := N * N;
  ref_time w := Z.of_N (fst w);
  proof_size w := Z.of_N (snd w);
  weight_saturating_mul w n := (saturated (fst w * Z.to_N n), saturated (snd w * Z.to_N n));
  weight_saturating_add := weight_op (λ x y, saturated (x + y));
  WeightMeter := (N * N) * (N * N);
  with_limit w := (w, (0, 0)%N);
  remaining := fst;
  consumed := snd;
  can_consume m w := weight_le w (fst m);
  try_consume m w :=
    if weight_le w (fst m) then Some (weight_op N.sub (fst m) w, weight_op N.add (snd m) w) else None;
  consume m w := (weight_op N.sub (fst m) w, weight_op N.add (snd m) w)
|}.

#[export] Instance sample_weights_laws : WeightsLaws.
Proof.
  split; cbn.
  - lia.
  - intros m w ->. by eexists.
  - intros m w [?%N.leb_le ?%N.leb_le]%andb_true_iff. lia.
Qed.

#[export] Instance sample_weight_info : WeightInfo := {|
  service_expiration_base := (1, 1)%N;
  service_expiration_block_base := (1, 1)%N;
  service_single_expiration_weight := (10, 10)%N;
  align_single_order := (10, 10)%N;
  MaxExpirationWeightPerBlock := (100, 100)%N;
  MaxAlignmentWeightPerBlock := (100, 100)%N
|}.

(** The pallet after the buy order, which expires in block 10. *)
Definition with_buy : Pallet Ledger :=
  mkPallet after_buy {[ Samples.book := MarketSamples.order_book ]} ∅ None.
Definition with_overdue_buy : Pallet Ledger := set_since (Some 10) with_buy.
Definition expired_buy : Pallet Ledger :=
  snd (service_expiration 10 (with_limit MaxExpirationWeightPerBlock) with_buy).
Definition expired_overdue_buy : Pallet Ledger :=
  snd (service_expiration 11 (with_limit MaxExpirationWeightPerBlock) with_overdue_buy).

Definition service_three_blocks :=
  service_blocks (D := Storage) (OrderBooks with_buy) 10 5 8 11 (with_limit MaxExpirationWeightPerBlock)
    after_buy.

Lemma books_sample_ok : books_ok Samples.divisibility (OrderBooks with_buy).
Proof.
  intros b self Hb. unfold with_buy in Hb. cbn [OrderBooks] in Hb. apply lookup_singleton_Some in Hb as [<- <-].
  split; [done|apply book_sample_ok].
Qed.

Lemma sample_meter : is_Some (try_consume (with_limit MaxExpirationWeightPerBlock) service_expiration_base).
Proof. by eexists. Qed.
End ExpirationSamples.
Import ExpirationSamples.

Lemma service_expiration_effect_witness :
  ∃ gone failed, expired gone failed after_buy (world expired_buy) ∧
    (Samples.book, 1) ∈ (fst <$> gone) ++ failed.
Proof.
  destruct (service_expiration_effect Samples.divisibility tech_inj 10
    (with_limit MaxExpirationWeightPerBlock) with_buy [] books_sample_ok after_buy_good eq_refl
    sample_meter) as (_ & _ & gone & failed & Hex & _ & _ & Hall).
  exists gone, failed. split; [exact Hex|].
  destruct (Hall 10 (Samples.book, 1)) as [Hin|(n & Hn & _)].
  - split; discriminate.
  - exists buy. split; [vm_compute; reflexivity|]. split; [reflexivity|apply not_elem_of_nil].
  - exact Hin.
  - fold expired_buy in Hn. vm_compute in Hn. discriminate.
Defined.

Lemma with_buy_tracked : tracked (10 - 1) with_buy.
Proof.
  split; [done|]. intros t Ht Hne. exfalso. apply Hne. cbn.
  assert (agenda after_buy = {[10 := [(Samples.book, 1)]]}) as -> by (vm_compute; reflexivity).
  unfold scheduled. rewrite lookup_singleton_ne; [done|lia].
Qed.

Lemma overdue_expirations_tracked_witness : tracked 10 expired_buy.
Proof.
  exact (overdue_expirations_tracked Samples.divisibility tech_inj 10
    (with_limit MaxExpirationWeightPerBlock) with_buy [] books_sample_ok after_buy_good eq_refl
    sample_meter with_buy_tracked).
Defined.

Lemma expiration_progress_witness :
  let next := default (11 + 1) (IncompleteExpirationsSince expired_overdue_buy) in
  ∃ gone failed, expired gone failed (world with_overdue_buy) (world expired_overdue_buy) ∧
    Operations.Good Samples.divisibility ([] ++ failed) (world expired_overdue_buy) ∧
    (∀ t, 10 ≤ t < next → scheduled (agenda (world expired_overdue_buy)) t = []) ∧
    (∀ t x, 10 ≤ t < next → due [] (world with_overdue_buy) t x → x ∈ (fst <$> gone) ++ failed) ∧
    (10 < next ∨ next = 10 ∧ (length (scheduled (agenda (world expired_overdue_buy)) 10)
                              < length (scheduled (agenda (world with_overdue_buy)) 10))%nat).
Proof.
  exact (expiration_progress Samples.divisibility tech_inj 11
    (with_limit MaxExpirationWeightPerBlock) ((99, 99), (1, 1))%N with_overdue_buy [] 10 books_sample_ok
    after_buy_good eq_refl eq_refl eq_refl eq_refl ltac:(discriminate)).
Defined.

Lemma service_blocks_terminates_witness :
  (fst (fst (fst service_three_blocks)) <=? 10) &&
  can_consume (snd (fst service_three_blocks)) service_expiration_block_base = false.
Proof.
  exact (service_blocks_terminates (D := Storage) (OrderBooks with_buy) 10 5 8 11
    (with_limit MaxExpirationWeightPerBlock) after_buy eq_refl ltac:(vm_compute; lia)).
Defined.

(** The account of the book is not registered, so that it cannot pay the refund. *)
Definition unregistered_buy : Pallet Ledger :=
  set_world (set_registered ∅ after_buy) with_buy.
Definition failed_buy : Pallet Ledger :=
  snd (service_expiration 10 (with_limit MaxExpirationWeightPerBlock) unregistered_buy).

Lemma unregistered_good : Operations.Good Samples.divisibility [] (world unregistered_buy).
Proof. destruct after_buy_good as [[HI Ha] Hs]. split; [split; [exact HI|exact Ha]|exact Hs]. Qed.

Lemma unregistered_due : due [] (world unregistered_buy) 10 (Samples.book, 1).
Proof. exists buy. split; [vm_compute; reflexivity|]. split; [vm_compute; reflexivity|]. by intros ?%elem_of_nil. Qed.

Lemma failed_expiration_is_final_witness :
  (∃ e, ExpirationFailure Samples.book 1 e ∈ events (world failed_buy)) ∧
  (∀ t, (Samples.book, 1) ∉ scheduled (agenda (world failed_buy)) t) ∧
  ∃ e, fst (OrderBook.cancel_limit_order MarketSamples.order_book buy (world failed_buy)) = Err e.
Proof.
  destruct (failed_expiration_is_final Samples.divisibility tech_inj 10 (with_limit MaxExpirationWeightPerBlock)
    unregistered_buy [] 10 (Samples.book, 1) MarketSamples.order_book books_sample_ok unregistered_good eq_refl
    sample_meter) as (He & Hs & pending & _ & _ & Hc).
  - split; vm_compute; discriminate.
  - apply unregistered_due.
  - apply book_sample_ok.
  - reflexivity.
  - intros n. vm_compute. discriminate.
  - vm_compute. eauto.
  - split; [exact He|]. split; [exact Hs|]. apply (Hc _ buy (later_start _ _ _)). vm_compute. reflexivity.
Defined.
