(* ===== verification/Alignment.v ===== *)
(** * The alignment of updated order books

    What a round of [service_alignment] ([pallets/order-book/src/scheduler.rs]) does
    when it does not fail: every book with a cursor is left alone, or its orders up
    to the new cursor are whole lots of its step, or it is finished and ready again;
    and something is always left less to do than before. *)

From Stdlib Require Import Sorting.Sorted.
From stdpp Require Import sorting.
From S2P Require Import Prelude BTreeMap FixedPoint Units OrderTypes DataLayer StorageProps.
From S2P Require Import CacheStorage CacheProps CacheLayer CacheRefine LayerSpec World Payments.
From S2P Require Import OrderBook Matching Priority CrossSpread BookState Solvency Operations.
From S2P Require Import SampleLedger WorldRefine Effects Lots Scheduler Expiration.

(** ** Reading from a cursor *)

Lemma list_filter_all {A} (P : A → Prop) `{∀ x, Decision (P x)} (l : list A) :
  (∀ x, x ∈ l → P x) → filter P l = l.
Proof.
  induction l as [|x l IH]; [done|]. intros Hl. rewrite filter_cons_True by (apply Hl; left).
  f_equal. apply IH. intros y Hy. apply Hl. by right.
Qed.


Section reading.
Context {SK : StorageKeys} `{Countable K} {V : Type} `{Countable K1}.
Implicit Types (l : list (K * V)) (m : gmap (K1 * K) V).

Definition ascending l : Prop := StronglySorted (λ p q, raw_key (fst p) < raw_key (fst q)) l.

Lemma raw_key_inj (k k' : K) : raw_key k = raw_key k' → k = k'.
Proof. unfold raw_key. by intros ?%storage_key_inj%(inj encode). Qed.

Lemma iter_prefix_ascending m k : ascending (iter_prefix m k).
Proof.
  pose proof (NoDup_iter_prefix m k) as Hnd. unfold iter_prefix, iter_entries in *.
  assert (StronglySorted key_le (merge_sort key_le
    (omap (λ '((k0, k2), v), if bool_decide (k0 = k) then Some (k2, v) else None) (map_to_list m)))) as Hs.
  { apply StronglySorted_merge_sort; [|intros p q; unfold key_le; lia].
    intros p q r; unfold key_le; lia. }
  induction Hs as [|p l Hl IH Hp]; [constructor|]. cbn in Hnd. apply NoDup_cons in Hnd as [Hni Hnd].
  constructor; [by apply IH|]. rewrite Forall_forall in *. intros q Hq.
  specialize (Hp q Hq). unfold key_le in Hp.
  assert (raw_key (fst p) ≠ raw_key (fst q)); [|lia]. intros E%raw_key_inj. apply Hni. rewrite E.
  by apply list_elem_of_fmap_2.
Qed.

Lemma ascending_filter l (P : K * V → Prop) `{∀ p, Decision (P p)} : ascending l → ascending (filter P l).
Proof.
  induction 1 as [|p l Hl IH Hp]; [constructor|]. rewrite filter_cons. case_decide; [|done].
  constructor; [done|]. rewrite Forall_forall in *. intros q [_ Hq]%list_elem_of_filter. by apply Hp.
Qed.

Lemma ascending_NoDup l : ascending l → NoDup l.*1.
Proof.
  induction 1 as [|p l Hl IH Hp]; [constructor|]. cbn. constructor; [|done].
  intros (q & E & Hq)%list_elem_of_fmap. rewrite Forall_forall in Hp. specialize (Hp q Hq). rewrite E in Hp. lia.
Qed.

Lemma ascending_take l n : ascending l → ascending (firstn n l).
Proof.
  intros Hl. revert n. induction Hl as [|p l Hl IH Hp]; intros [|n]; try constructor; [apply IH|].
  by apply Forall_take.
Qed.

(** What a prefix of an ascending list covers. *)
Lemma ascending_prefix l n p q : ascending l → last (firstn n l) = Some p → q ∈ l →
  raw_key (fst q) ≤ raw_key (fst p) → q ∈ firstn n l.
Proof.
  intros Hl. revert n. induction Hl as [|x l Hl IH Hx]; intros n Hlast Hq Hle; [by apply elem_of_nil in Hq|].
  destruct n as [|n]; [done|]. cbn [firstn] in *. rewrite last_cons in Hlast.
  apply elem_of_cons in Hq as [->|Hq]; [left|]. right. rewrite Forall_forall in Hx.
  destruct (last (firstn n l)) as [y|] eqn:E; simplify_eq; [by eapply IH|].
  specialize (Hx q Hq). lia.
Qed.

Lemma last_nil_take l n : (0 < n)%nat → last (firstn n l) = None → l = [].
Proof. intros Hn Hl%last_None. destruct l, n; done || lia. Qed.
End reading.

Section orders.
Context {Cfg : Config} {SK : StorageKeys}.
Implicit Types (s : Storage).

(** The alignment has passed the order in the iteration of the storage. *)
Definition passed_by (cursor i : OrderId) : Prop := cursor ≠ 0 ∧ raw_key i ≤ raw_key cursor.

#[global] Instance passed_by_dec cursor i : Decision (passed_by cursor i).
Proof. unfold passed_by. apply _. Defined.

(** The orders from the cursor on. *)
Definition after (s : Storage) (b : OrderBookId) (cursor : OrderId) : list (OrderId * LimitOrder.t) :=
  filter (λ p, ¬ passed_by cursor (fst p)) (iter_prefix (LimitOrders s) b).

Lemma get_limit_orders_after s b cursor n :
  get_limit_orders s b (Some cursor) n = (firstn n (after s b cursor)).*2.
Proof.
  unfold get_limit_orders, after, iter_prefix_from. rewrite !fmap_take.
  destruct (Z.eqb_spec cursor 0) as [->|Hne]; cbn [negb]; do 2 f_equal.
  - symmetry. apply list_filter_all. intros p _ [? _]. done.
  - apply list_filter_iff. intros p. unfold passed_by. split; [intros ? [_ ?]; lia|]. intros Hp.
    destruct (decide (raw_key cursor < raw_key p.1)); [done|]. exfalso. apply Hp. split; [done|lia].
Qed.

Lemma elem_of_after s b cursor i o :
  (i, o) ∈ after s b cursor ↔ LimitOrders s !! (b, i) = Some o ∧ ¬ passed_by cursor i.
Proof. unfold after. rewrite list_elem_of_filter, elem_of_iter_prefix. cbn. tauto. Qed.

Lemma after_ascending s b cursor : ascending (after s b cursor).
Proof. apply ascending_filter, iter_prefix_ascending. Qed.
End orders.

(** ** The loop *)

Section loop.
Context {Cfg : Config} {Wt : Weights} {WI : WeightInfo} {WL : WeightsLaws} {SK : StorageKeys}.
Context (divisibility : OrderBookId → bool).
Context {L : Type} `{MultiCurrencyLaws L} {TA : TechAccounts}.
Context (Hinj : tech_injective) (Hratio : 0 < SOFT_MIN_MAX_RATIO).
Context (p : Pallet L) (orphans : list entry).
Implicit Types (w : World Storage L) (a : Alignment (L := L)).
Abbreviation orders w := (LimitOrders (data w)).
Abbreviation Good := (Operations.Good divisibility).
Abbreviation step self := (inner (OrderBook.step_lot_size self)).
Abbreviation cursors := (AlignmentCursor p).

Lemma count_positive m : can_consume m align_single_order = true →
  0 < fst (check_accrue_n m align_single_order SOFT_MIN_MAX_RATIO false).
Proof.
  intros [H1 H2]%can_consume_remaining. pose proof (weight_nonneg align_single_order) as [H3 H4].
  assert (∀ x y, 0 ≤ y → y ≤ x → 0 < div_or_max x y) as Hdiv.
  { intros x y Hy Hle. unfold div_or_max. destruct (Z.eqb_spec y 0); [done|]. apply Z.div_str_pos. lia. }
  cbn. pose proof (Hdiv _ _ H3 H1). pose proof (Hdiv _ _ H4 H2). lia.
Qed.

(** What the alignment has done when it stands in the world [w]. *)
Record aligning a w : Prop := {
  al_same : same_world divisibility (align_world a) w;
  al_good : Good orphans w;
  al_registered : registered w = registered (world p);
  al_orders x o : orders w !! x = Some o → is_Some (orders (world p) !! x);
  al_untouched b i : bt_get b (new_cursors a) = None → orders w !! (b, i) = orders (world p) !! (b, i);
  al_moved b new : bt_get b (new_cursors a) = Some new → ∃ self old last,
    OrderBooks p !! b = Some self ∧ cursors !! b = Some old ∧
    orders (world p) !! (b, new) = Some last ∧ ¬ passed_by old new ∧
    ∀ i o, orders w !! (b, i) = Some o → (step self | inner (LimitOrder.amount o)) ∨
      orders (world p) !! (b, i) = Some o ∧ (raw_key i ≤ raw_key new → passed_by old i);
  al_wf : bt_wf (new_cursors a);
  al_finished self : self ∈ finished a → bt_get (OrderBook.order_book_id self) (new_cursors a) = None ∧ ∃ old,
    OrderBooks p !! OrderBook.order_book_id self = Some self ∧
    cursors !! OrderBook.order_book_id self = Some old ∧
    ∀ i o, orders (world p) !! (OrderBook.order_book_id self, i) = Some o → passed_by old i
}.

Context (Hbooks : books_ok divisibility (OrderBooks p)).

(** The orders read from the cursor of a book that is not touched yet. *)
Section book.
Context (a : Alignment (L := L)) (w : World Storage L) (self : OrderBook.t) (old : OrderId) (n : nat).
Abbreviation b := (OrderBook.order_book_id self).
Abbreviation os := (get_limit_orders (data (world p)) b (Some old) n).
Context (Ha : aligning a w) (Hnew : bt_get b (new_cursors a) = None).

Lemma read_entry i o : (i, o) ∈ firstn n (after (data (world p)) b old) →
  orders w !! (b, i) = Some o ∧ orders (world p) !! (b, i) = Some o ∧ ¬ passed_by old i ∧
  LimitOrder.id o = i.
Proof.
  intros (k & Hk & _)%elem_of_take. apply list_elem_of_lookup_2, elem_of_after in Hk as [Hi Hp].
  pose proof Hi as Hw. rewrite <- (al_untouched _ _ Ha _ _ Hnew) in Hw. split_and!; try done.
  by apply (inv_order _ _ (st_inv _ _ _ (good_state _ _ _ (al_good _ _ Ha)))) in Hw as [? _].
Qed.

Lemma read_ids : LimitOrder.id <$> os = (firstn n (after (data (world p)) b old)).*1.
Proof.
  rewrite get_limit_orders_after, <- list_fmap_compose. apply list_fmap_ext.
  intros k [i o] Hk%list_elem_of_lookup_2. by apply read_entry.
Qed.

Lemma read_align : operation_ok divisibility self orphans (Align os) w.
Proof.
  split.
  - rewrite read_ids. apply ascending_NoDup, ascending_take, after_ascending.
  - rewrite get_limit_orders_after. intros o ([i o'] & -> & Ho)%list_elem_of_fmap.
    apply read_entry in Ho as (Hw & _ & _ & Hid). cbn. by rewrite Hid.
Qed.

(** The last order read, and what is read up to it. *)
Lemma read_last last : list.last os = Some last →
  orders (world p) !! (b, LimitOrder.id last) = Some last ∧ ¬ passed_by old (LimitOrder.id last) ∧
  ∀ i o, orders (world p) !! (b, i) = Some o → raw_key i ≤ raw_key (LimitOrder.id last) →
    i ∈ LimitOrder.id <$> os ∨ passed_by old i.
Proof.
  rewrite read_ids, get_limit_orders_after, fmap_last.
  destruct (list.last (firstn n _)) as [[j o']|] eqn:E; [|done]. cbn. intros [= ->].
  pose proof E as (_ & Hj & Hp & Hid)%last_Some_elem_of%read_entry. subst j. split; [done|]. split; [done|].
  intros i o Hi Hle. destruct (decide (passed_by old i)) as [|Hn]; [by right|left].
  apply (list_elem_of_fmap_2 fst _ (i, o)).
  eapply ascending_prefix; [apply after_ascending|exact E|by apply elem_of_after|done].
Qed.
End book.

(** One book is aligned from its cursor on. *)
Lemma align_book_step a w self old n last wt c : aligning a w →
  OrderBooks p !! OrderBook.order_book_id self = Some self →
  cursors !! OrderBook.order_book_id self = Some old →
  bt_get (OrderBook.order_book_id self) (new_cursors a) = None →
  (∀ self', self' ∈ finished a → OrderBook.order_book_id self' ≠ OrderBook.order_book_id self) →
  let os := get_limit_orders (data (world p)) (OrderBook.order_book_id self) (Some old) n in
  list.last os = Some last →
  OrderBook.align_limit_orders self os (align_world a) = (Ok tt, c) →
  ∃ w', aligning (mkAlignment (bt_insert (OrderBook.order_book_id self) (LimitOrder.id last) (new_cursors a))
                    (finished a) wt c) w'.
Proof.
  intros Ha Hself Hold Hnew Hfin os Hlast Hr. destruct (Hbooks _ _ Hself) as [_ Hbook].
  pose proof (read_align a w self old n Ha Hnew) as Hop. fold os in Hop.
  pose proof (align_sim divisibility self orphans Hbook os _ _ (al_same _ _ Ha) (al_good _ _ Ha) Hop) as Hsim.
  rewrite Hr in Hsim. unfold sim_run in Hsim.
  destruct (OrderBook.align_limit_orders self os w) as [[[]|e] w'] eqn:Hrun; [|done].
  destruct Hsim as [_ Hsame]. exists w'.
  pose proof (align_keeps divisibility self orphans Hbook Hinj _ _ _ (al_good _ _ Ha) Hop Hrun) as Hg.
  destruct (align_evolution divisibility self orphans Hbook Hinj _ _ _ (al_good _ _ Ha) Hop Hrun)
    as [[Er Hother Hown] Hal].
  destruct (read_last a w self old n Ha Hnew _ Hlast) as (Hl & Hlp & Hcov).
  split; cbn; try done.
  - rewrite Er. apply Ha.
  - intros [b i] o Ho. destruct (decide (b = OrderBook.order_book_id self)) as [->|Hne].
    + apply Hown in Ho as [[o' Ho']|[=]]. by eapply (al_orders _ _ Ha).
    + rewrite Hother in Ho by done. by eapply (al_orders _ _ Ha).
  - intros b i. destruct (decide (b = OrderBook.order_book_id self)) as [->|Hne].
    + by rewrite bt_get_insert_eq.
    + rewrite bt_get_insert_ne by (by intros ?%cmp_eq). intros Hb. rewrite Hother by done. by apply Ha.
  - intros b new. destruct (decide (b = OrderBook.order_book_id self)) as [->|Hne].
    + rewrite bt_get_insert_eq. intros [= <-]. exists self, old, last. split_and!; try done.
      intros i o Ho. destruct (Hal i o Ho) as [[_ ?]|[Hi Ho']]; [by left|right].
      rewrite (al_untouched _ _ Ha _ _ Hnew) in Ho'. split; [done|]. intros Hle. by destruct (Hcov i o Ho' Hle).
    + rewrite bt_get_insert_ne by (by intros ?%cmp_eq).
      intros (self' & old' & last' & ? & ? & ? & ? & Hm)%(al_moved _ _ Ha).
      exists self', old', last'. split_and!; try done. intros i o. rewrite Hother by done. apply Hm.
  - apply bt_wf_insert, Ha.
  - intros self' Hs. rewrite bt_get_insert_ne by (intros ?%cmp_eq; by eapply Hfin). by apply Ha.
Qed.

(** A book without orders after its cursor is finished. *)
Lemma finish_book_step a w self old n wt : aligning a w →
  OrderBooks p !! OrderBook.order_book_id self = Some self →
  cursors !! OrderBook.order_book_id self = Some old →
  bt_get (OrderBook.order_book_id self) (new_cursors a) = None → (0 < n)%nat →
  list.last (get_limit_orders (data (world p)) (OrderBook.order_book_id self) (Some old) n) = None →
  aligning (mkAlignment (new_cursors a) (finished a ++ [self]) wt (align_world a)) w.
Proof.
  intros Ha Hself Hold Hnew Hn Hlast. destruct Ha as [? ? ? ? ? ? ? Hf]. split; try done. cbn.
  intros self' [Hin| ->%list_elem_of_singleton]%elem_of_app; [by apply Hf|].
  split; [done|]. exists old. split_and!; try done. intros i o Hi. rewrite get_limit_orders_after, fmap_last in Hlast.
  apply fmap_None in Hlast. apply last_nil_take in Hlast; [|done].
  destruct (decide (passed_by old i)) as [|Hp]; [done|].
  assert ((i, o) ∈ after (data (world p)) (OrderBook.order_book_id self) old) as Hin by by apply elem_of_after.
  rewrite Hlast in Hin. by apply elem_of_nil in Hin.
Qed.

Lemma alignment_loop_ok rest a w a' : NoDup rest.*1 →
  (∀ b old, (b, old) ∈ rest → cursors !! b = Some old ∧ bt_get b (new_cursors a) = None ∧
     ∀ self, self ∈ finished a → OrderBook.order_book_id self ≠ b) →
  aligning a w → alignment_loop p rest a = inl a' → ∃ w', aligning a' w'.
Proof.
  revert a w. induction rest as [|[b old] rest IH]; intros a w Hnd Hrest Ha Hr; cbn in Hr.
  { injection Hr as <-. by exists w. }
  cbn in Hnd. apply NoDup_cons in Hnd as [Hb Hnd].
  destruct (can_consume (align_weight a) align_single_order) eqn:Hc; cbn [negb] in Hr;
    [|injection Hr as <-; by exists w].
  apply count_positive in Hc. cbn in Hc.
  destruct (OrderBooks p !! b) as [self|] eqn:Hself; [|done].
  set (n := Z.to_nat _) in Hr. assert (0 < n)%nat as Hn by (unfold n; lia).
  destruct (Hrest b old) as (Hold & Hnew & Hfin); [left|]. destruct (Hbooks _ _ Hself) as [<- _].
  destruct (list.last _) as [last|] eqn:Hlast.
  - destruct (OrderBook.align_limit_orders _ _ _) as [[[]|e] c] eqn:Hal; [|done].
    eapply align_book_step in Hal as [w1 Hw1]; [|done..]. eapply IH in Hr; [done|done| |exact Hw1].
    intros b' old' Hin. cbn. destruct (Hrest b' old') as (? & ? & ?); [by right|].
    split; [done|]. split; [|done]. rewrite bt_get_insert_ne; [done|]. intros ->%cmp_eq. apply Hb.
    by apply (list_elem_of_fmap_2 fst _ (_, old')).
  - eapply finish_book_step in Hlast; [|done..]. eapply IH in Hr; [done|done| |exact Hlast].
    intros b' old' Hin. destruct (Hrest b' old') as (? & ? & Hf); [by right|]. split; [done|].
    split; [done|]. cbn. intros self' [Hs| ->%list_elem_of_singleton]%elem_of_app; [by apply Hf|].
    intros <-. apply Hb. by apply (list_elem_of_fmap_2 fst _ (_, old')).
Qed.

Definition start (weight : WeightMeter) : Alignment := mkAlignment [] [] weight (open_cache (world p)).

(** The first book is served in any case. *)
Definition served (b : OrderBookId) a : Prop :=
  is_Some (bt_get b (new_cursors a)) ∨ b ∈ OrderBook.order_book_id <$> finished a.

Lemma served_later b rest a a' : served b a → alignment_loop p rest a = inl a' → served b a'.
Proof.
  revert a. induction rest as [|[b' old] rest IH]; intros a Hs Hr; cbn in Hr; [by injection Hr as <-|].
  destruct (negb _); [by injection Hr as <-|]. destruct (OrderBooks p !! b') as [self|]; [|done].
  destruct (list.last _) as [last|]; [destruct (OrderBook.align_limit_orders _ _ _) as [[u|e] c]; [|done]|];
    (eapply IH; [|exact Hr]); unfold served in *; cbn [new_cursors finished].
  - destruct Hs as [[new Hs]|Hs]; [left|by right].
    destruct (decide (b = b')) as [->|Hne]; [by rewrite bt_get_insert_eq|].
    rewrite bt_get_insert_ne by (by intros ?%cmp_eq). by eexists.
  - rewrite fmap_app. set_solver.
Qed.

Lemma first_served b old rest a a' : can_consume (align_weight a) align_single_order = true →
  alignment_loop p ((b, old) :: rest) a = inl a' → served b a'.
Proof.
  intros Hc Hr. cbn in Hr. rewrite Hc in Hr. cbn in Hr. destruct (OrderBooks p !! b) as [self|] eqn:Hself; [|done].
  destruct (Hbooks _ _ Hself) as [<- _].
  destruct (list.last _) as [last|]; [destruct (OrderBook.align_limit_orders _ _ _) as [[u|e] c]; [|done]|];
    (eapply served_later; [|exact Hr]); unfold served; cbn [new_cursors finished].
  - left. by rewrite bt_get_insert_eq.
  - right. rewrite fmap_app. set_solver.
Qed.

Lemma start_aligning weight : Good orphans (world p) → aligning (start weight) (world p).
Proof.
  intros Hg. split; cbn; try done.
  - apply open_same, Hg.
  - constructor.
  - by intros self ?%elem_of_nil.
Qed.

(** The cursors and books that a finished round writes. *)
Definition write_cursors (l : list (OrderBookId * OrderId)) (p : Pallet L) : Pallet L :=
  fold_left (λ p '(id, cursor), set_cursors (<[id := cursor]> (AlignmentCursor p)) p) l p.

Lemma write_cursors_spec l q : NoDup l.*1 →
  world (write_cursors l q) = world q ∧ OrderBooks (write_cursors l q) = OrderBooks q ∧
  IncompleteExpirationsSince (write_cursors l q) = IncompleteExpirationsSince q ∧
  (∀ b k, (b, k) ∈ l → AlignmentCursor (write_cursors l q) !! b = Some k) ∧
  (∀ b, b ∉ l.*1 → AlignmentCursor (write_cursors l q) !! b = AlignmentCursor q !! b).
Proof.
  revert q. induction l as [|[b k] l IH]; intros q Hnd; cbn.
  { split_and!; try done. by intros b k ?%elem_of_nil. }
  cbn in Hnd. apply NoDup_cons in Hnd as [Hb Hnd].
  destruct (IH (set_cursors (<[b := k]> (AlignmentCursor q)) q) Hnd) as (E1 & E2 & E3 & Hin & Hout).
  split_and!; try done.
  - intros b' k' [[= -> ->]|Hl]%elem_of_cons; [|by apply Hin].
    unfold write_cursors in Hout. rewrite Hout by done. apply lookup_insert_eq.
  - intros b' [Hne Hl]%not_elem_of_cons. unfold write_cursors in Hout. rewrite Hout by done.
    by apply lookup_insert_ne.
Qed.

Definition finish_books (l : list OrderBook.t) (q : Pallet L) : Pallet L :=
  fold_left (λ p b, finish_alignment b p) l q.

Lemma finish_books_spec l q :
  world (finish_books l q) = world q ∧
  IncompleteExpirationsSince (finish_books l q) = IncompleteExpirationsSince q ∧
  (∀ b, b ∈ OrderBook.order_book_id <$> l → AlignmentCursor (finish_books l q) !! b = None ∧
     ∃ self, self ∈ l ∧ OrderBook.order_book_id self = b ∧
       OrderBooks (finish_books l q) !! b = Some (set_ready self)) ∧
  (∀ b, b ∉ OrderBook.order_book_id <$> l →
     AlignmentCursor (finish_books l q) !! b = AlignmentCursor q !! b ∧
     OrderBooks (finish_books l q) !! b = OrderBooks q !! b).
Proof.
  revert q. induction l as [|b l IH]; intros q; cbn.
  { split_and!; try done. by intros b ?%elem_of_nil. }
  destruct (IH (finish_alignment b q)) as (E1 & E2 & Hin & Hout). unfold finish_books in *.
  split; [done|]. split; [done|]. split.
  - intros b' Hb'. destruct (decide (b' ∈ OrderBook.order_book_id <$> l)) as [Hl|Hn].
    + destruct (Hin b' Hl) as [? (self & ? & ? & ?)]. split; [done|]. exists self. split_and!; try done.
      by right.
    + apply elem_of_cons in Hb' as [->|?]; [|done]. destruct (Hout _ Hn) as [-> ->]. cbn.
      rewrite lookup_delete_eq, lookup_insert_eq. split; [done|]. exists b. split_and!; try done. left.
  - intros b' [Hne Hn]%not_elem_of_cons. destruct (Hout _ Hn) as [-> ->]. cbn.
    by rewrite lookup_delete_ne, lookup_insert_ne.
Qed.

(** What a round makes of a book. *)
Inductive fate (p' : Pallet L) (b : OrderBookId) : Prop :=
| untouched :
    OrderBooks p' !! b = OrderBooks p !! b → AlignmentCursor p' !! b = cursors !! b →
    (∀ i, orders (world p') !! (b, i) = orders (world p) !! (b, i)) → fate p' b
| advanced self old new last :
    OrderBooks p !! b = Some self → OrderBooks p' !! b = Some self →
    cursors !! b = Some old → AlignmentCursor p' !! b = Some new →
    orders (world p) !! (b, new) = Some last → ¬ passed_by old new →
    (∀ i o, orders (world p') !! (b, i) = Some o → (step self | inner (LimitOrder.amount o)) ∨
       orders (world p) !! (b, i) = Some o ∧ (raw_key i ≤ raw_key new → passed_by old i)) → fate p' b
| completed self old :
    OrderBooks p !! b = Some self → OrderBooks p' !! b = Some (set_ready self) →
    cursors !! b = Some old → AlignmentCursor p' !! b = None →
    (∀ i, orders (world p') !! (b, i) = orders (world p) !! (b, i)) →
    (∀ i o, orders (world p) !! (b, i) = Some o → passed_by old i) → fate p' b.

Record round (weight : WeightMeter) (p' : Pallet L) : Prop := {
  rd_good : Good orphans (world p');
  rd_registered : registered (world p') = registered (world p);
  rd_orders x o : orders (world p') !! x = Some o → is_Some (orders (world p) !! x);
  rd_since : IncompleteExpirationsSince p' = IncompleteExpirationsSince p;
  rd_fate b : fate p' b;
  rd_moves : can_consume weight align_single_order = true → cursors ≠ ∅ → ∃ b old,
    cursors !! b = Some old ∧
    (AlignmentCursor p' !! b = None ∨
     ∃ new last, AlignmentCursor p' !! b = Some new ∧ orders (world p) !! (b, new) = Some last ∧
       ¬ passed_by old new)
}.

Lemma service_alignment_round weight : Good orphans (world p) →
  (∀ b, alignment_loop p (storage_iter cursors) (start weight) ≠ inr b) →
  round weight (snd (service_alignment weight p)).
Proof.
  intros Hg Hok. unfold service_alignment. fold (start weight).
  destruct (can_consume weight align_single_order) eqn:Hc; cbn [negb snd].
  2: { split; try done; [|congruence]. intros b. by apply untouched. }
  destruct (storage_iter_entries cursors) as [Hnd Hiter].
  destruct (alignment_loop p _ (start weight)) as [a|a] eqn:Hloop; [|by destruct (Hok a)].
  assert (cursors ≠ ∅ → ∃ b old, cursors !! b = Some old ∧ served b a) as Hserved.
  { intros Hne. destruct (storage_iter cursors) as [|[b old] rest] eqn:Ei.
    - destruct Hne. apply map_empty. intros b. apply eq_None_not_Some. intros [old Hb%Hiter].
      by apply elem_of_nil in Hb.
    - exists b, old. split; [apply Hiter; left|]. by eapply (first_served _ _ _ (start weight)). }
  eapply alignment_loop_ok in Hloop as [w Ha]; [|done| |by apply start_aligning].
  2: { intros b old Hb%Hiter. split_and!; try done. by intros self ?%elem_of_nil. }
  rewrite (commit_same _ _ _ (al_same _ _ Ha)). cbn [snd].
  fold (write_cursors (new_cursors a) (set_world w p)).
  fold (finish_books (finished a) (write_cursors (new_cursors a) (set_world w p))).
  destruct (write_cursors_spec (new_cursors a) (set_world w p)) as (W1 & W2 & W3 & Win & Wout);
    [by apply bt_wf_NoDup_keys, Ha|].
  set (q := write_cursors _ _) in *.
  destruct (finish_books_spec (finished a) q) as (F1 & F2 & Fin & Fout). set (p' := finish_books _ _) in *.
  cbn in W1, W2, W3. split; rewrite ?F1, ?W1, ?F2, ?W3; try done; try apply Ha.
  { intros b. destruct (decide (b ∈ OrderBook.order_book_id <$> finished a)) as [Hf|Hf].
  - destruct (Fin b Hf) as (Hcu & self & Hs & <- & Hb).
    destruct (al_finished _ _ Ha _ Hs) as (Hnew & old & ? & ? & Hall).
    eapply (completed _ _ self old); try done. intros i. rewrite F1, W1. by apply Ha.
  - destruct (Fout b Hf) as [Hcu Hb]. destruct (bt_get b (new_cursors a)) as [new|] eqn:Hnew.
    + destruct (al_moved _ _ Ha _ _ Hnew) as (self & old & last & ? & ? & ? & ? & Hal).
      eapply (advanced _ _ self old new last); try done.
      * by rewrite Hb, W2.
      * rewrite Hcu. apply Win. by apply bt_get_elem_eq.
      * by rewrite F1, W1.
    + apply untouched.
      * by rewrite Hb, W2.
      * rewrite Hcu. apply Wout. intros ([b' k] & -> & Hk)%list_elem_of_fmap.
        apply bt_elem_get in Hk; [|apply Ha]. cbn in *. congruence.
      * intros i. rewrite F1, W1. by apply Ha. }
  intros _ (b & old & Hold & [[new Hnew]|Hf])%Hserved; exists b, old; (split; [done|]);
    [right|left; by apply Fin].
  destruct (al_moved _ _ Ha _ _ Hnew) as (self & old' & last & ? & ? & ? & ? & _). simplify_eq.
  exists new, last. split_and!; try done.
  destruct (Fout b) as [-> _]; [|by apply Win, bt_get_elem_eq].
  intros (self' & -> & Hs)%list_elem_of_fmap. apply (al_finished _ _ Ha) in Hs as [? _]. congruence.
Qed.
End loop.

(** ** Progress *)

Section progress.
Context {Cfg : Config} {Wt : Weights} {WI : WeightInfo} {WL : WeightsLaws} {SK : StorageKeys}.
Context (divisibility : OrderBookId → bool).
Context {L : Type} `{MultiCurrencyLaws L} {TA : TechAccounts}.
Context (Hinj : tech_injective) (Hratio : 0 < SOFT_MIN_MAX_RATIO).
Implicit Types (p : Pallet L).
Abbreviation orders p := (LimitOrders (data (world p))).

(** What is left to do: the orders no cursor has passed yet, and a last visit for
    every book. *)
Definition unaligned p : gset (OrderBookId * option OrderId) :=
  list_to_set (map_to_list (AlignmentCursor p) ≫= λ '(b, cursor),
    (b, None) :: ((λ '(i, _), (b, Some i)) <$> after (data (world p)) b cursor)).

Lemma elem_of_unaligned p b i : (b, i) ∈ unaligned p ↔ ∃ cursor, AlignmentCursor p !! b = Some cursor ∧
  match i with
  | None => True
  | Some i => is_Some (orders p !! (b, i)) ∧ ¬ passed_by cursor i
  end.
Proof.
  unfold unaligned. rewrite elem_of_list_to_set, list_elem_of_bind. split.
  - intros ([b' cu] & Hx & Hc%elem_of_map_to_list).
    apply elem_of_cons in Hx as [[= -> ->]|([j o] & [= -> ->] & [Ho Hp]%elem_of_after)%list_elem_of_fmap];
      eauto 10.
  - intros (cu & Hc & Hi). exists (b, cu). split; [|by apply elem_of_map_to_list].
    destruct i as [i|]; [|left]. destruct Hi as [[o Ho] Hp]. right.
    apply list_elem_of_fmap. exists (i, o). split; [done|]. by apply elem_of_after.
Qed.

Lemma round_progress p orphans weight p' : (∀ b i o, orders p !! (b, i) = Some o → 0 < i) →
  round divisibility p orphans weight p' → can_consume weight align_single_order = true →
  AlignmentCursor p ≠ ∅ → unaligned p' ⊂ unaligned p.
Proof.
  intros Hids [_ _ Ho _ Hfate Hmoves] Hc Hne. split.
  - intros [b i]. rewrite !elem_of_unaligned. intros (cu & Hcu & Hi).
    destruct (Hfate b) as [_ Ecu Eo|self old new last _ _ Hold Hnew Hlast Hp _|self old _ _ _ Hnone _ _];
      [| |congruence].
    + exists cu. rewrite <- Ecu. split; [done|]. by destruct i; rewrite <- ?Eo.
    + exists old. split; [done|]. assert (cu = new) as -> by congruence.
      destruct i as [i|]; [|done]. destruct Hi as [[o Hi] Hnp]. split; [by eapply Ho|].
      apply Hids in Hlast. unfold passed_by in *. intros [? ?]. apply Hnp. split; [lia|].
      destruct (decide (raw_key new ≤ raw_key old)); [|lia]. by destruct Hp.
  - destruct (Hmoves Hc Hne) as (b & old & Hold & [Hnone|(new & last & Hnew & Hlast & Hp)]); intros Hsub.
    + specialize (Hsub (b, None)). rewrite !elem_of_unaligned in Hsub. destruct Hsub as (cu & Hcu & _); [eauto|].
      congruence.
    + specialize (Hsub (b, Some new)). rewrite !elem_of_unaligned in Hsub.
      destruct Hsub as (cu & Hcu & _ & Hnp); [by eauto 10|]. assert (cu = new) as -> by congruence.
      apply Hnp. apply Hids in Hlast. split; lia.
Qed.
End progress.
