(* ===== verification/Pallet.v ===== *)
(** * The extrinsics of the order book ([pallets/order-book/src/lib.rs])

    The pallet with the registry of exchanges and trading pairs it stands on.
    The origins that may create and edit order books, the divisibility of the
    assets and the reference counts of accounts come from the runtime and the
    framework: they are parameters. *)

From S2P Require Import Prelude BTreeMap FixedPoint Units OrderTypes DataLayer CacheLayer World.
From S2P Require Import TradingPair OrderBook WorldRefine Scheduler.

(** ** Parameters *)

(** [T::PermittedCreateOrigin], [T::PermittedEditOrigin] and [ensure_signed]: an
    origin may create a book as a user ([inl]) or with full rights ([inr]). *)
Class Origins := {
  Origin : Type;
  permitted_create : Origin → option (AccountId + unit);
  permitted_edit : Origin → bool;
  signed : Origin → option AccountId
}.

(** [T::AssetInfoProvider]: the precision of an asset is fixed at registration. *)
Class AssetInfo (L : Type) := {
  is_non_divisible : AssetId → bool;
  total_balance : L → AssetId → AccountId → result DispatchError Balance
}.

(** [frame_system::inc_providers] and [dec_providers]. *)
Class Providers (L : Type) := {
  inc_providers : AccountId → L → L;
  dec_providers : AccountId → M L DispatchError unit
}.

(** ** State *)

Record Chain (L : Type) := mkChain {
  pallet : Pallet L;
  market : Market
}.
Arguments mkChain {L} pallet market.
Arguments pallet {L} _.
Arguments market {L} _.

Section extrinsics.
Context {Cfg : Config} {SK : StorageKeys} {OR : Origins}.
Context {L : Type} `{MultiCurrency L} {TA : TechAccounts} {AI : AssetInfo L} {PR : Providers L}.
Abbreviation C := (M (Chain L) DispatchError).

Definition set_pallet (p : Pallet L) (c : Chain L) : Chain L := mkChain p (market c).
Definition set_market (m : Market) (c : Chain L) : Chain L := mkChain (pallet c) m.
Definition on_pallet {E A} (f : M (Pallet L) E A) : M (Chain L) E A := zoom pallet set_pallet f.
Definition on_market {E A} (f : M Market E A) : M (Chain L) E A := zoom market set_market f.
Definition on_world {E A} (f : M (World Storage L) E A) : M (Chain L) E A :=
  on_pallet (zoom world set_world f).

Definition books (c : Chain L) : Books := OrderBooks (pallet c).
Definition insert_book (id : OrderBookId) (b : OrderBook.t) : C unit :=
  modify (λ c, set_pallet (set_books (<[id := b]> (books c)) (pallet c)) c).

(** [let mut data = CacheDataLayer::new(); ..; data.commit()]: without the commit
    the changes of the data are lost. *)
Definition through_cache {A} (f : M (World CacheDataLayer.t L) DispatchError A) : C A :=
  on_world (λ w,
    match f (open_cache w) with
    | (Ok a, w') => (Ok a, commit_cache w')
    | (Err e, w') => (Err e, drop_cache w')
    end).

(** The framework rolls back the storage when an extrinsic fails. *)
Definition transactional {A} (f : C A) : C A := λ c,
  match f c with
  | (Ok a, c') => (Ok a, c')
  | (Err e, _) => (Err e, c)
  end.

Definition permitted {A} (o : option A) : C A := ok_or o BadOrigin.

(** ** Technical accounts ([technical::register_tech_account_id],
    [deregister_tech_account_id]) *)

Definition register_tech_account (id : OrderBookId) : C unit :=
  let account := tech_account id in
  on_world (modify (λ w,
    set_registered (<[account := id]> (registered w))
      (if bool_decide (is_Some (registered w !! account)) then w
       else set_ledger (inc_providers account (ledger w)) w))).

Definition deregister_tech_account (id : OrderBookId) : C unit :=
  let account := tech_account id in
  on_world (
    w ← get_state;
    if bool_decide (is_Some (registered w !! account)) then
      _ ← on_ledger (dec_providers account);
      modify (λ w, set_registered (delete account (registered w)) w)
    else mret tt).

(** ** Creation *)

Definition allowed_dex (dex : DEXId) : bool :=
  (dex =? 0) || (dex =? 2) || (dex =? 3) || (dex =? 4).

Definition assemble_order_book_id (dex : DEXId) (input_asset output_asset : AssetId) (m : Market)
    : option OrderBookId :=
  if bool_decide (input_asset = output_asset) then None else
  match fst (DexManager.get_dex_info dex m) with
  | Err _ => None
  | Ok dex_info =>
      if bool_decide (dex_base_asset_id dex_info = input_asset) then
        Some {| dex_id := dex; base := output_asset; quote := dex_base_asset_id dex_info |}
      else if bool_decide (dex_base_asset_id dex_info = output_asset) then
        Some {| dex_id := dex; base := input_asset; quote := dex_base_asset_id dex_info |}
      else None
  end.

Definition verify_create_orderbook_params (id : OrderBookId) : C unit :=
  _ ← ensure (negb (bool_decide (base id = quote id)))
        (OrderBookError ForbiddenToCreateOrderBookWithSameAssets);
  _ ← ensure (allowed_dex (dex_id id)) (OrderBookError NotAllowedDEXId);
  dex_info ← on_market (DexManager.get_dex_info (dex_id id));
  _ ← ensure (bool_decide (quote id = dex_base_asset_id dex_info)) (OrderBookError NotAllowedQuoteAsset);
  c ← get_state;
  _ ← TradingPairs.ensure_asset_exists (ledger (world (pallet c))) (base id);
  _ ← on_market (TradingPairs.ensure_trading_pair_exists (dex_id id) (quote id) (base id));
  ensure (negb (bool_decide (is_Some (books c !! id)))) (OrderBookError OrderBookAlreadyExists).

Definition verify_orderbook_attributes (id : OrderBookId)
    (tick_size step_lot_size min_lot_size max_lot_size : Balance) : result DispatchError unit :=
  _ ← ensure (0 <? tick_size) (OrderBookError InvalidTickSize);
  _ ← ensure (0 <? step_lot_size) (OrderBookError InvalidStepLotSize);
  _ ← ensure (0 <? min_lot_size) (OrderBookError InvalidMinLotSize);
  _ ← ensure (0 <? max_lot_size) (OrderBookError InvalidMaxLotSize);
  _ ← ensure (min_lot_size <=? max_lot_size) (OrderBookError InvalidMaxLotSize);
  _ ← ensure (step_lot_size <=? min_lot_size) (OrderBookError InvalidMinLotSize);
  _ ← ensure (step_lot_size <=? max_lot_size) (OrderBookError InvalidMaxLotSize);
  _ ← ensure (min_lot_size mod step_lot_size =? 0) (OrderBookError InvalidMinLotSize);
  _ ← ensure (max_lot_size mod step_lot_size =? 0) (OrderBookError InvalidMaxLotSize);
  _ ← ensure (max_lot_size <=? sat_mul u128_max min_lot_size SOFT_MIN_MAX_RATIO)
        (OrderBookError InvalidMaxLotSize);
  if negb (is_non_divisible (base id)) then
    product ← ok_or (FixedWrapper.lossless_mul (FixedWrapper.from_int tick_size)
                       (FixedWrapper.from_int step_lot_size))
                (OrderBookError TickSizeAndStepLotSizeLosePrecision);
    match FixedWrapper.try_into_balance product with
    | Ok _ => mret tt
    | Err _ => mthrow (OrderBookError TickSizeAndStepLotSizeAreTooBig)
    end
  else mret tt.

(** [OrderVolume::divisible] or [OrderVolume::indivisible]. *)
Definition volume_of (id : OrderBookId) (amount : Balance) : OrderVolume :=
  if is_non_divisible (base id) then BalanceUnit.indivisible amount else BalanceUnit.divisible amount.

Definition create_orderbook_unchecked (id : OrderBookId)
    (tick_size step_lot_size min_lot_size max_lot_size : Balance) : C unit :=
  let order_book :=
    OrderBook.new id (BalanceUnit.divisible tick_size) (volume_of id step_lot_size)
      (volume_of id min_lot_size) (volume_of id max_lot_size) in
  _ ← insert_book id order_book;
  register_tech_account id.

Definition inner_create_orderbook (id : OrderBookId)
    (tick_size step_lot_size min_lot_size max_lot_size : Balance) : C unit :=
  _ ← verify_create_orderbook_params id;
  _ ← lift (verify_orderbook_attributes id tick_size step_lot_size min_lot_size max_lot_size);
  _ ← on_market (TradingPairs.enable_source_for_trading_pair (dex_id id) (quote id) (base id)
                   OrderBookSource);
  create_orderbook_unchecked id tick_size step_lot_size min_lot_size max_lot_size.

Definition create_orderbook (origin : Origin) (id : OrderBookId)
    (tick_size step_lot_size min_lot_size max_lot_size : Balance) : C unit :=
  origin_check_result ← permitted (permitted_create origin);
  maybe_who ←
    match origin_check_result with
    | inl who =>
        if is_non_divisible (base id) then
          c ← get_state;
          held ← lift (total_balance (ledger (world (pallet c))) (base id) who);
          _ ← ensure (0 <? held) (OrderBookError UserHasNoNft);
          mret (Some who)
        else mthrow BadOrigin
    | inr _ => mret None
    end;
  _ ← inner_create_orderbook id tick_size step_lot_size min_lot_size max_lot_size;
  on_world (deposit_event (OrderBookCreated id maybe_who)).

(** ** Edition *)

Definition get_book (id : OrderBookId) : C OrderBook.t :=
  c ← get_state;
  ok_or (books c !! id) (OrderBookError UnknownOrderBook).

(** [OnlyCancel] or [Stop]. *)
Definition is_closed (s : OrderBookStatus) : bool :=
  match s with OnlyCancel | Stop => true | _ => false end.

Definition ensure_edit (origin : Origin) : C unit := ensure (permitted_edit origin) BadOrigin.

Definition delete_orderbook (origin : Origin) (id : OrderBookId) : C unit :=
  _ ← ensure_edit origin;
  order_book ← get_book id;
  _ ← ensure (is_closed (OrderBook.status order_book))
        (OrderBookError ForbiddenStatusToDeleteOrderBook);
  c ← get_state;
  let is_empty :=
    match iter_prefix (LimitOrders (data (world (pallet c)))) id with [] => true | _ => false end in
  _ ← ensure is_empty (OrderBookError OrderBookIsNotEmpty);
  _ ← on_market (TradingPairs.disable_source_for_trading_pair (dex_id id) (quote id) (base id)
                   OrderBookSource);
  _ ← deregister_tech_account id;
  _ ← modify (λ c, set_pallet (set_books (delete id (books c)) (pallet c)) c);
  on_world (deposit_event (OrderBookDeleted id)).

Definition set_attributes (b : OrderBook.t) (tick_size step_lot_size min_lot_size max_lot_size : Balance)
    (tech_status : OrderBookTechStatus) : OrderBook.t :=
  OrderBook.mk (OrderBook.order_book_id b) (OrderBook.status b) (OrderBook.last_order_id b)
    (BalanceUnit.set (OrderBook.tick_size b) tick_size)
    (BalanceUnit.set (OrderBook.step_lot_size b) step_lot_size)
    (BalanceUnit.set (OrderBook.min_lot_size b) min_lot_size)
    (BalanceUnit.set (OrderBook.max_lot_size b) max_lot_size) tech_status.

Definition update_orderbook (origin : Origin) (id : OrderBookId)
    (tick_size step_lot_size min_lot_size max_lot_size : Balance) : C unit :=
  _ ← ensure_edit origin;
  order_book ← get_book id;
  _ ← ensure (bool_decide (OrderBook.tech_status order_book = Ready)) (OrderBookError OrderBookIsLocked);
  _ ← ensure (is_closed (OrderBook.status order_book))
        (OrderBookError ForbiddenStatusToUpdateOrderBook);
  _ ← lift (verify_orderbook_attributes id tick_size step_lot_size min_lot_size max_lot_size);
  _ ← ensure (max_lot_size <=? sat_mul u128_max
                (BalanceUnit.balance (OrderBook.min_lot_size order_book)) HARD_MIN_MAX_RATIO)
        (OrderBookError InvalidMaxLotSize);
  let prev_step_lot_size := OrderBook.step_lot_size order_book in
  let misaligned := negb (BalanceUnit.balance prev_step_lot_size mod step_lot_size =? 0) in
  let order_book :=
    set_attributes order_book tick_size step_lot_size min_lot_size max_lot_size
      (if misaligned then Updating else OrderBook.tech_status order_book) in
  _ ← (if misaligned
       then modify (λ c, set_pallet (set_cursors (<[id := 0]> (AlignmentCursor (pallet c))) (pallet c)) c)
       else mret tt);
  _ ← insert_book id order_book;
  on_world (deposit_event (OrderBookUpdated id)).

Definition set_status (b : OrderBook.t) (status : OrderBookStatus) : OrderBook.t :=
  OrderBook.mk (OrderBook.order_book_id b) status (OrderBook.last_order_id b)
    (OrderBook.tick_size b) (OrderBook.step_lot_size b) (OrderBook.min_lot_size b)
    (OrderBook.max_lot_size b) (OrderBook.tech_status b).

Definition change_orderbook_status (origin : Origin) (id : OrderBookId) (status : OrderBookStatus)
    : C unit :=
  _ ← ensure_edit origin;
  order_book ← get_book id;
  _ ← ensure (negb (bool_decide (OrderBook.tech_status order_book = Updating) &&
                    negb (is_closed status))) (OrderBookError OrderBookIsLocked);
  _ ← insert_book id (set_status order_book status);
  on_world (deposit_event (OrderBookStatusChanged id status)).

(** ** Orders

    [now] is the time and [current_block] the number of the block the extrinsic
    is in. *)

Definition inner_place_limit_order (now : Moment) (current_block : BlockNumber) (owner : AccountId)
    (id : OrderBookId) (price amount : Balance) (side : PriceVariant) (lifespan : option Moment)
    : C nat :=
  order_book ← get_book id;
  let '(order_id, order_book) := OrderBook.next_order_id order_book in
  let lifespan := default MAX_ORDER_LIFESPAN lifespan in
  let order :=
    LimitOrder.new order_id owner side (BalanceUnit.divisible price) (volume_of id amount) now
      lifespan current_block in
  executed_orders_count ← through_cache (OrderBook.place_limit_order order_book order);
  _ ← insert_book id order_book;
  mret executed_orders_count.

(** Returns whether the weight of a placement without a deal is charged. *)
Definition place_limit_order (now : Moment) (current_block : BlockNumber) (origin : Origin)
    (id : OrderBookId) (price amount : Balance) (side : PriceVariant) (lifespan : option Moment)
    : C bool :=
  who ← permitted (signed origin);
  executed_orders_count ← inner_place_limit_order now current_block who id price amount side lifespan;
  mret (Nat.eqb executed_orders_count 0).

(** The cancellation of one order, of [cancel_limit_order] and of every order of
    [cancel_limit_orders_batch]. *)
Definition cancel_one {D} `{DataLayer D} (books : Books) (who : AccountId) (id : OrderBookId)
    (order_id : OrderId) : M (World D L) DispatchError unit :=
  order ← on_data (get_limit_order id order_id);
  _ ← ensure (bool_decide (LimitOrder.owner order = who)) (OrderBookError Unauthorized);
  order_book ← ok_or (books !! id) (OrderBookError UnknownOrderBook);
  OrderBook.cancel_limit_order order_book order.

Definition cancel_batch {D} `{DataLayer D} (books : Books) (who : AccountId)
    (limit_orders_to_cancel : list (OrderBookId * list OrderId)) : M (World D L) DispatchError unit :=
  for_each limit_orders_to_cancel (λ '(id, order_ids),
    for_each order_ids (λ order_id, cancel_one books who id order_id)).

Definition cancel_limit_order (origin : Origin) (id : OrderBookId) (order_id : OrderId) : C unit :=
  who ← permitted (signed origin);
  c ← get_state;
  through_cache (cancel_one (books c) who id order_id).

Definition cancel_limit_orders_batch (origin : Origin)
    (limit_orders_to_cancel : list (OrderBookId * list OrderId)) : C unit :=
  who ← permitted (signed origin);
  c ← get_state;
  through_cache (cancel_batch (books c) who limit_orders_to_cancel).

Definition execute_market_order (origin : Origin) (id : OrderBookId) (direction : PriceVariant)
    (amount : Balance) : C unit :=
  who ← permitted (signed origin);
  _ ← ensure (is_non_divisible (base id)) (OrderBookError MarketOrdersAllowedOnlyForIndivisibleAssets);
  order_book ← get_book id;
  let amount := BalanceUnit.indivisible amount in
  let market_order := MarketOrder.new who direction id amount None in
  _ ← through_cache (OrderBook.execute_market_order order_book market_order);
  mret tt.
End extrinsics.
