(* ===== verification/Soundness.v ===== *)
(** * The invariant of the order book pallet

    [Sound] is what every extrinsic and every block keeps: the storage is
    consistent, the books are solvent, the stored books are verified, the open
    orders belong to stored books and, unless the book is being aligned, are whole
    lots of its step. *)

From S2P Require Import Prelude BTreeMap FixedPoint Units OrderTypes DataLayer StorageProps.
From S2P Require Import CacheStorage CacheProps CacheLayer CacheRefine LayerSpec World Payments TradingPair.
From S2P Require Import OrderBook Matching Priority CrossSpread BookState Solvency Operations.
From S2P Require Import SampleLedger WorldRefine Effects Lots Scheduler Expiration Alignment Pallet.

(** ** The invariant of the pallet *)

Section sound.
Context {Cfg : Config} {SK : StorageKeys} {OR : Origins}.
Context {L : Type} `{MultiCurrencyLaws L} {TA : TechAccounts} {AI : AssetInfo L} {PR : Providers L}.
Implicit Types (w : World Storage L) (books : Books) (cursors : gmap OrderBookId OrderId).
Abbreviation orders w := (LimitOrders (data w)).

Definition divisibility (b : OrderBookId) : bool := negb (is_non_divisible (base b)).
Abbreviation Good := (Operations.Good divisibility).

(** A stored book: its attributes have passed the verification. *)
Record book_wf (b : OrderBookId) (self : OrderBook.t) : Prop := {
  bw_id : OrderBook.order_book_id self = b;
  bw_assets : base b ≠ quote b;
  bw_tick : BalanceUnit.is_divisible (OrderBook.tick_size self) = true ∧
            0 < inner (OrderBook.tick_size self);
  bw_step : BalanceUnit.is_divisible (OrderBook.step_lot_size self) = divisibility b ∧
            0 < inner (OrderBook.step_lot_size self);
  bw_min : amount_ok (divisibility b) (OrderBook.min_lot_size self);
  bw_max : amount_ok (divisibility b) (OrderBook.max_lot_size self);
  bw_lots : inner (OrderBook.min_lot_size self) ≤ inner (OrderBook.max_lot_size self) ∧
            (inner (OrderBook.step_lot_size self) | inner (OrderBook.min_lot_size self)) ∧
            (inner (OrderBook.step_lot_size self) | inner (OrderBook.max_lot_size self));
  bw_last : 0 ≤ OrderBook.last_order_id self;
  bw_exact : is_non_divisible (base b) = false →
    (10 ^ 18 | inner (OrderBook.tick_size self) * inner (OrderBook.step_lot_size self))
}.

(** The books: verified, and closed with a pending alignment while updating. *)
Definition books_wf books cursors : Prop := ∀ b self, books !! b = Some self →
  book_wf b self ∧
  (OrderBook.tech_status self = Updating →
     is_closed (OrderBook.status self) = true ∧ is_Some (cursors !! b)).

(** The alignment has passed the order. *)
Definition passed cursors (b : OrderBookId) (i : OrderId) : Prop :=
  ∃ cursor, cursors !! b = Some cursor ∧ passed_by cursor i.

Definition lots_ok books cursors (m : gmap entry LimitOrder.t) : Prop :=
  ∀ b self i o, books !! b = Some self → m !! (b, i) = Some o →
    OrderBook.tech_status self = Ready ∨ passed cursors b i →
    (inner (OrderBook.step_lot_size self) | inner (LimitOrder.amount o)).

(** The open orders belong to stored books, under ids that were given out. *)
Definition orders_known books (m : gmap entry LimitOrder.t) : Prop :=
  ∀ b i o, m !! (b, i) = Some o →
    ∃ self, books !! b = Some self ∧ 0 < i ≤ OrderBook.last_order_id self.

Record sound_world books cursors w : Prop := {
  sw_good : ∃ orphans, Good orphans w ∧ ∀ x, x ∈ orphans → is_Some (orders w !! x);
  sw_orders : orders_known books (orders w);
  sw_lots : lots_ok books cursors (orders w);
  sw_accounts b self : books !! b = Some self → is_Some (registered w !! tech_account b)
}.

Lemma book_wf_ok b self : book_wf b self → book_ok divisibility self.
Proof.
  intros [<- ? ? [? ?] ? ? ? ? _]. split; done.
Qed.

(** Orphans that are not open any more can be forgotten. *)
Lemma open_orphans orphans w : Good orphans w →
  ∃ orphans, Good orphans w ∧ ∀ x, x ∈ orphans → is_Some (orders w !! x).
Proof.
  intros Hg. exists (filter (λ x, is_Some (orders w !! x)) orphans). split.
  - eapply Good_pending; [exact Hg|]. intros x Hx. rewrite list_elem_of_filter. naive_solver.
  - intros x [? _]%list_elem_of_filter. done.
Qed.

(** An operation of a book keeps the world sound. *)
Lemma sound_evolution books cursors self orphans w w' : books_wf books cursors →
  books !! OrderBook.order_book_id self = Some self → sound_world books cursors w →
  Good orphans w' → evolution self None w w' →
  (∀ i o', orders w' !! (OrderBook.order_book_id self, i) = Some o' →
     OrderBook.tech_status self = Ready ∨ passed cursors (OrderBook.order_book_id self) i →
     (inner (OrderBook.step_lot_size self) | inner (LimitOrder.amount o'))) →
  sound_world books cursors w'.
Proof.
  intros Hbooks Hself [_ Ho Hl Ha] Hg [Er Hother Hown] Hlots. split.
  - by eapply open_orphans.
  - intros b i o Hb. destruct (decide (b = OrderBook.order_book_id self)) as [->|Hne].
    + apply Hown in Hb as [[o' Ho']|[=]]. by eapply Ho.
    + rewrite Hother in Hb by done. by eapply Ho.
  - intros b self' i o Hb Hi. destruct (decide (b = OrderBook.order_book_id self)) as [->|Hne].
    + rewrite Hself in Hb. injection Hb as <-. by apply Hlots.
    + rewrite Hother in Hi by done. by eapply Hl.
  - intros b self' Hb. rewrite Er. by eapply Ha.
Qed.

(** ** Cancellation *)

Section operations.
Context (Hinj : tech_injective).

Lemma book_of books cursors b self : books_wf books cursors → books !! b = Some self →
  OrderBook.order_book_id self = b ∧ book_ok divisibility self.
Proof. intros Hb Hs. apply Hb in Hs as [Hw _]. split; [apply Hw|by eapply book_wf_ok]. Qed.

Lemma get_order_inv b i o w w' : Inv divisibility (data w) →
  on_data (get_limit_order b i) w = (Ok o, w') → w' = w ∧ orders w !! (b, i) = Some o ∧ LimitOrder.id o = i.
Proof.
  intros HI (s & Hr & ->)%zoom_ok. cbn in Hr. unfold StorageDataLayer.get_limit_order in Hr. run.
  split; [apply set_data_same|]. split; [done|]. by eapply inv_order.
Qed.

Lemma cancel_one_inv books cursors who b i w w' : books_wf books cursors →
  sound_world books cursors w → cancel_one books who b i w = (Ok tt, w') →
  sound_world books cursors w' ∧
  ∃ self o, books !! b = Some self ∧ OrderBook.status self ≠ Stop ∧
    orders w !! (b, i) = Some o ∧ LimitOrder.owner o = who ∧ orders w' = delete (b, i) (orders w) ∧
    ∀ a x, free_balance (ledger w') a x = free_balance (ledger w) a x
             + moved (owed_asset b o) who (owed_of o) a x
             - moved (owed_asset b o) (tech_account b) (owed_of o) a x.
Proof.
  intros Hbooks Hs Hr. pose proof (sw_good _ _ _ Hs) as (orphans & Hg & _).
  pose proof (st_inv _ _ _ (good_state _ _ _ Hg)) as HI.
  apply M_bind_ok in Hr as (o & w1 & (-> & Ho & <-)%get_order_inv & Hr); [|done].
  apply M_bind_ok in Hr as ([] & w1 & [<-%bool_decide_eq_true ->]%M_ensure_ok & Hr).
  apply M_bind_ok in Hr as (self & w1 & [Hself ->]%M_ok_or_ok & Hr).
  destruct (book_of _ _ _ _ Hbooks Hself) as [<- Hbook].
  apply M_bind_ok in Hr as ([] & w1 & [Hst ->]%M_ensure_ok & Hr).
  pose proof (cancel_unchecked_effect divisibility self orphans Hbook Hinj _ _ _ _ _ Hg Ho Hr)
    as (Hg' & Eo & _ & Eb).
  destruct (cancel_evolution divisibility self orphans Hbook Hinj _ _ _ _ _ Hg Ho Hr) as [Hev _].
  split.
  - eapply sound_evolution; [done..|]. intros i o'. rewrite Eo. intros [_ Hi]%lookup_delete_Some Hp.
    eapply (sw_lots _ _ _ Hs); [exact Hself|exact Hi|done].
  - exists self, o. split_and!; try done. by destruct (OrderBook.status self).
Qed.

Lemma cancel_batch_sound books cursors who l w w' : books_wf books cursors →
  sound_world books cursors w → cancel_batch books who l w = (Ok tt, w') →
  sound_world books cursors w'.
Proof.
  intros Hbooks Hs. unfold cancel_batch.
  apply (for_each_ok_ind (λ _ w, sound_world books cursors w)); [|done].
  intros [b ids] _ w1 w2 Hs1. apply (for_each_ok_ind (λ _ w, sound_world books cursors w)); [|done].
  intros i _ w3 w4 Hs3 Hr. by eapply cancel_one_inv.
Qed.

(** The same through the cache. *)
Lemma cancel_one_sim books who b i :
  sim (same_world (L := L) (D := CacheDataLayer.t) divisibility) unrelated eq
    (cancel_one books who b i) (cancel_one books who b i).
Proof.
  unfold cancel_one. eapply (sim_bind _ _ eq); [apply (on_data_sim divisibility), lr_get_limit_order|intros o ? <-].
  eapply (sim_bind _ _ eq); [apply sim_ensure, err_unrelated|intros _ _ _].
  eapply (sim_bind _ _ eq); [apply sim_ok_or, err_unrelated|intros self ? <-].
  eapply (sim_bind _ _ eq); [apply sim_ensure, err_unrelated|intros _ _ _]. apply (cancel_unchecked_sim divisibility).
Qed.

Lemma cancel_batch_sim books who l :
  sim (same_world (L := L) (D := CacheDataLayer.t) divisibility) unrelated eq
    (cancel_batch books who l) (cancel_batch books who l).
Proof.
  apply for_each_sim. intros [b ids].
  apply for_each_sim. intros i. apply cancel_one_sim.
Qed.

(** ** Placement *)

Lemma next_book b self : book_wf b self → book_wf b (snd (OrderBook.next_order_id self)).
Proof.
  intros []. split; try done. cbn. unfold sat_add, u128_max in *. lia.
Qed.

(** The id given out next is not in use. *)
Lemma next_id_fresh books self w : orders_known books (orders w) →
  books !! OrderBook.order_book_id self = Some self → OrderBook.last_order_id self < u128_max →
  orders w !! (OrderBook.order_book_id self, fst (OrderBook.next_order_id self)) = None ∧
  OrderBook.last_order_id self < fst (OrderBook.next_order_id self).
Proof.
  intros Hk Hself Hlast.
  assert (OrderBook.last_order_id self < fst (OrderBook.next_order_id self)) as Hlt.
  { cbn. unfold sat_add. lia. }
  split; [|done]. apply eq_None_not_Some. intros [o (self' & Hs & Hle)%Hk].
  rewrite Hself in Hs. injection Hs as <-. lia.
Qed.

Lemma place_open {D} `{DataLayer D} self o (w w' : World D L) n : OrderBook.place_limit_order self o w = (Ok n, w') →
  is_closed (OrderBook.status self) = false.
Proof.
  intros Hr. apply M_bind_ok in Hr as ([] & w1 & [Hst _]%M_ensure_ok & _). by destruct (OrderBook.status self).
Qed.

Lemma execute_open {D} `{DataLayer D} self (o : MarketOrder.t) r (w w' : World D L) :
  OrderBook.execute_market_order self o w = (Ok r, w') → is_closed (OrderBook.status self) = false.
Proof.
  intros Hr. apply M_bind_ok in Hr as ([] & w1 & [Hst _]%M_ensure_ok & _). by destruct (OrderBook.status self).
Qed.

(** An open book is not being aligned. *)
Lemma open_ready books cursors b self : books_wf books cursors → books !! b = Some self →
  is_closed (OrderBook.status self) = false → OrderBook.tech_status self = Ready.
Proof.
  intros Hbooks Hs Ho. apply Hbooks in Hs as [_ Hu]. destruct (OrderBook.tech_status self); [done|].
  destruct (Hu eq_refl) as [? _]. congruence.
Qed.

Lemma ready_lots books cursors self w : sound_world books cursors w →
  books !! OrderBook.order_book_id self = Some self → OrderBook.tech_status self = Ready →
  in_lots self (orders w).
Proof. intros Hs Hself Hr i o Ho. eapply (sw_lots _ _ _ Hs); [exact Hself|exact Ho|by left]. Qed.

Lemma placement_ok books cursors self0 orphans o w : sound_world books cursors w →
  books !! OrderBook.order_book_id self0 = Some self0 → OrderBook.last_order_id self0 < u128_max →
  (∀ x, x ∈ orphans → is_Some (orders w !! x)) →
  LimitOrder.id o = fst (OrderBook.next_order_id self0) →
  order_ok divisibility (OrderBook.order_book_id self0) o → user_account (LimitOrder.owner o) →
  supply_fits (ledger w) →
  operation_ok divisibility (snd (OrderBook.next_order_id self0)) orphans (Place o) w.
Proof.
  intros Hs Hself Hlast Hopen Hid Hok Hu Hsup. split_and!; try done. intros [? Hx]%Hopen.
  destruct (next_id_fresh _ _ _ (sw_orders _ _ _ Hs) Hself Hlast) as [Hn _].
  rewrite Hid in Hx. cbn in *. congruence.
Qed.

Lemma place_sound books cursors self0 o w n w' : books_wf books cursors →
  sound_world books cursors w → books !! OrderBook.order_book_id self0 = Some self0 →
  OrderBook.last_order_id self0 < u128_max → LimitOrder.id o = fst (OrderBook.next_order_id self0) →
  order_ok divisibility (OrderBook.order_book_id self0) o → user_account (LimitOrder.owner o) →
  supply_fits (ledger w) →
  OrderBook.place_limit_order (snd (OrderBook.next_order_id self0)) o w = (Ok n, w') →
  sound_world (<[OrderBook.order_book_id self0 := snd (OrderBook.next_order_id self0)]> books) cursors w'.
Proof.
  intros Hbooks Hs Hself Hlast Hid Hok Hu Hsup Hr. set (self := snd (OrderBook.next_order_id self0)) in *.
  pose proof (sw_good _ _ _ Hs) as (orphans & Hg & Hopen).
  pose proof (placement_ok _ _ _ _ _ _ Hs Hself Hlast Hopen Hid Hok Hu Hsup) as Hop.
  assert (book_ok divisibility self) as Hbook by (eapply book_wf_ok, next_book, Hbooks; done).
  pose proof (open_ready _ _ _ _ Hbooks Hself (place_open _ _ _ _ _ Hr)) as Hready.
  pose proof (place_keeps divisibility self orphans Hbook Hinj _ _ _ _ Hg Hop Hr) as Hg'.
  destruct (place_evolution divisibility self orphans Hbook Hinj _ _ _ _ Hg Hop Hr) as [[Er Hother Hown] Hlots].
  specialize (Hlots (ready_lots _ _ _ _ Hs Hself Hready)). split.
  - by eapply open_orphans.
  - intros b i o' Hi. destruct (decide (b = OrderBook.order_book_id self0)) as [->|Hne].
    + exists self. split; [apply lookup_insert_eq|]. destruct (next_id_fresh _ _ _ (sw_orders _ _ _ Hs) Hself Hlast) as [_ Hlt].
      apply Hown in Hi as [[o0 (s & Hs0 & Hle)%(sw_orders _ _ _ Hs)]|[= <-]].
      * change (books !! OrderBook.order_book_id self0 = Some s) in Hs0.
        rewrite Hself in Hs0. injection Hs0 as <-. cbn in *. lia.
      * rewrite Hid. cbn in *. pose proof (bw_last _ _ (proj1 (Hbooks _ _ Hself))). lia.
    + rewrite Hother in Hi by done. rewrite lookup_insert_ne by done. by eapply (sw_orders _ _ _ Hs).
  - intros b self' i o' Hb Hi. destruct (decide (b = OrderBook.order_book_id self0)) as [->|Hne].
    + rewrite lookup_insert_eq in Hb. injection Hb as <-. intros _. by eapply Hlots.
    + rewrite lookup_insert_ne in Hb by done. rewrite Hother in Hi by done. by eapply (sw_lots _ _ _ Hs).
  - intros b self' Hb. rewrite Er. destruct (decide (b = OrderBook.order_book_id self0)) as [->|Hne].
    + by eapply (sw_accounts _ _ _ Hs).
    + rewrite lookup_insert_ne in Hb by done. by eapply (sw_accounts _ _ _ Hs).
Qed.

Lemma execute_sound books cursors self (o : MarketOrder.t) r w w' : books_wf books cursors →
  sound_world books cursors w → books !! OrderBook.order_book_id self = Some self →
  amount_ok (divisibility (OrderBook.order_book_id self)) (MarketOrder.amount o) →
  user_account (MarketOrder.owner o) → OrderBook.execute_market_order self o w = (Ok r, w') →
  sound_world books cursors w'.
Proof.
  intros Hbooks Hs Hself Ha Hu Hr. pose proof (sw_good _ _ _ Hs) as (orphans & Hg & _).
  destruct (book_of _ _ _ _ Hbooks Hself) as [_ Hbook].
  pose proof (open_ready _ _ _ _ Hbooks Hself (execute_open _ _ _ _ _ Hr)) as Hready.
  pose proof (execute_keeps divisibility self orphans Hbook Hinj _ _ _ _ Hg (conj Ha Hu) Hr) as Hg'.
  destruct (execute_evolution divisibility self orphans Hbook Hinj _ _ _ _ Hg (conj Ha Hu) Hr) as [Hev Hlots].
  specialize (Hlots (ready_lots _ _ _ _ Hs Hself Hready)).
  eapply sound_evolution; [done..|]. intros i o' Hi _. by eapply Hlots.
Qed.
End operations.
End sound.

(** ** The chain *)

(** What the runtime and the framework promise: signed origins are no accounts of
    order books; a provider reference changes no balance, and giving one up can at
    most reap the account itself. *)
Class RuntimeLaws {OR : Origins} {L : Type} `{MultiCurrency L} {TA : TechAccounts} {PR : Providers L}
    : Prop := {
  signed_user origin who : signed origin = Some who → user_account who;
  inc_providers_balance account l a x : free_balance (inc_providers account l) a x = free_balance l a x;
  dec_providers_balance account l l' a x : dec_providers account l = (Ok tt, l') →
    (x ≠ account → free_balance l' a x = free_balance l a x) ∧
    (0 ≤ free_balance l a x → 0 ≤ free_balance l' a x)
}.

Section chain.
Context {Cfg : Config} {SK : StorageKeys} {OR : Origins}.
Context {L : Type} `{MultiCurrencyLaws L} {TA : TechAccounts} {AI : AssetInfo L} {PR : Providers L}.
Context {RL : RuntimeLaws} (Hinj : tech_injective).
Implicit Types (c : Chain L) (p : Pallet L) (w : World Storage L).
Abbreviation orders w := (LimitOrders (data w)).
Abbreviation cursors p := (AlignmentCursor p).

Record Sound p : Prop := {
  sound_books : books_wf (OrderBooks p) (cursors p);
  sound_state : sound_world (OrderBooks p) (cursors p) (world p)
}.

Lemma sound_inv p : Sound p → Inv divisibility (data (world p)).
Proof. intros [_ [(? & [[? _] _] & _) _ _ _]]. done. Qed.

(** Changes beside the data and the agenda. *)
Lemma sound_frame books cursors w w' : sound_world books cursors w →
  data w' = data w → agenda w' = agenda w →
  (∀ a b, owed (orders w) b a ≤ free_balance (ledger w') a (tech_account b)) →
  (∀ b self, books !! b = Some self → is_Some (registered w' !! tech_account b)) →
  sound_world books cursors w'.
Proof.
  intros [(orphans & [[HI Ha] _] & Ho) Hk Hl _] Ed Ea Hf Hr. split; rewrite ?Ed; try done.
  exists orphans. split; [|done]. split; [split; by rewrite ?Ed, ?Ea|]. intros b a. rewrite Ed. apply Hf.
Qed.

Lemma sound_solvent books cursors w : sound_world books cursors w →
  ∀ a b, owed (orders w) b a ≤ free_balance (ledger w) a (tech_account b).
Proof. intros [(orphans & [_ Hs] & _) _ _ _] a b. apply Hs. Qed.

Lemma sound_events books cursors ev w : sound_world books cursors w →
  sound_world books cursors (set_events ev w).
Proof.
  intros Hs. eapply sound_frame; [done..| |]; cbn.
  - by eapply sound_solvent.
  - apply Hs.
Qed.

Lemma deposit_sound ev c c' : Sound (pallet c) → on_world (E := DispatchError) (deposit_event ev) c = (Ok tt, c') →
  Sound (pallet c').
Proof.
  intros [Hb Hs] (p & (w & ->%M_modify_ok & ->)%zoom_ok & ->)%zoom_ok. split; [done|].
  by apply sound_events.
Qed.

(** Nothing but the market changes. *)
Definition market_only {A} (f : M (Chain L) DispatchError A) : Prop :=
  ∀ c a c', f c = (Ok a, c') → pallet c' = pallet c.

Lemma on_market_only {A} (f : M Market DispatchError A) : market_only (on_market f).
Proof. by intros c a c' (m & _ & ->)%zoom_ok. Qed.

(** *** Orders, through the cache *)

Lemma through_cache_ok {A} (f : M (World CacheDataLayer.t L) DispatchError A)
    (g : M (World Storage L) DispatchError A) c a c' : Inv divisibility (data (world (pallet c))) →
  sim_run (same_world divisibility) unrelated eq (f (open_cache (world (pallet c)))) (g (world (pallet c))) →
  through_cache f c = (Ok a, c') →
  ∃ w', g (world (pallet c)) = (Ok a, w') ∧ c' = set_pallet (set_world w' (pallet c)) c.
Proof.
  intros HI Hs (p & (w & Hr & ->)%zoom_ok & ->)%zoom_ok. unfold sim_run in Hs.
  destruct (f _) as [[a1|e] w1], (g _) as [[a2|e'] w2]; try done. injection Hr as -> <-.
  destruct Hs as [<- ->%commit_same]. by eexists.
Qed.

Lemma cancel_limit_order_sound origin b i c c' : Sound (pallet c) →
  cancel_limit_order origin b i c = (Ok tt, c') → Sound (pallet c').
Proof.
  intros Hs Hr. unfold cancel_limit_order in Hr.
  apply M_bind_ok in Hr as (who & c1 & [Hwho ->]%M_ok_or_ok & Hr).
  apply M_bind_ok in Hr as (c2 & c1 & [-> ->]%M_get_state_ok & Hr).
  eapply through_cache_ok in Hr as (w' & Hr & ->);
    [|by apply sound_inv|by apply cancel_one_sim, open_same, sound_inv].
  destruct Hs as [Hb Hw]. split; [done|]. by eapply cancel_one_inv in Hr as [? _].
Qed.

Lemma cancel_batch_sound_chain origin l c c' : Sound (pallet c) →
  cancel_limit_orders_batch origin l c = (Ok tt, c') → Sound (pallet c').
Proof.
  intros Hs Hr. unfold cancel_limit_orders_batch in Hr.
  apply M_bind_ok in Hr as (who & c1 & [Hwho ->]%M_ok_or_ok & Hr).
  apply M_bind_ok in Hr as (c2 & c1 & [-> ->]%M_get_state_ok & Hr).
  eapply through_cache_ok in Hr as (w' & Hr & ->);
    [|by apply sound_inv|by apply cancel_batch_sim, open_same, sound_inv].
  destruct Hs as [Hb Hw]. split; [done|]. by eapply cancel_batch_sound.
Qed.

Lemma through_cache_run {A} (f : M (World CacheDataLayer.t L) DispatchError A) c a c' :
  through_cache f c = (Ok a, c') → ∃ w1 : World CacheDataLayer.t L, f (open_cache (world (pallet c))) = (Ok a, w1).
Proof.
  intros (p & (w & Hr & ->)%zoom_ok & ->)%zoom_ok.
  destruct (f _) as [[a1|e] w1]; [|done]. injection Hr as -> <-. by eexists.
Qed.

Lemma place_valid {D} `{DataLayer D} self o (w w' : World D L) n :
  OrderBook.place_limit_order self o w = (Ok n, w') → OrderBook.ensure_limit_order_valid self o = Ok tt.
Proof.
  intros Hr. apply M_bind_ok in Hr as (? & w1 & [_ ->]%M_ensure_ok & Hr).
  by apply M_bind_ok in Hr as ([] & w1 & [Hv _]%M_lift_ok & _).
Qed.

Lemma volume_of_ok b n : is_u128 n → amount_ok (divisibility b) (volume_of b n) ∧ inner (volume_of b n) = n.
Proof. intros Hn. unfold volume_of, divisibility. by destruct (is_non_divisible (base b)). Qed.

Lemma valid_order_ok b self i who side price amount now lifespan block :
  is_u128 price → is_u128 amount →
  OrderBook.ensure_limit_order_valid self
    (LimitOrder.new i who side (BalanceUnit.divisible price) (volume_of b amount) now lifespan block) = Ok tt →
  order_ok divisibility b
    (LimitOrder.new i who side (BalanceUnit.divisible price) (volume_of b amount) now lifespan block).
Proof.
  intros Hp Ha Hv. unfold OrderBook.ensure_limit_order_valid, LimitOrder.ensure_valid in Hv. run. cbn in *.
  destruct (volume_of_ok b amount Ha) as [[Hd Hw] Hi]. unfold BalanceUnit.is_zero in *. cbn in *. zbool.
  unfold is_u128 in *. split; cbn; try done; lia.
Qed.

Lemma get_book_ok b self c c' : get_book b c = (Ok self, c') → c' = c ∧ books c !! b = Some self.
Proof.
  intros Hr. apply M_bind_ok in Hr as (c2 & c1 & [-> ->]%M_get_state_ok & [Hb ->]%M_ok_or_ok). done.
Qed.

Lemma books_next p b self : books_wf (OrderBooks p) (cursors p) → OrderBooks p !! b = Some self →
  books_wf (<[b := snd (OrderBook.next_order_id self)]> (OrderBooks p)) (cursors p).
Proof.
  intros Hb Hself b' self'. destruct (decide (b' = b)) as [->|Hne].
  - rewrite lookup_insert_eq. intros [= <-]. destruct (Hb _ _ Hself) as [Hw Hu]. split; [by apply next_book|done].
  - rewrite lookup_insert_ne by done. apply Hb.
Qed.

Lemma place_limit_order_sound now block origin b price amount side lifespan c r c' :
  Sound (pallet c) → is_u128 price → is_u128 amount → supply_fits (ledger (world (pallet c))) →
  (∀ self, books c !! b = Some self → OrderBook.last_order_id self < u128_max) →
  place_limit_order now block origin b price amount side lifespan c = (Ok r, c') → Sound (pallet c').
Proof.
  intros Hs Hp Ha Hsup Hlast Hr. unfold place_limit_order in Hr.
  apply M_bind_ok in Hr as (who & c1 & [Hwho%signed_user ->]%M_ok_or_ok & Hr).
  apply M_bind_ok in Hr as (n & c1 & Hr & [_ ->]%M_ret_ok).
  apply M_bind_ok in Hr as (self & c2 & [-> Hself]%get_book_ok & Hr). specialize (Hlast _ Hself).
  destruct (OrderBook.next_order_id self) as [i self1] eqn:Hnext.
  apply M_bind_ok in Hr as (n' & c2 & Hr & Hr').
  pose proof Hr as [w1 Hv%place_valid]%through_cache_run. apply valid_order_ok in Hv; [|done..].
  pose proof Hs as [Hb Hw]. destruct (Hb _ _ Hself) as [Hwf _]. pose proof (bw_id _ _ Hwf) as Hid.
  pose proof (sw_good _ _ _ Hw) as (orphans & Hg & Hopen).
  assert (i = fst (OrderBook.next_order_id self) ∧ self1 = snd (OrderBook.next_order_id self)) as [-> ->]
    by by rewrite Hnext.
  set (o := LimitOrder.new _ _ _ _ _ _ _ _) in *. rewrite <- Hid in Hself, Hv.
  pose proof (placement_ok _ _ _ orphans o _ Hw Hself Hlast Hopen eq_refl Hv Hwho Hsup) as Hop.
  assert (book_ok divisibility (snd (OrderBook.next_order_id self))) as Hbook
    by by eapply book_wf_ok, next_book.
  eapply through_cache_ok in Hr as (w' & Hr & ->);
    [|by apply sound_inv|by eapply place_sim; [..|apply open_same, sound_inv| |]].
  eapply place_sound in Hr; [|done..]. apply M_bind_ok in Hr' as ([] & c3 & ->%M_modify_ok & [_ ->]%M_ret_ok).
  rewrite <- Hid at 1. cbn. split; cbn; [by apply books_next|done].
Qed.

Lemma execute_market_order_sound origin b dir amount c c' : Sound (pallet c) → is_u128 amount →
  execute_market_order origin b dir amount c = (Ok tt, c') → Sound (pallet c').
Proof.
  intros Hs Ha Hr. unfold execute_market_order in Hr.
  apply M_bind_ok in Hr as (who & c1 & [Hwho%signed_user ->]%M_ok_or_ok & Hr).
  apply M_bind_ok in Hr as ([] & c1 & [Hdiv ->]%M_ensure_ok & Hr).
  apply M_bind_ok in Hr as (self & c2 & [-> Hself]%get_book_ok & Hr).
  apply M_bind_ok in Hr as (n & c1 & Hr & [_ ->]%M_ret_ok).
  pose proof Hs as [Hb Hw]. destruct (book_of _ _ _ _ Hb Hself) as [Hid Hbook]. subst b.
  pose proof (sw_good _ _ _ Hw) as (orphans & Hg & Hopen).
  set (o := MarketOrder.new _ _ _ _ _) in *.
  assert (amount_ok (divisibility (OrderBook.order_book_id self)) (MarketOrder.amount o)) as Hok.
  { split; [|done]. cbn. unfold divisibility. by rewrite Hdiv. }
  eapply through_cache_ok in Hr as (w' & Hr & ->);
    [|by apply sound_inv|by eapply (execute_sim divisibility _ orphans); [..|apply open_same, sound_inv| |]].
  split; [done|]. by eapply execute_sound.
Qed.

(** *** Editing the books *)

(** The attributes a verified book may have. *)
Record attributes_ok (b : OrderBookId) (tick_size step_lot_size min_lot_size max_lot_size : Z) : Prop := {
  at_tick : 0 < tick_size;
  at_step : 0 < step_lot_size;
  at_order : step_lot_size ≤ min_lot_size ≤ max_lot_size;
  at_lots : (step_lot_size | min_lot_size) ∧ (step_lot_size | max_lot_size);
  at_ratio : max_lot_size ≤ min_lot_size * SOFT_MIN_MAX_RATIO;
  at_exact : is_non_divisible (base b) = false →
    (10 ^ 18 | tick_size * step_lot_size)
}.

Lemma verify_ok b tick step mn mx :
  verify_orderbook_attributes b tick step mn mx = Ok tt → attributes_ok b tick step mn mx.
Proof.
  intros Hv. unfold verify_orderbook_attributes in Hv. run. zbool. unfold sat_mul in *.
  split; try lia.
  - split; apply Z.mod_divide; lia.
  - intros Hd. match goal with Hx : (if _ then _ else _) = _ |- _ => rewrite Hd in Hx; cbn [negb] in Hx; rename Hx into Hm end.
    run. match goal with Hx : FixedWrapper.lossless_mul _ _ = _ |- _ => rename Hx into Hl end.
    unfold FixedWrapper.lossless_mul, FixedWrapper.zip, FixedWrapper.from_int in Hl.
    destruct (Fixed.try_i128 tick) as [t|] eqn:Et, (Fixed.try_i128 step) as [u|] eqn:Eu; cbn in Hl; simplify_eq.
    apply Fixed.try_i128_ok in Et as [-> _], Eu as [-> _].
    destruct (Fixed.lossless_mul tick step) as [[q|]|] eqn:Ep; simplify_eq.
    apply Fixed.lossless_mul_exact in Ep. exists q. done.
Qed.

Lemma create_book_wf b tick step mn mx : base b ≠ quote b → attributes_ok b tick step mn mx →
  is_u128 mx →
  book_wf b (OrderBook.new b (BalanceUnit.divisible tick) (volume_of b step) (volume_of b mn) (volume_of b mx)).
Proof.
  intros Hne [? ? ? [? ?] _ ?] Hmx.
  destruct (volume_of_ok b step) as [[? _] Es]; [unfold is_u128 in *; lia|].
  destruct (volume_of_ok b mn) as [? En]; [unfold is_u128 in *; lia|].
  destruct (volume_of_ok b mx) as [? Ex]; [done|].
  split; cbn; rewrite ?Es, ?En, ?Ex; try done. split_and!; try done; lia.
Qed.

Lemma update_book_wf b self tick step mn mx tech : book_wf b self → attributes_ok b tick step mn mx →
  is_u128 mx → book_wf b (set_attributes self tick step mn mx tech).
Proof.
  intros [? ? [? _] [? _] [? _] [? _] _ ? _] [? ? ? [? ?] _ ?] Hmx. unfold is_u128 in *.
  split; cbn; try done; split_and!; try done; unfold BalanceUnit.wf, is_u128; cbn; lia.
Qed.

(** A new or changed book among the others. *)
Lemma books_insert books cursors cursors' b self : books_wf books cursors → book_wf b self →
  (OrderBook.tech_status self = Updating →
     is_closed (OrderBook.status self) = true ∧ is_Some (cursors' !! b)) →
  (∀ b', b' ≠ b → cursors' !! b' = cursors !! b') → books_wf (<[b := self]> books) cursors'.
Proof.
  intros Hb Hw Hu Hc b' self'. destruct (decide (b' = b)) as [->|Hne].
  - rewrite lookup_insert_eq. by intros [= <-].
  - rewrite lookup_insert_ne, Hc by done. apply Hb.
Qed.

Lemma sound_insert books cursors cursors' b self w : sound_world books cursors w →
  (∀ b', b' ≠ b → cursors' !! b' = cursors !! b') →
  (∀ i o, orders w !! (b, i) = Some o → 0 < i ≤ OrderBook.last_order_id self) →
  (∀ i o, orders w !! (b, i) = Some o → OrderBook.tech_status self = Ready ∨ passed cursors' b i →
     (inner (OrderBook.step_lot_size self) | inner (LimitOrder.amount o))) →
  is_Some (registered w !! tech_account b) →
  sound_world (<[b := self]> books) cursors' w.
Proof.
  intros [Hg Hk Hl Ha] Hc Hlast Hlots Hr. split; [done|..].
  - intros b' i o Hi. destruct (decide (b' = b)) as [->|Hne].
    + exists self. split; [apply lookup_insert_eq|by eapply Hlast].
    + rewrite lookup_insert_ne by done. by eapply Hk.
  - intros b' self' i o. destruct (decide (b' = b)) as [->|Hne].
    + rewrite lookup_insert_eq. intros [= <-]. apply Hlots.
    + rewrite lookup_insert_ne by done. unfold passed. rewrite Hc by done. apply Hl.
  - intros b' self'. destruct (decide (b' = b)) as [->|Hne]; [done|].
    rewrite lookup_insert_ne by done. apply Ha.
Qed.

Lemma verify_params_ok b c c' : verify_create_orderbook_params b c = (Ok tt, c') →
  pallet c' = pallet c ∧ base b ≠ quote b ∧ books c !! b = None.
Proof.
  intros Hr. unfold verify_create_orderbook_params, TradingPairs.ensure_asset_exists in Hr.
  apply M_bind_ok in Hr as ([] & c1 & [Hne%negb_true_iff%bool_decide_eq_false ->]%M_ensure_ok & Hr).
  apply M_bind_ok in Hr as ([] & c1 & [_ ->]%M_ensure_ok & Hr).
  apply M_bind_ok in Hr as (info & c1 & E1%on_market_only & Hr).
  apply M_bind_ok in Hr as ([] & c2 & [_ ->]%M_ensure_ok & Hr).
  apply M_bind_ok in Hr as (? & c2 & [-> ->]%M_get_state_ok & Hr).
  apply M_bind_ok in Hr as ([] & c2 & [_ ->]%M_ensure_ok & Hr).
  apply M_bind_ok in Hr as ([] & c2 & E2%on_market_only & Hr).
  apply M_ensure_ok in Hr as [Hn%negb_true_iff%bool_decide_eq_false ->].
  split; [congruence|]. split; [done|]. apply eq_None_not_Some.
  unfold books in *. by rewrite <- E1.
Qed.

Lemma register_ok b c c' : register_tech_account b c = (Ok tt, c') →
  ∃ w', c' = set_pallet (set_world w' (pallet c)) c ∧ data w' = data (world (pallet c)) ∧
    agenda w' = agenda (world (pallet c)) ∧
    registered w' = <[tech_account b := b]> (registered (world (pallet c))) ∧
    ∀ a x, free_balance (ledger w') a x = free_balance (ledger (world (pallet c))) a x.
Proof.
  intros (p & (w & ->%M_modify_ok & ->)%zoom_ok & ->)%zoom_ok. eexists. split; [done|].
  case_bool_decide; cbn; split_and!; try done. intros a x. apply inc_providers_balance.
Qed.

Lemma create_orderbook_sound origin b tick step mn mx c c' : Sound (pallet c) → is_u128 mx →
  create_orderbook origin b tick step mn mx c = (Ok tt, c') → Sound (pallet c').
Proof.
  intros Hs Hmx Hr. unfold create_orderbook in Hr.
  apply M_bind_ok in Hr as (check & c1 & [_ ->]%M_ok_or_ok & Hr).
  apply M_bind_ok in Hr as (who & c1 & Hwho & Hr).
  assert (c1 = c) as -> by (destruct check; [destruct (is_non_divisible _)|]; run; done).
  apply M_bind_ok in Hr as ([] & c1 & Hc & Hr). eapply deposit_sound; [|exact Hr]. clear Hr c' Hwho.
  unfold inner_create_orderbook, create_orderbook_unchecked in Hc.
  apply M_bind_ok in Hc as ([] & c2 & (E2 & Hne & Hnew)%verify_params_ok & Hc).
  apply M_bind_ok in Hc as ([] & c3 & [Hv%verify_ok ->]%M_lift_ok & Hc).
  apply M_bind_ok in Hc as ([] & c4 & E4%on_market_only & Hc).
  apply M_bind_ok in Hc as ([] & c5 & ->%M_modify_ok & (w' & -> & Ed & Ea & Er & El)%register_ok).
  cbn in *. rewrite E4, E2 in *. destruct Hs as [Hb Hw].
  pose proof (create_book_wf _ _ _ _ _ Hne Hv Hmx) as Hwf. split; cbn; unfold books; rewrite ?E4, ?E2.
  - by eapply books_insert.
  - assert (∀ i, orders (world (pallet c)) !! (b, i) = None) as Hno.
    { intros i. apply eq_None_not_Some. intros [o (self & Hs & _)%(sw_orders _ _ _ Hw)].
      unfold books in Hnew. congruence. }
    eapply sound_insert; [|done|..]; rewrite ?Ed, ?Er.
    + eapply sound_frame; [exact Hw|done..| |].
      * intros a b'. rewrite El. by eapply sound_solvent.
      * intros b' self Hb'. rewrite Er. eapply (sw_accounts _ _ _ Hw) in Hb'.
        destruct (decide (tech_account b' = tech_account b)) as [->|]; [by rewrite lookup_insert_eq|].
        by rewrite lookup_insert_ne by congruence.
    + intros i o Ho. by rewrite Hno in Ho.
    + intros i o Ho. by rewrite Hno in Ho.
    + by rewrite lookup_insert_eq.
Qed.

Lemma deregister_ok b c c' : deregister_tech_account b c = (Ok tt, c') →
  ∃ w', c' = set_pallet (set_world w' (pallet c)) c ∧ data w' = data (world (pallet c)) ∧
    agenda w' = agenda (world (pallet c)) ∧
    registered w' = delete (tech_account b) (registered (world (pallet c))) ∧
    ∀ a x, (x ≠ tech_account b → free_balance (ledger w') a x = free_balance (ledger (world (pallet c))) a x) ∧
      (0 ≤ free_balance (ledger (world (pallet c))) a x → 0 ≤ free_balance (ledger w') a x).
Proof.
  intros (p & (w & Hr & ->)%zoom_ok & ->)%zoom_ok. eexists. split; [done|].
  apply M_bind_ok in Hr as (? & w1 & [-> ->]%M_get_state_ok & Hr). case_bool_decide.
  - apply M_bind_ok in Hr as ([] & w1 & (l & Hl & ->)%zoom_ok & ->%M_modify_ok). cbn.
    split_and!; try done. intros a x. by eapply dec_providers_balance.
  - apply M_ret_ok in Hr as [_ ->]. split_and!; try done. symmetry. apply delete_id.
    by apply eq_None_not_Some.
Qed.

(** What a successful deletion shows of the book. *)
Lemma delete_orderbook_inv origin b c c' : delete_orderbook origin b c = (Ok tt, c') →
  ∃ self c1 c2, books c !! b = Some self ∧ is_closed (OrderBook.status self) = true ∧
    (∀ i, orders (world (pallet c)) !! (b, i) = None) ∧ pallet c1 = pallet c ∧
    deregister_tech_account b c1 = (Ok tt, c2) ∧
    on_world (E := DispatchError) (deposit_event (OrderBookDeleted b))
      (set_pallet (set_books (delete b (books c2)) (pallet c2)) c2) = (Ok tt, c').
Proof.
  intros Hr. unfold delete_orderbook in Hr.
  apply M_bind_ok in Hr as ([] & c1 & [_ ->]%M_ensure_ok & Hr).
  apply M_bind_ok in Hr as (self & c1 & [-> Hself]%get_book_ok & Hr).
  apply M_bind_ok in Hr as ([] & c1 & [Hst ->]%M_ensure_ok & Hr).
  apply M_bind_ok in Hr as (? & c1 & [-> ->]%M_get_state_ok & Hr).
  apply M_bind_ok in Hr as ([] & c1 & [He ->]%M_ensure_ok & Hr).
  apply M_bind_ok in Hr as ([] & c1 & Hm%on_market_only & Hr).
  apply M_bind_ok in Hr as ([] & c2 & Hd & Hr).
  apply M_bind_ok in Hr as ([] & c3 & ->%M_modify_ok & Hr).
  exists self, c1, c2. split_and!; try done. intros i. apply eq_None_not_Some. intros [o Ho].
  apply elem_of_iter_prefix in Ho. destruct (iter_prefix _ _); [|done]. by apply elem_of_nil in Ho.
Qed.

Lemma delete_orderbook_sound origin b c c' : Sound (pallet c) →
  delete_orderbook origin b c = (Ok tt, c') → Sound (pallet c').
Proof.
  intros [Hb Hw] (self & c1 & c2 & Hself & _ & Hno & E1 & Hd & Hr)%delete_orderbook_inv.
  eapply deposit_sound; [|exact Hr]. clear Hr c'.
  apply deregister_ok in Hd as (w' & -> & Ed & Ea & Er & El). cbn in *. rewrite E1 in *.
  unfold books. cbn. split; cbn; rewrite ?E1.
  - intros b' self' [_ Hb']%lookup_delete_Some. by apply Hb.
  - pose proof (sound_solvent _ _ _ Hw) as Hsol. destruct Hw as [(orphans & [[HI Hag] _] & Ho) Hk Hl Ha].
    split; rewrite ?Ed.
    + exists orphans. split; [|done]. split; [split; by rewrite ?Ed, ?Ea|]. intros b' a. rewrite Ed.
      specialize (Hsol a b'). destruct (El a (tech_account b')) as [Heq Hpos].
      destruct (decide (b' = b)) as [->|Hne].
      * rewrite owed_absent in * by done. lia.
      * rewrite Heq; [done|]. by intros ?%Hinj.
    + intros b' i o Hi. destruct (Hk _ _ _ Hi) as (s & Hs & ?). exists s. split; [|done].
      apply lookup_delete_Some. split; [|done]. intros ->. by rewrite Hno in Hi.
    + intros b' s i o [_ Hb']%lookup_delete_Some. by eapply Hl.
    + intros b' s [Hne Hb']%lookup_delete_Some. rewrite Er.
      rewrite lookup_delete_ne by (by intros ?%Hinj). by eapply Ha.
Qed.

Lemma update_orderbook_sound origin b tick step mn mx c c' : Sound (pallet c) → is_u128 mx →
  update_orderbook origin b tick step mn mx c = (Ok tt, c') → Sound (pallet c').
Proof.
  intros [Hb Hw] Hmx Hr. unfold update_orderbook in Hr.
  apply M_bind_ok in Hr as ([] & c1 & [_ ->]%M_ensure_ok & Hr).
  apply M_bind_ok in Hr as (self & c1 & [-> Hself]%get_book_ok & Hr).
  apply M_bind_ok in Hr as ([] & c1 & [Hready%bool_decide_eq_true ->]%M_ensure_ok & Hr).
  apply M_bind_ok in Hr as ([] & c1 & [Hst ->]%M_ensure_ok & Hr).
  apply M_bind_ok in Hr as ([] & c1 & [Hv%verify_ok ->]%M_lift_ok & Hr).
  apply M_bind_ok in Hr as ([] & c1 & [_ ->]%M_ensure_ok & Hr). cbv zeta in Hr.
  apply M_bind_ok in Hr as ([] & c1 & Hc1 & Hr).
  apply M_bind_ok in Hr as ([] & c2 & ->%M_modify_ok & Hr). eapply deposit_sound; [|exact Hr]. clear Hr c'.
  destruct (Hb _ _ Hself) as [Hwf _]. pose proof (proj2 (bw_step _ _ Hwf)) as Hstep.
  assert (∀ i o, orders (world (pallet c)) !! (b, i) = Some o → 0 < i ≤ OrderBook.last_order_id self) as Hlast.
  { intros i o (s & Hs & Hle)%(sw_orders _ _ _ Hw). unfold books in Hself. congruence. }
  pose proof (sw_accounts _ _ _ Hw _ _ Hself) as Hacc.
  destruct (Z.eqb_spec (BalanceUnit.balance (OrderBook.step_lot_size self) mod step) 0) as [Hmod|Hmod];
    cbn [negb] in *.
  - apply M_ret_ok in Hc1 as [_ ->]. unfold books. cbn. rewrite Hready. split; cbn.
    + eapply books_insert; [done|by eapply update_book_wf|done..].
    + eapply sound_insert; try done. intros i o Ho _. cbn.
      transitivity (inner (OrderBook.step_lot_size self)).
      * apply Z.mod_divide; [|done]. pose proof (at_step _ _ _ _ _ Hv). lia.
      * eapply (sw_lots _ _ _ Hw); [exact Hself|exact Ho|by left].
  - apply M_modify_ok in Hc1 as ->. unfold books. cbn. split; cbn.
    + eapply books_insert; [done|by eapply update_book_wf| |].
      * intros _. split; [done|]. by rewrite lookup_insert_eq.
      * intros b' Hne. by rewrite lookup_insert_ne.
    + eapply sound_insert; try done.
      * intros b' Hne. by rewrite lookup_insert_ne.
      * intros i o Ho [?|(cu & Hcu & Hne & _)]; [done|]. rewrite lookup_insert_eq in Hcu. congruence.
Qed.

Lemma change_status_sound origin b status c c' : Sound (pallet c) →
  change_orderbook_status origin b status c = (Ok tt, c') → Sound (pallet c').
Proof.
  intros [Hb Hw] Hr. unfold change_orderbook_status in Hr.
  apply M_bind_ok in Hr as ([] & c1 & [_ ->]%M_ensure_ok & Hr).
  apply M_bind_ok in Hr as (self & c1 & [-> Hself]%get_book_ok & Hr).
  apply M_bind_ok in Hr as ([] & c1 & [Hst ->]%M_ensure_ok & Hr).
  apply M_bind_ok in Hr as ([] & c2 & ->%M_modify_ok & Hr). eapply deposit_sound; [|exact Hr]. clear Hr c'.
  destruct (Hb _ _ Hself) as [Hwf Hup]. unfold books. split; cbn.
  - eapply books_insert; [done|by destruct Hwf| |done]. intros Hu. cbn in *. split; [|by apply Hup].
    rewrite Hu in Hst. by destruct (is_closed status).
  - eapply sound_insert; try done.
    + intros i o (s & Hs & Hle)%(sw_orders _ _ _ Hw). cbn. unfold books in Hself. congruence.
    + intros i o Ho Hp. exact (sw_lots _ _ _ Hw b self i o Hself Ho Hp).
    + by eapply (sw_accounts _ _ _ Hw).
Qed.
End chain.

(** ** The start of a block *)

Section hooks.
Context {Cfg : Config} {Wt : Weights} {WI : WeightInfo} {WL : WeightsLaws} {SK : StorageKeys}.
Context {L : Type} `{MultiCurrencyLaws L} {TA : TechAccounts} {AI : AssetInfo L}.
Context (Hinj : tech_injective).
Implicit Types (p : Pallet L).
Abbreviation orders p := (LimitOrders (data (world p))).

Lemma books_wf_ok books cursors : books_wf books cursors → books_ok divisibility books.
Proof. intros Hb b self Hself. by eapply book_of. Qed.

Lemma expiration_sound cur weight p : Sound p → cur < u32_max →
  Sound (snd (service_expiration cur weight p)).
Proof.
  intros [Hb Hw] Hcur. pose proof (sw_good _ _ _ Hw) as (orphans & Hg & _).
  destruct (try_consume weight service_expiration_base) as [m|] eqn:Hm.
  2: { unfold service_expiration. by rewrite Hm. }
  destruct (service_expiration_run divisibility Hinj cur weight p orphans) as (Eb & Ec & gone & failed & Hex & Hg' & _);
    [by eapply books_wf_ok|done..|]. set (p' := snd _) in *.
  split; rewrite ?Eb, ?Ec; [done|].
  assert (∀ x o, orders p' !! x = Some o → orders p !! x = Some o) as Hsub.
  { intros x o. rewrite (ex_orders _ _ _ _ Hex). by case_decide. }
  split.
  - by eapply open_orphans.
  - intros b i o Ho%Hsub. by eapply (sw_orders _ _ _ Hw).
  - intros b self i o Hself Ho%Hsub. by eapply (sw_lots _ _ _ Hw).
  - intros b self Hself. rewrite (ex_registered _ _ _ _ Hex). by eapply (sw_accounts _ _ _ Hw).
Qed.

Lemma round_sound p orphans weight p' : Sound p → round divisibility p orphans weight p' → Sound p'.
Proof.
  intros [Hb Hw] [Hg Er Ho _ Hfate _]. split.
  - intros b self' Hself'.
    destruct (Hfate b) as [Eb Ec _|self old new last Hs Hs' Hold Hnew _ _ _|self old Hs Hs' _ _ _ _].
    + rewrite Eb in Hself'. rewrite Ec. by apply Hb.
    + assert (self' = self) as -> by congruence. destruct (Hb _ _ Hs) as [Hwf Hu]. split; [done|].
      rewrite Hnew. intros Ht. split; [by apply Hu|done].
    + assert (self' = set_ready self) as -> by congruence. destruct (Hb _ _ Hs) as [[] _]. by split.
  - split.
    + by eapply open_orphans.
    + intros b i o [o' (self & Hs & Hi)%(sw_orders _ _ _ Hw)]%Ho.
      destruct (Hfate b) as [Eb _ _|self1 ? ? ? Hs1 Hs2 _ _ _ _ _|self1 ? Hs1 Hs2 _ _ _ _].
      * exists self. by rewrite Eb.
      * exists self1. split; [done|]. congruence.
      * exists (set_ready self1). split; [done|]. cbn. congruence.
    + intros b self' i o Hself' Hi Hp.
      destruct (Hfate b) as [Eb Ec Eo|self old new last Hs Hs' Hold Hnew _ _ Hal|self old Hs Hs' Hold _ Eo Hall].
      * rewrite Eb in Hself'. rewrite Eo in Hi. eapply (sw_lots _ _ _ Hw); [done..|].
        unfold passed in *. by rewrite Ec in Hp.
      * assert (self' = self) as -> by congruence. destruct (Hal i o Hi) as [?|[Hi' Hpass]]; [done|].
        eapply (sw_lots _ _ _ Hw); [done..|]. destruct Hp as [?|(cu & Hcu & _ & Hle)]; [by left|right].
        exists old. split; [done|]. apply Hpass. congruence.
      * assert (self' = set_ready self) as -> by congruence. rewrite Eo in Hi. cbn.
        eapply (sw_lots _ _ _ Hw); [exact Hs|done|]. right. exists old. split; [done|]. by eapply Hall.
    + intros b self' Hself'. rewrite Er.
      destruct (Hfate b) as [Eb _ _|self1 ? ? ? Hs1 Hs2 _ _ _ _ _|self1 ? Hs1 Hs2 _ _ _ _].
      * rewrite Eb in Hself'. by eapply (sw_accounts _ _ _ Hw).
      * by eapply (sw_accounts _ _ _ Hw).
      * by eapply (sw_accounts _ _ _ Hw).
Qed.

(** The alignment of this round meets an error. *)
Definition alignment_fails weight p : Prop :=
  ∃ a, alignment_loop p (storage_iter (AlignmentCursor p)) (start p weight) = inr a.

Lemma alignment_round weight p : 0 < SOFT_MIN_MAX_RATIO → Sound p → ¬ alignment_fails weight p →
  ∃ orphans, round divisibility p orphans weight (snd (service_alignment weight p)).
Proof.
  intros Hratio Hs Hok. destruct (sound_state _ Hs) as [(orphans & Hg & _) _ _ _]. exists orphans.
  apply service_alignment_round; [done..| |done|].
  - eapply books_wf_ok, Hs.
  - intros a Ha. apply Hok. by exists a.
Qed.
End hooks.
