(* ===== verification/PalletProps.v ===== *)
(** * The order book pallet as a whole

    Every history of extrinsics, blocks without failed alignments and outside payments
    keeps the pallet [Sound]; what the extrinsics guarantee to their callers; alignment
    ends; and what goes wrong when an alignment fails. *)

From S2P Require Import Prelude BTreeMap FixedPoint Units OrderTypes DataLayer StorageProps.
From S2P Require Import CacheStorage CacheProps CacheLayer CacheRefine LayerSpec World Payments TradingPair.
From S2P Require Import OrderBook Matching Priority CrossSpread BookState Solvency Operations.
From S2P Require Import SampleLedger WorldRefine Effects Lots Scheduler Expiration Alignment Pallet Soundness.

(** ** Calls *)

(** The extrinsics with their arguments. *)
Inductive call :=
| CreateOrderbook (id : OrderBookId) (tick_size step_lot_size min_lot_size max_lot_size : Balance)
| DeleteOrderbook (id : OrderBookId)
| UpdateOrderbook (id : OrderBookId) (tick_size step_lot_size min_lot_size max_lot_size : Balance)
| ChangeOrderbookStatus (id : OrderBookId) (status : OrderBookStatus)
| PlaceLimitOrder (id : OrderBookId) (price amount : Balance) (side : PriceVariant) (lifespan : option Moment)
| CancelLimitOrder (id : OrderBookId) (order_id : OrderId)
| CancelLimitOrdersBatch (orders : list (OrderBookId * list OrderId))
| ExecuteMarketOrder (id : OrderBookId) (direction : PriceVariant) (amount : Balance).

Section calls.
Context {Cfg : Config} {SK : StorageKeys} {OR : Origins}.
Context {L : Type} `{MultiCurrency L} {TA : TechAccounts} {AI : AssetInfo L} {PR : Providers L}.

Definition run_call (now : Moment) (block : BlockNumber) (origin : Origin) (k : call)
    : M (Chain L) DispatchError unit :=
  match k with
  | CreateOrderbook id tick step mn mx => create_orderbook origin id tick step mn mx
  | DeleteOrderbook id => delete_orderbook origin id
  | UpdateOrderbook id tick step mn mx => update_orderbook origin id tick step mn mx
  | ChangeOrderbookStatus id status => change_orderbook_status origin id status
  | PlaceLimitOrder id price amount side lifespan =>
      _ ← place_limit_order now block origin id price amount side lifespan; mret tt
  | CancelLimitOrder id order_id => cancel_limit_order origin id order_id
  | CancelLimitOrdersBatch orders => cancel_limit_orders_batch origin orders
  | ExecuteMarketOrder id direction amount => execute_market_order origin id direction amount
  end.

(** The arguments are [u128]; no balance and no order id is at the very end of the
    type when an order is placed. *)
Definition call_ok (k : call) (c : Chain L) : Prop :=
  match k with
  | CreateOrderbook _ _ _ _ mx | UpdateOrderbook _ _ _ _ mx => is_u128 mx
  | PlaceLimitOrder id price amount _ _ =>
      is_u128 price ∧ is_u128 amount ∧ supply_fits (ledger (world (pallet c))) ∧
      ∀ self, books c !! id = Some self → OrderBook.last_order_id self < u128_max
  | ExecuteMarketOrder _ _ amount => is_u128 amount
  | _ => True
  end.
End calls.

(** ** Histories *)

Section histories.
Context {Cfg : Config} {Wt : Weights} {WI : WeightInfo} {WL : WeightsLaws} {SK : StorageKeys} {OR : Origins}.
Context {L : Type} `{MultiCurrencyLaws L} {TA : TechAccounts} {AI : AssetInfo L} {PR : Providers L}.
Context {RL : RuntimeLaws}.
Implicit Types (c : Chain L) (p : Pallet L).
Abbreviation orders p := (LimitOrders (data (world p))).

(** One step of the chain: an extrinsic, whose changes are rolled back if it fails;
    the start of a block whose alignment meets no error; or anything that happens
    outside of the pallet, as long as it takes nothing from the accounts of books. *)
Inductive chain_step c : Chain L → Prop :=
| step_call now block origin k :
    call_ok k c → chain_step c (snd (transactional (run_call now block origin k) c))
| step_block block :
    block < u32_max →
    ¬ alignment_fails (with_limit MaxAlignmentWeightPerBlock)
        (snd (service_expiration block (with_limit MaxExpirationWeightPerBlock) (pallet c))) →
    chain_step c (set_pallet (snd (on_initialize block (pallet c))) c)
| step_outside l m :
    (∀ a b, free_balance (ledger (world (pallet c))) a (tech_account b) ≤ free_balance l a (tech_account b)) →
    chain_step c (mkChain (set_world (set_ledger l (world (pallet c))) (pallet c)) m).

Lemma run_call_sound now block origin k c c' : tech_injective → Sound (pallet c) → call_ok k c →
  run_call now block origin k c = (Ok tt, c') → Sound (pallet c').
Proof.
  intros Hinj Hs Hk Hr. destruct k; cbn in *.
  - by eapply create_orderbook_sound.
  - by eapply delete_orderbook_sound.
  - by eapply update_orderbook_sound.
  - by eapply change_status_sound.
  - destruct Hk as (Hp & Ha & Hsup & Hlast). apply M_bind_ok in Hr as (r & c1 & Hr & [_ ->]%M_ret_ok).
    by apply (place_limit_order_sound Hinj _ _ _ _ _ _ _ _ _ _ _ Hs Hp Ha Hsup Hlast Hr).
  - by eapply cancel_limit_order_sound.
  - by eapply cancel_batch_sound_chain.
  - by eapply execute_market_order_sound.
Qed.

Lemma on_initialize_sound block p : tech_injective → 0 < SOFT_MIN_MAX_RATIO → Sound p → block < u32_max →
  ¬ alignment_fails (with_limit MaxAlignmentWeightPerBlock)
      (snd (service_expiration block (with_limit MaxExpirationWeightPerBlock) p)) →
  Sound (snd (on_initialize block p)).
Proof.
  intros Hinj Hratio Hs Hb Hok. unfold on_initialize.
  apply (expiration_sound Hinj block (with_limit MaxExpirationWeightPerBlock)) in Hs; [|done].
  destruct (service_expiration _ _ p) as [w1 p1]. cbn in *.
  destruct (alignment_round Hinj _ _ Hratio Hs Hok) as [orphans Hround].
  destruct (service_alignment _ p1) as [w2 p2]. cbn in *. by eapply round_sound.
Qed.

Lemma step_sound c c' : tech_injective → 0 < SOFT_MIN_MAX_RATIO → Sound (pallet c) → chain_step c c' →
  Sound (pallet c').
Proof.
  intros Hinj Hratio Hs [now block origin k Hk|block Hb Hok|l m Hl].
  - unfold transactional. destruct (run_call _ _ _ _ _) as [[[]|e] c1] eqn:Hr; [|done].
    by eapply run_call_sound.
  - by apply on_initialize_sound.
  - destruct Hs as [Hb Hw]. split; [done|]. eapply sound_frame; [exact Hw|done..| |]; cbn.
    + intros a b. pose proof (sound_solvent _ _ _ Hw a b). specialize (Hl a b). lia.
    + apply Hw.
Qed.

(** C1. However long the chain runs, with any extrinsics of any callers in any order,
    blocks with their expirations and alignments, and payments from outside, the
    order book pallet stays sound: its storage is consistent, every order book owns
    what its open orders are owed, stored books have verified attributes, open
    orders belong to stored books and, unless the book is being aligned, are whole
    lots of its step.  The blocks are those whose alignment meets no error, orders are
    placed while no balance and no order id is at the end of its type, and what happens
    outside takes nothing from the accounts of the books.  The restriction of the blocks is
    needed, as the last theorem of this file shows. *)
Theorem pallet_stays_sound c0 c : tech_injective → 0 < SOFT_MIN_MAX_RATIO → Sound (pallet c0) →
  rtc chain_step c0 c → Sound (pallet c).
Proof.
  intros Hinj Hratio Hs Hr. induction Hr as [c|c1 c2 c3 Hstep _ IH]; [done|].
  apply IH. by eapply step_sound.
Qed.

(** ** Alignment ends *)

Definition align_round p : Pallet L := snd (service_alignment (with_limit MaxAlignmentWeightPerBlock) p).

Lemma align_round_sound p : tech_injective → 0 < SOFT_MIN_MAX_RATIO → Sound p →
  ¬ alignment_fails (with_limit MaxAlignmentWeightPerBlock) p →
  Sound (align_round p) ∧
  (AlignmentCursor p = ∅ → AlignmentCursor (align_round p) = ∅) ∧
  (can_consume (with_limit MaxAlignmentWeightPerBlock) align_single_order = true →
     AlignmentCursor p ≠ ∅ → unaligned (align_round p) ⊂ unaligned p).
Proof.
  intros Hinj Hratio Hs Hok. destruct (alignment_round Hinj _ _ Hratio Hs Hok) as [orphans Hr].
  split; [by eapply round_sound|]. split.
  - intros He. apply map_empty. intros b.
    destruct (rd_fate _ _ _ _ _ Hr b) as [_ Ec _|self old new last _ _ Hold|self old _ _ Hold];
      [unfold align_round; rewrite Ec|..]; by rewrite He in *.
  - intros Hc Hne. eapply round_progress; try done. intros b i o Ho.
    apply (sw_orders _ _ _ (sound_state _ Hs)) in Ho as (self & _ & ?). lia.
Qed.

Lemma alignment_ends n p : tech_injective → 0 < SOFT_MIN_MAX_RATIO →
  can_consume (with_limit MaxAlignmentWeightPerBlock) align_single_order = true → Sound p →
  (∀ n, ¬ alignment_fails (with_limit MaxAlignmentWeightPerBlock) (Nat.iter n align_round p)) →
  (size (unaligned p) ≤ n)%nat →
  Sound (Nat.iter n align_round p) ∧ AlignmentCursor (Nat.iter n align_round p) = ∅.
Proof.
  intros Hinj Hratio Hc. revert p. induction n as [|n IH]; intros p Hs Hok Hn.
  - split; [done|]. apply map_empty. intros b. apply eq_None_not_Some. intros [cu Hb]. cbn in Hb.
    assert (unaligned p = ∅) as He by (apply leibniz_equiv, size_empty_iff; lia).
    assert ((b, None) ∈ unaligned p) as Hin by (apply elem_of_unaligned; by eauto).
    rewrite He in Hin. by apply elem_of_empty in Hin.
  - rewrite Nat.iter_succ_r. pose proof (Hok 0%nat) as Hfirst. cbn in Hfirst.
    destruct (align_round_sound p Hinj Hratio Hs Hfirst) as (Hs' & Hempty & Hless).
    apply IH; [done| |].
    + intros k. specialize (Hok (S k)). by rewrite Nat.iter_succ_r in Hok.
    + destruct (decide (AlignmentCursor p = ∅)) as [He|Hne].
      * assert (unaligned (align_round p) = ∅) as ->; [|by rewrite size_empty; lia].
        apply leibniz_equiv, elem_of_equiv_empty. intros [b i] (cu & Hcu & _)%elem_of_unaligned.
        by rewrite (Hempty He) in Hcu.
      * specialize (Hless Hc Hne). apply subset_size in Hless. lia.
Qed.

(** C30. The alignment of updated order books ends: if no round of it fails, after at
    most as many blocks as there are orders and books to visit no cursor is left,
    every order book is ready, and every open order of every book is a whole number
    of the lot steps of its book. *)
Theorem alignment_completes p : tech_injective → 0 < SOFT_MIN_MAX_RATIO →
  can_consume (with_limit MaxAlignmentWeightPerBlock) align_single_order = true → Sound p →
  (∀ n, ¬ alignment_fails (with_limit MaxAlignmentWeightPerBlock) (Nat.iter n align_round p)) →
  let p' := Nat.iter (size (unaligned p)) align_round p in
  AlignmentCursor p' = ∅ ∧
  ∀ b self, OrderBooks p' !! b = Some self → OrderBook.tech_status self = Ready ∧
    ∀ i o, orders p' !! (b, i) = Some o →
      (inner (OrderBook.step_lot_size self) | inner (LimitOrder.amount o)).
Proof.
  intros Hinj Hratio Hc Hs Hok p'.
  destruct (alignment_ends (size (unaligned p)) p Hinj Hratio Hc Hs Hok) as [[Hb Hw] He]; [done|].
  fold p' in Hb, Hw, He. split; [done|]. intros b self Hself.
  assert (OrderBook.tech_status self = Ready) as Hr.
  { destruct (Hb _ _ Hself) as [_ Hu]. destruct (OrderBook.tech_status self); [done|].
    destruct (Hu eq_refl) as [_ [cu Hcu]]. by rewrite He in Hcu. }
  split; [done|]. intros i o Ho. eapply (sw_lots _ _ _ Hw); [done..|by left].
Qed.

(** ** What the extrinsics guarantee *)

Lemma through_cache_err {A} (f : M (World CacheDataLayer.t L) DispatchError A)
    (g : M (World Storage L) DispatchError A) c e : Inv divisibility (data (world (pallet c))) →
  sim_run (same_world divisibility) unrelated eq (f (open_cache (world (pallet c)))) (g (world (pallet c))) →
  fst (g (world (pallet c))) = Err e → fst (through_cache f c) = Err e.
Proof.
  intros HI Hs He. unfold through_cache, on_world, on_pallet, zoom, sim_run in *.
  destruct (f _) as [[a1|e1] w1], (g _) as [[a2|e2] w2]; try done. cbn in *. destruct Hs as [-> _]. congruence.
Qed.

(** Only its owner can cancel a limit order: anybody else is refused as
    unauthorized, and a cancellation that succeeds was signed by the owner, takes
    exactly this order out of the storage, leaves the order books as they are and
    moves exactly the locked amount from the account of the order book back to the
    owner. *)
Theorem cancel_limit_order_owner origin who b i o c : tech_injective → Sound (pallet c) →
  signed origin = Some who → orders (pallet c) !! (b, i) = Some o →
  (LimitOrder.owner o ≠ who → fst (cancel_limit_order origin b i c) = Err (OrderBookError Unauthorized)) ∧
  ∀ c', cancel_limit_order origin b i c = (Ok tt, c') →
    LimitOrder.owner o = who ∧ books c' = books c ∧
    orders (pallet c') = delete (b, i) (orders (pallet c)) ∧
    ∀ a x, free_balance (ledger (world (pallet c'))) a x = free_balance (ledger (world (pallet c))) a x
             + moved (owed_asset b o) who (owed_of o) a x
             - moved (owed_asset b o) (tech_account b) (owed_of o) a x.
Proof.
  intros Hinj Hs Hwho Ho. pose proof (sound_inv _ Hs) as HI. unfold cancel_limit_order. rewrite Hwho.
  unfold permitted. exec. split.
  - intros Hne. eapply (through_cache_err _ (cancel_one (books c) who b i)); [done| |].
    { by apply cancel_one_sim, open_same. }
    unfold cancel_one, on_data, zoom, get_limit_order. cbn. unfold StorageDataLayer.get_limit_order.
    exec. unfold mbind, M_bind. cbn. rewrite Ho. cbn. by rewrite bool_decide_eq_false_2.
  - intros c' Hr. eapply through_cache_ok in Hr as (w' & Hr & ->); [|done|by apply cancel_one_sim, open_same].
    eapply cancel_one_inv in Hr as (_ & self & o' & _ & _ & Ho' & Hw & Eo & El); [|done|apply Hs..].
    rewrite Ho in Ho'. injection Ho' as <-. split_and!; done.
Qed.

(** An order book is deleted only by a permitted origin, when it is closed and
    has no open order; then it, and only it, is gone, no order is touched, and its
    account is no longer registered. *)
Theorem delete_orderbook_effect origin b c c' : delete_orderbook origin b c = (Ok tt, c') →
  permitted_edit origin = true ∧
  (∃ self, books c !! b = Some self ∧ is_closed (OrderBook.status self) = true) ∧
  (∀ i, orders (pallet c) !! (b, i) = None) ∧
  books c' = delete b (books c) ∧ orders (pallet c') = orders (pallet c) ∧
  registered (world (pallet c')) !! tech_account b = None ∧
  (∀ a x, x ≠ tech_account b → free_balance (ledger (world (pallet c'))) a x =
                               free_balance (ledger (world (pallet c))) a x).
Proof.
  intros Hr. pose proof Hr as (self & c1 & c2 & Hself & Hcl & Hno & E1 & Hd & Hev)%delete_orderbook_inv.
  unfold delete_orderbook in Hr. apply M_bind_ok in Hr as ([] & ? & [Hp _]%M_ensure_ok & _).
  split; [done|]. split; [by exists self|]. split; [done|].
  apply zoom_ok in Hev as (p' & (w' & ->%M_modify_ok & ->)%zoom_ok & ->).
  apply deregister_ok in Hd as (w & -> & Ed & _ & Er & El).
  unfold books. cbn. rewrite E1 in *. split_and!; try done.
  - by rewrite Ed.
  - rewrite Er. apply lookup_delete_eq.
  - intros a y Hy. by apply El.
Qed.

Lemma bind_fails {S E A B} (f : M S E A) (k : A → M S E B) s e : fst (f s) = Err e → fst ((f ≫= k) s) = Err e.
Proof. unfold mbind, M_bind. destruct (f s) as [[a|e'] s']; naive_solver. Qed.

Lemma through_cache_fails {A} (f : M (World CacheDataLayer.t L) DispatchError A) c e :
  fst (f (open_cache (world (pallet c)))) = Err e → fst (through_cache f c) = Err e.
Proof.
  unfold through_cache, on_world, on_pallet, zoom. destruct (f _) as [[a|e'] w]; naive_solver.
Qed.

(** While an order book is being aligned nothing can be traded on it and it
    cannot be changed: placements, market orders, updates of its attributes and a
    change to a status that would allow trading are all refused, with their own
    errors. *)
Theorem updating_book_is_locked now block origin who b self c : Sound (pallet c) →
  signed origin = Some who → permitted_edit origin = true → books c !! b = Some self →
  OrderBook.tech_status self = Updating →
  (∀ price amount side lifespan,
     fst (place_limit_order now block origin b price amount side lifespan c) =
       Err (OrderBookError PlacementOfLimitOrdersIsForbidden)) ∧
  (∀ direction amount, fst (execute_market_order origin b direction amount c) =
     Err (OrderBookError (if is_non_divisible (base b) then TradingIsForbidden
                          else MarketOrdersAllowedOnlyForIndivisibleAssets))) ∧
  (∀ tick step mn mx, fst (update_orderbook origin b tick step mn mx c) = Err (OrderBookError OrderBookIsLocked)) ∧
  (∀ status, is_closed status = false →
     fst (change_orderbook_status origin b status c) = Err (OrderBookError OrderBookIsLocked)).
Proof.
  intros Hs Hwho Hedit Hself Hup. destruct (sound_books _ Hs _ _ Hself) as [_ Hu].
  destruct (Hu Hup) as [Hcl _]. split_and!.
  - intros. unfold place_limit_order, inner_place_limit_order, get_book, permitted. rewrite Hwho. exec. rewrite Hself. exec.
    apply bind_fails. cbn [OrderBook.next_order_id].
    apply bind_fails, through_cache_fails, bind_fails. cbn. by destruct (OrderBook.status self).
  - intros. unfold execute_market_order, get_book, permitted. rewrite Hwho. exec.
    destruct (is_non_divisible (base b)); exec; [|done]. rewrite Hself. exec.
    apply bind_fails, through_cache_fails, bind_fails. cbn. by destruct (OrderBook.status self).
  - intros. unfold update_orderbook, get_book, ensure_edit. rewrite Hedit. exec. rewrite Hself. exec.
    rewrite Hup. by rewrite bool_decide_eq_false_2.
  - intros status Hst. unfold change_orderbook_status, get_book, ensure_edit. rewrite Hedit. exec. rewrite Hself. exec.
    rewrite Hup, Hst. by rewrite bool_decide_eq_true_2.
Qed.

(** A limit order is accepted only on an order book that takes orders, with a
    price in whole ticks and an amount in whole lot steps between the limits of the
    book, and a lifespan within the limits of the pallet; then, for divisible
    assets, price times amount has no digit beyond the 18th, so no deal over whole
    lots of it is ever rounded. *)
Theorem accepted_orders_exact now block origin b price amount side lifespan c r c' :
  Sound (pallet c) → is_u128 amount →
  place_limit_order now block origin b price amount side lifespan c = (Ok r, c') →
  ∃ self, books c !! b = Some self ∧ is_closed (OrderBook.status self) = false ∧
    (inner (OrderBook.tick_size self) | price) ∧ (inner (OrderBook.step_lot_size self) | amount) ∧
    inner (OrderBook.min_lot_size self) ≤ amount ≤ inner (OrderBook.max_lot_size self) ∧
    MIN_ORDER_LIFESPAN ≤ default MAX_ORDER_LIFESPAN lifespan ≤ MAX_ORDER_LIFESPAN ∧
    (is_non_divisible (base b) = false →
     ∀ n, (inner (OrderBook.step_lot_size self) | n) → (10 ^ 18 | price * n)).
Proof.
  intros [Hb _] Ha Hr. unfold place_limit_order in Hr.
  apply M_bind_ok in Hr as (who & c1 & [_ ->]%M_ok_or_ok & Hr).
  apply M_bind_ok in Hr as (n & c1 & Hr & _).
  apply M_bind_ok in Hr as (self & c2 & [-> Hself]%get_book_ok & Hr).
  destruct (OrderBook.next_order_id self) as [i self1] eqn:Hnext.
  apply M_bind_ok in Hr as (n' & c2 & [w1 Hr]%through_cache_run & _).
  assert (self1 = snd (OrderBook.next_order_id self)) as -> by by rewrite Hnext.
  pose proof (place_open _ _ _ _ _ Hr) as Hopen. apply place_valid in Hr as Hv. cbn in Hopen.
  destruct (Hb _ _ Hself) as [[? _ [_ ?] [? ?] [Hd1 _] [Hd2 _] _ _ Hex] _].
  destruct (volume_of_ok b amount Ha) as [[Hd _] Ei].
  unfold OrderBook.ensure_limit_order_valid, LimitOrder.ensure_valid in Hv. run. cbn in *.
  unfold BalanceUnit.balance in *. cbn in *. rewrite Ei, !BalanceUnit.le_value in *.
  unfold BalanceUnit.value in *. rewrite Hd, Hd1, Hd2, Ei in *. zbool.
  exists self. assert (∀ x y, 0 < x → y mod x = 0 → (x | y)) as Hdiv by (intros; apply Z.mod_divide; lia).
  assert (inner (OrderBook.tick_size self) | price) as Hp by by apply Hdiv.
  split_and!; try done; [by apply Hdiv|..].
  1,2: unfold BalanceUnit.RATIO in *; destruct (divisibility _); lia.
  intros Hnd m [k ->]. destruct Hp as [q ->], (Hex Hnd) as [z Hz]. exists (q * k * z). nia.
Qed.
End histories.

(** ** Examples *)

#[local] Existing Instance RuntimeConfig.
#[local] Existing Instance Samples.plain_keys.
Import ExpirationSamples.

Module PalletSamples.
(** Root ([None]) and account 1 may create and edit order books. *)
#[export] Instance sample_origins : Origins := {|
  Origin := option AccountId;
  permitted_create o := match o with Some 1%N | None => Some (inr tt) | _ => None end;
  permitted_edit o := match o with Some 1%N | None => true | _ => false end;
  signed o := x ← o; if N.odd x then Some x else None
|}.

Definition root : Origin := None.
Definition user (x : AccountId) : Origin := Some x.

(** All assets are divisible. *)
#[export] Instance sample_assets : AssetInfo Ledger := {|
  is_non_divisible _ := false;
  total_balance l a x := Ok (ledger_balance l a x)
|}.

#[export] Instance sample_providers : Providers Ledger := {|
  inc_providers _ l := l;
  dec_providers _ := mret tt
|}.

#[export] Instance sample_runtime : RuntimeLaws.
Proof.
  split; cbn.
  - intros [x|] who; cbn; [|done]. destruct (N.odd x) eqn:E; [|done]. intros [= <-]. exact (odd_user x E).
  - done.
  - by intros account l l' a x [= <-].
Qed.

Definition other_book : OrderBookId := {| dex_id := 0; base := 2%N; quote := 0%N |}.

(** An exchange with two pairs, and no order book yet. *)
Definition sample_market : Market :=
  mkMarket {[ 0 := mkDEXInfo 0%N 0%N true ]}
    (<[(0, mkPair 0%N 1%N) := ∅]> {[ (0, mkPair 0%N 2%N) := ∅ ]}) [] [].

Definition genesis : Chain Ledger :=
  mkChain (mkPallet (mkWorld empty_storage (ledger sample_world) ∅ ∅ []) ∅ ∅ None) sample_market.

Definition one : Z := 1000000000000000000.
Definition next (c : Chain Ledger) (x : Origin * call) : Chain Ledger :=
  snd (transactional (run_call 0 0 (fst x) (snd x)) c).

Definition create b := (root, CreateOrderbook b one one one (1000 * one)).
Definition close b := (root, ChangeOrderbookStatus b OnlyCancel).
Definition coarsen b := (root, UpdateOrderbook b one (2 * one) (2 * one) (1000 * one)).
Definition buy := (user 7%N, PlaceLimitOrder Samples.book (10 * one) (5 * one) Buy None).

Definition created : Chain Ledger := next genesis (create Samples.book).
Definition bought : Chain Ledger := next created buy.
Definition updating : Chain Ledger := foldl next bought [close Samples.book; coarsen Samples.book].
Definition stale : Chain Ledger :=
  foldl next updating [create other_book; close other_book; coarsen other_book; (root, DeleteOrderbook other_book)].

Lemma genesis_good : Operations.Good divisibility [] (world (pallet genesis)).
Proof.
  split; [split; [apply Inv_empty|]|].
  - split; [|intros t; constructor]. intros t x. split; [by intros ?%elem_of_nil|].
    by intros (o & Ho & _).
  - intros b a. unfold owed. cbn. rewrite map_fold_empty. unfold ledger_balance.
    destruct (_ !! _) as [v|] eqn:E; [|done]. cbn.
    apply lookup_insert_Some in E as [[_ <-]|[_ [[_ <-]|[_ E]]%lookup_insert_Some]]; done.
Qed.

Lemma genesis_sound : Sound (pallet genesis).
Proof.
  split; [done|]. split; [|done..]. exists []. split; [apply genesis_good|]. by intros x ?%elem_of_nil.
Qed.

Lemma next_step c x : call_ok (snd x) c → chain_step c (next c x).
Proof. apply step_call. Qed.

Lemma next_sound c x : Sound (pallet c) → call_ok (snd x) c → Sound (pallet (next c x)).
Proof. intros Hs Hk. eapply step_sound; [exact EffectSamples.tech_inj|done|exact Hs|by apply next_step]. Qed.

Lemma one_ok n : 0 ≤ n ≤ 1000 → is_u128 (n * one).
Proof. unfold is_u128, one, u128_max. lia. Qed.

(** The placement of the buy order is within the bounds. *)
Lemma created_ledger : ledger (world (pallet created)) = ledger sample_world.
Proof. vm_compute. reflexivity. Qed.

Lemma created_books : books created = {[ Samples.book := MarketSamples.order_book ]}.
Proof. vm_compute. reflexivity. Qed.

Lemma buy_call_ok : call_ok (snd buy) created.
Proof.
  split; [by apply one_ok|]. split; [by apply one_ok|]. split.
  - rewrite created_ledger. apply OperationSamples.sample_supply.
  - rewrite created_books. intros self [_ <-]%lookup_singleton_Some. done.
Qed.

Lemma created_sound : Sound (pallet created).
Proof. apply next_sound; [apply genesis_sound|by apply one_ok]. Qed.
Lemma bought_sound : Sound (pallet bought).
Proof. apply next_sound; [apply created_sound|apply buy_call_ok]. Qed.
Lemma updating_sound : Sound (pallet updating).
Proof.
  cbn [updating foldl]. do 2 (apply next_sound; [|cbn; try done; by apply one_ok]). apply bought_sound.
Qed.

Lemma updating_reached : rtc chain_step genesis updating.
Proof.
  eapply (rtc_l _ _ created); [apply next_step; by apply one_ok|].
  eapply (rtc_l _ _ bought); [apply next_step, buy_call_ok|].
  eapply rtc_l; [by apply (next_step bought (close Samples.book))|].
  eapply rtc_l; [apply (next_step _ (coarsen Samples.book)); by apply one_ok|]. apply rtc_refl.
Qed.

Lemma stale_reached : rtc chain_step genesis stale.
Proof.
  etransitivity; [exact updating_reached|].
  eapply rtc_l; [apply (next_step updating (create other_book)); by apply one_ok|].
  eapply rtc_l; [by apply (next_step _ (close other_book))|].
  eapply rtc_l; [apply (next_step _ (coarsen other_book)); by apply one_ok|].
  eapply rtc_l; [by apply (next_step _ (root, DeleteOrderbook other_book))|]. apply rtc_refl.
Qed.

Lemma ratio_pos : 0 < SOFT_MIN_MAX_RATIO.
Proof. reflexivity. Qed.

Lemma weight_fits : can_consume (with_limit MaxAlignmentWeightPerBlock) align_single_order = true.
Proof. reflexivity. Qed.

(** Without a cursor nothing is left to fail. *)
Lemma no_cursor_round (p : Pallet Ledger) : AlignmentCursor p = ∅ →
  ¬ alignment_fails (with_limit MaxAlignmentWeightPerBlock) p ∧ AlignmentCursor (align_round p) = ∅.
Proof.
  intros He. unfold alignment_fails, align_round, service_alignment. rewrite He.
  change (storage_iter ∅) with (@nil (OrderBookId * OrderId)). cbn. split; [by intros [a Ha]|]. done.
Qed.

Lemma updating_aligns n :
  ¬ alignment_fails (with_limit MaxAlignmentWeightPerBlock) (Nat.iter n align_round (pallet updating)).
Proof.
  assert (∀ k, AlignmentCursor (Nat.iter (2 + k) align_round (pallet updating)) = ∅) as Hk.
  { induction k as [|k IH]; [vm_compute; reflexivity|]. by apply no_cursor_round in IH as [_ ?]. }
  destruct n as [|[|n]]; [intros [a Ha]; vm_compute in Ha; discriminate..|].
  exact (proj1 (no_cursor_round _ (Hk n))).
Qed.
End PalletSamples.
Import PalletSamples.

Lemma pallet_stays_sound_witness : Sound (pallet updating).
Proof.
  apply (pallet_stays_sound genesis updating EffectSamples.tech_inj ratio_pos genesis_sound updating_reached).
Defined.

Lemma alignment_completes_witness :
  AlignmentCursor (Nat.iter (size (unaligned (pallet updating))) align_round (pallet updating)) = ∅.
Proof.
  apply (alignment_completes (pallet updating) EffectSamples.tech_inj ratio_pos weight_fits updating_sound updating_aligns).
Defined.

Lemma cancel_limit_order_owner_witness :
  fst (cancel_limit_order (L := Ledger) (user 9%N) Samples.book 1 bought) = Err (OrderBookError Unauthorized) ∧
  LimitOrders (data (world (pallet (snd (cancel_limit_order (L := Ledger) (user 7%N) Samples.book 1 bought))))) =
  delete (Samples.book, 1) (LimitOrders (data (world (pallet bought)))).
Proof.
  split.
  - eapply (cancel_limit_order_owner (user 9%N) 9%N Samples.book 1 _ bought EffectSamples.tech_inj bought_sound eq_refl).
    + vm_compute. reflexivity.
    + cbn. done.
  - eapply (cancel_limit_order_owner (user 7%N) 7%N Samples.book 1 _ bought EffectSamples.tech_inj bought_sound eq_refl).
    + vm_compute. reflexivity.
    + vm_compute. reflexivity.
Defined.

Lemma delete_orderbook_effect_witness :
  books (snd (delete_orderbook root Samples.book (next created (close Samples.book)))) =
  delete Samples.book (books (next created (close Samples.book))).
Proof.
  eapply (delete_orderbook_effect root Samples.book (next created (close Samples.book))).
  vm_compute. reflexivity.
Defined.

Lemma updating_book_is_locked_witness :
  fst (change_orderbook_status (user 1%N) Samples.book Trade updating) = Err (OrderBookError OrderBookIsLocked).
Proof.
  eapply (updating_book_is_locked 0 0 (user 1%N) 1%N Samples.book _ updating updating_sound eq_refl eq_refl).
  - vm_compute. reflexivity.
  - reflexivity.
  - reflexivity.
Defined.

Lemma accepted_orders_exact_witness :
  ∃ self, books created !! Samples.book = Some self ∧ is_closed (OrderBook.status self) = false.
Proof.
  destruct (accepted_orders_exact 0 0 (user 7%N) Samples.book (10 * one) (5 * one) Buy None created true bought
    created_sound) as (self & ? & ? & _).
  - by apply one_ok.
  - vm_compute. reflexivity.
  - by exists self.
Defined.

(** C34. When an alignment fails, the payments of the same round stay while the
    changes of the orders are lost.  From an empty chain, calls of permitted origins
    alone lead to a state (one order book updated, another one deleted while it was
    being aligned) in which the start of a block refunds an order it does not lower:
    the order book then owns less than its open orders are owed. *)
Theorem failed_alignment_breaks_solvency : ∃ c : Chain Ledger,
  rtc chain_step genesis c ∧
  let p := pallet c in let p' := align_round p in
  LimitOrders (data (world p')) = LimitOrders (data (world p)) ∧
  AlignmentCursor p' = AlignmentCursor p ∧
  free_balance (ledger (world p')) 0%N 7%N = free_balance (ledger (world p)) 0%N 7%N + 10 * one ∧
  owed (LimitOrders (data (world p))) Samples.book 0%N =
    free_balance (ledger (world p)) 0%N (tech_account Samples.book) ∧
  free_balance (ledger (world p')) 0%N (tech_account Samples.book) <
    owed (LimitOrders (data (world p'))) Samples.book 0%N.
Proof.
  exists stale. split; [exact stale_reached|]. split_and!; vm_compute; reflexivity.
Qed.
