(* ===== verification/StaleCursor.v ===== *)
(** * The cursor of a deleted order book

    [delete_orderbook] leaves the alignment cursor of the book in the storage, and every round of
    alignment that comes to it fails.  Here: nothing but the creation of the same book again
    removes that cursor, and the books whose cursors follow it are not aligned. *)

From S2P Require Import Prelude BTreeMap FixedPoint Units OrderTypes DataLayer StorageProps.
From S2P Require Import CacheStorage CacheProps CacheLayer CacheRefine LayerSpec World Payments TradingPair.
From S2P Require Import OrderBook Matching Priority CrossSpread BookState Solvency Operations.
From S2P Require Import SampleLedger WorldRefine Effects Lots Scheduler Expiration Alignment Pallet Soundness.
From S2P Require Import PalletProps.

Section stale.
Context {Cfg : Config} {Wt : Weights} {WI : WeightInfo} {WL : WeightsLaws} {SK : StorageKeys} {OR : Origins}.
Context {L : Type} `{MultiCurrencyLaws L} {TA : TechAccounts} {AI : AssetInfo L} {PR : Providers L}.
Context {RL : RuntimeLaws}.
Implicit Types (c : Chain L) (p : Pallet L).

(** ** States with the cursor and without the book *)

Context (b : OrderBookId) (old : OrderId).

Record stale_cursor p : Prop := {
  stale_book : OrderBooks p !! b = None;
  stale_position : AlignmentCursor p !! b = Some old;
  stale_names id self : OrderBooks p !! id = Some self → OrderBook.order_book_id self = id
}.

Lemma stale_insert id self cursors p : id ≠ b → OrderBook.order_book_id self = id →
  AlignmentCursor cursors !! b = Some old → OrderBooks cursors = <[id := self]> (OrderBooks p) →
  stale_cursor p → stale_cursor cursors.
Proof.
  intros Hne Hid Hc Hb [Hnone _ Hn]. split; [by rewrite Hb, lookup_insert_ne|done|].
  intros id' self'. rewrite Hb. intros [[<- <-]|[_ ?]]%lookup_insert_Some; [done|by apply Hn].
Qed.

(** Computations that keep such a state. *)
Definition leaves {A} (f : M (Chain L) DispatchError A) : Prop :=
  ∀ c, stale_cursor (pallet c) → stale_cursor (pallet (snd (f c))).

Lemma leaves_bind {A B} (f : M (Chain L) DispatchError A) (k : A → M (Chain L) DispatchError B) :
  leaves f → (∀ a, leaves (k a)) → leaves (f ≫= k).
Proof.
  intros Hf Hk c Hc. unfold mbind, M_bind. specialize (Hf c Hc). destruct (f c) as [[a|e] c1]; [|done].
  by apply Hk.
Qed.

Lemma leaves_read {A} (f : M (Chain L) DispatchError A) : (∀ c, snd (f c) = c) → leaves f.
Proof. intros Hf c Hc. by rewrite Hf. Qed.

Lemma leaves_ensure x (e : DispatchError) : leaves (ensure x e).
Proof. apply leaves_read. intros c. by destruct x. Qed.
Lemma leaves_lift {A} (r : result DispatchError A) : leaves (lift r).
Proof. apply leaves_read. intros c. by destruct r. Qed.
Lemma leaves_ok_or {A} (o : option A) (e : DispatchError) : leaves (ok_or o e).
Proof. apply leaves_read. intros c. by destruct o. Qed.
Lemma leaves_ret {A} (a : A) : leaves (mret a).
Proof. by apply leaves_read. Qed.
Lemma leaves_throw {A} (e : DispatchError) : leaves (mthrow (A := A) e).
Proof. by apply leaves_read. Qed.
Lemma leaves_get : leaves get_state.
Proof. by apply leaves_read. Qed.
Lemma leaves_market {A} (f : M Market DispatchError A) : leaves (on_market f).
Proof. intros c Hc. unfold on_market, zoom. by destruct (f _). Qed.
Lemma leaves_world {A} (f : M (World Storage L) DispatchError A) : leaves (on_world f).
Proof. intros c []. unfold on_world, on_pallet, zoom. destruct (f _). by split. Qed.
Lemma leaves_cache {A} (f : M (World CacheDataLayer.t L) DispatchError A) : leaves (through_cache f).
Proof. apply leaves_world. Qed.
Lemma leaves_assets (l : L) a : leaves (TradingPairs.ensure_asset_exists l a).
Proof. apply leaves_ensure. Qed.

(** The book that is found is another one, and keeps its name. *)
Lemma leaves_get_book {A} id (k : OrderBook.t → M (Chain L) DispatchError A) :
  (∀ self, id ≠ b → OrderBook.order_book_id self = id → leaves (k self)) → leaves (get_book id ≫= k).
Proof.
  intros Hk c Hc. unfold get_book. exec. destruct (books c !! id) as [self|] eqn:E; [|done]. exec.
  destruct Hc as [Hnone ? Hn]. apply Hk; [|by apply Hn|done]. intros ->. unfold books in E. congruence.
Qed.

Lemma leaves_insert id self : id ≠ b → OrderBook.order_book_id self = id → leaves (insert_book id self).
Proof. intros Hne Hid c Hc. eapply (stale_insert id self); [done..|apply Hc|done|exact Hc]. Qed.

Lemma leaves_remove id : leaves (modify (λ c, set_pallet (set_books (delete id (books c)) (pallet c)) c)).
Proof.
  intros c [Hnone Hc Hn]. split; cbn; [|done|].
  - apply lookup_delete_None. by right.
  - intros id' self [_ ?]%lookup_delete_Some. by apply Hn.
Qed.

Lemma leaves_cursor id i : id ≠ b →
  leaves (modify (λ c, set_pallet (set_cursors (<[id := i]> (AlignmentCursor (pallet c))) (pallet c)) c)).
Proof. intros Hne c [Hnone Hc Hn]. split; cbn; [done|by rewrite lookup_insert_ne|done]. Qed.

Create HintDb leaves discriminated.
#[local] Hint Resolve leaves_ensure leaves_lift leaves_ok_or leaves_ret leaves_throw leaves_get leaves_market
  leaves_world leaves_cache leaves_assets leaves_insert leaves_remove leaves_cursor : leaves.

(** Through the binds, books and case distinctions of a computation. *)
Local Ltac leave :=
  repeat first
    [ progress intros
    | progress cbn [mbind]
    | apply leaves_get_book
    | apply leaves_bind
    | match goal with |- leaves (match ?x with _ => _ end) => destruct x end
    | progress eauto with leaves ].

(** ** Calls *)

Lemma leaves_create origin id tick step mn mx : id ≠ b → leaves (create_orderbook origin id tick step mn mx).
Proof.
  intros Hne. unfold create_orderbook, inner_create_orderbook, create_orderbook_unchecked, verify_create_orderbook_params,
    permitted, register_tech_account. leave.
Qed.

Lemma leaves_delete origin id : leaves (delete_orderbook origin id).
Proof. unfold delete_orderbook, ensure_edit, deregister_tech_account. leave. Qed.

Lemma leaves_update origin id tick step mn mx : leaves (update_orderbook origin id tick step mn mx).
Proof. unfold update_orderbook, ensure_edit. leave. Qed.

Lemma leaves_status origin id status : leaves (change_orderbook_status origin id status).
Proof. unfold change_orderbook_status, ensure_edit. leave. Qed.

Lemma leaves_place now block origin id price amount side lifespan :
  leaves (place_limit_order now block origin id price amount side lifespan).
Proof. unfold place_limit_order, inner_place_limit_order, permitted, OrderBook.next_order_id. leave. Qed.

(** The calls other than the creation of the book. *)
Definition creates (k : call) : Prop := ∃ tick step mn mx, k = CreateOrderbook b tick step mn mx.

Lemma run_call_leaves now block origin k : ¬ creates k → leaves (run_call now block origin k).
Proof.
  intros Hk. destruct k; cbn.
  - apply leaves_create. intros ->. apply Hk. by repeat eexists.
  - apply leaves_delete.
  - apply leaves_update.
  - apply leaves_status.
  - apply leaves_bind; [apply leaves_place|intros; apply leaves_ret].
  - unfold cancel_limit_order, permitted. leave.
  - unfold cancel_limit_orders_batch, permitted. leave.
  - unfold execute_market_order, permitted. leave.
Qed.

Lemma transactional_leaves {A} (f : M (Chain L) DispatchError A) : leaves f → leaves (transactional f).
Proof. intros Hf c Hc. specialize (Hf c Hc). unfold transactional. by destruct (f c) as [[]]. Qed.

(** ** Alignment *)

(** The books a round moves on or finishes. *)
Definition touched (a : Alignment (L := L)) : list OrderBookId :=
  (fst <$> new_cursors a) ++ (OrderBook.order_book_id <$> finished a).

(** The round ends at the cursor without a book at the latest. *)
Lemma loop_stops p before after a a' : stale_cursor p →
  alignment_loop p (before ++ (b, old) :: after) a = inl a' →
  ∀ id, id ∈ touched a' → id ∈ touched a ∨ id ∈ fst <$> before.
Proof.
  intros Hp. revert a. induction before as [|[id cursor] before IH]; intros a Hl; cbn in Hl.
  - destruct (negb _); [injection Hl as <-; by left|]. by rewrite (stale_book _ Hp) in Hl.
  - destruct (negb _); [injection Hl as <-; by left|].
    destruct (OrderBooks p !! id) as [self|] eqn:Eb; [|done].
    pose proof (stale_names _ Hp _ _ Eb) as Hid.
    destruct (last _) as [o|]; [destruct (OrderBook.align_limit_orders _ _ _) as [[]]; [|done]|].
    + intros id' [Ht|Hin]%(IH _ Hl); [|right; cbn; by right].
      unfold touched in *. cbn [new_cursors finished] in Ht.
      apply elem_of_app in Ht as [(p' & -> & Hp')%list_elem_of_fmap|Ht]; [|left; set_solver].
      apply bt_insert_elem in Hp' as [Hp'|[_ E%cmp_eq]]; [left; apply elem_of_app; left; by apply list_elem_of_fmap_2|].
      right. rewrite <- E. left.
    + intros id' [Ht|Hin]%(IH _ Hl); [|right; cbn; by right].
      unfold touched in *. cbn in Ht. rewrite fmap_app in Ht. set_solver.
Qed.

(** Other cursors and books stay as they are. *)
Lemma fold_cursors l p : let p' := fold_left (λ p '(id, cursor), set_cursors (<[id := cursor]> (AlignmentCursor p)) p) l p in
  OrderBooks p' = OrderBooks p ∧ ∀ id, id ∉ fst <$> l → AlignmentCursor p' !! id = AlignmentCursor p !! id.
Proof.
  revert p. induction l as [|[id cursor] l IH]; intros p; [done|]. cbn [fold_left].
  destruct (IH (set_cursors (<[id := cursor]> (AlignmentCursor p)) p)) as [Eb Ec]. cbv zeta in *.
  split; [by rewrite Eb|]. intros id' Hn. rewrite Ec by set_solver. cbn. apply lookup_insert_ne. set_solver.
Qed.

Lemma fold_finished l p : let p' := fold_left (λ p self, finish_alignment self p) l p in
  ∀ id, id ∉ OrderBook.order_book_id <$> l →
    AlignmentCursor p' !! id = AlignmentCursor p !! id ∧ OrderBooks p' !! id = OrderBooks p !! id.
Proof.
  revert p. induction l as [|self l IH]; intros p; [done|]. cbn [fold_left]. intros id Hn.
  destruct (IH (finish_alignment self p) id) as [Ec Eb]; [set_solver|]. cbv zeta in *. rewrite Ec, Eb. cbn.
  rewrite lookup_delete_ne, lookup_insert_ne by set_solver. done.
Qed.

(** A round changes no cursor and no book after the one without a book. *)
Lemma round_stops weight p before after : stale_cursor p →
  storage_iter (AlignmentCursor p) = before ++ (b, old) :: after →
  let p' := snd (service_alignment weight p) in
  ∀ id, id ∉ fst <$> before →
    AlignmentCursor p' !! id = AlignmentCursor p !! id ∧ OrderBooks p' !! id = OrderBooks p !! id.
Proof.
  intros Hp Hi. unfold service_alignment. destruct (negb _); [done|]. rewrite Hi.
  destruct (alignment_loop _ _ _) as [a|a] eqn:Hl; [|done]. cbv zeta. intros id Hn.
  assert (id ∉ touched a) as Ht.
  { intros Ht. destruct (loop_stops _ _ _ _ _ Hp Hl id Ht) as [Hx|Hx]; [|done]. by apply elem_of_nil in Hx. }
  apply not_elem_of_app in Ht as [Ht1 Ht2]. cbn [snd].
  destruct (fold_finished (finished a)
    (fold_left (λ p '(id, cursor), set_cursors (<[id := cursor]> (AlignmentCursor p)) p) (new_cursors a)
       (set_world (commit_cache (align_world a)) p)) id Ht2) as [-> ->].
  destruct (fold_cursors (new_cursors a) (set_world (commit_cache (align_world a)) p)) as [-> Ec].
  by rewrite Ec.
Qed.
(** The place of the cursor in the storage. *)
Lemma stale_split p : stale_cursor p → ∃ before after,
  storage_iter (AlignmentCursor p) = before ++ (b, old) :: after ∧ (b ∉ fst <$> before) ∧
  ∀ id, id ∈ fst <$> after → id ∉ fst <$> before.
Proof.
  intros Hp. destruct (storage_iter_entries (AlignmentCursor p)) as [Hnd Hin].
  pose proof (proj2 (Hin b old) (stale_position _ Hp)) as (before & after & E)%list_elem_of_split.
  exists before, after. split; [done|]. rewrite E, fmap_app in Hnd.
  apply NoDup_app in Hnd as (_ & Hd & _). split; [|intros id Hid]; intros Hb%Hd; set_solver.
Qed.

Lemma finished_names l p : (∀ id self, OrderBooks p !! id = Some self → OrderBook.order_book_id self = id) →
  ∀ id self, OrderBooks (fold_left (λ p self, finish_alignment self p) l p) !! id = Some self →
    OrderBook.order_book_id self = id.
Proof.
  revert p. induction l as [|self l IH]; intros p Hp; [done|]. apply IH. cbn.
  intros id' self' [[<- <-]|[_ ?]]%lookup_insert_Some; [done|by apply Hp].
Qed.

Lemma alignment_leaves weight p : stale_cursor p → stale_cursor (snd (service_alignment weight p)).
Proof.
  intros Hp. destruct (stale_split p Hp) as (before & after & E & Hb & _).
  destruct (round_stops weight p before after Hp E b Hb) as [Ec Eb]. destruct Hp as [Hnone Hc Hn].
  split; [by rewrite Eb|by rewrite Ec|]. clear Eb Ec E Hb. unfold service_alignment. destruct (negb _); [done|].
  destruct (alignment_loop _ _ _) as [a|a]; [|done]. apply finished_names.
  by rewrite (proj1 (fold_cursors _ _)).
Qed.

Lemma expiration_leaves cur weight p : stale_cursor p → stale_cursor (snd (service_expiration cur weight p)).
Proof.
  intros [Hnone Hc Hn]. unfold service_expiration. destruct (try_consume _ _); [|done].
  destruct (service_blocks _ _ _ _ _ _ _) as [[[when since] m] w']. destruct (_ <=? _); by split.
Qed.

(** ** Histories *)

(** The steps of the chain without the creation of the book: other calls with any arguments, blocks
    whether their hooks fail or not, and whatever happens to balances and exchanges. *)
Inductive step_without c : Chain L → Prop :=
| without_call now block origin k :
    ¬ creates k → step_without c (snd (transactional (run_call now block origin k) c))
| without_block block :
    step_without c (set_pallet (snd (on_initialize block (pallet c))) c)
| without_outside l m :
    step_without c (mkChain (set_world (set_ledger l (world (pallet c))) (pallet c)) m).

Lemma step_leaves c c' : stale_cursor (pallet c) → step_without c c' → stale_cursor (pallet c').
Proof.
  intros Hc [now block origin k Hk|block|l m].
  - by apply transactional_leaves; [apply run_call_leaves|].
  - cbn. unfold on_initialize.
    pose proof (expiration_leaves block (with_limit MaxExpirationWeightPerBlock) _ Hc) as He.
    destruct (service_expiration _ _ _) as [m1 p1].
    pose proof (alignment_leaves (with_limit MaxAlignmentWeightPerBlock) p1 He) as Ha.
    by destruct (service_alignment _ _) as [m2 p2].
  - destruct Hc. by split.
Qed.

Lemma steps_leave c c' : rtc step_without c c' → stale_cursor (pallet c) → stale_cursor (pallet c').
Proof. induction 1; eauto using step_leaves. Qed.

Lemma deleted_stale origin c c' : Sound (pallet c) → AlignmentCursor (pallet c) !! b = Some old →
  delete_orderbook origin b c = (Ok tt, c') → stale_cursor (pallet c').
Proof.
  intros [Hbooks _] Hc (self & c1 & c2 & _ & _ & _ & E1 & Hd & Hev)%delete_orderbook_inv.
  apply zoom_ok in Hev as (p' & (w' & ->%M_modify_ok & ->)%zoom_ok & ->).
  apply deregister_ok in Hd as (w & -> & _). unfold books. cbn. rewrite E1 in *.
  split; cbn; [apply lookup_delete_eq|done|].
  intros id self' [_ Hs]%lookup_delete_Some. by apply Hbooks in Hs as [[? _] _].
Qed.
End stale.

Section blocked.
Context {Cfg : Config} {Wt : Weights} {WI : WeightInfo} {WL : WeightsLaws} {SK : StorageKeys} {OR : Origins}.
Context {L : Type} `{MultiCurrencyLaws L} {TA : TechAccounts} {AI : AssetInfo L} {PR : Providers L}.
Context {RL : RuntimeLaws}.
Implicit Types (c : Chain L).

(** C35. Deleting an order book that is being aligned leaves its cursor behind.  As long as the
    book is not created again the cursor stays, whatever calls, blocks and payments follow; and in
    every such state a round of alignment changes neither the cursor nor the book of any book that
    follows in the order of the storage, so that these stay locked, and no order at all when the
    cursor is the first one. *)
Theorem deleted_book_blocks_alignment origin b old c c1 c2 :
  Sound (pallet c) → AlignmentCursor (pallet c) !! b = Some old → delete_orderbook origin b c = (Ok tt, c1) →
  rtc (step_without b) c1 c2 →
  let p := pallet c2 in let p' := align_round p in
  OrderBooks p !! b = None ∧ ∃ before after,
    storage_iter (AlignmentCursor p) = before ++ (b, old) :: after ∧
    (∀ id, id ∈ fst <$> after →
       AlignmentCursor p' !! id = AlignmentCursor p !! id ∧ OrderBooks p' !! id = OrderBooks p !! id) ∧
    (before = [] → LimitOrders (data (world p')) = LimitOrders (data (world p))).
Proof.
  intros Hs Hc Hd Hr p p'. pose proof (steps_leave b old _ _ Hr (deleted_stale b old _ _ _ Hs Hc Hd)) as Hp. fold p in Hp.
  split; [apply Hp|].
  destruct (stale_split b old p Hp) as (before & after & E & _ & Ha). exists before, after. split; [done|]. split.
  - intros id Hid. by apply (round_stops b old _ _ before after Hp E), Ha.
  - intros ->. unfold p', align_round, service_alignment. destruct (negb _) eqn:Ew; [done|]. rewrite E. cbn.
    by rewrite Ew, (stale_book _ _ _ Hp).
Qed.
End blocked.

(** ** Examples *)

#[local] Existing Instance RuntimeConfig.
#[local] Existing Instance Samples.plain_keys.
Import ExpirationSamples PalletSamples.

(** Both books are being aligned when the first one is deleted; then a block begins. *)
Definition two_updating : Chain Ledger :=
  foldl next created [create other_book; close Samples.book; close other_book;
                      coarsen Samples.book; coarsen other_book].
Definition one_deleted : Chain Ledger := next two_updating (root, DeleteOrderbook Samples.book).
Definition after_block : Chain Ledger := set_pallet (snd (on_initialize 1 (pallet one_deleted))) one_deleted.

Lemma two_updating_sound : Sound (pallet two_updating).
Proof. unfold two_updating. cbn [foldl]. do 5 (apply next_sound; [|cbn; try done; by apply (one_ok 1000)]). apply created_sound. Qed.

Lemma deleted_book_blocks_alignment_witness :
  OrderBooks (pallet after_block) !! Samples.book = None ∧
  ∃ before after,
    storage_iter (AlignmentCursor (pallet after_block)) = before ++ (Samples.book, 0) :: after ∧
    (∀ id, id ∈ fst <$> after →
       AlignmentCursor (align_round (pallet after_block)) !! id = AlignmentCursor (pallet after_block) !! id ∧
       OrderBooks (align_round (pallet after_block)) !! id = OrderBooks (pallet after_block) !! id) ∧
    (before = [] → LimitOrders (data (world (align_round (pallet after_block)))) =
                   LimitOrders (data (world (pallet after_block)))).
Proof.
  apply (deleted_book_blocks_alignment root Samples.book 0 two_updating one_deleted after_block two_updating_sound).
  - vm_compute. reflexivity.
  - vm_compute. reflexivity.
  - apply rtc_once, without_block.
Defined.
