(* ===== verification/LiquiditySource.v ===== *)
(** * The order book as a liquidity source ([pallets/order-book/src/lib.rs])

    The implementation of the trait [LiquiditySource] for the pallet: quotes and
    swaps for the liquidity proxy.  The weights that the functions return beside
    their results are not modelled, and neither are [quote_weight] and the like. *)

From S2P Require Import Prelude BTreeMap FixedPoint Units OrderTypes DataLayer CacheLayer World.
From S2P Require Import TradingPair SwapTypes OrderBook WorldRefine Scheduler Pallet.

(** ** Calculations of an order book *)

Section book.
Context {D : Type} {DL : DataLayer D}.
Implicit Types (self : OrderBook.t).

Definition in_lot_limits self (amount : OrderVolume) : bool :=
  BalanceUnit.le (OrderBook.min_lot_size self) amount && BalanceUnit.le amount (OrderBook.max_lot_size self).

Definition quote_book self (input_asset_id output_asset_id : AssetId) (amount : QuoteAmount)
    : M D DispatchError SwapOutcome :=
  deal_info ← OrderBook.calculate_deal self input_asset_id output_asset_id amount;
  _ ← ensure (DealInfo.is_valid deal_info) (OrderBookError PriceCalculationFailed);
  let base_amount := DealInfo.base_amount deal_info in
  _ ← ensure (in_lot_limits self base_amount) (OrderBookError InvalidOrderAmount);
  mret (mkOutcome
    (BalanceUnit.balance (OrderAmount.value
       (match amount with
        | WithDesiredInput _ => DealInfo.output_amount deal_info
        | WithDesiredOutput _ => DealInfo.input_amount deal_info
        end))) []).

(** The limits of a quotation. *)
Definition step_limits self (amount : QuoteAmount) (direction : PriceVariant)
    (base_min quote_min base_max quote_max : Balance) : SwapLimits :=
  let step := BalanceUnit.balance (OrderBook.step_lot_size self) in
  match amount, direction with
  | WithDesiredInput _, Buy => mkLimits (Some (Input quote_min)) (Some (Input quote_max)) (Some (Output step))
  | WithDesiredInput _, Sell => mkLimits (Some (Input base_min)) (Some (Input base_max)) (Some (Input step))
  | WithDesiredOutput _, Buy => mkLimits (Some (Output base_min)) (Some (Output base_max)) (Some (Output step))
  | WithDesiredOutput _, Sell => mkLimits (Some (Output quote_min)) (Some (Output quote_max)) (Some (Input step))
  end.

(** The target of the chunks; [None] when the desired amount is below the minimum. *)
Definition step_target self (amount : QuoteAmount) (direction : PriceVariant)
    (base_min quote_min base_max quote_max : Balance) : option OrderAmount.t :=
  let desired := quote_amount amount in
  let in_quote :=
    match amount, direction with
    | WithDesiredInput _, Buy | WithDesiredOutput _, Sell => true
    | _, _ => false
    end in
  if in_quote then
    if desired <? quote_min then None
    else Some (OrderAmount.Quote (BalanceUnit.copy_divisibility (OrderBook.tick_size self) (Z.min desired quote_max)))
  else
    if desired <? base_min then None
    else Some (OrderAmount.Base (BalanceUnit.copy_divisibility (OrderBook.step_lot_size self) (Z.min desired base_max))).

(** The loop over the market depth. *)
Fixpoint step_chunks (direction : PriceVariant) (target : OrderAmount.t)
    (market_depth : list (OrderPrice * OrderVolume)) (target_sum : OrderVolume)
    : result DispatchError (list SwapChunk) :=
  match market_depth with
  | [] => mret []
  | (price, base_volume) :: market_depth =>
      let err := OrderBookError AmountCalculationFailed in
      quote_volume ← ok_or (BalanceUnit.checked_mul price base_volume) err;
      let base := BalanceUnit.balance base_volume in
      let quote := BalanceUnit.balance quote_volume in
      let chunk := match direction with Buy => mkChunk quote base [] | Sell => mkChunk base quote [] end in
      target_sum ← ok_or (BalanceUnit.checked_add target_sum
                            (if OrderAmount.is_base target then base_volume else quote_volume)) err;
      if BalanceUnit.ge target_sum (OrderAmount.value target) then mret [chunk]
      else
        chunks ← step_chunks direction target market_depth target_sum;
        mret (chunk :: chunks)
  end.

Definition step_quote_book self (input_asset_id output_asset_id : AssetId) (amount : QuoteAmount)
    : M D DispatchError DiscreteQuotation :=
  direction ← lift (OrderBook.get_direction self input_asset_id output_asset_id);
  market_depth ← OrderBook.market_depth self (switched direction)
                   (Some (OrderAmount.Base (OrderBook.max_lot_size self)));
  '(base_min_amount, quote_min_amount) ←
    lift (OrderBook.sum_market self market_depth (Some (OrderAmount.Base (OrderBook.min_lot_size self))) false);
  if BalanceUnit.lt (OrderAmount.value base_min_amount) (OrderBook.min_lot_size self)
  then mret empty_quotation else
  '(base_max_amount, quote_max_amount) ←
    lift (OrderBook.sum_market self market_depth (Some (OrderAmount.Base (OrderBook.max_lot_size self))) false);
  let value a := BalanceUnit.balance (OrderAmount.value a) in
  let limits := step_limits self amount direction (value base_min_amount) (value quote_min_amount)
                  (value base_max_amount) (value quote_max_amount) in
  match step_target self amount direction (value base_min_amount) (value quote_min_amount)
          (value base_max_amount) (value quote_max_amount) with
  | None => mret (mkQuotation [] limits)
  | Some target =>
      chunks ← lift (step_chunks direction target market_depth BalanceUnit.zero);
      mret (mkQuotation chunks limits)
  end.

(** The target amount and the base amount of [quote_without_impact] at the price. *)
Definition amounts_at self (price : OrderPrice) (amount : QuoteAmount) (direction : PriceVariant)
    : result DispatchError (OrderVolume * OrderVolume) :=
  let err := OrderBookError AmountCalculationFailed in
  let by_quote (desired : Balance) :=
    base ← ok_or (BalanceUnit.checked_div
                    (BalanceUnit.copy_divisibility (OrderBook.tick_size self) desired) price) err;
    let base_amount := OrderBook.align_amount self base in
    mret (base_amount, base_amount) in
  let by_base (desired : Balance) :=
    let base_amount :=
      OrderBook.align_amount self (BalanceUnit.copy_divisibility (OrderBook.step_lot_size self) desired) in
    quote_amount ← ok_or (BalanceUnit.checked_mul base_amount price) err;
    mret (quote_amount, base_amount) in
  match amount, direction with
  | WithDesiredInput desired, Buy | WithDesiredOutput desired, Sell => by_quote desired
  | WithDesiredInput desired, Sell | WithDesiredOutput desired, Buy => by_base desired
  end.

Definition quote_without_impact_book self (input_asset_id output_asset_id : AssetId) (amount : QuoteAmount)
    : M D DispatchError SwapOutcome :=
  direction ← lift (OrderBook.get_direction self input_asset_id output_asset_id);
  best ← match direction with Buy => OrderBook.best_ask self | Sell => OrderBook.best_bid self end;
  '(price, _) ← ok_or best (OrderBookError NotEnoughLiquidityInOrderBook);
  '(target_amount, base_amount) ← lift (amounts_at self price amount direction);
  _ ← ensure (BalanceUnit.gt target_amount BalanceUnit.zero) (OrderBookError InvalidOrderAmount);
  _ ← ensure (in_lot_limits self base_amount) (OrderBookError InvalidOrderAmount);
  mret (mkOutcome (BalanceUnit.balance target_amount) []).
End book.

(** ** The trait *)

Section source.
Context {Cfg : Config} {SK : StorageKeys} {OR : Origins}.
Context {L : Type} `{MultiCurrency L} {TA : TechAccounts} {AI : AssetInfo L} {PR : Providers L}.
Abbreviation C := (M (Chain L) DispatchError).

(** A fresh cache that is only read and then dropped. *)
Definition reading {A} (f : M CacheDataLayer.t DispatchError A) : C A := λ c,
  (fst (f (CacheDataLayer.new (data (world (pallet c))))), c).

Definition can_exchange (dex : DEXId) (input_asset_id output_asset_id : AssetId) (c : Chain L) : bool :=
  match assemble_order_book_id dex input_asset_id output_asset_id (market c) with
  | None => false
  | Some id =>
      match books c !! id with
      | None => false
      | Some order_book => bool_decide (OrderBook.status order_book = Trade)
      end
  end.

(** The order book of the assets. *)
Definition assembled_id (dex : DEXId) (input_asset_id output_asset_id : AssetId) : C OrderBookId :=
  c ← get_state;
  ok_or (assemble_order_book_id dex input_asset_id output_asset_id (market c)) (OrderBookError UnknownOrderBook).

Definition quote (dex : DEXId) (input_asset_id output_asset_id : AssetId) (amount : QuoteAmount)
    : C SwapOutcome :=
  id ← assembled_id dex input_asset_id output_asset_id;
  order_book ← get_book id;
  reading (quote_book order_book input_asset_id output_asset_id amount).

Definition step_quote (dex : DEXId) (input_asset_id output_asset_id : AssetId) (amount : QuoteAmount)
    : C DiscreteQuotation :=
  id ← assembled_id dex input_asset_id output_asset_id;
  if quote_amount amount =? 0 then mret empty_quotation else
  order_book ← get_book id;
  reading (step_quote_book order_book input_asset_id output_asset_id amount).

(** The part of [exchange] between the creation and the commit of the cache. *)
Definition exchange_book {D} `{DataLayer D} (self : OrderBook.t) (id : OrderBookId)
    (sender receiver : AccountId) (input_asset_id output_asset_id : AssetId) (desired_amount : SwapAmount)
    : M (World D L) DispatchError SwapOutcome :=
  deal_info ← on_data (OrderBook.calculate_deal self input_asset_id output_asset_id (to_quote desired_amount));
  _ ← ensure (DealInfo.is_valid deal_info) (OrderBookError PriceCalculationFailed);
  let within (input output : Balance) :=
    match desired_amount with
    | SwapWithDesiredInput _ min_amount_out => min_amount_out <=? output
    | SwapWithDesiredOutput _ max_amount_in => input <=? max_amount_in
    end in
  _ ← ensure (within (BalanceUnit.balance (OrderAmount.value (DealInfo.input_amount deal_info)))
                (BalanceUnit.balance (OrderAmount.value (DealInfo.output_amount deal_info))))
        (OrderBookError SlippageLimitExceeded);
  let to := if bool_decide (sender = receiver) then None else Some receiver in
  let market_order :=
    MarketOrder.new sender (DealInfo.direction deal_info) id (DealInfo.base_amount deal_info) to in
  '(input_amount, output_amount, _) ← OrderBook.execute_market_order self market_order;
  let input := BalanceUnit.balance (OrderAmount.value input_amount) in
  let output := BalanceUnit.balance (OrderAmount.value output_amount) in
  _ ← ensure (within input output) (OrderBookError SlippageLimitExceeded);
  mret (mkOutcome (match desired_amount with SwapWithDesiredInput _ _ => output | SwapWithDesiredOutput _ _ => input end) []).

Definition exchange (sender receiver : AccountId) (dex : DEXId) (input_asset_id output_asset_id : AssetId)
    (desired_amount : SwapAmount) : C SwapOutcome :=
  id ← assembled_id dex input_asset_id output_asset_id;
  order_book ← get_book id;
  through_cache (exchange_book order_book id sender receiver input_asset_id output_asset_id desired_amount).

(** No rewards for the order book. *)
Definition check_rewards (dex : DEXId) (input_asset_id output_asset_id : AssetId)
    (input_amount output_amount : Balance) : C (list (Balance * AssetId)) := mret [].

Definition quote_without_impact (dex : DEXId) (input_asset_id output_asset_id : AssetId) (amount : QuoteAmount)
    : C SwapOutcome :=
  id ← assembled_id dex input_asset_id output_asset_id;
  order_book ← get_book id;
  reading (quote_without_impact_book order_book input_asset_id output_asset_id amount).
End source.
