(* ===== verification/Quotes.v ===== *)
(** * Quotes and swaps of the order book

    The amounts [calculate_deal] computes from the aggregated price levels are
    those the execution of the market order pays order by order, when the
    price of every resting order is exact on the lot grid.  The swaps and quotes
    of the pallet, run through the cache, inherit this. *)

From S2P Require Import Prelude BTreeMap FixedPoint Units OrderTypes SwapTypes DataLayer StorageProps.
From S2P Require Import CacheStorage CacheProps CacheLayer CacheRefine LayerSpec World Payments TradingPair.
From S2P Require Import OrderBook Matching Priority CrossSpread BookState Solvency Operations.
From S2P Require Import SampleLedger WorldRefine Effects Lots Scheduler Expiration Alignment Pallet Soundness.
From S2P Require Import PalletProps LiquiditySource.

(** ** The cost of an amount *)

Section cost.

(** Price times amount, of the first [n] units of price levels and of a queue. *)
Fixpoint level_cost (data : list (OrderPrice * OrderVolume)) (n : Z) : Z :=
  match data with
  | [] => 0
  | (p, v) :: data =>
      if n <=? inner v then inner p * n else inner p * inner v + level_cost data (n - inner v)
  end.

Fixpoint queue_cost (q : list LimitOrder.t) (n : Z) : Z :=
  match q with
  | [] => 0
  | o :: q =>
      let a := inner (LimitOrder.amount o) in
      if n <=? a then inner (LimitOrder.price o) * n
      else inner (LimitOrder.price o) * a + queue_cost q (n - a)
  end.

Definition taken_cost (ex : list (LimitOrder.t * OrderVolume)) : Z :=
  sum_by (λ p, inner (LimitOrder.price (fst p)) * inner (snd p)) ex.

Lemma take_cost divisibility b q n : positive q → 0 < n →
  n ≤ volume q →
  taken_cost (executed divisibility b (fst (take q n)) (snd (take q n))) = queue_cost q n.
Proof.
  unfold taken_cost, executed. revert n. induction q as [|o q IH]; intros n Hq Hn Hle; cbn.
  { unfold volume in Hle. cbn in Hle. lia. }
  apply Forall_cons in Hq as [Ho Hq]. rewrite volume_cons in Hle.
  destruct (Z.leb_spec (inner (LimitOrder.amount o)) n) as [H1|H1].
  - destruct (Z.eqb_spec (n - inner (LimitOrder.amount o)) 0) as [H2|H2].
    + assert (n = inner (LimitOrder.amount o)) as -> by lia. cbn. rewrite Z.leb_refl. lia.
    + rewrite (proj2 (Z.leb_gt _ _)) by lia.
      specialize (IH (n - inner (LimitOrder.amount o)) Hq ltac:(lia) ltac:(lia)).
      destruct (take q _) as [whole part]. cbn [fst snd] in *. cbn. rewrite <- IH. unfold sum_by. lia.
  - rewrite (proj2 (Z.leb_le _ _)) by lia. cbn. lia.
Qed.

(** Orders of one price. *)
Lemma level_queue_cost p os q n : positive os → (∀ o, o ∈ os → LimitOrder.price o = p) → 0 < n →
  queue_cost (os ++ q) n =
  if n <=? volume os then inner p * n else inner p * volume os + queue_cost q (n - volume os).
Proof.
  revert n. induction os as [|o os IH]; intros n Hos Hp Hn; cbn [app queue_cost].
  { unfold volume. cbn. rewrite (proj2 (Z.leb_gt _ _)) by lia. rewrite Z.sub_0_r. lia. }
  apply Forall_cons in Hos as [Ho Hos]. rewrite volume_cons. rewrite (Hp o) by left.
  pose proof (queue_volume_nonneg os Hos).
  destruct (Z.leb_spec n (inner (LimitOrder.amount o))) as [H1|H1].
  { by rewrite (proj2 (Z.leb_le _ _)) by lia. }
  rewrite IH; [|done|intros; apply Hp; by right|lia].
  destruct (Z.leb_spec (n - inner (LimitOrder.amount o)) (volume os)),
    (Z.leb_spec n (inner (LimitOrder.amount o) + volume os)); try lia.
  rewrite (Z.sub_add_distr n). lia.
Qed.
End cost.

Section market.
Context {Cfg : Config} {SK : StorageKeys} (divisibility : OrderBookId → bool) (self : OrderBook.t).
Abbreviation id := (OrderBook.order_book_id self).
Context (s : Storage) (HI : Inv divisibility s).

Lemma queue_of_cost sd data n : listed divisibility self s sd data → 0 < n →
  queue_cost (queue_of s id sd data) n = level_cost data n.
Proof.
  intros Hd. revert n. induction Hd as [|[p v] data (l & El & Hne & Hv) Hd IH]; intros n Hn; [done|].
  rewrite queue_of_cons. cbn [fst snd] in *. cbn [level_cost].
  assert (volume (orders_at s id (index (side_orders sd s !! (id, p)))) = inner v) as Ev.
  { rewrite El, Hv. cbn [index inner]. apply (orders_at_volume self). intros j Hj.
    eapply (level_ids_stored divisibility self); [done|]. by rewrite El. }
  rewrite (level_queue_cost p), Ev; [| |intros o; by apply (orders_at_price divisibility self)|done].
  - destruct (Z.leb_spec n (inner v)); [done|]. rewrite IH by lia. done.
  - apply Forall_forall. intros o [_ Ho]%(elem_of_orders_at divisibility self); [|done].
    by apply (inv_order _ _ HI) in Ho as [_ []].
Qed.

(** ** Sums over the market *)

Abbreviation step := (inner (OrderBook.step_lot_size self)).
Context (Hstep : 0 < step).

(** Divisible operands. *)
Lemma mul_units p v m : amount_ok true p → amount_ok true v → BalanceUnit.checked_mul p v = Some m →
  amount_ok true m ∧ inner m = inner p * inner v / BalanceUnit.RATIO.
Proof.
  intros [Hp Hwp] [Hv Hwv] (Hd & Em & Hw)%BalanceUnit.checked_mul_value; [|done..].
  unfold BalanceUnit.value in Em. rewrite Hd, Hp, Hv in *. done.
Qed.

Lemma sub_units u v m : amount_ok true u → acc_ok true v → BalanceUnit.checked_sub u v = Some m →
  amount_ok true m ∧ inner m = inner u - inner v.
Proof.
  intros [Hp Hwp] Hv (Hd & Em & Hw)%BalanceUnit.checked_sub_Some; [|done|].
  - unfold BalanceUnit.value in Em. rewrite Hp in *. cbn in Hd. rewrite Hd in Em.
    split; [done|]. destruct Hv as [->|[Hv _]]; [cbn in *; lia|]. by rewrite Hv in Em.
  - destruct Hv as [->|[_ ?]]; [by split|done].
Qed.

Lemma div_units u v m : amount_ok true u → amount_ok true v → BalanceUnit.checked_div u v = Some m →
  amount_ok true m ∧ 0 < inner v ∧ inner m = inner u * BalanceUnit.RATIO / inner v.
Proof.
  intros [Hp Hwp] [Hv Hwv] (Hpos & Hd & Hw & Em)%BalanceUnit.checked_div_value; [|done..].
  unfold BalanceUnit.value in *. rewrite Hd, Hp, Hv in *. done.
Qed.

Lemma align_units v : amount_ok true v →
  amount_ok true (OrderBook.align_amount self v) ∧ (step | inner (OrderBook.align_amount self v)) ∧
  0 ≤ inner (OrderBook.align_amount self v) ≤ inner v.
Proof.
  intros [Hd [Hw1 Hw2]]. unfold OrderBook.align_amount, BalanceUnit.balance, sat_mul. cbn.
  pose proof (Z.mul_div_le (inner v) step Hstep). pose proof (Z.div_pos (inner v) step Hw1 Hstep).
  assert (0 ≤ inner v / step * step) by nia. rewrite Z.min_r by lia.
  split; [split; [done|split; cbn; lia]|]. split; [by exists (inner v / step)|lia].
Qed.

(** Levels in whole lots, whose value has no digit beyond the 18th. *)
Definition exact_levels (data : list (OrderPrice * OrderVolume)) : Prop :=
  Forall (λ q, amount_ok true (fst q) ∧ 0 < inner (fst q) ∧ amount_ok true (snd q) ∧
    (step | inner (snd q)) ∧ (BalanceUnit.RATIO | inner (fst q) * step)) data.

Lemma exact_product p n : (BalanceUnit.RATIO | p * step) → (step | n) → (BalanceUnit.RATIO | p * n).
Proof. intros [k Hk] [j ->]. exists (k * j). rewrite <- (Z.mul_shuffle0 k), <- Hk. lia. Qed.

Record summed (data : list (OrderPrice * OrderVolume)) (b q B Q : OrderVolume) (m : Z) : Prop := {
  su_base : acc_ok true B;
  su_quote : acc_ok true Q;
  su_amount : 0 ≤ m ≤ depth data;
  su_lots : (step | m);
  su_base_sum : inner B = inner b + m;
  su_exact : (BalanceUnit.RATIO | level_cost data m);
  su_quote_sum : inner Q = inner q + level_cost data m / BalanceUnit.RATIO
}.

Lemma sum_finish p v data b q delta B Q : exact_levels ((p, v) :: data) → acc_ok true b → acc_ok true q →
  amount_ok true delta → inner delta ≤ inner v →
  BalanceUnit.checked_add b (OrderBook.align_amount self delta) = Some B →
  (∃ dq, BalanceUnit.checked_mul p (OrderBook.align_amount self delta) = Some dq ∧
         BalanceUnit.checked_add q dq = Some Q) →
  summed ((p, v) :: data) b q B Q (inner (OrderBook.align_amount self delta)).
Proof.
  intros Hex Hb Hq Hd Hle HB (dq & Hm & HQ). apply Forall_cons in Hex as [(Hp & Hp0 & Hv & Hvl & Hpe) Hex].
  destruct (align_units delta Hd) as (Ha & Hl & Hr).
  apply (acc_add true) in HB as [HB EB]; [|done..]. apply mul_units in Hm as [Hdq Edq]; [|done..].
  apply (acc_add true) in HQ as [HQ EQ]; [|done..]. cbn [fst snd] in *.
  assert (0 ≤ depth data) as Hdep.
  { apply (depth_nonneg true). eapply Forall_impl; [exact Hex|]. by intros x (_ & _ & ? & _). }
  assert (level_cost ((p, v) :: data) (inner (OrderBook.align_amount self delta)) =
          inner p * inner (OrderBook.align_amount self delta)) as Ec.
  { cbn [level_cost]. destruct (Z.leb_spec (inner (OrderBook.align_amount self delta)) (inner v)); [done|lia]. }
  split; try (by right); rewrite ?Ec; try done.
  - unfold depth in *. rewrite sum_by_cons. cbn [snd]. lia.
  - by apply exact_product.
  - by rewrite EQ, Edq.
Qed.

Lemma sum_market_loop_cost target data b q B Q en : exact_levels data → acc_ok true b → acc_ok true q →
  match target with None => True | Some t => amount_ok true (OrderAmount.value t) end →
  OrderBook.sum_market_loop self target data b q = Ok (B, Q, en) → ∃ m, summed data b q B Q m.
Proof.
  revert b q. induction data as [|[p v] data IH]; intros b q Hex Hb Hq Ht Hr; cbn in Hr.
  { injection Hr as <- <- <-. exists 0. split; cbn; rewrite ?Z.div_0_l by done; try done; try lia; apply Z.divide_0_r. }
  pose proof Hex as [(Hp & Hp0 & Hv & Hvl & Hpe) Hex']%Forall_cons. cbn [fst snd] in *.
  apply result_bind_ok in Hr as (qv & Hqv%result_ok_or_ok & Hr).
  pose proof Hqv as [Hqv' Eqv]%mul_units; [|done..].
  assert (∀ base quote, BalanceUnit.checked_add b v = Some base → BalanceUnit.checked_add q qv = Some quote →
    OrderBook.sum_market_loop self target data base quote = Ok (B, Q, en) →
    ∃ m, summed ((p, v) :: data) b q B Q m) as Hcont.
  { intros base quote H1 H2 H3. apply (acc_add true) in H1 as [H1 E1], H2 as [H2 E2]; [|done..].
    destruct (IH base quote Hex' (or_intror H1) (or_intror H2) Ht H3) as (m & [HB HQ Hm Hl EB He EQ]).
    exists (inner v + m). destruct Hv as [_ [Hv0 _]].
    pose proof (exact_product _ _ Hpe Hvl) as Hpv.
    assert (level_cost ((p, v) :: data) (inner v + m) = inner p * inner v + level_cost data m) as Ec.
    { cbn. destruct (Z.leb_spec (inner v + m) (inner v)) as [Hle|Hlt].
      - assert (m = 0) as -> by lia. rewrite Z.add_0_r.
        destruct data as [|[p' v'] data']; cbn; [lia|]. apply Forall_cons in Hex' as [(_ & _ & [_ [? _]] & _) _].
        cbn in *. rewrite (proj2 (Z.leb_le _ _)) by lia. lia.
      - f_equal. f_equal. lia. }
    split; try done; rewrite ?Ec.
    - unfold depth in *. rewrite sum_by_cons. cbn. lia.
    - by apply Z.divide_add_r.
    - lia.
    - by apply Z.divide_add_r.
    - destruct Hpv as [k Hk]. rewrite EQ, E2, Eqv, Hk, Z.div_mul, Z.div_add_l by done. lia. }
  destruct target as [[T|T]|]; cbn [OrderAmount.value] in Ht.
  - apply result_bind_ok in Hr as (sum & Hsum%result_ok_or_ok & Hr).
    pose proof Hsum as [Hs Es]%(acc_add true); [|done..].
    destruct (BalanceUnit.ge sum T) eqn:Hge.
    + rewrite (ge_same true) in Hge by done. zbool.
      apply result_bind_ok in Hr as (delta & Hdelta%result_ok_or_ok & Hr).
      apply sub_units in Hdelta as [Hd Ed]; [|done..]. run. eexists. eapply (sum_finish p v data b q delta); try done; [lia|by eauto].
    + run. by eapply Hcont.
  - apply result_bind_ok in Hr as (sum & Hsum%result_ok_or_ok & Hr).
    pose proof Hsum as [Hs Es]%(acc_add true); [|done..].
    destruct (BalanceUnit.ge sum T) eqn:Hge.
    + rewrite (ge_same true) in Hge by done. zbool.
      apply result_bind_ok in Hr as (dq & Hdq%result_ok_or_ok & Hr).
      apply sub_units in Hdq as [Hdq Edq]; [|done..].
      apply result_bind_ok in Hr as (delta & Hdelta%result_ok_or_ok & Hr).
      apply div_units in Hdelta as (Hd & _ & Ed); [|done..]. run. eexists. eapply (sum_finish p v data b q delta); try done; [|by eauto].
      rewrite Ed. apply Z.div_le_upper_bound; [done|].
      pose proof (Z.mul_div_le (inner p * inner v) BalanceUnit.RATIO eq_refl). unfold BalanceUnit.RATIO in *. nia.
    + run. by eapply Hcont.
  - run. by eapply Hcont.
Qed.

(** ** The deal and its execution *)

Context (Hdiv : divisibility id = true) (Hlots : in_lots self (LimitOrders s)).

(** No order of the book has a value beyond the 18th digit. *)
Definition exact_prices (m : gmap entry LimitOrder.t) : Prop :=
  ∀ i o, m !! (id, i) = Some o → (BalanceUnit.RATIO | inner (LimitOrder.price o) * step).

Context (Hexact : exact_prices (LimitOrders s)).

Lemma levels_exact sd : exact_levels (levels s id sd).
Proof.
  pose proof (levels_listed divisibility self s sd HI) as Hl. unfold exact_levels, listed in *.
  rewrite Forall_forall in *. intros [p v] Hq. destruct (Hl _ Hq) as (l & El & Hne & Hv). cbn [fst snd] in *.
  destruct l as [|j l]; [done|].
  destruct (level_ids_stored divisibility self s sd p j HI) as [o Ho]; [rewrite El; left|].
  assert (LimitOrder.price o = p) as <-.
  { apply (orders_at_price divisibility self s sd p o HI). rewrite El. cbn [index].
    apply (elem_of_orders_at divisibility self); [done|].
    destruct (inv_order _ _ HI _ _ _ Ho) as [-> _]. split; [left|done]. }
  pose proof (inv_order _ _ HI _ _ _ Ho) as [_ []]. split; [done|]. split; [done|].
  split; [|split; [|by eapply Hexact]].
  - pose proof (listed_levels_ok divisibility self s sd _ HI (levels_listed divisibility self s sd HI)) as Hok.
    unfold levels_ok in Hok. rewrite Forall_forall in Hok. rewrite Hdiv in Hok. by apply (Hok _ Hq).
  - rewrite Hv. apply (index_lots self s Hlots).
Qed.

Lemma sum_exact {A} (f : A → Z) l : (∀ x, x ∈ l → (BalanceUnit.RATIO | f x)) →
  (BalanceUnit.RATIO | sum_by f l) ∧ sum_by (λ x, f x / BalanceUnit.RATIO) l = sum_by f l / BalanceUnit.RATIO.
Proof.
  induction l as [|x l IH]; intros Hl; [split; [apply Z.divide_0_r|done]|].
  destruct IH as [Hd E]; [intros y Hy; apply Hl; by right|]. rewrite !sum_by_cons, E.
  destruct (Hl x) as [k Hk]; [left|]. split; [apply Z.divide_add_r; [by exists k|done]|].
  by rewrite Hk, Z.div_mul, Z.div_add_l.
Qed.

Section taken.
Context (dir : PriceVariant) (n : Z).
Abbreviation sd := (switched dir).
Abbreviation q := (queue s id sd).
Context (Hn : 0 < n ≤ volume q) (Hnl : (step | n)).
Abbreviation ex := (executed divisibility id (fst (take q n)) (snd (take q n))).

Lemma taken_entries x : x ∈ ex → LimitOrder.side (fst x) = sd ∧ BalanceUnit.is_divisible (snd x) = true ∧
  BalanceUnit.is_divisible (LimitOrder.price (fst x)) = true ∧
  (BalanceUnit.RATIO | inner (LimitOrder.price (fst x)) * inner (snd x)).
Proof.
  pose proof (take_spec q n (queue_positive divisibility self s sd HI) ltac:(lia)) as Ht.
  destruct (take q n) as [whole part]. destruct Ht as (rest & Hq & Hv & Hpart). cbn [fst snd].
  assert (∀ o, o ∈ q → LimitOrders s !! (id, LimitOrder.id o) = Some o ∧ LimitOrder.side o = sd ∧
    order_ok divisibility id o) as Hqo.
  { intros o Ho%(elem_of_queue divisibility self); [|done]. destruct Ho as [Ho ?].
    pose proof (inv_order _ _ HI _ _ _ Ho) as [_ ?]. done. }
  unfold executed. rewrite elem_of_app. intros [(o & -> & Ho)%list_elem_of_fmap|Hx].
  - destruct (Hqo o) as (Ho' & Hsd & []); [rewrite Hq; set_solver|]. cbn. rewrite Hdiv in *.
    split_and!; try done. apply exact_product; [by eapply Hexact|by eapply Hlots].
  - destruct part as [[o r]|]; [|by apply elem_of_nil in Hx]. apply list_elem_of_singleton in Hx as ->.
    destruct Hpart as [[rest' ->] Hr]. destruct (Hqo o) as (Ho' & Hsd & []); [rewrite Hq; set_solver|].
    cbn. rewrite Hdiv. split_and!; try done. apply exact_product; [by eapply Hexact|].
    cbn in Hv. rewrite Z.min_l in Hv by lia. replace r with (n - volume whole) by lia.
    apply Z.divide_sub_r; [done|]. apply (volume_lots self s Hlots). intros o' Ho''.
    apply Hqo. rewrite Hq. set_solver.
Qed.

Lemma taken_amounts :
  sum_by (λ x, inner (snd x)) ex = n ∧
  sum_by (λ x, quote_of (LimitOrder.price (fst x)) (snd x)) ex = level_cost (levels s id sd) n / BalanceUnit.RATIO.
Proof.
  split.
  - pose proof (take_spec q n (queue_positive divisibility self s sd HI) ltac:(lia)) as Ht.
    destruct (take q n) as [whole part]. destruct Ht as (rest & _ & Hv & _). cbn [fst snd].
    rewrite Z.min_l in Hv by lia. unfold executed. rewrite sum_by_app, sum_by_fmap.
    unfold volume in Hv. destruct part as [[o r]|]; cbn in *; lia.
  - rewrite <- (queue_of_cost sd (levels s id sd)); [|by apply levels_listed|lia]. fold (queue s id sd).
    rewrite <- (take_cost divisibility id) by (lia || by apply (queue_positive divisibility self)).
    unfold taken_cost. rewrite <- (proj2 (sum_exact _ ex (λ x Hx, proj2 (proj2 (proj2 (taken_entries x Hx)))))).
    apply sum_by_ext. intros x Hx%taken_entries. destruct Hx as (_ & Hd & Hp & _).
    unfold quote_of, BalanceUnit.value. by rewrite Hd, Hp.
Qed.

(** What the taker pays and receives. *)
Lemma taken_totals :
  let cost := level_cost (levels s id sd) n / BalanceUnit.RATIO in
  due_total ex = match dir with Buy => cost | Sell => n end ∧
  owed_total ex = match dir with Buy => n | Sell => cost end.
Proof.
  cbv zeta. pose proof taken_amounts as [En Ec]. pose proof taken_entries as Hx.
  unfold due_total, owed_total, due_for, owed_for.
  split; destruct dir; (etransitivity; [|exact En || exact Ec]);
    apply sum_by_ext; intros x [Hs _]%Hx; by rewrite Hs.
Qed.
End taken.

Lemma zero_unit : acc_ok true BalanceUnit.zero.
Proof. by left. Qed.

(** What a calculated deal exchanges. *)
Definition deal_shape (deal : DealInfo.t) (n cost : Z) : Prop :=
  inner (DealInfo.base_amount deal) = n ∧
  match DealInfo.direction deal with
  | Buy => inner (OrderAmount.value (DealInfo.input_amount deal)) = cost ∧
           inner (OrderAmount.value (DealInfo.output_amount deal)) = n
  | Sell => inner (OrderAmount.value (DealInfo.input_amount deal)) = n ∧
            inner (OrderAmount.value (DealInfo.output_amount deal)) = cost
  end.

Lemma calculate_deal_ok input output amount deal s' :
  BalanceUnit.is_divisible (OrderBook.tick_size self) = true →
  BalanceUnit.is_divisible (OrderBook.step_lot_size self) = true → is_u128 (quote_amount amount) →
  OrderBook.calculate_deal self input output amount s = (Ok deal, s') →
  s' = s ∧ amount_ok true (DealInfo.base_amount deal) ∧ ∃ n,
    0 < n ≤ volume (queue s id (switched (DealInfo.direction deal))) ∧ (step | n) ∧
    deal_shape deal n (level_cost (levels s id (switched (DealInfo.direction deal))) n / BalanceUnit.RATIO).
Proof.
  intros Htick Hsd Hu Hr. unfold OrderBook.calculate_deal in Hr.
  apply M_bind_ok in Hr as (dir & s1 & [_ ->]%M_lift_ok & Hr).
  rewrite (M_bind_run_ok _ _ _ _ _ (market_data_storage self (switched dir) s)) in Hr. cbv zeta in Hr.
  set (target := match amount, dir with WithDesiredInput _, Buy => _ | _, _ => _ end) in Hr.
  assert (amount_ok true (OrderAmount.value target)) as Ht.
  { unfold target. destruct amount, dir; split; done. }
  clearbody target. apply M_bind_ok in Hr as ([b q] & s1 & [Hsum ->]%M_lift_ok & Hr).
  unfold OrderBook.sum_market in Hsum. apply result_bind_ok in Hsum as ([[B Q] en] & Hloop & Hsum).
  apply result_bind_ok in Hsum as ([] & _ & [= <- <-]).
  apply sum_market_loop_cost in Hloop as (n & [HB HQ Hn Hl EB He EQ]); [|apply levels_exact|apply zero_unit|apply zero_unit|done].
  rewrite Z.add_0_l in EB, EQ. unfold depth in Hn. rewrite <- (queue_volume divisibility self) in Hn by done.
  apply M_bind_ok in Hr as ([] & s1 & [Hpos ->]%M_ensure_ok & Hr).
  apply andb_true_iff in Hpos as [Hpos _]. rewrite BalanceUnit.gt_value in Hpos.
  destruct HB as [->|HB]; [done|].
  unfold BalanceUnit.value in Hpos. cbn [OrderAmount.value BalanceUnit.is_divisible] in Hpos.
  rewrite (proj1 HB) in Hpos. zbool. cbn in Hpos.
  destruct dir; apply M_bind_ok in Hr as (pr & s1 & [_ ->]%M_ok_or_ok & [-> ->]%M_ret_ok); cbn.
  all: split; [done|]; split; [done|]; exists n; split; [cbn [switched] in Hn; lia|]; by split.
Qed.
End market.

(** ** Quotes and swaps of the pallet *)

Section honoured.
Context {Cfg : Config} {SK : StorageKeys} {OR : Origins}.
Context {L : Type} `{MultiCurrencyLaws L} {TA : TechAccounts} {AI : AssetInfo L} {PR : Providers L}.
Context (Hinj : tech_injective).
Implicit Types (c : Chain L) (w : World Storage L).
Abbreviation orders w := (LimitOrders (data w)).

(** The limit of a swap. *)
Definition within (a : SwapAmount) (amount : Balance) : bool :=
  match a with
  | SwapWithDesiredInput _ min_amount_out => min_amount_out <=? amount
  | SwapWithDesiredOutput _ max_amount_in => amount <=? max_amount_in
  end.

Definition swap_amount (a : SwapAmount) (deal : DealInfo.t) : Balance :=
  BalanceUnit.balance (OrderAmount.value
    (match a with
     | SwapWithDesiredInput _ _ => DealInfo.output_amount deal
     | SwapWithDesiredOutput _ _ => DealInfo.input_amount deal
     end)).

Section book.
Context (self : OrderBook.t) (sender receiver : AccountId) (input output : AssetId) (desired : SwapAmount).
Abbreviation id := (OrderBook.order_book_id self).
Abbreviation deal_of := (OrderBook.calculate_deal self input output (to_quote desired)).

Definition swap_order (deal : DealInfo.t) : MarketOrder.t :=
  MarketOrder.new sender (DealInfo.direction deal) id (DealInfo.base_amount deal)
    (if bool_decide (sender = receiver) then None else Some receiver).

Lemma calculate_deal_read (s : Storage) a deal s' :
  OrderBook.calculate_deal self input output a s = (Ok deal, s') → s' = s.
Proof.
  intros Hr. unfold OrderBook.calculate_deal in Hr.
  apply M_bind_ok in Hr as (dir & s1 & [_ ->]%M_lift_ok & Hr).
  rewrite (M_bind_run_ok _ _ _ _ _ (market_data_storage self (switched dir) s)) in Hr. cbv zeta in Hr.
  apply M_bind_ok in Hr as ([b q] & s1 & [_ ->]%M_lift_ok & Hr).
  apply M_bind_ok in Hr as ([] & s1 & [_ ->]%M_ensure_ok & Hr).
  destruct dir; by apply M_bind_ok in Hr as (pr & s1 & [_ ->]%M_ok_or_ok & [_ ->]%M_ret_ok).
Qed.

(** The run of a swap over any data layer. *)
Lemma exchange_book_inv {D} `{DataLayer D} (w w' : World D L) y :
  exchange_book self id sender receiver input output desired w = (Ok y, w') →
  ∃ deal (w1 : World D L) i o n, on_data deal_of w = (Ok deal, w1) ∧ DealInfo.is_valid deal = true ∧
    within desired (swap_amount desired deal) = true ∧
    OrderBook.execute_market_order self (swap_order deal) w1 = (Ok (i, o, n), w') ∧
    outcome_fee y = [] ∧ within desired (outcome_amount y) = true ∧
    outcome_amount y = BalanceUnit.balance (OrderAmount.value
      (match desired with SwapWithDesiredInput _ _ => o | SwapWithDesiredOutput _ _ => i end)).
Proof.
  intros Hr. apply M_bind_ok in Hr as (deal & w1 & Hd & Hr).
  apply M_bind_ok in Hr as ([] & w2 & [Hv ->]%M_ensure_ok & Hr). cbv zeta in Hr.
  apply M_bind_ok in Hr as ([] & w2 & [Hl ->]%M_ensure_ok & Hr).
  apply M_bind_ok in Hr as ([[i o] n] & w2 & He & Hr).
  apply M_bind_ok in Hr as ([] & w3 & [Hl2 ->]%M_ensure_ok & [-> ->]%M_ret_ok).
  exists deal, w1, i, o, n. unfold within, swap_amount. destruct desired; done.
Qed.

Context (orphans : list entry) (w : World Storage L) (Hg : Good divisibility orphans w).
Context (Hwf : book_wf id self) (Hdiv : divisibility id = true) (Hlots : in_lots self (orders w)).
Context (Hexact : exact_prices self (orders w)).
Context (Hu : user_account sender) (Ha : is_u128 (quote_amount (to_quote desired))).

Lemma deal_facts deal s' : deal_of (data w) = (Ok deal, s') →
  amount_ok true (DealInfo.base_amount deal) ∧ ∃ n,
    0 < n ≤ volume (queue (data w) id (switched (DealInfo.direction deal))) ∧
    (inner (OrderBook.step_lot_size self) | n) ∧
    deal_shape deal n (level_cost (levels (data w) id (switched (DealInfo.direction deal))) n / BalanceUnit.RATIO).
Proof.
  intros Hr. destruct Hwf. eapply (calculate_deal_ok divisibility) in Hr as (_ & ? & ?); try done; try apply Hg.
  - naive_solver.
  - naive_solver.
  - naive_solver congruence.
Qed.

Lemma exchange_book_sim (c : World CacheDataLayer.t L) : same_world divisibility c w →
  sim_run (same_world divisibility) unrelated eq
    (exchange_book self id sender receiver input output desired c)
    (exchange_book self id sender receiver input output desired w).
Proof.
  intros Hc. unfold exchange_book. eapply (sim_run_bind _ _ eq).
  { apply (on_data_sim divisibility); [|done]. apply (calculate_deal_refines divisibility). }
  clear c Hc. intros deal ? c ? <- Hc (s' & Hd & ->)%zoom_ok.
  pose proof (calculate_deal_read _ _ _ _ Hd) as ->. rewrite set_data_same in *.
  destruct (deal_facts _ _ Hd) as [Hb _].
  eapply (sim_run_bind _ _ eq); [by apply sim_ensure|]. clear c Hc. intros _ _ c ? _ Hc [_ ->]%M_ensure_ok.
  eapply (sim_run_bind _ _ eq); [by apply sim_ensure|]. clear c Hc. intros _ _ c ? _ Hc [_ ->]%M_ensure_ok.
  eapply (sim_run_bind _ _ eq).
  { eapply (execute_sim divisibility self orphans); [by eapply book_wf_ok|done..|]. split; [|done].
    by rewrite Hdiv. }
  clear c Hc. intros [[i o] n] ? c w1 <- Hc _.
  eapply (sim_run_bind _ _ eq); [by apply sim_ensure|]. clear c Hc. intros _ _ c ? _ Hc [_ ->]%M_ensure_ok.
  by apply sim_ret.
Qed.

(** The amounts of the swap are those of the calculated deal. *)
Lemma exchange_matches_deal deal i o n w' : deal_of (data w) = (Ok deal, data w) →
  OrderBook.execute_market_order self (swap_order deal) w = (Ok (i, o, n), w') →
  inner (OrderAmount.value i) = inner (OrderAmount.value (DealInfo.input_amount deal)) ∧
  inner (OrderAmount.value o) = inner (OrderAmount.value (DealInfo.output_amount deal)).
Proof.
  intros Hd Hr. pose proof (deal_facts _ _ Hd) as (Hb & n' & Hn & Hl & En & Hshape).
  apply (execute_run divisibility self orphans (book_wf_ok _ _ Hwf) Hinj) in Hr;
    [|done|split; [by rewrite Hdiv|done]].
  cbn [MarketOrder.direction MarketOrder.amount MarketOrder.owner swap_order MarketOrder.new] in Hr.
  rewrite En in Hr. destruct Hr as (_ & _ & _ & _ & (-> & -> & _) & _).
  edestruct (taken_totals divisibility self (data w)) as [Ed Eo];
    [apply Hg|apply Hwf|exact Hdiv|exact Hlots|exact Hexact|exact Hn|exact Hl|].
  unfold deal_input, deal_output. rewrite Ed, Eo.
  destruct (DealInfo.direction deal); destruct Hshape as [-> ->]; done.
Qed.
End book.

(** *** Through the cache *)

Lemma deal_same c self input output a : Inv divisibility (data (world (pallet c))) →
  fst (OrderBook.calculate_deal self input output a (data (open_cache (world (pallet c))))) =
  fst (OrderBook.calculate_deal self input output a (data (world (pallet c)))).
Proof.
  intros [Hs _ _ _ _]%open_same.
  pose proof (calculate_deal_refines divisibility self input output a _ _ Hs) as Hr. unfold sim_run in Hr.
  destruct (OrderBook.calculate_deal _ _ _ _ (data (open_cache _))) as [[d|e] t],
    (OrderBook.calculate_deal _ _ _ _ _) as [[d'|e'] t']; cbn; naive_solver congruence.
Qed.

Lemma assembled_book {A} dex input output b self (k : OrderBookId → OrderBook.t → M (Chain L) DispatchError A) c :
  assemble_order_book_id dex input output (market c) = Some b → books c !! b = Some self →
  (id ← assembled_id dex input output; order_book ← get_book id; k id order_book) c = k b self c.
Proof. intros Hb Hself. unfold assembled_id, get_book. exec. rewrite Hb. exec. rewrite Hself. by exec. Qed.

Section swap.
Context (dex : DEXId) (input output : AssetId) (desired : SwapAmount) (b : OrderBookId) (self : OrderBook.t).
Context (c : Chain L) (Hsound : Sound (pallet c)).
Context (Hb : assemble_order_book_id dex input output (market c) = Some b) (Hself : books c !! b = Some self).
Abbreviation st := (data (world (pallet c))).
Abbreviation deal_of := (OrderBook.calculate_deal self input output (to_quote desired)).

Lemma quote_run x c' : LiquiditySource.quote dex input output (to_quote desired) c = (Ok x, c') →
  ∃ deal, deal_of st = (Ok deal, st) ∧ DealInfo.is_valid deal = true ∧
    x = mkOutcome (swap_amount desired deal) [].
Proof.
  unfold LiquiditySource.quote. rewrite (assembled_book _ _ _ _ _ _ _ Hb Hself). intros [= Hq _].
  change (CacheDataLayer.new st) with (data (open_cache (world (pallet c)))) in Hq.
  pose proof (deal_same c self input output (to_quote desired) (sound_inv _ Hsound)) as Hd.
  unfold quote_book, mbind, M_bind in Hq.
  destruct (deal_of (data (open_cache _))) as [[d|e] t]; [|done]. cbn in Hd.
  destruct (deal_of st) as [r t'] eqn:E. cbn in Hd. subst r.
  pose proof (calculate_deal_read _ _ _ _ _ _ _ E) as ->. exists d. split; [done|].
  destruct (DealInfo.is_valid d); [|done]. split; [done|].
  destruct (in_lot_limits _ _); [|done]. injection Hq as <-. unfold swap_amount. by destruct desired.
Qed.

Lemma exchange_slippage sender receiver deal : deal_of st = (Ok deal, st) → DealInfo.is_valid deal = true →
  within desired (swap_amount desired deal) = false →
  fst (exchange sender receiver dex input output desired c) = Err (OrderBookError SlippageLimitExceeded).
Proof.
  intros Hd Hv Hl. unfold exchange. rewrite (assembled_book _ _ _ _ _ _ _ Hb Hself).
  apply through_cache_fails. unfold exchange_book. 
  pose proof (deal_same c self input output (to_quote desired) (sound_inv _ Hsound)) as Hs. rewrite Hd in Hs.
  unfold on_data, zoom, mbind, M_bind. destruct (deal_of (data (open_cache _))) as [r t]. cbn in Hs. subst r.
  rewrite Hv. cbn. unfold within, swap_amount in Hl. destruct desired; cbn in *; by rewrite Hl.
Qed.

(** A swap is the execution of the market order of the calculated deal. *)
Lemma exchange_executes sender receiver y c' : is_non_divisible (base b) = false →
  user_account sender → is_u128 (quote_amount (to_quote desired)) → exact_prices self (LimitOrders st) →
  exchange sender receiver dex input output desired c = (Ok y, c') →
  ∃ deal i o n w', deal_of st = (Ok deal, st) ∧ in_lots self (LimitOrders st) ∧
    OrderBook.execute_market_order self (swap_order self sender receiver deal) (world (pallet c)) = (Ok (i, o, n), w') ∧
    c' = set_pallet (set_world w' (pallet c)) c ∧ y = mkOutcome (swap_amount desired deal) [] ∧
    within desired (outcome_amount y) = true ∧
    inner (OrderAmount.value i) = inner (OrderAmount.value (DealInfo.input_amount deal)) ∧
    inner (OrderAmount.value o) = inner (OrderAmount.value (DealInfo.output_amount deal)).
Proof.
  intros Hdiv Hu Ha Hexact. unfold exchange. rewrite (assembled_book _ _ _ _ _ _ _ Hb Hself). intros Hr.
  pose proof Hsound as [Hbooks Hw]. destruct (Hbooks _ _ Hself) as [Hwf _]. pose proof (bw_id _ _ Hwf) as <-.
  pose proof (sw_good _ _ _ Hw) as (orphans & Hg & _).
  assert (OrderBook.tech_status self = Ready) as Hready.
  { pose proof Hr as [w1 Hc]%through_cache_run. apply exchange_book_inv in Hc as (d & w2 & i & o & n & _ & _ & _ & Hx & _).
    eapply open_ready; [done..|]. by eapply execute_open. }
  pose proof (ready_lots _ _ _ _ Hw Hself Hready) as Hlots.
  assert (divisibility (OrderBook.order_book_id self) = true) as Hdv by (unfold divisibility; by rewrite Hdiv).
  eapply through_cache_ok in Hr as (w' & Hr & ->);
    [|by apply sound_inv|by eapply exchange_book_sim; [..|apply open_same, sound_inv]].
  apply exchange_book_inv in Hr as (d & w1 & i & o & n & Hd & Hv & Hl & Hx & Hfee & Hl' & Hy).
  apply zoom_ok in Hd as (s' & Hd & ->). pose proof (calculate_deal_read _ _ _ _ _ _ _ Hd) as ->.
  rewrite set_data_same in Hx. eapply exchange_matches_deal in Hx as E; [|done..]. destruct E as [Ei Eo].
  exists d, i, o, n, w'. split_and!; try done.
  destruct y as [amount fee]. cbn in *. subst fee. f_equal. rewrite Hy. unfold swap_amount, BalanceUnit.balance.
  by destruct desired.
Qed.

Lemma exchange_run sender receiver y c' : is_non_divisible (base b) = false →
  user_account sender → is_u128 (quote_amount (to_quote desired)) → exact_prices self (LimitOrders st) →
  exchange sender receiver dex input output desired c = (Ok y, c') →
  ∃ deal, deal_of st = (Ok deal, st) ∧ y = mkOutcome (swap_amount desired deal) [] ∧
    within desired (outcome_amount y) = true ∧ Sound (pallet c').
Proof.
  intros Hdiv Hu Ha Hexact Hr.
  apply exchange_executes in Hr as (d & i & o & n & w' & Hd & Hlots & Hx & -> & -> & Hl & _); [|done..].
  exists d. split_and!; [done..|]. pose proof Hsound as [Hbooks Hw]. destruct (Hbooks _ _ Hself) as [Hwf _].
  pose proof (bw_id _ _ Hwf) as <-. pose proof (sw_good _ _ _ Hw) as (orphans & Hg & _).
  assert (divisibility (OrderBook.order_book_id self) = true) as Hdv by (unfold divisibility; by rewrite Hdiv).
  split; [exact Hbooks|].
  refine (execute_sound Hinj _ _ _ (swap_order self sender receiver d) _ _ _ Hbooks Hw Hself _ Hu Hx).
  cbn. rewrite Hdv. by eapply deal_facts in Hd as [? _].
Qed.
End swap.

(** C28. The quote of the order book is honoured.  For a divisible base asset and
    resting prices that are exact on the lot grid, a swap after a quote fails
    with [SlippageLimitExceeded] when the quoted amount is not within the limit of
    the swap; when it succeeds it exchanges exactly the quoted amount, without a
    fee and within the limit, and leaves the pallet sound. *)
Theorem quote_is_honoured dex input output sender receiver desired b self c x c1 :
  Sound (pallet c) → user_account sender → is_u128 (quote_amount (to_quote desired)) →
  assemble_order_book_id dex input output (market c) = Some b → is_non_divisible (base b) = false →
  books c !! b = Some self → exact_prices self (LimitOrders (data (world (pallet c)))) →
  LiquiditySource.quote dex input output (to_quote desired) c = (Ok x, c1) →
  c1 = c ∧
  (within desired (outcome_amount x) = false →
   fst (exchange sender receiver dex input output desired c) = Err (OrderBookError SlippageLimitExceeded)) ∧
  ∀ y c', exchange sender receiver dex input output desired c = (Ok y, c') →
    y = x ∧ outcome_fee y = [] ∧ within desired (outcome_amount y) = true ∧ Sound (pallet c').
Proof.
  intros Hs Hu Ha Hb Hdiv Hself Hexact Hq. split.
  { unfold LiquiditySource.quote in Hq. rewrite (assembled_book _ _ _ _ _ _ _ Hb Hself) in Hq. by injection Hq. }
  eapply quote_run in Hq as (deal & Hd & Hv & ->); [|done..]. split.
  - intros Hl. by eapply exchange_slippage.
  - intros y c' Hr. eapply exchange_run in Hr as (deal' & Hd' & -> & Hl & Hs'); [|done..].
    rewrite Hd in Hd'. by injection Hd' as <-.
Qed.
End honoured.

#[local] Existing Instance RuntimeConfig.
#[local] Existing Instance Samples.plain_keys.
Import ExpirationSamples PalletSamples.

(** Account 9 sells two units of asset 1 into the buy order of [bought]. *)
Definition sell (min_amount_out : Balance) : SwapAmount := SwapWithDesiredInput (2 * one) min_amount_out.

Lemma bought_orders : LimitOrders (data (world (pallet bought))) =
  {[ (Samples.book, 1) := LimitOrder.mk 1 7%N Buy (BalanceUnit.divisible (10 * one))
       (BalanceUnit.divisible (5 * one)) (BalanceUnit.divisible (5 * one)) 0 2592000000 432001 ]}.
Proof. vm_compute. reflexivity. Qed.

Lemma bought_exact self : OrderBook.step_lot_size self = BalanceUnit.divisible one →
  exact_prices self (LimitOrders (data (world (pallet bought)))).
Proof.
  intros Hs i o. rewrite bought_orders, Hs. intros [_ <-]%lookup_singleton_Some. by exists (10 * one).
Qed.

Lemma bought_quote n :
  LiquiditySource.quote 0 1%N 0%N (to_quote (sell n)) bought = (Ok (mkOutcome (20 * one) []), bought).
Proof. vm_compute. reflexivity. Qed.

(** The order book of asset 1. *)
Lemma bought_assembled : assemble_order_book_id 0 1%N 0%N (market bought) = Some Samples.book.
Proof. vm_compute. reflexivity. Qed.

Lemma bought_book : ∃ self, books bought !! Samples.book = Some self ∧
  OrderBook.step_lot_size self = BalanceUnit.divisible one.
Proof. eexists. split; vm_compute; reflexivity. Qed.

Lemma sell_run : ∃ c', exchange 9%N 9%N 0 1%N 0%N (sell (20 * one)) bought = (Ok (mkOutcome (20 * one) []), c').
Proof. eexists. vm_compute. reflexivity. Qed.

Lemma quote_is_honoured_witness :
  fst (exchange 9%N 9%N 0 1%N 0%N (sell (20 * one + 1)) bought) = Err (OrderBookError SlippageLimitExceeded) ∧
  ∃ c', exchange 9%N 9%N 0 1%N 0%N (sell (20 * one)) bought = (Ok (mkOutcome (20 * one) []), c') ∧
    Sound (pallet c').
Proof.
  destruct bought_book as (self & Hself & Hstep). destruct sell_run as [c' Hc'].
  pose proof (one_ok 2 ltac:(lia)) as Hn. pose proof (odd_user 9 eq_refl) as Hu. split.
  - destruct (quote_is_honoured EffectSamples.tech_inj 0 1%N 0%N 9%N 9%N (sell (20 * one + 1)) Samples.book self
      bought _ bought bought_sound Hu Hn bought_assembled eq_refl Hself (bought_exact self Hstep)
      (bought_quote _)) as (_ & He & _).
    exact (He eq_refl).
  - exists c'. split; [exact Hc'|].
    destruct (quote_is_honoured EffectSamples.tech_inj 0 1%N 0%N 9%N 9%N (sell (20 * one)) Samples.book self
      bought _ bought bought_sound Hu Hn bought_assembled eq_refl Hself (bought_exact self Hstep)
      (bought_quote _)) as (_ & _ & Hx).
    exact (proj2 (proj2 (proj2 (Hx _ _ Hc')))).
Defined.
