(* ===== verification/Denomination.v ===== *)
(** * Redenomination of the quote asset ([DenominateXor] of [pallets/order-book/src/lib.rs])

    The denomination pallet divides the balances of XOR by a factor and lets the
    pallets that keep amounts of it follow.  This is what the order book does, with
    the storage iterators of the framework: they look up the next key when they
    are asked for it, so that a loop that moves entries may visit them again. *)

From stdpp Require Import sorting.
From S2P Require Import Prelude BTreeMap FixedPoint Units OrderTypes DataLayer StorageProps.
From S2P Require Import CacheStorage CacheProps CacheLayer CacheRefine LayerSpec World Payments TradingPair.
From S2P Require Import OrderBook Matching Priority CrossSpread BookState Solvency Operations.
From S2P Require Import SampleLedger WorldRefine Effects Lots Scheduler Expiration Alignment Pallet Soundness.
From S2P Require Import PalletProps.

(** ** Storage iterators *)

(** A loop with [fuel] steps at most. *)
Fixpoint loop {S R} (step : S → S + R) (fuel : Pos.t) (s : S) : S + R :=
  match fuel with
  | xH => step s
  | xO fuel => match loop step fuel s with inl s => loop step fuel s | r => r end
  | xI fuel =>
      match step s with
      | inl s => match loop step fuel s with inl s => loop step fuel s | r => r end
      | r => r
      end
  end.

Section iterators.
Context {SK : StorageKeys} `{Countable K1, Countable K2} {V : Type}.
Implicit Types (m : gmap (K1 * K2) V) (k : K1 * K2).

(** The order of the raw keys of a double map. *)
Definition raw_lt k k' : bool :=
  (raw_key (fst k) <? raw_key (fst k')) ||
  (raw_key (fst k) =? raw_key (fst k')) && (raw_key (snd k) <? raw_key (snd k')).

Definition ahead (previous : option (K1 * K2)) k : bool :=
  match previous with None => true | Some k' => raw_lt k' k end.

Definition entry_le (x y : (K1 * K2) * V) : Prop := raw_lt (fst y) (fst x) = false.

#[global] Instance entry_le_dec x y : Decision (entry_le x y).
Proof. unfold entry_le. apply _. Defined.

(** The first entry after the previous key. *)
Definition next_entry m (previous : option (K1 * K2)) : option ((K1 * K2) * V) :=
  head (merge_sort entry_le (filter (λ x, ahead previous (fst x) = true) (map_to_list m))).

(** One round of [for (k1, k2, v) in Map::iter() { body }]. *)
Definition visit (body : K1 * K2 → V → gmap (K1 * K2) V → gmap (K1 * K2) V)
    (s : option (K1 * K2) * gmap (K1 * K2) V) : (option (K1 * K2) * gmap (K1 * K2) V) + gmap (K1 * K2) V :=
  match next_entry (snd s) (fst s) with
  | None => inr (snd s)
  | Some (k, v) => inl (Some k, body k v (snd s))
  end.

Lemma next_entry_ok m previous k v : next_entry m previous = Some (k, v) →
  m !! k = Some v ∧ ahead previous k = true.
Proof.
  unfold next_entry. intros Hh%list.head_Some_elem_of. rewrite merge_sort_Permutation in Hh.
  apply list_elem_of_filter in Hh as [Ha Hm%elem_of_map_to_list]. done.
Qed.

Lemma raw_lt_irrefl k : raw_lt k k = false.
Proof. unfold raw_lt. by rewrite !Z.ltb_irrefl, andb_false_r. Qed.

Lemma raw_lt_trans k1 k2 k3 : raw_lt k1 k2 = true → raw_lt k2 k3 = true → raw_lt k1 k3 = true.
Proof. unfold raw_lt. rewrite !orb_true_iff, !andb_true_iff, !Z.ltb_lt, !Z.eqb_eq. lia. Qed.
End iterators.

Section loops.
Context {S R : Type} (step : S → S + R).

Lemma loop_decreases (P : S → Prop) (μ : S → Z) fuel s s' :
  (∀ s s', P s → step s = inl s' → P s' ∧ μ s' < μ s) → P s → loop step fuel s = inl s' →
  P s' ∧ μ s' ≤ μ s - Zpos fuel.
Proof.
  intros Hstep. revert s s'. induction fuel as [p IH|p IH|]; intros s s' Hs; cbn.
  - destruct (step s) as [s1|] eqn:E1; [|done]. apply Hstep in E1 as [H1 Hlt]; [|done].
    destruct (loop step p s1) as [s2|] eqn:E2; [|done]. apply IH in E2 as [H2 ?]; [|done].
    intros [H3 ?]%IH; [|done]. split; [done|]. lia.
  - destruct (loop step p s) as [s2|] eqn:E2; [|done]. apply IH in E2 as [H2 ?]; [|done].
    intros [H3 ?]%IH; [|done]. split; [done|]. lia.
  - intros [? ?]%Hstep; [|done]. split; [done|]. lia.
Qed.

(** A loop whose measure decreases ends by itself. *)
Lemma loop_ends (P : S → Prop) (μ : S → Z) fuel s :
  (∀ s s', P s → step s = inl s' → P s' ∧ μ s' < μ s) → (∀ s, 0 ≤ μ s) → P s → μ s < Zpos fuel →
  ∃ r, loop step fuel s = inr r.
Proof.
  intros Hstep Hnn Hs Hlt. destruct (loop step fuel s) as [s'|r] eqn:E; [|by exists r].
  apply (loop_decreases P μ) in E as [_ ?]; [|done..]. specialize (Hnn s'). lia.
Qed.
End loops.

(** ** The order book *)

Section denomination.
Context {Cfg : Config} {SK : StorageKeys} {L : Type} (XOR : AssetId).
Implicit Types (s : Storage) (books : Books).

(** [price.checked_div(&factor).unwrap_or(price)]. *)
Definition scaled (factor : BalanceUnit.t) (price : OrderPrice) : OrderPrice :=
  default price (BalanceUnit.checked_div price factor).

(** The order books with the quote asset XOR. *)
Definition quote_books books : list OrderBookId :=
  filter (λ b, quote b = XOR) (fst <$> storage_iter books).

Definition set_price (o : LimitOrder.t) (price : OrderPrice) : LimitOrder.t :=
  LimitOrder.mk (LimitOrder.id o) (LimitOrder.owner o) (LimitOrder.side o) price
    (LimitOrder.original_amount o) (LimitOrder.amount o) (LimitOrder.time o) (LimitOrder.lifespan o)
    (LimitOrder.expires_at o).

(** The orders are written where they are read. *)
Definition denominate_orders (factor : BalanceUnit.t) (bs : list OrderBookId)
    (m : gmap (OrderBookId * OrderId) LimitOrder.t) : gmap (OrderBookId * OrderId) LimitOrder.t :=
  fold_left (λ m '(k, o),
    if bool_decide (fst k ∈ bs) then <[k := set_price o (scaled factor (LimitOrder.price o))]> m else m)
    (storage_iter m) m.

(** The loop over [Bids] or [Asks] moves the entries. *)
Definition move_price (factor : BalanceUnit.t) (bs : list OrderBookId) (k : OrderBookId * OrderPrice)
    (v : list OrderId) (m : gmap (OrderBookId * OrderPrice) (list OrderId))
    : gmap (OrderBookId * OrderPrice) (list OrderId) :=
  if bool_decide (fst k ∈ bs) then <[(fst k, scaled factor (snd k)) := v]> (delete k m) else m.

(** More than the number of keys: the books with 2^128 prices of two kinds. *)
Definition side_fuel (m : gmap (OrderBookId * OrderPrice) (list OrderId)) : Pos.t :=
  Pos.of_succ_nat (size m) * 2 ^ 129.

Definition denominate_side (factor : BalanceUnit.t) (bs : list OrderBookId)
    (m : gmap (OrderBookId * OrderPrice) (list OrderId)) : option (gmap (OrderBookId * OrderPrice) (list OrderId)) :=
  match loop (visit (move_price factor bs)) (side_fuel m) (None, m) with
  | inl _ => None
  | inr m => Some m
  end.

(** The aggregated sides are built anew. *)
Definition denominate_levels (factor : BalanceUnit.t) (side : MarketSide) : MarketSide :=
  fold_left (λ new_side '(price, volume),
    default new_side (try_insert MaxSidePriceCount (scaled factor price) volume new_side)) side [].

Definition denominate_aggregated (factor : BalanceUnit.t) (bs : list OrderBookId)
    (m : gmap OrderBookId MarketSide) : gmap OrderBookId MarketSide :=
  fold_left (λ m '(b, side),
    if bool_decide (b ∈ bs) then <[b := denominate_levels factor side]> m else m) (storage_iter m) m.

(** [on_denominate]; [None] only when a loop does not end. *)
Definition on_denominate (factor : Balance) (p : Pallet L) : option (Pallet L) :=
  let unit := BalanceUnit.divisible factor in
  let bs := quote_books (OrderBooks p) in
  let s := data (world p) in
  bids ← denominate_side unit bs (Bids s);
  asks ← denominate_side unit bs (Asks s);
  Some (set_world (set_data
    (Build_Storage (denominate_orders unit bs (LimitOrders s)) bids asks
       (denominate_aggregated unit bs (AggregatedBids s)) (denominate_aggregated unit bs (AggregatedAsks s))
       (UserLimitOrders s)) (world p)) p).

(** *** Termination *)

Lemma length_filter_lt {A} (P Q : A → Prop) `{∀ x, Decision (P x), ∀ x, Decision (Q x)} (l : list A) k :
  (∀ x, Q x → P x) → k ∈ l → P k → ¬ Q k → (length (filter Q l) < length (filter P l))%nat.
Proof.
  intros HQP Hk HP HQ.
  assert (∀ l, length (filter Q l) ≤ length (filter P l))%nat as Hle.
  { clear -HQP. intros l. induction l as [|x l IH]; [done|]. rewrite !filter_cons.
    repeat case_decide; cbn; try lia. naive_solver. }
  induction l as [|x l IH]; [by apply elem_of_nil in Hk|]. rewrite !filter_cons.
  apply elem_of_cons in Hk as [<-|Hk].
  - specialize (Hle l). repeat case_decide; cbn; try done. lia.
  - specialize (IH Hk). repeat case_decide; cbn; try lia. naive_solver.
Qed.

Section termination.
Context (factor : BalanceUnit.t) (Hf : BalanceUnit.wf factor) (bs : list OrderBookId).
Context (m0 : gmap (OrderBookId * OrderPrice) (list OrderId)).

(** The keys the loop may visit. *)
Definition all_prices : list OrderPrice :=
  ((λ x, BalanceUnit.mk x true) <$> seqZ 0 (2 ^ 128)) ++ ((λ x, BalanceUnit.mk x false) <$> seqZ 0 (2 ^ 128)).
Definition all_keys : list (OrderBookId * OrderPrice) :=
  b ← (fst ∘ fst <$> map_to_list m0); (b,.) <$> all_prices.

Definition prices_wf (m : gmap (OrderBookId * OrderPrice) (list OrderId)) : Prop :=
  ∀ k v, m !! k = Some v → BalanceUnit.wf (snd k).

Lemma all_keys_ok k : fst k ∈ (fst ∘ fst <$> map_to_list m0) → BalanceUnit.wf (snd k) → k ∈ all_keys.
Proof.
  intros Hb [Hl Hu]. destruct k as [b [x d]]. cbn in *. unfold all_keys. apply list_elem_of_bind.
  exists b. split; [|done]. apply list_elem_of_fmap_2. unfold all_prices. rewrite elem_of_app.
  assert (x ∈ seqZ 0 (2 ^ 128)) by (apply elem_of_seqZ; unfold u128_max in Hu; lia).
  destruct d; [left|right]; by apply (list_elem_of_fmap_2 (λ x, BalanceUnit.mk x _)).
Qed.

Lemma all_keys_length : Z.of_nat (length all_keys) = Z.of_nat (size m0) * 2 ^ 129.
Proof.
  assert (Z.of_nat (length all_prices) = 2 ^ 129) as Hp.
  { unfold all_prices. rewrite length_app, !length_fmap, length_seqZ, Nat2Z.inj_add, Z2Nat.id by lia. done. }
  rewrite <- length_map_to_list. unfold all_keys.
  induction (map_to_list m0) as [|x l IH]; [done|]. cbn [fmap list_fmap mbind list_bind].
  rewrite length_app, length_fmap, Nat2Z.inj_add, Hp, IH. cbn [length]. lia.
Qed.

Lemma scaled_wf price : BalanceUnit.wf price → BalanceUnit.wf (scaled factor price).
Proof.
  intros Hp. unfold scaled. destruct (BalanceUnit.checked_div _ _) as [u|] eqn:E; [|done].
  by apply BalanceUnit.checked_div_value in E as (_ & _ & ? & _).
Qed.

(** The loop over the entries ends. *)
Lemma denominate_side_ends : prices_wf m0 → ∃ m, denominate_side factor bs m0 = Some m.
Proof.
  intros Hwf. unfold denominate_side.
  set (P := λ m : gmap (OrderBookId * OrderPrice) (list OrderId), ∀ k v, m !! k = Some v →
    fst k ∈ (fst ∘ fst <$> map_to_list m0) ∧ BalanceUnit.wf (snd k)).
  edestruct (loop_ends (visit (move_price factor bs)) (λ t, P (snd t))
    (λ t, Z.of_nat (length (filter (λ k, ahead (fst t) k = true) all_keys))) (side_fuel m0) (None, m0))
    as [m ->]; [| | | |by exists m].
  - intros [prev m] t Hm Hs. unfold visit in Hs. cbn [fst snd] in *.
    destruct (next_entry m prev) as [[k v]|] eqn:E; [|done]. injection Hs as <-.
    apply next_entry_ok in E as [Hk Ha]. pose proof (Hm _ _ Hk) as [Hb Hp]. split.
    + cbn. unfold move_price. case_bool_decide; [|done]. intros k' v' [[<- <-]|[_ Hk']]%lookup_insert_Some.
      * split; [done|]. by apply scaled_wf.
      * apply lookup_delete_Some in Hk' as [_ Hk']. by eapply Hm.
    + cbn [fst]. apply inj_lt, (length_filter_lt _ _ _ k); [|by apply all_keys_ok|done|].
      * intros x Hx. destruct prev as [k'|]; [|done]. cbn in *. by eapply raw_lt_trans.
      * cbn. by rewrite raw_lt_irrefl.
  - intros t. lia.
  - intros k v Hk. split; [|by eapply Hwf]. apply list_elem_of_fmap. exists (k, v). split; [done|].
    by apply elem_of_map_to_list.
  - cbn [fst]. pose proof (length_filter (λ k, ahead None k = true) all_keys). pose proof all_keys_length.
    unfold side_fuel. rewrite Pos2Z.inj_mul, Zpos_P_of_succ_nat. change (Z.pos (2 ^ 129)) with (2 ^ 129). lia.
Qed.
End termination.

(** *** Effect on the orders *)

Lemma fold_insert_lookup {K} `{Countable K} {V} (P : K → Prop) `{∀ k, Decision (P k)} (f : V → V)
    (l : list (K * V)) (m : gmap K V) k :
  NoDup l.*1 →
  fold_left (λ m '(k, v), if bool_decide (P k) then <[k := f v]> m else m) l m !! k =
  match list_find (λ x, fst x = k) l with
  | Some (_, (_, v)) => if bool_decide (P k) then Some (f v) else m !! k
  | None => m !! k
  end.
Proof.
  revert m. induction l as [|[k' v] l IH]; intros m Hnd; [done|]. cbn in Hnd. apply NoDup_cons in Hnd as [Hk Hnd].
  cbn [fold_left]. rewrite IH by done. cbn [list_find fst]. case_decide as Heq.
  - subst k'. destruct (list_find _ l) as [[i [k' v']]|] eqn:E; cbn.
    + apply list_find_Some in E as (Hi & Hk' & _). cbn in Hk'. subst k'. destruct Hk.
      apply list_elem_of_fmap. exists (k, v'). split; [done|]. by eapply list_elem_of_lookup_2.
    + case_bool_decide; [|done]. apply lookup_insert_eq.
  - destruct (list_find _ l) as [[i [k1 v1]]|]; cbn; repeat case_bool_decide; try done; by rewrite lookup_insert_ne.
Qed.

Lemma fold_storage_lookup {K} `{Countable K} {V} (P : K → Prop) `{∀ k, Decision (P k)} (f : V → V)
    (m : gmap K V) k :
  fold_left (λ m '(k, v), if bool_decide (P k) then <[k := f v]> m else m) (storage_iter m) m !! k =
  (λ v, if bool_decide (P k) then f v else v) <$> m !! k.
Proof.
  assert (Permutation (storage_iter m) (map_to_list m)) as Hp by apply merge_sort_Permutation.
  rewrite fold_insert_lookup.
  - destruct (list_find _ _) as [[i [k' v]]|] eqn:E.
    + apply list_find_Some in E as (Hi & Hk & _). cbn in Hk. subst k'.
      apply list_elem_of_lookup_2 in Hi. rewrite Hp, elem_of_map_to_list in Hi. rewrite Hi. by case_bool_decide.
    + apply list_find_None in E. destruct (m !! k) as [v|] eqn:Hk; [|done]. exfalso.
      apply elem_of_map_to_list in Hk. rewrite <- Hp in Hk. rewrite Forall_forall in E. by apply (E _ Hk).
  - rewrite Hp. apply NoDup_fst_map_to_list.
Qed.

Lemma elem_of_quote_books books b : b ∈ quote_books books ↔ quote b = XOR ∧ is_Some (books !! b).
Proof.
  unfold quote_books, storage_iter, iter_entries. rewrite list_elem_of_filter, list_elem_of_fmap.
  apply and_iff_compat_l. split.
  - intros ([b' self] & -> & Hb). rewrite merge_sort_Permutation in Hb. by exists self; apply elem_of_map_to_list.
  - intros [self Hb]. exists (b, self). split; [done|]. rewrite merge_sort_Permutation. by apply elem_of_map_to_list.
Qed.

Lemma denominated_order factor books m k :
  denominate_orders factor (quote_books books) m !! k =
  (λ o, if bool_decide (quote (fst k) = XOR ∧ is_Some (books !! fst k))
        then set_price o (scaled factor (LimitOrder.price o)) else o) <$> m !! k.
Proof.
  unfold denominate_orders. rewrite (fold_storage_lookup (λ k, fst k ∈ quote_books books)
    (λ o, set_price o (scaled factor (LimitOrder.price o)))).
  by rewrite (bool_decide_ext _ _ (elem_of_quote_books books (fst k))).
Qed.

(** A factor is a whole number, but it is taken for one with 18 digits: the price
    is multiplied by 10^18 before it is divided. *)
Lemma scaled_price factor price : is_u128 factor → BalanceUnit.is_divisible price = true → BalanceUnit.wf price →
  BalanceUnit.is_divisible (scaled (BalanceUnit.divisible factor) price) = true ∧
  (BalanceUnit.inner (scaled (BalanceUnit.divisible factor) price) = BalanceUnit.inner price ∨
   BalanceUnit.inner (scaled (BalanceUnit.divisible factor) price) =
     BalanceUnit.inner price * BalanceUnit.RATIO / factor).
Proof.
  intros Hf Hd Hw. unfold scaled. destruct (BalanceUnit.checked_div _ _) as [u|] eqn:E; [|by auto].
  apply BalanceUnit.checked_div_value in E as (_ & Hdu & _ & Eu); [|done..]. cbn in *.
  rewrite Hd in Hdu. cbn in Hdu. split; [done|]. right. unfold BalanceUnit.value in Eu.
  rewrite Hdu, Hd in Eu. done.
Qed.

Lemma scaled_grows factor price : 0 < factor ≤ BalanceUnit.RATIO → BalanceUnit.is_divisible price = true →
  BalanceUnit.wf price →
  BalanceUnit.inner price ≤ BalanceUnit.inner (scaled (BalanceUnit.divisible factor) price).
Proof.
  intros Hf Hd Hw. assert (is_u128 factor) as Hu by (unfold is_u128, u128_max, BalanceUnit.RATIO in *; lia).
  destruct (scaled_price factor price Hu Hd Hw) as [_ [->| ->]]; [done|].
  apply Z.div_le_lower_bound; [lia|]. destruct Hw. nia.
Qed.

Lemma owed_grows (b : OrderBookId) (a : AssetId) (m m' : gmap entry LimitOrder.t) : nonneg m' →
  (∀ x o, m !! x = Some o → ∃ o', m' !! x = Some o' ∧ owed_at b a x o ≤ owed_at b a x o') →
  owed m b a ≤ owed m' b a.
Proof.
  revert m'. induction m as [|x o m Hx IH] using map_ind; intros m' Hnn Hm.
  - rewrite owed_empty. by apply owed_nonneg.
  - destruct (Hm x o (lookup_insert_eq _ _ _)) as (o' & Ho' & Hle). rewrite owed_fresh by done.
    enough (owed m b a ≤ owed (delete x m') b a) by (rewrite (owed_delete _ _ _ _ _ Ho') in *; lia).
    apply IH.
    + intros y o1 [_ Hy]%lookup_delete_Some. by eapply Hnn.
    + intros y o1 Hy. assert (y ≠ x) as Hne by congruence.
      destruct (Hm y o1) as (o2 & Hy2 & ?); [by rewrite lookup_insert_ne|].
      exists o2. split; [by rewrite lookup_delete_ne|done].
Qed.

(** *** The account of a book *)

Context `{MultiCurrency L} {TA : TechAccounts} (divisibility : OrderBookId → bool).
Implicit Types (p : Pallet L).
Abbreviation orders p := (LimitOrders (data (world p))).

Lemma indexed_prices s sd : Inv divisibility s → prices_wf (side_orders sd s).
Proof.
  intros HI [b pr] l Hl. destruct l as [|i l]; [by apply (inv_side_nonempty _ _ HI) in Hl|].
  assert (i ∈ index (side_orders sd s !! (b, pr))) as Hi by (rewrite Hl; left).
  apply (inv_side_iff _ _ HI) in Hi as (o & Ho & _ & <-). apply (inv_order _ _ HI) in Ho as [_ Ho]. apply Ho.
Qed.

Lemma on_denominate_run factor p : is_u128 factor → Inv divisibility (data (world p)) →
  ∃ p', on_denominate factor p = Some p' ∧
    orders p' = denominate_orders (BalanceUnit.divisible factor) (quote_books (OrderBooks p)) (orders p) ∧
    OrderBooks p' = OrderBooks p ∧ ledger (world p') = ledger (world p).
Proof.
  intros Hf HI. unfold on_denominate.
  destruct (denominate_side_ends (BalanceUnit.divisible factor) Hf (quote_books (OrderBooks p))
    (Bids (data (world p)))) as [bids ->]; [by apply (indexed_prices _ Buy)|].
  destruct (denominate_side_ends (BalanceUnit.divisible factor) Hf (quote_books (OrderBooks p))
    (Asks (data (world p)))) as [asks ->]; [by apply (indexed_prices _ Sell)|].
  eexists. by split.
Qed.

Lemma owed_of_price o price : BalanceUnit.is_divisible (LimitOrder.price o) = true →
  BalanceUnit.is_divisible price = true → BalanceUnit.wf (LimitOrder.amount o) →
  BalanceUnit.inner (LimitOrder.price o) ≤ BalanceUnit.inner price → owed_of o ≤ owed_of (set_price o price).
Proof.
  intros Hd Hd' Ha Hle. unfold owed_of, owed_for, set_price. cbn. destruct (LimitOrder.side o); [|done].
  unfold quote_of, BalanceUnit.value at 1 3. rewrite Hd, Hd'. apply BalanceUnit.value_nonneg in Ha.
  apply Z.div_le_mono; [done|]. nia.
Qed.

Lemma denominated_owed factor books m (b : OrderBookId) (a : AssetId) :
  (∀ b i o, m !! (b, i) = Some o → LimitOrder.id o = i ∧ order_ok divisibility b o) → nonneg m →
  0 < factor ≤ BalanceUnit.RATIO →
  owed m b a ≤ owed (denominate_orders (BalanceUnit.divisible factor) (quote_books books) m) b a.
Proof.
  intros Hok Hnn Hf.
  assert (∀ x o, m !! x = Some o → ∃ o',
    denominate_orders (BalanceUnit.divisible factor) (quote_books books) m !! x = Some o' ∧
    owed_asset (fst x) o' = owed_asset (fst x) o ∧ owed_of o ≤ owed_of o') as Hm.
  { intros [b' i] o Ho. apply Hok in Ho as Ho'. destruct Ho' as [_ []].
    rewrite denominated_order, Ho. eexists. split; [done|]. cbn. case_bool_decide; [|done]. split; [done|].
    apply owed_of_price; try done.
    - apply scaled_price; try done. unfold is_u128, u128_max, BalanceUnit.RATIO in *. lia.
    - by apply scaled_grows. }
  apply owed_grows.
  - intros x o Hx. destruct (m !! x) as [o0|] eqn:E; [|by rewrite denominated_order, E in Hx].
    destruct (Hm _ _ E) as (o' & Ho' & _ & ?). specialize (Hnn _ _ E). rewrite Hx in Ho'. injection Ho' as ->. lia.
  - intros x o Hx. destruct (Hm _ _ Hx) as (o' & Ho' & Ea & Hle). exists o'. split; [done|].
    unfold owed_at. repeat case_bool_decide; try done; naive_solver congruence.
Qed.

(** C29. Redenomination.  The factor is the number by which balances are divided,
    but the order book takes it for a number with 18 digits: for every factor up to
    10^18 the price of no order falls.  The loops of the hook end, the orders of
    other books are kept, and when the balances of XOR are divided, a book that
    held less than the factor times what it owes no longer holds what it owes. *)
Theorem denomination_breaks_solvency factor p b : Inv divisibility (data (world p)) →
  2 ≤ factor ≤ BalanceUnit.RATIO → free_balance (ledger (world p)) XOR (tech_account b) < factor * owed (orders p) b XOR →
  ∃ p', on_denominate factor p = Some p' ∧
    (∀ b i, orders p' !! (b, i) =
       (λ o, if bool_decide (quote b = XOR ∧ is_Some (OrderBooks p !! b))
             then set_price o (scaled (BalanceUnit.divisible factor) (LimitOrder.price o)) else o)
       <$> orders p !! (b, i)) ∧
    (∀ b i o o', orders p !! (b, i) = Some o → orders p' !! (b, i) = Some o' →
       BalanceUnit.inner (LimitOrder.price o) ≤ BalanceUnit.inner (LimitOrder.price o')) ∧
    ∀ l', free_balance l' XOR (tech_account b) = free_balance (ledger (world p)) XOR (tech_account b) / factor →
      ¬ Solvent (set_ledger l' (world p')).
Proof.
  intros HI Hf Hb. destruct (on_denominate_run factor p) as (p' & Hp' & Ho & _); [|done|].
  { unfold is_u128, u128_max, BalanceUnit.RATIO in *. lia. }
  exists p'. split; [done|]. rewrite Ho. split; [intros ? ?; apply denominated_order|]. split.
  - intros b' i o o' Hi. rewrite denominated_order, Hi. intros [= <-]. cbn.
    apply (inv_order _ _ HI) in Hi as [_ []]. case_bool_decide; [|done]. apply scaled_grows; try done. lia.
  - intros l' Hl Hs. specialize (Hs b XOR). cbn in Hs. rewrite Hl, Ho in Hs.
    pose proof (denominated_owed factor (OrderBooks p) (orders p) b XOR (inv_order _ _ HI)
      (Inv_nonneg _ _ HI) ltac:(lia)) as Hg.
    apply Z.div_lt_upper_bound in Hb; lia.
Qed.
End denomination.

(** ** Examples *)

#[local] Existing Instance RuntimeConfig.
#[local] Existing Instance Samples.plain_keys.
Import ExpirationSamples PalletSamples.

(** The balances of an asset divided by two. *)
Definition halved (a : AssetId) (l : Ledger) : Ledger :=
  map_imap (λ k v, Some (if bool_decide (fst k = a) then v / 2 else v)) l.

Lemma halved_balance a l x : ledger_balance (halved a l) a x = ledger_balance l a x / 2.
Proof.
  unfold ledger_balance, halved. rewrite map_lookup_imap. destruct (l !! (a, x)) as [v|]; cbn; [|done].
  by rewrite bool_decide_eq_true_2.
Qed.

Lemma denomination_breaks_solvency_witness :
  ∃ p', on_denominate 0%N 2 (pallet bought) = Some p' ∧
    ¬ Solvent (set_ledger (halved 0%N (ledger (world (pallet bought)))) (world p')).
Proof.
  destruct (denomination_breaks_solvency 0%N divisibility 2 (pallet bought) Samples.book
    (sound_inv _ bought_sound)) as (p' & Hp' & _ & _ & Hn).
  - by unfold BalanceUnit.RATIO.
  - vm_compute. reflexivity.
  - exists p'. split; [exact Hp'|]. apply Hn, halved_balance.
Defined.

(** When the raw keys grow with the prices, the loop over the bids meets the entry
    it has moved again: the price of the order is scaled once and that of its
    entry in the index twice. *)
Example moved_price_visited_again :
  let s' := (λ p, data (world p)) <$> on_denominate 0%N (10 ^ 9) (pallet bought) in
  (λ s, LimitOrder.price <$> LimitOrders s !! (Samples.book, 1)) <$> s' =
    Some (Some (BalanceUnit.divisible (10 ^ 28))) ∧
  (λ s, map_to_list (Bids s)) <$> s' = Some [((Samples.book, BalanceUnit.divisible (10 ^ 37)), [1])].
Proof. split; vm_compute; reflexivity. Qed.
