(* ===== verification/Technical.v ===== *)
(** * Technical accounts ([pallets/technical/src/lib.rs])

    Accounts that are controlled by the runtime: their registry, the transfers
    from and to them, and the swaps that the pallet carries out for other pallets.
    The currencies, the regulator of assets and the reference counts of accounts
    are parameters, over a state [L]; so is the hash that derives an account from
    its description. *)

From S2P Require Import Prelude BTreeMap FixedPoint Units OrderTypes DataLayer World Permissions.
From S2P Require Import TradingPair SwapTypes OrderBook WorldRefine Scheduler Pallet.

(** ** Identifiers ([common/src/primitives.rs]) *)

Inductive TechPurpose :=
| FeeCollector
| FeeCollectorForPair (pair : TradingPair)
| XykLiquidityKeeper (pair : TradingPair)
| Identifier (name : list Z)
| OrderBookLiquidityKeeper (pair : TradingPair).

Inductive TechAccountId :=
| Pure (dex_id : DEXId) (purpose : TechPurpose)
| Generic (tag data : list Z)
| Wrapped (account : AccountId)
| WrappedRepr (account : AccountId)
| NoTechAccount.

#[export] Instance TechPurpose_eq_dec : EqDecision TechPurpose.
Proof. solve_decision. Defined.
#[export] Instance TechAccountId_eq_dec : EqDecision TechAccountId.
Proof. solve_decision. Defined.

Definition to_fee_account (a : TechAccountId) : option TechAccountId :=
  match a with
  | Pure dex (XykLiquidityKeeper tpair) => Some (Pure dex (FeeCollectorForPair tpair))
  | _ => None
  end.

Definition to_xyk_tech_unit_from_dex_and_trading_pair (dex : DEXId) (pair : TradingPair) : TechAccountId :=
  Pure dex (XykLiquidityKeeper pair).

(** [tech_account_id_to_account_id]: a hash that decodes to any [AccountId32]. *)
Class TechHash := { tech_account_id_to_account_id : TechAccountId → AccountId }.

(** ** The assets pallet ([pallets/assets/src/lib.rs]) *)

(** [T::Currency::deposit], [T::Currency::withdraw] and the other checks of the
    regulator. *)
Class Issuance (L : Type) := {
  currency_deposit : AssetId → AccountId → Balance → M L DispatchError unit;
  currency_withdraw : AssetId → AccountId → Balance → M L DispatchError unit;
  check_burn_permission : L → AccountId → AccountId → AssetId → result DispatchError unit;
  check_mint_permission : L → AccountId → AccountId → AssetId → result DispatchError unit;
  ensure_asset_is_mintable : L → AssetId → result DispatchError unit
}.

Module Assets.
Section assets.
Context {L : Type} `{MultiCurrency L} {IS : Issuance L}.

Definition free_balance (l : L) (asset : AssetId) (who : AccountId) : result DispatchError Balance :=
  let r := World.free_balance l asset who in
  _ ← (if r =? 0 then ensure (asset_exists l asset) AssetIdNotExists else mret tt);
  mret r.

Definition mint_unchecked (asset : AssetId) (to : AccountId) (amount : Balance) : M L DispatchError unit :=
  currency_deposit asset to amount.

Definition mint_to (asset : AssetId) (issuer to : AccountId) (amount : Balance) : M L DispatchError unit :=
  l ← get_state;
  _ ← lift (ensure_asset_is_mintable l asset);
  _ ← lift (check_mint_permission l issuer to asset);
  mint_unchecked asset to amount.

Definition burn_unchecked (asset : AssetId) (from : AccountId) (amount : Balance) : M L DispatchError unit := λ l,
  match currency_withdraw asset from amount l with
  | (Ok _, l') => (Ok tt, l')
  | (Err e, l') => if asset_exists l' asset then (Err e, l') else (Err AssetIdNotExists, l')
  end.

Definition burn_from (asset : AssetId) (issuer from : AccountId) (amount : Balance) : M L DispatchError unit :=
  l ← get_state;
  _ ← lift (check_burn_permission l issuer from asset);
  burn_unchecked asset from amount.
End assets.
End Assets.

(** ** The pallet *)

(** [common::SwapRulesValidation] and [common::SwapAction], over a state [S]. *)
Class SwapAction (A S : Type) := {
  is_abstract_checking : A → bool;
  prepare_and_validate : A → option AccountId → AssetId → M S DispatchError A;
  instant_auto_claim_used : A → bool;
  triggered_auto_claim_used : A → bool;
  is_able_to_claim : A → bool;
  reserve : A → AccountId → AssetId → M S DispatchError unit;
  claim : A → AccountId → bool;
  cancel : A → AccountId → M S DispatchError unit
}.

(** [common::with_transaction]. *)
Definition with_transaction {S E A} (f : M S E A) : M S E A := λ s,
  match f s with
  | (Ok a, s') => (Ok a, s')
  | (Err e, _) => (Err e, s)
  end.

Lemma with_transaction_ok {S E A} (f : M S E A) s a s' :
  with_transaction f s = (Ok a, s') ↔ f s = (Ok a, s').
Proof. unfold with_transaction. destruct (f s) as [[] ?]; naive_solver. Qed.
#[export] Hint Rewrite @with_transaction_ok : run_ok.

Module Technical.
Record t (L : Type) := mk {
  TechAccounts : gmap AccountId TechAccountId;
  ledger : L
}.
Arguments mk {L} TechAccounts ledger.
Arguments TechAccounts {L} _.
Arguments ledger {L} _.

Section pallet.
Context {L : Type} `{MultiCurrency L} {IS : Issuance L} {AI : AssetInfo L} {PR : Providers L} {TH : TechHash}.
Abbreviation T := (M (t L) DispatchError).

Definition set_accounts (a : gmap AccountId TechAccountId) (s : t L) : t L := mk a (ledger s).
Definition set_ledger (l : L) (s : t L) : t L := mk (TechAccounts s) l.
Definition on_ledger {E A} (c : M L E A) : M (t L) E A := zoom ledger set_ledger c.

Definition lookup_tech_account_id (account : AccountId) : T TechAccountId :=
  s ← get_state;
  ok_or (TechAccounts s !! account) (TechnicalError AssociatedAccountIdNotFound).

Definition ensure_account_registered (account : AccountId) : T TechAccountId :=
  map_err (lookup_tech_account_id account) (λ _, TechAccountIdIsNotRegistered).

Definition ensure_tech_account_registered (a : TechAccountId) : T unit :=
  _ ← ensure_account_registered (tech_account_id_to_account_id a);
  mret tt.

Definition is_registered (s : t L) (account : AccountId) : bool :=
  match fst (lookup_tech_account_id account s) with Ok _ => true | Err _ => false end.

Definition register_tech_account_id (a : TechAccountId) : T unit :=
  let account := tech_account_id_to_account_id a in
  _ ← modify (λ s, if is_registered s account then s else set_ledger (inc_providers account (ledger s)) s);
  modify (λ s, set_accounts (<[account := a]> (TechAccounts s)) s).

Definition register_tech_account_id_if_not_exist (a : TechAccountId) : T unit :=
  let account := tech_account_id_to_account_id a in
  s ← get_state;
  if is_registered s account then mret tt else
  _ ← modify (λ s, set_ledger (inc_providers account (ledger s)) s);
  modify (λ s, set_accounts (<[account := a]> (TechAccounts s)) s).

Definition deregister_tech_account_id (a : TechAccountId) : T unit :=
  let account := tech_account_id_to_account_id a in
  s ← get_state;
  if is_registered s account then
    _ ← on_ledger (dec_providers account);
    modify (λ s, set_accounts (delete account (TechAccounts s)) s)
  else mret tt.

Definition transfer_in (asset : AssetId) (source : AccountId) (tech_dest : TechAccountId) (amount : Balance)
    : T unit :=
  let to := tech_account_id_to_account_id tech_dest in
  _ ← ensure_account_registered to;
  on_ledger (transfer_from asset source to amount).

Definition transfer_out (asset : AssetId) (tech_source : TechAccountId) (to : AccountId) (amount : Balance)
    : T unit :=
  let from := tech_account_id_to_account_id tech_source in
  _ ← ensure_account_registered from;
  on_ledger (transfer_from asset from to amount).

Definition transfer (asset : AssetId) (tech_source tech_dest : TechAccountId) (amount : Balance) : T unit :=
  let from := tech_account_id_to_account_id tech_source in
  _ ← ensure_account_registered from;
  let to := tech_account_id_to_account_id tech_dest in
  _ ← ensure_account_registered to;
  on_ledger (transfer_from asset from to amount).

Definition mint (asset : AssetId) (tech_dest : TechAccountId) (amount : Balance) : T unit :=
  let account := tech_account_id_to_account_id tech_dest in
  _ ← ensure_account_registered account;
  on_ledger (Assets.mint_to asset account account amount).

Definition total_balance (asset : AssetId) (a : TechAccountId) : T Balance :=
  let account := tech_account_id_to_account_id a in
  _ ← ensure_account_registered account;
  s ← get_state;
  lift (Pallet.total_balance (ledger s) asset account).

(** [GenesisConfig::build]. *)
Definition build (register_tech_accounts : list (AccountId * TechAccountId)) (s : t L) : t L :=
  fold_left (λ s '(k, v), mk (<[k := v]> (TechAccounts s)) (inc_providers k (ledger s)))
    register_tech_accounts s.
End pallet.

(** *** Swaps *)

Section swap.
Context {A S : Type} {SA : SwapAction A S}.
(** [Event::SwapSuccess]. *)
Context (swap_success : AccountId → M S DispatchError unit).

Definition create_swap_unchecked (source : AccountId) (action : A) (base_asset_id : AssetId)
    : M S DispatchError unit :=
  with_transaction (
    _ ← reserve action source base_asset_id;
    if is_able_to_claim action && instant_auto_claim_used action then
      if claim action source then swap_success source
      else if negb (triggered_auto_claim_used action) then cancel action source
      else mthrow (TechnicalError NotImplemented)
    else mthrow (TechnicalError NotImplemented)).

Definition create_swap (source : AccountId) (action : A) (base_asset_id : AssetId)
    : M S DispatchError unit :=
  _ ← ensure (negb (is_abstract_checking action)) (TechnicalError OperationWithAbstractCheckingIsImposible);
  action ← prepare_and_validate action (Some source) base_asset_id;
  create_swap_unchecked source action base_asset_id.
End swap.
End Technical.
