(* ===== verification/DexApi.v ===== *)
(** * The registry of liquidity sources ([pallets/dex-api])

    The interface of a liquidity source ([common/src/traits.rs]), the filter of the
    sources of a swap ([common/src/utils.rs]) and the pallet that dispatches to the
    sources by their type. *)

From S2P Require Import Prelude BTreeMap FixedPoint Units OrderTypes SwapTypes Chunks Aggregator.
From S2P Require Import DataLayer World Permissions TradingPair.

(** ** Data of [common] *)

Inductive RewardReason :=
| Unspecified | BuyOnBondingCurve | LiquidityProvisionFarming | DeprecatedMarketMakerVolume
| Crowdloan.

Definition Reward : Type := Balance * AssetId * RewardReason.

(** Derived [Ord]: the order of the constructors. *)
Definition source_index (t : LiquiditySourceType) : Z :=
  match t with
  | XYKPool => 0 | BondingCurvePool => 1 | MulticollateralBondingCurvePool => 2 | MockPool => 3
  | MockPool2 => 4 | MockPool3 => 5 | MockPool4 => 6 | XSTPool => 7 | OrderBookSource => 8
  end.

Record LiquiditySourceId := mkSourceId { source_dex : DEXId; source_type : LiquiditySourceType }.

#[export] Instance LiquiditySourceId_eq_dec : EqDecision LiquiditySourceId.
Proof. solve_decision. Defined.

#[export] Instance LiquiditySourceId_ord : Ord LiquiditySourceId := λ i j,
  cmp (source_dex i, source_index (source_type i)) (source_dex j, source_index (source_type j)).

#[export] Instance LiquiditySourceId_lawful : LawfulOrd LiquiditySourceId.
Proof.
  split; [split|].
  - intros i j. apply (cmp_opp (source_dex i, source_index (source_type i))).
  - intros i j k. apply (cmp_eq_l (source_dex i, source_index (source_type i))).
  - intros i j k. apply (cmp_lt_trans (source_dex i, source_index (source_type i))).
  - intros [d t] [d' t'] E. unfold cmp, LiquiditySourceId_ord in E. apply cmp_eq in E as [= -> E'].
    f_equal. by destruct t, t'.
Qed.

Inductive FilterMode := FilterDisabled | ForbidSelected | AllowSelected.

Record LiquiditySourceFilter := mkFilter {
  filter_dex : DEXId;
  filter_selected : list LiquiditySourceType;
  forbid_selected : bool
}.

Definition filter_empty (dex_id : DEXId) : LiquiditySourceFilter := mkFilter dex_id [] true.
Definition with_forbidden (dex_id : DEXId) (forbidden : list LiquiditySourceType)
    : LiquiditySourceFilter := mkFilter dex_id forbidden true.
Definition with_allowed (dex_id : DEXId) (allowed : list LiquiditySourceType)
    : LiquiditySourceFilter := mkFilter dex_id allowed false.

Definition with_mode (dex_id : DEXId) (mode : FilterMode) (selected_indices : list LiquiditySourceType)
    : LiquiditySourceFilter :=
  match mode with
  | FilterDisabled => filter_empty dex_id
  | AllowSelected => with_allowed dex_id selected_indices
  | ForbidSelected => with_forbidden dex_id selected_indices
  end.

Definition matches_index (f : LiquiditySourceFilter) (index : LiquiditySourceType) : bool :=
  if bool_decide (index ∈ filter_selected f) then negb (forbid_selected f) else forbid_selected f.

(** ** The interface of a liquidity source *)

(** [LiquiditySource], over the state [L] of the sources and the currencies. *)
Record LiquiditySource (L : Type) := mkSource {
  ls_can_exchange : L → DEXId → AssetId → AssetId → bool;
  ls_quote : L → DEXId → AssetId → AssetId → QuoteAmount → bool → result DispatchError SwapOutcome;
  ls_step_quote : L → DEXId → AssetId → AssetId → QuoteAmount → Z → bool →
    result DispatchError DiscreteQuotation;
  ls_exchange : AccountId → AccountId → DEXId → AssetId → AssetId → SwapAmount →
    M L DispatchError SwapOutcome;
  ls_check_rewards : L → DEXId → AssetId → AssetId → Balance → Balance →
    result DispatchError (list Reward);
  ls_quote_without_impact : L → DEXId → AssetId → AssetId → QuoteAmount → bool →
    result DispatchError SwapOutcome
}.
Arguments ls_can_exchange {L}.
Arguments ls_quote {L}.
Arguments ls_step_quote {L}.
Arguments ls_exchange {L}.
Arguments ls_check_rewards {L}.
Arguments ls_quote_without_impact {L}.

(** The sources of the configuration ([T::XYKPool], [T::XSTPool] and so on). *)
Class LiquiditySources (L : Type) := configured : LiquiditySourceType → LiquiditySource L.

(** ** The pallet *)

Module DexApi.

Inductive Event :=
| LiquiditySourceEnabled (source : LiquiditySourceType)
| LiquiditySourceDisabled (source : LiquiditySourceType).

(** The registry, the exchanges and trading pairs, and the state of the sources. *)
Record t (L : Type) := mk {
  EnabledSourceTypes : list LiquiditySourceType;
  market : Market;
  ledger : L;
  events : list Event
}.
Arguments mk {L}.
Arguments EnabledSourceTypes {L}.
Arguments market {L}.
Arguments ledger {L}.
Arguments events {L}.

Definition set_ledger {L} (l : L) (a : t L) : t L :=
  mk (EnabledSourceTypes a) (market a) l (events a).
Definition set_market {L} (m : Market) (a : t L) : t L :=
  mk (EnabledSourceTypes a) m (ledger a) (events a).

Section dex_api.
Context {L : Type} `{LiquiditySources L}.
Implicit Types (a : t L) (id : LiquiditySourceId).

(** The source behind an id; [BondingCurvePool] is [unreachable!()]. *)
Definition source_of id : result DispatchError (LiquiditySource L) :=
  match source_type id with
  | BondingCurvePool => Err Panicked
  | t => Ok (configured t)
  end.

Definition can_exchange a id (input_asset_id output_asset_id : AssetId) : result DispatchError bool :=
  source ← source_of id;
  Ok (ls_can_exchange source (ledger a) (source_dex id) input_asset_id output_asset_id).

Definition quote a id (input_asset_id output_asset_id : AssetId) (amount : QuoteAmount)
    (deduce_fee : bool) : result DispatchError SwapOutcome :=
  source ← source_of id;
  ls_quote source (ledger a) (source_dex id) input_asset_id output_asset_id amount deduce_fee.

Definition step_quote a id (input_asset_id output_asset_id : AssetId) (amount : QuoteAmount)
    (recommended_samples_count : Z) (deduce_fee : bool) : result DispatchError DiscreteQuotation :=
  source ← source_of id;
  ls_step_quote source (ledger a) (source_dex id) input_asset_id output_asset_id amount
    recommended_samples_count deduce_fee.

Definition exchange (sender receiver : AccountId) id (input_asset_id output_asset_id : AssetId)
    (swap_amount : SwapAmount) : M (t L) DispatchError SwapOutcome :=
  source ← lift (source_of id);
  zoom ledger set_ledger
    (ls_exchange source sender receiver (source_dex id) input_asset_id output_asset_id swap_amount).

Definition check_rewards a id (input_asset_id output_asset_id : AssetId)
    (input_amount output_amount : Balance) : result DispatchError (list Reward) :=
  source ← source_of id;
  ls_check_rewards source (ledger a) (source_dex id) input_asset_id output_asset_id
    input_amount output_amount.

Definition quote_without_impact a id (input_asset_id output_asset_id : AssetId)
    (amount : QuoteAmount) (deduce_fee : bool) : result DispatchError SwapOutcome :=
  source ← source_of id;
  ls_quote_without_impact source (ledger a) (source_dex id) input_asset_id output_asset_id amount
    deduce_fee.

Definition get_supported_types a : list LiquiditySourceType := EnabledSourceTypes a.

(** The sources that match the filter and can exchange the pair. *)
Fixpoint matching_sources a (types : list LiquiditySourceType) (f : LiquiditySourceFilter)
    (input_asset_id output_asset_id : AssetId) : result DispatchError (list LiquiditySourceId) :=
  match types with
  | [] => Ok []
  | t :: types =>
      let id := mkSourceId (filter_dex f) t in
      usable ← (if matches_index f t then can_exchange a id input_asset_id output_asset_id
                else Ok false);
      rest ← matching_sources a types f input_asset_id output_asset_id;
      Ok (if usable : bool then id :: rest else rest)
  end.

Definition list_liquidity_sources a (input_asset_id output_asset_id : AssetId)
    (f : LiquiditySourceFilter) : result DispatchError (list LiquiditySourceId) :=
  fst (DexManager.ensure_dex_exists (filter_dex f) (market a)) ≫= λ _,
  matching_sources a (get_supported_types a) f input_asset_id output_asset_id.

Definition LiquiditySourceAlreadyEnabled : DispatchError := ExternalError 101.
Definition LiquiditySourceAlreadyDisabled : DispatchError := ExternalError 102.

Definition ensure_root {S} (origin : RawOrigin) : M S DispatchError unit :=
  match origin with Root => mret tt | _ => mthrow BadOrigin end.

Definition enable_liquidity_source (origin : RawOrigin) (source : LiquiditySourceType)
    : M (t L) DispatchError unit :=
  _ ← ensure_root origin;
  a ← get_state;
  _ ← ensure (bool_decide (source ∉ EnabledSourceTypes a)) LiquiditySourceAlreadyEnabled;
  modify (λ a, mk (EnabledSourceTypes a ++ [source]) (market a) (ledger a)
                 (events a ++ [LiquiditySourceEnabled source])).

Definition disable_liquidity_source (origin : RawOrigin) (source : LiquiditySourceType)
    : M (t L) DispatchError unit :=
  _ ← ensure_root origin;
  a ← get_state;
  _ ← ensure (bool_decide (source ∈ EnabledSourceTypes a)) LiquiditySourceAlreadyDisabled;
  modify (λ a, mk (filter (λ x, x ≠ source) (EnabledSourceTypes a)) (market a) (ledger a)
                 (events a ++ [LiquiditySourceDisabled source])).
End dex_api.
End DexApi.
