(* ===== verification/LiquidityProxy.v ===== *)
(** * Routing of swaps ([pallets/liquidity-proxy/src/lib.rs])

    The paths between two assets, the quotation of a path and the choice of the
    best one, the exchange along a route, and the extrinsics of the pallet.
    Weights are not modelled.  The loops of the aggregator run with the bound
    [fuel] on their iterations. *)

From S2P Require Import Prelude BTreeMap FixedPoint Units OrderTypes SwapTypes Chunks Aggregator.
From S2P Require Import DataLayer World Permissions TradingPair Pallet Technical DexApi.

(** ** Paths *)

Module AssetType.
Inductive t := Base | SyntheticBase | Basic | Synthetic | ChameleonBase | ChameleonPoolAsset.
End AssetType.

(** [T::GetChameleonPools] and the enabled synthetic assets of [T::PrimaryMarketXST]. *)
Class AssetKinds (L : Type) := {
  GetChameleonPools : AssetId → option (AssetId * gset AssetId);
  enabled_target_assets : L → gset AssetId
}.

Section paths.
Context {L : Type} `{AssetKinds L}.

Definition determine (dex_info : DEXInfo) (synthetic_assets : gset AssetId) (asset_id : AssetId)
    : AssetType.t :=
  if bool_decide (asset_id = dex_base_asset_id dex_info) then AssetType.Base
  else if bool_decide (asset_id = synthetic_base_asset_id dex_info) then AssetType.SyntheticBase
  else if bool_decide (asset_id ∈ synthetic_assets) then AssetType.Synthetic
  else match GetChameleonPools (dex_base_asset_id dex_info) with
       | Some (base_chameleon_asset_id, chameleon_targets) =>
           if bool_decide (asset_id = base_chameleon_asset_id) then AssetType.ChameleonBase
           else if bool_decide (asset_id ∈ chameleon_targets) then AssetType.ChameleonPoolAsset
           else AssetType.Basic
       | None => AssetType.Basic
       end.

Record PathBuilder := mkBuilder {
  paths : list (list AssetId);
  path_input : AssetId;
  path_output : AssetId;
  path_base : AssetId;
  path_synthetic_base : AssetId;
  path_base_chameleon : option AssetId
}.

Definition push_path (p : list AssetId) (b : PathBuilder) : PathBuilder :=
  mkBuilder (paths b ++ [p]) (path_input b) (path_output b) (path_base b) (path_synthetic_base b)
    (path_base_chameleon b).

Definition direct (b : PathBuilder) : PathBuilder := push_path [path_input b; path_output b] b.
Definition via_base (b : PathBuilder) : PathBuilder :=
  push_path [path_input b; path_base b; path_output b] b.
Definition via_synthetic_base (b : PathBuilder) : PathBuilder :=
  push_path [path_input b; path_synthetic_base b; path_output b] b.
Definition via_base_and_synthetic_base (b : PathBuilder) : PathBuilder :=
  push_path [path_input b; path_base b; path_synthetic_base b; path_output b] b.
Definition via_synthetic_base_and_base (b : PathBuilder) : PathBuilder :=
  push_path [path_input b; path_synthetic_base b; path_base b; path_output b] b.
Definition via_base_chameleon (b : PathBuilder) : PathBuilder :=
  match path_base_chameleon b with
  | Some c => push_path [path_input b; c; path_output b] b
  | None => b
  end.
Definition via_base_and_base_chameleon (b : PathBuilder) : PathBuilder :=
  match path_base_chameleon b with
  | Some c => push_path [path_input b; path_base b; c; path_output b] b
  | None => b
  end.
Definition via_base_chameleon_and_base (b : PathBuilder) : PathBuilder :=
  match path_base_chameleon b with
  | Some c => push_path [path_input b; c; path_base b; path_output b] b
  | None => b
  end.
Definition via_base_chameleon_and_base_and_synthetic_base (b : PathBuilder) : PathBuilder :=
  match path_base_chameleon b with
  | Some c => push_path [path_input b; c; path_base b; path_synthetic_base b; path_output b] b
  | None => b
  end.
Definition via_synthetic_base_and_base_and_base_chameleon (b : PathBuilder) : PathBuilder :=
  match path_base_chameleon b with
  | Some c => push_path [path_input b; path_synthetic_base b; path_base b; c; path_output b] b
  | None => b
  end.

(** The paths for the types of the two assets. *)
Definition build_paths (input_type output_type : AssetType.t) (b : PathBuilder) : PathBuilder :=
  match input_type, output_type with
  | AssetType.Base, AssetType.Basic | AssetType.Basic, AssetType.Base
  | AssetType.Base, AssetType.SyntheticBase | AssetType.SyntheticBase, AssetType.Base
  | AssetType.Base, AssetType.ChameleonBase | AssetType.ChameleonBase, AssetType.Base => direct b
  | AssetType.SyntheticBase, AssetType.Synthetic | AssetType.Synthetic, AssetType.SyntheticBase =>
      via_base (direct b)
  | AssetType.Basic, AssetType.Basic
  | AssetType.SyntheticBase, AssetType.Basic | AssetType.Basic, AssetType.SyntheticBase
  | AssetType.ChameleonBase, AssetType.SyntheticBase | AssetType.SyntheticBase, AssetType.ChameleonBase
  | AssetType.Basic, AssetType.ChameleonBase | AssetType.ChameleonBase, AssetType.Basic => via_base b
  | AssetType.Synthetic, AssetType.Synthetic => via_base (via_synthetic_base b)
  | AssetType.Base, AssetType.Synthetic | AssetType.Synthetic, AssetType.Base =>
      via_synthetic_base (direct b)
  | AssetType.Basic, AssetType.Synthetic | AssetType.ChameleonBase, AssetType.Synthetic =>
      via_base_and_synthetic_base (via_base b)
  | AssetType.Synthetic, AssetType.Basic | AssetType.Synthetic, AssetType.ChameleonBase =>
      via_synthetic_base_and_base (via_base b)
  | AssetType.ChameleonPoolAsset, AssetType.ChameleonBase
  | AssetType.ChameleonBase, AssetType.ChameleonPoolAsset => via_base (direct b)
  | AssetType.Base, AssetType.ChameleonPoolAsset | AssetType.ChameleonPoolAsset, AssetType.Base =>
      via_base_chameleon (direct b)
  | AssetType.SyntheticBase, AssetType.ChameleonPoolAsset
  | AssetType.Basic, AssetType.ChameleonPoolAsset => via_base_and_base_chameleon (via_base b)
  | AssetType.ChameleonPoolAsset, AssetType.SyntheticBase
  | AssetType.ChameleonPoolAsset, AssetType.Basic => via_base_chameleon_and_base (via_base b)
  | AssetType.Synthetic, AssetType.ChameleonPoolAsset =>
      via_synthetic_base_and_base_and_base_chameleon
        (via_base_and_base_chameleon (via_synthetic_base_and_base (via_base b)))
  | AssetType.ChameleonPoolAsset, AssetType.Synthetic =>
      via_base_chameleon_and_base_and_synthetic_base
        (via_base_chameleon_and_base (via_base_and_synthetic_base (via_base b)))
  | AssetType.ChameleonPoolAsset, AssetType.ChameleonPoolAsset =>
      via_base_and_base_chameleon (via_base_chameleon_and_base (via_base b))
  | AssetType.Base, AssetType.Base
  | AssetType.SyntheticBase, AssetType.SyntheticBase
  | AssetType.ChameleonBase, AssetType.ChameleonBase => b
  end.

(** [ExchangePath::new_trivial]. *)
Definition new_trivial (l : L) (dex_info : DEXInfo) (input_asset_id output_asset_id : AssetId)
    : option (list (list AssetId)) :=
  if bool_decide (input_asset_id = output_asset_id) then None else
  let synthetic_assets := enabled_target_assets l in
  let input_type := determine dex_info synthetic_assets input_asset_id in
  let output_type := determine dex_info synthetic_assets output_asset_id in
  let builder := build_paths input_type output_type
    (mkBuilder [] input_asset_id output_asset_id (dex_base_asset_id dex_info)
       (synthetic_base_asset_id dex_info)
       (fst <$> GetChameleonPools (dex_base_asset_id dex_info))) in
  match paths builder with [] => None | _ :: _ => Some (paths builder) end.
End paths.
Arguments PathBuilder : clear implicits.

(** ** Quotes *)

(** [QuoteAmount::place_input_and_output]. *)
Definition place_input_and_output (a : QuoteAmount) (outcome : SwapOutcome) : Balance * Balance :=
  match a with
  | WithDesiredInput x => (x, outcome_amount outcome)
  | WithDesiredOutput x => (outcome_amount outcome, x)
  end.

(** Derived [Ord] of [SwapOutcome]: the amount, then the fees in the order of the map. *)
Fixpoint fee_cmp (f g : OutcomeFee.t) : comparison :=
  match f, g with
  | [], [] => Eq
  | [], _ :: _ => Lt
  | _ :: _, [] => Gt
  | p :: f, q :: g => match cmp p q with Eq => fee_cmp f g | c => c end
  end.
Definition outcome_cmp (a b : SwapOutcome) : comparison :=
  match Z.compare (outcome_amount a) (outcome_amount b) with
  | Eq => fee_cmp (outcome_fee a) (outcome_fee b)
  | c => c
  end.

Abbreviation ExchangeRoute := (list (AssetId * AssetId * SwapAmount)) (only parsing).

Record QuoteInfo := mkQuoteInfo {
  quote_outcome : SwapOutcome;
  amount_without_impact : option Balance;
  quote_rewards : list Reward;
  quote_sources : list LiquiditySourceId;
  quote_path : list AssetId;
  quote_route : ExchangeRoute
}.

Definition merge_two_vectors_unique {A} `{EqDecision A} (vec_1 vec_2 : list A) : list A :=
  fold_left (λ acc el, if bool_decide (el ∈ acc) then acc else acc ++ [el]) vec_2 vec_1.

(** [iter().tuple_windows()]. *)
Fixpoint tuple_windows {A} (l : list A) : list (A * A) :=
  match l with
  | x :: (y :: _) as rest => (x, y) :: tuple_windows rest
  | _ => []
  end.

Abbreviation UnavailableExchangePath :=
  (Raised (LiquidityProxyError LiquidityProxyErrors.UnavailableExchangePath)).
Abbreviation FailedToCalculatePriceWithoutImpact :=
  (Raised (LiquidityProxyError LiquidityProxyErrors.FailedToCalculatePriceWithoutImpact)).
Abbreviation SlippageNotTolerated :=
  (Raised (LiquidityProxyError LiquidityProxyErrors.SlippageNotTolerated)).

(** ** The pallet *)

Class ProxyConfig := {
  GetNumSamples : Z;
  GetTechnicalAccountId : AccountId;
  GetADARAccountId : AccountId;
  XOR : AssetId;
  (** [T::ADARCommissionRatioUpdateOrigin]. *)
  ensure_ratio_origin : RawOrigin → bool
}.

Module LiquidityProxy.

Inductive Event :=
| Exchange (who : AccountId) (dex : DEXId) (input_asset_id output_asset_id : AssetId)
    (input_amount output_amount : Balance) (fee : OutcomeFee.t) (sources : list LiquiditySourceId)
| LiquiditySourceEnabled (source : LiquiditySourceType)
| LiquiditySourceDisabled (source : LiquiditySourceType)
| BatchSwapExecuted (adar_commission executed_input_amount : Balance) (additional_data : option (list Z))
| XorlessTransfer (asset_id : AssetId) (sender receiver : AccountId) (amount : Balance)
    (additional_data : option (list Z))
| ADARFeeWithdrawn (asset_id : AssetId) (amount : Balance).

Record t (L : Type) := mk {
  api : DexApi.t L;
  ADARCommissionRatio : Balance;
  events : list Event
}.
Arguments mk {L}.
Arguments api {L}.
Arguments ADARCommissionRatio {L}.
Arguments events {L}.

Section proxy.
Context {L : Type} `{MultiCurrency L} {IS : Issuance L} {AI : AssetInfo L} {LS : LiquiditySources L}.
Context {AK : AssetKinds L} {PC : ProxyConfig} `{SlippageTolerance} `{PriceEpsilon}.
Context (fuel : nat).
Implicit Types (s : t L).

Abbreviation P := (M (t L) AggError).

Definition set_api (a : DexApi.t L) s : t L := mk a (ADARCommissionRatio s) (events s).
Definition deposit_event (e : Event) : P unit :=
  modify (λ s, mk (api s) (ADARCommissionRatio s) (events s ++ [e])).

(** Calls of the other pallets. *)
Definition call_api {A} (c : M (DexApi.t L) DispatchError A) : P A :=
  map_err (zoom api set_api c) Raised.
Definition call_ledger {A} (c : M L DispatchError A) : P A :=
  call_api (zoom DexApi.ledger DexApi.set_ledger c).
(** Calls that only read the state. *)
Definition reading {A} (f : t L → result AggError A) : P A := λ s, (f s, s).

Definition proxy_ledger s : L := DexApi.ledger (api s).

(** The registry as the aggregator uses it. *)
Definition registry_at s : LiquidityRegistry LiquiditySourceId Reward := {|
  registry_step_quote id input_asset_id output_asset_id amount deduce_fee :=
    DexApi.step_quote (api s) id input_asset_id output_asset_id amount GetNumSamples deduce_fee;
  registry_check_rewards id input_asset_id output_asset_id input_amount output_amount :=
    DexApi.check_rewards (api s) id input_asset_id output_asset_id input_amount output_amount
|}.

Definition check_indivisible_assets (input_asset_id output_asset_id : AssetId) : result AggError unit :=
  ensure (negb (is_non_divisible input_asset_id) && negb (is_non_divisible output_asset_id))
    (Raised (LiquidityProxyError LiquidityProxyErrors.UnableToSwapIndivisibleAssets)).

Definition list_quote_liquidity_sources s (input_asset_id output_asset_id : AssetId)
    (f : LiquiditySourceFilter) : result AggError (list LiquiditySourceId) :=
  sources ← raise (DexApi.list_liquidity_sources (api s) input_asset_id output_asset_id f);
  let locked := TradingPairs.get_locked (DexApi.market (api s)) in
  Ok (filter (λ x, source_type x ∉ locked) sources).

Definition quote_single s (base_asset_id input_asset_id output_asset_id : AssetId)
    (amount : QuoteAmount) (f : LiquiditySourceFilter) (skip_info deduce_fee : bool)
    : result AggError
        (AggregatedSwapOutcome LiquiditySourceId * list Reward * list LiquiditySourceId) :=
  sources ← list_quote_liquidity_sources s input_asset_id output_asset_id f;
  match sources with
  | [] => Err UnavailableExchangePath
  | [src] =>
      outcome ← raise (DexApi.quote (api s) src input_asset_id output_asset_id amount deduce_fee);
      let rewards :=
        if skip_info then [] else
        let '(input_amount, output_amount) := place_input_and_output amount outcome in
        match DexApi.check_rewards (api s) src input_asset_id output_asset_id input_amount
                output_amount with
        | Ok rewards => rewards
        | Err _ => []
        end in
      Ok (mkAggregatedOutcome
            [(src, with_variant (quote_variant amount) (quote_amount amount) (outcome_amount outcome))]
            (outcome_amount outcome) (outcome_fee outcome),
          rewards, sources)
  | _ =>
      '(outcome, rewards) ←
        new_smart_split (LR := registry_at s) fuel sources base_asset_id input_asset_id
          output_asset_id amount skip_info deduce_fee;
      Ok (outcome, rewards, sources)
  end.

(** The adjusted parts of [calculate_amount_without_impact]. *)
Fixpoint adjust_distribution (ratio_to_actual : Z)
    (distribution : list (LiquiditySourceId * SwapAmount))
    : result AggError (list (LiquiditySourceId * QuoteAmount)) :=
  match distribution with
  | [] => Ok []
  | (source, amount) :: distribution =>
      if negb (0 <? swap_amount amount) then adjust_distribution ratio_to_actual distribution else
      adjusted_amount ←
        match (bits ← Fixed.try_i128 (swap_amount amount); Fixed.rmul bits ratio_to_actual Floor) with
        | Ok adjusted => if 0 <=? adjusted then Ok adjusted else Err FailedToCalculatePriceWithoutImpact
        | Err _ => Err FailedToCalculatePriceWithoutImpact
        end;
      rest ← adjust_distribution ratio_to_actual distribution;
      Ok ((source, quote_with_variant (swap_variant amount) adjusted_amount) :: rest)
  end.

Fixpoint sum_without_impact s (input_asset_id output_asset_id : AssetId) (deduce_fee : bool)
    (distribution : list (LiquiditySourceId * QuoteAmount)) (accumulated : Balance)
    : result AggError Balance :=
  match distribution with
  | [] => Ok accumulated
  | (src, part_amount) :: distribution =>
      part_outcome ← raise (DexApi.quote_without_impact (api s) src input_asset_id output_asset_id
                              part_amount deduce_fee);
      accumulated ← ok_or (u128_checked_add accumulated (outcome_amount part_outcome))
                      FailedToCalculatePriceWithoutImpact;
      sum_without_impact s input_asset_id output_asset_id deduce_fee distribution accumulated
  end.

Definition calculate_amount_without_impact s (input_asset_id output_asset_id : AssetId)
    (distribution : list (LiquiditySourceId * SwapAmount))
    (outcome_amount outcome_without_impact : Balance) (deduce_fee : bool) : result AggError Balance :=
  ratio_to_actual ←
    (if negb (outcome_amount =? 0) then
       match Fixed.try_i128 outcome_without_impact, Fixed.try_i128 outcome_amount with
       | Ok without_impact, Ok amount =>
           match Fixed.rdiv without_impact amount Floor with
           | Ok ratio => Ok ratio
           | Err _ => Ok Fixed.COEF
           end
       | _, _ => Err FailedToCalculatePriceWithoutImpact
       end
     else Ok Fixed.COEF);
  distribution ← adjust_distribution ratio_to_actual distribution;
  sum_without_impact s input_asset_id output_asset_id deduce_fee distribution 0.

(** What is accumulated along a path. *)
Record PathQuote := mkPathQuote {
  pq_outcome : SwapOutcome;
  pq_without_impact : option Balance;
  pq_rewards : list Reward;
  pq_sources : list LiquiditySourceId;
  pq_route : ExchangeRoute
}.

Fixpoint quote_pairs_with_flexible_amount s (dex_info : DEXInfo) (pairs : list (AssetId * AssetId))
    (current_amount : Balance) (f : LiquiditySourceFilter) (skip_info deduce_fee : bool)
    (variant : SwapVariant.t) (acc : PathQuote) : result AggError PathQuote :=
  match pairs with
  | [] => Ok acc
  | (from_asset, to_asset) :: pairs =>
      '(quote, rewards, liquidity_sources) ←
        quote_single s (dex_base_asset_id dex_info) from_asset to_asset
          (quote_with_variant variant current_amount) f skip_info deduce_fee;
      without_impact ←
        match pq_without_impact acc with
        | Some without_impact =>
            x ← calculate_amount_without_impact s from_asset to_asset (outcome_distribution quote)
                  (outcome_amount (pq_outcome acc)) without_impact deduce_fee;
            Ok (Some x)
        | None => Ok None
        end;
      let swap := (from_asset, to_asset,
                   with_variant variant current_amount (aggregated_outcome_amount quote)) in
      quote_pairs_with_flexible_amount s dex_info pairs (aggregated_outcome_amount quote) f skip_info
        deduce_fee variant
        (mkPathQuote
           (mkOutcome (aggregated_outcome_amount quote)
              (OutcomeFee.merge (outcome_fee (pq_outcome acc)) (aggregated_outcome_fee quote)))
           without_impact (pq_rewards acc ++ rewards)
           (merge_two_vectors_unique (pq_sources acc) liquidity_sources)
           (match variant with
            | SwapVariant.WithDesiredInput => pq_route acc ++ [swap]
            | SwapVariant.WithDesiredOutput => swap :: pq_route acc
            end))
  end.

Definition quote_path_info s (dex_info : DEXInfo) (variant : SwapVariant.t) (amount : Balance)
    (f : LiquiditySourceFilter) (skip_info deduce_fee : bool) (atomic_path : list AssetId)
    : result AggError QuoteInfo :=
  let pairs :=
    match variant with
    | SwapVariant.WithDesiredInput => tuple_windows atomic_path
    | SwapVariant.WithDesiredOutput =>
        (λ '(to, from), (from, to)) <$> tuple_windows (rev atomic_path)
    end in
  x ← quote_pairs_with_flexible_amount s dex_info pairs amount f skip_info deduce_fee variant
        (mkPathQuote (mkOutcome 0 OutcomeFee.new) (if skip_info then None else Some 0) [] [] []);
  Ok (mkQuoteInfo (pq_outcome x) (pq_without_impact x) (pq_rewards x) (pq_sources x) atomic_path
        (pq_route x)).

(** The fold of [select_best_path]. *)
Definition better_path (variant : SwapVariant.t) (acc path : result AggError QuoteInfo)
    : result AggError QuoteInfo :=
  match acc, path with
  | Ok _, Err _ => acc
  | Err _, Ok _ => path
  | Ok acc_quote_info, Ok quote_info =>
      match variant, outcome_cmp (quote_outcome acc_quote_info) (quote_outcome quote_info) with
      | SwapVariant.WithDesiredInput, Lt => path
      | SwapVariant.WithDesiredInput, _ => acc
      | _, Lt => acc
      | _, _ => path
      end
  | Err _, Err _ => acc
  end.

Definition select_best_path s (dex_info : DEXInfo) (asset_paths : list (list AssetId))
    (variant : SwapVariant.t) (amount : Balance) (f : LiquiditySourceFilter)
    (skip_info deduce_fee : bool) : result AggError QuoteInfo :=
  match quote_path_info s dex_info variant amount f skip_info deduce_fee <$> asset_paths with
  | [] => Err UnavailableExchangePath
  | primary_path :: path_quotes => fold_left (better_path variant) path_quotes primary_path
  end.

Definition get_dex_info s (dex_id : DEXId) : result AggError DEXInfo :=
  raise (fst (DexManager.get_dex_info dex_id (DexApi.market (api s)))).

Definition inner_quote s (dex_id : DEXId) (input_asset_id output_asset_id : AssetId)
    (amount : QuoteAmount) (f : LiquiditySourceFilter) (skip_info deduce_fee : bool)
    : result AggError QuoteInfo :=
  _ ← ensure (bool_decide (input_asset_id ≠ output_asset_id)) UnavailableExchangePath;
  dex_info ← get_dex_info s dex_id;
  match new_trivial (proxy_ledger s) dex_info input_asset_id output_asset_id with
  | None => Err UnavailableExchangePath
  | Some paths =>
      select_best_path s dex_info paths (quote_variant amount) (quote_amount amount) f skip_info
        deduce_fee
  end.

(** [LiquidityProxyTrait::quote]. *)
Definition quote s (dex_id : DEXId) (input_asset_id output_asset_id : AssetId) (amount : QuoteAmount)
    (f : LiquiditySourceFilter) (deduce_fee : bool) : result AggError SwapOutcome :=
  info ← inner_quote s dex_id input_asset_id output_asset_id amount f true deduce_fee;
  Ok (quote_outcome info).

(** ** Exchanges *)

(** The exchanges of the parts of a distribution, in order. *)
Fixpoint exchange_parts (sender receiver : AccountId) (input_asset_id output_asset_id : AssetId)
    (distribution : list (LiquiditySourceId * SwapAmount)) : P (list SwapOutcome) :=
  match distribution with
  | [] => mret []
  | (src, part_amount) :: distribution =>
      outcome ← call_api (DexApi.exchange sender receiver src input_asset_id output_asset_id part_amount);
      rest ← exchange_parts sender receiver input_asset_id output_asset_id distribution;
      mret (outcome :: rest)
  end.

Definition exchange_single (sender receiver : AccountId)
    (base_asset_id input_asset_id output_asset_id : AssetId) (amount : SwapAmount)
    (f : LiquiditySourceFilter) : P (SwapOutcome * list LiquiditySourceId) :=
  with_transaction (
    '(outcome, _, sources) ←
      reading (λ s, quote_single s base_asset_id input_asset_id output_asset_id (to_quote amount) f
                      true true);
    res ← exchange_parts sender receiver input_asset_id output_asset_id
            (filter (λ p, 0 < swap_amount (snd p)) (outcome_distribution outcome));
    let '(amount, fee) :=
      fold_left (λ '(amount_acc, fee_acc) x,
        (FixedWrapper.add amount_acc (FixedWrapper.from_int (outcome_amount x)),
         OutcomeFee.merge fee_acc (outcome_fee x))) res (FixedWrapper.from_int 0, OutcomeFee.new) in
    match FixedWrapper.try_into_balance amount with
    | Ok amount => mret (mkOutcome amount fee, sources)
    | Err _ => mthrow CalculationError
    end).

(** The exchanges of a route; those between the first and the last go through the
    transit account. *)
Fixpoint exchange_route (base_asset_id : AssetId) (cur_sender receiver : AccountId)
    (route : ExchangeRoute) (f : LiquiditySourceFilter)
    (acc : SwapOutcome * list LiquiditySourceId) : P (SwapOutcome * list LiquiditySourceId) :=
  match route with
  | [] => mret acc
  | (from, to, swap_amount) :: route =>
      let cur_receiver := match route with [] => receiver | _ :: _ => GetTechnicalAccountId end in
      '(swap_outcome, swap_sources) ←
        exchange_single cur_sender cur_receiver base_asset_id from to swap_amount f;
      let '(outcome, sources) := acc in
      exchange_route base_asset_id GetTechnicalAccountId receiver route f
        (mkOutcome (outcome_amount swap_outcome)
           (OutcomeFee.merge (outcome_fee outcome) (outcome_fee swap_outcome)),
         merge_two_vectors_unique sources swap_sources)
  end.

(** An empty route panics. *)
Definition exchange_sequence_with_desired_amount (dex_info : DEXInfo) (sender receiver : AccountId)
    (route : ExchangeRoute) (f : LiquiditySourceFilter) : P (SwapOutcome * list LiquiditySourceId) :=
  match route with
  | [] => mthrow (Raised Panicked)
  | _ :: _ =>
      exchange_route (dex_base_asset_id dex_info) sender receiver route f
        (mkOutcome 0 OutcomeFee.new, [])
  end.

Definition exchange_sequence (dex_info : DEXInfo) (sender receiver : AccountId)
    (asset_paths : list (list AssetId)) (amount : SwapAmount) (f : LiquiditySourceFilter)
    : P (SwapOutcome * list LiquiditySourceId) :=
  info ← reading (λ s, select_best_path s dex_info asset_paths (swap_variant amount)
                         (swap_amount amount) f true true);
  let route := quote_route info in
  '(swap, sources) ← exchange_sequence_with_desired_amount dex_info sender receiver route f;
  match amount with
  | SwapWithDesiredInput _ min_amount_out =>
      _ ← ensure (min_amount_out <=? outcome_amount swap) SlippageNotTolerated;
      mret (swap, sources)
  | SwapWithDesiredOutput _ max_amount_in =>
      first ← ok_or (head route) UnavailableExchangePath;
      let input_amount := swap_limit (snd first) in
      _ ← ensure (input_amount <=? max_amount_in) SlippageNotTolerated;
      mret (mkOutcome input_amount (outcome_fee swap), sources)
  end.

Definition inner_exchange (dex_id : DEXId) (sender receiver : AccountId)
    (input_asset_id output_asset_id : AssetId) (amount : SwapAmount) (f : LiquiditySourceFilter)
    : P (SwapOutcome * list LiquiditySourceId) :=
  _ ← ensure (bool_decide (input_asset_id ≠ output_asset_id)) UnavailableExchangePath;
  with_transaction (
    dex_info ← reading (λ s, get_dex_info s dex_id);
    s ← get_state;
    match new_trivial (proxy_ledger s) dex_info input_asset_id output_asset_id with
    | None => mthrow UnavailableExchangePath
    | Some paths => exchange_sequence dex_info sender receiver paths amount f
    end).

(** [LiquidityProxyTrait::exchange]. *)
Definition exchange (dex_id : DEXId) (sender receiver : AccountId)
    (input_asset_id output_asset_id : AssetId) (amount : SwapAmount) (f : LiquiditySourceFilter)
    : P SwapOutcome :=
  '(outcome, _) ← inner_exchange dex_id sender receiver input_asset_id output_asset_id amount f;
  mret outcome.

Definition inner_swap (sender receiver : AccountId) (dex_id : DEXId)
    (input_asset_id output_asset_id : AssetId) (amount : SwapAmount)
    (selected_source_types : list LiquiditySourceType) (filter_mode : FilterMode) : P unit :=
  _ ← lift (check_indivisible_assets input_asset_id output_asset_id);
  '(outcome, sources) ←
    inner_exchange dex_id sender receiver input_asset_id output_asset_id amount
      (with_mode dex_id filter_mode selected_source_types);
  let '(input_amount, output_amount) :=
    match amount with
    | SwapWithDesiredInput desired_amount_in _ => (desired_amount_in, outcome_amount outcome)
    | SwapWithDesiredOutput desired_amount_out _ => (outcome_amount outcome, desired_amount_out)
    end in
  deposit_event (Exchange sender dex_id input_asset_id output_asset_id input_amount output_amount
                   (outcome_fee outcome) sources).

(** ** Availability of paths *)

(** Not a full sort: only a base asset is put first. *)
Definition weak_sort_pair s (dex_info : DEXInfo) (asset_a asset_b : AssetId) : TradingPair :=
  let synthetic_assets := enabled_target_assets (proxy_ledger s) in
  let a_type := determine (L := L) dex_info synthetic_assets asset_a in
  let b_type := determine (L := L) dex_info synthetic_assets asset_b in
  match a_type, b_type with
  | AssetType.Base, _ => mkPair asset_a asset_b
  | _, AssetType.Base => mkPair asset_b asset_a
  | AssetType.SyntheticBase, _ => mkPair asset_a asset_b
  | _, AssetType.SyntheticBase => mkPair asset_b asset_a
  | _, _ => mkPair asset_a asset_b
  end.

Definition pair_sources s (dex_id : DEXId) (dex_info : DEXInfo) (from to : AssetId)
    : result DispatchError (gset LiquiditySourceType) :=
  let pair := weak_sort_pair s dex_info from to in
  fst (TradingPairs.list_enabled_sources_for_trading_pair dex_id (base_asset_id pair)
         (target_asset_id pair) (DexApi.market (api s))).

(** The pairs whose sources cannot be listed are skipped. *)
Definition check_asset_path s (dex_id : DEXId) (dex_info : DEXInfo) (path : list AssetId) : bool :=
  forallb (λ sources, negb (bool_decide (sources = ∅)))
    (omap (λ '(from, to), ok (pair_sources s dex_id dex_info from to)) (tuple_windows path)).

Definition is_path_available s (dex_id : DEXId) (input_asset_id output_asset_id : AssetId)
    : result AggError bool :=
  dex_info ← get_dex_info s dex_id;
  match new_trivial (proxy_ledger s) dex_info input_asset_id output_asset_id with
  | None => Ok false
  | Some paths => Ok (existsb (check_asset_path s dex_id dex_info) paths)
  end.

Fixpoint path_sources s (dex_id : DEXId) (dex_info : DEXInfo) (pairs : list (AssetId * AssetId))
    (acc : option (gset LiquiditySourceType)) : result AggError (option (gset LiquiditySourceType)) :=
  match pairs with
  | [] => Ok acc
  | (from, to) :: pairs =>
      sources ← raise (pair_sources s dex_id dex_info from to);
      _ ← ensure (bool_decide (sources ≠ ∅)) UnavailableExchangePath;
      path_sources s dex_id dex_info pairs
        (Some (match acc with Some set => set ∩ sources | None => sources end))
  end.

Definition get_asset_path_sources s (dex_id : DEXId) (dex_info : DEXInfo) (path : list AssetId)
    : result AggError (gset LiquiditySourceType) :=
  acc ← path_sources s dex_id dex_info (tuple_windows path) None;
  Ok (default ∅ acc).

Definition list_enabled_sources_for_path s (dex_id : DEXId) (input_asset_id output_asset_id : AssetId)
    : result AggError (gset LiquiditySourceType) :=
  dex_info ← get_dex_info s dex_id;
  match new_trivial (proxy_ledger s) dex_info input_asset_id output_asset_id with
  | None => Err UnavailableExchangePath
  | Some paths =>
      match get_asset_path_sources s dex_id dex_info <$> paths with
      | [] => Err UnavailableExchangePath
      | primary_set :: sets =>
          fold_left (λ acc set,
            match acc, set with
            | Ok acc, Err _ => Ok acc
            | Err _, Ok set => Ok set
            | Ok acc, Ok set => Ok (acc ∪ set)
            | Err e, Err _ => Err e
            end) sets primary_set
      end
  end.

(** ** Batches *)

Record BatchReceiverInfo := mkReceiver { receiver_account : AccountId; target_amount : Balance }.

Record SwapBatchInfo := mkBatch {
  outcome_asset_id : AssetId;
  outcome_asset_reuse : Balance;
  batch_dex_id : DEXId;
  receivers : list BatchReceiverInfo
}.

(** The executed input and the remainder of every receiver. *)
Definition exchange_batch_tokens (sender : AccountId) (num_of_receivers : Z)
    (input_asset_id output_asset_id : AssetId) (max_input_amount : Balance)
    (selected_source_types : list LiquiditySourceType) (dex_id : DEXId) (filter_mode : FilterMode)
    (out_amount : Balance) : P (Balance * Balance) :=
  _ ← lift (check_indivisible_assets input_asset_id output_asset_id);
  '(outcome, sources) ←
    inner_exchange dex_id sender sender input_asset_id output_asset_id
      (SwapWithDesiredOutput out_amount max_input_amount)
      (with_mode dex_id filter_mode selected_source_types);
  _ ← deposit_event (Exchange sender dex_id input_asset_id output_asset_id (outcome_amount outcome)
                       out_amount (outcome_fee outcome) sources);
  s ← get_state;
  caller_output_asset_balance ← lift (raise (total_balance (proxy_ledger s) output_asset_id sender));
  let remainder_per_receiver :=
    if caller_output_asset_balance <? out_amount then
      let remainder := sat_sub out_amount caller_output_asset_balance in
      u128_wrap (remainder / num_of_receivers + remainder mod num_of_receivers)
    else 0 in
  mret (outcome_amount outcome, remainder_per_receiver).

Definition transfer_batch_tokens_unchecked (sender : AccountId) (output_asset_id : AssetId)
    (receivers : list BatchReceiverInfo) (remainder_per_receiver : Balance) : P unit :=
  for_each receivers (λ r,
    call_ledger (transfer_from output_asset_id sender (receiver_account r)
                   (sat_sub (target_amount r) remainder_per_receiver))).

Definition withdraw_adar_commission (who : AccountId) (asset_id : AssetId)
    (fee_ratio amount max_fee_amount : Balance) : P Balance :=
  if amount =? 0 then mret 0 else
  adar_commission ← lift
    match FixedWrapper.try_into_balance
            (FixedWrapper.mul (FixedWrapper.from_int amount) (FixedWrapper.from_int fee_ratio)) with
    | Ok x => Ok x
    | Err _ => Err CalculationError
    end;
  _ ← ensure (adar_commission <=? max_fee_amount) SlippageNotTolerated;
  _ ← (if 0 <? adar_commission then
         _ ← map_err (call_ledger (transfer_from asset_id who GetADARAccountId adar_commission))
               (λ _, Raised (LiquidityProxyError LiquidityProxyErrors.FailedToTransferAdarCommission));
         deposit_event (ADARFeeWithdrawn asset_id adar_commission)
       else mret tt);
  mret adar_commission.

Fixpoint sum_targets (receivers : list BatchReceiverInfo) (acc : Balance) : option Balance :=
  match receivers with
  | [] => Some acc
  | r :: receivers => acc ← u128_checked_add acc (target_amount r); sum_targets receivers acc
  end.

(** One batch: the assets seen so far, the executed input and what is left of
    [max_input_amount]. *)
Definition swap_batch (sender : AccountId) (input_asset_id : AssetId)
    (selected_source_types : list LiquiditySourceType) (filter_mode : FilterMode)
    (adar_fee_ratio : Balance) (batch : SwapBatchInfo)
    (acc : gset AssetId * Balance * Balance) : P (gset AssetId * Balance * Balance) :=
  let '(unique_asset_ids, executed_batch_input_amount, max_input_amount) := acc in
  let asset_id := outcome_asset_id batch in
  s ← get_state;
  balance ← lift (raise (Assets.free_balance (proxy_ledger s) asset_id sender));
  _ ← ensure (outcome_asset_reuse batch <=? balance)
        (Raised (LiquidityProxyError LiquidityProxyErrors.InsufficientBalance));
  _ ← ensure (bool_decide (asset_id ∉ unique_asset_ids)) AggregationError;
  _ ← ensure (match receivers batch with [] => false | _ :: _ => true end)
        (Raised (LiquidityProxyError LiquidityProxyErrors.InvalidReceiversInfo));
  out_amount ← ok_or (sum_targets (receivers batch) 0) CalculationError;
  '(executed_input_amount, remainder_per_receiver) ←
    (if bool_decide (asset_id ≠ input_asset_id) then
       withdrawn_fee ← withdraw_adar_commission sender asset_id adar_fee_ratio
                         (Z.min (outcome_asset_reuse batch) out_amount) (outcome_asset_reuse batch);
       let reuse := sat_sub (outcome_asset_reuse batch) withdrawn_fee in
       let desired_exchange_amount := sat_sub out_amount reuse in
       if negb (desired_exchange_amount =? 0) then
         exchange_batch_tokens sender (Z.of_nat (length (receivers batch))) input_asset_id asset_id
           max_input_amount selected_source_types (batch_dex_id batch) filter_mode
           desired_exchange_amount
       else mret (0, 0)
     else mret (out_amount, 0));
  executed ← ok_or (u128_checked_add executed_batch_input_amount executed_input_amount)
               CalculationError;
  max_input_amount ← ok_or (u128_checked_sub max_input_amount executed_input_amount)
                       SlippageNotTolerated;
  _ ← transfer_batch_tokens_unchecked sender asset_id (receivers batch) remainder_per_receiver;
  mret ({[asset_id]} ∪ unique_asset_ids, executed, max_input_amount).

Fixpoint swap_batches (sender : AccountId) (input_asset_id : AssetId)
    (selected_source_types : list LiquiditySourceType) (filter_mode : FilterMode)
    (adar_fee_ratio : Balance) (batches : list SwapBatchInfo)
    (acc : gset AssetId * Balance * Balance) : P (gset AssetId * Balance * Balance) :=
  match batches with
  | [] => mret acc
  | batch :: batches =>
      acc ← swap_batch sender input_asset_id selected_source_types filter_mode adar_fee_ratio batch acc;
      swap_batches sender input_asset_id selected_source_types filter_mode adar_fee_ratio batches acc
  end.

(** The commission and the executed input. *)
Definition inner_swap_batch_transfer (sender : AccountId) (input_asset_id : AssetId)
    (batches : list SwapBatchInfo) (max_input_amount : Balance)
    (selected_source_types : list LiquiditySourceType) (filter_mode : FilterMode)
    : P (Balance * Balance) :=
  s ← get_state;
  let adar_fee_ratio := ADARCommissionRatio s in
  '(_, executed, max_input_amount) ←
    swap_batches sender input_asset_id selected_source_types filter_mode adar_fee_ratio batches
      (∅, 0, max_input_amount);
  adar_commission ← withdraw_adar_commission sender input_asset_id adar_fee_ratio executed
                      max_input_amount;
  mret (adar_commission, executed).

(** ** Extrinsics *)

Definition ensure_signed (origin : RawOrigin) : P AccountId :=
  match origin with Signed who => mret who | _ => mthrow (Raised BadOrigin) end.

Definition swap (origin : RawOrigin) (dex_id : DEXId) (input_asset_id output_asset_id : AssetId)
    (amount : SwapAmount) (selected_source_types : list LiquiditySourceType)
    (filter_mode : FilterMode) : P unit :=
  who ← ensure_signed origin;
  inner_swap who who dex_id input_asset_id output_asset_id amount selected_source_types filter_mode.

Definition swap_transfer (origin : RawOrigin) (receiver : AccountId) (dex_id : DEXId)
    (input_asset_id output_asset_id : AssetId) (amount : SwapAmount)
    (selected_source_types : list LiquiditySourceType) (filter_mode : FilterMode) : P unit :=
  who ← ensure_signed origin;
  inner_swap who receiver dex_id input_asset_id output_asset_id amount selected_source_types filter_mode.

Definition swap_transfer_batch (origin : RawOrigin) (batches : list SwapBatchInfo)
    (input_asset_id : AssetId) (max_input_amount : Balance)
    (selected_source_types : list LiquiditySourceType) (filter_mode : FilterMode)
    (additional_data : option (list Z)) : P unit :=
  with_transaction (
    who ← ensure_signed origin;
    '(adar_commission, executed_input_amount) ←
      inner_swap_batch_transfer who input_asset_id batches max_input_amount selected_source_types
        filter_mode;
    deposit_event (BatchSwapExecuted adar_commission executed_input_amount additional_data)).

Definition is_switchable (source : LiquiditySourceType) : bool :=
  bool_decide (source = XSTPool) || bool_decide (source = MulticollateralBondingCurvePool).

Definition set_locked_sources (locked : list LiquiditySourceType) : P unit :=
  modify (λ s, set_api (DexApi.set_market (set_locked locked (DexApi.market (api s))) (api s)) s).

Definition ensure_root (origin : RawOrigin) : P unit :=
  match origin with Root => mret tt | _ => mthrow (Raised BadOrigin) end.

Definition enable_liquidity_source (origin : RawOrigin) (source : LiquiditySourceType) : P unit :=
  _ ← ensure_root origin;
  _ ← ensure (is_switchable source)
        (Raised (LiquidityProxyError LiquidityProxyErrors.UnableToEnableLiquiditySource));
  s ← get_state;
  let locked := TradingPairs.get_locked (DexApi.market (api s)) in
  _ ← ensure (bool_decide (source ∈ locked))
        (Raised (LiquidityProxyError LiquidityProxyErrors.LiquiditySourceAlreadyEnabled));
  _ ← set_locked_sources (filter (λ x, x ≠ source) locked);
  deposit_event (LiquiditySourceEnabled source).

Definition disable_liquidity_source (origin : RawOrigin) (source : LiquiditySourceType) : P unit :=
  _ ← ensure_root origin;
  _ ← ensure (is_switchable source)
        (Raised (LiquidityProxyError LiquidityProxyErrors.UnableToDisableLiquiditySource));
  s ← get_state;
  let locked := TradingPairs.get_locked (DexApi.market (api s)) in
  _ ← ensure (bool_decide (source ∉ locked))
        (Raised (LiquidityProxyError LiquidityProxyErrors.LiquiditySourceAlreadyDisabled));
  _ ← set_locked_sources (locked ++ [source]);
  deposit_event (LiquiditySourceDisabled source).

Definition set_adar_commission_ratio (origin : RawOrigin) (commission_ratio : Balance) : P unit :=
  _ ← ensure (ensure_ratio_origin origin) (Raised BadOrigin);
  _ ← ensure (commission_ratio <? Fixed.COEF)
        (Raised (LiquidityProxyError LiquidityProxyErrors.InvalidADARCommissionRatio));
  modify (λ s, mk (api s) commission_ratio (events s)).

Definition xorless_transfer (origin : RawOrigin) (dex_id : DEXId) (asset_id : AssetId)
    (receiver : AccountId) (amount desired_xor_amount max_amount_in : Balance)
    (selected_source_types : list LiquiditySourceType) (filter_mode : FilterMode)
    (additional_data : option (list Z)) : P unit :=
  sender ← ensure_signed origin;
  _ ← ensure (bool_decide (sender ≠ receiver))
        (Raised (LiquidityProxyError LiquidityProxyErrors.TheSameSenderAndReceiver));
  _ ← (if bool_decide (asset_id ≠ XOR) && (0 <? max_amount_in) && (0 <? desired_xor_amount) then
         inner_swap sender sender dex_id asset_id XOR
           (SwapWithDesiredOutput desired_xor_amount max_amount_in) selected_source_types filter_mode
       else mret tt);
  _ ← call_ledger (transfer_from asset_id sender receiver amount);
  deposit_event (XorlessTransfer asset_id sender receiver amount additional_data).

(** ** Buying back and reference prices *)

(** [LiquidityProxyBuyBackHandler] with the exchange [dex_id]; the owner of an asset is
    looked up in the assets pallet. *)
Definition buy_back_and_burn (dex_id : DEXId) (account_id : AccountId)
    (asset_id buy_back_asset_id : AssetId) (amount : Balance) : P Balance :=
  outcome ← exchange dex_id account_id account_id asset_id buy_back_asset_id
              (SwapWithDesiredInput amount 0)
              (with_forbidden dex_id [MulticollateralBondingCurvePool]);
  _ ← call_ledger (Assets.burn_from buy_back_asset_id account_id account_id (outcome_amount outcome));
  mret (outcome_amount outcome).

Definition mint_buy_back_and_burn (asset_owner : L → AssetId → option AccountId) (dex_id : DEXId)
    (mint_asset_id buy_back_asset_id : AssetId) (amount : Balance) : P Balance :=
  s ← get_state;
  owner ← ok_or (asset_owner (proxy_ledger s) mint_asset_id) (Raised AssetIdNotExists);
  let transit := GetTechnicalAccountId in
  _ ← call_ledger (Assets.mint_to mint_asset_id owner transit amount);
  buy_back_and_burn dex_id transit mint_asset_id buy_back_asset_id amount.

(** [ReferencePriceProvider::get_reference_price]. *)
Definition get_reference_price s (dex_id : DEXId) (reference_asset_id asset_id : AssetId)
    : result AggError Balance :=
  if bool_decide (asset_id = reference_asset_id) then Ok Fixed.COEF else
  outcome ← quote s dex_id asset_id reference_asset_id (WithDesiredInput Fixed.COEF)
              (with_forbidden dex_id [MulticollateralBondingCurvePool]) false;
  Ok (outcome_amount outcome).
End proxy.
End LiquidityProxy.
