(* ===== verification/ProxyPaths.v ===== *)
(** * Paths between assets and the choice of the best one

    The shape of the paths of [ExchangePath::new_trivial], the best path of
    [select_best_path] and the availability of a path. *)

From S2P Require Import Prelude BTreeMap FixedPoint Units OrderTypes SwapTypes Chunks Aggregator.
From S2P Require Import DataLayer World Permissions TradingPair Pallet Technical DexApi LiquidityProxy.

(** ** The shape of paths *)

(** A path from [input] to [output] that visits no asset twice. *)
Record simple_path (input output : AssetId) (p : list AssetId) : Prop := {
  path_starts : head p = Some input;
  path_ends : last p = Some output;
  path_simple : NoDup p;
  path_length : (2 ≤ length p ≤ 5)%nat
}.

Section shape.
Context {L : Type} `{AssetKinds L} (l : L) (dex_info : DEXInfo).
Implicit Types (input output : AssetId).

(** The base assets of the exchange are distinct, and the chameleon one is not synthetic. *)
Record distinct_bases : Prop := {
  bases_distinct : dex_base_asset_id dex_info ≠ synthetic_base_asset_id dex_info;
  chameleon_distinct c targets :
    GetChameleonPools (dex_base_asset_id dex_info) = Some (c, targets) →
    c ≠ dex_base_asset_id dex_info ∧ c ≠ synthetic_base_asset_id dex_info ∧
    c ∉ enabled_target_assets l
}.

(** What the type of an asset says of it. *)
Definition type_spec (a : AssetId) (t : AssetType.t) : Prop :=
  let base := dex_base_asset_id dex_info in
  let synthetic_base := synthetic_base_asset_id dex_info in
  let chameleon := fst <$> GetChameleonPools base in
  match t with
  | AssetType.Base => a = base
  | AssetType.SyntheticBase => a = synthetic_base
  | AssetType.ChameleonBase => chameleon = Some a
  | AssetType.ChameleonPoolAsset =>
      a ≠ base ∧ a ≠ synthetic_base ∧ is_Some chameleon ∧ chameleon ≠ Some a
  | AssetType.Synthetic | AssetType.Basic =>
      a ≠ base ∧ a ≠ synthetic_base ∧ chameleon ≠ Some a
  end.

Lemma determine_spec a : distinct_bases →
  type_spec a (determine dex_info (enabled_target_assets l) a).
Proof.
  intros [Hb Hc]. unfold determine, type_spec. repeat case_bool_decide; simpl; auto.
  - split_and!; [done..|]. destruct (GetChameleonPools _) as [[c ts]|]; [|done].
    destruct (Hc c ts eq_refl) as (_ & _ & Hn). simpl. by intros [= ->].
  - destruct (GetChameleonPools _) as [[c ts]|]; simpl; [|by split_and!].
    repeat case_bool_decide; simpl; subst; auto; split_and!; eauto; congruence.
Qed.

Lemma simple_path_NoDup input output p :
  head p = Some input → last p = Some output → (2 ≤ length p ≤ 5)%nat → NoDup p →
  simple_path input output p.
Proof. by split. Qed.

(** Closes the claim that an explicit list has no duplicates. *)
Ltac distinct :=
  repeat first
    [ apply NoDup_nil_2
    | apply NoDup_cons; split;
        [rewrite ?elem_of_cons, elem_of_nil; intuition congruence|] ].
Ltac simple_paths :=
  repeat first
    [ apply Forall_nil_2
    | apply Forall_cons_2; [apply simple_path_NoDup; simpl; [done|done|lia|distinct]|] ].

Lemma build_paths_spec input output : distinct_bases → input ≠ output →
  let input_type := determine dex_info (enabled_target_assets l) input in
  let output_type := determine dex_info (enabled_target_assets l) output in
  let b := build_paths input_type output_type
    (mkBuilder [] input output (dex_base_asset_id dex_info) (synthetic_base_asset_id dex_info)
       (fst <$> GetChameleonPools (dex_base_asset_id dex_info))) in
  paths b ≠ [] ∧ Forall (simple_path input output) (paths b).
Proof.
  intros HD Hne. pose proof (determine_spec input HD) as Hi. pose proof (determine_spec output HD) as Ho.
  destruct HD as [Hb Hc].
  assert (∀ c, fst <$> GetChameleonPools (dex_base_asset_id dex_info) = Some c →
            c ≠ dex_base_asset_id dex_info ∧ c ≠ synthetic_base_asset_id dex_info) as Hch.
  { intros c Hg. destruct (GetChameleonPools _) as [[c' ts]|] eqn:E; [|done].
    injection Hg as <-. by destruct (Hc c' ts eq_refl) as (? & ? & _). }
  clear Hc. cbv zeta. unfold type_spec in *.
  destruct (fst <$> GetChameleonPools (dex_base_asset_id dex_info)) as [c|].
  - specialize (Hch c eq_refl) as [Hc1 Hc2].
    destruct (determine _ _ input), (determine _ _ output); simpl in *; try congruence;
      (split; [done|]); simple_paths.
  - clear Hch.
    destruct (determine _ _ input), (determine _ _ output); simpl in *; try congruence;
      try (by destruct Hi as (_ & _ & [] & _)); try (by destruct Ho as (_ & _ & [] & _));
      (split; [done|]); simple_paths.
Qed.

(** C27. Two different assets are always connected, and every path that
    [ExchangePath::new_trivial] builds goes from the input to the output in at most
    four swaps without visiting an asset twice. *)
Theorem new_trivial_simple input output : distinct_bases → input ≠ output →
  ∃ asset_paths, new_trivial l dex_info input output = Some asset_paths ∧ asset_paths ≠ [] ∧
    Forall (simple_path input output) asset_paths.
Proof.
  intros HD Hne. destruct (build_paths_spec _ _ HD Hne) as [Hn Hall].
  unfold new_trivial. rewrite bool_decide_eq_false_2 by done. cbv zeta.
  destruct (paths _) as [|p ps]; [done|]. by exists (p :: ps).
Qed.

(** Without assumptions on the assets, a path still has the right ends. *)
Lemma new_trivial_ends input output asset_paths p :
  new_trivial l dex_info input output = Some asset_paths → p ∈ asset_paths →
  ∃ mid, p = input :: mid ++ [output].
Proof.
  unfold new_trivial. case_bool_decide; [done|]. cbv zeta. intros Hp Hin.
  assert (Forall (λ p, ∃ mid, p = input :: mid ++ [output]) asset_paths) as Hall;
    [|rewrite Forall_forall in Hall; auto].
  clear Hin. revert Hp. generalize (determine dex_info (enabled_target_assets l) input).
  generalize (determine dex_info (enabled_target_assets l) output).
  intros t' t. destruct (fst <$> _) as [c|]; destruct t, t'; simpl; intros [= <-];
    repeat constructor;
    first [by exists [] | by eexists [_] | by eexists [_; _] | by eexists [_; _; _]].
Qed.
End shape.

(** ** The best path *)

Section best.
Context {L : Type} `{MultiCurrency L} {AI : AssetInfo L} {LS : LiquiditySources L}.
Context {AK : AssetKinds L} {PC : ProxyConfig} `{SlippageTolerance} `{PriceEpsilon}.
Import LiquidityProxy.
Implicit Types (s : LiquidityProxy.t L).

(** [x] is at least as good for the user as [y]. *)
Definition as_good (v : SwapVariant.t) (x y : QuoteInfo) : Prop :=
  match v with
  | SwapVariant.WithDesiredInput => outcome_amount (quote_outcome y) ≤ outcome_amount (quote_outcome x)
  | SwapVariant.WithDesiredOutput => outcome_amount (quote_outcome x) ≤ outcome_amount (quote_outcome y)
  end.

Lemma as_good_refl v x : as_good v x x.
Proof. destruct v; simpl; lia. Qed.
Lemma as_good_trans v x y z : as_good v x y → as_good v y z → as_good v x z.
Proof. destruct v; simpl; lia. Qed.

Lemma outcome_cmp_amount a b :
  match outcome_cmp a b with
  | Lt => outcome_amount a ≤ outcome_amount b
  | Eq => outcome_amount a = outcome_amount b
  | Gt => outcome_amount b ≤ outcome_amount a
  end.
Proof.
  unfold outcome_cmp. destruct (Z.compare_spec (outcome_amount a) (outcome_amount b)); try lia.
  destruct (fee_cmp _ _); lia.
Qed.

(** [r] is the best of [quotes], an error only when all are. *)
Definition best_of (v : SwapVariant.t) (quotes : list (result AggError QuoteInfo))
    (r : result AggError QuoteInfo) : Prop :=
  r ∈ quotes ∧
  match r with
  | Ok x => ∀ y, Ok y ∈ quotes → as_good v x y
  | Err _ => ∀ y, Ok y ∉ quotes
  end.

Lemma better_path_spec v quotes acc q :
  best_of v quotes acc → best_of v (quotes ++ [q]) (better_path v acc q).
Proof.
  intros [Hin Hbest].
  assert (∀ y : QuoteInfo, Ok y ∈ quotes ++ [q] ↔ Ok y ∈ quotes ∨ Ok y = q) as Happ
    by (intros; set_solver).
  destruct acc as [x|e], q as [y|e']; simpl.
  - pose proof (outcome_cmp_amount (quote_outcome x) (quote_outcome y)) as Hc.
    assert (as_good v x y → best_of v (quotes ++ [Ok y]) (Ok x)) as Hx.
    { intros Hg. split; [set_solver|]. intros z [Hz|[= ->]]%Happ; [by apply Hbest|done]. }
    assert (as_good v y x → best_of v (quotes ++ [Ok y]) (Ok y)) as Hy.
    { intros Hg. split; [set_solver|]. intros z [Hz|[= ->]]%Happ; [|apply as_good_refl].
      by eapply as_good_trans, Hbest. }
    destruct v, (outcome_cmp _ _); first [apply Hx; simpl; lia | apply Hy; simpl; lia].
  - split; [set_solver|]. intros z [Hz|?]%Happ; [by apply Hbest|done].
  - split; [set_solver|]. intros z [Hz|[= ->]]%Happ; [by destruct (Hbest z)|apply as_good_refl].
  - split; [set_solver|]. intros z [Hz|?]%Happ; [by apply (Hbest z)|done].
Qed.

Lemma fold_better_path v rest quotes acc :
  best_of v quotes acc → best_of v (quotes ++ rest) (fold_left (better_path v) rest acc).
Proof.
  revert quotes acc. induction rest as [|q rest IH]; intros quotes acc Hb; simpl.
  { by rewrite app_nil_r. }
  rewrite cons_middle, (assoc_L (++)). by apply IH, better_path_spec.
Qed.

Lemma select_best_path_spec fuel s dex_info asset_paths v amount f skip deduce_fee : asset_paths ≠ [] →
  best_of v (quote_path_info fuel s dex_info v amount f skip deduce_fee <$> asset_paths)
    (select_best_path fuel s dex_info asset_paths v amount f skip deduce_fee).
Proof.
  intros Hne. unfold select_best_path. destruct asset_paths as [|p ps]; [done|].
  rewrite fmap_cons. apply (fold_better_path v _ [_]). split; [set_solver|].
  destruct (quote_path_info _ _ _ _ _ _ _ _ p).
  - intros y [= ->]%list_elem_of_singleton. apply as_good_refl.
  - by intros y ?%list_elem_of_singleton.
Qed.

(** C14. The quote of the proxy is the best one over all the paths between the assets:
    no path that can be quoted gives the user more output for the desired input, or
    takes less input for the desired output. It fails only when no path can be
    quoted. *)
Theorem inner_quote_best fuel s dex_id input output amount f skip deduce_fee dex_info asset_paths :
  get_dex_info s dex_id = Ok dex_info →
  new_trivial (proxy_ledger s) dex_info input output = Some asset_paths →
  let quote_of := quote_path_info fuel s dex_info (quote_variant amount) (quote_amount amount) f
                    skip deduce_fee in
  match inner_quote fuel s dex_id input output amount f skip deduce_fee with
  | Ok best => ∃ p, p ∈ asset_paths ∧ quote_of p = Ok best ∧
      ∀ p' other, p' ∈ asset_paths → quote_of p' = Ok other → as_good (quote_variant amount) best other
  | Err _ => ∀ p', p' ∈ asset_paths → ∃ e, quote_of p' = Err e
  end.
Proof.
  intros Hinfo Hpaths quote_of. unfold inner_quote.
  assert (input ≠ output ∧ asset_paths ≠ []) as [Hne Hnil].
  { unfold new_trivial in Hpaths. case_bool_decide; [done|]. cbv zeta in Hpaths.
    by destruct (paths _); simplify_eq. }
  rewrite bool_decide_eq_true_2 by done. simpl. rewrite Hinfo. simpl. rewrite Hpaths.
  pose proof (select_best_path_spec fuel s dex_info asset_paths (quote_variant amount)
    (quote_amount amount) f skip deduce_fee Hnil) as [Hin Hbest].
  fold quote_of in Hin, Hbest. destruct (select_best_path _ _ _ _ _ _ _ _ _) as [best|e].
  - apply list_elem_of_fmap in Hin as (p & Hp & Hin). exists p. split_and!; [done..|].
    intros p' other Hp' Hq. apply Hbest. rewrite <- Hq. by apply list_elem_of_fmap_2.
  - intros p' Hp'. destruct (quote_of p') as [x|e'] eqn:Hq; [|by eexists].
    destruct (Hbest x). rewrite <- Hq. by apply list_elem_of_fmap_2.
Qed.

(** ** Availability *)

Lemma check_asset_path_unlisted s dex_id dex_info p :
  (∀ from to, (from, to) ∈ tuple_windows p → ok (pair_sources s dex_id dex_info from to) = None) →
  check_asset_path s dex_id dex_info p = true.
Proof.
  unfold check_asset_path. induction (tuple_windows p) as [|[from to] ws IH]; intros Hall; [done|].
  simpl. rewrite Hall by left. apply IH. intros. apply Hall. by right.
Qed.

(** [is_path_available] ignores the pairs of a path whose sources cannot be listed:
    a path none of whose pairs is registered counts as available. *)
Theorem unlisted_path_available s dex_id dex_info input output asset_paths p :
  get_dex_info s dex_id = Ok dex_info →
  new_trivial (proxy_ledger s) dex_info input output = Some asset_paths →
  p ∈ asset_paths →
  (∀ from to, (from, to) ∈ tuple_windows p → ok (pair_sources s dex_id dex_info from to) = None) →
  is_path_available s dex_id input output = Ok true.
Proof.
  intros Hinfo Hpaths Hp Hun. unfold is_path_available. rewrite Hinfo. simpl. rewrite Hpaths.
  f_equal. apply existsb_exists. exists p. split; [by apply list_elem_of_In|].
  by apply check_asset_path_unlisted.
Qed.
End best.
