(* ===== verification/ProxySwaps.v ===== *)
(** * Swaps through the proxy

    What a swap of the liquidity proxy does to the balances of its accounts.  The liquidity
    sources are given by the interface [SourcesLaws], which says no more than what every
    source does: [PoolSource] proves it of the liquidity pools, and [BookSource] its clause on
    exchanges of the order books. *)

From S2P Require Import Prelude BTreeMap FixedPoint Units OrderTypes SwapTypes Chunks Aggregator.
From S2P Require Import ChunkFitting Selection AggregatorInv Aggregated SmartSplit SplitBounds.
From S2P Require Import DataLayer World Permissions TradingPair Pallet Technical DexApi LiquidityProxy ProxyPaths.

(** ** What the proxy relies on *)

(** The amounts that the exchange of a source takes and gives, against its amount and its
    outcome.  The order book aligns a desired output down to its lots, so that it may give
    less; the other sources give what is desired. *)
Definition honours (source : LiquiditySourceType) (amount : SwapAmount) (outcome taken given : Balance) : Prop :=
  match amount with
  | SwapWithDesiredInput d least => taken ≤ d ∧ outcome ≤ given ∧ least ≤ outcome
  | SwapWithDesiredOutput d most =>
      taken ≤ outcome ∧ outcome ≤ most ∧ (source ≠ OrderBookSource → d ≤ given)
  end.

(** An exchange moves the input of the sender and the output of the receiver; other customers
    (the owners of the orders it matches) may gain, but lose nothing.  The reserves and
    technical accounts of the sources are not customers. *)
Definition exchanges {L} `{MultiCurrency L} (customer : AccountId → Prop) (source : LiquiditySourceType)
    (sender receiver : AccountId) (input output : AssetId) (amount : SwapAmount) (l : L) (outcome : SwapOutcome)
    (l' : L) : Prop :=
  ∃ taken given, 0 ≤ taken ∧ 0 ≤ given ∧ honours source amount (outcome_amount outcome) taken given ∧
    ∀ a x, customer x →
      free_balance l a x - moved input sender taken a x + moved output receiver given a x ≤ free_balance l' a x.

(** The liquidity sources in [valid] states: quotes are amounts of the type [Balance], and
    exchanges between customers are as above and lead to valid states, as do the transfers of
    customers. *)
Class SourcesLaws {L : Type} `{MultiCurrency L} {LS : LiquiditySources L}
    (customer : AccountId → Prop) (valid : L → Prop) : Prop := {
  source_quote_typed t l dex input output amount deduce_fee outcome :
    valid l → is_u128 (quote_amount amount) →
    ls_quote (configured t) l dex input output amount deduce_fee = Ok outcome → is_u128 (outcome_amount outcome);
  source_quotation_typed t l dex input output amount samples deduce_fee q :
    valid l → is_u128 (quote_amount amount) →
    ls_step_quote (configured t) l dex input output amount samples deduce_fee = Ok q → quotation_typed q;
  source_exchange_moves t sender receiver dex input output amount l outcome l' :
    valid l → customer sender → customer receiver → is_u128 (swap_amount amount) →
    ls_exchange (configured t) sender receiver dex input output amount l = (Ok outcome, l') →
    exchanges customer t sender receiver input output amount l outcome l' ∧ valid l';
  customer_transfer_valid asset from to amount l l' :
    valid l → customer from → currency_transfer asset from to amount l = (Ok tt, l') → valid l'
}.

(** ** Helpers *)

Lemma add_wrapper_ok a b x : FixedWrapper.add a (FixedWrapper.from_int b) = Ok x →
  ∃ y, a = Ok y ∧ x = y + b.
Proof.
  unfold FixedWrapper.add, FixedWrapper.lift2, FixedWrapper.zip, FixedWrapper.from_int.
  intros Hr. apply result_bind_ok in Hr as ([u v] & Hz & Hr).
  apply result_bind_ok in Hz as (u' & -> & Hz). apply result_bind_ok in Hz as (v' & Hb & [= -> ->]).
  apply Fixed.try_i128_ok in Hb as [-> _]. simpl in Hr. apply Fixed.try_i128_ok in Hr as [-> _].
  by exists u.
Qed.

Lemma sum_filter_le {A} (f : A → Z) (P : A → Prop) `{∀ x, Decision (P x)} l :
  (∀ x, x ∈ l → 0 ≤ f x) → sum_by f (filter P l) ≤ sum_by f l.
Proof.
  induction l as [|x l IH]; intros Hf; [done|]. rewrite filter_cons.
  assert (sum_by f (filter P l) ≤ sum_by f l) by (apply IH; intros; apply Hf; by right).
  pose proof (Hf x ltac:(left)). case_decide; simpl; lia.
Qed.

Lemma sum_filter_eq {A} (f : A → Z) (P : A → Prop) `{∀ x, Decision (P x)} l :
  (∀ x, x ∈ l → ¬ P x → f x = 0) → sum_by f (filter P l) = sum_by f l.
Proof.
  induction l as [|x l IH]; intros Hf; [done|]. rewrite filter_cons. simpl.
  rewrite <- IH by (intros; apply Hf; [by right|done]).
  case_decide as Hx; [done|]. rewrite (Hf x) by (done || left). lia.
Qed.

Section swaps.
Context {L : Type} `{MultiCurrency L} {IS : Issuance L} {AI : AssetInfo L} {LS : LiquiditySources L}.
Context {AK : AssetKinds L} {PC : ProxyConfig} `{SlippageTolerance} `{PriceEpsilon}.
Context (customer : AccountId → Prop) (valid : L → Prop) `{!SourcesLaws customer valid}.
Context (Htol : ∀ x, 0 ≤ slippage_tolerance x).
Context (fuel : nat).
Import LiquidityProxy.
Implicit Types (s : LiquidityProxy.t L).

(** The free balance of a state of the proxy. *)
Abbreviation balance s := (free_balance (proxy_ledger s)).

(** [taken] of the input leaves the sender and [given] of the output reaches the
    receiver; the accounts in [who] lose nothing else. *)
Record transfers (who : AccountId → Prop) s s' (input output : AssetId)
    (sender receiver : AccountId) (taken given : Balance) : Prop := {
  transfers_balance a x : who x →
    balance s a x - moved input sender taken a x + moved output receiver given a x ≤ balance s' a x;
  transfers_events : events s' = events s;
  transfers_valid : valid (proxy_ledger s')
}.

Lemma transfers_trans who s s1 s2 input output sender receiver t1 g1 t2 g2 :
  transfers who s s1 input output sender receiver t1 g1 →
  transfers who s1 s2 input output sender receiver t2 g2 →
  transfers who s s2 input output sender receiver (t1 + t2) (g1 + g2).
Proof.
  intros [Hb1 He1 _] [Hb2 He2 Hv2]. split; [|congruence|done]. intros a x Hx.
  specialize (Hb2 a x Hx). specialize (Hb1 a x Hx). rewrite !moved_add. lia.
Qed.

(** ** Quotes of one pair *)

Lemma source_of_ok id (src : LiquiditySource L) :
  DexApi.source_of id = Ok src → src = configured (source_type id).
Proof. unfold DexApi.source_of. by destruct (source_type id); intros [= <-]. Qed.

Lemma raise_ok {A} (r : result DispatchError A) x : raise r = Ok x ↔ r = Ok x.
Proof. destruct r; naive_solver. Qed.

(** The distribution of a quote adds up to its amount. *)
Record distributed (amount : QuoteAmount) (q : AggregatedSwapOutcome LiquiditySourceId) : Prop := {
  distributed_parts p : p ∈ outcome_distribution q →
    swap_variant (snd p) = quote_variant amount ∧ is_u128 (swap_amount (snd p)) ∧ is_u128 (swap_limit (snd p));
  distributed_amount :
    match amount with
    | WithDesiredInput x => sum_by (λ p, swap_amount (snd p)) (outcome_distribution q) ≤ x
    | WithDesiredOutput x => x ≤ sum_by (λ p, swap_amount (snd p)) (outcome_distribution q)
    end;
  distributed_limit :
    aggregated_outcome_amount q = sum_by (λ p, swap_limit (snd p)) (outcome_distribution q);
  distributed_range : is_u128 (aggregated_outcome_amount q)
}.

(** The sources of the parts are among those listed. *)
Lemma quote_single_distributed s base input output amount f skip deduce_fee q rewards sources :
  valid (proxy_ledger s) → is_u128 (quote_amount amount) →
  quote_single fuel s base input output amount f skip deduce_fee = Ok (q, rewards, sources) →
  distributed amount q ∧ ∀ p, p ∈ outcome_distribution q → fst p ∈ sources.
Proof.
  intros Hvalid Hamt Hq. unfold quote_single in Hq. apply result_bind_ok in Hq as (srcs & _ & Hq).
  destruct srcs as [|src [|src' srcs]]; [done|..].
  - apply result_bind_ok in Hq as (oc & Hoc%raise_ok & Hq). injection Hq as <- _ <-.
    unfold DexApi.quote in Hoc. apply result_bind_ok in Hoc as (? & ->%source_of_ok & Hoc).
    apply source_quote_typed in Hoc; [|done|done].
    split; [|simpl; intros p ->%list_elem_of_singleton; left].
    split; simpl; [|by destruct amount; simpl; lia|by destruct amount; simpl; lia|done].
    intros p ->%list_elem_of_singleton. by destruct amount.
  - apply result_bind_ok in Hq as ([oc rw] & Hoc & Hq). injection Hq as <- _ <-.
    pose proof (smart_split_range _ _ _ _ _ _ _ _ _ _ Hoc) as Hrange.
    apply (smart_split_bounds Htol) in Hoc as (Hp & Hres & Hn); [| |done].
    2:{ simpl. unfold DexApi.step_quote. intros id i o a d q Ha Hs.
        apply result_bind_ok in Hs as (? & ->%source_of_ok & Hs). by eapply source_quotation_typed. }
    split; [|by intros p [? _]%Hp].
    split; [by intros p [_ ?]%Hp|by destruct amount; simpl in *; unfold is_u128 in *; lia|done|].
    split; [|done]. rewrite Hres. apply sum_by_nonneg. intros p Hin. by apply Hp.
Qed.

(** ** Exchanges of one pair *)

Lemma call_api_exchange sender receiver src input output amount s oc s' :
  valid (proxy_ledger s) → customer sender → customer receiver → is_u128 (swap_amount amount) →
  call_api (DexApi.exchange sender receiver src input output amount) s = (Ok oc, s') →
  ∃ taken given, 0 ≤ taken ∧ 0 ≤ given ∧ honours (source_type src) amount (outcome_amount oc) taken given ∧
    transfers customer s s' input output sender receiver taken given.
Proof.
  unfold call_api. intros Hv Hs Hr Ham (a & Hx & ->)%map_err_ok%zoom_ok.
  unfold DexApi.exchange in Hx. apply M_bind_ok in Hx as (src' & a0 & Hl & Hx).
  apply M_lift_ok in Hl as [->%source_of_ok ->].
  apply zoom_ok in Hx as (l & Hx & ->).
  apply source_exchange_moves in Hx as ((taken & given & ? & ? & ? & ?) & ?); [|done..].
  exists taken, given. by split_and!.
Qed.

(** The parts of a swap, none of which goes to the order book when [exact] holds. *)
Definition parts_honour (v : SwapVariant.t) (exact : Prop) (amount limit outcome taken given : Balance) : Prop :=
  match v with
  | SwapVariant.WithDesiredInput => taken ≤ amount ∧ outcome ≤ given ∧ limit ≤ outcome
  | SwapVariant.WithDesiredOutput => taken ≤ outcome ∧ outcome ≤ limit ∧ (exact → amount ≤ given)
  end.

Lemma exchange_parts_moves sender receiver input output v parts s res s' :
  valid (proxy_ledger s) → customer sender → customer receiver →
  (∀ p, p ∈ parts → swap_variant (snd p) = v ∧ is_u128 (swap_amount (snd p))) →
  exchange_parts sender receiver input output parts s = (Ok res, s') →
  ∃ taken given, 0 ≤ taken ∧ 0 ≤ given ∧
    parts_honour v (∀ p, p ∈ parts → source_type (fst p) ≠ OrderBookSource)
      (sum_by (λ p, swap_amount (snd p)) parts) (sum_by (λ p, swap_limit (snd p)) parts)
      (sum_by outcome_amount res) taken given ∧
    transfers customer s s' input output sender receiver taken given.
Proof.
  intros Hvl Hs Hr. revert s Hvl res. induction parts as [|[src part] parts IH]; intros s Hvl res Hv Hx.
  { injection Hx as <- <-. exists 0, 0. split; [done|]. split; [done|]. split; [by destruct v|].
    split; [|done|done]. intros a x _. rewrite !moved_zero. lia. }
  cbn [exchange_parts] in Hx. apply M_bind_ok in Hx as (oc & s1 & Hc & Hx).
  apply M_bind_ok in Hx as (rest & s2 & Hrest & Hx). injection Hx as <- <-.
  destruct (Hv (src, part) ltac:(left)) as [Hp Hu]. simpl in Hp, Hu.
  apply call_api_exchange in Hc as (t1 & g1 & Ht1 & Hg1 & Hh1 & Hm1); [|done..].
  apply IH in Hrest as (t2 & g2 & Ht2 & Hg2 & Hh2 & Hm2); [|apply Hm1|intros; apply Hv; by right].
  exists (t1 + t2), (g1 + g2). split; [lia|]. split; [lia|]. split; [|by eapply transfers_trans].
  destruct part as [d least|d most], v; simpl in *; try done; [lia|].
  destruct Hh1 as (? & ? & Hd1), Hh2 as (? & ? & Hd2). split_and!; [lia|lia|]. intros Hex.
  assert (d ≤ g1) by (apply Hd1, (Hex (src, SwapWithDesiredOutput d most)); left).
  assert (sum_by (λ p, swap_amount (snd p)) parts ≤ g2) by (apply Hd2; intros p Hin; apply Hex; by right). lia.
Qed.

Lemma fold_outcomes res amount fee a fee' :
  fold_left (λ '(amount_acc, fee_acc) x,
    (FixedWrapper.add amount_acc (FixedWrapper.from_int (outcome_amount x)),
     OutcomeFee.merge fee_acc (outcome_fee x))) res (amount, fee) = (Ok a, fee') →
  ∃ a0, amount = Ok a0 ∧ a = a0 + sum_by outcome_amount res.
Proof.
  revert amount fee. induction res as [|x res IH]; intros amount fee Hf; simpl in Hf.
  { injection Hf as -> _. exists a. simpl. split; [done|lia]. }
  apply IH in Hf as (a1 & Ha1 & ->). apply add_wrapper_ok in Ha1 as (a0 & -> & ->).
  exists a0. simpl. split; [done|lia].
Qed.

(** No order book among the sources. *)
Definition no_book (sources : list LiquiditySourceId) : Prop :=
  Forall (λ src, source_type src ≠ OrderBookSource) sources.

(** One exchange against the quote it was split by. *)
Definition single_honours (amount : SwapAmount) (sources : list LiquiditySourceId)
    (quoted outcome taken given : Balance) : Prop :=
  match amount with
  | SwapWithDesiredInput d _ => taken ≤ d ∧ outcome ≤ given
  | SwapWithDesiredOutput d _ => taken ≤ quoted ∧ (no_book sources → d ≤ given)
  end.

Lemma exchange_single_moves sender receiver base input output amount f s oc sources s' :
  valid (proxy_ledger s) → customer sender → customer receiver → is_u128 (swap_amount amount) →
  exchange_single fuel sender receiver base input output amount f s = (Ok (oc, sources), s') →
  ∃ q rewards taken given,
    quote_single fuel s base input output (to_quote amount) f true true = Ok (q, rewards, sources) ∧
    0 ≤ taken ∧ 0 ≤ given ∧
    single_honours amount sources (aggregated_outcome_amount q) (outcome_amount oc) taken given ∧
    transfers customer s s' input output sender receiver taken given.
Proof.
  intros Hvl Hs Hr Hamt Hx. unfold exchange_single in Hx. rewrite with_transaction_ok in Hx.
  apply M_bind_ok in Hx as ([[q rewards] srcs] & s1 & Hq & Hx).
  unfold reading in Hq. injection Hq as Hq <-.
  apply M_bind_ok in Hx as (res & s2 & Hparts & Hx).
  destruct (fold_left _ res _) as [total fee] eqn:Hfold.
  destruct (FixedWrapper.try_into_balance total) as [b|] eqn:Hb; [|done]. injection Hx as <- <- <-.
  destruct total as [total|]; [|done].
  assert (b = total) as -> by (simpl in Hb; destruct (0 <=? total); by simplify_eq). clear Hb.
  apply fold_outcomes in Hfold as (a0 & [= <-] & ->).
  destruct (quote_single_distributed s base input output (to_quote amount) f true true q rewards srcs)
    as [[Hp Hd Hl _] Hin]; [done|by destruct amount|done|].
  set (P := λ p : LiquiditySourceId * SwapAmount, 0 < swap_amount (snd p)) in *.
  apply (exchange_parts_moves _ _ _ _ (quote_variant (to_quote amount))) in Hparts
    as (taken & given & Ht & Hg & Hh & Hm); [|done|done|done|].
  2:{ intros p [_ Hp1]%list_elem_of_filter. by destruct (Hp p Hp1) as (? & ? & _). }
  exists q, rewards, taken, given. split; [done|]. split; [done|]. split; [done|]. split; [|done].
  assert (sum_by (λ p, swap_amount (snd p)) (filter P (outcome_distribution q))
          = sum_by (λ p, swap_amount (snd p)) (outcome_distribution q)) as Heq.
  { apply sum_filter_eq. intros p Hp1 Hn. destruct (Hp p Hp1) as (_ & [? _] & _). unfold P in Hn. lia. }
  assert (sum_by (λ p, swap_limit (snd p)) (filter P (outcome_distribution q))
          ≤ sum_by (λ p, swap_limit (snd p)) (outcome_distribution q)) as Hle.
  { apply sum_filter_le. intros p Hp1. by destruct (Hp p Hp1) as (_ & _ & [? _]). }
  destruct amount as [d least|d most]; simpl in *; [lia|]. destruct Hh as (? & ? & Hex).
  split; [lia|]. intros Hnb. unfold no_book in Hnb. rewrite Forall_forall in Hnb.
  rewrite Heq in Hex. etransitivity; [exact Hd|]. apply Hex. intros p [_ Hp1]%list_elem_of_filter. by apply Hnb, Hin.
Qed.

(** ** Routes *)

(** A swap of a route, with the amount quoted for it. *)
Definition quoted_hop s (base : AssetId) (f : LiquiditySourceFilter) (v : SwapVariant.t)
    (hop : AssetId * AssetId * SwapAmount) : Prop :=
  swap_variant (snd hop) = v ∧ is_u128 (swap_amount (snd hop)) ∧
  ∃ q rewards sources,
    quote_single fuel s base (fst (fst hop)) (snd (fst hop)) (to_quote (snd hop)) f true true
      = Ok (q, rewards, sources) ∧
    swap_limit (snd hop) = aggregated_outcome_amount q.

Lemma quote_pairs_route s dex_info pairs current f v acc x :
  valid (proxy_ledger s) → is_u128 current →
  quote_pairs_with_flexible_amount fuel s dex_info pairs current f true true v acc = Ok x →
  ∃ hops, fst <$> hops = pairs ∧ Forall (quoted_hop s (dex_base_asset_id dex_info) f v) hops ∧
    (∀ hop, head hops = Some hop → swap_amount (snd hop) = current) ∧
    pq_route x = match v with
                 | SwapVariant.WithDesiredInput => pq_route acc ++ hops
                 | SwapVariant.WithDesiredOutput => rev hops ++ pq_route acc
                 end.
Proof.
  intros Hvl. revert current acc. induction pairs as [|[from to] pairs IH]; intros current acc Hc Hq.
  { injection Hq as <-. exists []. split_and!; [done|done|done|]. destruct v; [|done].
    by rewrite app_nil_r. }
  cbn [quote_pairs_with_flexible_amount] in Hq.
  apply result_bind_ok in Hq as ([[q rewards] sources] & Hs & Hq).
  apply result_bind_ok in Hq as (wi & _ & Hq). cbv zeta in Hq.
  destruct (quote_single_distributed s _ from to (quote_with_variant v current) f true true q
    rewards sources Hvl ltac:(by destruct v) Hs) as [[_ _ _ Hr] _].
  apply IH in Hq as (hops & <- & Hall & _ & Hroute); [|done].
  set (hop := (from, to, with_variant v current (aggregated_outcome_amount q))) in *.
  exists (hop :: hops). split; [done|]. split; [|split].
  - constructor; [|done]. split; [by destruct v|]. split; [by destruct v|].
    exists q, rewards, sources. by destruct v.
  - intros h [= <-]. by destruct v.
  - rewrite Hroute. destruct v; simpl; by rewrite <- (assoc_L (++)).
Qed.

Lemma tuple_windows_ends {A} (x y : A) mid :
  ∃ w ws w', tuple_windows (x :: mid ++ [y]) = w :: ws ∧ fst w = x ∧
    last (w :: ws) = Some w' ∧ snd w' = y.
Proof.
  revert x. induction mid as [|z mid IH]; intros x.
  { exists (x, y), [], (x, y). done. }
  destruct (IH z) as (w & ws & w' & E & _ & Hl & Hy).
  exists (x, z), (w :: ws), w'. split_and!; [|done|done|done].
  change (tuple_windows (x :: (z :: mid) ++ [y])) with ((x, z) :: tuple_windows (z :: mid ++ [y])).
  by rewrite E.
Qed.

(** A route from [input] to [output] for the desired [amount]. *)
Record route_for s (base : AssetId) (f : LiquiditySourceFilter) (v : SwapVariant.t)
    (input output : AssetId) (amount : Balance) (first final : AssetId * AssetId * SwapAmount)
    (route : list (AssetId * AssetId * SwapAmount)) : Prop := {
  route_first : head route = Some first;
  route_final : last route = Some final;
  route_input : fst (fst first) = input;
  route_output : snd (fst final) = output;
  route_quoted : Forall (quoted_hop s base f v) route;
  route_amount :
    swap_amount (snd (match v with SwapVariant.WithDesiredInput => first | _ => final end)) = amount
}.

Lemma quote_path_info_route s dex_info v amount f input output mid info :
  valid (proxy_ledger s) → is_u128 amount →
  quote_path_info fuel s dex_info v amount f true true (input :: mid ++ [output]) = Ok info →
  ∃ first final,
    route_for s (dex_base_asset_id dex_info) f v input output amount first final (quote_route info).
Proof.
  intros Hvl Hamt Hq. unfold quote_path_info in Hq. apply result_bind_ok in Hq as (x & Hx & Hq).
  injection Hq as <-. simpl. destruct v.
  - apply quote_pairs_route in Hx as (hops & Hfst & Hall & Hhead & ->); [|done|done]. simpl.
    destruct (tuple_windows_ends input output mid) as (w & ws & w' & E & Hw & Hl & Hw').
    rewrite E in Hfst. destruct hops as [|first hops]; [done|].
    assert (fst <$> last (first :: hops) = Some w') as Hlast by by rewrite <- fmap_last, Hfst.
    destruct (last (first :: hops)) as [final|] eqn:El; [|done]. injection Hlast as Hlast.
    injection Hfst as Hfst _. exists first, final. split; [done|done|congruence|congruence|done|].
    by apply Hhead.
  - apply quote_pairs_route in Hx as (hops & Hfst & Hall & Hhead & ->); [|done|done].
    simpl. rewrite app_nil_r. simpl rev in Hfst. rewrite rev_app_distr in Hfst. simpl in Hfst.
    destruct (tuple_windows_ends output input (rev mid)) as (w & ws & w' & E & Hw & Hl & Hw').
    simpl in E. rewrite E in Hfst. destruct hops as [|final hops]; [done|].
    assert (fst <$> last (final :: hops) = Some (snd w', fst w')) as Hlast.
    { rewrite <- fmap_last, Hfst, fmap_last, Hl. by destruct w'. }
    destruct (last (final :: hops)) as [first|] eqn:El; [|done]. injection Hlast as Hlast.
    apply (f_equal head) in Hfst. destruct w as [w1 w2]. injection Hfst as Hfst.
    exists first, final. split.
    + rewrite rev_alt. change (head (reverse (final :: hops)) = Some first). by rewrite head_reverse.
    + rewrite rev_alt. change (last (reverse (final :: hops)) = Some final). by rewrite last_reverse.
    + rewrite Hlast. done.
    + rewrite Hfst. done.
    + by apply Forall_rev.
    + by apply Hhead.
Qed.

(** The accounts of the users: the transit account is the proxy's own. *)
Definition user (x : AccountId) : Prop := customer x ∧ x ≠ GetTechnicalAccountId.

(** Nothing is lost in the merge. *)
Lemma merge_unique_r {A} `{EqDecision A} (xs ys : list A) y : y ∈ ys → y ∈ merge_two_vectors_unique xs ys.
Proof.
  unfold merge_two_vectors_unique. revert xs.
  assert (∀ (zs xs : list A) x, x ∈ xs → x ∈ fold_left (λ acc el, if bool_decide (el ∈ acc) then acc else acc ++ [el]) zs xs) as Hl.
  { intros zs. induction zs as [|z zs IH]; intros xs x Hx; [done|]. simpl. apply IH. case_bool_decide; set_solver. }
  induction ys as [|z ys IH]; intros xs Hy; [by apply elem_of_nil in Hy|]. simpl.
  apply elem_of_cons in Hy as [->|Hy]; [|by apply IH]. apply Hl. case_bool_decide; [done|set_solver].
Qed.

Lemma exchange_route_cons base sender receiver from to amount route f acc s oc sources s' :
  exchange_route fuel base sender receiver ((from, to, amount) :: route) f acc s = (Ok (oc, sources), s') →
  ∃ oc1 srcs1 s1 acc',
    exchange_single fuel sender (match route with [] => receiver | _ :: _ => GetTechnicalAccountId end)
      base from to amount f s = (Ok (oc1, srcs1), s1) ∧
    outcome_amount (fst acc') = outcome_amount oc1 ∧ (∀ src, src ∈ srcs1 → src ∈ snd acc') ∧
    exchange_route fuel base GetTechnicalAccountId receiver route f acc' s1 = (Ok (oc, sources), s').
Proof.
  intros Hx. apply M_bind_ok in Hx as ([oc1 srcs1] & s1 & Hone & Hx). destruct acc as [oc0 srcs0].
  exists oc1, srcs1, s1. eexists. split; [exact Hone|]. split; [|split; [|exact Hx]]; [done|].
  intros src. apply merge_unique_r.
Qed.

(** The first swap takes the input from the sender and the final one gives the output
    to the receiver; those between go through the transit account. *)
Lemma exchange_route_moves base sender receiver first route f acc s oc sources s' final :
  valid (proxy_ledger s) → customer sender → customer receiver → customer GetTechnicalAccountId →
  Forall (λ hop, is_u128 (swap_amount (snd hop))) (first :: route) →
  last (first :: route) = Some final →
  exchange_route fuel base sender receiver (first :: route) f acc s = (Ok (oc, sources), s') →
  ∃ q rewards srcs taken given,
    quote_single fuel s base (fst (fst first)) (snd (fst first)) (to_quote (snd first)) f true true
      = Ok (q, rewards, srcs) ∧ 0 ≤ taken ∧ 0 ≤ given ∧
    match snd first with
    | SwapWithDesiredInput d _ => taken ≤ d
    | SwapWithDesiredOutput _ _ => taken ≤ aggregated_outcome_amount q
    end ∧
    match snd final with
    | SwapWithDesiredInput _ _ => outcome_amount oc ≤ given
    | SwapWithDesiredOutput d _ => no_book sources → d ≤ given
    end ∧
    transfers user s s' (fst (fst first)) (snd (fst final)) sender receiver taken given.
Proof.
  intros Hvl Hs Hr Ht. revert first sender Hs acc s Hvl.
  induction route as [|next route IH]; intros [[from to] amount] sender Hs acc s Hvl Hrange Hlast Hx;
    apply Forall_cons in Hrange as [Hamt Hrange];
    apply exchange_route_cons in Hx as (oc1 & srcs1 & s1 & [oc' srcs'] & Hone & Hacc & Hsrc & Hx).
  - injection Hx as <- <- <-. injection Hlast as <-. simpl in *. rewrite Hacc.
    apply exchange_single_moves in Hone as (q & rw & taken & given & Hq & Hpos & Hgpos & Hh & [Hb He Hvl']); [|done..].
    exists q, rw, srcs1, taken, given. split; [done|]. split; [done|]. split; [done|].
    split; [by destruct amount; simpl in *; lia|]. split.
    + destruct amount; simpl in *; [lia|]. intros Hnb. apply Hh. unfold no_book in *. rewrite Forall_forall in *. auto.
    + split; [|done|done]. intros a x [Hcx _]. by apply Hb.
  - apply exchange_single_moves in Hone as (q & rw & taken & mid & Hq & Hpos & Hmpos & Hh & [Hb He Hvl']); [|done..].
    apply IH in Hx as (q2 & rw2 & srcs2 & taken2 & given & _ & _ & Hgpos & _ & Hfin & [Hb2 He2 Hvl2]); [|done..].
    exists q, rw, srcs1, taken, given. split; [done|]. split; [done|]. split; [done|].
    split; [by destruct amount; simpl in *; lia|]. split; [done|].
    split; [|congruence|done]. intros a x [Hcx Hnt]. specialize (Hb2 a x (conj Hcx Hnt)). specialize (Hb a x Hcx).
    rewrite (moved_who _ GetTechnicalAccountId) in Hb2 by done.
    rewrite (moved_who _ GetTechnicalAccountId mid) in Hb by done. simpl in *. lia.
Qed.

(** ** Swaps *)

(** The amounts a swap of the proxy takes and gives: within the desired amount and
    its limit. *)
Definition within_limits (amount : SwapAmount) (sources : list LiquiditySourceId)
    (outcome taken given : Balance) : Prop :=
  match amount with
  | SwapWithDesiredInput d least => taken ≤ d ∧ outcome ≤ given ∧ least ≤ outcome
  | SwapWithDesiredOutput d most => taken ≤ outcome ∧ outcome ≤ most ∧ (no_book sources → d ≤ given)
  end.

Lemma select_best_path_route s dex_info asset_paths v amount f input output info :
  valid (proxy_ledger s) → is_u128 amount →
  (∀ p, p ∈ asset_paths → ∃ mid, p = input :: mid ++ [output]) →
  select_best_path fuel s dex_info asset_paths v amount f true true = Ok info →
  ∃ first final,
    route_for s (dex_base_asset_id dex_info) f v input output amount first final (quote_route info).
Proof.
  intros Hvl Hamt Hpaths Hsel. destruct asset_paths as [|p ps]; [done|].
  destruct (select_best_path_spec fuel s dex_info (p :: ps) v amount f true true) as [Hin _]; [done|].
  rewrite Hsel in Hin. apply list_elem_of_fmap in Hin as (p' & Hp' & (mid & ->)%Hpaths).
  symmetry in Hp'. by apply quote_path_info_route in Hp'.
Qed.

Lemma inner_exchange_moves dex_id sender receiver input output amount f s oc sources s' :
  valid (proxy_ledger s) → customer sender → customer receiver → customer GetTechnicalAccountId →
  is_u128 (swap_amount amount) →
  inner_exchange fuel dex_id sender receiver input output amount f s = (Ok (oc, sources), s') →
  ∃ taken given, 0 ≤ taken ∧ 0 ≤ given ∧ within_limits amount sources (outcome_amount oc) taken given ∧
    transfers user s s' input output sender receiver taken given.
Proof.
  intros Hvl Hs Hr Ht Hamt Hx. unfold inner_exchange in Hx.
  apply M_bind_ok in Hx as (u & s0 & [_ ->]%M_ensure_ok & Hx). rewrite with_transaction_ok in Hx.
  apply M_bind_ok in Hx as (dex_info & s0 & [= _ <-] & Hx).
  apply M_bind_ok in Hx as (s0 & s0' & [= <- <-] & Hx).
  destruct (new_trivial _ _ _ _) as [asset_paths|] eqn:Hpaths; [|done].
  unfold exchange_sequence in Hx. apply M_bind_ok in Hx as (info & s0 & [= Hsel <-] & Hx).
  apply (select_best_path_route _ _ _ _ _ _ input output) in Hsel
    as (first & final & [Hfirst Hfinal Hin Hout Hquoted Hamount]);
    [|done|done|by intros p; eapply new_trivial_ends].
  cbv zeta in Hx. destruct (quote_route info) as [|h route]; [done|]. injection Hfirst as ->.
  apply M_bind_ok in Hx as ([swap srcs] & s1 & Hroute & Hx).
  apply (exchange_route_moves _ _ _ _ _ _ _ _ _ _ _ final) in Hroute
    as (q & rw & srcs' & taken & given & Hq & Hpos & Hgpos & Htaken & Hgiven & Hm); [|done|done|done|done| |done].
  2:{ eapply Forall_impl; [exact Hquoted|]. by intros hop (_ & Hrange & _). }
  assert (transfers user s s1 input output sender receiver taken given) as Hm'
    by by rewrite <- Hin, <- Hout.
  assert (quoted_hop s (dex_base_asset_id dex_info) f (swap_variant amount) final) as (Hvf & _).
  { rewrite Forall_forall in Hquoted. by apply Hquoted, last_Some_elem_of. }
  apply Forall_cons in Hquoted as [(Hv & _ & q' & rw' & srcs'' & Hq' & Hlim) _].
  rewrite Hq in Hq'. injection Hq' as <- <- <-.
  exists taken, given. split; [done|]. split; [done|]. destruct amount as [d least|d most]; simpl in *.
  - apply M_bind_ok in Hx as (? & ? & [Hle ->]%M_ensure_ok & [= <- <- <-]). zbool.
    split; [|done]. destruct (snd first), (snd final); simpl in *; try done; lia.
  - apply M_bind_ok in Hx as (? & ? & [= <- <-] & Hx). apply M_bind_ok in Hx as (? & ? & [Hle ->]%M_ensure_ok & [= <- <- <-]). zbool.
    split; [|done]. simpl. destruct (snd first), (snd final); simpl in *; try done.
    subst. split_and!; [lia|lia|done].
Qed.


(** ** Batches *)

Context `{!MultiCurrencyLaws L}.

Lemma call_ledger_transfer asset from to amount s s' u : customer from →
  call_ledger (transfer_from asset from to amount) s = (Ok u, s') →
  events s' = events s ∧ (valid (proxy_ledger s) → valid (proxy_ledger s')) ∧ ∀ a x, balance s' a x =
    balance s a x - moved asset from amount a x + moved asset to amount a x.
Proof.
  unfold call_ledger, call_api. intros Hfrom (a & (l & Hl & ->)%zoom_ok & ->)%map_err_ok%zoom_ok.
  split; [done|]. unfold transfer_from in Hl. apply M_bind_ok in Hl as (l0 & l1 & [= <- <-] & Hl).
  apply M_bind_ok in Hl as (? & ? & [_ ->]%M_lift_ok & Hl). unfold checked_transfer in Hl.
  destruct (currency_transfer _ _ _ _ _) as [[[]|e] l2] eqn:Hc; [|by destruct (asset_exists _ _)].
  injection Hl as _ <-. split; [intros Hvl; by eapply customer_transfer_valid|].
  apply transfer_spec in Hc as [_ Hc]. intros ??. apply Hc.
Qed.

Section batch.
Context (who : AccountId) (input : AssetId) (Hw : customer who).

(** [who] spends at most [amount] of the input asset. *)
Definition spends s s' (amount : Balance) : Prop :=
  (valid (proxy_ledger s) → valid (proxy_ledger s')) ∧ balance s input who - amount ≤ balance s' input who.

Lemma spends_none s amount : 0 ≤ amount → spends s s amount.
Proof. unfold spends. intuition lia. Qed.

Lemma spends_trans s s1 s2 x y z : spends s s1 x → spends s1 s2 y → x + y ≤ z → spends s s2 z.
Proof. unfold spends. intuition lia. Qed.

Lemma transfer_spends asset to amount s s' u :
  call_ledger (transfer_from asset who to amount) s = (Ok u, s') → 0 ≤ amount →
  spends s s' (if bool_decide (asset = input) then amount else 0).
Proof.
  intros (_ & Hvl & Hb)%call_ledger_transfer Hpos; [|done]. split; [done|]. rewrite Hb. unfold moved.
  repeat case_bool_decide; naive_solver lia.
Qed.

Lemma withdraw_commission_spends asset ratio amount most s commission s' :
  withdraw_adar_commission who asset ratio amount most s = (Ok commission, s') → 0 ≤ most →
  0 ≤ commission ≤ most ∧ spends s s' (if bool_decide (asset = input) then commission else 0).
Proof.
  intros Hx Hmost. unfold withdraw_adar_commission in Hx. destruct (amount =? 0).
  { injection Hx as <- <-. split; [lia|]. apply spends_none. case_bool_decide; lia. }
  apply M_bind_ok in Hx as (c & s0 & [Hc ->]%M_lift_ok & Hx).
  destruct (FixedWrapper.try_into_balance _) as [c'|] eqn:Hc'; [|done]. injection Hc as ->.
  apply try_into_balance_pos in Hc'.
  apply M_bind_ok in Hx as (? & ? & [Hle ->]%M_ensure_ok & Hx). zbool.
  apply M_bind_ok in Hx as (? & s1 & Hpay & [= <- <-]). split; [lia|].
  destruct (0 <? c); [|injection Hpay as _ <-; apply spends_none; case_bool_decide; lia].
  apply M_bind_ok in Hpay as (? & s2 & Hpay%map_err_ok & Hev).
  apply transfer_spends in Hpay; [|done]. injection Hev as _ <-. exact Hpay.
Qed.

Lemma transfer_batch_spends asset recipients remainder s s' u :
  transfer_batch_tokens_unchecked who asset recipients remainder s = (Ok u, s') →
  Forall (λ r, 0 ≤ target_amount r) recipients → 0 ≤ remainder →
  spends s s' (if bool_decide (asset = input) then sum_by target_amount recipients else 0).
Proof.
  unfold transfer_batch_tokens_unchecked. destruct u. revert s.
  induction recipients as [|r recipients IH]; intros s Hx Hpos Hrem; simpl in Hx.
  { injection Hx as <-. apply spends_none. simpl. case_bool_decide; lia. }
  apply Forall_cons in Hpos as [Hr Hpos]. apply M_bind_ok in Hx as (? & s1 & Ht & Hx).
  apply IH in Hx; [|done..]. apply transfer_spends in Ht; [|unfold sat_sub; lia].
  eapply spends_trans; [exact Ht|exact Hx|]. unfold sat_sub. simpl. case_bool_decide; lia.
Qed.

Lemma sum_targets_spec recipients acc total :
  sum_targets recipients acc = Some total →
  total = acc + sum_by target_amount recipients ∧ (acc ≤ u128_max → total ≤ u128_max).
Proof.
  revert acc. induction recipients as [|r recipients IH]; intros acc Hs; simpl in *.
  { injection Hs as <-. lia. }
  apply bind_Some in Hs as (acc' & [-> Hr]%checked_Some & Hs). apply IH in Hs. lia.
Qed.

Lemma exchange_batch_spends n output most selected dex_id mode out s executed remainder s' :
  valid (proxy_ledger s) → who ≠ GetTechnicalAccountId → customer GetTechnicalAccountId →
  is_u128 out → output ≠ input →
  exchange_batch_tokens fuel who n input output most selected dex_id mode out s
    = (Ok (executed, remainder), s') →
  0 ≤ executed ∧ 0 ≤ remainder ∧ spends s s' executed.
Proof.
  intros Hvl Hnt Ht Hout Hne Hx. unfold exchange_batch_tokens in Hx.
  apply M_bind_ok in Hx as (? & ? & [_ ->]%M_lift_ok & Hx).
  apply M_bind_ok in Hx as ([oc sources] & s1 & Hin & Hx).
  apply inner_exchange_moves in Hin as (taken & given & Hpos & _ & Hlim & [Hb _ Hvl']); [|done..].
  simpl in Hlim. assert (spends s s1 (outcome_amount oc)) as Hsp.
  { split; [done|]. specialize (Hb input who (conj Hw Hnt)). rewrite moved_eq, moved_asset in Hb by congruence. lia. }
  apply M_bind_ok in Hx as (? & s2 & [= _ <-] & Hx). apply M_bind_ok in Hx as (? & ? & [= <- <-] & Hx).
  apply M_bind_ok in Hx as (held & ? & [_ ->]%M_lift_ok & Hx). injection Hx as <- <- <-.
  split; [lia|]. split; [|exact Hsp]. case_match; [|done]. by apply Z.mod_pos_bound.
Qed.

(** The amounts of a batch are balances. *)
Definition batch_valid (b : SwapBatchInfo) : Prop :=
  0 ≤ outcome_asset_reuse b ∧ Forall (λ r, 0 ≤ target_amount r) (receivers b).

Lemma swap_batch_spends selected mode ratio b seen executed most s seen' executed' most' s' :
  valid (proxy_ledger s) → who ≠ GetTechnicalAccountId → customer GetTechnicalAccountId → batch_valid b →
  swap_batch fuel who input selected mode ratio b (seen, executed, most) s
    = (Ok (seen', executed', most'), s') →
  executed ≤ executed' ∧ 0 ≤ most' ∧ executed' + most' = executed + most ∧
  spends s s' (executed' - executed).
Proof.
  intros Hvl Hnt Ht [Hreuse Hrecv] Hx. unfold swap_batch in Hx.
  apply M_bind_ok in Hx as (? & ? & [= <- <-] & Hx).
  apply M_bind_ok in Hx as (? & ? & [_ ->]%M_lift_ok & Hx).
  do 3 apply M_bind_ok in Hx as (? & ? & [_ ->]%M_ensure_ok & Hx).
  apply M_bind_ok in Hx as (out & ? & [Hsum ->]%M_ok_or_ok & Hx).
  pose proof Hsum as [-> Hmax]%sum_targets_spec. rewrite Z.add_0_l in *.
  assert (0 ≤ sum_by target_amount (receivers b)) as Hpos.
  { apply sum_by_nonneg. intros r Hr. rewrite Forall_forall in Hrecv. by apply Hrecv. }
  apply M_bind_ok in Hx as ([used remainder] & s1 & Huse & Hx).
  apply M_bind_ok in Hx as (? & ? & [[-> _]%checked_Some ->]%M_ok_or_ok & Hx).
  apply M_bind_ok in Hx as (? & ? & [[-> Hleft]%checked_Some ->]%M_ok_or_ok & Hx).
  apply M_bind_ok in Hx as (? & s2 & Hpay & [= _ <- <- <-]).
  assert (0 ≤ used ∧ 0 ≤ remainder ∧
    spends s s1 (if bool_decide (outcome_asset_id b = input) then 0 else used) ∧
    (outcome_asset_id b = input → used = sum_by target_amount (receivers b))) as (Hu & Hrm & Hsp & Heq).
  { destruct (decide (outcome_asset_id b = input)) as [E|E].
    - rewrite bool_decide_eq_false_2 in Huse by naive_solver. injection Huse as <- <- <-.
      rewrite bool_decide_eq_true_2 by done. split_and!; [done|done|by apply spends_none|done].
    - rewrite bool_decide_eq_true_2 in Huse by done. rewrite bool_decide_eq_false_2 by done.
      apply M_bind_ok in Huse as (fee & s3 & Hfee & Huse).
      apply withdraw_commission_spends in Hfee as [Hfee Hsp3]; [|done].
      rewrite bool_decide_eq_false_2 in Hsp3 by done. cbv zeta in Huse. destruct (negb _).
      + apply exchange_batch_spends in Huse as (? & ? & Hsp4); [|by apply Hsp3|done|done|unfold is_u128, sat_sub; lia|done].
        split_and!; [done|done| |done]. by eapply spends_trans; [exact Hsp3|exact Hsp4|lia].
      + injection Huse as <- <- <-. by split_and!. }
  apply transfer_batch_spends in Hpay; [|done..].
  split; [lia|]. split; [lia|]. split; [lia|]. eapply spends_trans; [exact Hsp|exact Hpay|].
  case_bool_decide; [rewrite Heq by done|]; lia.
Qed.

Lemma swap_batches_spends selected mode ratio batches seen executed most s seen' executed' most' s' :
  valid (proxy_ledger s) → who ≠ GetTechnicalAccountId → customer GetTechnicalAccountId →
  Forall batch_valid batches → 0 ≤ most →
  swap_batches fuel who input selected mode ratio batches (seen, executed, most) s
    = (Ok (seen', executed', most'), s') →
  executed ≤ executed' ∧ 0 ≤ most' ∧ executed' + most' = executed + most ∧
  spends s s' (executed' - executed).
Proof.
  intros Hvl Hnt Ht Hall. revert seen executed most s Hvl.
  induction Hall as [|b batches Hb _ IH]; intros seen executed most s Hvl Hm Hx.
  { injection Hx as <- <- <- <-. split_and!; [lia..|]. apply spends_none. lia. }
  cbn [swap_batches] in Hx. apply M_bind_ok in Hx as ([[seen1 executed1] most1] & s1 & Hone & Hx).
  apply swap_batch_spends in Hone as (He1 & Hm1 & Hs1 & Hsp1); [|done..].
  apply IH in Hx as (He2 & Hm2 & Hs2 & Hsp2); [|by apply Hsp1|done].
  split_and!; [lia|lia|lia|]. by eapply spends_trans; [exact Hsp1|exact Hsp2|lia].
Qed.
End batch.

(** C17. A batch of swaps never costs its sender more than [max_input_amount] of the input
    asset: the executed input and the commission that the event reports stay within
    the limit together, and cover all that leaves the account.  The amounts of the batches are
    not negative and the sender is a customer of the sources. *)
Theorem batch_within_max_input who input batches max_input_amount selected mode data s s' :
  valid (proxy_ledger s) → user who → customer GetTechnicalAccountId → Forall batch_valid batches →
  0 ≤ max_input_amount →
  swap_transfer_batch fuel (Signed who) batches input max_input_amount selected mode data s
    = (Ok tt, s') →
  ∃ before commission executed,
    events s' = before ++ [BatchSwapExecuted commission executed data] ∧
    0 ≤ commission ∧ 0 ≤ executed ∧ commission + executed ≤ max_input_amount ∧
    balance s input who - (commission + executed) ≤ balance s' input who.
Proof.
  intros Hvl [Hw Hnt] Ht Hall Hmax Hx. unfold swap_transfer_batch in Hx. rewrite with_transaction_ok in Hx.
  apply M_bind_ok in Hx as (? & ? & [= <- <-] & Hx).
  apply M_bind_ok in Hx as ([commission executed] & s1 & Hin & Hx). unfold inner_swap_batch_transfer in Hin.
  apply M_bind_ok in Hin as (? & ? & [= <- <-] & Hin). cbv zeta in Hin.
  apply M_bind_ok in Hin as ([[seen executed1] most1] & s2 & Hbs & Hin).
  apply swap_batches_spends in Hbs as (He & Hm & Hs & Hsp); [|done..].
  apply M_bind_ok in Hin as (c & s3 & Hc & [= <- <- <-]).
  apply (withdraw_commission_spends who input) in Hc as [Hc Hsp2]; [|done|done].
  rewrite bool_decide_eq_true_2 in Hsp2 by done. injection Hx as <-.
  exists (events s3), c, executed1. split; [done|]. unfold spends in *. simpl. split_and!; [lia..|].
  unfold proxy_ledger in *. simpl. lia.
Qed.
End swaps.
