(* ===== verification/BookSource.v ===== *)
(** * The order book behind the proxy

    A swap through the order book takes and gives what the proxy expects of an exchange
    ([exchanges] of [ProxySwaps]): the amount that is summed over the levels of the market
    does not exceed the target, and the market order moves exactly the amounts of the deal. *)

From S2P Require Import Prelude BTreeMap FixedPoint Units OrderTypes SwapTypes DataLayer StorageProps.
From S2P Require Import CacheStorage CacheProps CacheLayer CacheRefine LayerSpec World Payments TradingPair.
From S2P Require Import OrderBook Matching Priority CrossSpread BookState Solvency Operations.
From S2P Require Import SampleLedger WorldRefine Effects Lots Scheduler Expiration Alignment Pallet Soundness.
From S2P Require Import PalletProps LiquiditySource Quotes.
From S2P Require Import Chunks Aggregator ChunkFitting Selection AggregatorInv Aggregated SmartSplit SplitBounds.
From S2P Require Import DexApi LiquidityProxy ProxyPaths ProxySwaps.

(** ** Sums do not exceed their target *)

Section sums.
Context (self : OrderBook.t) (Hstep : 0 < inner (OrderBook.step_lot_size self)).

(** The side of a target. *)
Definition on_side {A} (target : OrderAmount.t) (base quote : A) : A :=
  match target with OrderAmount.Base _ => base | OrderAmount.Quote _ => quote end.

Lemma sum_market_loop_le target data b q B Q en : exact_levels self data → acc_ok true b → acc_ok true q →
  amount_ok true (OrderAmount.value target) → on_side target (inner b) (inner q) ≤ inner (OrderAmount.value target) →
  OrderBook.sum_market_loop self (Some target) data b q = Ok (B, Q, en) →
  on_side target (inner B) (inner Q) ≤ inner (OrderAmount.value target).
Proof.
  revert b q. induction data as [|[p v] data IH]; intros b q Hex Hb Hq Ht Hle Hr; cbn in Hr.
  { by injection Hr as <- <- <-. }
  apply Forall_cons in Hex as [(Hp & Hp0 & Hv & _) Hex]. cbn [fst snd] in *.
  apply result_bind_ok in Hr as (qv & Hqv%result_ok_or_ok & Hr).
  apply mul_units in Hqv as [Hqv _]; [|done..].
  assert (∀ base quote, BalanceUnit.checked_add b v = Some base → BalanceUnit.checked_add q qv = Some quote →
    on_side target (inner b + inner v) (inner q + inner qv) ≤ inner (OrderAmount.value target) →
    OrderBook.sum_market_loop self (Some target) data base quote = Ok (B, Q, en) →
    on_side target (inner B) (inner Q) ≤ inner (OrderAmount.value target)) as Hcont.
  { intros base quote H1 H2 Hle' H3. apply (acc_add true) in H1 as [H1 E1], H2 as [H2 E2]; [|done..].
    apply (IH base quote Hex (or_intror H1) (or_intror H2) Ht); [|done]. by rewrite E1, E2. }
  destruct target as [T|T]; cbn [OrderAmount.value on_side] in *;
    apply result_bind_ok in Hr as (sum & Hsum%result_ok_or_ok & Hr);
    pose proof Hsum as [Hs Es]%(acc_add true); try done;
    (destruct (BalanceUnit.ge sum T) eqn:Hge; [|rewrite (ge_same true) in Hge by done; zbool; run; by eapply Hcont; [..|lia|]]).
  - apply result_bind_ok in Hr as (delta & Hdelta%result_ok_or_ok & Hr).
    apply sub_units in Hdelta as [Hd Ed]; [|done..]. destruct (align_units self Hstep delta Hd) as (Ha & _ & Hal).
    apply result_bind_ok in Hr as (base & Hbase%result_ok_or_ok & Hr). run.
    apply (acc_add true) in Hbase as [_ ->]; [|done..]. lia.
  - apply result_bind_ok in Hr as (rest & Hrest%result_ok_or_ok & Hr).
    apply sub_units in Hrest as [Hd Ed]; [|done..].
    apply result_bind_ok in Hr as (delta & Hdelta%result_ok_or_ok & Hr).
    apply div_units in Hdelta as (Hd' & _ & Ed'); [|done..].
    destruct (align_units self Hstep delta Hd') as (Ha & _ & Hal).
    apply result_bind_ok in Hr as (base & _ & Hr). apply result_bind_ok in Hr as (dq & Hdq%result_ok_or_ok & Hr).
    apply mul_units in Hdq as [Hdq Edq]; [|done..].
    apply result_bind_ok in Hr as (quote & Hquote%result_ok_or_ok & Hr). run.
    apply (acc_add true) in Hquote as [_ ->]; [|done..].
    enough (inner dq ≤ inner rest) by lia. rewrite Edq. apply Z.div_le_upper_bound; [done|].
    pose proof (Z.mul_div_le (inner rest * BalanceUnit.RATIO) (inner p) Hp0). rewrite <- Ed' in *. nia.
Qed.
End sums.

(** ** The deal of a swap *)

Section deal.
Context {Cfg : Config} {SK : StorageKeys} (divisibility : OrderBookId → bool) (self : OrderBook.t).
Abbreviation id := (OrderBook.order_book_id self).
Context (s : Storage) (HI : Inv divisibility s) (Hwf : 0 < inner (OrderBook.step_lot_size self)).
Context (Hdiv : divisibility id = true) (Hlots : in_lots self (LimitOrders s)) (Hexact : exact_prices self (LimitOrders s)).
Context (Htick : BalanceUnit.is_divisible (OrderBook.tick_size self) = true).
Context (Hsd : BalanceUnit.is_divisible (OrderBook.step_lot_size self) = true).

(** The assets of the deal are those of the book, and the input is not more than desired. *)
Lemma calculate_deal_within input output amount deal s' : is_u128 (quote_amount amount) →
  OrderBook.calculate_deal self input output amount s = (Ok deal, s') →
  (input, output) = match DealInfo.direction deal with Buy => (OrderTypes.quote id, base id) | Sell => (base id, OrderTypes.quote id) end ∧
  match amount with
  | WithDesiredInput d => inner (OrderAmount.value (DealInfo.input_amount deal)) ≤ d
  | WithDesiredOutput _ => True
  end.
Proof.
  intros Hu Hr. unfold OrderBook.calculate_deal in Hr.
  apply M_bind_ok in Hr as (dir & s1 & [Hdir ->]%M_lift_ok & Hr).
  rewrite (M_bind_run_ok _ _ _ _ _ (market_data_storage self (switched dir) s)) in Hr. cbv zeta in Hr.
  set (target := match amount, dir with WithDesiredInput _, Buy => _ | _, _ => _ end) in Hr.
  apply M_bind_ok in Hr as ([b q] & s1 & [Hsum ->]%M_lift_ok & Hr).
  unfold OrderBook.sum_market in Hsum. apply result_bind_ok in Hsum as ([[B Q] en] & Hloop & Hsum).
  apply result_bind_ok in Hsum as ([] & _ & [= <- <-]).
  apply sum_market_loop_le in Hloop; [|done|by apply (levels_exact divisibility)|by left|by left| |].
  2: { unfold target. destruct amount, dir; split; done. }
  2: { unfold target. destruct Hu. by destruct amount, dir. }
  apply M_bind_ok in Hr as ([] & s1 & _ & Hr).
  unfold OrderBook.get_direction in Hdir. destruct (_ && _) eqn:E1 in Hdir.
  2: destruct (_ && _) eqn:E2 in Hdir; [|done].
  all: injection Hdir as <-; apply M_bind_ok in Hr as (pr & s2 & _ & [-> ->]%M_ret_ok); cbn.
  all: repeat match goal with H : _ && _ = true |- _ => apply andb_true_iff in H as [H1%bool_decide_eq_true H2%bool_decide_eq_true] end.
  all: split; [congruence|]. all: unfold target in Hloop; by destruct amount.
Qed.
End deal.

(** ** The exchange *)

Section exchange.
Context {Cfg : Config} {SK : StorageKeys} {OR : Origins}.
Context {L : Type} `{MultiCurrencyLaws L} {TA : TechAccounts} {AI : AssetInfo L} {PR : Providers L}.
Context (Hinj : tech_injective).
Implicit Types (c : Chain L).

Lemma makers_gain (asset : AssetId) (ex : list (LimitOrder.t * OrderVolume)) a x :
  (∀ p, p ∈ ex → 0 ≤ due_for (fst p) (snd p)) →
  0 ≤ sum_by (λ p, moved asset (LimitOrder.owner (fst p)) (due_for (fst p) (snd p)) a x) ex.
Proof. intros Hp. apply sum_by_nonneg. intros p Hin. unfold moved. case_bool_decide; [by apply Hp|done]. Qed.

Lemma deal_within self c input output desired deal s' : book_wf (OrderBook.order_book_id self) self →
  divisibility (OrderBook.order_book_id self) = true → Inv divisibility (data (world (pallet c))) →
  in_lots self (LimitOrders (data (world (pallet c)))) → exact_prices self (LimitOrders (data (world (pallet c)))) →
  is_u128 (quote_amount (to_quote desired)) →
  OrderBook.calculate_deal self input output (to_quote desired) (data (world (pallet c))) = (Ok deal, s') →
  (input, output) = match DealInfo.direction deal with
                    | Buy => (OrderTypes.quote (OrderBook.order_book_id self), base (OrderBook.order_book_id self))
                    | Sell => (base (OrderBook.order_book_id self), OrderTypes.quote (OrderBook.order_book_id self))
                    end ∧
  match desired with
  | SwapWithDesiredInput d _ => inner (OrderAmount.value (DealInfo.input_amount deal)) ≤ d
  | SwapWithDesiredOutput _ _ => True
  end.
Proof.
  intros [] Hd HI Hl Hx Ha Hr.
  apply (calculate_deal_within divisibility) in Hr; try done; try (naive_solver congruence).
  by destruct desired.
Qed.

(** C37. An exchange of the order book is what the proxy expects of a source, for a divisible base
    asset and resting prices that are exact on the lot grid: it takes no more than a desired
    input, the outcome respects the limit and is what the receiver gets or the sender pays, no
    user account loses anything else, and the pallet stays sound. *)
Theorem book_exchange_moves dex input output sender receiver desired b self c y c' :
  Sound (pallet c) → user_account sender → is_u128 (SwapTypes.swap_amount desired) →
  assemble_order_book_id dex input output (market c) = Some b → is_non_divisible (base b) = false →
  books c !! b = Some self → exact_prices self (LimitOrders (data (world (pallet c)))) →
  exchange sender receiver dex input output desired c = (Ok y, c') →
  exchanges user_account OrderBookSource sender receiver input output desired
    (ledger (world (pallet c))) y (ledger (world (pallet c'))) ∧ Sound (pallet c').
Proof.
  intros Hs Hu Ha Hb Hdiv Hself Hexact Hr.
  assert (is_u128 (quote_amount (to_quote desired))) as Ha' by by destruct desired.
  pose proof Hr as (_ & _ & _ & _ & Hs')%(exchange_run Hinj dex input output desired b self c); [|done..].
  split; [|done]. clear Hs'.
  apply (exchange_executes Hinj dex input output desired b self c) in Hr; [|done..].
  destruct Hr as (deal & i & o & n & w' & Hd & Hlots & Hx & -> & -> & Hl & Ei & Eo).
  pose proof Hs as [Hbooks Hw]. destruct (Hbooks _ _ Hself) as [Hwf _]. pose proof (bw_id _ _ Hwf) as <-.
  pose proof (sw_good _ _ _ Hw) as (orphans & Hg & _).
  assert (divisibility (OrderBook.order_book_id self) = true) as Hdv by (unfold divisibility; by rewrite Hdiv).
  pose proof (deal_facts self _ _ desired _ _ Hg Hwf Hdv Hlots Hexact Ha' _ _ Hd) as [Hbase _].
  pose proof (deal_within _ _ _ _ _ _ _ Hwf Hdv (sound_inv _ Hs) Hlots Hexact Ha' Hd) as [Hassets Hin].
  apply (execute_run divisibility self orphans (book_wf_ok _ _ Hwf) Hinj) in Hx;
    [|done|split; [by rewrite Hdv|done]].
  destruct Hx as (_ & _ & Hfits & _ & (-> & -> & _) & _ & Eb). cbv zeta in Hfits, Eb.
  cbn [MarketOrder.direction MarketOrder.amount MarketOrder.owner MarketOrder.to swap_order MarketOrder.new] in *.
  assert (default sender (if bool_decide (sender = receiver) then None else Some receiver) = receiver) as Er
    by (case_bool_decide; done).
  rewrite Er in Eb. set (t := take _ _) in *. set (ex := executed _ _ _ _) in *.
  set (sd := switched (DealInfo.direction deal)) in *.
  pose proof (df_owed _ _ _ _ Hfits) as [_ [Ho _]]. pose proof (df_due _ _ _ _ Hfits) as [_ [Hi _]].
  cbn [BalanceUnit.inner] in Ho, Hi.
  assert (inner (OrderAmount.value (deal_input divisibility self (DealInfo.direction deal) ex)) = due_total ex ∧
          inner (OrderAmount.value (deal_output divisibility self (DealInfo.direction deal) ex)) = owed_total ex)
    as [Edue Eowed] by (unfold deal_input, deal_output; by destruct (DealInfo.direction deal)).
  rewrite Edue in Ei. rewrite Eowed in Eo.
  exists (due_total ex), (owed_total ex). split; [done|]. split; [done|]. split.
  - unfold honours, within, swap_amount, BalanceUnit.balance in *.
    destruct desired as [d least|d most]; cbn [outcome_amount] in *; zbool; [rewrite <- Ei in Hin; rewrite <- Eo in *|rewrite <- Ei in *]; lia || done.
  - intros a x Hx. cbn. rewrite (Eb a x), settle_deal by (done || apply (book_wf_ok _ _ Hwf)).
    unfold deal_moves. fold t ex sd. rewrite (moved_who _ (tech_account _)) by apply Hx.
    pose proof (makers_gain (maker_out (OrderBook.order_book_id self) sd) ex a x) as Hm.
    assert (input = maker_out (OrderBook.order_book_id self) sd ∧ output = taker_out (OrderBook.order_book_id self) sd)
      as [-> ->] by (unfold maker_out, taker_out, sd; destruct (DealInfo.direction deal); by simplify_eq).
    enough (0 ≤ sum_by (λ p, moved (maker_out (OrderBook.order_book_id self) sd) (LimitOrder.owner (fst p)) (due_for (fst p) (snd p)) a x) ex) by lia.
    apply Hm. intros p Hp. pose proof (df_each _ _ _ _ Hfits) as He. rewrite Forall_forall in He. apply (He p Hp).
Qed.
End exchange.

#[local] Existing Instance RuntimeConfig.
#[local] Existing Instance Samples.plain_keys.
Import ExpirationSamples PalletSamples.

(** Account 9 sells two units of asset 1 into the buy order of account 7, for account 11. *)
Definition sold : Chain Ledger := snd (exchange 9%N 11%N 0 1%N 0%N (sell (20 * one)) bought).

Lemma sold_run : exchange 9%N 11%N 0 1%N 0%N (sell (20 * one)) bought = (Ok (mkOutcome (20 * one) []), sold).
Proof. vm_compute. reflexivity. Qed.

Lemma book_exchange_moves_witness :
  exchanges user_account OrderBookSource 9%N 11%N 1%N 0%N (sell (20 * one))
    (ledger (world (pallet bought))) (mkOutcome (20 * one) []) (ledger (world (pallet sold))) ∧
  Sound (pallet sold).
Proof.
  destruct bought_book as (self & Hself & Hstep).
  exact (book_exchange_moves EffectSamples.tech_inj 0 1%N 0%N 9%N 11%N (sell (20 * one)) Samples.book self bought _ sold
           bought_sound (odd_user 9 eq_refl) (one_ok 2 ltac:(lia)) bought_assembled eq_refl Hself
           (bought_exact self Hstep) sold_run).
Defined.
