(* ===== verification/ProxySamples.v ===== *)
(** * Sample swaps through the proxy

    Two liquidity sources with linear prices over the ledger of the examples, the
    witnesses of the theorems about the paths of the proxy, and a swap at the expense of the
    transit account. *)

From S2P Require Import Prelude BTreeMap FixedPoint Units OrderTypes SwapTypes Chunks Aggregator.
From S2P Require Import ChunkFitting Selection AggregatorInv Aggregated SmartSplit SplitSamples.
From S2P Require Import DataLayer StorageProps World Permissions TradingPair Payments SampleLedger.
From S2P Require Import Pallet Technical DexApi LiquidityProxy ProxyPaths ProxySwaps.

Module ProxySamples.

Abbreviation u := SplitSamples.unit_.

#[export] Existing Instance SplitSamples.tolerance.
#[export] Existing Instance SplitSamples.epsilon.

(** ** Assets

    0 is the base asset, 2 the synthetic base, 4 synthetic, 5 the chameleon base with
    the pool asset 6, and the others are basic. *)

#[export] Instance kinds : AssetKinds Ledger := {|
  GetChameleonPools a := if bool_decide (a = 0%N) then Some (5%N, {[6%N]}) else None;
  enabled_target_assets _ := {[4%N]}
|}.
#[export] Instance issuance : Issuance Ledger := {|
  currency_deposit a x v := modify (ledger_add a x v);
  currency_withdraw a x v := modify (ledger_add a x (- v));
  check_burn_permission _ _ _ _ := Ok tt;
  check_mint_permission _ _ _ _ := Ok tt;
  ensure_asset_is_mintable _ _ := Ok tt
|}.
#[export] Instance assets : AssetInfo Ledger := {|
  is_non_divisible _ := false;
  total_balance l a x := Ok (ledger_balance l a x)
|}.
#[export] Instance config : ProxyConfig := {|
  GetNumSamples := 10;
  GetTechnicalAccountId := 1%N;
  GetADARAccountId := 3%N;
  XOR := 0%N;
  ensure_ratio_origin o := match o with Root => true | _ => false end
|}.

(** ** Sources *)

(** The reserves of a source. *)
Definition reserve (t : LiquiditySourceType) : AccountId := N.double (Z.to_N (source_index t)).

(** The price of a pair, the output for [den] units of input; that of the synthetic
    base falls once the reserve of the base asset is below 100. *)
Definition rate (t : LiquiditySourceType) (l : Ledger) (input output : AssetId) : option (Z * Z) :=
  match t, input, output with
  | XYKPool, 0%N, 1%N => Some (10, 1)
  | XSTPool, 0%N, 1%N => Some (9, 1)
  | XYKPool, 3%N, 0%N => Some (1, 1)
  | XYKPool, 0%N, 2%N =>
      Some (if ledger_balance l 0%N (reserve XYKPool) <? 100 * u then (1, 2) else (1, 1))
  | XYKPool, 2%N, 4%N => Some (1, 1)
  | _, _, _ => None
  end.

Definition NoPrice : DispatchError := ExternalError 3.

Definition price (t : LiquiditySourceType) (l : Ledger) (input output : AssetId)
    (amount : QuoteAmount) : result DispatchError SwapOutcome :=
  '(num, den) ← ok_or (rate t l input output) NoPrice;
  let x := match amount with
           | WithDesiredInput x => x * num / den
           | WithDesiredOutput x => (x * den + num - 1) / num
           end in
  _ ← ensure ((0 <=? x) && (x <=? u128_max)) NoPrice;
  Ok (mkOutcome x []).

Definition trade (t : LiquiditySourceType) (sender receiver : AccountId) (input output : AssetId)
    (amount : SwapAmount) : M Ledger DispatchError SwapOutcome :=
  l ← get_state;
  outcome ← lift (price t l input output (to_quote amount));
  let '(taken, given) := place_input_and_output (to_quote amount) outcome in
  _ ← ensure ((0 <=? taken) && match amount with
                               | SwapWithDesiredInput _ least => least <=? given
                               | SwapWithDesiredOutput _ most => taken <=? most
                               end) NoPrice;
  _ ← currency_transfer input sender (reserve t) taken;
  _ ← currency_transfer output (reserve t) receiver given;
  mret outcome.

Definition quotation (t : LiquiditySourceType) : DiscreteQuotation :=
  match t with
  | XYKPool => mkQuotation [SplitSamples.chunk 10 100] (mkLimits None None None)
  | _ => mkQuotation [SplitSamples.chunk 10 90; SplitSamples.chunk 10 90] (mkLimits None None None)
  end.

#[export] Instance sources : LiquiditySources Ledger := λ t, {|
  ls_can_exchange l _ input output := bool_decide (is_Some (rate t l input output));
  ls_quote l _ input output amount _ := price t l input output amount;
  ls_step_quote l _ input output _ _ _ :=
    _ ← ensure (bool_decide (input = 0%N ∧ output = 1%N)) NoPrice; Ok (quotation t);
  ls_exchange sender receiver _ input output amount := trade t sender receiver input output amount;
  ls_check_rewards _ _ _ _ _ _ := Ok [];
  ls_quote_without_impact l _ input output amount _ := price t l input output amount
|}.

(** ** States *)

Definition info : DEXInfo := mkDEXInfo 0%N 2%N true.
Definition market : Market := mkMarket {[0 := info]} ∅ [] [].

(** Account 7 holds assets 0 and 3, the transit account 50 of asset 2, and the
    reserves hold all assets. *)
Definition funds : Ledger :=
  list_to_map
    ([((0%N, 7%N), 1000 * u); ((3%N, 7%N), 100 * u); ((2%N, 1%N), 50 * u)]
     ++ ((λ a, ((a, reserve XYKPool), 150 * u)) <$> [0; 1; 2; 3; 4]%N)
     ++ ((λ a, ((a, reserve XSTPool), 150 * u)) <$> [0; 1; 2; 3; 4]%N)).
Definition start : LiquidityProxy.t Ledger :=
  LiquidityProxy.mk (DexApi.mk [XYKPool; XSTPool] market funds []) (25 * 10 ^ 14) [].

(** The swap of asset 3 for the synthetic asset, over three pairs. *)
Definition routed : LiquidityProxy.t Ledger :=
  snd (LiquidityProxy.swap_transfer 20 (Signed 7%N) 9%N 0 3%N 4%N
         (SwapWithDesiredInput (100 * u) (100 * u)) [] FilterDisabled start).
Lemma run_ok {S E} (c : M S E ()) (s : S) : fst (c s) = Ok () → c s = (Ok (), snd (c s)).
Proof. destruct (c s). by intros [= ->]. Qed.

Lemma bases_ok : distinct_bases funds info.
Proof.
  split; [done|]. intros c targets [= <- <-]. split_and!; [done..|].
  change (5%N ∉ ({[4%N]} : gset AssetId)). set_solver.
Qed.

Definition paths34 : list (list AssetId) := [[3; 0; 4]; [3; 0; 2; 4]]%N.
Lemma paths34_built :
  new_trivial (LiquidityProxy.proxy_ledger start) info 3%N 4%N = Some paths34.
Proof. vm_compute. reflexivity. Qed.
End ProxySamples.

Import ProxySamples.

(** The limits of the steps of a route are not checked: here the price of the second
    pair falls after the first swap, the third swap still spends the quoted amount,
    and the transit account pays the difference for the user. *)
Example transit_account_charged :
  LiquidityProxy.swap_transfer 20 (Signed 7%N) 9%N 0 3%N 4%N
    (SwapWithDesiredInput (100 * u) (100 * u)) [] FilterDisabled start = (Ok (), routed) ∧
  ledger_balance (LiquidityProxy.proxy_ledger start) 2%N GetTechnicalAccountId = 50 * u ∧
  ledger_balance (LiquidityProxy.proxy_ledger routed) 2%N GetTechnicalAccountId = 0.
Proof. split; [apply run_ok|split]; vm_compute; reflexivity. Qed.

Lemma new_trivial_simple_witness :
  distinct_bases funds info ∧ 3%N ≠ 4%N ∧
  ∃ asset_paths, new_trivial funds info 3%N 4%N = Some asset_paths ∧ asset_paths ≠ [] ∧
    Forall (simple_path 3%N 4%N) asset_paths.
Proof.
  split; [exact bases_ok|]. split; [done|]. exact (new_trivial_simple funds info 3%N 4%N bases_ok ltac:(done)).
Defined.

Lemma inner_quote_best_witness :
  let quote_of := LiquidityProxy.quote_path_info 20 start info SwapVariant.WithDesiredInput (10 * u)
                    (filter_empty 0) true true in
  match LiquidityProxy.inner_quote 20 start 0 3%N 4%N (WithDesiredInput (10 * u)) (filter_empty 0)
          true true with
  | Ok best => ∃ p, p ∈ paths34 ∧ quote_of p = Ok best ∧
      ∀ p' other, p' ∈ paths34 → quote_of p' = Ok other →
        as_good SwapVariant.WithDesiredInput best other
  | Err _ => ∀ p', p' ∈ paths34 → ∃ e, quote_of p' = Err e
  end.
Proof.
  exact (inner_quote_best 20 start 0 3%N 4%N (WithDesiredInput (10 * u)) (filter_empty 0) true true
           info paths34 eq_refl paths34_built).
Defined.

Lemma unlisted_path_available_witness :
  LiquidityProxy.is_path_available start 0 3%N 4%N = Ok true.
Proof.
  apply (unlisted_path_available start 0 info 3%N 4%N paths34 [3; 0; 4]%N eq_refl paths34_built).
  - left.
  - simpl. intros from to [[= -> ->]|[[= -> ->]|[]%elem_of_nil]%elem_of_cons]%elem_of_cons;
      vm_compute; reflexivity.
Defined.
