(* ===== verification/PoolXyk.v ===== *)
(** * The constant-product pools ([pallets/pool-xyk/src])

    [utils.rs], [operations.rs], the actions and [lib.rs]: pools of two assets
    with their providers, the swaps through them, and the pallet as a liquidity
    source.  The state holds the storage of the pallet, the technical accounts with
    the currencies, the registry of exchanges, and the locks and farms that a
    withdrawal respects.  Weights are not modelled. *)

From S2P Require Import Prelude BTreeMap FixedPoint Helpers256 FixedU256 Units OrderTypes SwapTypes PoolMath DataLayer.
From S2P Require Import World Permissions TradingPair OrderBook WorldRefine Scheduler Pallet Technical.

(** ** Parameters *)

Class PoolParams := {
  XOR : AssetId;
  TBCD : AssetId;
  GetTradingPairRestrictedFlag : TradingPair → bool;
  (** base asset => (chameleon base asset, target assets in order). *)
  GetChameleonPools : AssetId → option (AssetId * list AssetId);
  (** Whether [sort_with_hash_key] keeps the order of two assets. *)
  sorted_with_hash_key : AssetId → AssetId → bool
}.

(** [T::OnPoolReservesChanged] and [T::OnPoolCreated]. *)
Class PoolHooks (L : Type) := {
  reserves_changed : AssetId → L → L;
  on_pool_created : AccountId → DEXId → AccountId → M L DispatchError unit
}.

(** ** Data *)

(** [ceres_liquidity_locker::LockInfo]. *)
Record LockInfo := mkLock {
  lock_tokens : Balance;
  unlocking_timestamp : Moment;
  lock_asset_a : AssetId;
  lock_asset_b : AssetId
}.

(** [demeter_farming_platform::UserInfo]. *)
Record UserInfo := mkUserInfo {
  farm_base_asset : AssetId;
  farm_pool_asset : AssetId;
  reward_asset : AssetId;
  is_farm : bool;
  pooled_tokens : Balance;
  rewards : Balance
}.

(** [operations.rs]. *)
Record Resource := mkResource { asset : AssetId; amount : Bounds.t }.

Record PairSwapAction := mkPairSwap {
  ps_client_account : option AccountId;
  ps_receiver_account : option AccountId;
  ps_pool_account : TechAccountId;
  ps_source : Resource;
  ps_destination : Resource;
  ps_fee : OutcomeFee.t;
  ps_fee_account : option TechAccountId;
  ps_get_fee_from_destination : option bool;
  ps_base_chameleon_asset : option AssetId;
  ps_is_chameleon_pool : option bool;
  ps_dex_id : DEXId
}.

Record DepositLiquidityAction := mkDeposit {
  dl_client_account : option AccountId;
  dl_receiver_account : option AccountId;
  dl_pool_account : TechAccountId;
  dl_source : Resource * Resource;
  dl_pool_tokens : Balance;
  dl_min_liquidity : option Balance
}.

Record WithdrawLiquidityAction := mkWithdraw {
  wl_client_account : option AccountId;
  wl_receiver_account_a : option AccountId;
  wl_receiver_account_b : option AccountId;
  wl_pool_account : TechAccountId;
  wl_pool_tokens : Balance;
  wl_destination : Resource * Resource
}.

Inductive PolySwapAction :=
| PairSwap (a : PairSwapAction)
| DepositLiquidity (a : DepositLiquidityAction)
| WithdrawLiquidity (a : WithdrawLiquidityAction).

Inductive PoolEvent :=
| SwapSuccess (who : AccountId)
| PoolIsInitialized (pool : AccountId)
| PoolAdjusted (pool : AccountId) (old_issuance new_issuance : Balance) (providers : Z).

Module PoolXyk.

Record t (L : Type) := mk {
  Reserves : gmap (AssetId * AssetId) (Balance * Balance);
  PoolProviders : gmap (AccountId * AccountId) Balance;
  AccountPools : gmap (AccountId * AssetId) (gset AssetId);
  TotalIssuances : gmap AccountId Balance;
  Properties : gmap (AssetId * AssetId) (AccountId * AccountId);
  technical : Technical.t L;
  market : Market;
  (** [ceres_liquidity_locker::LockerData]. *)
  LockerData : gmap AccountId (list LockInfo);
  (** [demeter_farming_platform::UserInfos]. *)
  UserInfos : gmap AccountId (list UserInfo);
  (** [timestamp]. *)
  now : Moment;
  events : list PoolEvent
}.
Arguments mk {L} _ _ _ _ _ _ _ _ _ _ _.
Arguments Reserves {L} _.
Arguments PoolProviders {L} _.
Arguments AccountPools {L} _.
Arguments TotalIssuances {L} _.
Arguments Properties {L} _.
Arguments technical {L} _.
Arguments market {L} _.
Arguments LockerData {L} _.
Arguments UserInfos {L} _.
Arguments now {L} _.
Arguments events {L} _.

Section state.
Context {L : Type}.
Implicit Types (s : t L).

Definition set_reserves r s : t L :=
  mk r (PoolProviders s) (AccountPools s) (TotalIssuances s) (Properties s) (technical s) (market s)
    (LockerData s) (UserInfos s) (now s) (events s).
Definition set_providers p s : t L :=
  mk (Reserves s) p (AccountPools s) (TotalIssuances s) (Properties s) (technical s) (market s)
    (LockerData s) (UserInfos s) (now s) (events s).
Definition set_account_pools a s : t L :=
  mk (Reserves s) (PoolProviders s) a (TotalIssuances s) (Properties s) (technical s) (market s)
    (LockerData s) (UserInfos s) (now s) (events s).
Definition set_issuances i s : t L :=
  mk (Reserves s) (PoolProviders s) (AccountPools s) i (Properties s) (technical s) (market s)
    (LockerData s) (UserInfos s) (now s) (events s).
Definition set_properties p s : t L :=
  mk (Reserves s) (PoolProviders s) (AccountPools s) (TotalIssuances s) p (technical s) (market s)
    (LockerData s) (UserInfos s) (now s) (events s).
Definition set_technical x s : t L :=
  mk (Reserves s) (PoolProviders s) (AccountPools s) (TotalIssuances s) (Properties s) x (market s)
    (LockerData s) (UserInfos s) (now s) (events s).
Definition set_market m s : t L :=
  mk (Reserves s) (PoolProviders s) (AccountPools s) (TotalIssuances s) (Properties s) (technical s) m
    (LockerData s) (UserInfos s) (now s) (events s).
Definition set_lockers d s : t L :=
  mk (Reserves s) (PoolProviders s) (AccountPools s) (TotalIssuances s) (Properties s) (technical s)
    (market s) d (UserInfos s) (now s) (events s).
Definition set_users u s : t L :=
  mk (Reserves s) (PoolProviders s) (AccountPools s) (TotalIssuances s) (Properties s) (technical s)
    (market s) (LockerData s) u (now s) (events s).
Definition add_event e s : t L :=
  mk (Reserves s) (PoolProviders s) (AccountPools s) (TotalIssuances s) (Properties s) (technical s)
    (market s) (LockerData s) (UserInfos s) (now s) (events s ++ [e]).

Definition ledger s : L := Technical.ledger (technical s).
Definition set_ledger l s : t L := set_technical (Technical.set_ledger l (technical s)) s.

Definition on_technical {E A} (c : M (Technical.t L) E A) : M (t L) E A := zoom technical set_technical c.
Definition on_ledger {E A} (c : M L E A) : M (t L) E A := zoom ledger set_ledger c.
Definition on_market {E A} (c : M Market E A) : M (t L) E A := zoom market set_market c.
Definition deposit_event {E} (e : PoolEvent) : M (t L) E unit := modify (add_event e).
End state.

Section pallet.
Context {PC : PoolConfig} {PP : PoolParams} {SK : StorageKeys} {TH : TechHash}.
Context {L : Type} `{MultiCurrency L} {IS : Issuance L} {AI : AssetInfo L} {PR : Providers L}.
Context {RF : Permissions.References L} {HK : PoolHooks L}.
Abbreviation P := (M (t L) DispatchError).
Implicit Types (s : t L).

Definition fail {A} (e : PoolXykErrors) : P A := mthrow (PoolXykError e).
Definition check (b : bool) (e : PoolXykErrors) : P unit := ensure b (PoolXykError e).

(** ** Pairs ([utils.rs]) *)

(** The pair, the chameleon base asset and whether the pool is a chameleon pool. *)
Definition get_pair_info (base_asset_id asset_a asset_b : AssetId)
    : result DispatchError (TradingPair * option AssetId * bool) :=
  _ ← ensure (negb (bool_decide (asset_a = asset_b))) (PoolXykError AssetsMustNotBeSame);
  let chameleon_pools := GetChameleonPools base_asset_id in
  ta ←
    (if bool_decide (base_asset_id = asset_a) then mret asset_b
     else if bool_decide (base_asset_id = asset_b) then mret asset_a
     else match chameleon_pools with
          | Some (base_chameleon_asset_id, targets) =>
              if bool_decide (base_chameleon_asset_id = asset_a) then
                _ ← ensure (bool_decide (asset_b ∈ targets)) (PoolXykError RestrictedChameleonPool);
                mret asset_b
              else if bool_decide (base_chameleon_asset_id = asset_b) then
                _ ← ensure (bool_decide (asset_a ∈ targets)) (PoolXykError RestrictedChameleonPool);
                mret asset_a
              else mthrow (PoolXykError BaseAssetIsNotMatchedWithAnyAssetArguments)
          | None => mthrow (PoolXykError BaseAssetIsNotMatchedWithAnyAssetArguments)
          end);
  mret (mkPair base_asset_id ta, fst <$> chameleon_pools,
        match chameleon_pools with Some (_, targets) => bool_decide (ta ∈ targets) | None => false end).

Definition get_trading_pair (base_asset_id asset_a asset_b : AssetId) : result DispatchError TradingPair :=
  info ← get_pair_info base_asset_id asset_a asset_b;
  mret (fst (fst info)).

Record AdditionalSwapParams := mkSwapParams {
  is_fee_from_destination : bool;
  is_chameleon_pool : bool;
  base_chameleon_asset : option AssetId
}.

Definition fee_from_destination (tpair : TradingPair) (asset_a asset_b : AssetId) : result DispatchError bool :=
  if bool_decide (target_asset_id tpair = asset_a) then mret true
  else if bool_decide (target_asset_id tpair = asset_b) then mret false
  else mthrow (PoolXykError UnsupportedQuotePath).

Definition get_additional_swap_params (base_asset_id asset_a asset_b : AssetId)
    : result DispatchError AdditionalSwapParams :=
  info ← get_pair_info base_asset_id asset_a asset_b;
  let '(tpair, base_chameleon_asset, is_chameleon_pool) := info in
  dest ← fee_from_destination tpair asset_a asset_b;
  mret (mkSwapParams dest is_chameleon_pool base_chameleon_asset).

Definition decide_is_fee_from_destination (base_asset_id asset_a asset_b : AssetId) : result DispatchError bool :=
  tpair ← get_trading_pair base_asset_id asset_a asset_b;
  fee_from_destination tpair asset_a asset_b.

Definition get_fee_account (tech_acc : TechAccountId) : result DispatchError TechAccountId :=
  ok_or (to_fee_account tech_acc) (PoolXykError UnableToDeriveFeeAccount).

Definition is_fee_account_valid_for (tech_acc fee_acc : TechAccountId) : result DispatchError unit :=
  recommended ← get_fee_account tech_acc;
  ensure (bool_decide (fee_acc = recommended)) (PoolXykError FeeAccountIsInvalid).

Definition is_pool_account_valid_for (tech_acc : TechAccountId) : P unit :=
  on_technical (Technical.ensure_tech_account_registered tech_acc).

Definition get_dex_info (dex : DEXId) : P DEXInfo := on_market (DexManager.get_dex_info dex).

Definition tech_account_from_dex_and_asset_pair (dex : DEXId) (asset_a asset_b : AssetId)
    : P (TradingPair * TechAccountId) :=
  dexinfo ← get_dex_info dex;
  _ ← check (negb (bool_decide (asset_a = asset_b))) AssetsMustNotBeSame;
  tpair ← lift (get_trading_pair (dex_base_asset_id dexinfo) asset_a asset_b);
  mret (tpair, to_xyk_tech_unit_from_dex_and_trading_pair dex tpair).

Definition ensure_trading_pair_is_not_restricted (tpair : TradingPair) : P unit :=
  check (negb (GetTradingPairRestrictedFlag tpair)) TargetAssetIsRestricted.

Definition get_bounds_from_swap_amount (swap_amount : SwapAmount) : Bounds.t * Bounds.t :=
  match swap_amount with
  | SwapWithDesiredInput desired_amount_in min_amount_out =>
      (Bounds.Desired desired_amount_in, Bounds.Min min_amount_out)
  | SwapWithDesiredOutput desired_amount_out max_amount_in =>
      (Bounds.Max max_amount_in, Bounds.Desired desired_amount_out)
  end.

(** ** Shares ([utils.rs]) *)

Definition burn (pool_account user_account : AccountId) (pool_tokens : Balance) : P unit :=
  let key := (pool_account, user_account) in
  s ← get_state;
  old_balance ← ok_or (PoolProviders s !! key) (PoolXykError AccountBalanceIsInvalid);
  new_balance ← ok_or (u128_checked_sub old_balance pool_tokens) (PoolXykError AccountBalanceIsInvalid);
  _ ← (if new_balance =? 0 then
         _ ← modify (λ s, set_ledger (Permissions.dec_consumers user_account (ledger s)) s);
         modify (λ s, set_providers (delete key (PoolProviders s)) s)
       else modify (λ s, set_providers (<[key := new_balance]> (PoolProviders s)) s));
  s ← get_state;
  old_issuance ← ok_or (TotalIssuances s !! pool_account) (PoolXykError PoolIsInvalid);
  new_issuance ← ok_or (u128_checked_sub old_issuance pool_tokens) (PoolXykError PoolIsInvalid);
  modify (λ s, set_issuances (<[pool_account := new_issuance]> (TotalIssuances s)) s).

Definition mint (pool_account user_account : AccountId) (pool_tokens : Balance) : P unit :=
  let key := (pool_account, user_account) in
  s ← get_state;
  _ ← (match PoolProviders s !! key with
       | Some _ => mret tt
       | None =>
           l ← ok_or (Permissions.inc_consumers user_account (ledger s)) (PoolXykError IncRefError);
           modify (set_ledger l)
       end);
  _ ← modify (λ s, set_providers
        (<[key := u128_wrap (default 0 (PoolProviders s !! key) + pool_tokens)]> (PoolProviders s)) s);
  s ← get_state;
  new_issuance ← ok_or (u128_checked_add (default 0 (TotalIssuances s !! pool_account)) pool_tokens)
                   (PoolXykError PoolTokenSupplyOverflow);
  modify (λ s, set_issuances (<[pool_account := new_issuance]> (TotalIssuances s)) s).

Definition insert_account_pool (who : AccountId) (pair : TradingPair) : P unit :=
  let key := (who, base_asset_id pair) in
  modify (λ s, set_account_pools
    (<[key := default ∅ (AccountPools s !! key) ∪ {[target_asset_id pair]}]> (AccountPools s)) s).
Definition remove_account_pool (who : AccountId) (pair : TradingPair) : P unit :=
  let key := (who, base_asset_id pair) in
  modify (λ s, set_account_pools
    (<[key := default ∅ (AccountPools s !! key) ∖ {[target_asset_id pair]}]> (AccountPools s)) s).

(** ** Reserves ([lib.rs]) *)

(** Input reserve, output reserve and the largest output. *)
Definition get_actual_reserves (pool_acc_id : AccountId) (base_asset input_asset_id output_asset_id : AssetId)
    : P (Balance * Balance * Balance) :=
  info ← lift (get_pair_info base_asset input_asset_id output_asset_id);
  let '(tpair, base_chameleon_asset_id, is_chameleon_pool) := (info : TradingPair * option AssetId * bool) in
  s ← get_state;
  let l := ledger s in
  reserve_base ← lift (Assets.free_balance l (base_asset_id tpair) pool_acc_id);
  reserve_target ← lift (Assets.free_balance l (target_asset_id tpair) pool_acc_id);
  reserve_chameleon ←
    (match base_chameleon_asset_id with
     | Some chameleon => if is_chameleon_pool then lift (Assets.free_balance l chameleon pool_acc_id) else mret 0
     | None => mret 0
     end);
  reserve_base_chameleon ← ok_or (u128_checked_add reserve_base reserve_chameleon)
                             (PoolXykError PoolTokenSupplyOverflow);
  let max_output :=
    if bool_decide (output_asset_id = target_asset_id tpair) then reserve_target
    else if bool_decide (output_asset_id = base_asset_id tpair) then reserve_base
    else reserve_chameleon in
  if bool_decide (target_asset_id tpair = input_asset_id)
  then mret (reserve_target, reserve_base_chameleon, max_output)
  else mret (reserve_base_chameleon, reserve_target, max_output).

Definition notify_reserves (asset : AssetId) : P unit :=
  modify (λ s, set_ledger (reserves_changed asset (ledger s)) s).

Definition insert_reserves (a b : AssetId) (balances : Balance * Balance) : P unit :=
  modify (λ s, set_reserves (<[(a, b) := balances]> (Reserves s)) s).

Definition update_reserves (base_asset asset_a asset_b : AssetId) (balance_pair : Balance * Balance) : P unit :=
  let '(balance_a, balance_b) := balance_pair in
  match get_trading_pair base_asset asset_a asset_b with
  | Ok tpair =>
      if bool_decide (asset_a = target_asset_id tpair) then
        _ ← insert_reserves (base_asset_id tpair) (target_asset_id tpair) (balance_b, balance_a);
        notify_reserves (target_asset_id tpair)
      else if bool_decide (asset_b = target_asset_id tpair) then
        _ ← insert_reserves (base_asset_id tpair) (target_asset_id tpair) (balance_a, balance_b);
        notify_reserves (target_asset_id tpair)
      else mret tt
  | Err _ =>
      _ ← (if sorted_with_hash_key asset_a asset_b
           then insert_reserves asset_a asset_b (balance_a, balance_b)
           else insert_reserves asset_b asset_a (balance_b, balance_a));
      _ ← notify_reserves asset_a;
      notify_reserves asset_b
  end.

(** [update_reserves] with the balances, at the end of every action. *)
Definition refresh_reserves (pool_account : TechAccountId) (base_asset asset_a asset_b : AssetId) : P unit :=
  balances ← get_actual_reserves (tech_account_id_to_account_id pool_account) base_asset asset_a asset_b;
  update_reserves base_asset asset_a asset_b (fst balances).

(** ** Swaps ([action_pair_swap.rs]) *)

Section pair_swap.
Implicit Types (self : PairSwapAction).

Definition set_accounts self (client receiver : option AccountId) : PairSwapAction :=
  mkPairSwap client receiver (ps_pool_account self) (ps_source self) (ps_destination self) (ps_fee self)
    (ps_fee_account self) (ps_get_fee_from_destination self) (ps_base_chameleon_asset self)
    (ps_is_chameleon_pool self) (ps_dex_id self).
Definition set_amounts self (source_amount destination_amount : Bounds.t) : PairSwapAction :=
  mkPairSwap (ps_client_account self) (ps_receiver_account self) (ps_pool_account self)
    (mkResource (asset (ps_source self)) source_amount)
    (mkResource (asset (ps_destination self)) destination_amount) (ps_fee self)
    (ps_fee_account self) (ps_get_fee_from_destination self) (ps_base_chameleon_asset self)
    (ps_is_chameleon_pool self) (ps_dex_id self).
Definition set_fee self (fee : OutcomeFee.t) : PairSwapAction :=
  mkPairSwap (ps_client_account self) (ps_receiver_account self) (ps_pool_account self) (ps_source self)
    (ps_destination self) fee (ps_fee_account self) (ps_get_fee_from_destination self)
    (ps_base_chameleon_asset self) (ps_is_chameleon_pool self) (ps_dex_id self).
Definition set_fee_account self (fee_account : TechAccountId) : PairSwapAction :=
  mkPairSwap (ps_client_account self) (ps_receiver_account self) (ps_pool_account self) (ps_source self)
    (ps_destination self) (ps_fee self) (Some fee_account) (ps_get_fee_from_destination self)
    (ps_base_chameleon_asset self) (ps_is_chameleon_pool self) (ps_dex_id self).
Definition set_params self (dest : option bool) (chameleon : option AssetId) (is_chameleon : option bool)
    : PairSwapAction :=
  mkPairSwap (ps_client_account self) (ps_receiver_account self) (ps_pool_account self) (ps_source self)
    (ps_destination self) (ps_fee self) (ps_fee_account self) dest chameleon is_chameleon (ps_dex_id self).

Definition pair_is_abstract self : bool :=
  bool_decide (amount (ps_source self) = Bounds.Dummy) ||
  bool_decide (amount (ps_destination self) = Bounds.Dummy).

(** The client must be the source; the receiver is the client unless it is given. *)
Definition decide_client (client : option AccountId) (source : AccountId) : result DispatchError (option AccountId) :=
  match client with
  | None => mret (Some source)
  | Some ca =>
      _ ← ensure (bool_decide (ca = source)) (PoolXykError SourceAndClientAccountDoNotMatchAsEqual);
      mret (Some ca)
  end.
Definition or_client (receiver client : option AccountId) : option AccountId :=
  match receiver with None => client | Some _ => receiver end.

(** The amounts and the recommended fee. *)
Definition decide_amounts self (dest : bool) (balance_st balance_tt : Balance)
    : result DispatchError (PairSwapAction * Balance) :=
  let source_amount := amount (ps_source self) in
  let destination_amount := amount (ps_destination self) in
  match source_amount, destination_amount with
  | Bounds.Desired sa, Bounds.Desired ta =>
      _ ← ensure (0 <? sa) (PoolXykError ZeroValueInAmountParameter);
      _ ← ensure (0 <? ta) (PoolXykError ZeroValueInAmountParameter);
      y_out_pair ← calc_output_for_exact_input GetFee dest balance_st balance_tt sa true;
      x_in_pair ← calc_input_for_exact_output GetFee dest balance_st balance_tt ta true;
      if negb (fst y_out_pair =? ta) || negb (fst x_in_pair =? sa) || negb (snd y_out_pair =? snd x_in_pair)
      then mthrow (PoolXykError PoolPairRatioAndPairSwapRatioIsDifferent)
      else mret (self, snd y_out_pair)
  | Bounds.Desired sa, ta_bnd =>
      _ ← ensure (0 <? sa) (PoolXykError ZeroValueInAmountParameter);
      match ta_bnd with
      | Bounds.Min ta_min =>
          calculated ← calc_output_for_exact_input GetFee dest balance_st balance_tt sa true;
          _ ← ensure (ta_min <=? fst calculated) (PoolXykError CalculatedValueIsOutOfDesiredBounds);
          mret (set_amounts self source_amount (Bounds.Calculated (fst calculated)), snd calculated)
      | _ => mthrow (PoolXykError ImpossibleToDecideAssetPairAmounts)
      end
  | sa_bnd, Bounds.Desired ta =>
      _ ← ensure (0 <? ta) (PoolXykError ZeroValueInAmountParameter);
      match sa_bnd with
      | Bounds.Max sa_max =>
          calculated ← calc_input_for_exact_output GetFee dest balance_st balance_tt ta true;
          _ ← ensure (fst calculated <=? sa_max) (PoolXykError CalculatedValueIsOutOfDesiredBounds);
          mret (set_amounts self (Bounds.Calculated (fst calculated)) destination_amount, snd calculated)
      | _ => mthrow (PoolXykError ImpossibleToDecideAssetPairAmounts)
      end
  | _, _ => mthrow (PoolXykError ImpossibleToDecideAssetPairAmounts)
  end.

(** The fee account is checked or set. *)
Definition decide_fee_account self : result DispatchError PairSwapAction :=
  match ps_fee_account self with
  | Some fa => _ ← is_fee_account_valid_for (ps_pool_account self) fa; mret self
  | None => fa ← get_fee_account (ps_pool_account self); mret (set_fee_account self fa)
  end.

(** The fee is checked or set. *)
Definition decide_fee self (base_asset : AssetId) (recom_fee : Balance) : result DispatchError PairSwapAction :=
  let fee := OutcomeFee.get_by_asset (ps_fee self) base_asset in
  if fee =? 0 then mret (set_fee self (OutcomeFee.add_by_asset (ps_fee self) base_asset recom_fee))
  else
    _ ← ensure (recom_fee <=? fee) (PoolXykError PairSwapActionFeeIsSmallerThanRecommended);
    mret self.

(** [x.try_into_balance().unwrap_or(balance!(0)) != balance!(0)]. *)
Definition nonzero_balance (a : FixedWrapper256.t) : bool :=
  match FixedWrapper256.try_into_balance a with Ok x => negb (x =? 0) | Err _ => false end.

Definition pair_prepare self (source_opt : option AccountId) (base_asset : AssetId) : P PairSwapAction :=
  let abstract_from_method := pair_is_abstract self in
  let active := if abstract_from_method then None else source_opt in
  let decides := negb abstract_from_method in
  self ← (match active with
          | None => mret self
          | Some source =>
              client ← lift (decide_client (ps_client_account self) source);
              mret (set_accounts self client (or_client (ps_receiver_account self) client))
          end);
  let pool := tech_account_id_to_account_id (ps_pool_account self) in
  _ ← is_pool_account_valid_for (ps_pool_account self);
  s ← get_state;
  balance_ss ← (match active with
                | None => mret None
                | Some source =>
                    b ← lift (Assets.free_balance (ledger s) (asset (ps_source self)) source);
                    mret (Some b)
                end);
  reserves ← get_actual_reserves pool base_asset (asset (ps_source self)) (asset (ps_destination self));
  let '(balance_st, balance_tt, _) := (reserves : Balance * Balance * Balance) in
  _ ← (match balance_ss with Some b => check (0 <? b) AccountBalanceIsInvalid | None => mret tt end);
  _ ← check (negb ((balance_st =? 0) && (balance_tt =? 0))) PoolIsEmpty;
  _ ← check (negb ((balance_st <=? 0) || (balance_tt <=? 0))) PoolIsInvalid;
  params ← lift (get_additional_swap_params base_asset (asset (ps_source self)) (asset (ps_destination self)));
  let dest := default (is_fee_from_destination params) (ps_get_fee_from_destination self) in
  let self :=
    match ps_is_chameleon_pool self with
    | None => set_params self (Some dest) (base_chameleon_asset params) (Some (is_chameleon_pool params))
    | Some c => set_params self (Some dest) (ps_base_chameleon_asset self) (Some c)
    end in
  decided ← (if decides then lift (decide_amounts self dest balance_st balance_tt) else mret (self, 0));
  let '(self, recom_fee) := (decided : PairSwapAction * Balance) in
  self ← lift (decide_fee_account self);
  self ←
    (if decides then
       source_amount ← lift (Bounds.unwrap (amount (ps_source self)));
       destination_amount ← lift (Bounds.unwrap (amount (ps_destination self)));
       dex_info ← get_dex_info (ps_dex_id self);
       self ← lift (decide_fee self (dex_base_asset_id dex_info) recom_fee);
       _ ← (match balance_ss with
            | None => mret tt
            | Some b =>
                _ ← check (source_amount <=? b) SourceBalanceIsNotLargeEnough;
                check (destination_amount <=? balance_tt) TargetBalanceIsNotLargeEnough
            end);
       mret self
     else mret self);
  match active with
  | None => mret self
  | Some _ =>
      source_amount ← lift (Bounds.unwrap (amount (ps_source self)));
      destination_amount ← lift (Bounds.unwrap (amount (ps_destination self)));
      _ ← check (nonzero_balance (fxw balance_st + fxw source_amount)%F
                 && nonzero_balance (fxw balance_tt - fxw destination_amount)%F)
            PoolBecameInvalidAfterOperation;
      mret self
  end.

Definition pair_reserve self (source : AccountId) (base_asset : AssetId) : P unit :=
  with_transaction (
    _ ← check (bool_decide (Some source = ps_client_account self)) SourceAndClientAccountDoNotMatchAsEqual;
    fee_account ← ok_or (ps_fee_account self) Panicked;
    dex_info ← get_dex_info (ps_dex_id self);
    let fee := OutcomeFee.get_by_asset (ps_fee self) (dex_base_asset_id dex_info) in
    let source_asset := asset (ps_source self) in
    let destination_asset := asset (ps_destination self) in
    dest ← ok_or (ps_get_fee_from_destination self) Panicked;
    _ ← (if dest : bool then
           source_amount ← lift (Bounds.unwrap (amount (ps_source self)));
           _ ← on_technical (Technical.transfer_in source_asset source (ps_pool_account self) source_amount);
           on_technical (Technical.transfer_out destination_asset (ps_pool_account self)
             (tech_account_id_to_account_id fee_account) fee)
         else
           is_chameleon ← ok_or (ps_is_chameleon_pool self) Panicked;
           burns ← (if is_chameleon : bool then
                      chameleon ← ok_or (ps_base_chameleon_asset self) Panicked;
                      mret (bool_decide (chameleon = source_asset))
                    else mret false);
           source_amount ← lift (Bounds.unwrap (amount (ps_source self)));
           _ ← (if burns : bool then
                  on_ledger (Assets.burn_from source_asset source source (u128_wrap (source_amount - fee)))
                else on_technical (Technical.transfer_in source_asset source (ps_pool_account self)
                       (u128_wrap (source_amount - fee))));
           on_technical (Technical.transfer_in source_asset source fee_account fee));
    receiver ← ok_or (ps_receiver_account self) Panicked;
    destination_amount ← lift (Bounds.unwrap (amount (ps_destination self)));
    _ ← on_technical (Technical.transfer_out destination_asset (ps_pool_account self) receiver
          destination_amount);
    refresh_reserves (ps_pool_account self) base_asset source_asset destination_asset).
End pair_swap.

(** ** Deposits ([action_deposit_liquidity.rs]) *)

Section deposit.
Implicit Types (self : DepositLiquidityAction).

Definition deposit_is_abstract self : bool :=
  bool_decide (amount (fst (dl_source self)) = Bounds.Dummy) ||
  bool_decide (amount (snd (dl_source self)) = Bounds.Dummy).

(** The amounts of the pool tokens and of both assets. *)
Definition decide_deposit self (pool : AccountId) (balance_bp balance_tp : Balance)
    : P (Bounds.t * Bounds.t * Balance) :=
  match amount (fst (dl_source self)), amount (snd (dl_source self)) with
  | Bounds.RangeFromDesiredToMin xdes xmin, Bounds.RangeFromDesiredToMin ydes ymin =>
      _ ← check ((xmin <=? xdes) && (ymin <=? ydes)) RangeValuesIsInvalid;
      s ← get_state;
      total_iss ← ok_or (TotalIssuances s !! pool) (PoolXykError PoolIsInvalid);
      total_iss ← ok_or (u128_checked_add total_iss MIN_LIQUIDITY) (PoolXykError PoolTokenSupplyOverflow);
      calc ← lift (calc_deposit_liquidity_1 total_iss balance_bp balance_tp xdes ydes xmin ymin);
      let '(calc_xdes, calc_ydes, calc_marker) := (calc : Balance * Balance * Balance) in
      receiver ← ok_or (dl_receiver_account self) Panicked;
      let acc_already_in_pool := bool_decide (is_Some (PoolProviders s !! (pool, receiver))) in
      _ ← check (acc_already_in_pool || (MIN_XOR <=? calc_xdes)) UnableToDepositXorLessThanMinimum;
      mret (Bounds.Calculated calc_xdes, Bounds.Calculated calc_ydes, calc_marker)
  | _, _ => fail ImpossibleToDecideDepositLiquidityAmounts
  end.

(** [pool_k]. *)
Definition decide_pool_k (active empty_pool : bool) (init_x init_y balance_bp balance_tp : Balance)
    : result DispatchError (option Balance) :=
  if empty_pool then
    if active then
      k ← to_balance (FixedWrapper256.multiply_and_sqrt (fxw init_x) (fxw init_y));
      mret (Some k)
    else mret None
  else
    k ← to_balance (FixedWrapper256.multiply_and_sqrt (fxw balance_bp) (fxw balance_tp));
    mret (Some k).

Definition deposit_prepare self (source_opt : option AccountId) (base_asset : AssetId)
    : P DepositLiquidityAction :=
  let active := if deposit_is_abstract self then None else source_opt in
  accounts ← (match active with
              | None => mret (dl_client_account self, dl_receiver_account self)
              | Some source =>
                  client ← lift (decide_client (dl_client_account self) source);
                  mret (client, or_client (dl_receiver_account self) client)
              end);
  let self := mkDeposit (fst accounts) (snd accounts) (dl_pool_account self) (dl_source self)
                (dl_pool_tokens self) (dl_min_liquidity self) in
  let asset_0 := asset (fst (dl_source self)) in
  let asset_1 := asset (snd (dl_source self)) in
  let pool := tech_account_id_to_account_id (dl_pool_account self) in
  _ ← is_pool_account_valid_for (dl_pool_account self);
  s ← get_state;
  balances ← (match active with
              | None => mret None
              | Some source =>
                  bs ← lift (Assets.free_balance (ledger s) asset_0 source);
                  ts ← lift (Assets.free_balance (ledger s) asset_1 source);
                  _ ← check (negb ((bs <=? 0) || (ts <=? 0))) AccountBalanceIsInvalid;
                  mret (Some (bs, ts))
              end);
  reserves ← get_actual_reserves pool base_asset asset_0 asset_1;
  let '(balance_bp, balance_tp, _) := (reserves : Balance * Balance * Balance) in
  let empty_pool := (balance_bp =? 0) && (balance_tp =? 0) in
  _ ← check (empty_pool || negb ((balance_bp =? 0) || (balance_tp =? 0))) PoolIsInvalid;
  let is_active := match active with Some _ => true | None => false end in
  init ← (if is_active && empty_pool then
            init_x ← ok_or (Bounds.to_option (amount (fst (dl_source self))))
                       (PoolXykError InitialLiqudityDepositRatioMustBeDefined);
            init_y ← ok_or (Bounds.to_option (amount (snd (dl_source self))))
                       (PoolXykError InitialLiqudityDepositRatioMustBeDefined);
            _ ← check (MIN_XOR <=? init_x) UnableToDepositXorLessThanMinimum;
            mret (init_x, init_y)
          else mret (0, 0));
  pool_k ← lift (decide_pool_k is_active empty_pool (fst init) (snd init) balance_bp balance_tp);
  decided ←
    (if is_active then
       if empty_pool then
         k ← ok_or pool_k Panicked;
         mret (amount (fst (dl_source self)), amount (snd (dl_source self)), k)
       else decide_deposit self pool balance_bp balance_tp
     else mret (amount (fst (dl_source self)), amount (snd (dl_source self)), dl_pool_tokens self));
  let '(amount_0, amount_1, pool_tokens) := (decided : Bounds.t * Bounds.t * Balance) in
  min_liquidity ←
    (match dl_min_liquidity self with
     | None => mret MIN_LIQUIDITY
     | Some m =>
         _ ← check (MIN_LIQUIDITY <=? m) PairSwapActionMinimumLiquidityIsSmallerThanRecommended;
         mret m
     end);
  _ ← (match balances with
       | None => mret tt
       | Some (bs, ts) =>
           base_amount ← lift (Bounds.unwrap amount_0);
           target_amount ← lift (Bounds.unwrap amount_1);
           k ← ok_or pool_k Panicked;
           _ ← check (negb ((k <? min_liquidity) && (pool_tokens <? min_liquidity - k)))
                 DestinationAmountOfLiquidityIsNotLargeEnough;
           _ ← check (base_amount <=? bs) SourceBaseAmountIsNotLargeEnough;
           check (target_amount <=? ts) TargetBaseAmountIsNotLargeEnough
       end);
  let pool_tokens := if empty_pool then u128_wrap (pool_tokens - min_liquidity) else pool_tokens in
  mret (mkDeposit (dl_client_account self) (dl_receiver_account self) (dl_pool_account self)
          (mkResource asset_0 amount_0, mkResource asset_1 amount_1) pool_tokens (Some min_liquidity)).

Definition deposit_reserve self (source : AccountId) (base_asset : AssetId) : P unit :=
  let asset_0 := asset (fst (dl_source self)) in
  let asset_1 := asset (snd (dl_source self)) in
  _ ← check (bool_decide (Some source = dl_client_account self)) SourceAndClientAccountDoNotMatchAsEqual;
  let pool := tech_account_id_to_account_id (dl_pool_account self) in
  amount_0 ← lift (Bounds.unwrap (amount (fst (dl_source self))));
  _ ← on_technical (Technical.transfer_in asset_0 source (dl_pool_account self) amount_0);
  amount_1 ← lift (Bounds.unwrap (amount (snd (dl_source self))));
  _ ← on_technical (Technical.transfer_in asset_1 source (dl_pool_account self) amount_1);
  receiver ← ok_or (dl_receiver_account self) Panicked;
  s ← get_state;
  _ ← (if (default 0 (PoolProviders s !! (pool, receiver)) =? 0) && negb (dl_pool_tokens self =? 0) then
         pair ← lift (get_trading_pair base_asset asset_0 asset_1);
         insert_account_pool receiver pair
       else mret tt);
  _ ← mint pool receiver (dl_pool_tokens self);
  refresh_reserves (dl_pool_account self) base_asset asset_0 asset_1.
End deposit.

(** ** Withdrawals ([action_withdraw_liquidity.rs]) *)

(** [ceres_liquidity_locker::check_if_has_enough_unlocked_liquidity]. *)
Definition locked_tokens s (user : AccountId) (asset_a asset_b : AssetId) : Balance :=
  fold_left (λ sum lock,
    if bool_decide (lock_asset_a lock = asset_a) && bool_decide (lock_asset_b lock = asset_b)
       && (now s <? unlocking_timestamp lock)
    then u128_wrap (sum + lock_tokens lock) else sum) (default [] (LockerData s !! user)) 0.

Definition check_if_has_enough_unlocked_liquidity s (user : AccountId) (asset_a asset_b : AssetId)
    (withdrawing_amount : Balance) : bool :=
  match Properties s !! (asset_a, asset_b) with
  | None => false
  | Some (pool_account, _) =>
      let pool_tokens := default 0 (PoolProviders s !! (pool_account, user)) in
      if pool_tokens =? 0 then false else
      let unlocked_pool_tokens :=
        default 0 (u128_checked_sub pool_tokens (locked_tokens s user asset_a asset_b)) in
      (pool_tokens <? withdrawing_amount) || (withdrawing_amount <=? unlocked_pool_tokens)
  end.

(** [demeter_farming_platform::check_if_has_enough_liquidity_out_of_farming]. *)
Definition farmed_tokens s (user : AccountId) (asset_a asset_b : AssetId) : Balance :=
  fold_left (λ most info,
    if bool_decide (farm_pool_asset info = asset_b) && is_farm info
       && bool_decide (farm_base_asset info = asset_a)
    then (if most <? pooled_tokens info then pooled_tokens info else most) else most)
    (default [] (UserInfos s !! user)) 0.

Definition check_if_has_enough_liquidity_out_of_farming s (user : AccountId) (asset_a asset_b : AssetId)
    (withdrawing_amount : Balance) : bool :=
  match Properties s !! (asset_a, asset_b) with
  | None => false
  | Some (pool_account, _) =>
      let pool_tokens := default 0 (PoolProviders s !! (pool_account, user)) in
      if pool_tokens =? 0 then false else
      let farmed := farmed_tokens s user asset_a asset_b in
      let free_pool_tokens := default 0 (u128_checked_sub pool_tokens farmed) in
      (farmed =? 0) || (withdrawing_amount <=? free_pool_tokens)
  end.

Section withdraw.
Implicit Types (self : WithdrawLiquidityAction).

Definition withdraw_is_abstract self : bool :=
  bool_decide (amount (fst (wl_destination self)) = Bounds.Dummy) ||
  bool_decide (amount (snd (wl_destination self)) = Bounds.Dummy).

(** The amount that is paid, against the bound that is requested. *)
Definition decide_withdrawn (bound : Bounds.t) (recommended : Balance) (e : PoolXykErrors)
    : result DispatchError Bounds.t :=
  match bound with
  | Bounds.Desired x =>
      _ ← ensure (x =? recommended) (PoolXykError e);
      mret bound
  | _ =>
      let calc := Bounds.Calculated recommended in
      _ ← ensure (Bounds.meets_the_boundaries bound calc)
            (PoolXykError CalculatedValueIsNotMeetsRequiredBoundaries);
      mret calc
  end.

Definition withdraw_prepare self (source_opt : option AccountId) (base_asset : AssetId)
    : P WithdrawLiquidityAction :=
  source ← ok_or source_opt Panicked;
  client ← lift (decide_client (wl_client_account self) source);
  let receiver_a := or_client (wl_receiver_account_a self) client in
  let receiver_b := or_client (wl_receiver_account_b self) client in
  let asset_0 := asset (fst (wl_destination self)) in
  let asset_1 := asset (snd (wl_destination self)) in
  let pool := tech_account_id_to_account_id (wl_pool_account self) in
  let tokens := wl_pool_tokens self in
  _ ← is_pool_account_valid_for (wl_pool_account self);
  s ← get_state;
  let balance_ks := default 0 (PoolProviders s !! (pool, source)) in
  _ ← check (0 <? balance_ks) AccountBalanceIsInvalid;
  reserves ← get_actual_reserves pool base_asset asset_0 asset_1;
  let '(balance_bp, balance_tp, _) := (reserves : Balance * Balance * Balance) in
  _ ← check (negb ((balance_bp =? 0) && (balance_tp =? 0))) PoolIsEmpty;
  _ ← check (negb ((balance_bp <=? 0) || (balance_tp <=? 0))) PoolIsInvalid;
  total_iss ← ok_or (TotalIssuances s !! pool) (PoolXykError PoolIsInvalid);
  let fxw_total_iss := FixedWrapper256.with_number FixedWrapper256.add (fxw total_iss) MIN_LIQUIDITY in
  tpair ← lift (get_trading_pair base_asset asset_0 asset_1);
  _ ← check (check_if_has_enough_unlocked_liquidity s source (base_asset_id tpair) (target_asset_id tpair) tokens)
        NotEnoughUnlockedLiquidity;
  _ ← check (check_if_has_enough_liquidity_out_of_farming s source (base_asset_id tpair)
               (target_asset_id tpair) tokens) NotEnoughLiquidityOutOfFarming;
  _ ← check (0 <? tokens) ZeroValueInAmountParameter;
  _ ← check (tokens <=? balance_ks) SourceBalanceOfLiquidityTokensIsNotLargeEnough;
  recom ← lift
    (if negb (tokens =? total_iss) then
       recom_x ← to_balance (fxw balance_bp * fxw tokens / fxw_total_iss)%F;
       recom_y ← to_balance (fxw balance_tp * fxw tokens / fxw_total_iss)%F;
       mret (recom_x, recom_y)
     else mret (balance_bp, balance_tp));
  amount_0 ← lift (decide_withdrawn (amount (fst (wl_destination self))) (fst recom)
               InvalidWithdrawLiquidityBasicAssetAmount);
  amount_1 ← lift (decide_withdrawn (amount (snd (wl_destination self))) (snd recom)
               InvalidWithdrawLiquidityTargetAssetAmount);
  _ ← lift (Bounds.unwrap amount_1);
  _ ← lift (Bounds.unwrap amount_0);
  mret (mkWithdraw client receiver_a receiver_b (wl_pool_account self) tokens
          (mkResource asset_0 amount_0, mkResource asset_1 amount_1)).

Definition withdraw_reserve self (source : AccountId) (base_asset : AssetId) : P unit :=
  let asset_0 := asset (fst (wl_destination self)) in
  let asset_1 := asset (snd (wl_destination self)) in
  let pool := tech_account_id_to_account_id (wl_pool_account self) in
  _ ← check (bool_decide (Some source = wl_client_account self)) SourceAndClientAccountDoNotMatchAsEqual;
  receiver_a ← ok_or (wl_receiver_account_a self) Panicked;
  amount_0 ← lift (Bounds.unwrap (amount (fst (wl_destination self))));
  _ ← on_technical (Technical.transfer_out asset_0 (wl_pool_account self) receiver_a amount_0);
  receiver_b ← ok_or (wl_receiver_account_b self) Panicked;
  amount_1 ← lift (Bounds.unwrap (amount (snd (wl_destination self))));
  _ ← on_technical (Technical.transfer_out asset_1 (wl_pool_account self) receiver_b amount_1);
  _ ← burn pool source (wl_pool_tokens self);
  s ← get_state;
  _ ← (if (default 0 (PoolProviders s !! (pool, source)) =? 0) && negb (wl_pool_tokens self =? 0) then
         pair ← lift (get_trading_pair base_asset asset_0 asset_1);
         remove_account_pool source pair
       else mret tt);
  refresh_reserves (wl_pool_account self) base_asset asset_0 asset_1.
End withdraw.

(** ** All actions ([action_poly_swap.rs]) *)

#[global] Instance poly_swap_action : SwapAction PolySwapAction (t L) := {
  is_abstract_checking self :=
    match self with
    | PairSwap a => pair_is_abstract a
    | DepositLiquidity a => deposit_is_abstract a
    | WithdrawLiquidity a => withdraw_is_abstract a
    end;
  prepare_and_validate self source base_asset :=
    match self with
    | PairSwap a => a ← pair_prepare a source base_asset; mret (PairSwap a)
    | DepositLiquidity a => a ← deposit_prepare a source base_asset; mret (DepositLiquidity a)
    | WithdrawLiquidity a => a ← withdraw_prepare a source base_asset; mret (WithdrawLiquidity a)
    end;
  instant_auto_claim_used _ := true;
  triggered_auto_claim_used _ := false;
  is_able_to_claim _ := true;
  reserve self source base_asset :=
    match self with
    | PairSwap a => pair_reserve a source base_asset
    | DepositLiquidity a => deposit_reserve a source base_asset
    | WithdrawLiquidity a => withdraw_reserve a source base_asset
    end;
  claim _ _ := true;
  cancel _ _ := mthrow Panicked
}.

Definition swap_success (who : AccountId) : P unit := deposit_event (SwapSuccess who).
Definition create_swap (source : AccountId) (action : PolySwapAction) (base_asset : AssetId) : P unit :=
  Technical.create_swap swap_success source action base_asset.

(** ** The pallet ([lib.rs]) *)

Definition initialize_pool_properties (dex : DEXId) (asset_a asset_b : AssetId)
    (reserves_account_id fees_account_id : AccountId) : P unit :=
  dex_info ← get_dex_info dex;
  let '(sorted_a, sorted_b) :=
    if bool_decide (dex_base_asset_id dex_info = asset_a) then (asset_a, asset_b)
    else if bool_decide (dex_base_asset_id dex_info = asset_b) then (asset_b, asset_a)
    else if sorted_with_hash_key asset_a asset_b then (asset_a, asset_b) else (asset_b, asset_a) in
  _ ← on_market (TradingPairs.enable_source_for_trading_pair dex sorted_a sorted_b XYKPool);
  modify (λ s, set_properties
    (<[(sorted_a, sorted_b) := (reserves_account_id, fees_account_id)]> (Properties s)) s).

Definition succeeds {A} (c : P A) : P bool := λ s,
  match c s with (Ok _, s') => (Ok true, s') | (Err _, s') => (Ok false, s') end.

Definition initialize_pool_unchecked (dex : DEXId) (asset_a asset_b : AssetId)
    : P (TradingPair * TechAccountId * TechAccountId) :=
  pair_and_account ← tech_account_from_dex_and_asset_pair dex asset_a asset_b;
  let '(trading_pair, tech_acc_id) := (pair_and_account : TradingPair * TechAccountId) in
  fee_acc_id ← ok_or (to_fee_account tech_acc_id) Panicked;
  pool_registered ← succeeds (on_technical (Technical.ensure_tech_account_registered tech_acc_id));
  _ ← (if pool_registered : bool then
         fee_registered ← succeeds (on_technical (Technical.ensure_tech_account_registered fee_acc_id));
         pair_exists ← (if fee_registered : bool then
                          succeeds (on_market (TradingPairs.ensure_trading_pair_exists dex
                            (base_asset_id trading_pair) (target_asset_id trading_pair)))
                        else mret false);
         if fee_registered && pair_exists then fail PoolIsAlreadyInitialized
         else fail PoolInitializationIsInvalid
       else mret tt);
  _ ← on_technical (Technical.register_tech_account_id tech_acc_id);
  _ ← on_technical (Technical.register_tech_account_id fee_acc_id);
  mret (trading_pair, tech_acc_id, fee_acc_id).

Definition deposit_liquidity_unchecked (source : AccountId) (dex : DEXId) (input_asset_a input_asset_b : AssetId)
    (input_a_desired input_b_desired input_a_min input_b_min : Balance) : P unit :=
  dex_info ← get_dex_info dex;
  pair_and_account ← tech_account_from_dex_and_asset_pair dex input_asset_a input_asset_b;
  create_swap source
    (DepositLiquidity (mkDeposit None None (snd pair_and_account)
       (mkResource input_asset_a (Bounds.RangeFromDesiredToMin input_a_desired input_a_min),
        mkResource input_asset_b (Bounds.RangeFromDesiredToMin input_b_desired input_b_min)) 0 None))
    (dex_base_asset_id dex_info).

Definition withdraw_liquidity_unchecked (source : AccountId) (dex : DEXId) (output_asset_a output_asset_b : AssetId)
    (marker_asset_desired output_a_min output_b_min : Balance) : P unit :=
  dex_info ← get_dex_info dex;
  pair_and_account ← tech_account_from_dex_and_asset_pair dex output_asset_a output_asset_b;
  create_swap source
    (WithdrawLiquidity (mkWithdraw None None None (snd pair_and_account) marker_asset_desired
       (mkResource output_asset_a (Bounds.Min output_a_min), mkResource output_asset_b (Bounds.Min output_b_min))))
    (dex_base_asset_id dex_info).

Definition get_pool_trading_pair (pool_account : AccountId) : P TradingPair :=
  tech_acc ← on_technical (Technical.lookup_tech_account_id pool_account);
  match tech_acc with
  | Pure _ (XykLiquidityKeeper trading_pair) => mret trading_pair
  | _ => fail PoolIsInvalid
  end.

Definition get_base_asset_part_from_pool_account (pool_acc : AccountId) (trading_pair : TradingPair)
    (liq_amount : Balance) : P Balance :=
  reserves ← get_actual_reserves pool_acc (base_asset_id trading_pair) (base_asset_id trading_pair)
               (target_asset_id trading_pair);
  s ← get_state;
  liq_in_pool ← ok_or (TotalIssuances s !! pool_acc) (PoolXykError PoolIsEmpty);
  lift (get_base_asset_part (fst (fst reserves)) liq_in_pool liq_amount).

(** *** [XykPool] *)

Definition total_issuance s (pool_account : AccountId) : result DispatchError Balance :=
  ok_or (TotalIssuances s !! pool_account) (PoolXykError PoolIsInvalid).
Definition properties_of_pool s (base_asset target_asset : AssetId) : option (AccountId * AccountId) :=
  Properties s !! (base_asset, target_asset).
Definition balance_of_pool_provider s (pool_account provider : AccountId) : option Balance :=
  PoolProviders s !! (pool_account, provider).
Definition pool_providers s (pool_account : AccountId) : list (AccountId * Balance) :=
  iter_prefix (PoolProviders s) pool_account.

Definition transfer_lp_tokens (pool_account : AccountId) (asset_a asset_b : AssetId)
    (base_account_id target_account_id : AccountId) (pool_tokens : Balance) : P unit :=
  s ← get_state;
  let from := (pool_account, base_account_id) in
  let to := (pool_account, target_account_id) in
  old_balance ← ok_or (PoolProviders s !! from) (PoolXykError AccountBalanceIsInvalid);
  new_balance ← ok_or (u128_checked_sub old_balance pool_tokens) (PoolXykError AccountBalanceIsInvalid);
  _ ← modify (λ s, set_providers
        (if new_balance =? 0 then delete from (PoolProviders s)
         else <[from := new_balance]> (PoolProviders s)) s);
  s ← get_state;
  _ ← (if (default 0 (PoolProviders s !! to) =? 0) && negb (pool_tokens =? 0) then
         pair ← lift (get_trading_pair asset_a asset_a asset_b);
         insert_account_pool target_account_id pair
       else mret tt);
  modify (λ s, set_providers
    (<[to := u128_wrap (default 0 (PoolProviders s !! to) + pool_tokens)]> (PoolProviders s)) s).

Definition calculate_fxw_issuance_ratio (base_asset target_asset : AssetId) s : option FixedWrapper256.t :=
  '(pool_acc, _) ← properties_of_pool s base_asset target_asset;
  match fst (get_actual_reserves pool_acc base_asset base_asset target_asset s), total_issuance s pool_acc with
  | Ok (b_in_pool, t_in_pool, _), Ok current_issuance =>
      Some (fxw current_issuance / FixedWrapper256.multiply_and_sqrt (fxw b_in_pool) (fxw t_in_pool))%F
  | _, _ => None
  end.

(** *** Adjustment of the issuance ([utils.rs]) *)

Fixpoint adjust_shares (pool_acc : AccountId) (ratio : FixedWrapper256.t)
    (providers : list (AccountId * Balance)) (new_issuance : Balance) : P Balance :=
  match providers with
  | [] => mret new_issuance
  | (account, share) :: providers =>
      real_share ← lift (to_balance (fxw share / ratio)%F);
      _ ← modify (λ s, set_providers (<[(pool_acc, account) := real_share]> (PoolProviders s)) s);
      new_issuance ← ok_or (u128_checked_add new_issuance real_share) (PoolXykError PoolIsInvalid);
      adjust_shares pool_acc ratio providers new_issuance
  end.

Definition adjust_liquidity_in_pool (dex : DEXId) (base_asset target_asset : AssetId) : P unit :=
  pair_and_account ← tech_account_from_dex_and_asset_pair dex base_asset target_asset;
  let pool_acc := tech_account_id_to_account_id (snd pair_and_account) in
  reserves ← get_actual_reserves pool_acc base_asset base_asset target_asset;
  let '(b_in_pool, t_in_pool, _) := (reserves : Balance * Balance * Balance) in
  let fxw_real_issuance := FixedWrapper256.multiply_and_sqrt (fxw b_in_pool) (fxw t_in_pool) in
  s ← get_state;
  current_issuance ← ok_or (TotalIssuances s !! pool_acc) (PoolXykError PoolIsEmpty);
  let ratio := (fxw current_issuance / fxw_real_issuance)%F in
  if FixedWrapper256.lt ratio (FixedWrapper256.try_from GetMaxIssuanceRatio) then mret tt else
  let providers := iter_prefix (PoolProviders s) pool_acc in
  new_issuance ← adjust_shares pool_acc ratio providers 0;
  _ ← modify (λ s, set_issuances (<[pool_acc := new_issuance]> (TotalIssuances s)) s);
  deposit_event (PoolAdjusted pool_acc current_issuance new_issuance (Z.of_nat (length providers))).

Definition fix_pool_parameters (dex : DEXId) (pool_account : AccountId) (asset_a asset_b : AssetId) : P unit :=
  reserves ← get_actual_reserves pool_account asset_a asset_a asset_b;
  _ ← update_reserves asset_a asset_a asset_b (fst reserves);
  adjust_liquidity_in_pool dex asset_a asset_b.

(** *** Denomination *)

(** A pool without enough of the asset gets the minimum. *)
Definition top_up (asset : AssetId) (pool_account : AccountId) : P unit :=
  s ← get_state;
  b ← lift (Pallet.total_balance (ledger s) asset pool_account);
  if b <? MIN_XOR then on_ledger (Assets.mint_unchecked asset pool_account MIN_XOR) else mret tt.

Definition denominate_pool (dex : DEXId) (base_asset target_asset denominated : AssetId) (pool_account : AccountId)
    : P unit :=
  _ ← top_up denominated pool_account;
  fix_pool_parameters dex pool_account base_asset target_asset.

Definition denominate_xor : P unit :=
  s ← get_state;
  for_each (DexManager.list_dex_ids (market s)) (λ dex,
    dex_info ← get_dex_info dex;
    let base_asset := dex_base_asset_id dex_info in
    s ← get_state;
    if bool_decide (base_asset = XOR) then
      for_each (iter_prefix (Properties s) base_asset) (λ '(target_asset, (pool_account, _)),
        denominate_pool dex base_asset target_asset XOR pool_account)
    else match Properties s !! (base_asset, XOR) with
         | Some (pool_account, _) => denominate_pool dex base_asset XOR XOR pool_account
         | None => mret tt
         end).

Definition denominate_tbcd : P unit :=
  s ← get_state;
  for_each (DexManager.list_dex_ids (market s)) (λ dex,
    dex_info ← get_dex_info dex;
    let base_asset := dex_base_asset_id dex_info in
    s ← get_state;
    match Properties s !! (base_asset, TBCD) with
    | Some (pool_account, _) => denominate_pool dex base_asset TBCD TBCD pool_account
    | None => mret tt
    end).

(** [Hooks::on_initialize]: failures are logged only, and keep what was written. *)
Definition ignore_error {A} (c : P A) : P unit := λ s, (Ok tt, snd (c s)).

Definition on_initialize (block : BlockNumber) : P unit :=
  if negb (block mod PoolAdjustPeriod =? 0) then mret tt else
  s ← get_state;
  for_each (DexManager.list_dex_ids (market s)) (λ dex,
    s ← get_state;
    match DEXInfos (market s) !! dex with
    | None => mret tt
    | Some dex_info =>
        match GetChameleonPools (dex_base_asset_id dex_info) with
        | None => mret tt
        | Some (_, targets) =>
            for_each targets (λ target,
              ignore_error (adjust_liquidity_in_pool dex (dex_base_asset_id dex_info) target))
        end
    end).

(** ** The liquidity source ([lib.rs]) *)

Definition can_exchange (dex : DEXId) (input_asset_id output_asset_id : AssetId) s : bool :=
  match DEXInfos (market s) !! dex with
  | None => false
  | Some dex_info =>
      match get_trading_pair (dex_base_asset_id dex_info) input_asset_id output_asset_id with
      | Ok tpair => bool_decide (is_Some (Properties s !! (base_asset_id tpair, target_asset_id tpair)))
      | Err _ => false
      end
  end.

(** The pool of a pair, its reserves and the side of the fee, as all quotes read
    them. *)
Definition pool_of (dex : DEXId) (input_asset_id output_asset_id : AssetId)
    : P (DEXInfo * (Balance * Balance * Balance)) :=
  dex_info ← get_dex_info dex;
  pair_and_account ← tech_account_from_dex_and_asset_pair dex input_asset_id output_asset_id;
  reserves ← get_actual_reserves (tech_account_id_to_account_id (snd pair_and_account))
               (dex_base_asset_id dex_info) input_asset_id output_asset_id;
  mret (dex_info, reserves).

Definition check_reserves (reserve_input reserve_output : Balance) : P unit :=
  _ ← check (negb ((reserve_input =? 0) && (reserve_output =? 0))) PoolIsEmpty;
  check (negb ((reserve_input <=? 0) || (reserve_output <=? 0))) PoolIsInvalid.

Definition quote (dex : DEXId) (input_asset_id output_asset_id : AssetId) (amount : QuoteAmount)
    (deduce_fee : bool) : P SwapOutcome :=
  pool ← pool_of dex input_asset_id output_asset_id;
  let '(dex_info, (reserve_input, reserve_output, max_output_available)) :=
    (pool : DEXInfo * (Balance * Balance * Balance)) in
  _ ← check_reserves reserve_input reserve_output;
  dest ← lift (decide_is_fee_from_destination (dex_base_asset_id dex_info) input_asset_id output_asset_id);
  calculated ←
    (match amount with
     | WithDesiredInput desired_amount_in =>
         calculated ← lift (calc_output_for_exact_input GetFee dest reserve_input reserve_output
                              desired_amount_in deduce_fee);
         let required_output :=
           if dest : bool then u128_wrap (fst calculated + snd calculated) else fst calculated in
         _ ← check ((max_output_available =? reserve_output) || (required_output <=? max_output_available))
               NotEnoughOutputReserves;
         mret calculated
     | WithDesiredOutput desired_amount_out =>
         _ ← check ((max_output_available =? reserve_output) || (desired_amount_out <=? max_output_available))
               NotEnoughOutputReserves;
         lift (calc_input_for_exact_output GetFee dest reserve_input reserve_output desired_amount_out
                 deduce_fee)
     end);
  mret (mkOutcome (fst calculated) (OutcomeFee.from_asset (dex_base_asset_id dex_info) (snd calculated))).

(** The volumes of the samples, each with its step. *)
Fixpoint sample_volumes (common_step remaining amount : Balance) (samples : list nat)
    : result DispatchError (list (Balance * Balance)) :=
  match samples with
  | [] => mret [(amount, remaining)]
  | i :: samples =>
      volume ← ok_or (u128_checked_mul common_step (Z.of_nat i)) (PoolXykError FixedWrapperCalculationFailed);
      rest ← sample_volumes common_step (sat_sub remaining common_step) amount samples;
      mret ((volume, common_step) :: rest)
  end.

(** The chunks: the differences of the calculated amounts and fees. *)
Fixpoint sample_chunks (calc : Balance → result DispatchError (Balance * Balance)) (variant : SwapVariant.t)
    (fee_asset : AssetId) (volumes : list (Balance * Balance)) (sub_sum sub_fee : Balance)
    : result DispatchError (list SwapChunk) :=
  match volumes with
  | [] => mret []
  | (volume, step) :: volumes =>
      calculated ← calc volume;
      let '(sum, fee) := (calculated : Balance * Balance) in
      let part := sat_sub sum sub_sum in
      let fee_chunk := OutcomeFee.from_asset fee_asset (sat_sub fee sub_fee) in
      rest ← sample_chunks calc variant fee_asset volumes sum fee;
      mret (match variant with
            | SwapVariant.WithDesiredInput => mkChunk step part fee_chunk
            | SwapVariant.WithDesiredOutput => mkChunk part step fee_chunk
            end :: rest)
  end.

(** The amount that is sampled and the limit of the quotation. *)
Definition sampled_amount (amount : QuoteAmount) (dest deduce_fee : bool)
    (reserve_input reserve_output max_output_available : Balance)
    : result DispatchError (Balance * option SideAmount) :=
  match amount with
  | WithDesiredInput desired_amount_in =>
      if max_output_available =? reserve_output then mret (desired_amount_in, None) else
      match calc_input_for_exact_output GetFee dest reserve_input reserve_output max_output_available
              deduce_fee with
      | Ok (calculated, _) => mret (Z.min desired_amount_in calculated, Some (Input calculated))
      | Err _ => mret (desired_amount_in, None)
      end
  | WithDesiredOutput desired_amount_out =>
      max_output ← calc_max_output GetFee dest reserve_output deduce_fee;
      mret (Z.min (Z.min max_output desired_amount_out) max_output_available,
            Some (Output (Z.min max_output max_output_available)))
  end.

Definition step_quote (dex : DEXId) (input_asset_id output_asset_id : AssetId) (amount : QuoteAmount)
    (recommended_samples_count : Z) (deduce_fee : bool) : P DiscreteQuotation :=
  if quote_amount amount =? 0 then mret empty_quotation else
  let samples_count := if recommended_samples_count <? 1 then 1 else recommended_samples_count in
  pool ← pool_of dex input_asset_id output_asset_id;
  let '(dex_info, (reserve_input, reserve_output, max_output_available)) :=
    (pool : DEXInfo * (Balance * Balance * Balance)) in
  if (reserve_input =? 0) && (reserve_output =? 0) then mret empty_quotation else
  dest ← lift (decide_is_fee_from_destination (dex_base_asset_id dex_info) input_asset_id output_asset_id);
  sampled ← lift (sampled_amount amount dest deduce_fee reserve_input reserve_output max_output_available);
  let '(sampled, max) := (sampled : Balance * option SideAmount) in
  common_step ← ok_or (u128_checked_div sampled samples_count) (PoolXykError FixedWrapperCalculationFailed);
  volumes ← lift (sample_volumes common_step sampled sampled (seq 1 (Z.to_nat (samples_count - 1))));
  let calc volume :=
    match quote_variant amount with
    | SwapVariant.WithDesiredInput =>
        calc_output_for_exact_input GetFee dest reserve_input reserve_output volume deduce_fee
    | SwapVariant.WithDesiredOutput =>
        calc_input_for_exact_output GetFee dest reserve_input reserve_output volume deduce_fee
    end in
  chunks ← lift (sample_chunks calc (quote_variant amount) (dex_base_asset_id dex_info) volumes 0 0);
  mret (mkQuotation chunks (mkLimits None max None)).

Definition regulated (sender receiver : AccountId) (asset : AssetId) : P unit :=
  s ← get_state;
  match check_permission (ledger s) sender receiver asset with
  | Ok _ => mret tt
  | Err _ => fail AssetRegulationsCheckFailed
  end.

Definition exchange (sender receiver : AccountId) (dex : DEXId) (input_asset_id output_asset_id : AssetId)
    (swap_amount : SwapAmount) : P SwapOutcome :=
  _ ← regulated sender receiver input_asset_id;
  _ ← regulated sender receiver output_asset_id;
  dex_info ← get_dex_info dex;
  pair_and_account ← tech_account_from_dex_and_asset_pair dex input_asset_id output_asset_id;
  let bounds := get_bounds_from_swap_amount swap_amount in
  action ← pair_prepare
    (mkPairSwap None (Some receiver) (snd pair_and_account) (mkResource input_asset_id (fst bounds))
       (mkResource output_asset_id (snd bounds)) OutcomeFee.new None None None None dex)
    (Some sender) (dex_base_asset_id dex_info);
  amount ← lift (Bounds.unwrap (match swap_amount with
                                | SwapWithDesiredInput _ _ => amount (ps_destination action)
                                | SwapWithDesiredOutput _ _ => amount (ps_source action)
                                end));
  _ ← Technical.create_swap_unchecked swap_success sender (PairSwap action) (dex_base_asset_id dex_info);
  mret (mkOutcome amount (ps_fee action)).

Definition to_price (a : FixedWrapper256.t) : result DispatchError Balance :=
  match FixedWrapper256.try_into_balance a with
  | Ok x => Ok x
  | Err _ => Err (PoolXykError FailedToCalculatePriceWithoutImpact)
  end.

Definition quote_without_impact (dex : DEXId) (input_asset_id output_asset_id : AssetId) (amount : QuoteAmount)
    (deduce_fee : bool) : P SwapOutcome :=
  pool ← pool_of dex input_asset_id output_asset_id;
  let '(dex_info, (reserve_input, reserve_output, _)) := (pool : DEXInfo * (Balance * Balance * Balance)) in
  _ ← check_reserves reserve_input reserve_output;
  dest ← lift (decide_is_fee_from_destination (dex_base_asset_id dex_info) input_asset_id output_asset_id);
  let price := FixedWrapper256.with_number FixedWrapper256.div (fxw reserve_output) reserve_input in
  let fee_fraction := if deduce_fee then GetFee else 0 in
  let '(calculated, fee_amount) :=
    match amount with
    | WithDesiredInput desired_amount_in =>
        if dest : bool then
          let out_with_fee := (fxw desired_amount_in * price)%F in
          let output := (out_with_fee * without_fee fee_fraction)%F in
          (output, out_with_fee - output)%F
        else
          let input_without_fee := (fxw desired_amount_in * without_fee fee_fraction)%F in
          (input_without_fee * price, fxw desired_amount_in - input_without_fee)%F
    | WithDesiredOutput desired_amount_out =>
        if dest : bool then
          let output_with_fee := (fxw desired_amount_out / without_fee fee_fraction)%F in
          (output_with_fee / price, output_with_fee - fxw desired_amount_out)%F
        else
          let input_without_fee := (fxw desired_amount_out / price)%F in
          let input := (input_without_fee / without_fee fee_fraction)%F in
          (input, input - input_without_fee)%F
    end in
  calculated ← lift (to_price calculated);
  fee_amount ← lift (to_price fee_amount);
  mret (mkOutcome calculated (OutcomeFee.from_asset (dex_base_asset_id dex_info) fee_amount)).

Definition check_rewards : P (list (Balance * AssetId)) := mret [].

(** [GetPoolReserves::reserves]. *)
Definition reserves s (base_asset other_asset : AssetId) : Balance * Balance :=
  default (0, 0) (Reserves s !! (base_asset, other_asset)).

(** ** Extrinsics *)

Definition ensure_signed (origin : RawOrigin) : P AccountId :=
  match origin with Signed who => mret who | _ => mthrow BadOrigin end.

Definition deposit_liquidity (origin : RawOrigin) (dex : DEXId) (input_asset_a input_asset_b : AssetId)
    (input_a_desired input_b_desired input_a_min input_b_min : Balance) : P unit :=
  source ← ensure_signed origin;
  _ ← check (negb (is_non_divisible input_asset_a) && negb (is_non_divisible input_asset_b))
        UnableToOperateWithIndivisibleAssets;
  _ ← check ((0 <? input_a_desired) && (0 <? input_a_min)) InvalidDepositLiquidityBasicAssetAmount;
  _ ← check ((0 <? input_b_desired) && (0 <? input_b_min)) InvalidDepositLiquidityTargetAssetAmount;
  _ ← check ((input_a_min <=? input_a_desired) && (input_b_min <=? input_b_desired))
        InvalidMinimumBoundValueOfBalance;
  _ ← regulated source source input_asset_a;
  _ ← regulated source source input_asset_b;
  deposit_liquidity_unchecked source dex input_asset_a input_asset_b input_a_desired input_b_desired
    input_a_min input_b_min.

Definition withdraw_liquidity (origin : RawOrigin) (dex : DEXId) (output_asset_a output_asset_b : AssetId)
    (marker_asset_desired output_a_min output_b_min : Balance) : P unit :=
  source ← ensure_signed origin;
  _ ← check (negb (is_non_divisible output_asset_a) && negb (is_non_divisible output_asset_b))
        UnableToOperateWithIndivisibleAssets;
  _ ← check (0 <? output_a_min) InvalidWithdrawLiquidityBasicAssetAmount;
  _ ← check (0 <? output_b_min) InvalidWithdrawLiquidityTargetAssetAmount;
  _ ← regulated source source output_asset_a;
  _ ← regulated source source output_asset_b;
  withdraw_liquidity_unchecked source dex output_asset_a output_asset_b marker_asset_desired
    output_a_min output_b_min.

(** [DEXId::PolkaswapPresto]. *)
Definition PolkaswapPresto : DEXId := 4.

Definition initialize_pool {R} `{Permissions.References R} (dex_hash : DEXId → N) (p : Permissions.t R)
    (origin : RawOrigin) (dex : DEXId) (asset_a asset_b : AssetId) : P unit :=
  with_transaction (
    _ ← ensure_signed origin;
    _ ← on_market (DexManager.ensure_can_manage dex_hash p dex origin Public);
    _ ← check (negb (is_non_divisible asset_a) && negb (is_non_divisible asset_b))
          UnableToCreatePoolWithIndivisibleAssets;
    _ ← check (negb (dex =? PolkaswapPresto)) DexIsForbidden;
    created ← initialize_pool_unchecked dex asset_a asset_b;
    let '(trading_pair, tech_account_id, fees_account_id) :=
      (created : TradingPair * TechAccountId * TechAccountId) in
    _ ← ensure_trading_pair_is_not_restricted trading_pair;
    let ta_repr := tech_account_id_to_account_id tech_account_id in
    let fees_ta_repr := tech_account_id_to_account_id fees_account_id in
    _ ← initialize_pool_properties dex asset_a asset_b ta_repr fees_ta_repr;
    pair_and_account ← tech_account_from_dex_and_asset_pair dex asset_a asset_b;
    let pool_account := tech_account_id_to_account_id (snd pair_and_account) in
    _ ← on_ledger (on_pool_created fees_ta_repr dex pool_account);
    deposit_event (PoolIsInitialized ta_repr)).

End pallet.
End PoolXyk.
