(* ===== verification/PoolSwaps.v ===== *)
(** * Swaps through a pool ([pallets/pool-xyk/src/action_pair_swap.rs])

    What a swap that succeeds does to all balances, for pools without a chameleon
    asset: the product of the reserves does not fall, and the quote of the same
    state is honoured. *)

From S2P Require Import Prelude BTreeMap FixedPoint Helpers256 FixedU256 Units OrderTypes SwapTypes PoolMath DataLayer.
From S2P Require Import World Permissions TradingPair OrderBook WorldRefine Scheduler Pallet Technical PoolXyk.
Import PoolXyk.

(** What the parameters promise. *)
Class PoolLaws (L : Type) `{MultiCurrency L} {PR : Providers L} {RF : Permissions.References L}
    {HK : PoolHooks L} : Prop := {
  transfer_range asset from to amount (l l' : L) :
    currency_transfer asset from to amount l = (Ok tt, l') →
    (∀ a x, is_u128 (free_balance l a x)) → ∀ a x, is_u128 (free_balance l' a x);
  providers_balance who (l : L) a x : free_balance (inc_providers who l) a x = free_balance l a x;
  consumers_balance who (l l' : L) a x :
    Permissions.inc_consumers who l = Some l' → free_balance l' a x = free_balance l a x;
  released_balance who (l : L) a x : free_balance (Permissions.dec_consumers who l) a x = free_balance l a x;
  notified_balance asset (l : L) a x : free_balance (reserves_changed asset l) a x = free_balance l a x
}.

(** The configuration of the runtime: the fee is a fraction, and only an issuance
    that is too large is adjusted. *)
Class PoolConfigOk {PC : PoolConfig} : Prop := {
  fee_range : 0 ≤ GetFee ≤ FixedU256.DIV;
  ratio_range : FixedU256.DIV ≤ GetMaxIssuanceRatio
}.

Section props.
Context {PC : PoolConfig} {PP : PoolParams} {SK : StorageKeys} {TH : TechHash}.
Context {L : Type} `{MultiCurrency L} {IS : Issuance L} {AI : AssetInfo L} {PR : Providers L}.
Context {RF : Permissions.References L} {HK : PoolHooks L}.
Context `{!MultiCurrencyLaws L} `{!PoolLaws L}.
Context {CO : PoolConfigOk}.
(** Different technical accounts have different addresses. *)
Context `{!Inj (=) (=) tech_account_id_to_account_id}.
Implicit Types (s : t L).

Definition balance s (asset : AssetId) (who : AccountId) : Balance := free_balance (ledger s) asset who.

(** Balances are [u128]. *)
Definition balances_ok s : Prop := ∀ a x, is_u128 (balance s a x).

Lemma assets_balance_ok l a x b : Assets.free_balance l a x = Ok b → b = free_balance l a x.
Proof. unfold Assets.free_balance. intros Hr. run. done. Qed.

Lemma pair_info_plain base a b info : GetChameleonPools base = None → get_pair_info base a b = Ok info →
  a ≠ b ∧ ((base = a ∧ info = (mkPair base b, None, false)) ∨ (base = b ∧ info = (mkPair base a, None, false))).
Proof.
  intros Hc Hr. unfold get_pair_info in Hr. rewrite Hc in Hr.
  apply result_bind_ok in Hr as ([] & Hn & Hr). apply result_ensure_ok in Hn. 
  apply negb_true_iff, bool_decide_eq_false in Hn. split; [done|].
  apply result_bind_ok in Hr as (ta & Ht & [= <-]).
  repeat case_bool_decide; simplify_eq; try (injection Ht as <-; auto); discriminate Ht.
Qed.

Lemma reserves_plain pool base a b s r s' : GetChameleonPools base = None →
  get_actual_reserves pool base a b s = (Ok r, s') →
  s' = s ∧ a ≠ b ∧ (base = a ∨ base = b) ∧ r = (balance s a pool, balance s b pool, balance s b pool).
Proof.
  intros Hc Hr. unfold get_actual_reserves in Hr. run.
  match goal with H : get_pair_info _ _ _ = Ok _ |- _ => apply pair_info_plain in H as (Hn & Hb); [|done] end.
  assert (Hp : ∃ ta, x = (mkPair base ta, None, false) ∧ ((base = a ∧ ta = b) ∨ (base = b ∧ ta = a))) by naive_solver.
  destruct Hp as (ta & -> & Ht). cbn in *. run.
  repeat match goal with H : Assets.free_balance _ _ _ = Ok _ |- _ => apply assets_balance_ok in H; subst end.
  unfold u128_checked_add in *. rewrite Z.add_0_r in *.
  match goal with H : checked _ _ = Some _ |- _ => apply checked_Some in H as [-> _] end.
  unfold balance. destruct Ht as [[-> ->]|[-> ->]].
  - rewrite (bool_decide_eq_false_2 (b = a)) in * by done. rewrite bool_decide_eq_true_2 in * by done. run. auto.
  - rewrite (bool_decide_eq_true_2 (a = a)) in * by done. rewrite (bool_decide_eq_false_2 (b = a)) in * by done.
    rewrite bool_decide_eq_true_2 in * by done. run. auto.
Qed.

(** ** Transfers *)

(** A run that only moves an amount of an asset between two accounts. *)
Record transferred (asset : AssetId) (from to : AccountId) (amount : Z) s s' : Prop := {
  transferred_funds : amount ≤ balance s asset from;
  transferred_books : ∃ l, s' = set_ledger l s;
  transferred_balances a x :
    balance s' a x = balance s a x - moved asset from amount a x + moved asset to amount a x;
  transferred_range : balances_ok s → balances_ok s'
}.

Lemma on_technical_transfer asset from to amount s s' :
  on_technical (Technical.on_ledger (transfer_from asset from to amount)) s = (Ok tt, s') →
  transferred asset from to amount s s'.
Proof.
  intros Hr. unfold on_technical, Technical.on_ledger, transfer_from in Hr. run.
  match goal with H : checked_transfer _ _ _ _ _ = _ |- _ => rename H into Ht end.
  unfold checked_transfer in Ht. destruct (currency_transfer _ _ _ _ _) as [[[]|e] l'] eqn:Hc; [|by destruct (asset_exists _ _)].
  injection Ht as <-. destruct (transfer_spec _ _ _ _ _ _ Hc) as [Hf Hb]. split; [done|by exists l'|done|].
  intros Hok a y. apply (transfer_range _ _ _ _ _ _ Hc). done.
Qed.

Lemma transfer_in_ok asset source dest amount s s' :
  on_technical (Technical.transfer_in asset source dest amount) s = (Ok tt, s') →
  transferred asset source (tech_account_id_to_account_id dest) amount s s'.
Proof.
  intros Hr. apply on_technical_transfer. revert Hr. unfold on_technical, zoom, Technical.transfer_in, mbind, M_bind.
  unfold Technical.ensure_account_registered, map_err, Technical.lookup_tech_account_id, mbind, M_bind, get_state.
  destruct (_ !! _); cbn; done.
Qed.

Lemma transfer_out_ok asset source dest amount s s' :
  on_technical (Technical.transfer_out asset source dest amount) s = (Ok tt, s') →
  transferred asset (tech_account_id_to_account_id source) dest amount s s'.
Proof.
  intros Hr. apply on_technical_transfer. revert Hr. unfold on_technical, zoom, Technical.transfer_out, mbind, M_bind.
  unfold Technical.ensure_account_registered, map_err, Technical.lookup_tech_account_id, mbind, M_bind, get_state.
  destruct (_ !! _); cbn; done.
Qed.

(** The cached reserves are those of the pool account. *)
Lemma refresh_plain pool base a b s s' : GetChameleonPools base = None →
  refresh_reserves pool base a b s = (Ok tt, s') →
  let target := if bool_decide (base = a) then b else a in
  let account := tech_account_id_to_account_id pool in
  (∀ c x, balance s' c x = balance s c x) ∧
  Reserves s' = <[(base, target) := (balance s base account, balance s target account)]> (Reserves s) ∧
  ∃ l, s' = set_ledger l (set_reserves (Reserves s') s).
Proof.
  intros Hc Hr. unfold refresh_reserves in Hr. run.
  match goal with H : get_actual_reserves _ _ _ _ _ = _ |- _ => apply reserves_plain in H as (-> & Hn & Hb & ->); [|done] end.
  cbn [fst] in *. unfold update_reserves in *.
  destruct (get_trading_pair base a b) as [tp|e] eqn:Ht.
  2: { exfalso. unfold get_trading_pair, get_pair_info in Ht. rewrite Hc in Ht.
       rewrite (bool_decide_eq_false_2 (a = b)) in Ht by done. cbn in Ht.
       destruct Hb as [->|<-]; repeat case_bool_decide; cbn in Ht; simplify_eq. }
  unfold get_trading_pair in Ht. apply result_bind_ok in Ht as (info & Hi & [= <-]).
  apply pair_info_plain in Hi as (_ & Hi); [|done]. unfold insert_reserves, notify_reserves in *.
  destruct Hi as [[-> ->]|[-> ->]]; cbn [fst base_asset_id target_asset_id] in *.
  - rewrite (bool_decide_eq_false_2 (a = b)) in * by done. rewrite !bool_decide_eq_true_2 in * by done. run.
    split; [|split]; [intros; cbn; apply notified_balance|done|by eexists].
  - rewrite (bool_decide_eq_false_2 (b = a)) in * by done. rewrite !bool_decide_eq_true_2 in * by done. run.
    split; [|split]; [intros; cbn; apply notified_balance|done|by eexists].
Qed.

(** ** Swaps *)

(** The terms of a swap against reserves [x] and [y]. *)
Definition swap_terms (amt : SwapAmount) (dest : bool) (x y inp out fee : Z) : Prop :=
  match amt with
  | SwapWithDesiredInput i least =>
      0 < i ∧ inp = i ∧ calc_output_for_exact_input GetFee dest x y i true = Ok (out, fee) ∧ least ≤ out
  | SwapWithDesiredOutput d most =>
      0 < d ∧ out = d ∧ calc_input_for_exact_output GetFee dest x y d true = Ok (inp, fee) ∧ inp ≤ most
  end.

Definition swap_action (receiver : AccountId) (pool : TechAccountId) (dex : DEXId) (a b : AssetId)
    (amt : SwapAmount) : PairSwapAction :=
  let bounds := get_bounds_from_swap_amount amt in
  mkPairSwap None (Some receiver) pool (mkResource a (fst bounds)) (mkResource b (snd bounds))
    OutcomeFee.new None None None None dex.

(** What [pair_prepare] makes of it. *)
Record prepared (act : PairSwapAction) (sender receiver : AccountId) (pool fee_account : TechAccountId)
    (dex : DEXId) (base a b : AssetId) (inp out fee : Z) : Prop := {
  prepared_client : ps_client_account act = Some sender;
  prepared_receiver : ps_receiver_account act = Some receiver;
  prepared_pool : ps_pool_account act = pool;
  prepared_source : asset (ps_source act) = a ∧ Bounds.unwrap (amount (ps_source act)) = Ok inp;
  prepared_destination : asset (ps_destination act) = b ∧ Bounds.unwrap (amount (ps_destination act)) = Ok out;
  prepared_fee : ps_fee act = OutcomeFee.add_by_asset OutcomeFee.new base fee;
  prepared_fee_account : ps_fee_account act = Some fee_account ∧ to_fee_account pool = Some fee_account;
  prepared_side : ps_get_fee_from_destination act = Some (bool_decide (base = b));
  prepared_chameleon : ps_is_chameleon_pool act = Some false;
  prepared_dex : ps_dex_id act = dex
}.

Lemma get_dex_info_ok dex s info s' : get_dex_info dex s = (Ok info, s') →
  DEXInfos (market s) !! dex = Some info ∧ s' = s.
Proof.
  unfold get_dex_info, DexManager.get_dex_info, on_market, zoom, mbind, M_bind, get_state, ok_or.
  destruct (_ !! _); cbn; [|done]. intros [= <- <-]. by destruct s.
Qed.

Lemma valid_pool_ok pool s s' : is_pool_account_valid_for pool s = (Ok tt, s') →
  s' = s ∧ is_Some (Technical.TechAccounts (technical s) !! tech_account_id_to_account_id pool).
Proof.
  unfold is_pool_account_valid_for, on_technical, zoom, Technical.ensure_tech_account_registered,
    Technical.ensure_account_registered, map_err, Technical.lookup_tech_account_id, mbind, M_bind, get_state, ok_or.
  destruct (_ !! _) eqn:E; cbn; [|done]. intros [= <-]. split; [by destruct s|by eexists].
Qed.

Lemma decide_amounts_ok amt dest x y self self' fee :
  amount (ps_source self) = fst (get_bounds_from_swap_amount amt) →
  amount (ps_destination self) = snd (get_bounds_from_swap_amount amt) →
  decide_amounts self dest x y = Ok (self', fee) →
  ∃ inp out ba bb, swap_terms amt dest x y inp out fee ∧ self' = set_amounts self ba bb ∧
    Bounds.unwrap ba = Ok inp ∧ Bounds.unwrap bb = Ok out.
Proof.
  intros Ea Eb Hr. unfold decide_amounts in Hr. rewrite Ea, Eb in Hr.
  destruct amt as [i m|d m]; cbn [get_bounds_from_swap_amount fst snd] in Hr; run; zbool.
  - match goal with H : calc_output_for_exact_input _ _ _ _ _ _ = Ok ?c |- _ => destruct c as [out f] end.
    exists i, out. eexists _, _. by repeat split.
  - match goal with H : calc_input_for_exact_output _ _ _ _ _ _ = Ok ?c |- _ => destruct c as [inp f] end.
    exists inp, d. eexists _, _. by repeat split.
Qed.

Lemma fee_side_plain base a b params : GetChameleonPools base = None →
  get_additional_swap_params base a b = Ok params →
  is_fee_from_destination params = bool_decide (base = b) ∧ is_chameleon_pool params = false.
Proof.
  intros Hc Hr. unfold get_additional_swap_params in Hr.
  apply result_bind_ok in Hr as (info & Hi & Hr). apply pair_info_plain in Hi as (Hn & Hi); [|done].
  unfold fee_from_destination in Hr.
  destruct Hi as [[-> ->]|[-> ->]]; cbn [target_asset_id] in Hr.
  - rewrite (bool_decide_eq_false_2 (b = a)), (bool_decide_eq_true_2 (b = b)) in Hr by done.
    injection Hr as <-. cbn. by rewrite bool_decide_eq_false_2.
  - rewrite (bool_decide_eq_true_2 (a = a)) in Hr by done.
    injection Hr as <-. cbn. by rewrite bool_decide_eq_true_2.
Qed.

Lemma pair_prepare_swap sender receiver pool dex base a b amt s info act s' : GetChameleonPools base = None →
  DEXInfos (market s) !! dex = Some info → dex_base_asset_id info = base →
  pair_prepare (swap_action receiver pool dex a b amt) (Some sender) base s = (Ok act, s') →
  let x := balance s a (tech_account_id_to_account_id pool) in
  let y := balance s b (tech_account_id_to_account_id pool) in
  s' = s ∧ a ≠ b ∧ (base = a ∨ base = b) ∧ 0 < x ∧ 0 < y ∧
  ∃ inp out fee fee_account, swap_terms amt (bool_decide (base = b)) x y inp out fee ∧
    inp ≤ balance s a sender ∧ out ≤ y ∧
    prepared act sender receiver pool fee_account dex base a b inp out fee.
Proof.
  intros Hc Hd Hbase Hr. unfold pair_prepare in Hr.
  replace (pair_is_abstract (swap_action receiver pool dex a b amt)) with false in Hr by by destruct amt.
  cbn [swap_action ps_client_account ps_receiver_account decide_client or_client] in Hr. run.
  match goal with H : is_pool_account_valid_for _ _ = _ |- _ => apply valid_pool_ok in H as [-> _] end.
  match goal with H : get_actual_reserves _ _ _ _ _ = _ |- _ => apply reserves_plain in H as (-> & Hn & Hb & ->); [|done] end.
  match goal with H : Assets.free_balance _ _ _ = Ok _ |- _ => apply assets_balance_ok in H as -> end.
  unfold check in *. cbn [set_accounts swap_action set_params asset ps_source ps_destination ps_pool_account
    ps_is_chameleon_pool ps_get_fee_from_destination default negb fst snd] in *. run.
  match goal with H : get_additional_swap_params _ _ _ = _ |- _ => apply fee_side_plain in H as [Hside Hch]; [|done] end.
  match goal with H : decide_amounts _ _ _ _ = Ok ?d |- _ => destruct d as [self fee]; rename H into Hdec end.
  apply (decide_amounts_ok amt) in Hdec as (inp & out & ba & bb & Hterms & -> & Ha & Hb'); [|done..].
  rewrite Hside in Hterms. run.
  match goal with H : decide_fee_account _ = _ |- _ => unfold decide_fee_account in H; cbn in H end. run.
  match goal with H : get_dex_info _ _ = _ |- _ => apply get_dex_info_ok in H as [Hi ->]; cbn in Hi end.
  match goal with H : decide_fee _ _ _ = Ok _ |- _ => cbn in H; injection H as <- end.
  cbn in *. rewrite Ha, Hb' in *. simplify_eq. zbool. rewrite Hside, Hch in *. unfold balance in *.
  split_and!; try done. eexists _, _, fee, _. split_and!; [exact Hterms|done|done|]. split; cbn; try done. split; [done|].
  match goal with H : get_fee_account _ = _ |- _ => by apply result_ok_or_ok in H end.
Qed.

(** What a swap changes: the sender pays the input, the receiver gets the output,
    the fee account gets the fee and the pool the rest. *)
Definition swap_delta (dest : bool) (sender receiver pool fee_account : AccountId) (a b : AssetId)
    (inp out fee : Z) (c : AssetId) (z : AccountId) : Z :=
  moved a pool (pool_in dest inp fee) c z - moved b pool (pool_out dest out fee) c z
  - moved a sender inp c z + moved b receiver out c z
  + moved (if dest then b else a) fee_account fee c z.

Lemma added_fee base fee : OutcomeFee.get_by_asset (OutcomeFee.add_by_asset OutcomeFee.new base fee) base = fee.
Proof.
  unfold OutcomeFee.get_by_asset, OutcomeFee.add_by_asset, OutcomeFee.new, bt_modify_or_insert. cbn.
  change (N_ord base base) with (cmp base base). by rewrite cmp_refl.
Qed.

Lemma pair_reserve_swap act sender receiver pool fee_account dex base a b inp out fee s info s' :
  GetChameleonPools base = None → DEXInfos (market s) !! dex = Some info → dex_base_asset_id info = base →
  prepared act sender receiver pool fee_account dex base a b inp out fee →
  (base = b ∨ is_u128 (inp - fee)) →
  pair_reserve act sender base s = (Ok tt, s') →
  let p := tech_account_id_to_account_id pool in
  let target := if bool_decide (base = a) then b else a in
  (∀ c z, balance s' c z = balance s c z
     + swap_delta (bool_decide (base = b)) sender receiver p (tech_account_id_to_account_id fee_account) a b
         inp out fee c z) ∧
  Reserves s' = <[(base, target) := (balance s' base p, balance s' target p)]> (Reserves s) ∧
  (∃ l, s' = set_ledger l (set_reserves (Reserves s') s)) ∧ (balances_ok s → balances_ok s').
Proof.
  intros Hc Hd Hbase [Hcl Hrc Hpl [Ha Hi] [Hb Ho] Hf [Hfa _] Hside Hch Hdex] Hsub Hr.
  unfold pair_reserve in Hr. rewrite with_transaction_ok in Hr. rewrite Hcl, Hrc, Hpl, Ha, Hi, Hb, Ho, Hf, Hfa, Hside, Hch, Hdex in Hr.
  unfold check in Hr. run.
  match goal with H : get_dex_info _ _ = _ |- _ => apply get_dex_info_ok in H as [Hd' ->] end.
  rewrite Hd in Hd'. injection Hd' as <-. rewrite added_fee in *.
  set (pool := ps_pool_account act) in *. set (a := asset (ps_source act)) in *. set (b := asset (ps_destination act)) in *.
  set (p := tech_account_id_to_account_id pool). set (base := dex_base_asset_id info) in *.
  match goal with H : on_technical (Technical.transfer_out b pool ?r ?o) ?m = (Ok _, ?m') |- _ =>
    rename m into mid, m' into late, r into receiver, o into out; apply transfer_out_ok in H as [_ [l2 Hl2] Hb2 Hr2] end.
  match goal with H : refresh_reserves _ _ _ _ _ = _ |- _ => apply refresh_plain in H as (Hb3 & Hres & l3 & Hl3); [|done] end.
  match goal with H : ps_fee_account act = Some ?x |- _ => set (f := tech_account_id_to_account_id x) in * end.
  assert (Hmid : (∃ l, mid = set_ledger l s) ∧ (balances_ok s → balances_ok mid) ∧ ∀ c z,
    balance mid c z = balance s c z + moved a p (pool_in (bool_decide (base = b)) inp fee) c z - moved a sender inp c z
      + (moved (if bool_decide (base = b) then b else a) f fee c z
         - if bool_decide (base = b) then moved b p fee c z else 0)).
  { clear Hres Hb3 Hl3 Hb2 Hr2. destruct (bool_decide (base = b)) eqn:Hdest; run.
    - repeat match goal with H : on_technical (Technical.transfer_in _ _ _ _) _ = _ |- _ => apply transfer_in_ok in H as [_ [? ->] Hb0 Hr0]
      | H : on_technical (Technical.transfer_out _ _ _ _) _ = _ |- _ => apply transfer_out_ok in H as [_ [? ->] Hb1 Hr1] end.
      split; [by eexists|]. split; [auto|]. intros c z. rewrite Hb1, Hb0. cbn [pool_in]. fold p. lia.
    - apply bool_decide_eq_false in Hdest. destruct Hsub as [?|Hsub]; [by destruct Hdest|]. rewrite u128_wrap_small in * by done.
      match goal with H : on_technical (Technical.transfer_in _ _ pool _) _ = _ |- _ => apply transfer_in_ok in H as [_ [? ->] Hb0 Hr0] end.
      match goal with H : on_technical (Technical.transfer_in _ _ _ _) _ = _ |- _ => apply transfer_in_ok in H as [_ [? ->] Hb1 Hr1] end.
      split; [by eexists|]. split; [auto|]. intros c z. rewrite Hb1, Hb0. cbn [pool_in]. fold p f. rewrite !moved_sub. lia. }
  destruct Hmid as ([l1 ->] & Hr1 & Hb1). split_and!.
  - intros c z. rewrite Hb3, Hb2, Hb1. unfold swap_delta. fold p. destruct (bool_decide (base = b)); cbn [pool_in pool_out];
      rewrite ?moved_add; lia.
  - rewrite Hres, !Hb3. subst late. done.
  - exists l3. subst late. done.
  - intros Hok c z. rewrite Hb3. apply Hr2, Hr1, Hok.
Qed.

(** The pair of two assets of an exchange, and its accounts. *)
Definition other_asset (base a b : AssetId) : AssetId := if bool_decide (base = a) then b else a.
Definition pool_tech (dex : DEXId) (base a b : AssetId) : TechAccountId :=
  Pure dex (XykLiquidityKeeper (mkPair base (other_asset base a b))).
Definition pool_account (dex : DEXId) (base a b : AssetId) : AccountId :=
  tech_account_id_to_account_id (pool_tech dex base a b).
Definition fees_account (dex : DEXId) (base a b : AssetId) : AccountId :=
  tech_account_id_to_account_id (Pure dex (FeeCollectorForPair (mkPair base (other_asset base a b)))).

Lemma pool_fees_distinct dex base a b : pool_account dex base a b ≠ fees_account dex base a b.
Proof. intros E%(inj tech_account_id_to_account_id). done. Qed.

Lemma pool_tech_ok dex info a b s r s' : DEXInfos (market s) !! dex = Some info →
  GetChameleonPools (dex_base_asset_id info) = None →
  tech_account_from_dex_and_asset_pair dex a b s = (Ok r, s') →
  s' = s ∧ a ≠ b ∧ (dex_base_asset_id info = a ∨ dex_base_asset_id info = b) ∧
  snd r = pool_tech dex (dex_base_asset_id info) a b.
Proof.
  intros Hd Hc Hr. unfold tech_account_from_dex_and_asset_pair, check in Hr. run.
  match goal with H : get_dex_info _ _ = _ |- _ => apply get_dex_info_ok in H as [Hd' ->] end.
  rewrite Hd in Hd'. injection Hd' as <-. unfold get_trading_pair in *. run.
  match goal with H : get_pair_info _ _ _ = Ok _ |- _ => apply pair_info_plain in H as (Hn & Hb); [|done] end.
  unfold pool_tech, other_asset. destruct Hb as [[-> ->]|[-> ->]]; cbn.
  - rewrite bool_decide_eq_true_2 by done. auto.
  - rewrite bool_decide_eq_false_2 by done. auto.
Qed.

Definition amount_ok (amt : SwapAmount) : Prop :=
  match amt with SwapWithDesiredInput i _ => is_u128 i | SwapWithDesiredOutput d _ => is_u128 d end.

Lemma swap_range amt dest x y inp out fee : is_u128 x → is_u128 y → amount_ok amt →
  swap_terms amt dest x y inp out fee → dest = true ∨ is_u128 (inp - fee).
Proof.
  intros Hx Hy Hamt Ht. destruct dest; [by left|right]. destruct amt as [i m|d m]; cbn [swap_terms amount_ok] in *.
  - destruct Ht as (_ & -> & Hcalc & _).
    apply calc_output_ok in Hcalc as (_ & _ & _ & [? ?] & Hn & _); [|apply fee_range|done..]. cbn in Hn.
    unfold is_u128 in *. lia.
  - destruct Ht as (_ & -> & Hcalc & _).
    apply calc_input_ok in Hcalc as (_ & _ & [? ?] & [? ?] & Hn & _); [|apply fee_range|done..]. cbn in Hn.
    unfold is_u128 in *. lia.
Qed.

Lemma regulated_ok sender receiver a s s' : regulated sender receiver a s = (Ok tt, s') → s' = s.
Proof. unfold regulated. intros Hr. run. destruct (check_permission _ _ _ _); run; done. Qed.

Lemma create_swap_unchecked_ok source (act : PolySwapAction) base s s' :
  Technical.create_swap_unchecked swap_success source act base s = (Ok tt, s') →
  ∃ s1, reserve act source base s = (Ok tt, s1) ∧ s' = add_event (SwapSuccess source) s1.
Proof.
  unfold Technical.create_swap_unchecked. rewrite with_transaction_ok. intros Hr. run. cbn in *.
  unfold swap_success, deposit_event in *. run. eauto.
Qed.

(** A swap that succeeds. *)
Record swapped (sender receiver : AccountId) (dex : DEXId) (base a b : AssetId) (amt : SwapAmount)
    (inp out fee : Z) (o : SwapOutcome) s s' : Prop := {
  swapped_assets : a ≠ b ∧ (base = a ∨ base = b);
  swapped_reserves :
    let p := pool_account dex base a b in 0 < balance s a p ∧ 0 < balance s b p;
  swapped_terms :
    let p := pool_account dex base a b in
    swap_terms amt (bool_decide (base = b)) (balance s a p) (balance s b p) inp out fee;
  swapped_outcome :
    o = mkOutcome (match amt with SwapWithDesiredInput _ _ => out | SwapWithDesiredOutput _ _ => inp end)
          (OutcomeFee.add_by_asset OutcomeFee.new base fee);
  swapped_balances c z :
    balance s' c z = balance s c z
      + swap_delta (bool_decide (base = b)) sender receiver (pool_account dex base a b)
          (fees_account dex base a b) a b inp out fee c z;
  swapped_cache :
    let p := pool_account dex base a b in let target := other_asset base a b in
    Reserves s' = <[(base, target) := (balance s' base p, balance s' target p)]> (Reserves s);
  swapped_books : ∃ l, s' = add_event (SwapSuccess sender) (set_ledger l (set_reserves (Reserves s') s));
  swapped_range : balances_ok s'
}.

Lemma exchange_ok sender receiver dex info a b amt s o s' : DEXInfos (market s) !! dex = Some info →
  GetChameleonPools (dex_base_asset_id info) = None → balances_ok s → amount_ok amt →
  exchange sender receiver dex a b amt s = (Ok o, s') →
  ∃ inp out fee, swapped sender receiver dex (dex_base_asset_id info) a b amt inp out fee o s s'.
Proof.
  intros Hd Hc Hok Hamt Hr. unfold exchange in Hr. run.
  repeat match goal with H : regulated _ _ _ _ = _ |- _ => apply regulated_ok in H; subst end.
  match goal with H : get_dex_info _ _ = _ |- _ => apply get_dex_info_ok in H as [Hd' ->] end.
  rewrite Hd in Hd'. injection Hd' as <-.
  match goal with H : tech_account_from_dex_and_asset_pair _ _ _ _ = (Ok ?r, _) |- _ =>
    apply (pool_tech_ok _ info) in H as (-> & Hn & Hb & Htech); [|done..]; rewrite Htech in * end.
  match goal with H : pair_prepare _ _ _ _ = _ |- _ => rename H into Hp end.
  apply (pair_prepare_swap sender receiver _ dex _ a b amt s info) in Hp as (-> & _ & _ & Hx & Hy & Hp); [|done..].
  destruct Hp as (inp & out & fee & fee_account & Hterms & Hfunds & Hout & Hprep).
  match goal with H : Technical.create_swap_unchecked _ _ _ _ _ = _ |- _ =>
    apply create_swap_unchecked_ok in H as (s1 & Hres & ->); cbn [reserve poly_swap_action] in Hres end.
  pose proof (swap_range _ _ _ _ _ _ _ (Hok _ _) (Hok _ _) Hamt Hterms) as Hsub.
  rewrite bool_decide_eq_true in Hsub.
  pose proof (prepared_fee_account _ _ _ _ _ _ _ _ _ _ _ _ Hprep) as [_ [= <-]].
  destruct (pair_reserve_swap _ _ _ _ _ _ _ _ _ _ _ _ _ _ _ Hc Hd eq_refl Hprep Hsub Hres) as (Hbal & Hcache & [l Hl] & Hrange).
  exists inp, out, fee. split; try done.
  - destruct (prepared_source _ _ _ _ _ _ _ _ _ _ _ _ Hprep) as [_ E1].
    destruct (prepared_destination _ _ _ _ _ _ _ _ _ _ _ _ Hprep) as [_ E2].
    rewrite (prepared_fee _ _ _ _ _ _ _ _ _ _ _ _ Hprep). destruct amt; congruence.
  - exists l. cbn. by rewrite <- Hl.
  - intros c z. apply Hrange, Hok.
Qed.

(** *** The product of the reserves *)

Lemma swapped_pool sender receiver dex base a b amt inp out fee o s s' :
  swapped sender receiver dex base a b amt inp out fee o s s' → 0 ≤ out →
  let p := pool_account dex base a b in let dest := bool_decide (base = b) in
  sender ≠ p →
  balance s' a p = balance s a p + pool_in dest inp fee ∧ balance s b p - pool_out dest out fee ≤ balance s' b p.
Proof.
  intros [[Hn _] _ _ _ Hbal _ _ _] Hout p dest Hs. rewrite !Hbal. unfold swap_delta. fold p dest.
  pose proof (pool_fees_distinct dex base a b) as Hf. fold p in Hf.
  rewrite !(moved_who _ (fees_account _ _ _ _)), !(moved_who _ sender), !moved_eq by done.
  rewrite (moved_asset a), !(moved_asset b _ _ a) by done. split; [lia|].
  unfold moved. destruct (bool_decide (b = b ∧ _)); lia.
Qed.

Lemma terms_product amt dest x y inp out fee : is_u128 x → is_u128 y → amount_ok amt →
  swap_terms amt dest x y inp out fee →
  let a := pool_in dest inp fee in let b := pool_out dest out fee in
  0 ≤ out ∧ 0 ≤ x + a ∧
  match amt with
  | SwapWithDesiredInput _ _ => x * y ≤ (x + a) * (y - b)
  | SwapWithDesiredOutput _ _ => x * y + (x + a) < (x + a) * (y - b) + FixedU256.DIV + (y - b)
  end.
Proof.
  intros Hx Hy Hamt Ht. destruct amt as [i m|d m]; cbn [swap_terms amount_ok] in *.
  - destruct Ht as (_ & -> & Hcalc & _).
    apply calc_output_ok in Hcalc as (H0 & Hb & [? ?] & _ & Ha & _); [|apply fee_range|done..].
    split_and!; [done|unfold is_u128 in *; lia|]. apply product_exact_input; try done. apply Hy.
  - destruct Ht as (_ & -> & Hcalc & _).
    apply calc_input_ok in Hcalc as (H0 & Hb & _ & _ & Ha & Hle & _); [|apply fee_range|done..].
    unfold is_u128 in *. split_and!; [lia|lia|]. apply product_exact_output; try done; lia.
Qed.

(** C9. A swap through a pool never lets the product of the reserves fall: with an
    exact input it does not decrease.  With an exact output the rounding of the
    input can cost the pool a little: the product decreases by less than one whole
    token of the smallest unit squared (10^18 units) plus the output reserve, minus
    the input reserve. *)
Theorem swap_keeps_product sender receiver dex info a b amt s o s' :
  DEXInfos (market s) !! dex = Some info → GetChameleonPools (dex_base_asset_id info) = None →
  balances_ok s → amount_ok amt →
  let p := pool_account dex (dex_base_asset_id info) a b in
  sender ≠ p →
  exchange sender receiver dex a b amt s = (Ok o, s') →
  let x := balance s a p in let y := balance s b p in
  let x' := balance s' a p in let y' := balance s' b p in
  match amt with
  | SwapWithDesiredInput _ _ => x * y ≤ x' * y'
  | SwapWithDesiredOutput _ _ => x * y + x' < x' * y' + FixedU256.DIV + y'
  end.
Proof.
  intros Hd Hc Hok Hamt p Hs Hr. cbn zeta.
  destruct (exchange_ok _ _ _ _ _ _ _ _ _ _ Hd Hc Hok Hamt Hr) as (inp & out & fee & Hsw).
  destruct (terms_product _ _ _ _ _ _ _ (Hok a p) (Hok b p) Hamt (swapped_terms _ _ _ _ _ _ _ _ _ _ _ _ _ Hsw)) as (Hout & Hx & Hk).
  destruct (swapped_pool _ _ _ _ _ _ _ _ _ _ _ _ _ Hsw Hout Hs) as [Ex Ey]. fold p in Ex, Ey. rewrite Ex.
  pose proof (Z.mul_le_mono_nonneg_l _ _ _ Hx Ey). destruct amt; lia.
Qed.

(** *** Quotes *)

Lemma pair_info_run base a b : GetChameleonPools base = None → a ≠ b → base = a ∨ base = b →
  get_pair_info base a b = Ok (mkPair base (other_asset base a b), None, false).
Proof.
  intros Hc Hn Hb. unfold get_pair_info, other_asset. rewrite Hc, (bool_decide_eq_false_2 (a = b)) by done. cbn.
  destruct Hb as [->|<-].
  - by rewrite !bool_decide_eq_true_2 by done.
  - rewrite !(bool_decide_eq_false_2 (base = a)) by done. by rewrite bool_decide_eq_true_2.
Qed.

Lemma trading_pair_run base a b : GetChameleonPools base = None → a ≠ b → base = a ∨ base = b →
  get_trading_pair base a b = Ok (mkPair base (other_asset base a b)).
Proof. intros. unfold get_trading_pair. by rewrite pair_info_run. Qed.

Lemma assets_balance_run (l : L) a x : 0 < free_balance l a x → Assets.free_balance l a x = Ok (free_balance l a x).
Proof. intros Hp. unfold Assets.free_balance. by rewrite (proj2 (Z.eqb_neq _ 0)) by lia. Qed.

Lemma reserves_run p base a b s : GetChameleonPools base = None → a ≠ b → base = a ∨ base = b → balances_ok s →
  0 < balance s a p → 0 < balance s b p →
  get_actual_reserves p base a b s = (Ok (balance s a p, balance s b p, balance s b p), s).
Proof.
  intros Hc Hn Hb Hok Ha Hbb. unfold get_actual_reserves. rewrite pair_info_run by done. exec. cbn [base_asset_id target_asset_id].
  assert (Hp : ∀ c, c = a ∨ c = b → Assets.free_balance (ledger s) c p = Ok (balance s c p)
                      ∧ u128_checked_add (balance s c p) 0 = Some (balance s c p)).
  { intros c Hcs. split; [apply assets_balance_run; by destruct Hcs as [->| ->]|].
    unfold u128_checked_add. rewrite Z.add_0_r. apply checked_fits, Hok. }
  unfold other_asset. destruct Hb as [->|<-].
  - rewrite (bool_decide_eq_true_2 (a = a)) by done.
    rewrite (proj1 (Hp a ltac:(auto))), (proj1 (Hp b ltac:(auto))). exec. cbn.
    rewrite (proj2 (Hp a ltac:(auto))). exec.
    by rewrite (bool_decide_eq_true_2 (b = b)), (bool_decide_eq_false_2 (b = a)) by done.
  - rewrite !(bool_decide_eq_false_2 (base = a)) by done.
    rewrite (proj1 (Hp a ltac:(auto))), (proj1 (Hp base ltac:(auto))). exec. cbn.
    rewrite (proj2 (Hp base ltac:(auto))). exec.
    by rewrite !(bool_decide_eq_true_2 (_ = _)) by done.
Qed.

Lemma get_dex_info_run dex info s : DEXInfos (market s) !! dex = Some info → get_dex_info dex s = (Ok info, s).
Proof.
  intros Hd. unfold get_dex_info, DexManager.get_dex_info, on_market, zoom, mbind, M_bind, get_state.
  rewrite Hd. cbn. by destruct s.
Qed.

Lemma pool_of_run dex info a b s : DEXInfos (market s) !! dex = Some info → let base := dex_base_asset_id info in
  GetChameleonPools base = None → a ≠ b → base = a ∨ base = b → balances_ok s →
  let p := pool_account dex base a b in 0 < balance s a p → 0 < balance s b p →
  pool_of dex a b s = (Ok (info, (balance s a p, balance s b p, balance s b p)), s).
Proof.
  intros Hd base Hc Hn Hb Hok p Ha Hbb. unfold pool_of.
  rewrite (M_bind_run_ok _ _ _ _ _ (get_dex_info_run _ _ _ Hd)).
  unfold tech_account_from_dex_and_asset_pair. exec.
  rewrite (M_bind_run_ok _ _ _ _ _ (get_dex_info_run _ _ _ Hd)). unfold check.
  rewrite (bool_decide_eq_false_2 (a = b)) by done. exec. fold base.
  rewrite trading_pair_run by done. exec.
  by rewrite (M_bind_run_ok _ _ _ _ _ (reserves_run p base a b s Hc Hn Hb Hok Ha Hbb)).
Qed.

Lemma pool_quote_run dex info a b amt inp out fee s : DEXInfos (market s) !! dex = Some info →
  let base := dex_base_asset_id info in GetChameleonPools base = None → a ≠ b → base = a ∨ base = b → balances_ok s →
  let p := pool_account dex base a b in 0 < balance s a p → 0 < balance s b p →
  swap_terms amt (bool_decide (base = b)) (balance s a p) (balance s b p) inp out fee →
  quote dex a b (to_quote amt) true s =
  (Ok (mkOutcome (match amt with SwapWithDesiredInput _ _ => out | SwapWithDesiredOutput _ _ => inp end)
         (OutcomeFee.from_asset base fee)), s).
Proof.
  intros Hd base Hc Hn Hb Hok p Ha Hbb Ht. unfold quote.
  rewrite (M_bind_run_ok _ _ _ _ _ (pool_of_run dex info a b s Hd Hc Hn Hb Hok Ha Hbb)).
  unfold check_reserves, check. fold base p. rewrite (proj2 (Z.eqb_neq _ 0)) by lia. cbn [andb negb]. exec.
  rewrite !(proj2 (Z.leb_gt _ 0)) by done. cbn [orb negb]. exec.
  unfold decide_is_fee_from_destination. rewrite trading_pair_run by done.
  assert (Hside : fee_from_destination (mkPair base (other_asset base a b)) a b = Ok (bool_decide (base = b))).
  { unfold fee_from_destination, other_asset. cbn. destruct Hb as [E|E]; rewrite E.
    - rewrite (bool_decide_eq_true_2 (a = a)), (bool_decide_eq_false_2 (b = a)), (bool_decide_eq_true_2 (b = b)),
        (bool_decide_eq_false_2 (a = b)) by done. done.
    - rewrite (bool_decide_eq_false_2 (b = a)), (bool_decide_eq_true_2 (a = a)), (bool_decide_eq_true_2 (b = b)) by done. done. }
  cbn [mbind result_bind]. rewrite Hside. exec. rewrite Z.eqb_refl. cbn [orb].
  destruct amt as [i m|d m]; cbn [swap_terms to_quote] in *.
  - destruct Ht as (_ & _ & Hcalc & _). rewrite Hcalc. by exec.
  - destruct Ht as (_ & _ & Hcalc & _). rewrite Hcalc. by exec.
Qed.

Lemma same_fee base fee asset : 0 ≤ fee ≤ u128_max →
  OutcomeFee.get_by_asset (OutcomeFee.from_asset base fee) asset =
  OutcomeFee.get_by_asset (OutcomeFee.add_by_asset OutcomeFee.new base fee) asset.
Proof.
  intros Hf. unfold OutcomeFee.get_by_asset, OutcomeFee.from_asset, OutcomeFee.add_by_asset, OutcomeFee.new,
    bt_modify_or_insert. cbn. destruct (Z.eqb_spec fee 0) as [->|_]; cbn; [|done]. by destruct (cmp _ _).
Qed.

Lemma terms_fee amt dest x y inp out fee : is_u128 x → is_u128 y → amount_ok amt →
  swap_terms amt dest x y inp out fee → 0 ≤ fee ≤ u128_max.
Proof.
  intros Hx Hy Hamt Ht. destruct amt as [i m|d m]; cbn [swap_terms amount_ok] in *.
  - destruct Ht as (_ & -> & Hcalc & _). by apply calc_output_ok in Hcalc as (_ & _ & _ & ? & _); [|apply fee_range|..].
  - destruct Ht as (_ & -> & Hcalc & _). by apply calc_input_ok in Hcalc as (_ & _ & _ & ? & _); [|apply fee_range|..].
Qed.

(** C10. A pool honours its quotes: an exchange that succeeds pays exactly what
    [quote] promises for the same amount in the same state, within the limit of the
    caller.  The sender pays the input, the receiver gets the output, the fee
    account of the pair gets the quoted fee and the pool the difference, and no
    other balance changes. *)
Theorem pool_quote_is_honoured sender receiver dex info a b amt s o s' :
  DEXInfos (market s) !! dex = Some info → let base := dex_base_asset_id info in
  GetChameleonPools base = None → balances_ok s → amount_ok amt →
  exchange sender receiver dex a b amt s = (Ok o, s') →
  ∃ q inp out fee,
    quote dex a b (to_quote amt) true s = (Ok q, s) ∧
    outcome_amount q = outcome_amount o ∧
    (∀ c, OutcomeFee.get_by_asset (outcome_fee q) c = OutcomeFee.get_by_asset (outcome_fee o) c) ∧
    OutcomeFee.get_by_asset (outcome_fee q) base = fee ∧
    match amt with
    | SwapWithDesiredInput i least => inp = i ∧ out = outcome_amount q ∧ least ≤ out
    | SwapWithDesiredOutput d most => out = d ∧ inp = outcome_amount q ∧ inp ≤ most
    end ∧
    ∀ c z, balance s' c z = balance s c z
      + swap_delta (bool_decide (base = b)) sender receiver (pool_account dex base a b)
          (fees_account dex base a b) a b inp out fee c z.
Proof.
  intros Hd base Hc Hok Hamt Hr.
  destruct (exchange_ok _ _ _ _ _ _ _ _ _ _ Hd Hc Hok Hamt Hr) as (inp & out & fee & [[Hn Hb] [Ha Hbb] Ht -> Hbal _ _ _]).
  pose proof (terms_fee _ _ _ _ _ _ _ (Hok _ _) (Hok _ _) Hamt Ht) as Hfee.
  eexists _, inp, out, fee. split; [by apply pool_quote_run|]. cbn [outcome_amount outcome_fee]. split; [done|].
  split; [intros c; by apply same_fee|]. rewrite same_fee, added_fee by done. split; [done|].
  split; [|done]. destruct amt; cbn [swap_terms] in Ht; naive_solver.
Qed.
End props.
