(* ===== verification/PoolShares.v ===== *)
(** * The shares of the providers ([pallets/pool-xyk/src/utils.rs])

    The issuance of a pool is the sum of the shares of its providers.  [kept] says
    that a computation keeps this, also when it fails; it is proved of every
    operation of the pallet, and the theorem is about all sequences of them. *)

From S2P Require Import Prelude BTreeMap FixedPoint Helpers256 FixedU256 Units OrderTypes SwapTypes PoolMath DataLayer.
From S2P Require Import World Permissions TradingPair OrderBook WorldRefine Scheduler Pallet Technical PoolXyk PoolSwaps.
Import PoolXyk.

(** ** Sums of shares *)

Section sums.
Abbreviation Shares := (gmap (AccountId * AccountId) Balance) (only parsing).
Implicit Types (m : Shares) (pool who : AccountId).

Definition of_pool pool (e : AccountId * AccountId * Balance) : Z :=
  if bool_decide (fst (fst e) = pool) then snd e else 0.

(** All shares of a pool. *)
Definition pool_sum m pool : Z := sum_by (of_pool pool) (map_to_list m).

Lemma pool_sum_fresh m pool k v : m !! k = None →
  pool_sum (<[k := v]> m) pool = of_pool pool (k, v) + pool_sum m pool.
Proof. intros Hk. unfold pool_sum. by rewrite (sum_by_perm _ _ _ (map_to_list_insert m k v Hk)). Qed.

Lemma pool_sum_delete m pool k : pool_sum (delete k m) pool = pool_sum m pool - of_pool pool (k, default 0 (m !! k)).
Proof.
  destruct (m !! k) as [v|] eqn:Hk; cbn.
  - rewrite <- (insert_delete_id m k v Hk) at 2. rewrite pool_sum_fresh by apply lookup_delete_eq. lia.
  - rewrite delete_id by done. unfold of_pool. cbn. case_bool_decide; lia.
Qed.

Lemma pool_sum_insert m pool k v :
  pool_sum (<[k := v]> m) pool = pool_sum m pool - of_pool pool (k, default 0 (m !! k)) + of_pool pool (k, v).
Proof.
  rewrite <- insert_delete_eq, pool_sum_fresh by apply lookup_delete_eq. rewrite pool_sum_delete. lia.
Qed.

Lemma of_pool_add pool k u v : of_pool pool (k, u + v) = of_pool pool (k, u) + of_pool pool (k, v).
Proof. unfold of_pool. cbn. case_bool_decide; lia. Qed.

Lemma pool_sum_share m pool who : (∀ k v, m !! k = Some v → 0 ≤ v) →
  0 ≤ default 0 (m !! (pool, who)) ≤ pool_sum m pool.
Proof.
  intros Hn. assert (Hp : ∀ e, e ∈ map_to_list m → 0 ≤ of_pool pool e).
  { intros [k v] He%elem_of_map_to_list. unfold of_pool. cbn. case_bool_decide; [eauto|lia]. }
  destruct (m !! (pool, who)) as [v|] eqn:Hv; cbn.
  - split; [eauto|]. pose proof (sum_by_elem (of_pool pool) (map_to_list m) ((pool, who), v) Hp) as Hs.
    unfold of_pool in Hs at 1. cbn in Hs. rewrite bool_decide_eq_true_2 in Hs by done. apply Hs.
    by apply elem_of_map_to_list.
  - split; [lia|]. by apply sum_by_nonneg.
Qed.

Lemma pool_sum_iter `{StorageKeys} m pool : pool_sum m pool = sum_by snd (iter_prefix m pool).
Proof.
  unfold iter_prefix. rewrite (sum_by_perm _ _ _ (iter_entries_Permutation _)). unfold pool_sum.
  induction (map_to_list m) as [|[[k1 k2] v] l IH]; [done|]. cbn [omap list_omap]. rewrite sum_by_cons, IH.
  unfold of_pool at 1. cbn. by case_bool_decide.
Qed.
End sums.

Create HintDb kept discriminated.

(** Balances are 128-bit numbers. *)
Class BalanceRange (L : Type) `{MultiCurrency L} : Prop :=
  balance_range (l : L) a x : is_u128 (free_balance l a x).

Section shares.
Context {PC : PoolConfig} {PP : PoolParams} {SK : StorageKeys} {TH : TechHash}.
Context {L : Type} `{MultiCurrency L} {IS : Issuance L} {AI : AssetInfo L} {PR : Providers L}.
Context {RF : Permissions.References L} {HK : PoolHooks L}.
Context {CO : PoolConfigOk}.
Abbreviation P := (M (t L) DispatchError).
Implicit Types (s : t L).

Definition issued s (pool : AccountId) : Z := default 0 (TotalIssuances s !! pool).
Definition share s (pool who : AccountId) : Z := default 0 (PoolProviders s !! (pool, who)).

(** The issuance of every pool is the sum of the shares of its providers. *)
Record shares_ok s : Prop := {
  shares_sum pool : pool_sum (PoolProviders s) pool = issued s pool;
  shares_nonneg k v : PoolProviders s !! k = Some v → 0 ≤ v;
  shares_range pool : issued s pool ≤ u128_max
}.

Lemma share_le s pool who : shares_ok s → 0 ≤ share s pool who ≤ issued s pool.
Proof. intros [Hs Hn _]. unfold share. rewrite <- Hs. by apply pool_sum_share. Qed.

Lemma shares_same s s' : PoolProviders s' = PoolProviders s → TotalIssuances s' = TotalIssuances s →
  shares_ok s → shares_ok s'.
Proof. intros E1 E2 [Hs Hn Hr]. split; unfold issued; rewrite ?E1, ?E2; done. Qed.

(** ** Computations that keep the invariant

    [kept] also speaks about failures, which may leave writes behind; [kept_ok]
    only about success. *)
Definition kept {A} (c : P A) : Prop := ∀ s, shares_ok s → shares_ok (snd (c s)).
Definition kept_ok {A} (c : P A) : Prop := ∀ s a s', c s = (Ok a, s') → shares_ok s → shares_ok s'.

Lemma kept_is_ok {A} (c : P A) : kept c → kept_ok c.
Proof. intros Hc s a s' E Hs. specialize (Hc s Hs). by rewrite E in Hc. Qed.

Lemma kept_bind {A B} (f : A → P B) (c : P A) : kept c → (∀ a, kept (f a)) → kept (mbind f c).
Proof.
  intros Hc Hf s Hs. unfold mbind, M_bind. specialize (Hc s Hs). destruct (c s) as [[a|e] s1]; [|done].
  by apply Hf.
Qed.
(** What the first computation returns may matter to the second. *)
Lemma kept_bind_run {A B} (f : A → P B) (c : P A) : kept c →
  (∀ s a s', c s = (Ok a, s') → shares_ok s → kept (f a)) → kept (mbind f c).
Proof.
  intros Hc Hf s Hs. unfold mbind, M_bind. pose proof (Hc s Hs) as H1. destruct (c s) as [[a|e] s1] eqn:E; [|done].
  by eapply Hf.
Qed.
Lemma kept_ok_bind {A B} (f : A → P B) (c : P A) : kept_ok c → (∀ a, kept_ok (f a)) → kept_ok (mbind f c).
Proof. intros Hc Hf s b s' Hr Hs. apply M_bind_ok in Hr as (a & s1 & H1 & H2). eapply Hf, Hc; eauto. Qed.

Lemma kept_transaction {A} (c : P A) : kept_ok c → kept (with_transaction c).
Proof. intros Hc s Hs. unfold with_transaction. destruct (c s) as [[a|e] s1] eqn:E; [|done]. by eapply Hc. Qed.

Lemma kept_ret {A} (a : A) : kept (mret a).
Proof. by intros s Hs. Qed.
Lemma kept_throw {A} (e : DispatchError) : kept (mthrow (A := A) e).
Proof. by intros s Hs. Qed.
Lemma kept_ensure b (e : DispatchError) : kept (ensure b e).
Proof. destruct b; [apply kept_ret|apply kept_throw]. Qed.
Lemma kept_check b (e : PoolXykErrors) : kept (check b e).
Proof. apply kept_ensure. Qed.
Lemma kept_ok_or {A} (o : option A) (e : DispatchError) : kept (ok_or o e).
Proof. destruct o; [apply kept_ret|apply kept_throw]. Qed.
Lemma kept_lift {A} (r : result DispatchError A) : kept (lift r).
Proof. by intros s Hs. Qed.
Lemma kept_get : kept get_state.
Proof. by intros s Hs. Qed.
Lemma kept_modify f : (∀ s, PoolProviders (f s) = PoolProviders s ∧ TotalIssuances (f s) = TotalIssuances s) →
  kept (modify f).
Proof. intros Hf s Hs. cbn. by eapply shares_same; [apply Hf..|]. Qed.
Lemma kept_technical {A} (c : M (Technical.t L) DispatchError A) : kept (on_technical c).
Proof. intros s Hs. unfold on_technical, zoom. destruct (c _). cbn. by apply (shares_same s). Qed.
Lemma kept_ledger {A} (c : M L DispatchError A) : kept (on_ledger c).
Proof. intros s Hs. unfold on_ledger, zoom. destruct (c _). cbn. by apply (shares_same s). Qed.
Lemma kept_market {A} (c : M Market DispatchError A) : kept (on_market c).
Proof. intros s Hs. unfold on_market, zoom. destruct (c _). cbn. by apply (shares_same s). Qed.
Lemma kept_event e : kept (deposit_event e).
Proof. by apply kept_modify. Qed.
Lemma kept_for_each {A} (xs : list A) (body : A → P unit) : (∀ x, kept (body x)) → kept (for_each xs body).
Proof. intros Hb. induction xs as [|x xs IH]; [apply kept_ret|]. cbn. apply kept_bind; [apply Hb|]. intros _. apply IH. Qed.
Lemma kept_succeeds {A} (c : P A) : kept c → kept (succeeds c).
Proof. intros Hc s Hs. unfold succeeds. specialize (Hc s Hs). by destruct (c s) as [[] ?]. Qed.
Lemma kept_ignore {A} (c : P A) : kept c → kept (ignore_error c).
Proof. intros Hc s Hs. cbn. by apply Hc. Qed.

Ltac keeps_step :=
  match goal with
  | |- kept (mbind _ _) => apply kept_bind; [|intros ?]
  | |- kept (mret _) => apply kept_ret
  | |- kept (mthrow _) => apply kept_throw
  | |- kept (fail _) => apply kept_throw
  | |- kept (ensure _ _) => apply kept_ensure
  | |- kept (check _ _) => apply kept_check
  | |- kept (ok_or _ _) => apply kept_ok_or
  | |- kept (lift _) => apply kept_lift
  | |- kept get_state => apply kept_get
  | |- kept (modify _) => apply kept_modify; done
  | |- kept (on_technical _) => apply kept_technical
  | |- kept (on_ledger _) => apply kept_ledger
  | |- kept (on_market _) => apply kept_market
  | |- kept (deposit_event _) => apply kept_event
  | |- kept (for_each _ _) => apply kept_for_each; intros ?
  | |- kept (succeeds _) => apply kept_succeeds
  | |- kept (ignore_error _) => apply kept_ignore
  | |- kept (match ?x with _ => _ end) => destruct x
  | |- kept _ => solve [auto with kept nocore]
  end.
Ltac keeps := repeat keeps_step.

Lemma kept_get_dex_info dex : kept (get_dex_info dex).
Proof. unfold get_dex_info. keeps. Qed.
Hint Resolve kept_get_dex_info : kept.
Lemma kept_tech_account dex a b : kept (tech_account_from_dex_and_asset_pair dex a b).
Proof. unfold tech_account_from_dex_and_asset_pair. keeps. Qed.
Hint Resolve kept_tech_account : kept.
Lemma kept_valid_pool pool : kept (is_pool_account_valid_for pool).
Proof. unfold is_pool_account_valid_for. keeps. Qed.
Hint Resolve kept_valid_pool : kept.
Lemma kept_reserves pool base a b : kept (get_actual_reserves pool base a b).
Proof. unfold get_actual_reserves. keeps. Qed.
Hint Resolve kept_reserves : kept.
Lemma kept_update_reserves base a b p : kept (update_reserves base a b p).
Proof. unfold update_reserves, insert_reserves, notify_reserves. keeps. Qed.
Hint Resolve kept_update_reserves : kept.
Lemma kept_refresh pool base a b : kept (refresh_reserves pool base a b).
Proof. unfold refresh_reserves. keeps. Qed.
Hint Resolve kept_refresh : kept.
Lemma kept_regulated x y a : kept (regulated x y a).
Proof. unfold regulated. keeps. Qed.
Hint Resolve kept_regulated : kept.
Lemma kept_signed o : kept (ensure_signed o).
Proof. unfold ensure_signed. keeps. Qed.
Hint Resolve kept_signed : kept.

Lemma kept_pair_prepare act source base : kept (pair_prepare act source base).
Proof. unfold pair_prepare. keeps. Qed.
Hint Resolve kept_pair_prepare : kept.
Lemma kept_pair_reserve act source base : kept (pair_reserve act source base).
Proof. unfold pair_reserve. apply kept_transaction, kept_is_ok. keeps. Qed.
Hint Resolve kept_pair_reserve : kept.
Lemma kept_deposit_prepare act source base : kept (deposit_prepare act source base).
Proof. unfold deposit_prepare, decide_deposit. keeps. Qed.
Hint Resolve kept_deposit_prepare : kept.
Lemma kept_withdraw_prepare act source base : kept (withdraw_prepare act source base).
Proof. unfold withdraw_prepare. keeps. Qed.
Hint Resolve kept_withdraw_prepare : kept.
Lemma kept_account_pool who pair : kept (insert_account_pool who pair).
Proof. unfold insert_account_pool. keeps. Qed.
Lemma kept_no_account_pool who pair : kept (remove_account_pool who pair).
Proof. unfold remove_account_pool. keeps. Qed.
Hint Resolve kept_account_pool kept_no_account_pool : kept.

(** ** The operations on shares *)

Lemma set_ledger_id s : s = set_ledger (ledger s) s.
Proof. by destruct s as [? ? ? ? ? []]. Qed.

(** A share and the issuance of its pool change by the same amount. *)
Lemma shares_change s s' pool who delta v' :
  shares_ok s →
  PoolProviders s' = (if v' =? 0 then delete (pool, who) (PoolProviders s)
                      else <[(pool, who) := v']> (PoolProviders s)) ∨
  PoolProviders s' = <[(pool, who) := v']> (PoolProviders s) →
  TotalIssuances s' = <[pool := issued s pool + delta]> (TotalIssuances s) →
  v' = share s pool who + delta → 0 ≤ v' → issued s pool + delta ≤ u128_max →
  shares_ok s'.
Proof.
  intros [Hs Hn Hr] Hp Hi Hv H0 Hmax.
  assert (Hsum : ∀ q, pool_sum (PoolProviders s') q
            = pool_sum (PoolProviders s) q + of_pool q ((pool, who), delta)).
  { intros q. assert (E : of_pool q (pool, who, v') = of_pool q (pool, who, share s pool who) + of_pool q (pool, who, delta)).
    { rewrite Hv. apply of_pool_add. }
    unfold share in E. destruct Hp as [->| ->]; [destruct (Z.eqb_spec v' 0) as [Hz|_]|].
    - rewrite pool_sum_delete. rewrite Hz in E. unfold of_pool in *. cbn in *. case_bool_decide; lia.
    - rewrite pool_sum_insert. lia.
    - rewrite pool_sum_insert. lia. }
  assert (Hiss : ∀ q, issued s' q = issued s q + of_pool q ((pool, who), delta)).
  { intros q. unfold issued at 1. rewrite Hi. unfold of_pool. cbn. case_bool_decide as E.
    - subst q. by rewrite lookup_insert_eq.
    - rewrite lookup_insert_ne by done. unfold issued. lia. }
  split.
  - intros q. by rewrite Hsum, Hiss, Hs.
  - intros k v Hk. assert (Hc : PoolProviders s' = delete (pool, who) (PoolProviders s)
      ∨ PoolProviders s' = <[(pool, who) := v']> (PoolProviders s)) by (destruct Hp as [E|E]; [destruct (v' =? 0)|]; auto).
    destruct Hc as [E|E]; rewrite E in Hk.
    + apply lookup_delete_Some in Hk as [_ Hk]. eauto.
    + apply lookup_insert_Some in Hk as [[_ <-]|[_ Hk]]; eauto.
  - intros q. rewrite Hiss. unfold of_pool. cbn. case_bool_decide as E; [by subst q|]. specialize (Hr q). lia.
Qed.

(** [mint] adds to the share and to the issuance. *)
Lemma mint_ok pool who tokens s s' : shares_ok s → 0 ≤ tokens → mint pool who tokens s = (Ok tt, s') →
  shares_ok s' ∧ share s' pool who = share s pool who + tokens ∧ issued s' pool = issued s pool + tokens ∧
  (∀ k, k ≠ (pool, who) → PoolProviders s' !! k = PoolProviders s !! k) ∧
  ∃ l, s' = set_issuances (TotalIssuances s') (set_providers (PoolProviders s') (set_ledger l s)) ∧
       (l = ledger s ∨ Permissions.inc_consumers who (ledger s) = Some l).
Proof.
  intros Hok Ht Hr. unfold mint in Hr. apply M_bind_ok in Hr as (s0 & s1 & [-> ->]%M_get_state_ok & Hr).
  apply M_bind_ok in Hr as ([] & s1 & Hl & Hr).
  assert (Hl1 : ∃ l, s1 = set_ledger l s ∧ (l = ledger s ∨ Permissions.inc_consumers who (ledger s) = Some l)).
  { destruct (PoolProviders s !! (pool, who)); run; eauto using set_ledger_id. }
  destruct Hl1 as (l & -> & Hl1). run. unfold u128_checked_add in *.
  match goal with H : checked _ _ = Some _ |- _ => apply checked_Some in H as [-> Hmax] end. cbn in *.
  pose proof (share_le s pool who Hok) as Hsh. unfold share in Hsh. fold (issued s pool) in *.
  rewrite u128_wrap_small by (unfold is_u128; lia). set (s' := set_issuances _ _).
  assert (Hs' : shares_ok s').
  { apply (shares_change s s' pool who tokens (share s pool who + tokens)); try done; unfold share; [by right|lia|lia]. }
  split; [done|]. unfold share, issued. cbn. rewrite !lookup_insert_eq. split_and!; try done; [|by exists l].
  intros k Hk. by rewrite lookup_insert_ne.
Qed.

(** [burn] takes from both. *)
Lemma burn_ok pool who tokens s s' : shares_ok s → burn pool who tokens s = (Ok tt, s') →
  shares_ok s' ∧ share s' pool who = share s pool who - tokens ∧ issued s' pool = issued s pool - tokens ∧
  tokens ≤ share s pool who ∧ (∀ k, k ≠ (pool, who) → PoolProviders s' !! k = PoolProviders s !! k) ∧
  ∃ l, s' = set_issuances (TotalIssuances s') (set_providers (PoolProviders s') (set_ledger l s)) ∧
       (l = ledger s ∨ l = Permissions.dec_consumers who (ledger s)).
Proof.
  intros Hok Hr. unfold burn in Hr. apply M_bind_ok in Hr as (s0 & s1 & [-> ->]%M_get_state_ok & Hr).
  apply M_bind_ok in Hr as (old & s1 & [Hold ->]%M_ok_or_ok & Hr).
  apply M_bind_ok in Hr as (new & s1 & [Hnew ->]%M_ok_or_ok & Hr). apply M_bind_ok in Hr as ([] & s1 & Hl & Hr).
  unfold u128_checked_sub in *. apply checked_Some in Hnew as [-> Hnew].
  assert (Hl1 : ∃ l, s1 = set_providers (if old - tokens =? 0 then delete (pool, who) (PoolProviders s)
       else <[(pool, who) := old - tokens]> (PoolProviders s)) (set_ledger l s) ∧
     (l = ledger s ∨ l = Permissions.dec_consumers who (ledger s))).
  { destruct (old - tokens =? 0); run.
    - eexists. split; [done|]. by right.
    - exists (ledger s). rewrite <- set_ledger_id. auto. }
  destruct Hl1 as (l & -> & Hl1). run. cbn in *.
  match goal with H : checked _ _ = Some _ |- _ => apply checked_Some in H as [-> Hmax] end.
  match goal with H : TotalIssuances s !! pool = Some ?i |- _ => assert (Hi : issued s pool = i) by (unfold issued; by rewrite H) end.
  assert (Hsh : share s pool who = old) by (unfold share; by rewrite Hold).
  set (s' := set_issuances _ _).
  assert (Hs' : shares_ok s').
  { apply (shares_change s s' pool who (- tokens) (old - tokens)); try lia; [done|by left|].
    cbn. rewrite Hi. f_equal. }
  split; [done|]. unfold share at 1, issued at 1. cbn. rewrite lookup_insert_eq, Hsh, Hi.
  split; [|split; [done|split; [lia|split; [|by exists l]]]].
  2: { intros k Hk. destruct (old - tokens =? 0); [by rewrite lookup_delete_ne|by rewrite lookup_insert_ne]. }
  destruct (Z.eqb_spec (old - tokens) 0) as [E|_]; [rewrite lookup_delete_eq; cbn; lia|by rewrite lookup_insert_eq].
Qed.

(** ** Deposits and withdrawals *)

Lemma low_nonneg x : 0 ≤ U256.low x.
Proof. unfold U256.low. rewrite Z.land_ones by lia. by apply Z.mod_pos_bound. Qed.

Lemma to_balance_nonneg a x : to_balance a = Ok x → 0 ≤ x.
Proof.
  unfold to_balance, FixedWrapper256.try_into_balance, FixedU256.to_u128. destruct a as [y|]; cbn; [|done].
  destruct (U256.high y =? 0); [|done]. intros [= <-]. apply low_nonneg.
Qed.

Lemma deposit_tokens_nonneg t ra rb da db ma mb r :
  calc_deposit_liquidity_1 t ra rb da db ma mb = Ok r → 0 ≤ snd r.
Proof.
  unfold calc_deposit_liquidity_1. intros Hr. apply result_bind_ok in Hr as ([x y] & _ & Hr).
  apply result_bind_ok in Hr as (l & Hl%to_balance_nonneg & Hr).
  apply result_bind_ok in Hr as (k & Hk%to_balance_nonneg & [= <-]). cbn. lia.
Qed.

Lemma decide_deposit_nonneg act pool bp tp s r s' :
  decide_deposit act pool bp tp s = (Ok r, s') → 0 ≤ snd r.
Proof.
  unfold decide_deposit, check, fail. intros Hr. destruct (amount (fst (dl_source act))); try done.
  destruct (amount (snd (dl_source act))); try done.
  do 4 (apply M_bind_ok in Hr as (? & ? & _ & Hr)). apply M_bind_ok in Hr as ([[ax ay] k] & ? & [Hk _]%M_lift_ok & Hr).
  apply deposit_tokens_nonneg in Hk. run. done.
Qed.

Lemma decide_pool_k_nonneg active empty x y bp tp k : decide_pool_k active empty x y bp tp = Ok (Some k) → 0 ≤ k.
Proof.
  unfold decide_pool_k. intros Hr. destruct empty, active; try done;
    by apply result_bind_ok in Hr as (k' & Hk%to_balance_nonneg & [= <-]).
Qed.

Lemma u128_wrap_nonneg x : 0 ≤ u128_wrap x.
Proof. unfold u128_wrap. by apply Z.mod_pos_bound. Qed.

(** A prepared deposit never mints a negative amount. *)
Lemma deposit_prepare_nonneg act source base s act' s' : 0 ≤ dl_pool_tokens act →
  deposit_prepare act source base s = (Ok act', s') → 0 ≤ dl_pool_tokens act'.
Proof.
  intros Ht Hr. unfold deposit_prepare in Hr. apply M_bind_ok in Hr as ([c r] & s1 & _ & Hr).
  do 3 (apply M_bind_ok in Hr as (? & ? & _ & Hr)). apply M_bind_ok in Hr as ([[bp tp] ?] & ? & _ & Hr).
  do 2 (apply M_bind_ok in Hr as (? & ? & _ & Hr)). apply M_bind_ok in Hr as (k & ? & [Hk _]%M_lift_ok & Hr).
  apply M_bind_ok in Hr as ([[a0 a1] tokens] & ? & Hd & Hr). do 2 (apply M_bind_ok in Hr as (? & ? & _ & Hr)).
  apply M_ret_ok in Hr as [-> ->]. cbn [dl_pool_tokens].
  destruct ((bp =? 0) && (tp =? 0)); [apply u128_wrap_nonneg|].
  destruct (if deposit_is_abstract act then _ else _) as [src|].
  - by apply decide_deposit_nonneg in Hd.
  - apply M_ret_ok in Hd as [[= -> -> ->] _]. done.
Qed.

Lemma kept_mint pool who tokens : 0 ≤ tokens → kept_ok (mint pool who tokens).
Proof. intros Ht s [] s' Hr Hs. by eapply mint_ok. Qed.
Lemma kept_burn pool who tokens : kept_ok (burn pool who tokens).
Proof. intros s [] s' Hr Hs. by eapply burn_ok. Qed.

Lemma kept_deposit_reserve act source base : 0 ≤ dl_pool_tokens act → kept_ok (deposit_reserve act source base).
Proof.
  intros Ht. unfold deposit_reserve. do 6 (apply kept_ok_bind; [apply kept_is_ok; keeps|intros ?]).
  do 2 (apply kept_ok_bind; [apply kept_is_ok; keeps|intros ?]).
  apply kept_ok_bind; [by apply kept_mint|]. intros _. apply kept_is_ok. keeps.
Qed.

Lemma kept_withdraw_reserve act source base : kept_ok (withdraw_reserve act source base).
Proof.
  unfold withdraw_reserve. do 7 (apply kept_ok_bind; [apply kept_is_ok; keeps|intros ?]).
  apply kept_ok_bind; [apply kept_burn|]. intros _. apply kept_is_ok. keeps.
Qed.

(** What an action mints. *)
Definition minted_nonneg (act : PolySwapAction) : Prop :=
  match act with DepositLiquidity a => 0 ≤ dl_pool_tokens a | _ => True end.

Lemma kept_swap_unchecked source act base : minted_nonneg act →
  kept (Technical.create_swap_unchecked swap_success source act base).
Proof.
  intros Ha. unfold Technical.create_swap_unchecked. apply kept_transaction, kept_ok_bind.
  - destruct act; cbn in *; [apply kept_is_ok; keeps|by apply kept_deposit_reserve|apply kept_withdraw_reserve].
  - intros _. apply kept_is_ok. cbn. unfold swap_success. keeps.
Qed.

Lemma kept_prepare act source base : kept (prepare_and_validate act source base).
Proof. destruct act; unfold prepare_and_validate, poly_swap_action; keeps. Qed.

Lemma prepare_minted act source base s act' s' : minted_nonneg act →
  prepare_and_validate act source base s = (Ok act', s') → minted_nonneg act'.
Proof.
  intros Ha E. destruct act; unfold prepare_and_validate, poly_swap_action in E;
    apply M_bind_ok in E as (act1 & s1 & E & [-> _]%M_ret_ok); try done.
  by eapply deposit_prepare_nonneg.
Qed.

Lemma kept_create_swap source act base : minted_nonneg act → kept (create_swap source act base).
Proof.
  intros Ha. unfold create_swap, Technical.create_swap. apply kept_bind; [keeps|]. intros [].
  apply kept_bind_run; [apply kept_prepare|]. intros s act' s' E _. by eapply kept_swap_unchecked, prepare_minted.
Qed.

Lemma kept_exchange sender receiver dex a b amount : kept (exchange sender receiver dex a b amount).
Proof. unfold exchange. keeps. by apply kept_swap_unchecked. Qed.

Lemma kept_deposit_liquidity origin dex a b da db ma mb : kept (deposit_liquidity origin dex a b da db ma mb).
Proof. unfold deposit_liquidity, deposit_liquidity_unchecked. keeps. by apply kept_create_swap. Qed.

Lemma kept_withdraw_liquidity origin dex a b k ma mb : kept (withdraw_liquidity origin dex a b k ma mb).
Proof. unfold withdraw_liquidity, withdraw_liquidity_unchecked. keeps. by apply kept_create_swap. Qed.

Lemma kept_initialize_pool {R} `{!Permissions.References R} hash (p : Permissions.t R) origin dex a b :
  kept (initialize_pool hash p origin dex a b).
Proof.
  unfold initialize_pool, initialize_pool_unchecked, initialize_pool_properties,
    ensure_trading_pair_is_not_restricted. apply kept_transaction, kept_is_ok. keeps.
Qed.

(** ** The adjustment of the issuance *)

Abbreviation DIV := FixedU256.DIV.

(** A ratio of at least one only shrinks a share. *)
Lemma adjusted_share v r : DIV ≤ r → U256.ok r → is_u128 v →
  to_balance (fxw v / Ok r)%F = Ok (v * DIV / r) ∧ 0 ≤ v * DIV / r ≤ v.
Proof.
  intros Hr Hok Hv. assert (0 < DIV) by done.
  assert (Hle : 0 ≤ v * DIV / r ≤ v).
  { destruct Hv. split; [apply Z.div_pos; nia|]. apply Z.div_le_upper_bound; nia. }
  split; [|done]. assert (Hd : (fxw v / Ok r)%F = Ok (v * DIV / r)).
  { apply FixedWrapper256.wrapper_div_ok; [by apply FixedWrapper256.u128_wf|by apply FixedWrapper256.from_wf|].
    exists v, r. split_and!; [done|done|lia|done|]. apply u128_ok. destruct Hv. split; lia. }
  rewrite Hd. apply to_balance_ok; [rewrite <- Hd; apply FixedWrapper256.div_wf;
    [by apply FixedWrapper256.u128_wf|by apply FixedWrapper256.from_wf]|]. destruct Hv. split; [done|lia].
Qed.

Lemma adjust_shares_run pool r providers : DIV ≤ r → U256.ok r → ∀ s acc,
  NoDup providers.*1 → (∀ a v, (a, v) ∈ providers → PoolProviders s !! (pool, a) = Some v ∧ 0 ≤ v) →
  0 ≤ acc → acc + sum_by snd providers ≤ u128_max →
  ∃ m acc', adjust_shares pool (Ok r) providers acc s = (Ok acc', set_providers m s) ∧
    acc ≤ acc' ≤ acc + sum_by snd providers ∧
    (∀ k v, m !! k = Some v → PoolProviders s !! k = Some v ∨ 0 ≤ v) ∧
    ∀ q, pool_sum m q = pool_sum (PoolProviders s) q + of_pool q ((pool, pool), acc' - acc - sum_by snd providers).
Proof.
  intros Hr Hok. induction providers as [|[a v] providers IH]; intros s acc Hnd Hin H0 Hmax.
  - exists (PoolProviders s), acc. cbn in *. split_and!; [by destruct s|lia|lia|auto|].
    intros q. unfold of_pool. cbn. case_bool_decide; lia.
  - apply NoDup_cons in Hnd as [Hni Hnd]. rewrite sum_by_cons in Hmax |- *. cbn [snd] in *.
    destruct (Hin a v) as [Hv Hv0]; [by left|].
    assert (Hrest : 0 ≤ sum_by snd providers).
    { apply sum_by_nonneg. intros [a' v'] Hp. by apply (Hin a' v'); right. }
    destruct (adjusted_share v r) as [Hb Hle]; [done|done|split; lia|].
    set (v' := v * DIV / r) in *. clearbody v'.
    destruct (IH (set_providers (<[(pool, a) := v']> (PoolProviders s)) s) (acc + v')) as (m & acc' & Hrun & Hacc & Hm & Hsum).
    + done.
    + intros a' w Hp. destruct (Hin a' w) as [Hw ?]; [by right|]. cbn. rewrite lookup_insert_ne; [done|].
      intros [= ->]. apply Hni, list_elem_of_fmap. by exists (a', w).
    + lia.
    + lia.
    + exists m, acc'. cbn [adjust_shares]. unfold mbind, M_bind, lift, modify, ok_or. cbn [fst snd].
      rewrite Hb. unfold u128_checked_add. rewrite checked_fits by lia. cbn. cbn in Hrun. split_and!.
      * rewrite Hrun. by destruct s.
      * lia.
      * lia.
      * intros k w [Hk|?]%Hm; [|by right]. cbn in Hk. apply lookup_insert_Some in Hk as [[_ <-]|[_ ?]]; [right; lia|by left].
      * intros q. rewrite Hsum. cbn [PoolProviders set_providers]. rewrite pool_sum_insert, Hv. cbn [default from_option].
        unfold of_pool. cbn. case_bool_decide; lia.
Qed.

Context `{!BalanceRange L}.

Lemma reserves_range pool base a b s r s' : get_actual_reserves pool base a b s = (Ok r, s') →
  is_u128 (fst (fst r)) ∧ is_u128 (snd (fst r)) ∧ s' = s.
Proof.
  unfold get_actual_reserves, u128_checked_add. intros Hr.
  apply M_bind_ok in Hr as ([[tpair cb] ic] & s1 & [_ ->]%M_lift_ok & Hr).
  apply M_bind_ok in Hr as (s0 & s1 & [-> ->]%M_get_state_ok & Hr).
  apply M_bind_ok in Hr as (rb & s1 & [Hb%assets_balance_ok ->]%M_lift_ok & Hr).
  apply M_bind_ok in Hr as (rt & s1 & [Ht%assets_balance_ok ->]%M_lift_ok & Hr).
  apply M_bind_ok in Hr as (rc & s1 & Hc & Hr). apply M_bind_ok in Hr as (sum & s2 & [Hs ->]%M_ok_or_ok & Hr).
  assert (Hrc : 0 ≤ rc ∧ s1 = s).
  { destruct cb; [destruct ic|]; [|by apply M_ret_ok in Hc as [-> ->]..].
    apply M_lift_ok in Hc as [->%assets_balance_ok ->]. split; [apply balance_range|done]. }
  destruct Hrc as [Hc0 ->]. apply checked_Some in Hs as [-> Hs].
  assert (Hrt : is_u128 rt) by (subst rt; apply balance_range).
  assert (Hrb : is_u128 rb) by (subst rb; apply balance_range).
  assert (Hsum : is_u128 (rb + rc)) by (destruct Hrb; split; lia).
  destruct (bool_decide (target_asset_id tpair = a)); by apply M_ret_ok in Hr as [-> ->].
Qed.

Lemma sqrt_run x : is_u128 x → FixedWrapper256.sqrt_accurate (fxw x) = Ok (Z.sqrt (x * DIV)).
Proof.
  intros Hx. unfold FixedWrapper256.sqrt_accurate, FixedU256.sqrt, FixedU256.try_sqrt.
  change (FixedWrapper256.from x) with (Ok (E := ArithmeticError) x). cbn [mbind result_bind].
  destruct (Z.eqb_spec x 0) as [->|]; [done|].
  assert (Hxd : U256.ok (x * DIV)).
  { destruct Hx as [? Hx]. unfold U256.ok, DIV. change u128_max with (2 ^ 128 - 1) in Hx. lia. }
  assert (E : U256.checked_mul x DIV = Some (x * DIV)).
  { unfold U256.checked_mul. apply checked_fits. destruct Hxd. unfold U256.max. lia. }
  rewrite E, sqrt_ok by done. done.
Qed.

Lemma sqrt_wf x : is_u128 x → FixedWrapper256.wf (FixedWrapper256.sqrt_accurate (fxw x)).
Proof.
  intros Hx. rewrite sqrt_run by done. apply FixedWrapper256.from_wf. split; [apply Z.sqrt_nonneg|].
  destruct Hx as [? Hx]. change u128_max with (2 ^ 128 - 1) in Hx.
  eapply Z.le_lt_trans; [apply Z.sqrt_le_lin|]; unfold DIV; lia.
Qed.

Lemma kept_adjust dex base target : kept (adjust_liquidity_in_pool dex base target).
Proof.
  unfold adjust_liquidity_in_pool. apply kept_bind; [keeps|]. intros [pair acc].
  generalize (tech_account_id_to_account_id (snd (pair, acc))). intros pool s Hs. unfold mbind at 1, M_bind at 1.
  destruct (get_actual_reserves pool base base target s) as [[[[b t] mx]|e] s1] eqn:Er.
  2: { pose proof (kept_reserves pool base base target s Hs) as Hk. by rewrite Er in Hk. }
  apply reserves_range in Er as (Hb & Ht & ->). cbn [fst snd] in *. unfold mbind at 1, M_bind at 1. cbn [get_state].
  destruct (TotalIssuances s !! pool) as [iss|] eqn:Ei; [|done]. unfold mbind at 1, M_bind at 1. cbn [ok_or mret M_ret].
  set (ratio := (_ / _)%F). destruct (FixedWrapper256.lt _ _) eqn:Elt; [done|].
  set (providers := iter_prefix (PoolProviders s) pool). pose proof Hs as [Hsum Hnn Hmax].
  assert (Hiss : iss = sum_by snd providers).
  { unfold providers. rewrite <- pool_sum_iter, Hsum. unfold issued. by rewrite Ei. }
  assert (Hiss0 : is_u128 iss).
  { split; [|specialize (Hmax pool); unfold issued in Hmax; by rewrite Ei in Hmax].
    rewrite Hiss. apply sum_by_nonneg. intros [k v] Hk%elem_of_iter_prefix. eauto. }
  assert (Hwf : FixedWrapper256.wf ratio).
  { apply FixedWrapper256.div_wf; [by apply FixedWrapper256.u128_wf|].
    apply FixedWrapper256.mul_wf; by apply sqrt_wf. }
  clearbody ratio. destruct ratio as [r|e].
  - assert (Hr : DIV ≤ r).
    { revert Elt. unfold FixedWrapper256.lt, FixedWrapper256.try_from, FixedU256.try_from. cbn.
      pose proof ratio_range. destruct (Z.ltb_spec GetMaxIssuanceRatio 0); [unfold DIV in *; lia|]. cbn. lia. }
    destruct (adjust_shares_run pool r providers Hr (Hwf r eq_refl) s 0) as (m & acc' & Hrun & Hacc & Hm & Hps).
    + apply NoDup_iter_prefix.
    + intros a v Hv%elem_of_iter_prefix. eauto.
    + done.
    + rewrite <- Hiss. by apply Hiss0.
    + unfold mbind, M_bind. rewrite Hrun. unfold modify, deposit_event. cbn. rewrite <- Hiss in *. split; cbn.
      * intros q. rewrite Hps, Hsum. unfold issued. cbn. unfold of_pool. cbn. case_bool_decide as Eq.
        { subst q. rewrite lookup_insert_eq, Ei. cbn. lia. }
        { rewrite lookup_insert_ne by done. lia. }
      * intros k v [?|?]%Hm; [eauto|done].
      * intros q. unfold issued. cbn. destruct (decide (pool = q)) as [<-|].
        { rewrite lookup_insert_eq. cbn. destruct Hiss0. lia. }
        { rewrite lookup_insert_ne by done. apply Hmax. }
  - destruct providers as [|[a v] providers']; [|done]. unfold mbind, M_bind, modify, deposit_event. cbn.
    assert (E : ∀ q, default 0 (<[pool := 0]> (TotalIssuances s) !! q) = issued s q).
    { intros q. unfold issued. destruct (decide (pool = q)) as [<-|];
        [rewrite lookup_insert_eq, Ei; by rewrite Hiss|by rewrite lookup_insert_ne]. }
    split; unfold issued; cbn; [intros q; by rewrite E|done|intros q; by rewrite E].
Qed.
Hint Resolve kept_adjust : kept.

Lemma kept_denominate dex base target asset pool : kept (denominate_pool dex base target asset pool).
Proof. unfold denominate_pool, top_up, fix_pool_parameters. keeps. Qed.
Hint Resolve kept_denominate : kept.

Lemma kept_denominate_xor : kept denominate_xor.
Proof. unfold denominate_xor. keeps. Qed.
Lemma kept_denominate_tbcd : kept denominate_tbcd.
Proof. unfold denominate_tbcd. keeps. Qed.
Lemma kept_on_initialize block : kept (on_initialize block).
Proof. unfold on_initialize. keeps. Qed.

(** ** Transfers of shares *)

Lemma shares_ext s s' : PoolProviders s' = PoolProviders s → (∀ q, issued s' q = issued s q) → shares_ok s → shares_ok s'.
Proof. intros E1 E2 [Hs Hn Hr]. split; rewrite ?E1; intros; rewrite ?E2; eauto. Qed.

Lemma kept_transfer_lp pool a b from to tokens : 0 ≤ tokens → kept_ok (transfer_lp_tokens pool a b from to tokens).
Proof.
  intros Ht s [] s' Hr Hok. unfold transfer_lp_tokens in Hr.
  apply M_bind_ok in Hr as (s0 & s1 & [-> ->]%M_get_state_ok & Hr).
  apply M_bind_ok in Hr as (old & s1 & [Hold ->]%M_ok_or_ok & Hr).
  apply M_bind_ok in Hr as (new & s1 & [Hnew ->]%M_ok_or_ok & Hr).
  apply checked_Some in Hnew as [-> Hnew]. apply M_bind_ok in Hr as ([] & s1 & ->%M_modify_ok & Hr).
  apply M_bind_ok in Hr as (s0 & s1 & [-> ->]%M_get_state_ok & Hr). apply M_bind_ok in Hr as ([] & s1 & Hs1 & ->%M_modify_ok).
  assert (Hsame : PoolProviders s1 = (if old - tokens =? 0 then delete (pool, from) (PoolProviders s)
                    else <[(pool, from) := old - tokens]> (PoolProviders s)) ∧ TotalIssuances s1 = TotalIssuances s).
  { unfold insert_account_pool in Hs1. destruct (_ && _); run; done. }
  clear Hs1. destruct Hsame as [Hp1 Hi1]. pose proof Hok as [_ _ Hmax].
  (* As if the tokens left the pool, and came back. *)
  set (s2 := set_issuances (<[pool := issued s pool - tokens]> (TotalIssuances s)) s1).
  assert (Hok2 : shares_ok s2).
  { apply (shares_change s s2 pool from (- tokens) (old - tokens)); try done; [by left| |lia|specialize (Hmax pool); lia].
    unfold share. by rewrite Hold. }
  assert (Hiss2 : issued s2 pool = issued s pool - tokens) by (unfold issued at 1; cbn; by rewrite lookup_insert_eq).
  pose proof (share_le s2 pool to Hok2) as Hto. unfold share in Hto. cbn in Hto. rewrite Hp1.
  specialize (Hmax pool). rewrite <- Hp1. rewrite u128_wrap_small by (split; lia).
  eapply shares_ext; [| |apply (shares_change s2 (set_issuances (<[pool := issued s2 pool + tokens]> (TotalIssuances s2))
    (set_providers (<[(pool, to) := share s2 pool to + tokens]> (PoolProviders s2)) s2)) pool to tokens _ Hok2
    (or_intror eq_refl) eq_refl eq_refl)].
  - done.
  - intros q. rewrite Hiss2. unfold issued. cbn. rewrite Hi1. destruct (decide (pool = q)) as [<-|].
    + rewrite lookup_insert_eq. cbn. unfold issued. lia.
    + by rewrite !lookup_insert_ne.
  - unfold share. cbn. lia.
  - lia.
Qed.

(** ** All operations *)

(** The dispatchables of the pallet, what other pallets call, the hook of a block,
    and whatever leaves the shares alone. *)
Inductive pool_step : t L → t L → Prop :=
  | step_exchange sender receiver dex a b amt s : pool_step s (snd (exchange sender receiver dex a b amt s))
  | step_deposit_liquidity origin dex a b da db ma mb s :
      pool_step s (snd (deposit_liquidity origin dex a b da db ma mb s))
  | step_withdraw_liquidity origin dex a b k ma mb s :
      pool_step s (snd (withdraw_liquidity origin dex a b k ma mb s))
  | step_initialize_pool hash (p : Permissions.t L) origin dex a b s :
      pool_step s (snd (initialize_pool hash p origin dex a b s))
  | step_transfer_lp_tokens pool a b from to tokens s : 0 ≤ tokens →
      pool_step s (snd (with_transaction (transfer_lp_tokens pool a b from to tokens) s))
  | step_on_initialize block s : pool_step s (snd (on_initialize block s))
  | step_denominate_xor s : pool_step s (snd (denominate_xor s))
  | step_denominate_tbcd s : pool_step s (snd (denominate_tbcd s))
  | step_elsewhere s s' : PoolProviders s' = PoolProviders s → TotalIssuances s' = TotalIssuances s → pool_step s s'.

(** C8. In every state that is reached from one without shares, whatever the
    operations and whether they succeed or fail, the issuance of each pool is the
    sum of the shares of its providers.  This includes the periodic adjustment of
    the issuance and its failures, which keep what was written. *)
Theorem pool_shares_add_up s s' : PoolProviders s = ∅ → TotalIssuances s = ∅ → rtc pool_step s s' → shares_ok s'.
Proof.
  intros Hp Hi Hr. assert (Hs : shares_ok s).
  { split; unfold issued; rewrite ?Hp, ?Hi; done. }
  clear Hp Hi. induction Hr as [|s1 s2 s3 Hstep _ IH]; [done|]. apply IH. clear IH. destruct Hstep.
  - by apply kept_exchange.
  - by apply kept_deposit_liquidity.
  - by apply kept_withdraw_liquidity.
  - by apply kept_initialize_pool.
  - by apply kept_transaction; [apply kept_transfer_lp|].
  - by apply kept_on_initialize.
  - by apply kept_denominate_xor.
  - by apply kept_denominate_tbcd.
  - by eapply shares_same.
Qed.
End shares.
