(* ===== verification/PoolLiquidity.v ===== *)
(** * Liquidity of a pool ([pallets/pool-xyk/src/action_deposit_liquidity.rs],
    [action_withdraw_liquidity.rs])

    What a deposit and a withdrawal that succeed do to balances and shares, for
    pools without a chameleon asset: the reserves per token do not fall, a round
    trip makes no profit, and locked or staked tokens stay. *)

From S2P Require Import Prelude BTreeMap FixedPoint Helpers256 FixedU256 Units OrderTypes SwapTypes PoolMath DataLayer.
From S2P Require Import World Permissions TradingPair OrderBook WorldRefine Scheduler Pallet Technical PoolXyk PoolSwaps PoolShares.
Import PoolXyk.

Section liquidity.
Context {PC : PoolConfig} {PP : PoolParams} {SK : StorageKeys} {TH : TechHash}.
Context {L : Type} `{MultiCurrency L} {IS : Issuance L} {AI : AssetInfo L} {PR : Providers L}.
Context {RF : Permissions.References L} {HK : PoolHooks L}.
Context `{!MultiCurrencyLaws L} `{!PoolLaws L} {CO : PoolConfigOk}.
Context `{!Inj (=) (=) tech_account_id_to_account_id}.
Implicit Types (s : t L).

(** ** Deposits *)

Definition deposit_action (pool : TechAccountId) (a b : AssetId) (da db ma mb : Balance) : DepositLiquidityAction :=
  mkDeposit None None pool
    (mkResource a (Bounds.RangeFromDesiredToMin da ma), mkResource b (Bounds.RangeFromDesiredToMin db mb)) 0 None.

(** What [deposit_prepare] makes of it. *)
Record deposit_prepared (act : DepositLiquidityAction) (who : AccountId) (pool : TechAccountId) (a b : AssetId)
    (x y k : Z) : Prop := {
  deposit_client : dl_client_account act = Some who;
  deposit_receiver : dl_receiver_account act = Some who;
  deposit_pool : dl_pool_account act = pool;
  deposit_source_a : asset (fst (dl_source act)) = a ∧ Bounds.unwrap (amount (fst (dl_source act))) = Ok x;
  deposit_source_b : asset (snd (dl_source act)) = b ∧ Bounds.unwrap (amount (snd (dl_source act))) = Ok y;
  deposit_tokens : dl_pool_tokens act = k
}.

(** The amounts and the tokens of a deposit into reserves [ra] and [rb]: an empty
    pool takes what is desired. *)
Definition first_terms (da db x y k : Z) : Prop :=
  x = da ∧ y = db ∧ MIN_XOR ≤ da ∧
  ∃ K, to_balance (FixedWrapper256.multiply_and_sqrt (fxw da) (fxw db)) = Ok K ∧ k = u128_wrap (K - MIN_LIQUIDITY).
Definition deposit_terms (total : option Balance) (ra rb da db ma mb x y k : Z) : Prop :=
  ∃ t, total = Some t ∧ t + MIN_LIQUIDITY ≤ u128_max ∧ ma ≤ da ∧ mb ≤ db ∧
    calc_deposit_liquidity_1 (t + MIN_LIQUIDITY) ra rb da db ma mb = Ok (x, y, k).

Lemma decide_deposit_ok act p ra rb da db ma mb s r s' :
  amount (fst (dl_source act)) = Bounds.RangeFromDesiredToMin da ma →
  amount (snd (dl_source act)) = Bounds.RangeFromDesiredToMin db mb →
  decide_deposit act p ra rb s = (Ok r, s') →
  s' = s ∧ ∃ x y k, r = (Bounds.Calculated x, Bounds.Calculated y, k) ∧
    deposit_terms (TotalIssuances s !! p) ra rb da db ma mb x y k.
Proof.
  intros Ea Eb Hr. unfold decide_deposit, check in Hr. rewrite Ea, Eb in Hr.
  apply M_bind_ok in Hr as ([] & s1 & [Hle ->]%M_ensure_ok & Hr).
  apply M_bind_ok in Hr as (s0 & s1 & [-> ->]%M_get_state_ok & Hr).
  apply M_bind_ok in Hr as (t & s1 & [Ht ->]%M_ok_or_ok & Hr).
  apply M_bind_ok in Hr as (t' & s1 & [[-> Hmax]%checked_Some ->]%M_ok_or_ok & Hr).
  apply M_bind_ok in Hr as ([[x y] k] & s1 & [Hcalc ->]%M_lift_ok & Hr).
  apply M_bind_ok in Hr as (rc & s1 & [_ ->]%M_ok_or_ok & Hr).
  apply M_bind_ok in Hr as ([] & s1 & [_ ->]%M_ensure_ok & [-> ->]%M_ret_ok).
  zbool. split; [done|]. exists x, y, k. split; [done|]. exists t. split_and!; try done; lia.
Qed.

Lemma deposit_prepare_ok who pool base a b da db ma mb s act s' : GetChameleonPools base = None →
  deposit_prepare (deposit_action pool a b da db ma mb) (Some who) base s = (Ok act, s') →
  let p := tech_account_id_to_account_id pool in let ra := balance s a p in let rb := balance s b p in
  s' = s ∧ a ≠ b ∧ (base = a ∨ base = b) ∧
  ∃ x y k, deposit_prepared act who pool a b x y k ∧ x ≤ balance s a who ∧ y ≤ balance s b who ∧
    ((ra = 0 ∧ rb = 0 ∧ first_terms da db x y k) ∨
     (ra ≠ 0 ∧ rb ≠ 0 ∧ deposit_terms (TotalIssuances s !! p) ra rb da db ma mb x y k)).
Proof.
  intros Hc Hr p ra rb. unfold deposit_prepare in Hr. change (deposit_is_abstract _) with false in Hr.
  cbn [deposit_action dl_client_account dl_receiver_account dl_pool_account dl_source dl_pool_tokens dl_min_liquidity
    decide_client or_client fst snd asset amount] in Hr. fold p in Hr. unfold check in Hr.
  apply M_bind_ok in Hr as (ac & s1 & Hac & Hr).
  assert (Eac : ac = (Some who, Some who) ∧ s1 = s) by (run; done). destruct Eac as [-> ->]. clear Hac. cbn [fst snd] in Hr.
  apply M_bind_ok in Hr as ([] & s1 & [-> _]%valid_pool_ok & Hr).
  apply M_bind_ok in Hr as (s0 & s1 & [-> ->]%M_get_state_ok & Hr).
  apply M_bind_ok in Hr as (bal & s1 & Hbal & Hr).
  assert (Ebal : bal = Some (balance s a who, balance s b who) ∧ s1 = s).
  { run. repeat match goal with H : Assets.free_balance _ _ _ = Ok _ |- _ => apply assets_balance_ok in H as -> end. done. }
  destruct Ebal as [-> ->]. clear Hbal.
  apply M_bind_ok in Hr as (res & s1 & Hres & Hr). apply reserves_plain in Hres as (-> & Hn & Hb & ->); [|done].
  fold ra rb in Hr. apply M_bind_ok in Hr as ([] & s1 & [Hvalid ->]%M_ensure_ok & Hr).
  apply M_bind_ok in Hr as (init & s1 & Hinit & Hr).
  apply M_bind_ok in Hr as (pk & s2 & [Hpk ->]%M_lift_ok & Hr).
  apply M_bind_ok in Hr as (dec & s2 & Hdec & Hr).
  destruct dec as [[a0 a1] tokens].
  apply M_bind_ok in Hr as (ml & s3 & [-> ->]%M_ret_ok & Hr).
  apply M_bind_ok in Hr as ([] & s3 & Hfunds & [-> ->]%M_ret_ok).
  destruct ((ra =? 0) && (rb =? 0)) eqn:Hempty; cbn [andb negb orb] in *.
  - run. repeat match goal with H : Bounds.to_option _ = Some _ |- _ => injection H as <-
      | H : Bounds.unwrap _ = Ok _ |- _ => injection H as <- end.
    cbn [fst snd] in *. unfold decide_pool_k in Hpk. apply result_bind_ok in Hpk as (K & HKK & [= ->]).
    zbool. split_and!; try done. exists da, db. eexists. split_and!; try done.
    left. unfold first_terms. split_and!; try done. by eexists.
  - apply M_ret_ok in Hinit as [-> ->]. apply decide_deposit_ok with (da := da) (db := db) (ma := ma) (mb := mb) in Hdec
      as (-> & x & y & k & [= -> -> ->] & Hterms); [|done..].
    assert (Hf : s3 = s ∧ x ≤ balance s a who ∧ y ≤ balance s b who) by (cbn in Hfunds; run; zbool; done).
    destruct Hf as (-> & ? & ?). split_and!; try done. exists x, y, k. split_and!; try done.
    right. by zbool.
Qed.

(** The state after a deposit. *)
Record deposited (who p : AccountId) (base a b : AssetId) (x y k : Z) s s' : Prop := {
  deposited_balances c z :
    balance s' c z = balance s c z - moved a who x c z + moved a p x c z - moved b who y c z + moved b p y c z;
  deposited_share : share s' p who = share s p who + k;
  deposited_issued : issued s' p = issued s p + k;
  deposited_others q : q ≠ (p, who) → PoolProviders s' !! q = PoolProviders s !! q;
  deposited_shares : shares_ok s';
  deposited_range : balances_ok s → balances_ok s';
  deposited_cache : Reserves s' = <[(base, other_asset base a b) := (balance s' base p, balance s' (other_asset base a b) p)]> (Reserves s);
  deposited_books : market s' = market s ∧ Properties s' = Properties s ∧ LockerData s' = LockerData s ∧
    UserInfos s' = UserInfos s ∧ now s' = now s ∧ Technical.TechAccounts (technical s') = Technical.TechAccounts (technical s)
}.

Lemma mint_balance p who k s s' : mint p who k s = (Ok tt, s') → ∀ c z, balance s' c z = balance s c z.
Proof.
  intros Hr c z. unfold mint in Hr. apply M_bind_ok in Hr as (s0 & s1 & [-> ->]%M_get_state_ok & Hr).
  apply M_bind_ok in Hr as ([] & s1 & Hl & Hr).
  assert (Hl1 : balance s1 c z = balance s c z).
  { destruct (PoolProviders s !! (p, who)); run; [done|]. unfold balance. cbn. by eapply consumers_balance. }
  run. unfold balance in *. cbn. done.
Qed.

Lemma deposit_reserve_ok act who pool base a b x y k s s' : GetChameleonPools base = None → shares_ok s → 0 ≤ k →
  deposit_prepared act who pool a b x y k → deposit_reserve act who base s = (Ok tt, s') →
  deposited who (tech_account_id_to_account_id pool) base a b x y k s s'.
Proof.
  intros Hc Hok Hk [Hcl Hrc Hpl [Ha Hx] [Hb Hy] Htk] Hr. unfold deposit_reserve in Hr.
  rewrite Hcl, Hrc, Hpl, Ha, Hx, Hb, Hy, Htk in Hr. clear Hcl Hrc Hpl Ha Hx Hb Hy Htk. set (p := tech_account_id_to_account_id pool) in *.
  apply M_bind_ok in Hr as ([] & s1 & [_ ->]%M_ensure_ok & Hr).
  apply M_bind_ok in Hr as (x' & s1 & [[= <-] ->]%M_lift_ok & Hr).
  apply M_bind_ok in Hr as ([] & s1 & [_ [l1 ->] Hb1 Hr1]%transfer_in_ok & Hr). fold p in Hb1.
  apply M_bind_ok in Hr as (y' & s2 & [[= <-] ->]%M_lift_ok & Hr).
  apply M_bind_ok in Hr as ([] & s2 & [_ [l2 ->] Hb2 Hr2]%transfer_in_ok & Hr). fold p in Hb2.
  apply M_bind_ok in Hr as (who' & s2 & [[= <-] ->]%M_ok_or_ok & Hr).
  apply M_bind_ok in Hr as (s0 & s2 & [-> ->]%M_get_state_ok & Hr).
  apply M_bind_ok in Hr as ([] & s2 & Hins & Hr).
  assert (Es2 : ∃ ap, s2 = set_account_pools ap (set_ledger l2 (set_ledger l1 s))).
  { unfold insert_account_pool in Hins. destruct (_ && _); run; [by eexists|]. exists (AccountPools s). by destruct s. }
  clear Hins. destruct Es2 as [ap ->]. apply M_bind_ok in Hr as ([] & s3 & Hm & Hr).
  pose proof (mint_balance _ _ _ _ _ Hm) as Hbm.
  apply mint_ok in Hm as (Hok3 & Hsh & His & Hoth & l3 & E3 & _); [|by apply (shares_same s)|done].
  apply refresh_plain in Hr as (Hb4 & Hcache & l4 & E4); [|done]. fold p in Hcache.
  assert (Hbal : ∀ c z, balance s3 c z = balance (set_ledger l2 (set_ledger l1 s)) c z) by (intros; rewrite Hbm; done).
  assert (Es' : PoolProviders s' = PoolProviders s3 ∧ TotalIssuances s' = TotalIssuances s3) by (by rewrite E4).
  destruct Es' as [Ep Ei]. split.
  - intros c z. rewrite Hb4, Hbal, Hb2, Hb1. lia.
  - unfold share. rewrite Ep. exact Hsh.
  - unfold issued. rewrite Ei. exact His.
  - intros q Hq. rewrite Ep, (Hoth q Hq). done.
  - by apply (shares_same s3).
  - intros Hr0 c z. rewrite Hb4, Hbal. apply Hr2, Hr1, Hr0.
  - rewrite Hcache, !Hb4, E3. done.
  - rewrite E4, E3. done.
Qed.

Lemma create_swap_ok source (act : PolySwapAction) base s s' : create_swap source act base s = (Ok tt, s') →
  ∃ act' s1 s2, prepare_and_validate act (Some source) base s = (Ok act', s1) ∧
    reserve act' source base s1 = (Ok tt, s2) ∧ s' = add_event (SwapSuccess source) s2.
Proof.
  unfold create_swap, Technical.create_swap. intros Hr. apply M_bind_ok in Hr as ([] & s0 & [_ ->]%M_ensure_ok & Hr).
  apply M_bind_ok in Hr as (act' & s1 & Hp & (s2 & Hres & ->)%create_swap_unchecked_ok). eauto 6.
Qed.

Lemma deposited_event e who p base a b x y k s s' :
  deposited who p base a b x y k s s' → deposited who p base a b x y k s (add_event e s').
Proof. intros [? ? ? ? ? ? ? ?]. split; try done. by apply (shares_same s'). Qed.

Lemma deposit_liquidity_ok who dex info a b da db ma mb s s' : DEXInfos (market s) !! dex = Some info →
  let base := dex_base_asset_id info in GetChameleonPools base = None → shares_ok s →
  deposit_liquidity (Signed who) dex a b da db ma mb s = (Ok tt, s') →
  let p := pool_account dex base a b in let ra := balance s a p in let rb := balance s b p in
  (a ≠ b ∧ (base = a ∨ base = b)) ∧ 0 < ma ≤ da ∧ 0 < mb ≤ db ∧
  ∃ x y k, deposited who p base a b x y k s s' ∧ 0 ≤ k ∧ x ≤ balance s a who ∧ y ≤ balance s b who ∧
    ((ra = 0 ∧ rb = 0 ∧ first_terms da db x y k) ∨
     (ra ≠ 0 ∧ rb ≠ 0 ∧ deposit_terms (TotalIssuances s !! p) ra rb da db ma mb x y k)).
Proof.
  intros Hd base Hc Hok Hr. unfold deposit_liquidity, ensure_signed, check in Hr.
  apply M_bind_ok in Hr as (src & s1 & [-> ->]%M_ret_ok & Hr).
  apply M_bind_ok in Hr as ([] & s1 & [_ ->]%M_ensure_ok & Hr).
  apply M_bind_ok in Hr as ([] & s1 & [H1 ->]%M_ensure_ok & Hr).
  apply M_bind_ok in Hr as ([] & s1 & [H2 ->]%M_ensure_ok & Hr).
  apply M_bind_ok in Hr as ([] & s1 & [H3 ->]%M_ensure_ok & Hr).
  do 2 (apply M_bind_ok in Hr as ([] & s1 & ->%regulated_ok & Hr)).
  unfold deposit_liquidity_unchecked in Hr. apply M_bind_ok in Hr as (i & s1 & [Hi ->]%get_dex_info_ok & Hr).
  rewrite Hd in Hi. injection Hi as <-. apply M_bind_ok in Hr as (r & s1 & Ht & Hr).
  apply (pool_tech_ok _ info) in Ht as (-> & Hn & Hb & Ht); [|done..]. rewrite Ht in Hr. fold base in Hr.
  apply create_swap_ok in Hr as (act & s1 & s2 & Hp & Hres & ->).
  unfold prepare_and_validate, poly_swap_action in Hp. apply M_bind_ok in Hp as (d & s3 & Hp & [-> ->]%M_ret_ok).
  assert (Hk : 0 ≤ dl_pool_tokens d) by (by eapply deposit_prepare_nonneg; [|exact Hp]).
  apply (deposit_prepare_ok who _ base a b da db ma mb) in Hp as (-> & _ & _ & x & y & k & Hp & Hx & Hy & Hterms); [|done].
  unfold reserve, poly_swap_action in Hres. rewrite (deposit_tokens _ _ _ _ _ _ _ _ Hp) in Hk.
  apply (deposit_reserve_ok _ _ _ _ _ _ _ _ _ _ _ Hc Hok Hk Hp), (deposited_event (SwapSuccess who)) in Hres.
  zbool. split; [done|]. do 2 (split; [lia|]). by exists x, y, k.
Qed.

(** ** The value of a share *)

(** Tokens that back the reserves: those of the providers, and the minimum that
    nobody owns. *)
Definition backing s (p : AccountId) : Z := issued s p + MIN_LIQUIDITY.

(** C20. A deposit into a pool is fair.  The depositor pays amounts within the
    requested bounds and gets tokens for them; nobody else's share changes; and
    the reserves per token do not fall, so the shares of the others do not lose
    value. *)
Theorem deposit_is_fair who dex info a b da db ma mb s s' : DEXInfos (market s) !! dex = Some info →
  let base := dex_base_asset_id info in GetChameleonPools base = None → shares_ok s → balances_ok s →
  is_u128 da → is_u128 db →
  let p := pool_account dex base a b in who ≠ p → 0 < balance s a p →
  deposit_liquidity (Signed who) dex a b da db ma mb s = (Ok tt, s') →
  ∃ x y k, 
    ma ≤ x ≤ da ∧ mb ≤ y ≤ db ∧ 0 ≤ k ∧
    balance s' a p = balance s a p + x ∧ balance s' b p = balance s b p + y ∧
    balance s' a who = balance s a who - x ∧ balance s' b who = balance s b who - y ∧
    share s' p who = share s p who + k ∧ issued s' p = issued s p + k ∧
    (∀ z, z ≠ who → share s' p z = share s p z) ∧
    balance s a p * backing s' p ≤ balance s' a p * backing s p ∧
    balance s b p * backing s' p ≤ balance s' b p * backing s p.
Proof.
  intros Hd base Hc Hok Hrange Hda Hdb p Hw Hne Hr.
  destruct (deposit_liquidity_ok _ _ _ _ _ _ _ _ _ _ _ Hd Hc Hok Hr) as ([Hn Hb] & Hma & Hmb & x & y & k & Hdep & Hk & _ & _ & Ht).
  fold base in Ht, Hdep. fold p in Ht, Hdep. destruct Ht as [[E _]|(_ & _ & t & Et & Htm & _ & _ & Hcalc)]; [lia|].
  assert (Hiss : issued s p = t) by (unfold issued; by rewrite Et).
  pose proof (share_le s p who Hok) as Hsh.
  apply calc_deposit_ok in Hcalc as (Hra & Hrb & Hx & Hy & Hx0 & Hy0 & Ek & _);
    [|split; unfold MIN_LIQUIDITY in *; lia|apply Hrange|apply Hrange|done|done|lia|lia].
  destruct Hdep as [Hbal Hs Hi Ho _ _ _ _]. exists x, y, k. rewrite !Hbal, !moved_eq.
  rewrite !(moved_asset a _ _ b), !(moved_asset b _ _ a), !(moved_who _ who _ _ p), !(moved_who _ p _ _ who) by congruence.
  split_and!; try done; try lia.
  - intros z Hz. unfold share. rewrite Ho; [done|]. congruence.
  - unfold backing. rewrite Hi, Hiss. replace (_ - _ + _ - _ + _) with (balance s a p + x) by lia.
    rewrite <- (Z.add_assoc t), (Z.add_comm k), Z.add_assoc. apply deposit_share; unfold MIN_LIQUIDITY in *; lia.
  - unfold backing. rewrite Hi, Hiss. replace (_ - _ + _ - _ + _) with (balance s b p + y) by lia.
    rewrite <- (Z.add_assoc t), (Z.add_comm k), Z.add_assoc. apply deposit_share; unfold MIN_LIQUIDITY in *; lia.
Qed.

(** *** The first deposit *)

Lemma first_tokens x y K : is_u128 x → is_u128 y → 1000000 ≤ x → 0 < y →
  to_balance (FixedWrapper256.multiply_and_sqrt (fxw x) (fxw y)) = Ok K →
  MIN_LIQUIDITY ≤ K ≤ u128_max ∧ K * K ≤ x * y.
Proof.
  intros Hx Hy Hmin Hy0 HK1. unfold FixedWrapper256.multiply_and_sqrt in HK1.
  rewrite to_balance_ok, FixedWrapper256.wrapper_mul_ok in HK1
    by first [by apply sqrt_wf|apply FixedWrapper256.mul_wf; by apply sqrt_wf].
  rewrite !sqrt_run in HK1 by done. destruct HK1 as ((u & v & [= <-] & [= <-] & -> & _) & Hmax).
  set (D := FixedU256.DIV) in *. assert (HD : D = 10 ^ 18) by done.
  destruct (Z.sqrt_spec (x * D)) as [Hu _]; [lia|]. destruct (Z.sqrt_spec (y * D)) as [Hv _]; [lia|].
  assert (Hu' : 10 ^ 12 ≤ Z.sqrt (x * D)) by (apply Z.sqrt_le_square; rewrite ?HD; lia).
  assert (Hv' : 10 ^ 9 ≤ Z.sqrt (y * D)) by (apply Z.sqrt_le_square; rewrite ?HD; lia).
  set (u := Z.sqrt (x * D)) in *. set (v := Z.sqrt (y * D)) in *. clearbody u v.
  assert (Hlow : MIN_LIQUIDITY ≤ u * v / D).
  { apply Z.div_le_lower_bound; [lia|]. unfold MIN_LIQUIDITY. rewrite HD. nia. }
  split; [exact (conj Hlow Hmax)|]. pose proof (Z.mul_div_le (u * v) D ltac:(lia)) as Hq. set (q := u * v / D) in *. clearbody q.
  assert (Hq0 : 0 ≤ q) by (unfold MIN_LIQUIDITY in *; lia).
  assert (H1 : (D * q) * (D * q) ≤ (u * v) * (u * v)) by (apply Z.mul_le_mono_nonneg; lia).
  assert (H2 : (u * u) * (v * v) ≤ (x * D) * (y * D)) by (apply Z.mul_le_mono_nonneg; lia).
  apply (Z.mul_le_mono_pos_l _ _ (D * D)); lia.
Qed.

(** The first deposit into an empty pool takes exactly the desired amounts.  The
    tokens are the integer part of the geometric mean of the amounts, less the
    minimum liquidity that stays in the pool; with the minimum amount of the
    runtime this never underflows. *)
Theorem first_deposit_locks_minimum who dex info a b da db ma mb s s' : DEXInfos (market s) !! dex = Some info →
  let base := dex_base_asset_id info in GetChameleonPools base = None → shares_ok s →
  is_u128 da → is_u128 db → 1000000 ≤ MIN_XOR →
  let p := pool_account dex base a b in who ≠ p → balance s a p = 0 →
  deposit_liquidity (Signed who) dex a b da db ma mb s = (Ok tt, s') →
  ∃ k, 0 ≤ k ∧ (k + MIN_LIQUIDITY) * (k + MIN_LIQUIDITY) ≤ da * db ∧
    balance s' a p = da ∧ balance s' b p = db ∧
    share s' p who = share s p who + k ∧ issued s' p = issued s p + k.
Proof.
  intros Hd base Hc Hok Hda Hdb Hmin p Hw H0 Hr.
  destruct (deposit_liquidity_ok _ _ _ _ _ _ _ _ _ _ _ Hd Hc Hok Hr) as ([Hn Hb] & Hma & Hmb & x & y & k & Hdep & Hk & _ & _ & Ht).
  fold base in Ht, Hdep. fold p in Ht, Hdep. destruct Ht as [(_ & Hb0 & -> & -> & Hxor & K & HK1 & ->)|(? & _)]; [|done].
  apply first_tokens in HK1 as [HK1 HK2]; [|done|done|lia|lia].
  rewrite u128_wrap_small in * by (split; unfold MIN_LIQUIDITY in *; lia).
  destruct Hdep as [Hbal Hs Hi _ _ _ _ _]. exists (K - MIN_LIQUIDITY).
  rewrite !Hbal, !moved_eq, H0, Hb0.
  rewrite !(moved_asset a _ _ b), !(moved_asset b _ _ a), !(moved_who _ who _ _ p) by congruence.
  rewrite Z.sub_add. split_and!; done || lia.
Qed.

(** ** Withdrawals *)

Definition withdraw_action (pool : TechAccountId) (a b : AssetId) (k ma mb : Balance) : WithdrawLiquidityAction :=
  mkWithdraw None None None pool k (mkResource a (Bounds.Min ma), mkResource b (Bounds.Min mb)).

(** What [withdraw_prepare] makes of it. *)
Record withdraw_prepared (act : WithdrawLiquidityAction) (who : AccountId) (pool : TechAccountId) (a b : AssetId)
    (x y k : Z) : Prop := {
  withdraw_client : wl_client_account act = Some who;
  withdraw_receivers : wl_receiver_account_a act = Some who ∧ wl_receiver_account_b act = Some who;
  withdraw_pool : wl_pool_account act = pool;
  withdraw_a : asset (fst (wl_destination act)) = a ∧ Bounds.unwrap (amount (fst (wl_destination act))) = Ok x;
  withdraw_b : asset (snd (wl_destination act)) = b ∧ Bounds.unwrap (amount (snd (wl_destination act))) = Ok y;
  withdraw_tokens : wl_pool_tokens act = k
}.

(** The part of a reserve that is paid for [k] of [t] tokens: all of it to the last
    provider. *)
Definition paid (r t k : Z) : Z := if k =? t then r else scaled_div r k (t + MIN_LIQUIDITY).

Lemma paid_ok r t k x : is_u128 r → is_u128 t → is_u128 k →
  (k =? t) = false →
  to_balance (fxw r * fxw k / FixedWrapper256.with_number FixedWrapper256.add (fxw t) MIN_LIQUIDITY)%F = Ok x →
  x = paid r t k.
Proof.
  intros Hr Ht Hk Hne. unfold paid. rewrite Hne.
  intros (c & Hc & H0 & -> & Hz)%mul_div_balance; [|done|done|].
  - apply FixedWrapper256.with_number_ok in Hc as [_ Hc].
    apply FixedWrapper256.wrapper_add_ok in Hc as (u & v & [= <-] & [= <-] & -> & _). done.
  - intros z [_ Hz]%FixedWrapper256.with_number_ok. by eapply FixedWrapper256.add_wf.
Qed.

Lemma decide_withdrawn_min m x e bnd : decide_withdrawn (Bounds.Min m) x e = Ok bnd → bnd = Bounds.Calculated x ∧ m ≤ x.
Proof. unfold decide_withdrawn. intros Hr. apply result_bind_ok in Hr as ([] & Hm & [= <-]). cbn in Hm. destruct (Z.leb_spec m x); done. Qed.

Lemma withdraw_prepare_ok who pool base a b k ma mb s act s' : GetChameleonPools base = None →
  balances_ok s → shares_ok s →
  withdraw_prepare (withdraw_action pool a b k ma mb) (Some who) base s = (Ok act, s') →
  let p := tech_account_id_to_account_id pool in let ra := balance s a p in let rb := balance s b p in
  s' = s ∧ a ≠ b ∧ (base = a ∨ base = b) ∧ 0 < k ≤ share s p who ∧ 0 < ra ∧ 0 < rb ∧
  check_if_has_enough_unlocked_liquidity s who base (other_asset base a b) k = true ∧
  check_if_has_enough_liquidity_out_of_farming s who base (other_asset base a b) k = true ∧
  let x := paid ra (issued s p) k in let y := paid rb (issued s p) k in
  withdraw_prepared act who pool a b x y k ∧ ma ≤ x ∧ mb ≤ y.
Proof.
  intros Hc Hrange Hok Hr p ra rb. unfold withdraw_prepare, check in Hr.
  apply M_bind_ok in Hr as (src & s1 & [[= <-] ->]%M_ok_or_ok & Hr).
  apply M_bind_ok in Hr as (cl & s1 & [[= <-] ->]%M_lift_ok & Hr).
  cbn [withdraw_action wl_client_account wl_receiver_account_a wl_receiver_account_b wl_pool_account wl_destination
    wl_pool_tokens or_client fst snd asset amount] in Hr. fold p in Hr.
  apply M_bind_ok in Hr as ([] & s1 & [-> _]%valid_pool_ok & Hr).
  apply M_bind_ok in Hr as (s0 & s1 & [-> ->]%M_get_state_ok & Hr).
  apply M_bind_ok in Hr as ([] & s1 & [_ ->]%M_ensure_ok & Hr).
  apply M_bind_ok in Hr as (res & s1 & Hres & Hr). apply reserves_plain in Hres as (-> & Hn & Hb & ->); [|done].
  fold ra rb in Hr. apply M_bind_ok in Hr as ([] & s1 & [_ ->]%M_ensure_ok & Hr).
  apply M_bind_ok in Hr as ([] & s1 & [Hpos ->]%M_ensure_ok & Hr).
  apply M_bind_ok in Hr as (t & s1 & [Ht ->]%M_ok_or_ok & Hr).
  apply M_bind_ok in Hr as (tp & s1 & [Htp ->]%M_lift_ok & Hr). rewrite trading_pair_run in Htp by done.
  injection Htp as <-. cbn [base_asset_id target_asset_id] in Hr.
  apply M_bind_ok in Hr as ([] & s1 & [Hlock ->]%M_ensure_ok & Hr).
  apply M_bind_ok in Hr as ([] & s1 & [Hfarm ->]%M_ensure_ok & Hr).
  apply M_bind_ok in Hr as ([] & s1 & [Hk ->]%M_ensure_ok & Hr).
  apply M_bind_ok in Hr as ([] & s1 & [Hle ->]%M_ensure_ok & Hr).
  apply M_bind_ok in Hr as (rec & s1 & [Hrec ->]%M_lift_ok & Hr).
  apply M_bind_ok in Hr as (b0 & s1 & [[-> Hma]%decide_withdrawn_min ->]%M_lift_ok & Hr).
  apply M_bind_ok in Hr as (b1 & s1 & [[-> Hmb]%decide_withdrawn_min ->]%M_lift_ok & Hr).
  do 2 (apply M_bind_ok in Hr as (v & s1 & [_ ->]%M_lift_ok & Hr); clear v). apply M_ret_ok in Hr as [-> ->].
  zbool. fold (share s p who) in Hle. pose proof (share_le s p who Hok) as Hsh. pose proof (shares_range s Hok p) as Hmax.
  assert (Hiss : issued s p = t) by (unfold issued; by rewrite Ht). rewrite Hiss in *.
  assert (Erec : rec = (paid ra t k, paid rb t k)).
  { destruct (negb (k =? t)) eqn:E; [apply negb_true_iff in E|apply negb_false_iff in E].
    2: { injection Hrec as <-. unfold paid. by rewrite E. }
    - apply result_bind_ok in Hrec as (x & Hx & Hrec). apply result_bind_ok in Hrec as (y & Hy & [= <-]).
      assert (Hut : is_u128 t) by (split; lia). assert (Huk : is_u128 k) by (split; lia).
      rewrite (paid_ok _ _ _ _ (Hrange a p) Hut Huk E Hx), (paid_ok _ _ _ _ (Hrange b p) Hut Huk E Hy). done. }
  subst rec. cbn [fst snd] in *. split_and!; done || lia.
Qed.

(** The state after a withdrawal. *)
Record withdrawn (who p : AccountId) (base a b : AssetId) (x y k : Z) s s' : Prop := {
  withdrawn_balances c z :
    balance s' c z = balance s c z - moved a p x c z + moved a who x c z - moved b p y c z + moved b who y c z;
  withdrawn_share : share s' p who = share s p who - k;
  withdrawn_issued : issued s' p = issued s p - k;
  withdrawn_others q : q ≠ (p, who) → PoolProviders s' !! q = PoolProviders s !! q;
  withdrawn_shares : shares_ok s';
  withdrawn_cache : Reserves s' = <[(base, other_asset base a b) := (balance s' base p, balance s' (other_asset base a b) p)]> (Reserves s);
  withdrawn_books : market s' = market s ∧ Properties s' = Properties s ∧ LockerData s' = LockerData s ∧
    UserInfos s' = UserInfos s ∧ now s' = now s ∧ Technical.TechAccounts (technical s') = Technical.TechAccounts (technical s)
}.

Lemma burn_balance p who k s s' : burn p who k s = (Ok tt, s') → ∀ c z, balance s' c z = balance s c z.
Proof.
  intros Hr c z. unfold burn in Hr. apply M_bind_ok in Hr as (s0 & s1 & [-> ->]%M_get_state_ok & Hr).
  apply M_bind_ok in Hr as (old & s1 & [_ ->]%M_ok_or_ok & Hr). apply M_bind_ok in Hr as (new & s1 & [_ ->]%M_ok_or_ok & Hr).
  apply M_bind_ok in Hr as ([] & s1 & Hl & Hr).
  assert (Hl1 : balance s1 c z = balance s c z).
  { destruct (new =? 0); run; [|done]. unfold balance. cbn. apply released_balance. }
  run. unfold balance in *. cbn. done.
Qed.

Lemma withdraw_reserve_ok act who pool base a b x y k s s' : GetChameleonPools base = None → shares_ok s →
  withdraw_prepared act who pool a b x y k → withdraw_reserve act who base s = (Ok tt, s') →
  withdrawn who (tech_account_id_to_account_id pool) base a b x y k s s'.
Proof.
  intros Hc Hok [Hcl [Hra Hrb] Hpl [Ha Hx] [Hb Hy] Htk] Hr. unfold withdraw_reserve in Hr.
  rewrite Hcl, Hra, Hrb, Hpl, Ha, Hx, Hb, Hy, Htk in Hr. clear Hcl Hra Hrb Hpl Ha Hx Hb Hy Htk.
  set (p := tech_account_id_to_account_id pool) in *.
  apply M_bind_ok in Hr as ([] & s1 & [_ ->]%M_ensure_ok & Hr).
  apply M_bind_ok in Hr as (who' & s1 & [[= <-] ->]%M_ok_or_ok & Hr).
  apply M_bind_ok in Hr as (x' & s1 & [[= <-] ->]%M_lift_ok & Hr).
  apply M_bind_ok in Hr as ([] & s1 & [_ [l1 ->] Hb1 Hr1]%transfer_out_ok & Hr). fold p in Hb1.
  apply M_bind_ok in Hr as (who' & s2 & [[= <-] ->]%M_ok_or_ok & Hr).
  apply M_bind_ok in Hr as (y' & s2 & [[= <-] ->]%M_lift_ok & Hr).
  apply M_bind_ok in Hr as ([] & s2 & [_ [l2 ->] Hb2 Hr2]%transfer_out_ok & Hr). fold p in Hb2.
  apply M_bind_ok in Hr as ([] & s3 & Hm & Hr). pose proof (burn_balance _ _ _ _ _ Hm) as Hbm.
  apply burn_ok in Hm as (Hok3 & Hsh & His & _ & Hoth & l3 & E3 & _); [|by apply (shares_same s)].
  apply M_bind_ok in Hr as (s0 & s4 & [-> ->]%M_get_state_ok & Hr). apply M_bind_ok in Hr as ([] & s4 & Hrem & Hr).
  assert (Es4 : ∃ ap, s4 = set_account_pools ap s3).
  { unfold remove_account_pool in Hrem. destruct (_ && _); run; [by eexists|]. exists (AccountPools s3). by destruct s3. }
  clear Hrem. destruct Es4 as [ap ->].
  apply refresh_plain in Hr as (Hb4 & Hcache & l4 & E4); [|done]. fold p in Hcache.
  assert (Es' : PoolProviders s' = PoolProviders s3 ∧ TotalIssuances s' = TotalIssuances s3) by (by rewrite E4).
  destruct Es' as [Ep Ei]. split.
  - intros c z. rewrite Hb4. change (balance (set_account_pools ap s3) c z) with (balance s3 c z). rewrite Hbm, Hb2, Hb1. lia.
  - unfold share. rewrite Ep. exact Hsh.
  - unfold issued. rewrite Ei. exact His.
  - intros q Hq. rewrite Ep, (Hoth q Hq). done.
  - by apply (shares_same s3).
  - rewrite Hcache, !Hb4, E3. done.
  - rewrite E4, E3. done.
Qed.

Lemma withdrawn_event e who p base a b x y k s s' :
  withdrawn who p base a b x y k s s' → withdrawn who p base a b x y k s (add_event e s').
Proof. intros [? ? ? ? ? ? ?]. split; try done. by apply (shares_same s'). Qed.

Lemma withdraw_liquidity_ok who dex info a b k ma mb s s' : DEXInfos (market s) !! dex = Some info →
  let base := dex_base_asset_id info in GetChameleonPools base = None → shares_ok s → balances_ok s →
  withdraw_liquidity (Signed who) dex a b k ma mb s = (Ok tt, s') →
  let p := pool_account dex base a b in let ra := balance s a p in let rb := balance s b p in
  (a ≠ b ∧ (base = a ∨ base = b)) ∧ 0 < k ≤ share s p who ∧ 0 < ra ∧ 0 < rb ∧
  check_if_has_enough_unlocked_liquidity s who base (other_asset base a b) k = true ∧
  check_if_has_enough_liquidity_out_of_farming s who base (other_asset base a b) k = true ∧
  let x := paid ra (issued s p) k in let y := paid rb (issued s p) k in
  0 < ma ≤ x ∧ 0 < mb ≤ y ∧ withdrawn who p base a b x y k s s'.
Proof.
  intros Hd base Hc Hok Hrange Hr. unfold withdraw_liquidity, ensure_signed, check in Hr.
  apply M_bind_ok in Hr as (src & s1 & [-> ->]%M_ret_ok & Hr).
  apply M_bind_ok in Hr as ([] & s1 & [_ ->]%M_ensure_ok & Hr).
  apply M_bind_ok in Hr as ([] & s1 & [H1 ->]%M_ensure_ok & Hr).
  apply M_bind_ok in Hr as ([] & s1 & [H2 ->]%M_ensure_ok & Hr).
  do 2 (apply M_bind_ok in Hr as ([] & s1 & ->%regulated_ok & Hr)).
  unfold withdraw_liquidity_unchecked in Hr. apply M_bind_ok in Hr as (i & s1 & [Hi ->]%get_dex_info_ok & Hr).
  rewrite Hd in Hi. injection Hi as <-. apply M_bind_ok in Hr as (r & s1 & Ht & Hr).
  apply (pool_tech_ok _ info) in Ht as (-> & Hn & Hb & Ht); [|done..]. rewrite Ht in Hr. fold base in Hr.
  apply create_swap_ok in Hr as (act & s1 & s2 & Hp & Hres & ->).
  unfold prepare_and_validate, poly_swap_action in Hp. apply M_bind_ok in Hp as (d & s3 & Hp & [-> ->]%M_ret_ok).
  apply (withdraw_prepare_ok who _ base a b k ma mb) in Hp as (-> & _ & _ & Hk & Hra & Hrb & Hl & Hf & Hp & Hma & Hmb); [|done..].
  unfold reserve, poly_swap_action in Hres.
  apply (withdraw_reserve_ok _ _ _ _ _ _ _ _ _ _ _ Hc Hok Hp), (withdrawn_event (SwapSuccess who)) in Hres.
  fold (pool_account dex base a b) in Hk, Hra, Hrb, Hma, Hmb, Hres. zbool. cbn zeta. split_and!; try done; lia.
Qed.

(** *** What a withdrawal pays *)

Lemma paid_share r t k : 0 ≤ r → 0 ≤ k ≤ t → k ≠ t →
  r * (t - k + MIN_LIQUIDITY) ≤ (r - paid r t k) * (t + MIN_LIQUIDITY).
Proof.
  intros Hr Hk Hne. unfold paid. rewrite (proj2 (Z.eqb_neq k t)) by done.
  replace (t - k + MIN_LIQUIDITY) with (t + MIN_LIQUIDITY - k) by lia.
  apply withdraw_share; unfold MIN_LIQUIDITY; done || lia.
Qed.

Lemma paid_back r t x k : 0 < r → 0 < t → 0 ≤ k → 0 ≤ x →
  r * (t + MIN_LIQUIDITY + k) ≤ (r + x) * (t + MIN_LIQUIDITY) → paid (r + x) (t + k) k ≤ x.
Proof.
  intros Hr Ht Hk Hx Hf. unfold paid. rewrite (proj2 (Z.eqb_neq k _)) by lia. unfold MIN_LIQUIDITY in *.
  destruct (scaled_bounds (r + x) k (t + k + 1000)) as (_ & Hb & _); [lia..|].
  apply (Z.mul_le_mono_pos_r _ _ (t + k + 1000)); lia.
Qed.

(** C21. A withdrawal is fair.  It burns tokens of the provider, who gets at least
    the requested minimum of both assets; nobody else's share changes; the last
    provider gets the whole pool, and otherwise the reserves per token do not
    fall. *)
Theorem withdraw_is_fair who dex info a b k ma mb s s' : DEXInfos (market s) !! dex = Some info →
  let base := dex_base_asset_id info in GetChameleonPools base = None → shares_ok s → balances_ok s →
  let p := pool_account dex base a b in who ≠ p →
  withdraw_liquidity (Signed who) dex a b k ma mb s = (Ok tt, s') →
  ∃ x y, ma ≤ x ∧ mb ≤ y ∧
    balance s' a p = balance s a p - x ∧ balance s' b p = balance s b p - y ∧
    balance s' a who = balance s a who + x ∧ balance s' b who = balance s b who + y ∧
    share s' p who = share s p who - k ∧ issued s' p = issued s p - k ∧
    (∀ z, z ≠ who → share s' p z = share s p z) ∧
    if k =? issued s p then balance s' a p = 0 ∧ balance s' b p = 0
    else balance s a p * backing s' p ≤ balance s' a p * backing s p ∧
         balance s b p * backing s' p ≤ balance s' b p * backing s p.
Proof.
  intros Hd base Hc Hok Hrange p Hw Hr.
  destruct (withdraw_liquidity_ok _ _ _ _ _ _ _ _ _ _ Hd Hc Hok Hrange Hr) as ([Hn Hb] & Hk & Hra & Hrb & _ & _ & Hma & Hmb & Hwd).
  fold base in Hk, Hra, Hrb, Hma, Hmb, Hwd. fold p in Hk, Hra, Hrb, Hma, Hmb, Hwd.
  destruct Hwd as [Hbal Hs Hi Ho _ _ _]. pose proof (share_le s p who Hok) as Hsh.
  exists (paid (balance s a p) (issued s p) k), (paid (balance s b p) (issued s p) k). rewrite !Hbal, !moved_eq.
  rewrite !(moved_asset a _ _ b), !(moved_asset b _ _ a), !(moved_who _ who _ _ p), !(moved_who _ p _ _ who) by congruence.
  split_and!; try done; try lia.
  - intros z Hz. unfold share. rewrite Ho; [done|]. congruence.
  - destruct (Z.eqb_spec k (issued s p)) as [E|Hne].
    + unfold paid. rewrite (proj2 (Z.eqb_eq _ _) E). lia.
    + unfold backing. rewrite Hi. rewrite !Z.add_0_r, !Z.sub_0_r. split; apply paid_share; lia.
Qed.

(** C11. Depositing and withdrawing the minted tokens again never makes a profit:
    while there are other providers, the account ends with at most what it had of
    both assets, whatever the rounding, and the pool with at least what it had. *)
Theorem deposit_withdraw_no_profit who dex info a b da db ma mb ma' mb' s s1 s2 : DEXInfos (market s) !! dex = Some info →
  let base := dex_base_asset_id info in GetChameleonPools base = None → shares_ok s → balances_ok s →
  is_u128 da → is_u128 db →
  let p := pool_account dex base a b in who ≠ p → 0 < balance s a p → 0 < issued s p →
  deposit_liquidity (Signed who) dex a b da db ma mb s = (Ok tt, s1) →
  withdraw_liquidity (Signed who) dex a b (share s1 p who - share s p who) ma' mb' s1 = (Ok tt, s2) →
  balance s2 a who ≤ balance s a who ∧ balance s2 b who ≤ balance s b who ∧
  balance s a p ≤ balance s2 a p ∧ balance s b p ≤ balance s2 b p ∧
  share s2 p who = share s p who ∧ issued s2 p = issued s p.
Proof.
  intros Hd base Hc Hok Hrange Hda Hdb p Hw Hne Hiss Hdep Hwd.
  destruct (deposit_liquidity_ok _ _ _ _ _ _ _ _ _ _ _ Hd Hc Hok Hdep) as ([Hn Hb] & Hma & Hmb & x & y & k & D & Hk & _ & _ & Ht).
  fold base in Ht, D. fold p in Ht, D. destruct Ht as [[E _]|(_ & _ & t & Et & Htm & _ & _ & Hcalc)]; [lia|].
  assert (Ei : issued s p = t) by (unfold issued; by rewrite Et). rewrite Ei in *.
  apply calc_deposit_ok in Hcalc as (Hra & Hrb & Hx & Hy & Hx0 & Hy0 & Ek & _);
    [|split; unfold MIN_LIQUIDITY in *; lia|apply Hrange|apply Hrange|done|done|lia|lia].
  destruct D as [Db Ds Di _ Dok Dr _ (Dm & _)]. rewrite <- Dm in Hd.
  destruct (withdraw_liquidity_ok _ _ _ _ _ _ _ _ _ _ Hd Hc Dok (Dr Hrange) Hwd) as (_ & Hk1 & _ & _ & _ & _ & _ & _ & W).
  fold base p in W. replace (share s1 p who - share s p who) with k in * by lia. destruct W as [Wb Ws Wi _ _ _ _].
  pose proof (deposit_share (balance s a p) (t + MIN_LIQUIDITY) x k Hra ltac:(unfold MIN_LIQUIDITY; lia) Hx0 ltac:(lia)) as Fa.
  pose proof (deposit_share (balance s b p) (t + MIN_LIQUIDITY) y k Hrb ltac:(unfold MIN_LIQUIDITY; lia) Hy0 ltac:(lia)) as Fb.
  assert (Ra : balance s1 a p = balance s a p + x).
  { rewrite Db, !moved_eq, !(moved_asset b _ _ a), !(moved_who _ who _ _ p) by congruence. lia. }
  assert (Rb : balance s1 b p = balance s b p + y).
  { rewrite Db, !moved_eq, !(moved_asset a _ _ b), !(moved_who _ who _ _ p) by congruence. lia. }
  rewrite Ra, Rb, Di, Ei in Wb. clear Dr Hrange.
  pose proof (paid_back (balance s a p) t x k Hra Hiss Hk Hx0 Fa) as Pa.
  pose proof (paid_back (balance s b p) t y k Hrb Hiss Hk Hy0 Fb) as Pb.
  set (x' := paid (balance s a p + x) _ _) in *. set (y' := paid (balance s b p + y) _ _) in *. clearbody x' y'.
  rewrite !Wb, !Db, !moved_eq, !(moved_asset a _ _ b), !(moved_asset b _ _ a), !(moved_who _ who _ _ p),
    !(moved_who _ p _ _ who) by congruence.
  rewrite Ws, Wi, Ds, Di, Ei. lia.
Qed.

(** C22. A withdrawal leaves at least the tokens that the provider has locked in the
    Ceres liquidity locker, and at least those that are staked in the Demeter
    farms. *)
Theorem withdraw_respects_locks who dex info a b k ma mb f s s' : DEXInfos (market s) !! dex = Some info →
  let base := dex_base_asset_id info in GetChameleonPools base = None → shares_ok s → balances_ok s →
  let p := pool_account dex base a b in let target := other_asset base a b in
  properties_of_pool s base target = Some (p, f) →
  withdraw_liquidity (Signed who) dex a b k ma mb s = (Ok tt, s') →
  locked_tokens s' who base target ≤ share s' p who ∧ farmed_tokens s' who base target ≤ share s' p who.
Proof.
  intros Hd base Hc Hok Hrange p target Hp Hr.
  destruct (withdraw_liquidity_ok _ _ _ _ _ _ _ _ _ _ Hd Hc Hok Hrange Hr) as (_ & Hk & _ & _ & Hl & Hf & _ & _ & Hwd).
  fold base in Hk, Hl, Hf, Hwd. fold p in Hk, Hwd. fold target in Hl, Hf.
  destruct Hwd as [_ Hs _ _ _ _ (_ & _ & El & Eu & En & _)].
  unfold check_if_has_enough_unlocked_liquidity, check_if_has_enough_liquidity_out_of_farming in *.
  unfold properties_of_pool in Hp. rewrite Hp in Hl, Hf. fold (share s p who) in Hl, Hf.
  assert (E1 : locked_tokens s' who base target = locked_tokens s who base target) by (unfold locked_tokens; by rewrite El, En).
  assert (E2 : farmed_tokens s' who base target = farmed_tokens s who base target) by (unfold farmed_tokens; by rewrite Eu).
  rewrite E1, E2, Hs. rewrite (proj2 (Z.eqb_neq (share s p who) 0)) in Hl, Hf by lia. unfold u128_checked_sub, checked in *.
  apply orb_true_iff in Hl, Hf. rewrite !Z.leb_le in Hl, Hf. rewrite Z.ltb_lt in Hl. rewrite Z.eqb_eq in Hf.
  split; [destruct (fits _ (_ - locked_tokens _ _ _ _))|destruct (fits _ (_ - farmed_tokens _ _ _ _))]; cbn in Hl, Hf; lia.
Qed.
End liquidity.
