(* ===== verification/PoolSamples.v ===== *)
(** * A pool for the examples

    Currencies with checked transfers, the parameters of the runtime, and the
    states of a small pool: empty, after the first deposit, and after a second
    one. *)

From S2P Require Import Prelude BTreeMap FixedPoint Helpers256 FixedU256 Units OrderTypes SwapTypes PoolMath DataLayer.
From S2P Require Import StorageProps World Permissions TradingPair OrderBook WorldRefine Scheduler Pallet Technical.
From S2P Require Import PoolXyk PoolSwaps PoolShares PoolLiquidity.
Import PoolXyk.

Module PoolSamples.

(** ** Currencies *)

Abbreviation Ledger := (gmap (AssetId * AccountId) Balance) (only parsing).

Definition held (l : Ledger) (a : AssetId) (x : AccountId) : Balance := u128_wrap (default 0 (l !! (a, x))).
Definition NoFunds : DispatchError := ExternalError 2.

Definition pay (a : AssetId) (from to : AccountId) (amount : Balance) : M Ledger DispatchError unit :=
  l ← get_state;
  _ ← ensure ((0 <=? amount) && (amount <=? held l a from)) NoFunds;
  let l := <[(a, from) := held l a from - amount]> l in
  _ ← ensure (held l a to + amount <=? u128_max) NoFunds;
  put_state (<[(a, to) := held l a to + amount]> l).
Definition issue (a : AssetId) (to : AccountId) (amount : Balance) : M Ledger DispatchError unit :=
  modify (λ l, <[(a, to) := held l a to + amount]> l).
Definition retire (a : AssetId) (from : AccountId) (amount : Balance) : M Ledger DispatchError unit :=
  l ← get_state;
  _ ← ensure (amount <=? held l a from) NoFunds;
  put_state (<[(a, from) := held l a from - amount]> l).

#[export] Instance currency : MultiCurrency Ledger := {|
  free_balance := held;
  currency_transfer := pay;
  check_permission := λ _ _ _ _, Ok tt;
  asset_exists := λ _ _, true
|}.
#[export] Instance issuance : Issuance Ledger := {|
  currency_deposit := issue;
  currency_withdraw := retire;
  check_burn_permission := λ _ _ _ _, Ok tt;
  check_mint_permission := λ _ _ _ _, Ok tt;
  ensure_asset_is_mintable := λ _ _, Ok tt
|}.
#[export] Instance assets : AssetInfo Ledger := {|
  is_non_divisible := λ _, false;
  total_balance := λ l a x, Ok (held l a x)
|}.
#[export] Instance providers : Providers Ledger := {|
  inc_providers := λ _ l, l;
  dec_providers := λ _, mret tt
|}.
#[export] Instance consumers : Permissions.References Ledger := {|
  Permissions.inc_consumers := λ _ l, Some l;
  Permissions.dec_consumers := λ _ l, l
|}.
#[export] Instance hooks : PoolHooks Ledger := {|
  reserves_changed := λ _ l, l;
  on_pool_created := λ _ _ _, mret tt
|}.

Lemma wrap_range x : is_u128 (u128_wrap x).
Proof. unfold is_u128, u128_wrap. assert (0 ≤ x mod (u128_max + 1) < u128_max + 1) by (by apply Z.mod_pos_bound). lia. Qed.

#[export] Instance balance_is_u128 : BalanceRange Ledger.
Proof. intros l a x. apply wrap_range. Qed.

Lemma held_insert l a x v b y : is_u128 v →
  held (<[(a, x) := v]> l) b y = held l b y + moved a x (v - held l a x) b y.
Proof.
  intros Hv. unfold held at 1, moved. case_bool_decide as E.
  - destruct E as [-> ->]. rewrite lookup_insert_eq. cbn. rewrite u128_wrap_small by done. lia.
  - rewrite lookup_insert_ne by naive_solver. unfold held. lia.
Qed.

#[export] Instance currency_laws : MultiCurrencyLaws Ledger.
Proof.
  split; intros asset from to amount l.
  - intros l' Hr. cbn in Hr. unfold pay in Hr. run. zbool.
    pose proof (wrap_range (default 0 (l !! (asset, from)))) as Hf. fold (held l asset from) in Hf.
    split; [done|]. intros a y. cbn.
    set (l1 := <[(asset, from) := _]> l) in *. pose proof (wrap_range (default 0 (l1 !! (asset, to)))) as Ht.
    fold (held l1 asset to) in Ht. unfold is_u128 in *.
    rewrite held_insert by (split; lia). unfold l1 at 1. rewrite held_insert by (split; lia).
    unfold moved. case_bool_decide; case_bool_decide; lia.
  - intros e l' Hr. cbn in Hr. unfold pay in Hr. revert Hr. exec.
    destruct (_ && _); [exec|by intros [= _ <-]]. destruct (_ <=? _); [done|by intros [= _ <-]].
Qed.

#[export] Instance pool_laws : PoolLaws Ledger.
Proof. split; try done. intros asset from to amount l l' _ _ a x. apply balance_range. naive_solver. Qed.

(** ** Parameters *)

Definition purpose_code (p : TechPurpose) : Z * option TradingPair * list Z :=
  match p with
  | FeeCollector => (0, None, [])
  | FeeCollectorForPair tp => (1, Some tp, [])
  | XykLiquidityKeeper tp => (2, Some tp, [])
  | Identifier name => (3, None, name)
  | OrderBookLiquidityKeeper tp => (4, Some tp, [])
  end.
Definition account_code (a : TechAccountId) : Z * Z * (Z * option TradingPair * list Z) * (list Z * N) :=
  match a with
  | Pure dex p => (0, dex, purpose_code p, ([], 0%N))
  | Generic tag data => (1, 0, (0, None, tag), (data, 0%N))
  | Wrapped who => (2, 0, (0, None, []), ([], who))
  | WrappedRepr who => (3, 0, (0, None, []), ([], who))
  | NoTechAccount => (4, 0, (0, None, []), ([], 0%N))
  end.

#[export] Instance tech_hash : TechHash := {|
  tech_account_id_to_account_id a := N.double (Npos (encode (account_code a)))
|}.

#[export] Instance tech_hash_inj : Inj (=) (=) tech_account_id_to_account_id.
Proof.
  intros a b E. cbn in E. assert (Ec : account_code a = account_code b) by (apply (inj encode); by injection E).
  destruct a as [d p| | | |], b as [d' p'| | | |]; cbn in Ec; try done; try congruence.
  injection Ec as -> Ep. f_equal. destruct p, p'; cbn in Ep; try done; congruence.
Qed.

(** The runtime: [MIN_XOR] is 0.0007, the fee 0.6 % and the largest ratio 1.5. *)
#[export] Instance config : PoolConfig := {|
  MIN_XOR := 7 * 10 ^ 14;
  GetFee := 6 * 10 ^ 15;
  GetMaxIssuanceRatio := 15 * 10 ^ 17;
  IrreducibleReserve := 1;
  PoolAdjustPeriod := 600
|}.
#[export] Instance config_ok : PoolConfigOk.
Proof. split; unfold FixedU256.DIV; cbn; lia. Qed.
#[export] Instance params : PoolParams := {|
  XOR := 0%N;
  TBCD := 5%N;
  GetTradingPairRestrictedFlag := λ _, false;
  GetChameleonPools := λ _, None;
  sorted_with_hash_key := λ _ _, true
|}.
#[export] Existing Instance Samples.plain_keys.

(** ** States *)

Definition info : DEXInfo := mkDEXInfo 0 3 true.
Definition tech : TechAccountId := pool_tech 0 0 0 1.
Definition pool : AccountId := pool_account 0 0 0 1.
Definition fees : AccountId := fees_account 0 0 0 1.
Definition token : Balance := 10 ^ 18.

(** Accounts 7 and 9 hold both assets; account 9 has locked a token of its share,
    and staked half of one. *)
Definition empty_pool : t Ledger :=
  mk ∅ ∅ ∅ ∅ {[ (0%N, 1%N) := (pool, fees) ]}
    (Technical.mk (<[pool := tech]> {[ fees := Pure 0 (FeeCollectorForPair (mkPair 0 1)) ]})
       (<[(0%N, 7%N) := 1000 * token]> (<[(1%N, 7%N) := 1000 * token]>
        (<[(0%N, 9%N) := 1000 * token]> {[ (1%N, 9%N) := 1000 * token ]}))))
    (mkMarket {[ 0 := info ]} ∅ [] [])
    {[ 9%N := [mkLock token 1000 0 1] ]} {[ 9%N := [mkUserInfo 0 1 2 true (token / 2) 0] ]} 10 [].

Definition first_deposit : M (t Ledger) DispatchError unit :=
  deposit_liquidity (Signed 7) 0 0 1 (100 * token) (400 * token) token token.
Definition second_deposit : M (t Ledger) DispatchError unit :=
  deposit_liquidity (Signed 9) 0 0 1 (10 * token) (50 * token) token token.
Definition first_pool : t Ledger := snd (first_deposit empty_pool).
Definition second_pool : t Ledger := snd (second_deposit first_pool).

Lemma ran {S E A} (c : M S E A) s a : fst (c s) = Ok a → c s = (Ok a, snd (c s)).
Proof. destruct (c s). by intros [= ->]. Qed.

Lemma first_deposit_runs : first_deposit empty_pool = (Ok tt, first_pool).
Proof. unfold first_pool. apply (ran first_deposit empty_pool tt). vm_compute. reflexivity. Qed.
Lemma second_deposit_runs : second_deposit first_pool = (Ok tt, second_pool).
Proof. unfold second_pool. apply (ran second_deposit first_pool tt). vm_compute. reflexivity. Qed.

Lemma balances_in_range (s : t Ledger) : balances_ok s.
Proof. intros a x. apply balance_range. Qed.

Lemma no_shares : shares_ok empty_pool.
Proof. by split. Qed.
Lemma first_shares : shares_ok first_pool.
Proof. unfold first_pool, first_deposit. apply kept_deposit_liquidity, no_shares. Qed.
Lemma second_shares : shares_ok second_pool.
Proof. unfold second_pool, second_deposit. apply kept_deposit_liquidity, first_shares. Qed.

Lemma first_market : DEXInfos (market first_pool) !! 0 = Some info.
Proof. vm_compute. reflexivity. Qed.
Lemma second_market : DEXInfos (market second_pool) !! 0 = Some info.
Proof. vm_compute. reflexivity. Qed.
Lemma users_7 : 7%N ≠ pool_account 0 (dex_base_asset_id info) 0 1.
Proof. vm_compute. discriminate. Qed.
Lemma users_9 : 9%N ≠ pool_account 0 (dex_base_asset_id info) 0 1.
Proof. vm_compute. discriminate. Qed.

(** Account 9 pays one and a half of asset 1, or buys one of asset 0. *)
Definition sale : SwapAmount := SwapWithDesiredInput (3 * token / 2) 1.
Definition purchase : SwapAmount := SwapWithDesiredOutput token (10 * token).
Definition sell : M (t Ledger) DispatchError SwapOutcome := exchange 9 11 0 1 0 sale.
Definition buy : M (t Ledger) DispatchError SwapOutcome := exchange 9 11 0 1 0 purchase.
Definition outcome_of (r : result DispatchError SwapOutcome) : SwapOutcome :=
  match r with Ok o => o | Err _ => mkOutcome 0 OutcomeFee.new end.

Lemma sell_runs : sell second_pool = (Ok (outcome_of (fst (sell second_pool))), snd (sell second_pool)).
Proof. apply (ran sell second_pool). vm_compute. reflexivity. Qed.
Lemma buy_runs : buy second_pool = (Ok (outcome_of (fst (buy second_pool))), snd (buy second_pool)).
Proof. apply (ran buy second_pool). vm_compute. reflexivity. Qed.

Definition withdrawal : M (t Ledger) DispatchError unit := withdraw_liquidity (Signed 9) 0 0 1 (10 * token) 1 1.

Lemma withdrawal_runs : withdrawal second_pool = (Ok tt, snd (withdrawal second_pool)).
Proof. apply (ran withdrawal second_pool). vm_compute. reflexivity. Qed.

(** Account 7 deposits again, and takes the new tokens out. *)
Definition again : M (t Ledger) DispatchError unit :=
  deposit_liquidity (Signed 7) 0 0 1 (3 * token) (7 * token) 1 1.
Definition again_pool : t Ledger := snd (again second_pool).
Definition leave : M (t Ledger) DispatchError unit :=
  withdraw_liquidity (Signed 7) 0 0 1
    (share again_pool (pool_account 0 (dex_base_asset_id info) 0 1) 7
     - share second_pool (pool_account 0 (dex_base_asset_id info) 0 1) 7) 1 1.

Lemma again_runs :
  deposit_liquidity (Signed 7) 0 0 1 (3 * token) (7 * token) 1 1 second_pool = (Ok tt, again_pool).
Proof. unfold again_pool, again. apply ran. vm_compute. reflexivity. Qed.
Lemma leave_runs :
  withdraw_liquidity (Signed 7) 0 0 1
    (share again_pool (pool_account 0 (dex_base_asset_id info) 0 1) 7
     - share second_pool (pool_account 0 (dex_base_asset_id info) 0 1) 7) 1 1 again_pool
  = (Ok tt, snd (leave again_pool)).
Proof. unfold leave. apply ran. vm_compute. reflexivity. Qed.

Lemma amounts_ok n : 0 ≤ n ≤ 1000 → is_u128 (n * token).
Proof. unfold is_u128, token. change u128_max with (2 ^ 128 - 1). lia. Qed.
Lemma sale_ok : amount_ok sale.
Proof. split; vm_compute; discriminate. Qed.
Lemma purchase_ok : amount_ok purchase.
Proof. split; vm_compute; discriminate. Qed.
Lemma first_reserve : 0 < balance first_pool 0 (pool_account 0 (dex_base_asset_id info) 0 1).
Proof. vm_compute. reflexivity. Qed.
Lemma second_reserve : 0 < balance second_pool 0 (pool_account 0 (dex_base_asset_id info) 0 1).
Proof. vm_compute. reflexivity. Qed.
Lemma second_issued : 0 < issued second_pool (pool_account 0 (dex_base_asset_id info) 0 1).
Proof. vm_compute. reflexivity. Qed.
Lemma empty_reserve : balance empty_pool 0 (pool_account 0 (dex_base_asset_id info) 0 1) = 0.
Proof. vm_compute. reflexivity. Qed.
Lemma second_properties : properties_of_pool second_pool 0 1 = Some (pool, fees).
Proof. vm_compute. reflexivity. Qed.
End PoolSamples.

(** ** The theorems at the examples *)

Import PoolSamples.

Lemma swap_keeps_product_witness :
  let p := pool_account 0 (dex_base_asset_id info) 1 0 in
  let s := second_pool in let s1 := snd (sell second_pool) in let s2 := snd (buy second_pool) in
  balance s 1 p * balance s 0 p ≤ balance s1 1 p * balance s1 0 p ∧
  balance s 1 p * balance s 0 p + balance s2 1 p < balance s2 1 p * balance s2 0 p + FixedU256.DIV + balance s2 0 p.
Proof.
  intros p s s1 s2. split.
  - exact (swap_keeps_product 9 11 0 info 1 0 sale s _ s1 second_market eq_refl (balances_in_range s) sale_ok users_9 sell_runs).
  - exact (swap_keeps_product 9 11 0 info 1 0 purchase s _ s2 second_market eq_refl (balances_in_range s) purchase_ok users_9 buy_runs).
Defined.

Lemma pool_quote_is_honoured_witness :
  let base := dex_base_asset_id info in let s := second_pool in
  let o := outcome_of (fst (sell s)) in let s' := snd (sell s) in
  ∃ q inp out fee,
    quote 0 1 0 (to_quote sale) true s = (Ok q, s) ∧ outcome_amount q = outcome_amount o ∧
    (∀ c, OutcomeFee.get_by_asset (outcome_fee q) c = OutcomeFee.get_by_asset (outcome_fee o) c) ∧
    OutcomeFee.get_by_asset (outcome_fee q) base = fee ∧
    (inp = 3 * token / 2 ∧ out = outcome_amount q ∧ 1 ≤ out) ∧
    ∀ c z, balance s' c z = balance s c z
      + swap_delta (bool_decide (base = 0%N)) 9 11 (pool_account 0 base 1 0) (fees_account 0 base 1 0) 1 0 inp out fee c z.
Proof.
  exact (pool_quote_is_honoured 9 11 0 info 1 0 sale second_pool _ _ second_market eq_refl
           (balances_in_range second_pool) sale_ok sell_runs).
Defined.

Lemma pool_shares_add_up_witness : shares_ok (snd (withdrawal second_pool)) ∧ fst (withdrawal second_pool) = Ok tt.
Proof.
  split; [|exact (f_equal fst withdrawal_runs)]. apply (pool_shares_add_up empty_pool); [reflexivity|reflexivity|].
  eapply rtc_l; [apply (step_deposit_liquidity (Signed 7) 0 0 1 (100 * token) (400 * token) token token)|].
  eapply rtc_l; [apply (step_deposit_liquidity (Signed 9) 0 0 1 (10 * token) (50 * token) token token)|].
  apply rtc_once. apply (step_withdraw_liquidity (Signed 9) 0 0 1 (10 * token) 1 1).
Defined.

Lemma deposit_is_fair_witness :
  let p := pool_account 0 (dex_base_asset_id info) 0 1 in let s := first_pool in let s' := second_pool in
  ∃ x y k, token ≤ x ≤ 10 * token ∧ token ≤ y ≤ 50 * token ∧ 0 ≤ k ∧
    balance s' 0 p = balance s 0 p + x ∧ balance s' 1 p = balance s 1 p + y ∧
    balance s' 0 9 = balance s 0 9 - x ∧ balance s' 1 9 = balance s 1 9 - y ∧
    share s' p 9 = share s p 9 + k ∧ issued s' p = issued s p + k ∧
    (∀ z, z ≠ 9%N → share s' p z = share s p z) ∧
    balance s 0 p * backing s' p ≤ balance s' 0 p * backing s p ∧
    balance s 1 p * backing s' p ≤ balance s' 1 p * backing s p.
Proof.
  exact (deposit_is_fair 9 0 info 0 1 (10 * token) (50 * token) token token first_pool second_pool first_market eq_refl
           first_shares (balances_in_range first_pool) (amounts_ok 10 ltac:(lia)) (amounts_ok 50 ltac:(lia))
           users_9 first_reserve second_deposit_runs).
Defined.

Lemma first_deposit_locks_minimum_witness :
  let p := pool_account 0 (dex_base_asset_id info) 0 1 in
  ∃ k, 0 ≤ k ∧ (k + MIN_LIQUIDITY) * (k + MIN_LIQUIDITY) ≤ 100 * token * (400 * token) ∧
    balance first_pool 0 p = 100 * token ∧ balance first_pool 1 p = 400 * token ∧
    share first_pool p 7 = share empty_pool p 7 + k ∧ issued first_pool p = issued empty_pool p + k.
Proof.
  exact (first_deposit_locks_minimum 7 0 info 0 1 (100 * token) (400 * token) token token empty_pool first_pool eq_refl eq_refl
           no_shares (amounts_ok 100 ltac:(lia)) (amounts_ok 400 ltac:(lia)) ltac:(done)
           users_7 empty_reserve first_deposit_runs).
Defined.

Lemma withdraw_is_fair_witness :
  let p := pool_account 0 (dex_base_asset_id info) 0 1 in let s := second_pool in let s' := snd (withdrawal second_pool) in
  ∃ x y, 1 ≤ x ∧ 1 ≤ y ∧
    balance s' 0 p = balance s 0 p - x ∧ balance s' 1 p = balance s 1 p - y ∧
    balance s' 0 9 = balance s 0 9 + x ∧ balance s' 1 9 = balance s 1 9 + y ∧
    share s' p 9 = share s p 9 - 10 * token ∧ issued s' p = issued s p - 10 * token ∧
    (∀ z, z ≠ 9%N → share s' p z = share s p z) ∧
    if 10 * token =? issued s p then balance s' 0 p = 0 ∧ balance s' 1 p = 0
    else balance s 0 p * backing s' p ≤ balance s' 0 p * backing s p ∧
         balance s 1 p * backing s' p ≤ balance s' 1 p * backing s p.
Proof.
  exact (withdraw_is_fair 9 0 info 0 1 (10 * token) 1 1 second_pool _ second_market eq_refl second_shares
           (balances_in_range second_pool) users_9 withdrawal_runs).
Defined.

Lemma deposit_withdraw_no_profit_witness :
  let p := pool_account 0 (dex_base_asset_id info) 0 1 in let s := second_pool in let s2 := snd (leave again_pool) in
  balance s2 0 7 ≤ balance s 0 7 ∧ balance s2 1 7 ≤ balance s 1 7 ∧
  balance s 0 p ≤ balance s2 0 p ∧ balance s 1 p ≤ balance s2 1 p ∧
  share s2 p 7 = share s p 7 ∧ issued s2 p = issued s p.
Proof.
  exact (deposit_withdraw_no_profit 7 0 info 0 1 (3 * token) (7 * token) 1 1 1 1 second_pool again_pool (snd (leave again_pool)) second_market
           eq_refl second_shares (balances_in_range second_pool) (amounts_ok 3 ltac:(lia)) (amounts_ok 7 ltac:(lia))
           users_7 second_reserve second_issued again_runs leave_runs).
Defined.

Lemma withdraw_respects_locks_witness :
  let p := pool_account 0 (dex_base_asset_id info) 0 1 in let s' := snd (withdrawal second_pool) in
  locked_tokens s' 9 0 1 ≤ share s' p 9 ∧ farmed_tokens s' 9 0 1 ≤ share s' p 9.
Proof.
  exact (withdraw_respects_locks 9 0 info 0 1 (10 * token) 1 1 fees second_pool _ second_market eq_refl second_shares
           (balances_in_range second_pool) second_properties withdrawal_runs).
Defined.
