(* ===== verification/PoolSource.v ===== *)
(** * The liquidity pools behind the proxy

    The pallet of the pools as the liquidity source [XYKPool] of the registry
    ([common/src/traits.rs]), with the other sources absent, and the proof that it keeps
    what the swaps of the proxy rely on ([SourcesLaws]). *)

From S2P Require Import Prelude BTreeMap FixedPoint Helpers256 FixedU256 Units OrderTypes SwapTypes Chunks Aggregator.
From S2P Require Import ChunkFitting Selection AggregatorInv Aggregated SmartSplit SplitBounds.
From S2P Require Import DataLayer World Permissions TradingPair OrderBook WorldRefine Scheduler Pallet Technical.
From S2P Require Import DexApi LiquidityProxy ProxyPaths ProxySwaps PoolMath PoolXyk PoolSwaps.
Import PoolXyk.

(** ** The source that is not configured *)

(** [impl LiquiditySource for ()]. *)
Definition no_source {L} : LiquiditySource L := {|
  ls_can_exchange _ _ _ _ := false;
  ls_quote _ _ _ _ _ _ := Err CannotLookup;
  ls_step_quote _ _ _ _ _ _ _ := Err CannotLookup;
  ls_exchange _ _ _ _ _ _ := mthrow CannotLookup;
  ls_check_rewards _ _ _ _ _ _ := Err CannotLookup;
  ls_quote_without_impact _ _ _ _ _ _ := Err CannotLookup
|}.

(** ** Calculated amounts are balances *)

Section ranges.
Import FixedWrapper256.

Lemma to_balance_range a z : wf a → to_balance a = Ok z → is_u128 z.
Proof. intros Ha [Hz ?]%to_balance_ok; [|done]. by destruct (Ha z Hz). Qed.

Lemma without_fee_wf f : wf (without_fee f).
Proof. apply sub_wf. Qed.

Lemma with_number_add_wf a n : wf (with_number add a n).
Proof. destruct a; [apply add_wf|by intros z]. Qed.

Lemma deduced_wf (b : bool) (a c : t) : wf a → wf c → wf (if b then a else c).
Proof. by destruct b. Qed.

Create HintDb wrapped.
#[local] Hint Resolve u128_wf add_wf sub_wf mul_wf div_wf without_fee_wf with_number_add_wf deduced_wf : wrapped.

Lemma calc_output_range f dest x y i deduce r : is_u128 x → is_u128 y → is_u128 i →
  calc_output_for_exact_input f dest x y i deduce = Ok r → is_u128 (fst r) ∧ is_u128 (snd r).
Proof.
  intros Hx Hy Hi Hr. unfold calc_output_for_exact_input in Hr.
  destruct dest; apply result_bind_ok in Hr as (out & Ho & Hr); apply result_bind_ok in Hr as (fee & Hf & [= <-]);
    split; (eapply to_balance_range; [|eassumption]); auto 10 with wrapped.
Qed.

Lemma calc_input_range f dest x y o deduce r : is_u128 x → is_u128 y → is_u128 o →
  calc_input_for_exact_output f dest x y o deduce = Ok r → is_u128 (fst r) ∧ is_u128 (snd r).
Proof.
  intros Hx Hy Ho Hr. unfold calc_input_for_exact_output in Hr.
  destruct dest; apply result_bind_ok in Hr as (inp & Hi & Hr); apply result_bind_ok in Hr as (fee & Hf & [= <-]);
    split; (eapply to_balance_range; [|eassumption]); auto 10 with wrapped.
Qed.

Lemma percent_mul_nonneg part x : 0 ≤ part → 0 ≤ x → 0 ≤ percent_mul part x.
Proof.
  intros Hp Hx. unfold percent_mul. pose proof (Z.mod_pos_bound x 100 ltac:(lia)).
  pose proof (Z.div_pos x 100 Hx ltac:(lia)).
  pose proof (Z.mul_nonneg_nonneg (x / 100) part ltac:(done) Hp).
  pose proof (Z.div_pos (x mod 100 * part) 100 ltac:(apply Z.mul_nonneg_nonneg; lia) ltac:(lia)).
  destruct (_ <? _); lia.
Qed.

Lemma sat_sub_range x y : is_u128 x → 0 ≤ y → is_u128 (sat_sub x y).
Proof. unfold is_u128, sat_sub. lia. Qed.

Lemma calc_max_output_range `{PoolConfig} f dest y deduce z : 0 ≤ IrreducibleReserve → is_u128 y →
  calc_max_output f dest y deduce = Ok z → is_u128 z.
Proof.
  intros Hi Hy Hr. unfold calc_max_output in Hr. destruct (_ =? 0); [by injection Hr as <-|].
  apply result_bind_ok in Hr as (m & Hm & [= <-]).
  assert (is_u128 m) as H0.
  { destruct (_ && _); [|by injection Hm as <-]. eapply to_balance_range; [|eassumption]. auto with wrapped. }
  apply sat_sub_range; [done|]. apply percent_mul_nonneg; [done|]. by apply H0.
Qed.

Lemma sample_volumes_range common remaining amount samples vs :
  is_u128 common → is_u128 remaining → is_u128 amount →
  sample_volumes common remaining amount samples = Ok vs →
  Forall (λ p, is_u128 (fst p) ∧ is_u128 (snd p)) vs.
Proof.
  intros Hc Hr Ha. revert remaining Hr vs. induction samples as [|i samples IH]; intros remaining Hr vs Hv; simpl in Hv.
  { injection Hv as <-. by apply Forall_singleton. }
  apply result_bind_ok in Hv as (v & Hvol%result_ok_or_ok & Hv). apply result_bind_ok in Hv as (rest & Hrest & [= <-]).
  apply checked_Some in Hvol as [-> ?]. constructor; [done|]. eapply IH; [|done]. apply sat_sub_range; [done|apply Hc].
Qed.

Lemma sample_chunks_range calc variant fee_asset vs sum fee cs :
  (∀ v r, is_u128 v → calc v = Ok r → is_u128 (fst r) ∧ is_u128 (snd r)) →
  Forall (λ p, is_u128 (fst p) ∧ is_u128 (snd p)) vs → 0 ≤ sum →
  sample_chunks calc variant fee_asset vs sum fee = Ok cs →
  Forall (λ c, is_u128 (chunk_input c) ∧ is_u128 (chunk_output c)) cs.
Proof.
  intros Hcalc Hvs. revert sum fee cs. induction Hvs as [|[v step] vs [Hv Hst] _ IH]; intros sum fee cs Hs Hc; simpl in Hc.
  { by injection Hc as <-. }
  apply result_bind_ok in Hc as ([sum' fee'] & Hr & Hc). apply result_bind_ok in Hc as (rest & Hrest & [= <-]).
  apply Hcalc in Hr as [Hsum _]; [|done]. simpl in *. constructor; [|eapply IH; [apply Hsum|done]].
  pose proof (sat_sub_range _ _ Hsum Hs). by destruct variant.
Qed.
End ranges.

(** ** The pallet as a source *)

Section source.
Context {PC : PoolConfig} {PP : PoolParams} {SK : StorageKeys} {TH : TechHash}.
Context {L : Type} `{MultiCurrency L} {IS : Issuance L} {AI : AssetInfo L} {PR : Providers L}.
Context {RF : Permissions.References L} {HK : PoolHooks L}.
Implicit Types (s : t L).

(** The currencies of the state. *)
Definition pool_currency : MultiCurrency (t L) := {|
  free_balance s := free_balance (ledger s);
  currency_transfer asset from to amount := on_ledger (currency_transfer asset from to amount);
  check_permission s := check_permission (ledger s);
  asset_exists s := asset_exists (ledger s)
|}.
Definition pool_issuance : Issuance (t L) := {|
  currency_deposit asset who amount := on_ledger (currency_deposit asset who amount);
  currency_withdraw asset who amount := on_ledger (currency_withdraw asset who amount);
  check_burn_permission s := check_burn_permission (ledger s);
  check_mint_permission s := check_mint_permission (ledger s);
  ensure_asset_is_mintable s := ensure_asset_is_mintable (ledger s)
|}.
Definition pool_asset_info : AssetInfo (t L) := {|
  is_non_divisible := is_non_divisible (L := L);
  total_balance s := total_balance (ledger s)
|}.

(** [impl LiquiditySource for Pallet]. *)
Definition pool_source : LiquiditySource (t L) := {|
  ls_can_exchange s dex input output := can_exchange dex input output s;
  ls_quote s dex input output amount deduce_fee := fst (quote dex input output amount deduce_fee s);
  ls_step_quote s dex input output amount samples deduce_fee :=
    fst (step_quote dex input output amount samples deduce_fee s);
  ls_exchange sender receiver dex input output amount := exchange sender receiver dex input output amount;
  ls_check_rewards s _ _ _ _ _ := Ok [];
  ls_quote_without_impact s dex input output amount deduce_fee :=
    fst (quote_without_impact dex input output amount deduce_fee s)
|}.

Definition pool_sources : LiquiditySources (t L) := λ source,
  match source with XYKPool => pool_source | _ => no_source end.

(** Balances are of their type, and no pool has a chameleon asset. *)
Record pool_valid s : Prop := {
  pool_balances : balances_ok s;
  pool_plain dex info : DEXInfos (market s) !! dex = Some info → GetChameleonPools (dex_base_asset_id info) = None
}.

(** The reserves of the pools are not customers. *)
Definition pool_customer (x : AccountId) : Prop :=
  ∀ dex pair, x ≠ tech_account_id_to_account_id (Pure dex (XykLiquidityKeeper pair)).

Context `{!MultiCurrencyLaws L} `{!PoolLaws L} {CO : PoolConfigOk}.
Context `{!Inj (=) (=) tech_account_id_to_account_id}.
Context (Hreserve : 0 ≤ IrreducibleReserve).

Lemma pool_of_ok dex a b s info x y m s' : pool_valid s →
  pool_of dex a b s = (Ok (info, (x, y, m)), s') → is_u128 x ∧ is_u128 y ∧ is_u128 m.
Proof.
  intros [Hok Hplain] Hr. unfold pool_of in Hr. run.
  match goal with H : get_dex_info _ _ = _ |- _ => apply get_dex_info_ok in H as [Hd ->] end.
  match goal with H : tech_account_from_dex_and_asset_pair _ _ _ _ = _ |- _ =>
    apply (pool_tech_ok _ _ _ _ _ _ _ Hd (Hplain _ _ Hd)) in H as (-> & _) end.
  match goal with H : get_actual_reserves _ _ _ _ _ = _ |- _ =>
    apply (reserves_plain _ _ _ _ _ _ _ (Hplain _ _ Hd)) in H as (_ & _ & _ & E) end.
  injection E as -> -> ->. split_and!; apply Hok.
Qed.

Lemma fst_ok {E A} (c : M (t L) E A) s x : fst (c s) = Ok x → c s = (Ok x, snd (c s)).
Proof. destruct (c s). by intros [= ->]. Qed.

Lemma pool_quote_typed dex a b amount deduce s o s' : pool_valid s → is_u128 (quote_amount amount) →
  quote dex a b amount deduce s = (Ok o, s') → is_u128 (outcome_amount o).
Proof.
  intros Hv Ha Hr. unfold quote in Hr. apply M_bind_ok in Hr as ([info [[x y] m]] & s1 & Hp & Hr).
  apply pool_of_ok in Hp as (Hx & Hy & _); [|done].
  apply M_bind_ok in Hr as (? & ? & _ & Hr). apply M_bind_ok in Hr as (dest & ? & _ & Hr).
  apply M_bind_ok in Hr as (r & ? & Hc & [= <- _]). simpl.
  destruct amount as [i|d]; apply M_bind_ok in Hc as (r' & ? & Hc & Hr').
  - apply M_lift_ok in Hc as [Hc _]. apply M_bind_ok in Hr' as (? & ? & _ & [= <- _]).
    by apply calc_output_range in Hc as [? _].
  - apply M_lift_ok in Hr' as [Hr' _]. by apply calc_input_range in Hr' as [? _].
Qed.

Lemma sampled_amount_range amount dest deduce x y m r : is_u128 (quote_amount amount) →
  is_u128 x → is_u128 y → is_u128 m → sampled_amount amount dest deduce x y m = Ok r →
  is_u128 (fst r) ∧ limits_typed (mkLimits None (snd r) None).
Proof.
  intros Ha Hx Hy Hm Hr. unfold sampled_amount in Hr.
  assert (∀ a, is_u128 (side_amount a) → limits_typed (mkLimits None (Some a) None)) as Hl
    by (intros a Hs; split; simpl; [done|by intros ? [= <-]|done]).
  assert (limits_typed (mkLimits None None None)) by done.
  destruct amount as [i|d]; simpl in Ha.
  - destruct (_ =? _); [by injection Hr as <-|].
    destruct (calc_input_for_exact_output _ _ _ _ _ _) as [[z f]|e] eqn:Hc; [|by injection Hr as <-].
    injection Hr as <-. apply calc_input_range in Hc as [Hz _]; [|done..]. simpl in *.
    split; [unfold is_u128 in *; lia|by apply Hl].
  - apply result_bind_ok in Hr as (z & Hz%calc_max_output_range & [= <-]); [|done..]. simpl.
    split; [|apply Hl; simpl]; unfold is_u128 in *; lia.
Qed.

Lemma pool_quotation_typed dex a b amount samples deduce s q s' : pool_valid s → is_u128 (quote_amount amount) →
  step_quote dex a b amount samples deduce s = (Ok q, s') → quotation_typed q.
Proof.
  intros Hv Ha Hr. unfold step_quote in Hr.
  assert (quotation_typed empty_quotation) by (split; [done|constructor]).
  destruct (_ =? 0); [by injection Hr as <- _|].
  apply M_bind_ok in Hr as ([info [[x y] m]] & s1 & Hp & Hr). apply pool_of_ok in Hp as (Hx & Hy & Hm); [|done].
  destruct (_ && _); [by injection Hr as <- _|]. apply M_bind_ok in Hr as (dest & ? & _ & Hr).
  apply M_bind_ok in Hr as ([sampled max] & ? & [Hs _]%M_lift_ok & Hr).
  apply sampled_amount_range in Hs as [Hs Hmax]; [|done..]. simpl in Hs, Hmax.
  apply M_bind_ok in Hr as (common & ? & Hc & Hr). apply M_ok_or_ok in Hc as [Hc _].
  apply M_bind_ok in Hr as (volumes & ? & [Hvol _]%M_lift_ok & Hr).
  apply M_bind_ok in Hr as (cs & ? & [Hcs _]%M_lift_ok & [= <- _]).
  split; simpl; [done|]. refine (sample_chunks_range _ _ _ _ _ _ _ _ _ _ Hcs); [| |done].
  - intros v r Hv' Hcalc. destruct (quote_variant amount); 
      [exact (calc_output_range _ _ _ _ _ _ _ Hx Hy Hv' Hcalc)|exact (calc_input_range _ _ _ _ _ _ _ Hx Hy Hv' Hcalc)].
  - refine (sample_volumes_range _ _ _ _ _ _ Hs Hs Hvol). set (n := if samples <? 1 then 1 else samples) in *.
    assert (1 ≤ n) by (unfold n; destruct (Z.ltb_spec samples 1); lia).
    unfold u128_checked_div in Hc. destruct (_ =? 0); [done|]. injection Hc as <-. destruct Hs.
    split; [apply Z.div_pos; lia|]. apply (Z.le_trans _ sampled); [|done]. apply Z.div_le_upper_bound; nia.
Qed.

Lemma pool_exchange_moves sender receiver dex a b amount s o s' :
  pool_valid s → pool_customer sender → pool_customer receiver → is_u128 (swap_amount amount) →
  exchange sender receiver dex a b amount s = (Ok o, s') →
  @exchanges _ pool_currency pool_customer XYKPool sender receiver a b amount s o s' ∧ pool_valid s'.
Proof.
  intros [Hok Hplain] Hs Hr Ha Hx.
  assert (∃ info, DEXInfos (market s) !! dex = Some info) as [info Hd].
  { unfold exchange in Hx. run.
    repeat match goal with H : regulated _ _ _ _ = _ |- _ => apply regulated_ok in H; subst end.
    match goal with H : get_dex_info _ _ = _ |- _ => apply get_dex_info_ok in H as [Hd _] end. by eexists. }
  assert (amount_ok amount) as Ham by by destruct amount.
  destruct (exchange_ok _ _ _ _ _ _ _ _ _ _ Hd (Hplain _ _ Hd) Hok Ham Hx) as (inp & out & fee & Hsw).
  pose proof (swapped_terms _ _ _ _ _ _ _ _ _ _ _ _ _ Hsw) as Ht. simpl in Ht.
  set (p := pool_account dex (dex_base_asset_id info) a b) in *. set (dest := bool_decide _) in *.
  assert (0 ≤ inp ∧ 0 ≤ out ∧ 0 ≤ fee ∧ honours XYKPool amount (outcome_amount o) inp out) as (Hi & Ho & Hf & Hh).
  { rewrite (swapped_outcome _ _ _ _ _ _ _ _ _ _ _ _ _ Hsw). destruct amount as [i least|d most]; simpl in *.
    - destruct Ht as (? & -> & Hc & ?). apply calc_output_range in Hc as [[? _] [? _]]; [|apply Hok..|done].
      simpl in *. lia.
    - destruct Ht as (? & -> & Hc & ?). apply calc_input_range in Hc as [[? _] [? _]]; [|apply Hok..|done].
      simpl in *. lia. }
  split.
  - exists inp, out. split_and!; [done..|]. intros c z Hz. simpl.
    pose proof (swapped_balances _ _ _ _ _ _ _ _ _ _ _ _ _ Hsw c z) as E. unfold balance in E. rewrite E.
    unfold swap_delta. fold p. rewrite !(moved_who _ p) by (intros ->; by apply (Hz dex (mkPair (dex_base_asset_id info) (other_asset (dex_base_asset_id info) a b)))).
    assert (0 ≤ moved (if dest then b else a) (fees_account dex (dex_base_asset_id info) a b) fee c z)
      by (unfold moved; by destruct (bool_decide (c = _ ∧ _))).
    fold dest. lia.
  - split; [apply (swapped_range _ _ _ _ _ _ _ _ _ _ _ _ _ Hsw)|].
    destruct (swapped_books _ _ _ _ _ _ _ _ _ _ _ _ _ Hsw) as (l & E). rewrite E. exact Hplain.
Qed.

(** The pools keep what the proxy relies on. *)
#[export] Instance pool_sources_laws :
  @SourcesLaws (t L) pool_currency pool_sources pool_customer pool_valid.
Proof.
  split.
  - intros source s dex a b amount deduce o Hv Ha Hq. destruct source; try done.
    by apply fst_ok, pool_quote_typed in Hq.
  - intros source s dex a b amount samples deduce q Hv Ha Hq. destruct source; try done.
    by apply fst_ok, pool_quotation_typed in Hq.
  - intros source sender receiver dex a b amount s o s' Hv Hs Hr Ha Hx. destruct source; try done.
    by apply (pool_exchange_moves _ _ dex).
  - intros asset from to amount s s' [Hok Hplain] _ Ht. simpl in Ht. apply zoom_ok in Ht as (l & Ht & ->).
    split; [|exact Hplain]. exact (transfer_range _ _ _ _ _ _ Ht Hok).
Qed.

Lemma pool_currency_laws : @MultiCurrencyLaws (t L) pool_currency.
Proof.
  split; intros asset from to amount s.
  - intros s' Ht. simpl in Ht. apply zoom_ok in Ht as (l & Ht & ->). exact (transfer_spec _ _ _ _ _ _ Ht).
  - intros e s' Ht. simpl in *. unfold on_ledger, zoom in Ht.
    destruct (currency_transfer _ _ _ _ _) as [r l] eqn:E. injection Ht as -> <-. exact (transfer_error _ _ _ _ _ _ _ E).
Qed.
End source.
