(* ===== verification/ProxyPools.v ===== *)
(** * Sample swaps of the proxy over the liquidity pools

    Two pools with the base asset, a swap from one into the other, and a batch, as
    witnesses of the theorems about swaps. *)

From S2P Require Import Prelude BTreeMap FixedPoint Helpers256 FixedU256 Units OrderTypes SwapTypes Chunks Aggregator.
From S2P Require Import ChunkFitting Selection AggregatorInv Aggregated SmartSplit SplitBounds SplitSamples.
From S2P Require Import DataLayer World Permissions TradingPair OrderBook WorldRefine Scheduler Pallet Technical.
From S2P Require Import DexApi LiquidityProxy ProxyPaths ProxySwaps PoolMath PoolXyk PoolSwaps PoolShares PoolLiquidity.
From S2P Require Import PoolSamples PoolSource.

Module ProxyPools.
Import PoolSamples.

Abbreviation Pools := (PoolXyk.t (gmap (AssetId * AccountId) Balance)) (only parsing).

#[export] Existing Instance SplitSamples.tolerance.
#[export] Existing Instance SplitSamples.epsilon.
#[export] Existing Instances pool_currency pool_issuance pool_asset_info pool_sources.

Lemma irreducible_nonneg : 0 ≤ IrreducibleReserve.
Proof. done. Qed.
#[export] Instance pools_laws : SourcesLaws pool_customer pool_valid := pool_sources_laws irreducible_nonneg.
#[export] Existing Instance pool_currency_laws.

#[export] Instance kinds : AssetKinds Pools := {|
  LiquidityProxy.GetChameleonPools a := None;
  enabled_target_assets _ := ∅
|}.
#[export] Instance proxy_config : ProxyConfig := {|
  GetNumSamples := 10;
  GetTechnicalAccountId := tech_account_id_to_account_id (Generic [1] [2]);
  GetADARAccountId := 3%N;
  LiquidityProxy.XOR := 0%N;
  ensure_ratio_origin o := match o with Root => true | _ => false end
|}.

(** ** States *)

Definition tech_2 : TechAccountId := pool_tech 0 0 0 2.
Definition pool_2 : AccountId := pool_account 0 0 0 2.
Definition fees_2 : AccountId := fees_account 0 0 0 2.

(** Account 7 holds the base asset and the assets of both pools. *)
Definition no_pools : Pools :=
  PoolXyk.mk ∅ ∅ ∅ ∅ (<[(0%N, 1%N) := (pool, fees)]> {[ (0%N, 2%N) := (pool_2, fees_2) ]})
    (Technical.mk (<[pool := tech]> (<[fees := Pure 0 (FeeCollectorForPair (mkPair 0 1))]>
                   (<[pool_2 := tech_2]> {[ fees_2 := Pure 0 (FeeCollectorForPair (mkPair 0 2)) ]})))
       (<[(0%N, 7%N) := 1000 * token]> (<[(1%N, 7%N) := 1000 * token]> {[ (2%N, 7%N) := 1000 * token ]})))
    (mkMarket {[ 0 := info ]} ∅ [] []) ∅ ∅ 10 [].
Definition one_pool : Pools :=
  snd (PoolXyk.deposit_liquidity (Signed 7) 0 0 1 (100 * token) (400 * token) token token no_pools).
Definition two_pools : Pools :=
  snd (PoolXyk.deposit_liquidity (Signed 7) 0 0 2 (200 * token) (100 * token) token token one_pool).
Definition start : LiquidityProxy.t Pools :=
  LiquidityProxy.mk (DexApi.mk [XYKPool] (PoolXyk.market two_pools) two_pools []) (25 * 10 ^ 14) [].

(** Account 7 sells 4 of asset 1 for asset 2, through both pools. *)
Definition sale : SwapAmount := SwapWithDesiredInput (4 * token) (token / 10).
Definition swapped : LiquidityProxy.t Pools :=
  snd (LiquidityProxy.swap_transfer 20 (Signed 7%N) 9%N 0 1%N 2%N sale [] FilterDisabled start).

(** It buys asset 1 for two accounts, and sends some of the base asset. *)
Definition batches : list LiquidityProxy.SwapBatchInfo :=
  [LiquidityProxy.mkBatch 1%N 0 0
     [LiquidityProxy.mkReceiver 9%N (3 * token); LiquidityProxy.mkReceiver 11%N (2 * token)];
   LiquidityProxy.mkBatch 0%N 0 0 [LiquidityProxy.mkReceiver 9%N token]].
Definition batched : LiquidityProxy.t Pools :=
  snd (LiquidityProxy.swap_transfer_batch 20 (Signed 7%N) batches 0%N (5 * token) [XYKPool]
         AllowSelected None start).

Lemma swapped_run :
  LiquidityProxy.swap_transfer 20 (Signed 7%N) 9%N 0 1%N 2%N sale [] FilterDisabled start = (Ok (), swapped).
Proof.
  unfold swapped.
  apply (ran (LiquidityProxy.swap_transfer 20 (Signed 7%N) 9%N 0 1%N 2%N sale [] FilterDisabled) start).
  vm_compute. reflexivity.
Qed.
Lemma batched_run :
  LiquidityProxy.swap_transfer_batch 20 (Signed 7%N) batches 0%N (5 * token) [XYKPool] AllowSelected
    None start = (Ok (), batched).
Proof.
  unfold batched.
  apply (ran (LiquidityProxy.swap_transfer_batch 20 (Signed 7%N) batches 0%N (5 * token) [XYKPool] AllowSelected None) start).
  vm_compute. reflexivity.
Qed.

Lemma start_valid : pool_valid (LiquidityProxy.proxy_ledger start).
Proof. split; [apply balances_in_range|done]. Qed.

(** The accounts of the pools are even, those of the users odd. *)
Lemma odd_customer x : N.odd x = true → pool_customer x.
Proof. intros Hx dex pair ->. done. Qed.
Lemma transit_customer : pool_customer GetTechnicalAccountId.
Proof. by intros dex pair E%(inj tech_account_id_to_account_id). Qed.
Lemma odd_is_user x : N.odd x = true → user pool_customer x.
Proof. intros Hx. split; [by apply odd_customer|]. intros ->. done. Qed.
Lemma sale_range : 0 ≤ swap_amount sale ≤ u128_max.
Proof. by vm_compute. Qed.
Lemma batches_valid : Forall batch_valid batches.
Proof. repeat constructor; simpl; done. Qed.
End ProxyPools.

Import ProxyPools.
Import PoolSamples.


Lemma batch_within_max_input_witness :
  pool_valid (LiquidityProxy.proxy_ledger start) ∧ user pool_customer 7%N ∧
  ∃ before commission executed,
    LiquidityProxy.events batched =
      before ++ [LiquidityProxy.BatchSwapExecuted commission executed None] ∧
    0 ≤ commission ∧ 0 ≤ executed ∧ commission + executed ≤ 5 * token ∧
    free_balance (LiquidityProxy.proxy_ledger start) 0%N 7%N - (commission + executed) ≤
    free_balance (LiquidityProxy.proxy_ledger batched) 0%N 7%N.
Proof.
  split; [exact start_valid|]. split; [by apply odd_is_user|].
  exact (batch_within_max_input pool_customer pool_valid SplitSamples.tolerance_nonneg 20 7%N 0%N batches
           (5 * token) [XYKPool] AllowSelected None start batched start_valid (odd_is_user 7%N eq_refl)
           transit_customer batches_valid ltac:(by vm_compute) batched_run).
Defined.
