(* ===== verification/Farming.v ===== *)
(** * Farming ([pallets/demeter-farming-platform/src/lib.rs])

    Pools in which users stake assets or the tokens of a liquidity pool for rewards.
    The state extends the one of [PoolXyk], which holds [UserInfos].  Weights and
    migrations are not modelled; the account of the pallet and the constants of the
    runtime are parameters. *)

From S2P Require Import Prelude BTreeMap FixedPoint Helpers256 FixedU256 Units OrderTypes SwapTypes PoolMath DataLayer.
From S2P Require Import World Permissions TradingPair OrderBook WorldRefine Scheduler Pallet Technical PoolXyk.

(** ** Data *)

Record PoolData := mkPoolData {
  multiplier : Z;
  deposit_fee : Balance;
  is_core : bool;
  pool_is_farm : bool;
  total_tokens_in_pool : Balance;
  pool_rewards : Balance;
  rewards_to_be_distributed : Balance;
  is_removed : bool;
  pool_base_asset : AssetId
}.

Record TokenInfo := mkTokenInfo {
  farms_total_multiplier : Z;
  staking_total_multiplier : Z;
  token_per_block : Balance;
  farms_allocation : Balance;
  staking_allocation : Balance;
  team_allocation : Balance;
  team_account : AccountId
}.

Class FarmingConfig := {
  DemeterAssetId : AssetId;
  BLOCKS_PER_HOUR_AND_A_HALF : Z;
  BLOCKS_PER_ONE_DAY : Z;
  (** [PALLET_ID.into_account_truncating()]. *)
  farming_account : AccountId
}.

Definition u32_max : Z := 2 ^ 32 - 1.
Definition u32_wrap (x : Z) : Z := x mod (u32_max + 1).

(** [(a * b).try_into_balance().unwrap_or(default)] on fixed point numbers. *)
Definition balance_or (default : Balance) (x : FixedWrapper.t) : Balance :=
  match FixedWrapper.try_into_balance x with Ok v => v | Err _ => default end.
Definition fixed_mul (a b : Balance) : FixedWrapper.t :=
  FixedWrapper.mul (FixedWrapper.from_int a) (FixedWrapper.from_int b).

Module Farming.

Inductive Event :=
| TokenRegistered (who : AccountId) (asset : AssetId)
| PoolAdded (who : AccountId) (base_asset pool_asset reward_asset : AssetId) (is_farm : bool)
| RewardWithdrawn (who : AccountId) (amount : Balance) (base_asset pool_asset reward_asset : AssetId)
    (is_farm : bool)
| Withdrawn (who : AccountId) (amount : Balance) (base_asset pool_asset reward_asset : AssetId)
    (is_farm : bool)
| PoolRemoved (who : AccountId) (base_asset pool_asset reward_asset : AssetId) (is_farm : bool)
| Deposited (who : AccountId) (base_asset pool_asset reward_asset : AssetId) (is_farm : bool)
    (amount : Balance)
| MultiplierChanged (who : AccountId) (base_asset pool_asset reward_asset : AssetId) (is_farm : bool)
    (amount : Z)
| DepositFeeChanged (who : AccountId) (base_asset pool_asset reward_asset : AssetId) (is_farm : bool)
    (amount : Balance)
| TokenInfoChanged (who : AccountId) (asset : AssetId)
| TotalTokensChanged (who : AccountId) (base_asset pool_asset reward_asset : AssetId) (is_farm : bool)
    (amount : Balance)
| InfoChanged (who : AccountId) (base_asset pool_asset reward_asset : AssetId) (is_farm : bool)
    (amount : Balance)
| RemovedPoolActivated (who : AccountId) (base_asset pool_asset reward_asset : AssetId)
    (is_farm : bool).

Record t (L : Type) := mk {
  xyk : PoolXyk.t L;
  TokenInfos : gmap AssetId TokenInfo;
  Pools : gmap (AssetId * AssetId) (list PoolData);
  AuthorityAccount : AccountId;
  FeeAccount : AccountId;
  events : list Event
}.
Arguments mk {L}.
Arguments xyk {L}.
Arguments TokenInfos {L}.
Arguments Pools {L}.
Arguments AuthorityAccount {L}.
Arguments FeeAccount {L}.
Arguments events {L}.

Section state.
Context {L : Type}.
Implicit Types (s : t L).

Definition set_xyk x s : t L :=
  mk x (TokenInfos s) (Pools s) (AuthorityAccount s) (FeeAccount s) (events s).
Definition set_tokens i s : t L :=
  mk (xyk s) i (Pools s) (AuthorityAccount s) (FeeAccount s) (events s).
Definition set_pools p s : t L :=
  mk (xyk s) (TokenInfos s) p (AuthorityAccount s) (FeeAccount s) (events s).
Definition add_event e s : t L :=
  mk (xyk s) (TokenInfos s) (Pools s) (AuthorityAccount s) (FeeAccount s) (events s ++ [e]).

Definition UserInfos s : gmap AccountId (list UserInfo) := PoolXyk.UserInfos (xyk s).
Definition user_infos_of s (who : AccountId) : list UserInfo := default [] (UserInfos s !! who).
Definition pools_of s (pool_asset reward_asset : AssetId) : list PoolData :=
  default [] (Pools s !! (pool_asset, reward_asset)).
Definition farming_ledger s : L := PoolXyk.ledger (xyk s).

Abbreviation F := (M (t L) DispatchError).

Definition on_xyk {A} (c : M (PoolXyk.t L) DispatchError A) : F A := zoom xyk set_xyk c.
Definition put_users (who : AccountId) (infos : list UserInfo) : F unit :=
  modify (λ s, set_xyk (PoolXyk.set_users (<[who := infos]> (UserInfos s)) (xyk s)) s).
Definition put_pools (pool_asset reward_asset : AssetId) (infos : list PoolData) : F unit :=
  modify (λ s, set_pools (<[(pool_asset, reward_asset) := infos]> (Pools s)) s).
Definition put_token (asset : AssetId) (info : TokenInfo) : F unit :=
  modify (λ s, set_tokens (<[asset := info]> (TokenInfos s)) s).
Definition deposit_event (e : Event) : F unit := modify (add_event e).
Definition check (b : bool) (e : DemeterErrors.t) : F unit := ensure b (DemeterError e).
(** [let _ = call]: the error is dropped, what was written stays. *)
Definition ignored {A} (c : F A) : F unit := λ s, (Ok tt, snd (c s)).

Definition ensure_signed (origin : RawOrigin) : F AccountId :=
  match origin with Signed who => mret who | _ => mthrow BadOrigin end.
Definition ensure_authority (origin : RawOrigin) : F AccountId :=
  user ← ensure_signed origin;
  s ← get_state;
  _ ← check (bool_decide (user = AuthorityAccount s)) DemeterErrors.Unauthorized;
  mret user.
End state.

(** ** Entries of the lists *)

Definition set_total (v : Balance) (p : PoolData) : PoolData :=
  mkPoolData (multiplier p) (deposit_fee p) (is_core p) (pool_is_farm p) v (pool_rewards p)
    (rewards_to_be_distributed p) (is_removed p) (pool_base_asset p).
Definition set_pool_rewards (v : Balance) (p : PoolData) : PoolData :=
  mkPoolData (multiplier p) (deposit_fee p) (is_core p) (pool_is_farm p) (total_tokens_in_pool p) v
    (rewards_to_be_distributed p) (is_removed p) (pool_base_asset p).
Definition set_to_be_distributed (v : Balance) (p : PoolData) : PoolData :=
  mkPoolData (multiplier p) (deposit_fee p) (is_core p) (pool_is_farm p) (total_tokens_in_pool p)
    (pool_rewards p) v (is_removed p) (pool_base_asset p).
Definition set_removed (v : bool) (p : PoolData) : PoolData :=
  mkPoolData (multiplier p) (deposit_fee p) (is_core p) (pool_is_farm p) (total_tokens_in_pool p)
    (pool_rewards p) (rewards_to_be_distributed p) v (pool_base_asset p).
Definition set_multiplier (v : Z) (p : PoolData) : PoolData :=
  mkPoolData v (deposit_fee p) (is_core p) (pool_is_farm p) (total_tokens_in_pool p)
    (pool_rewards p) (rewards_to_be_distributed p) (is_removed p) (pool_base_asset p).
Definition set_deposit_fee (v : Balance) (p : PoolData) : PoolData :=
  mkPoolData (multiplier p) v (is_core p) (pool_is_farm p) (total_tokens_in_pool p)
    (pool_rewards p) (rewards_to_be_distributed p) (is_removed p) (pool_base_asset p).
Definition set_pooled (v : Balance) (u : UserInfo) : UserInfo :=
  mkUserInfo (farm_base_asset u) (farm_pool_asset u) (reward_asset u) (is_farm u) v (rewards u).
Definition set_rewards (v : Balance) (u : UserInfo) : UserInfo :=
  mkUserInfo (farm_base_asset u) (farm_pool_asset u) (reward_asset u) (is_farm u) (pooled_tokens u) v.

Definition is_pool (base_asset : AssetId) (farm : bool) (p : PoolData) : bool :=
  bool_decide (pool_is_farm p = farm) && bool_decide (pool_base_asset p = base_asset).
Definition is_active (base_asset : AssetId) (farm : bool) (p : PoolData) : bool :=
  negb (is_removed p) && is_pool base_asset farm p.
Definition is_stake (base_asset pool_asset reward : AssetId) (farm : bool) (u : UserInfo) : bool :=
  bool_decide (farm_pool_asset u = pool_asset) && bool_decide (reward_asset u = reward)
  && bool_decide (is_farm u = farm) && bool_decide (farm_base_asset u = base_asset).

(** [for x in xs.iter_mut() { if test(x) { update(x) } }]. *)
Definition update_where {A} (test : A → bool) (update : A → A) (xs : list A) : list A :=
  (λ x, if test x then update x else x) <$> xs.
(** The last entry that a loop over [xs] finds. *)
Definition found {A} (test : A → bool) (xs : list A) : option A :=
  last (filter (λ x, test x = true) xs).

Section pallet.
Context {PC : PoolConfig} {PP : PoolParams} {SK : StorageKeys} {TH : TechHash} {FC : FarmingConfig}.
Context {L : Type} `{MultiCurrency L} {IS : Issuance L} {AI : AssetInfo L} {PR : Providers L}.
Context {RF : Permissions.References L} {HK : PoolHooks L}.
Abbreviation F := (M (t L) DispatchError).
Implicit Types (s : t L).

Definition transfer (asset : AssetId) (from to : AccountId) (amount : Balance) : F unit :=
  on_xyk (PoolXyk.on_ledger (transfer_from asset from to amount)).

(** ** Registration *)

(** The unchecked sum of the allocations wraps around. *)
Definition valid_allocations (farms_allocation staking_allocation team_allocation : Balance) : bool :=
  negb (((farms_allocation =? 0) && (staking_allocation =? 0))
        || negb (u128_wrap (u128_wrap (farms_allocation + staking_allocation) + team_allocation)
                 =? Fixed.COEF)).

Definition register_token (origin : RawOrigin) (pool_asset : AssetId)
    (token_per_block farms_allocation staking_allocation team_allocation : Balance)
    (team_account : AccountId) : F unit :=
  user ← ensure_authority origin;
  s ← get_state;
  _ ← check (bool_decide (TokenInfos s !! pool_asset = None)) DemeterErrors.TokenAlreadyRegistered;
  _ ← check (negb (token_per_block =? 0)) DemeterErrors.TokenPerBlockCantBeZero;
  _ ← check (valid_allocations farms_allocation staking_allocation team_allocation)
        DemeterErrors.InvalidAllocationParameters;
  _ ← put_token pool_asset
        (mkTokenInfo 0 0 token_per_block farms_allocation staking_allocation team_allocation team_account);
  deposit_event (TokenRegistered user pool_asset).

Definition add_multiplier (farm : bool) (old new : Z) (i : TokenInfo) : TokenInfo :=
  if farm then
    mkTokenInfo (u32_wrap (u32_wrap (farms_total_multiplier i - old) + new)) (staking_total_multiplier i)
      (token_per_block i) (farms_allocation i) (staking_allocation i) (team_allocation i) (team_account i)
  else
    mkTokenInfo (farms_total_multiplier i) (u32_wrap (u32_wrap (staking_total_multiplier i - old) + new))
      (token_per_block i) (farms_allocation i) (staking_allocation i) (team_allocation i) (team_account i).

Definition add_pool (origin : RawOrigin) (base_asset pool_asset reward_asset : AssetId) (farm : bool)
    (mult : Z) (fee : Balance) (core : bool) : F unit :=
  user ← ensure_authority origin;
  _ ← check (1 <=? mult) DemeterErrors.InvalidMultiplier;
  _ ← check (fee <=? Fixed.COEF) DemeterErrors.InvalidDepositFee;
  s ← get_state;
  token_info ← ok_or (TokenInfos s !! reward_asset) (DemeterError DemeterErrors.RewardTokenIsNotRegistered);
  let pool_infos := pools_of s pool_asset reward_asset in
  _ ← check (negb (existsb (is_active base_asset farm) pool_infos)) DemeterErrors.PoolAlreadyExists;
  _ ← put_token reward_asset (add_multiplier farm 0 mult token_info);
  _ ← put_pools pool_asset reward_asset
        (pool_infos ++ [mkPoolData mult fee core farm 0 0 0 false base_asset]);
  deposit_event (PoolAdded user base_asset pool_asset reward_asset farm).

(** ** Stakes *)

(** The part of a deposit that goes to the fee account. *)
Definition fee_of (pooled_tokens : Balance) (p : PoolData) : Balance :=
  balance_or 0 (fixed_mul pooled_tokens (deposit_fee p)).

(** Staked assets are held by the account of the pallet. *)
Definition deposit_assets (user : AccountId) (pool_asset : AssetId) (pool_info : PoolData)
    (pooled_tokens : Balance) : F Balance :=
  s ← get_state;
  let held := match Assets.free_balance (farming_ledger s) pool_asset user with
              | Ok v => v | Err _ => 0 end in
  _ ← check (pooled_tokens <=? held) DemeterErrors.InsufficientFunds;
  pooled_tokens ←
    (if negb (deposit_fee pool_info =? 0) then
       let fee := fee_of pooled_tokens pool_info in
       _ ← transfer pool_asset user (FeeAccount s) fee;
       mret (u128_wrap (pooled_tokens - fee))
     else mret pooled_tokens);
  _ ← transfer pool_asset user farming_account pooled_tokens;
  mret pooled_tokens.

(** The other farms of the same liquidity pool: a stake is cut to [lp_tokens]. *)
Fixpoint cut_stakes (others : UserInfo → bool) (base_asset pool_asset : AssetId) (farm : bool)
    (lp_tokens : Balance) (infos : list UserInfo) : F (list UserInfo) :=
  match infos with
  | [] => mret []
  | u :: infos =>
      u ← (if others u && (lp_tokens <? pooled_tokens u) then
             let pool_tokens_diff := pooled_tokens u - lp_tokens in
             s ← get_state;
             _ ← put_pools pool_asset (reward_asset u)
                   (update_where (is_active base_asset farm)
                      (λ p, set_total (u128_wrap (total_tokens_in_pool p - pool_tokens_diff)) p)
                      (pools_of s pool_asset (reward_asset u)));
             mret (set_pooled lp_tokens u)
           else mret u);
      rest ← cut_stakes others base_asset pool_asset farm lp_tokens infos;
      mret (u :: rest)
  end.

(** Staked pool tokens stay with their provider. *)
Definition deposit_lp_tokens (user : AccountId) (base_asset pool_asset reward : AssetId)
    (pool_info : PoolData) (staked pooled_tokens : Balance) (user_infos : list UserInfo)
    : F (Balance * list UserInfo) :=
  s ← get_state;
  pool ← ok_or (PoolXyk.properties_of_pool (xyk s) base_asset pool_asset)
           (DemeterError DemeterErrors.PoolDoesNotExist);
  let pool_account := fst pool in
  let lp_tokens := Z.max (default 0 (PoolXyk.balance_of_pool_provider (xyk s) pool_account user)) staked in
  _ ← check (pooled_tokens <=? lp_tokens - staked) DemeterErrors.InsufficientLPTokens;
  '(pooled_tokens, lp_tokens) ←
    (if negb (deposit_fee pool_info =? 0) then
       let fee := fee_of pooled_tokens pool_info in
       _ ← on_xyk (PoolXyk.transfer_lp_tokens pool_account base_asset pool_asset user (FeeAccount s) fee);
       s ← get_state;
       mret (u128_wrap (pooled_tokens - fee),
             default 0 (PoolXyk.balance_of_pool_provider (xyk s) pool_account user))
     else mret (pooled_tokens, lp_tokens));
  user_infos ← cut_stakes
    (λ u, bool_decide (farm_pool_asset u = pool_asset) && negb (bool_decide (reward_asset u = reward))
          && is_farm u && bool_decide (farm_base_asset u = base_asset))
    base_asset pool_asset true lp_tokens user_infos;
  mret (pooled_tokens, user_infos).

Definition deposit (origin : RawOrigin) (base_asset pool_asset reward : AssetId) (farm : bool)
    (pooled : Balance) : F unit :=
  with_transaction (
    user ← ensure_signed origin;
    s ← get_state;
    let pool_infos := pools_of s pool_asset reward in
    pool_info ← ok_or (found (is_active base_asset farm) pool_infos)
                  (DemeterError DemeterErrors.PoolDoesNotExist);
    let user_infos := user_infos_of s user in
    let mine := is_stake base_asset pool_asset reward farm in
    let known := found mine user_infos in
    let staked := match known with Some u => pooled_tokens u | None => 0 end in
    '(pooled, user_infos) ←
      (if farm then
         deposit_lp_tokens user base_asset pool_asset reward pool_info staked pooled user_infos
       else
         pooled ← deposit_assets user pool_asset pool_info pooled;
         mret (pooled, user_infos));
    _ ← put_users user
          (match known with
           | Some _ => update_where mine (λ u, set_pooled (u128_wrap (pooled_tokens u + pooled)) u) user_infos
           | None => user_infos ++ [mkUserInfo base_asset pool_asset reward farm pooled 0]
           end);
    _ ← put_pools pool_asset reward
          (update_where (is_active base_asset farm)
             (λ p, set_total (u128_wrap (total_tokens_in_pool p + pooled)) p) pool_infos);
    deposit_event (Deposited user base_asset pool_asset reward farm pooled)).

(** The rewards of the stakes, paid one by one; the last amount and what is left of
    the rewards of the pool. *)
Fixpoint pay_rewards (user : AccountId) (mine : UserInfo → bool) (infos : list UserInfo)
    (paid pool_info_rewards : Balance) : F (list UserInfo * Balance * Balance) :=
  match infos with
  | [] => mret ([], paid, pool_info_rewards)
  | u :: infos =>
      if mine u then
        _ ← check (negb (rewards u =? 0)) DemeterErrors.ZeroRewards;
        _ ← check (rewards u <=? pool_info_rewards) DemeterErrors.PoolDoesNotHaveRewards;
        _ ← transfer (reward_asset u) farming_account user (rewards u);
        '(rest, paid, remaining) ← pay_rewards user mine infos (rewards u) (pool_info_rewards - rewards u);
        mret (set_rewards 0 u :: rest, paid, remaining)
      else
        '(rest, paid, remaining) ← pay_rewards user mine infos paid pool_info_rewards;
        mret (u :: rest, paid, remaining)
  end.

Definition get_rewards (origin : RawOrigin) (base_asset pool_asset reward : AssetId) (farm : bool)
    : F unit :=
  with_transaction (
    user ← ensure_signed origin;
    s ← get_state;
    let pool_infos := pools_of s pool_asset reward in
    pool_info ← ok_or (found (is_pool base_asset farm) pool_infos)
                  (DemeterError DemeterErrors.PoolDoesNotExist);
    '(user_infos, paid, remaining) ←
      pay_rewards user (is_stake base_asset pool_asset reward farm) (user_infos_of s user) 0
        (pool_rewards pool_info);
    _ ← put_users user user_infos;
    _ ← put_pools pool_asset reward
          (update_where (is_pool base_asset farm) (set_pool_rewards remaining) pool_infos);
    deposit_event (RewardWithdrawn user paid base_asset pool_asset reward farm)).

Fixpoint withdraw_stakes (user : AccountId) (mine : UserInfo → bool) (pool_asset : AssetId) (farm : bool)
    (amount : Balance) (infos : list UserInfo) : F (list UserInfo) :=
  match infos with
  | [] => mret []
  | u :: infos =>
      u ← (if mine u then
             _ ← check (amount <=? pooled_tokens u) DemeterErrors.InsufficientFunds;
             _ ← (if farm then mret tt else transfer pool_asset farming_account user amount);
             mret (set_pooled (pooled_tokens u - amount) u)
           else mret u);
      rest ← withdraw_stakes user mine pool_asset farm amount infos;
      mret (u :: rest)
  end.

Definition withdraw (origin : RawOrigin) (base_asset pool_asset reward : AssetId) (amount : Balance)
    (farm : bool) : F unit :=
  with_transaction (
    user ← ensure_signed origin;
    s ← get_state;
    let mine := is_stake base_asset pool_asset reward farm in
    user_infos ← withdraw_stakes user mine pool_asset farm amount (user_infos_of s user);
    _ ← check (existsb mine (user_infos_of s user)) DemeterErrors.InsufficientFunds;
    _ ← put_users user user_infos;
    _ ← put_pools pool_asset reward
          (update_where (is_pool base_asset farm)
             (λ p, set_total (u128_wrap (total_tokens_in_pool p - amount)) p)
             (pools_of s pool_asset reward));
    deposit_event (Withdrawn user amount base_asset pool_asset reward farm)).

(** ** Administration *)

Definition remove_pool (origin : RawOrigin) (base_asset pool_asset reward : AssetId) (farm : bool)
    : F unit :=
  user ← ensure_authority origin;
  s ← get_state;
  _ ← put_pools pool_asset reward
        (update_where (is_pool base_asset farm) (set_removed true) (pools_of s pool_asset reward));
  deposit_event (PoolRemoved user base_asset pool_asset reward farm).

(** Every matching entry gets the new multiplier; the total changes by the last one. *)
Definition change_pool_multiplier (origin : RawOrigin) (base_asset pool_asset reward : AssetId)
    (farm : bool) (new_multiplier : Z) : F unit :=
  user ← ensure_authority origin;
  s ← get_state;
  let pool_infos := pools_of s pool_asset reward in
  old ← ok_or (found (is_pool base_asset farm) pool_infos) (DemeterError DemeterErrors.PoolDoesNotExist);
  token_info ← ok_or (TokenInfos s !! reward) (DemeterError DemeterErrors.RewardTokenIsNotRegistered);
  _ ← put_token reward (add_multiplier farm (multiplier old) new_multiplier token_info);
  _ ← put_pools pool_asset reward
        (update_where (is_pool base_asset farm) (set_multiplier new_multiplier) pool_infos);
  deposit_event (MultiplierChanged user base_asset pool_asset reward farm new_multiplier).

Definition change_total_tokens (origin : RawOrigin) (base_asset pool_asset reward : AssetId)
    (farm : bool) (total_tokens : Balance) : F unit :=
  user ← ensure_authority origin;
  s ← get_state;
  let pool_infos := pools_of s pool_asset reward in
  _ ← check (existsb (is_active base_asset farm) pool_infos) DemeterErrors.PoolDoesNotExist;
  _ ← put_pools pool_asset reward
        (update_where (is_active base_asset farm) (set_total total_tokens) pool_infos);
  deposit_event (TotalTokensChanged user base_asset pool_asset reward farm total_tokens).

Definition change_info (origin : RawOrigin) (changed_user : AccountId)
    (base_asset pool_asset reward : AssetId) (farm : bool) (pool_tokens : Balance) : F unit :=
  _ ← ensure_authority origin;
  s ← get_state;
  _ ← put_users changed_user
        (update_where (is_stake base_asset pool_asset reward farm) (set_pooled pool_tokens)
           (user_infos_of s changed_user));
  deposit_event (InfoChanged changed_user base_asset pool_asset reward farm pool_tokens).

Definition change_pool_deposit_fee (origin : RawOrigin) (base_asset pool_asset reward : AssetId)
    (farm : bool) (fee : Balance) : F unit :=
  user ← ensure_authority origin;
  _ ← check (fee <=? Fixed.COEF) DemeterErrors.InvalidDepositFee;
  s ← get_state;
  let pool_infos := pools_of s pool_asset reward in
  _ ← check (existsb (is_active base_asset farm) pool_infos) DemeterErrors.PoolDoesNotExist;
  _ ← put_pools pool_asset reward
        (update_where (is_active base_asset farm) (set_deposit_fee fee) pool_infos);
  deposit_event (DepositFeeChanged user base_asset pool_asset reward farm fee).

Definition change_token_info (origin : RawOrigin) (pool_asset : AssetId)
    (per_block farms staking team : Balance) (account : AccountId) : F unit :=
  user ← ensure_signed origin;
  s ← get_state;
  token_info ← ok_or (TokenInfos s !! pool_asset) (DemeterError DemeterErrors.RewardTokenIsNotRegistered);
  _ ← check (bool_decide (user = AuthorityAccount s) || bool_decide (user = team_account token_info))
        DemeterErrors.Unauthorized;
  _ ← check (negb (per_block =? 0)) DemeterErrors.TokenPerBlockCantBeZero;
  _ ← check (valid_allocations farms staking team) DemeterErrors.InvalidAllocationParameters;
  _ ← put_token pool_asset
        (mkTokenInfo (farms_total_multiplier token_info) (staking_total_multiplier token_info) per_block
           farms staking team account);
  deposit_event (TokenInfoChanged user pool_asset).

Definition activate_removed_pool (origin : RawOrigin) (base_asset pool_asset reward : AssetId)
    (farm : bool) : F unit :=
  user ← ensure_authority origin;
  s ← get_state;
  _ ← put_pools pool_asset reward
        (update_where (is_pool base_asset farm) (set_removed false) (pools_of s pool_asset reward));
  deposit_event (RemovedPoolActivated user base_asset pool_asset reward farm).

(** ** Rewards *)

(** 14400 blocks, as a fixed point number. *)
Definition blocks : Balance := 14400 * Fixed.COEF.

Definition mint_deo : F unit :=
  s ← get_state;
  match TokenInfos s !! DemeterAssetId with
  | None => mret tt
  | Some deo_info =>
      let amount := balance_or 0 (fixed_mul blocks (token_per_block deo_info)) in
      let amount_for_team := balance_or 0 (fixed_mul amount (team_allocation deo_info)) in
      ignored (on_xyk (PoolXyk.on_ledger
        (Assets.mint_to DemeterAssetId (AuthorityAccount s) farming_account
           (u128_wrap (amount - amount_for_team)))))
  end.

(** [amount * (multiplier / total_multiplier)]. *)
Definition pool_reward (amount : Balance) (mult total_multiplier : Z) : Balance :=
  balance_or 0
    (FixedWrapper.mul (FixedWrapper.from_int amount)
       (FixedWrapper.div (FixedWrapper.from_int (mult * Fixed.COEF))
          (FixedWrapper.from_int (total_multiplier * Fixed.COEF)))).

Definition reward_pool (token_info : TokenInfo) (amount_for_farming amount_for_staking : Balance)
    (p : PoolData) : PoolData :=
  if negb (is_removed p) && negb (total_tokens_in_pool p =? 0) then
    set_to_be_distributed
      (if pool_is_farm p
       then pool_reward amount_for_farming (multiplier p) (farms_total_multiplier token_info)
       else pool_reward amount_for_staking (multiplier p) (staking_total_multiplier token_info)) p
  else p.

Definition distribute_token (token : AssetId * TokenInfo) : F unit :=
  let '(token_asset_id, token_info) := token in
  let amount_per_day := balance_or 0 (fixed_mul blocks (token_per_block token_info)) in
  let amount_for_farming := balance_or 0 (fixed_mul amount_per_day (farms_allocation token_info)) in
  let amount_for_staking := balance_or 0 (fixed_mul amount_per_day (staking_allocation token_info)) in
  let amount_for_team := balance_or 0 (fixed_mul amount_per_day (team_allocation token_info)) in
  _ ← ignored (transfer token_asset_id farming_account (team_account token_info) amount_for_team);
  s ← get_state;
  for_each (storage_iter (Pools s)) (λ '(pool_asset, reward, pool_infos),
    if bool_decide (reward = token_asset_id) then
      put_pools pool_asset reward
        (reward_pool token_info amount_for_farming amount_for_staking <$> pool_infos)
    else mret tt).

Definition distribute_rewards_to_pools : F unit :=
  _ ← mint_deo;
  s ← get_state;
  for_each (storage_iter (TokenInfos s)) distribute_token.

(** [balance!(0.0625)]. *)
Definition per_hour_and_half : Balance := 625 * 10 ^ 14.

(** The share of a stake in [amount]. *)
Definition user_reward (amount pooled total : Balance) : Balance :=
  balance_or 0
    (FixedWrapper.mul (FixedWrapper.from_int amount)
       (FixedWrapper.div (FixedWrapper.from_int pooled) (FixedWrapper.from_int total))).

Definition amount_per_hour (p : PoolData) : Balance :=
  balance_or 0 (fixed_mul (rewards_to_be_distributed p) per_hour_and_half).

Definition reward_users (pool_asset reward : AssetId) (p : PoolData) : F unit :=
  let mine := is_stake (pool_base_asset p) pool_asset reward (pool_is_farm p) in
  s ← get_state;
  for_each (storage_iter (UserInfos s)) (λ '(user, user_infos),
    if existsb mine user_infos then
      put_users user
        (update_where mine
           (λ u, set_rewards
              (u128_wrap (rewards u + user_reward (amount_per_hour p) (pooled_tokens u) (total_tokens_in_pool p)))
              u) user_infos)
    else mret tt).

Definition is_paying (p : PoolData) : bool :=
  negb (rewards_to_be_distributed p =? 0) && negb (is_removed p).

Fixpoint distribute_pools (pool_asset reward : AssetId) (infos : list PoolData) : F (list PoolData) :=
  match infos with
  | [] => mret []
  | p :: infos =>
      p ← (if is_paying p then
             _ ← reward_users pool_asset reward p;
             mret (set_pool_rewards (u128_wrap (pool_rewards p + amount_per_hour p)) p)
           else mret p);
      rest ← distribute_pools pool_asset reward infos;
      mret (p :: rest)
  end.

Definition distribute_rewards_to_users : F unit :=
  s ← get_state;
  for_each (storage_iter (Pools s)) (λ '(pool_asset, reward, pool_infos),
    pool_infos ← distribute_pools pool_asset reward pool_infos;
    put_pools pool_asset reward pool_infos).

Definition on_initialize (now : Z) : F unit :=
  _ ← (if now mod BLOCKS_PER_HOUR_AND_A_HALF =? 0 then distribute_rewards_to_users else mret tt);
  if now mod BLOCKS_PER_ONE_DAY =? 0 then distribute_rewards_to_pools else mret tt.

(** ** [DemeterFarming] *)

Definition update_pool_tokens (user : AccountId) (pool_tokens : Balance)
    (base_asset pool_asset : AssetId) : F unit :=
  s ← get_state;
  user_infos ← cut_stakes
    (λ u, bool_decide (farm_pool_asset u = pool_asset) && is_farm u
          && bool_decide (farm_base_asset u = base_asset))
    base_asset pool_asset true pool_tokens (user_infos_of s user);
  put_users user user_infos.

(** ** Redenomination *)

(** The entry of the asset is divided and stored under [XOR]. *)
Definition update_token_info (factor : Balance) (asset_id : AssetId) : F unit :=
  s ← get_state;
  match TokenInfos s !! asset_id with
  | None => mret tt
  | Some i =>
      let div x := default x (u128_checked_div x factor) in
      put_token XOR
        (mkTokenInfo (farms_total_multiplier i) (staking_total_multiplier i) (token_per_block i)
           (div (farms_allocation i)) (div (staking_allocation i)) (div (team_allocation i))
           (team_account i))
  end.

Definition is_denominated (asset : AssetId) : bool :=
  bool_decide (asset = XOR) || bool_decide (asset = TBCD).

(** [tokens / ratio]. *)
Definition rescaled (tokens : Balance) (ratio : FixedWrapper256.t) : Balance :=
  match FixedWrapper256.try_into_balance (FixedWrapper256.div (fxw tokens) ratio) with
  | Ok v => v
  | Err _ => tokens
  end.

Definition denominate_pool s (factor : Balance) (pool_asset reward : AssetId) (p : PoolData)
    : option PoolData :=
  p ← (if is_denominated pool_asset || is_denominated (pool_base_asset p) then
         ratio ← PoolXyk.calculate_fxw_issuance_ratio (pool_base_asset p) pool_asset (xyk s);
         Some (set_total (rescaled (total_tokens_in_pool p) ratio) p)
       else Some p);
  Some (if is_denominated reward then
          set_to_be_distributed
            (default (rewards_to_be_distributed p) (u128_checked_div (rewards_to_be_distributed p) factor))
            (set_pool_rewards (default (pool_rewards p) (u128_checked_div (pool_rewards p) factor)) p)
        else p).

Definition pool_touched (pool_asset reward : AssetId) (p : PoolData) : bool :=
  is_denominated pool_asset || is_denominated (pool_base_asset p) || is_denominated reward.

Definition denominate_user s (factor : Balance) (u : UserInfo) : option UserInfo :=
  u ← (if is_denominated (farm_pool_asset u) || is_denominated (farm_base_asset u) then
         ratio ← PoolXyk.calculate_fxw_issuance_ratio (farm_base_asset u) (farm_pool_asset u) (xyk s);
         let new_pooled_tokens := rescaled (pooled_tokens u) ratio in
         if new_pooled_tokens =? 0 then None else Some (set_pooled new_pooled_tokens u)
       else Some u);
  Some (if is_denominated (reward_asset u)
        then set_rewards (default (rewards u) (u128_checked_div (rewards u) factor)) u else u).

Definition user_touched (u : UserInfo) : bool :=
  is_denominated (farm_pool_asset u) || is_denominated (farm_base_asset u)
  || is_denominated (reward_asset u).

Definition on_denominate (factor : Balance) : F unit :=
  _ ← update_token_info factor XOR;
  _ ← update_token_info factor TBCD;
  s ← get_state;
  _ ← for_each (storage_iter (Pools s)) (λ '(pool_asset, reward, pool_infos),
        if existsb (pool_touched pool_asset reward) pool_infos
        then put_pools pool_asset reward (omap (denominate_pool s factor pool_asset reward) pool_infos)
        else mret tt);
  for_each (storage_iter (UserInfos s)) (λ '(account, user_infos),
    if existsb user_touched user_infos
    then put_users account (omap (denominate_user s factor) user_infos)
    else mret tt).
End pallet.
End Farming.
