(* ===== verification/FarmingProps.v ===== *)
(** * Stakes and rewards of the farms

    Along every history the stakes of a pool stay within its total and the rewards of
    its users within its rewards, so that rewards can be withdrawn. *)

From S2P Require Import Prelude BTreeMap FixedPoint Helpers256 FixedU256 Units OrderTypes SwapTypes PoolMath DataLayer.
From S2P Require Import World Permissions TradingPair OrderBook WorldRefine Scheduler Pallet Technical PoolXyk Farming.
Import Farming.

(** ** The reward of a user *)

Lemma balance_or_range x : 0 ≤ balance_or 0 x.
Proof.
  unfold balance_or, FixedWrapper.try_into_balance. destruct x as [v|]; [|done].
  destruct (Z.leb_spec 0 v); lia.
Qed.

Lemma from_int_Ok x y : FixedWrapper.from_int x = Ok y → y = x.
Proof. by intros [-> _]%Fixed.try_i128_ok. Qed.

(** A share of [amount] is at most the exact proportion. *)
Lemma user_reward_bound amount pooled total : 0 ≤ amount → 0 ≤ pooled → 0 ≤ total →
  0 ≤ user_reward amount pooled total ∧
  total * user_reward amount pooled total ≤ amount * pooled ∧
  (total = 0 → user_reward amount pooled total = 0).
Proof.
  intros Ha Hp Ht. split; [apply balance_or_range|].
  unfold user_reward, balance_or, FixedWrapper.try_into_balance.
  destruct (FixedWrapper.mul _ _) as [v|] eqn:E; [|lia].
  unfold FixedWrapper.mul, FixedWrapper.lift2 in E. apply result_bind_ok in E as ([x q] & Hz & E).
  unfold FixedWrapper.zip in Hz. apply result_bind_ok in Hz as (x' & ->%from_int_Ok & Hz).
  apply result_bind_ok in Hz as (q' & Hq & [= <- <-]).
  unfold FixedWrapper.div, FixedWrapper.lift2 in Hq. apply result_bind_ok in Hq as ([y z] & Hz & Hq).
  unfold FixedWrapper.zip in Hz. apply result_bind_ok in Hz as (y' & ->%from_int_Ok & Hz).
  apply result_bind_ok in Hz as (z' & ->%from_int_Ok & [= <- <-]). simpl in *.
  assert (total ≠ 0) as Hn by (intros ->; done).
  rewrite Fixed.rdiv_floor_nonneg in Hq by lia. apply Fixed.try_i128_ok in Hq as [-> _].
  assert (0 ≤ pooled * Fixed.COEF / total) as Hq0 by (apply Z.div_pos; unfold Fixed.COEF; nia).
  rewrite Fixed.rmul_floor_nonneg in E by lia. apply Fixed.try_i128_ok in E as [-> _].
  set (q := pooled * Fixed.COEF / total) in *.
  assert (total * q ≤ pooled * Fixed.COEF) by (apply Z.mul_div_le; lia).
  assert (Fixed.COEF * (amount * q / Fixed.COEF) ≤ amount * q) by (apply Z.mul_div_le; unfold Fixed.COEF; lia).
  split; [|done]. destruct (0 <=? _); [|lia]. unfold Fixed.COEF in *. nia.
Qed.

(** ** Sums of stakes *)

(** The key of a stake or of a pool: base, pool and reward asset, and whether it is a farm. *)
Definition stake_key (u : UserInfo) : AssetId * AssetId * AssetId * bool :=
  (farm_base_asset u, farm_pool_asset u, reward_asset u, is_farm u).
Definition pool_key (pool_asset reward : AssetId) (p : PoolData) : AssetId * AssetId * AssetId * bool :=
  (pool_base_asset p, pool_asset, reward, pool_is_farm p).

Lemma is_stake_key base pool reward farm u :
  is_stake base pool reward farm u = true ↔ stake_key u = (base, pool, reward, farm).
Proof.
  unfold is_stake, stake_key. rewrite !andb_true_iff, !bool_decide_eq_true. naive_solver.
Qed.
Lemma is_pool_key base farm p pool reward :
  is_pool base farm p = true ↔ pool_key pool reward p = (base, pool, reward, farm).
Proof. unfold is_pool, pool_key. rewrite andb_true_iff, !bool_decide_eq_true. naive_solver. Qed.

Section sums.
Implicit Types (k : AssetId * AssetId * AssetId * bool) (g : UserInfo → Z).
Implicit Types (m : gmap AccountId (list UserInfo)).

(** What the stakes of one user with key [k] hold, and what those of all users hold. *)
Definition of_key g k u : Z := if bool_decide (stake_key u = k) then g u else 0.
Definition user_sum g k (infos : list UserInfo) : Z := sum_by (of_key g k) infos.
Definition staked g k m : Z := sum_by (λ e, user_sum g k (snd e)) (map_to_list m).

Lemma staked_fresh g k m who infos : m !! who = None →
  staked g k (<[who := infos]> m) = user_sum g k infos + staked g k m.
Proof. intros Hk. unfold staked. by rewrite (sum_by_perm _ _ _ (map_to_list_insert m who infos Hk)). Qed.

Lemma staked_delete g k m who :
  staked g k m = user_sum g k (default [] (m !! who)) + staked g k (delete who m).
Proof.
  destruct (m !! who) as [infos|] eqn:Hw; simpl.
  - rewrite <- (insert_delete_id m who infos Hw) at 1. by rewrite staked_fresh by apply lookup_delete_eq.
  - by rewrite delete_id.
Qed.

Lemma staked_insert g k m who infos :
  staked g k (<[who := infos]> m)
  = staked g k m - user_sum g k (default [] (m !! who)) + user_sum g k infos.
Proof.
  rewrite (staked_delete g k (<[who := infos]> m) who), (staked_delete g k m who).
  rewrite lookup_insert_eq, delete_insert_eq. simpl. lia.
Qed.

Lemma staked_fmap g k m (f : list UserInfo → list UserInfo) :
  staked g k (f <$> m) = sum_by (λ e, user_sum g k (f (snd e))) (map_to_list m).
Proof. unfold staked. rewrite map_to_list_fmap, sum_by_fmap. done. Qed.

Lemma user_sum_nonneg g k infos : (∀ u, u ∈ infos → 0 ≤ g u) → 0 ≤ user_sum g k infos.
Proof. intros Hg. apply sum_by_nonneg. intros u Hu. unfold of_key. case_bool_decide; [by apply Hg|lia]. Qed.

Lemma user_sum_elem g k infos u : (∀ v, v ∈ infos → 0 ≤ g v) → u ∈ infos → stake_key u = k →
  g u ≤ user_sum g k infos.
Proof.
  intros Hg Hu Hk. assert (∀ v, v ∈ infos → 0 ≤ of_key g k v) as Hn.
  { intros v Hv. unfold of_key. case_bool_decide; [by apply Hg|lia]. }
  pose proof (sum_by_elem (of_key g k) infos u Hn Hu) as Hs.
  unfold of_key in Hs at 1. by rewrite bool_decide_eq_true_2 in Hs.
Qed.

Lemma user_sum_le_staked g k m who :
  (∀ who infos u, m !! who = Some infos → u ∈ infos → 0 ≤ g u) →
  user_sum g k (default [] (m !! who)) ≤ staked g k m.
Proof.
  intros Hg. rewrite (staked_delete g k m who).
  assert (0 ≤ staked g k (delete who m)); [|lia].
  apply sum_by_nonneg. intros [w infos] Hin%elem_of_map_to_list. apply user_sum_nonneg. intros u Hu.
  apply lookup_delete_Some in Hin as [_ Hin]. by eapply Hg.
Qed.

Lemma staked_nonneg g k m :
  (∀ who infos u, m !! who = Some infos → u ∈ infos → 0 ≤ g u) → 0 ≤ staked g k m.
Proof.
  intros Hg. apply sum_by_nonneg. intros [w infos] Hin%elem_of_map_to_list. apply user_sum_nonneg.
  intros u Hu. by eapply Hg.
Qed.

Lemma user_sum_app g k l1 l2 : user_sum g k (l1 ++ l2) = user_sum g k l1 + user_sum g k l2.
Proof. apply sum_by_app. Qed.
Lemma user_sum_cons g k u l : user_sum g k (u :: l) = of_key g k u + user_sum g k l.
Proof. done. Qed.
End sums.

(** ** Entries with a key of their own *)

(** [p] is the only entry of its key: a removed pool can be added again, which gives a second one. *)
Definition lone (pool reward : AssetId) (ps : list PoolData) (p : PoolData) : Prop :=
  filter (λ q, pool_key pool reward q = pool_key pool reward p) ps = [p].

Lemma lone_elem pool reward ps p : lone pool reward ps p → p ∈ ps.
Proof.
  intros Hl. assert (p ∈ filter (λ q, pool_key pool reward q = pool_key pool reward p) ps) as Hin.
  { rewrite Hl. left. }
  by apply list_elem_of_filter in Hin as [_ ?].
Qed.

Lemma lone_unique pool reward ps p q :
  lone pool reward ps p → q ∈ ps → pool_key pool reward q = pool_key pool reward p → q = p.
Proof.
  intros Hl Hq Hk. assert (q ∈ filter (λ q, pool_key pool reward q = pool_key pool reward p) ps) as Hin.
  { by apply list_elem_of_filter. }
  rewrite Hl in Hin. by apply list_elem_of_singleton in Hin.
Qed.

Lemma lone_fmap pool reward (f : PoolData → PoolData) ps p' :
  (∀ p, p ∈ ps → pool_key pool reward (f p) = pool_key pool reward p) →
  lone pool reward (f <$> ps) p' → ∃ p, lone pool reward ps p ∧ p' = f p.
Proof.
  intros Hf Hl. unfold lone in *.
  assert (filter (λ q, pool_key pool reward q = pool_key pool reward p') (f <$> ps)
          = f <$> filter (λ q, pool_key pool reward q = pool_key pool reward p') ps) as E.
  { clear Hl. induction ps as [|q ps IH]; [done|]. rewrite fmap_cons, !filter_cons, Hf by left.
    rewrite IH by (intros; apply Hf; by right). by case_decide. }
  rewrite E in Hl. destruct (filter _ ps) as [|p [|q l]] eqn:Ep; try done. injection Hl as Hp.
  exists p. split; [|done].
  assert (p ∈ filter (λ q, pool_key pool reward q = pool_key pool reward p') ps) as Hin by (rewrite Ep; left).
  apply list_elem_of_filter in Hin as [Hk _]. by rewrite Hk.
Qed.

Lemma lone_app pool reward ps p q :
  lone pool reward (ps ++ [q]) p →
  lone pool reward ps p ∨ p = q ∧ ∀ r, r ∈ ps → pool_key pool reward r ≠ pool_key pool reward q.
Proof.
  unfold lone. rewrite filter_app, filter_cons, filter_nil. case_decide as Hq.
  - intros E. apply app_eq_unit in E as [[E1 [= <-]]|[_ [=]]]. right. split; [done|].
    intros r Hr Hk. assert (r ∈ filter (λ r, pool_key pool reward r = pool_key pool reward q) ps) as Hin
      by by apply list_elem_of_filter.
    rewrite E1 in Hin. by apply elem_of_nil in Hin.
  - rewrite app_nil_r. by left.
Qed.

(** One entry is replaced by another with its key. *)
Lemma lone_replace pool reward l1 p p' l2 q :
  lone pool reward (l1 ++ p' :: l2) q → pool_key pool reward p' = pool_key pool reward p →
  lone pool reward (l1 ++ p :: l2) p ∧ q = p' ∨
  lone pool reward (l1 ++ p :: l2) q ∧ pool_key pool reward q ≠ pool_key pool reward p.
Proof.
  intros Hl Hk. destruct (decide (pool_key pool reward q = pool_key pool reward p)) as [E|E].
  - left. assert (p' = q) as <- by (eapply lone_unique; [exact Hl|set_solver|congruence]). split; [|done].
    unfold lone in *. rewrite filter_app, filter_cons, Hk in *. rewrite decide_True in * by done.
    apply (f_equal length) in Hl as Hn. rewrite length_app in Hn. simpl in Hn.
    destruct (filter _ l1); [|simpl in Hn; lia]. by destruct (filter _ l2).
  - right. split; [|done]. unfold lone in *. rewrite filter_app, filter_cons, decide_False in Hl by congruence.
    rewrite filter_app, filter_cons, decide_False by congruence. exact Hl.
Qed.

(** ** The invariant *)

Record farm_ok (pools : gmap (AssetId * AssetId) (list PoolData)) (users : gmap AccountId (list UserInfo))
    : Prop := {
  ok_amounts who infos u : users !! who = Some infos → u ∈ infos → 0 ≤ pooled_tokens u ∧ 0 ≤ rewards u;
  ok_stakes who infos : users !! who = Some infos → NoDup (stake_key <$> infos);
  ok_fees pool reward p : p ∈ default [] (pools !! (pool, reward)) → 0 ≤ deposit_fee p ≤ Fixed.COEF;
  ok_backed who infos u : users !! who = Some infos → u ∈ infos →
    stake_key u ∈ pool_key (farm_pool_asset u) (reward_asset u) <$>
                    default [] (pools !! (farm_pool_asset u, reward_asset u));
  ok_covered pool reward p : lone pool reward (default [] (pools !! (pool, reward))) p →
    staked pooled_tokens (pool_key pool reward p) users ≤ total_tokens_in_pool p ≤ u128_max ∧
    staked rewards (pool_key pool reward p) users ≤ pool_rewards p ≤ u128_max
}.

(** One user and the pools of one pair of assets change. *)
Lemma farm_ok_change pools users who infos' pool reward ps' :
  farm_ok pools users →
  let infos := default [] (users !! who) in
  let ps := default [] (pools !! (pool, reward)) in
  (∀ u, u ∈ infos' → 0 ≤ pooled_tokens u ∧ 0 ≤ rewards u) →
  NoDup (stake_key <$> infos') → (∀ p, p ∈ ps' → 0 ≤ deposit_fee p ≤ Fixed.COEF) →
  (∀ key, key ∈ pool_key pool reward <$> ps → key ∈ pool_key pool reward <$> ps') →
  (∀ u, u ∈ infos' → stake_key u ∈ stake_key <$> infos ∨ stake_key u ∈ pool_key pool reward <$> ps') →
  (∀ base p r farm, (p, r) ≠ (pool, reward) →
     user_sum pooled_tokens (base, p, r, farm) infos' ≤ user_sum pooled_tokens (base, p, r, farm) infos ∧
     user_sum rewards (base, p, r, farm) infos' ≤ user_sum rewards (base, p, r, farm) infos) →
  (∀ p, lone pool reward ps' p →
     staked pooled_tokens (pool_key pool reward p) users
       - user_sum pooled_tokens (pool_key pool reward p) infos
       + user_sum pooled_tokens (pool_key pool reward p) infos' ≤ total_tokens_in_pool p ≤ u128_max ∧
     staked rewards (pool_key pool reward p) users
       - user_sum rewards (pool_key pool reward p) infos
       + user_sum rewards (pool_key pool reward p) infos' ≤ pool_rewards p ≤ u128_max) →
  farm_ok (<[(pool, reward) := ps']> pools) (<[who := infos']> users).
Proof.
  intros [Ha Hs Hp Hb Hc] infos ps Hamt Hstakes Hfees Hkeep Hback Hother Hcov.
  assert (∀ pa ra key, key ∈ pool_key pa ra <$> default [] (pools !! (pa, ra)) →
    key ∈ pool_key pa ra <$> default [] (<[(pool, reward) := ps']> pools !! (pa, ra))) as Hmono.
  { intros pa ra key. destruct (decide ((pa, ra) = (pool, reward))) as [[= -> ->]|Hne].
    - rewrite lookup_insert_eq. apply Hkeep.
    - by rewrite lookup_insert_ne. }
  split.
  - intros w l u [[<- <-]|[_ Hw]]%lookup_insert_Some Hu; [by apply Hamt|by eapply Ha].
  - intros w l [[<- <-]|[_ Hw]]%lookup_insert_Some; [done|by eapply Hs].
  - intros pa ra p. destruct (decide ((pa, ra) = (pool, reward))) as [[= -> ->]|Hne].
    + rewrite lookup_insert_eq. apply Hfees.
    + rewrite lookup_insert_ne by congruence. apply Hp.
  - intros w l u [[<- <-]|[_ Hw]]%lookup_insert_Some Hu; [|by eapply Hmono, Hb].
    destruct (Hback u Hu) as [(v & Hv & Hin)%list_elem_of_fmap|Hin].
    + assert (farm_pool_asset u = farm_pool_asset v ∧ reward_asset u = reward_asset v) as [-> ->]
        by (unfold stake_key in Hv; naive_solver).
      rewrite Hv. apply Hmono. unfold infos in Hin.
      destruct (users !! who) as [l|] eqn:El; [by eapply Hb|by apply elem_of_nil in Hin].
    + pose proof Hin as (p & Hkey & _)%list_elem_of_fmap. unfold stake_key, pool_key in Hkey.
      injection Hkey as _ Epool Ereward _. rewrite Epool, Ereward, lookup_insert_eq. exact Hin.
  - intros pa ra p Hin. rewrite !staked_insert. fold infos.
    destruct (decide ((pa, ra) = (pool, reward))) as [[= -> ->]|Hne].
    + rewrite lookup_insert_eq in Hin. by apply Hcov.
    + rewrite lookup_insert_ne in Hin by congruence. pose proof (Hc pa ra p Hin) as [Hc1 Hc2].
      pose proof (Hother (pool_base_asset p) pa ra (pool_is_farm p) Hne) as [Ho1 Ho2].
      unfold pool_key in *. lia.
Qed.

(** Entries change, keys do not. *)
Lemma farm_ok_same_keys pools users pools' users' :
  farm_ok pools users →
  (∀ pool reward, pool_key pool reward <$> default [] (pools' !! (pool, reward))
                  = pool_key pool reward <$> default [] (pools !! (pool, reward))) →
  (∀ who, stake_key <$> default [] (users' !! who) = stake_key <$> default [] (users !! who)) →
  (∀ who infos u, users' !! who = Some infos → u ∈ infos → 0 ≤ pooled_tokens u ∧ 0 ≤ rewards u) →
  (∀ pool reward p, p ∈ default [] (pools' !! (pool, reward)) → 0 ≤ deposit_fee p ≤ Fixed.COEF) →
  (∀ pool reward p, lone pool reward (default [] (pools' !! (pool, reward))) p →
     staked pooled_tokens (pool_key pool reward p) users' ≤ total_tokens_in_pool p ≤ u128_max ∧
     staked rewards (pool_key pool reward p) users' ≤ pool_rewards p ≤ u128_max) →
  farm_ok pools' users'.
Proof.
  intros [_ Hs _ Hb _] Hpk Huk Hamt Hfees Hcov. split; [exact Hamt| |exact Hfees| |exact Hcov].
  - intros who infos Hw. specialize (Huk who). rewrite Hw in Huk. simpl in Huk. rewrite Huk.
    destruct (users !! who) eqn:E; [by eapply Hs|apply NoDup_nil_2].
  - intros who infos u Hw Hu. rewrite Hpk. specialize (Huk who). rewrite Hw in Huk. simpl in Huk.
    apply (list_elem_of_fmap_2 stake_key) in Hu. rewrite Huk in Hu.
    apply list_elem_of_fmap in Hu as (v & Hk & Hv). destruct (users !! who) as [l|] eqn:E; [|by apply elem_of_nil in Hv].
    specialize (Hb who l v E Hv). rewrite Hk. unfold stake_key in Hk. injection Hk as _ -> -> _. exact Hb.
Qed.

(** A user without an entry has no stakes. *)
Lemma farm_ok_here pools users who :
  farm_ok pools users → farm_ok pools (<[who := default [] (users !! who)]> users).
Proof.
  intros Hok. destruct (users !! who) as [infos|] eqn:E; simpl; [by rewrite insert_id|].
  destruct Hok as [Oa Os Op Ob Oc]. split.
  - intros w l v [[<- <-]|[_ Hw]]%lookup_insert_Some; [by intros ?%elem_of_nil|by eapply Oa].
  - intros w l [[<- <-]|[_ Hw]]%lookup_insert_Some; [apply NoDup_nil_2|by eapply Os].
  - done.
  - intros w l v [[<- <-]|[_ Hw]]%lookup_insert_Some; [by intros ?%elem_of_nil|by eapply Ob].
  - intros pa ra q Hq. rewrite !staked_insert, E. simpl. specialize (Oc pa ra q Hq).
    unfold user_sum. simpl. lia.
Qed.

(** ** Updates of the lists *)

Section lists.
Context {A : Type} (test : A → bool).
Implicit Types (xs : list A).

Lemma found_Some xs x : found test xs = Some x → x ∈ xs ∧ test x = true.
Proof. unfold found. intros Hx%last_Some_elem_of. by apply list_elem_of_filter in Hx as [? ?]. Qed.

Lemma found_None xs x : found test xs = None → x ∈ xs → test x = false.
Proof.
  unfold found. intros Hn%last_None Hx. destruct (test x) eqn:Ht; [|done].
  assert (x ∈ filter (λ x, test x = true) xs) as Hin by by apply list_elem_of_filter.
  rewrite Hn in Hin. by apply elem_of_nil in Hin.
Qed.

Lemma update_where_elem upd xs x : x ∈ update_where test upd xs →
  ∃ y, y ∈ xs ∧ x = if test y then upd y else y.
Proof. intros (y & -> & Hy)%list_elem_of_fmap. by exists y. Qed.

Lemma update_where_key {B} (key : A → B) upd xs : (∀ x, key (upd x) = key x) →
  key <$> update_where test upd xs = key <$> xs.
Proof.
  intros Hk. unfold update_where. rewrite <- list_fmap_compose. apply list_fmap_ext.
  intros i x _. simpl. by destruct (test x).
Qed.

Lemma update_where_none upd xs : existsb test xs = false → update_where test upd xs = xs.
Proof.
  intros Hn. induction xs as [|x xs IH]; [done|]. simpl in Hn. apply orb_false_iff in Hn as [Hx Hn].
  unfold update_where in *. simpl. rewrite Hx. f_equal. by apply IH.
Qed.
End lists.

Section stakes.
Context (base pool reward : AssetId) (farm : bool).
Abbreviation mine := (is_stake base pool reward farm).
Abbreviation key := (base, pool, reward, farm).
Implicit Types (infos : list UserInfo) (g : UserInfo → Z).

Lemma user_sum_none g k infos : (∀ u, u ∈ infos → stake_key u ≠ k) → user_sum g k infos = 0.
Proof. intros Hn. apply sum_by_zero. intros u Hu. unfold of_key. by rewrite bool_decide_eq_false_2 by auto. Qed.

(** The one stake with the key. *)
Lemma user_sum_found g infos : NoDup (stake_key <$> infos) →
  user_sum g key infos = match found mine infos with Some u => g u | None => 0 end.
Proof.
  intros Hnd. destruct (found mine infos) as [u|] eqn:Hf.
  - apply found_Some in Hf as [Hin Hk%is_stake_key].
    apply list_elem_of_split in Hin as (l1 & l2 & ->). rewrite user_sum_app, user_sum_cons.
    rewrite fmap_app, fmap_cons in Hnd. apply NoDup_app in Hnd as (_ & Hd & Hnd).
    apply NoDup_cons in Hnd as [Hn2 _]. rewrite !user_sum_none.
    + unfold of_key. rewrite bool_decide_eq_true_2 by done. lia.
    + intros v Hv Hkv. apply Hn2. rewrite Hk, <- Hkv. by apply list_elem_of_fmap_2.
    + intros v Hv Hkv. apply (Hd (stake_key v)); [by apply list_elem_of_fmap_2|].
      rewrite Hkv, Hk. left.
  - apply user_sum_none. intros u Hu Hk. apply is_stake_key in Hk.
    pose proof (found_None _ _ _ Hf Hu). congruence.
Qed.

Lemma user_sum_update_other g k upd infos : (∀ u, stake_key (upd u) = stake_key u) → k ≠ key →
  user_sum g k (update_where mine upd infos) = user_sum g k infos.
Proof.
  intros Hupd Hk. induction infos as [|u infos IH]; [done|].
  change (update_where mine upd (u :: infos)) with ((if mine u then upd u else u) :: update_where mine upd infos).
  rewrite !user_sum_cons, IH. f_equal. destruct (mine u) eqn:Hm; [|done].
  apply is_stake_key in Hm. unfold of_key. rewrite Hupd, Hm. by rewrite bool_decide_eq_false_2.
Qed.

Lemma user_sum_update g (upd : UserInfo → UserInfo) infos :
  (∀ u, stake_key (upd u) = stake_key u) →
  user_sum g key (update_where mine upd infos) = user_sum (λ u, g (upd u)) key infos.
Proof.
  intros Hupd. induction infos as [|u infos IH]; [done|].
  change (update_where mine upd (u :: infos)) with ((if mine u then upd u else u) :: update_where mine upd infos).
  rewrite !user_sum_cons, IH. f_equal. unfold of_key. destruct (mine u) eqn:Hm.
  - by rewrite Hupd.
  - rewrite bool_decide_eq_false_2; [done|]. intros Hk%is_stake_key. congruence.
Qed.

Lemma user_sum_ext g g' k infos : (∀ u, u ∈ infos → g u = g' u) → user_sum g k infos = user_sum g' k infos.
Proof. intros Hg. apply sum_by_ext. intros u Hu. unfold of_key. case_bool_decide; auto. Qed.
End stakes.

(** ** Stakes that are cut *)

Lemma u128_wrap_id x : 0 ≤ x ≤ u128_max → u128_wrap x = x.
Proof. apply u128_wrap_small. Qed.

Lemma set_pooled_key v u : stake_key (set_pooled v u) = stake_key u.
Proof. done. Qed.
Lemma set_rewards_key v u : stake_key (set_rewards v u) = stake_key u.
Proof. done. Qed.

Lemma user_sum_replace g k l1 l2 u u' : stake_key u' = stake_key u →
  user_sum g k (l1 ++ u' :: l2)
  = user_sum g k (l1 ++ u :: l2) + (if bool_decide (stake_key u = k) then g u' - g u else 0).
Proof.
  intros Hk. rewrite !user_sum_app, !user_sum_cons. unfold of_key. rewrite Hk. case_bool_decide; lia.
Qed.

(** A part of an amount, given by a fraction, is at most the amount. *)
Lemma fixed_mul_range amount fraction : 0 ≤ amount → 0 ≤ fraction ≤ Fixed.COEF →
  0 ≤ balance_or 0 (fixed_mul amount fraction) ≤ amount.
Proof.
  intros Ha Hf. split; [apply balance_or_range|]. unfold balance_or.
  destruct (FixedWrapper.try_into_balance _) as [v|] eqn:E; [|done].
  unfold fixed_mul, FixedWrapper.try_into_balance in E.
  destruct (FixedWrapper.mul _ _) as [w|] eqn:Ew; [|done].
  destruct (0 <=? w); [|done]. injection E as <-.
  unfold FixedWrapper.mul, FixedWrapper.lift2 in Ew. apply result_bind_ok in Ew as ([x y] & Hz & Ew).
  unfold FixedWrapper.zip in Hz. apply result_bind_ok in Hz as (x' & ->%from_int_Ok & Hz).
  apply result_bind_ok in Hz as (y' & ->%from_int_Ok & [= <- <-]). simpl in Ew.
  rewrite Fixed.rmul_floor_nonneg in Ew by lia. apply Fixed.try_i128_ok in Ew as [-> _].
  apply Z.div_le_upper_bound; unfold Fixed.COEF in *; nia.
Qed.

Lemma fee_of_range amount p : 0 ≤ amount → 0 ≤ deposit_fee p ≤ Fixed.COEF →
  0 ≤ fee_of amount p ≤ amount.
Proof. apply fixed_mul_range. Qed.

Section ops.
Context {PC : PoolConfig} {PP : PoolParams} {SK : StorageKeys} {TH : TechHash} {FC : FarmingConfig}.
Context {L : Type} `{MultiCurrency L} {IS : Issuance L} {AI : AssetInfo L} {PR : Providers L}.
Context {RF : Permissions.References L} {HK : PoolHooks L}.
Implicit Types (s : t L).

(** One stake is cut to [lp], and the total of its pool by the difference. *)
Lemma farm_ok_cut pools users who l1 u l2 lp base :
  let pool := farm_pool_asset u in
  let reward := reward_asset u in
  0 ≤ lp < pooled_tokens u → is_farm u = true → farm_base_asset u = base →
  farm_ok pools (<[who := l1 ++ u :: l2]> users) →
  farm_ok (<[(pool, reward) :=
             update_where (is_active base true)
               (λ p, set_total (u128_wrap (total_tokens_in_pool p - (pooled_tokens u - lp))) p)
               (default [] (pools !! (pool, reward)))]> pools)
    (<[who := l1 ++ set_pooled lp u :: l2]> users).
Proof.
  intros pool reward Hlp Hfarm Hbase Hok.
  rewrite <- (insert_insert_eq users who (l1 ++ set_pooled lp u :: l2) (l1 ++ u :: l2)).
  assert (stake_key <$> (l1 ++ set_pooled lp u :: l2) = stake_key <$> (l1 ++ u :: l2)) as Hkeys
    by by rewrite !fmap_app, !fmap_cons, set_pooled_key.
  assert (stake_key u = (base, pool, reward, true)) as Hku by (unfold stake_key; by rewrite Hbase, Hfarm).
  clearbody pool reward. pose proof Hok as [Ha Hs Hp Hb Hc].
  apply farm_ok_change; rewrite ?lookup_insert_eq; simpl.
  - done.
  - intros v Hv. assert (v = set_pooled lp u ∨ v ∈ l1 ++ u :: l2) as [->|Hin] by set_solver.
    + simpl. destruct (Ha who _ u (lookup_insert_eq _ _ _)); [set_solver|lia].
    + by eapply Ha; [apply lookup_insert_eq|].
  - rewrite Hkeys. by eapply Hs, lookup_insert_eq.
  - intros p' (p & Hin & ->)%update_where_elem. specialize (Hp pool reward p Hin).
    by destruct (is_active base true p).
  - intros k. by rewrite update_where_key.
  - intros v Hv. left. rewrite <- Hkeys. by apply list_elem_of_fmap_2.
  - intros b p r fm Hne. rewrite !(user_sum_replace _ _ _ _ _ _ (set_pooled_key lp u)), Hku.
    rewrite bool_decide_eq_false_2 by naive_solver. lia.
  - intros p' (p & Hin & ->)%lone_fmap; [|by intros q _; destruct (is_active base true q)].
    specialize (Hc pool reward p Hin) as [Hc1 Hc2].
    assert (pool_key pool reward (if is_active base true p
      then set_total (u128_wrap (total_tokens_in_pool p - (pooled_tokens u - lp))) p else p)
      = pool_key pool reward p) as -> by by destruct (is_active base true p).
    rewrite !(user_sum_replace _ _ _ _ _ _ (set_pooled_key lp u)), Hku.
    set (st := staked pooled_tokens _ _) in *. set (sr := staked rewards _ _) in *. clearbody sr.
    assert (bool_decide ((base, pool, reward, true) = pool_key pool reward p) = is_pool base true p) as ->.
    { apply eq_bool_prop_intro. rewrite bool_decide_spec, Is_true_true.
      rewrite (is_pool_key base true p pool reward). naive_solver. }
    assert (is_pool base true p = true → pooled_tokens u ≤ st) as Hu.
    { intros Hk. apply (is_pool_key _ _ _ pool reward) in Hk. unfold st. rewrite Hk.
      etransitivity; [|apply (user_sum_le_staked _ _ _ who)].
      - rewrite lookup_insert_eq. simpl. apply user_sum_elem; [|set_solver|done].
        intros v Hv. by eapply Ha; [apply lookup_insert_eq|].
      - intros w l v Hw Hv. by eapply Ha. }
    assert (0 ≤ st) by (apply staked_nonneg; intros w l v Hw Hv; by eapply Ha).
    unfold is_active. destruct (is_pool base true p); simpl.
    + specialize (Hu eq_refl). rewrite andb_true_r. destruct (negb (is_removed p)); simpl.
      * rewrite u128_wrap_id by lia. lia.
      * lia.
    + rewrite andb_false_r. lia.
Qed.

Lemma cut_stakes_ok others base pool lp users who pre infos s infos' s' :
  (∀ u, others u = true → farm_pool_asset u = pool ∧ is_farm u = true ∧ farm_base_asset u = base) →
  0 ≤ lp → farm_ok (Pools s) (<[who := pre ++ infos]> users) →
  cut_stakes others base pool true lp infos s = (Ok infos', s') →
  farm_ok (Pools s') (<[who := pre ++ infos']> users) ∧ s' = set_pools (Pools s') s ∧
  (∀ r, (∀ u, others u = true → reward_asset u ≠ r) → Pools s' !! (pool, r) = Pools s !! (pool, r)) ∧
  Forall2 (λ u u', u' = u ∨ others u = true ∧ u' = set_pooled lp u) infos infos'.
Proof.
  intros Hoth Hlp. revert pre s infos'. induction infos as [|u infos IH]; intros pre s infos' Hok Hx.
  { injection Hx as <- <-. split_and!; [done|by destruct s|done|constructor]. }
  cbn [cut_stakes] in Hx. apply M_bind_ok in Hx as (u' & s1 & Hu & Hx).
  apply M_bind_ok in Hx as (rest & s2 & Hrest & [= <- <-]).
  assert (farm_ok (Pools s1) (<[who := (pre ++ [u']) ++ infos]> users) ∧ s1 = set_pools (Pools s1) s ∧
    (∀ r, (∀ u, others u = true → reward_asset u ≠ r) → Pools s1 !! (pool, r) = Pools s !! (pool, r)) ∧
    (u' = u ∨ others u = true ∧ u' = set_pooled lp u)) as (Hok1 & Hs1 & Hr1 & Hu').
  { rewrite <- (assoc_L (++)). simpl. destruct (others u && _) eqn:E.
    - apply andb_true_iff in E as [Ho Hlt]. zbool. destruct (Hoth u Ho) as (<- & Hf & Hb).
      apply M_bind_ok in Hu as (? & ? & [= <- <-] & Hu).
      apply M_bind_ok in Hu as (? & s3 & [= _ <-] & [= <- <-]).
      split; [by apply farm_ok_cut|]. split; [done|]. split; [|by right].
      intros r Hr. simpl. rewrite lookup_insert_ne; [done|]. intros [= E]. by apply (Hr u).
    - injection Hu as <- <-. split_and!; [done|by destruct s|done|by left]. }
  destruct (IH _ _ _ Hok1 Hrest) as (Hok2 & Hs2 & Hr2 & Hall).
  rewrite <- (assoc_L (++)) in Hok2. split_and!; [done|rewrite Hs2, Hs1; done| |by constructor].
  intros r Hr. by rewrite Hr2, Hr1.
Qed.

Lemma cut_stakes_bound others base pool farm lp infos s infos' s' :
  (∀ u, others (set_pooled lp u) = others u) →
  cut_stakes others base pool farm lp infos s = (Ok infos', s') →
  ∀ u, u ∈ infos' → others u = true → pooled_tokens u ≤ lp.
Proof.
  intros Ho. revert s infos'. induction infos as [|u infos IH]; intros s infos' Hx v Hv Hov.
  { injection Hx as <- <-. by apply elem_of_nil in Hv. }
  cbn [cut_stakes] in Hx. apply M_bind_ok in Hx as (u' & s1 & Hu & Hx).
  apply M_bind_ok in Hx as (rest & s2 & Hrest & [= <- <-]).
  apply elem_of_cons in Hv as [->|Hv]; [|by eapply IH]. destruct (others u && _) eqn:E.
  - apply M_bind_ok in Hu as (? & ? & [= <- <-] & Hu).
    apply M_bind_ok in Hu as (? & s3 & [= _ <-] & [= <- <-]). simpl. lia.
  - injection Hu as <- <-. rewrite Hov in E. simpl in E. zbool. lia.
Qed.

(** ** Deposits *)

(** The stakes of a user after a deposit of [amount]; [known] is the stake found before. *)
Definition added_stake (base pool reward : AssetId) (farm : bool) (amount : Balance)
    (known : option UserInfo) (infos : list UserInfo) : list UserInfo :=
  match known with
  | Some _ => update_where (is_stake base pool reward farm)
                (λ u, set_pooled (u128_wrap (pooled_tokens u + amount)) u) infos
  | None => infos ++ [mkUserInfo base pool reward farm amount 0]
  end.

Section deposit.
Context (base pool reward : AssetId) (farm : bool) (amount : Balance).
Abbreviation mine := (is_stake base pool reward farm).
Abbreviation key := (base, pool, reward, farm).

Lemma added_stake_sums known infos k :
  NoDup (stake_key <$> infos) → (is_Some known ↔ is_Some (found mine infos)) →
  0 ≤ amount → (∀ u, u ∈ infos → 0 ≤ pooled_tokens u) →
  (k = key → user_sum pooled_tokens key infos + amount ≤ u128_max) →
  user_sum pooled_tokens k (added_stake base pool reward farm amount known infos)
    = user_sum pooled_tokens k infos + (if bool_decide (k = key) then amount else 0) ∧
  user_sum rewards k (added_stake base pool reward farm amount known infos) = user_sum rewards k infos.
Proof.
  intros Hnd Hknown Hamt Hpos Hmax. unfold added_stake. destruct known as [u0|].
  - destruct (proj1 Hknown) as [u Hu]; [done|]. destruct (decide (k = key)) as [->|Hne].
    + specialize (Hmax eq_refl). rewrite !user_sum_update by done. rewrite bool_decide_eq_true_2 by done.
      split; [|by apply user_sum_ext]. rewrite !user_sum_found in * by done. rewrite Hu in *.
      apply found_Some in Hu as [Hin _]. pose proof (Hpos u Hin). simpl. apply u128_wrap_id. lia.
    + rewrite !user_sum_update_other by done. rewrite bool_decide_eq_false_2 by done. lia.
  - rewrite !user_sum_app, !user_sum_cons. unfold of_key, stake_key. simpl.
    destruct (decide (k = key)) as [->|Hne].
    + rewrite !bool_decide_eq_true_2 by done. simpl. lia.
    + rewrite !bool_decide_eq_false_2 by done. simpl. lia.
Qed.

Lemma added_stake_entries known infos :
  NoDup (stake_key <$> infos) → (is_Some known ↔ is_Some (found mine infos)) → 0 ≤ amount →
  (∀ u, u ∈ infos → 0 ≤ pooled_tokens u ∧ 0 ≤ rewards u) →
  let infos' := added_stake base pool reward farm amount known infos in
  NoDup (stake_key <$> infos') ∧
  ∀ u, u ∈ infos' →
    (0 ≤ pooled_tokens u ∧ 0 ≤ rewards u) ∧ (stake_key u ∈ stake_key <$> infos ∨ stake_key u = key).
Proof.
  intros Hnd Hknown Hamt Hpos. unfold added_stake. destruct known as [u0|]; simpl.
  - rewrite update_where_key by done. split; [done|]. intros u Hu. split.
    + apply update_where_elem in Hu as (v & Hv & ->). destruct (Hpos v Hv). destruct (mine v); [|done].
      split; [by apply Z.mod_pos_bound|done].
    + left. apply list_elem_of_fmap_2 with (f := stake_key) in Hu. by rewrite update_where_key in Hu.
  - split.
    + rewrite fmap_app. apply NoDup_app. split_and!; [done| |apply NoDup_singleton].
      intros k Hk ->%list_elem_of_singleton. apply list_elem_of_fmap in Hk as (u & Hk & Hu).
      assert (mine u = true) as Hm by (apply is_stake_key; symmetry; exact Hk).
      destruct (found mine infos) as [v|] eqn:Hf; [by destruct (proj2 Hknown)|].
      pose proof (found_None _ _ _ Hf Hu). congruence.
    + intros u [Hu| ->%list_elem_of_singleton]%elem_of_app; [|by split; [|right]].
      split; [by apply Hpos|left; by apply list_elem_of_fmap_2].
Qed.

Lemma farm_ok_stake pools users who known infos p :
  farm_ok pools (<[who := infos]> users) → 0 ≤ amount →
  (is_Some known ↔ is_Some (found mine infos)) →
  let ps := default [] (pools !! (pool, reward)) in
  found (is_active base farm) ps = Some p → total_tokens_in_pool p + amount ≤ u128_max →
  farm_ok (<[(pool, reward) :=
             update_where (is_active base farm)
               (λ p, set_total (u128_wrap (total_tokens_in_pool p + amount)) p) ps]> pools)
    (<[who := added_stake base pool reward farm amount known infos]> users).
Proof.
  intros Hok Hamt Hknown ps Hfound Hmax.
  rewrite <- (insert_insert_eq users who (added_stake base pool reward farm amount known infos) infos).
  pose proof Hok as [Ha Hs Hp Hb Hc]. apply found_Some in Hfound as [Hin Hact].
  assert (is_pool base farm p = true) as Hpool by (unfold is_active in Hact; by apply andb_true_iff in Hact as [_ ?]).
  pose proof Hpool as Hkp. apply (is_pool_key _ _ _ pool reward) in Hkp.
  assert (NoDup (stake_key <$> infos)) as Hnd by by eapply Hs, lookup_insert_eq.
  assert (∀ u, u ∈ infos → 0 ≤ pooled_tokens u ∧ 0 ≤ rewards u) as Hpos
    by (intros u Hu; by eapply Ha; [apply lookup_insert_eq|]).
  assert (user_sum pooled_tokens key infos ≤ staked pooled_tokens key (<[who := infos]> users)) as Hle.
  { pose proof (user_sum_le_staked pooled_tokens key (<[who := infos]> users) who) as Hle.
    rewrite lookup_insert_eq in Hle. apply Hle. intros w l v Hw Hv. by eapply Ha. }
  assert (∀ k, _) as Hsums by
    exact (λ k, added_stake_sums known infos k Hnd Hknown Hamt (λ u Hu, proj1 (Hpos u Hu))).
  destruct (added_stake_entries known infos Hnd Hknown Hamt Hpos) as [Hndk Hentries].
  apply farm_ok_change; rewrite ?lookup_insert_eq; cbn [default from_option id]; fold ps.
  - done.
  - intros u Hu. by apply Hentries.
  - done.
  - intros q' (q & Hq & ->)%update_where_elem. specialize (Hp pool reward q Hq). by destruct (is_active base farm q).
  - intros k. by rewrite update_where_key.
  - intros u Hu. rewrite update_where_key by done. apply Hentries in Hu as [_ [Hu| ->]]; [by left|].
    right. rewrite <- Hkp. by apply list_elem_of_fmap_2.
  - intros b p' r fm Hne. destruct (Hsums (b, p', r, fm)) as [-> ->]; [naive_solver|].
    rewrite bool_decide_eq_false_2 by naive_solver. lia.
  - intros q' (q & Hq & ->)%lone_fmap; [|by intros r _; destruct (is_active base farm r)].
    pose proof (Hc pool reward q Hq) as [Hc1 Hc2].
    assert (pool_key pool reward (if is_active base farm q
      then set_total (u128_wrap (total_tokens_in_pool q + amount)) q else q) = pool_key pool reward q)
      as -> by by destruct (is_active base farm q).
    destruct (decide (pool_key pool reward q = key)) as [Hk|Hk].
    + assert (p = q) as <- by (eapply lone_unique; [exact Hq|exact Hin|congruence]).
      rewrite Hk in *. destruct (Hsums key) as [-> ->]; [lia|]. rewrite bool_decide_eq_true_2, Hact by done. simpl.
      assert (0 ≤ staked pooled_tokens key (<[who := infos]> users)).
      { apply staked_nonneg. intros w l v Hw Hv. by eapply Ha. }
      rewrite u128_wrap_id by lia. lia.
    + destruct (Hsums (pool_key pool reward q)) as [-> ->]; [done|]. rewrite bool_decide_eq_false_2 by done.
      assert (is_active base farm q = false) as ->; [|lia].
      unfold is_active. destruct (is_pool base farm q) eqn:E; [|by rewrite andb_false_r].
      by apply (is_pool_key _ _ _ pool reward) in E.
Qed.
End deposit.

(** ** The operations *)

(** The farms of a state are sound. *)
Definition sound s : Prop := farm_ok (Pools s) (UserInfos s).
Definition same_farms s s' : Prop := Pools s' = Pools s ∧ UserInfos s' = UserInfos s.
Definition providers_typed (x : PoolXyk.t L) : Prop :=
  ∀ k v, PoolXyk.PoolProviders x !! k = Some v → 0 ≤ v.

Lemma ensure_signed_ok origin s user s' :
  ensure_signed origin s = (Ok user, s') → origin = Signed user ∧ s' = s.
Proof. destruct origin; intros Hx; try discriminate Hx. by injection Hx as <- <-. Qed.

Lemma ensure_authority_ok origin s user s' : ensure_authority origin s = (Ok user, s') → s' = s.
Proof.
  unfold ensure_authority. intros Hx. apply M_bind_ok in Hx as (? & ? & [_ ->]%ensure_signed_ok & Hx).
  apply M_bind_ok in Hx as (? & ? & [= <- <-] & Hx).
  by apply M_bind_ok in Hx as (? & ? & [_ ->]%M_ensure_ok & [= _ <-]).
Qed.

Lemma transfer_same asset from to amount s r s' :
  transfer asset from to amount s = (r, s') → same_farms s s'.
Proof.
  unfold transfer, on_xyk, PoolXyk.on_ledger, zoom. repeat case_match; intros [= <- <-]; simplify_eq/=; done.
Qed.

Lemma transfer_lp_same pool a b from to tokens (x : PoolXyk.t L) u x' :
  PoolXyk.transfer_lp_tokens pool a b from to tokens x = (Ok u, x') → providers_typed x →
  PoolXyk.UserInfos x' = PoolXyk.UserInfos x ∧ providers_typed x'.
Proof.
  unfold PoolXyk.transfer_lp_tokens. intros Hx Ht.
  apply M_bind_ok in Hx as (? & ? & [= <- <-] & Hx).
  apply M_bind_ok in Hx as (old & ? & [Hold ->]%M_ok_or_ok & Hx).
  apply M_bind_ok in Hx as (new & ? & [[-> Hnew]%checked_Some ->]%M_ok_or_ok & Hx).
  apply M_bind_ok in Hx as (? & ? & [= _ <-] & Hx). apply M_bind_ok in Hx as (? & ? & [= <- <-] & Hx).
  apply M_bind_ok in Hx as (? & xb & Hmid & [= <- <-]).
  set (xa := PoolXyk.set_providers _ x) in *.
  assert (providers_typed xa) as Hta.
  { intros k v. unfold xa. simpl. destruct (_ =? 0).
    - intros [_ Hk]%lookup_delete_Some. by eapply Ht.
    - intros [[_ <-]|[_ Hk]]%lookup_insert_Some; [lia|by eapply Ht]. }
  assert (PoolXyk.UserInfos xb = PoolXyk.UserInfos xa ∧ PoolXyk.PoolProviders xb = PoolXyk.PoolProviders xa)
    as [Hu Hp].
  { destruct (_ && _); [|by injection Hmid as _ <-].
    apply M_bind_ok in Hmid as (pair & ? & [_ ->]%M_lift_ok & [= _ <-]). done. }
  simpl. rewrite Hu. split; [done|]. intros k v. simpl.
  intros [[_ <-]|[_ Hk]]%lookup_insert_Some; [by apply Z.mod_pos_bound|rewrite Hp in Hk; by eapply Hta].
Qed.

Lemma deposit_assets_ok user pool p amount s got s' :
  0 ≤ amount → 0 ≤ deposit_fee p ≤ Fixed.COEF → amount ≤ u128_max →
  deposit_assets user pool p amount s = (Ok got, s') → same_farms s s' ∧ 0 ≤ got ≤ amount.
Proof.
  intros Ha Hf Hmax Hx. unfold deposit_assets in Hx. apply M_bind_ok in Hx as (? & ? & [= <- <-] & Hx).
  cbv zeta in Hx. apply M_bind_ok in Hx as (? & ? & [_ ->]%M_ensure_ok & Hx).
  apply M_bind_ok in Hx as (got' & s1 & Hfee & Hx). apply M_bind_ok in Hx as (? & s2 & Hpay & [= <- <-]).
  apply transfer_same in Hpay as [Hp2 Hu2]. pose proof (fee_of_range amount p Ha Hf).
  assert (same_farms s s1 ∧ 0 ≤ got' ≤ amount) as [[Hp1 Hu1] Hgot].
  { destruct (negb _); [|by injection Hfee as <- <-].
    apply M_bind_ok in Hfee as (? & s3 & Ht%transfer_same & [= <- <-]). split; [done|].
    rewrite u128_wrap_id by lia. lia. }
  split; [|done]. split; congruence.
Qed.

Lemma cut_found others base pool reward farm lp infos infos' :
  (∀ u, others u = true → is_stake base pool reward farm u = false) →
  Forall2 (λ u u', u' = u ∨ others u = true ∧ u' = set_pooled lp u) infos infos' →
  found (is_stake base pool reward farm) infos' = found (is_stake base pool reward farm) infos.
Proof.
  intros Ho Hall. unfold found. f_equal. induction Hall as [|u u' infos infos' Hu _ IH]; [done|].
  rewrite !filter_cons. destruct Hu as [->|[Hu ->]]; [case_decide; by rewrite ?IH|].
  pose proof (Ho u Hu) as Hn. rewrite !decide_False; [done|congruence|].
  unfold is_stake in *. simpl. congruence.
Qed.

(** What the farm part of a deposit leaves. *)
Lemma deposit_lp_ok user base pool reward p before amount infos s got infos' s' :
  0 ≤ amount ≤ u128_max → 0 ≤ deposit_fee p ≤ Fixed.COEF → 0 ≤ before → providers_typed (xyk s) →
  farm_ok (Pools s) (<[user := infos]> (UserInfos s)) →
  deposit_lp_tokens user base pool reward p before amount infos s = (Ok (got, infos'), s') →
  0 ≤ got ≤ amount ∧ UserInfos s' = UserInfos s ∧
  farm_ok (Pools s') (<[user := infos']> (UserInfos s)) ∧
  Pools s' !! (pool, reward) = Pools s !! (pool, reward) ∧
  found (is_stake base pool reward true) infos' = found (is_stake base pool reward true) infos.
Proof.
  intros Ha Hf Hbefore Ht Hok Hx. unfold deposit_lp_tokens in Hx. apply M_bind_ok in Hx as (? & ? & [= <- <-] & Hx).
  apply M_bind_ok in Hx as (props & ? & [_ ->]%M_ok_or_ok & Hx). cbv zeta in Hx.
  apply M_bind_ok in Hx as (? & ? & [_ ->]%M_ensure_ok & Hx).
  apply M_bind_ok in Hx as ([got' lp] & s1 & Hfee & Hx).
  apply M_bind_ok in Hx as (infos1 & s2 & Hcut & [= <- <- <-]).
  pose proof (fee_of_range amount p (proj1 Ha) Hf).
  assert (same_farms s s1 ∧ 0 ≤ got' ≤ amount ∧ 0 ≤ lp) as ([Hp1 Hu1] & Hgot & Hlp).
  { destruct (negb _).
    - apply M_bind_ok in Hfee as (? & s3 & Hlp & Hfee). apply M_bind_ok in Hfee as (? & ? & [= <- <-] & [= <- <- <-]).
      unfold on_xyk in Hlp. apply zoom_ok in Hlp as (x' & Hlp & ->).
      apply transfer_lp_same in Hlp as [Hu Ht']; [|done]. split; [done|]. rewrite u128_wrap_id by lia.
      split; [lia|]. simpl. destruct (PoolXyk.balance_of_pool_provider _ _ _) eqn:E; [|done].
      simpl. by eapply Ht'.
    - injection Hfee as <- <- <-. split; [done|]. split; [lia|]. lia. }
  apply (cut_stakes_ok _ _ _ _ (UserInfos s) user []) in Hcut as (Hok' & Hs' & Hr & Hall).
  - split; [done|]. split; [rewrite Hs'; simpl; by rewrite <- Hu1|]. split; [done|]. split.
    + rewrite Hr, Hp1; [done|]. intros u Hu E. rewrite !andb_true_iff in Hu. destruct Hu as [[[_ Hu] _] _].
      by rewrite bool_decide_eq_true_2 in Hu.
    + eapply cut_found; [|exact Hall]. intros u Hu. rewrite !andb_true_iff in Hu.
      destruct Hu as [[[_ Hu] _] _]. apply negb_true_iff, bool_decide_eq_false in Hu.
      unfold is_stake. rewrite (bool_decide_eq_false_2 (reward_asset u = reward)) by done.
      by rewrite andb_false_r.
  - intros u Hu. rewrite !andb_true_iff, !bool_decide_eq_true in Hu. naive_solver.
  - done.
  - by rewrite Hp1.
Qed.

Lemma farm_deposit_sound origin base pool reward farm amount s u s' :
  sound s → 0 ≤ amount ≤ u128_max → providers_typed (xyk s) →
  (∀ p, p ∈ pools_of s pool reward → total_tokens_in_pool p + amount ≤ u128_max) →
  deposit origin base pool reward farm amount s = (Ok u, s') → sound s'.
Proof.
  intros Hok Ha Ht Hmax Hx. unfold deposit in Hx. rewrite with_transaction_ok in Hx.
  apply M_bind_ok in Hx as (user & s0 & Hsig & Hx).
  apply ensure_signed_ok in Hsig as [_ ->].
  apply M_bind_ok in Hx as (? & ? & [= <- <-] & Hx). cbv zeta in Hx.
  apply M_bind_ok in Hx as (p & ? & [Hp ->]%M_ok_or_ok & Hx).
  apply M_bind_ok in Hx as ([got infos] & s1 & Hdep & Hx).
  apply M_bind_ok in Hx as (? & s2 & [= _ <-] & Hx). apply M_bind_ok in Hx as (? & s3 & [= _ <-] & [= _ <-]).
  pose proof (found_Some _ _ _ Hp) as [Hin _].
  pose proof (ok_fees _ _ Hok pool reward p Hin) as Hfee.
  set (known := found _ (user_infos_of s user)) in *.
  assert (Hok' : farm_ok (Pools s) (<[user := user_infos_of s user]> (UserInfos s))).
  { by apply farm_ok_here. }
  assert (0 ≤ got ≤ amount ∧ UserInfos s1 = UserInfos s ∧
    farm_ok (Pools s1) (<[user := infos]> (UserInfos s)) ∧
    Pools s1 !! (pool, reward) = Pools s !! (pool, reward) ∧
    found (is_stake base pool reward farm) infos = known) as (Hgot & Hu1 & Hok1 & Hp1 & Hknown).
  { destruct farm.
    - apply deposit_lp_ok in Hdep; [done|done|done| |done|done].
      destruct known as [v|] eqn:Ek; [|done]. apply found_Some in Ek as [Hv _]. unfold user_infos_of in Hv.
      destruct (UserInfos s !! user) as [l|] eqn:El; [by eapply (ok_amounts _ _ Hok)|by apply elem_of_nil in Hv].
    - apply M_bind_ok in Hdep as (got' & s2 & Hda & [= <- <- <-]).
      apply deposit_assets_ok in Hda as [[Hps Hus] Hg]; [|lia|done|lia]. rewrite Hps, Hus. split_and!; first [done|lia]. }
  pose proof (farm_ok_stake base pool reward farm got (Pools s1) (UserInfos s) user known infos p Hok1
    (proj1 Hgot)) as Hfin.
  rewrite Hknown in Hfin. specialize (Hfin (reflexivity _)). cbv zeta in Hfin. rewrite Hp1 in Hfin.
  specialize (Hmax p Hin). specialize (Hfin Hp ltac:(lia)). rewrite <- Hu1 in Hfin. exact Hfin.
Qed.

(** A user's stake and the pools with its key change together. *)
Lemma farm_ok_update pools users who base pool reward farm upd updp :
  farm_ok pools users →
  let infos := default [] (users !! who) in
  let ps := default [] (pools !! (pool, reward)) in
  let key := (base, pool, reward, farm) in
  (∀ u, stake_key (upd u) = stake_key u) →
  (∀ p, pool_key pool reward (updp p) = pool_key pool reward p ∧ deposit_fee (updp p) = deposit_fee p) →
  (∀ u, u ∈ infos → stake_key u = key → 0 ≤ pooled_tokens (upd u) ∧ 0 ≤ rewards (upd u)) →
  (∀ p, lone pool reward ps p → pool_key pool reward p = key →
     staked pooled_tokens key users - user_sum pooled_tokens key infos
       + user_sum (λ u, pooled_tokens (upd u)) key infos ≤ total_tokens_in_pool (updp p) ≤ u128_max ∧
     staked rewards key users - user_sum rewards key infos
       + user_sum (λ u, rewards (upd u)) key infos ≤ pool_rewards (updp p) ≤ u128_max) →
  farm_ok (<[(pool, reward) := update_where (is_pool base farm) updp ps]> pools)
    (<[who := update_where (is_stake base pool reward farm) upd infos]> users).
Proof.
  intros Hok infos ps key Hupd Hupdp Hamt Hcov. pose proof Hok as [Ha Hs Hp Hb Hc].
  assert (∀ u, u ∈ infos → 0 ≤ pooled_tokens u ∧ 0 ≤ rewards u) as Hpos.
  { intros u Hu. unfold infos in Hu. destruct (users !! who) as [l|] eqn:El; [by eapply Ha|by apply elem_of_nil in Hu]. }
  apply farm_ok_change; fold infos; fold ps.
  - done.
  - intros u (v & Hv & ->)%update_where_elem. destruct (is_stake _ _ _ _ v) eqn:E; [|by apply Hpos].
    apply Hamt; [done|by apply is_stake_key].
  - rewrite update_where_key by done. unfold infos. destruct (users !! who) eqn:El; [by eapply Hs|apply NoDup_nil_2].
  - intros q' (q & Hq & ->)%update_where_elem. specialize (Hp pool reward q Hq).
    destruct (is_pool base farm q); [|done]. by destruct (Hupdp q) as [_ ->].
  - intros k. rewrite update_where_key; [done|apply Hupdp].
  - intros u Hu. left. apply list_elem_of_fmap_2 with (f := stake_key) in Hu. by rewrite update_where_key in Hu.
  - intros b p r fm Hne. rewrite !user_sum_update_other by (done || unfold key in *; naive_solver). lia.
  - intros q' (q & Hq & ->)%lone_fmap; [|intros r _; destruct (is_pool base farm r); [apply Hupdp|done]].
    pose proof (Hc pool reward q Hq) as (Hc1 & Hc2).
    destruct (is_pool base farm q) eqn:E.
    + apply (is_pool_key _ _ _ pool reward) in E. destruct (Hupdp q) as [-> _].
      fold key in E. rewrite E. unfold key. rewrite !user_sum_update by done. fold key.
      specialize (Hcov q Hq E). lia.
    + rewrite !user_sum_update_other; [lia|done| |done|]; intros Hk;
        apply (is_pool_key _ _ _ pool reward) in Hk; congruence.
Qed.

(** ** Withdrawals and rewards *)

Lemma withdraw_stakes_ok user mine pool farm amount infos s infos' s' :
  withdraw_stakes user mine pool farm amount infos s = (Ok infos', s') →
  same_farms s s' ∧ infos' = update_where mine (λ u, set_pooled (pooled_tokens u - amount) u) infos ∧
  ∀ u, u ∈ infos → mine u = true → amount ≤ pooled_tokens u.
Proof.
  revert s infos'. induction infos as [|u infos IH]; intros s infos' Hx.
  { injection Hx as <- <-. split_and!; [done|done|by intros ? ?%elem_of_nil]. }
  cbn [withdraw_stakes] in Hx. apply M_bind_ok in Hx as (u' & s1 & Hu & Hx).
  apply M_bind_ok in Hx as (rest & s2 & Hrest & [= <- <-]).
  apply IH in Hrest as ([Hp2 Hu2] & -> & Hall).
  assert (same_farms s s1 ∧ u' = (if mine u then set_pooled (pooled_tokens u - amount) u else u) ∧
    (mine u = true → amount ≤ pooled_tokens u)) as ([Hp1 Hu1] & -> & Hm).
  { destruct (mine u); [|by injection Hu as <- <-].
    apply M_bind_ok in Hu as (? & ? & [Hle ->]%M_ensure_ok & Hu). zbool.
    apply M_bind_ok in Hu as (? & s3 & Hpay & [= <- <-]). split; [|done].
    destruct farm; [by injection Hpay as _ <-|by eapply transfer_same]. }
  split; [split; congruence|]. split; [done|].
  intros v [->|Hv]%elem_of_cons; [done|by apply Hall].
Qed.

Lemma withdraw_sound origin base pool reward amount farm s u s' :
  sound s → 0 ≤ amount → withdraw origin base pool reward amount farm s = (Ok u, s') → sound s'.
Proof.
  intros Hok Ha Hx. unfold withdraw in Hx. rewrite with_transaction_ok in Hx.
  apply M_bind_ok in Hx as (user & s0 & [_ ->]%ensure_signed_ok & Hx).
  apply M_bind_ok in Hx as (? & ? & [= <- <-] & Hx). cbv zeta in Hx.
  apply M_bind_ok in Hx as (infos & s1 & (Hsame & -> & Hle)%withdraw_stakes_ok & Hx).
  apply M_bind_ok in Hx as (? & ? & [Hex ->]%M_ensure_ok & Hx).
  apply M_bind_ok in Hx as (? & s2 & [= _ <-] & Hx). apply M_bind_ok in Hx as (? & s3 & [= _ <-] & [= _ <-]).
  destruct Hsame as [Hps Hus]. pose proof Hok as [Oa Os _ _ Oc].
  assert (Hfin := farm_ok_update (Pools s) (UserInfos s) user base pool reward farm
    (λ u, set_pooled (pooled_tokens u - amount) u)
    (λ p, set_total (u128_wrap (total_tokens_in_pool p - amount)) p) Hok).
  cbv zeta in Hfin. fold (user_infos_of s user) in Hfin. fold (pools_of s pool reward) in Hfin.
  rewrite <- Hps, <- Hus in Hfin at 1. unfold sound. simpl. apply Hfin; clear Hfin.
  - done.
  - done.
  - intros v Hv Hk%is_stake_key. specialize (Hle v Hv Hk). simpl. split; [lia|].
    unfold user_infos_of in Hv. destruct (UserInfos s !! user) eqn:E; [by eapply Oa|by apply elem_of_nil in Hv].
  - intros p Hp Hkey. pose proof (Oc pool reward p Hp) as (Hc1 & Hc2). rewrite Hkey in Hc1, Hc2. simpl.
    assert (NoDup (stake_key <$> user_infos_of s user)) as Hnd.
    { unfold user_infos_of. destruct (UserInfos s !! user) eqn:E; [by eapply Os|apply NoDup_nil_2]. }
    assert (user_sum pooled_tokens (base, pool, reward, farm) (user_infos_of s user)
            ≤ staked pooled_tokens (base, pool, reward, farm) (UserInfos s)) as Hsum.
    { apply user_sum_le_staked. intros w l v Hw Hv. by eapply Oa. }
    rewrite !user_sum_found in * by done.
    destruct (found _ (user_infos_of s user)) as [v|] eqn:Hf.
    + apply found_Some in Hf as [Hv Hm]. specialize (Hle v Hv Hm). simpl.
      rewrite u128_wrap_id by lia. lia.
    + apply existsb_exists in Hex as (v & Hv%list_elem_of_In & Hm).
      pose proof (found_None _ _ _ Hf Hv). congruence.
Qed.

Lemma pay_rewards_ok user mine infos paid pool s infos' paid' rest s' :
  pay_rewards user mine infos paid pool s = (Ok (infos', paid', rest), s') →
  same_farms s s' ∧ infos' = update_where mine (set_rewards 0) infos ∧
  rest = pool - sum_by (λ u, if mine u then rewards u else 0) infos.
Proof.
  revert paid pool s infos' paid' rest s'. induction infos as [|u infos IH]; intros paid pool s infos' paid' rest s' Hx.
  { injection Hx as <- <- <- <-. split_and!; [done|done|simpl; lia]. }
  cbn [pay_rewards] in Hx. rewrite sum_by_cons. destruct (mine u) eqn:Hm.
  - apply M_bind_ok in Hx as (? & ? & [_ ->]%M_ensure_ok & Hx).
    apply M_bind_ok in Hx as (? & ? & [_ ->]%M_ensure_ok & Hx).
    apply M_bind_ok in Hx as (? & s1 & [Hp1 Hu1]%transfer_same & Hx).
    apply M_bind_ok in Hx as ([[l q] r] & s2 & ([Hp2 Hu2] & -> & ->)%IH & [= <- <- <- <-]).
    split; [split; congruence|]. split; [|lia]. unfold update_where. simpl. by rewrite Hm.
  - apply M_bind_ok in Hx as ([[l q] r] & s2 & ([Hp2 Hu2] & -> & ->)%IH & [= <- <- <- <-]).
    split; [split; congruence|]. split; [|lia]. unfold update_where. simpl. by rewrite Hm.
Qed.

Lemma mine_rewards base pool reward farm infos :
  sum_by (λ u, if is_stake base pool reward farm u then rewards u else 0) infos
  = user_sum rewards (base, pool, reward, farm) infos.
Proof.
  apply sum_by_ext. intros u _. unfold of_key. destruct (is_stake _ _ _ _ u) eqn:E.
  - apply is_stake_key in E. by rewrite bool_decide_eq_true_2.
  - rewrite bool_decide_eq_false_2; [done|]. intros Hk%is_stake_key. congruence.
Qed.

Lemma get_rewards_sound origin base pool reward farm s u s' :
  sound s → get_rewards origin base pool reward farm s = (Ok u, s') → sound s'.
Proof.
  intros Hok Hx. unfold get_rewards in Hx. rewrite with_transaction_ok in Hx.
  apply M_bind_ok in Hx as (user & s0 & [_ ->]%ensure_signed_ok & Hx).
  apply M_bind_ok in Hx as (? & ? & [= <- <-] & Hx). cbv zeta in Hx.
  apply M_bind_ok in Hx as (p & ? & [Hp ->]%M_ok_or_ok & Hx).
  apply M_bind_ok in Hx as ([[infos paid] rest] & s1 & (Hsame & -> & ->)%pay_rewards_ok & Hx).
  apply M_bind_ok in Hx as (? & s2 & [= _ <-] & Hx). apply M_bind_ok in Hx as (? & s3 & [= _ <-] & [= _ <-]).
  destruct Hsame as [Hps Hus]. pose proof Hok as [Oa Os _ _ Oc]. rewrite mine_rewards.
  apply found_Some in Hp as [Hin Hpool]. apply (is_pool_key _ _ _ pool reward) in Hpool.
  assert (Hfin := farm_ok_update (Pools s) (UserInfos s) user base pool reward farm (set_rewards 0)
    (set_pool_rewards (pool_rewards p
       - user_sum rewards (base, pool, reward, farm) (user_infos_of s user))) Hok).
  cbv zeta in Hfin. fold (user_infos_of s user) in Hfin. fold (pools_of s pool reward) in Hfin.
  rewrite <- Hps, <- Hus in Hfin at 1. unfold sound. simpl. apply Hfin; clear Hfin.
  - done.
  - done.
  - intros v Hv _. simpl. split; [|done].
    unfold user_infos_of in Hv. destruct (UserInfos s !! user) eqn:E; [by eapply Oa|by apply elem_of_nil in Hv].
  - intros q Hq Hkey. assert (p = q) as <- by (eapply lone_unique; [exact Hq|exact Hin|congruence]).
    pose proof (Oc pool reward p Hq) as (Hc1 & Hc2). rewrite Hkey in Hc1, Hc2.
    set (same := user_sum (λ u, pooled_tokens (set_rewards 0 u)) _ _).
    assert (same = user_sum pooled_tokens (base, pool, reward, farm) (user_infos_of s user)) as Hsame by done.
    clearbody same. set (none := user_sum (λ u, rewards (set_rewards 0 u)) _ _).
    assert (none = 0) as Hnone.
    { apply sum_by_zero. intros v _. unfold of_key. by case_bool_decide. }
    clearbody none.
    assert (0 ≤ user_sum rewards (base, pool, reward, farm) (user_infos_of s user)).
    { apply user_sum_nonneg. intros v Hv. unfold user_infos_of in Hv.
      destruct (UserInfos s !! user) eqn:E; [by eapply Oa|by apply elem_of_nil in Hv]. }
    simpl. lia.
Qed.

(** ** Changes that keep stakes and rewards *)

Lemma farm_ok_rewrite pools users pool reward (f : PoolData → PoolData) :
  farm_ok pools users →
  let ps := default [] (pools !! (pool, reward)) in
  (∀ p, p ∈ ps → pool_key pool reward (f p) = pool_key pool reward p ∧ 0 ≤ deposit_fee (f p) ≤ Fixed.COEF) →
  (∀ p, lone pool reward ps p →
     staked pooled_tokens (pool_key pool reward p) users ≤ total_tokens_in_pool (f p) ≤ u128_max ∧
     staked rewards (pool_key pool reward p) users ≤ pool_rewards (f p) ≤ u128_max) →
  farm_ok (<[(pool, reward) := f <$> ps]> pools) users.
Proof.
  intros Hok ps Hf Hcov. eapply farm_ok_same_keys; [exact Hok| |done|by apply Hok| |].
  - intros pa ra. destruct (decide ((pa, ra) = (pool, reward))) as [[= -> ->]|Hne].
    + rewrite lookup_insert_eq. simpl. rewrite <- list_fmap_compose. apply list_fmap_ext.
      intros i p Hi%list_elem_of_lookup_2. by apply Hf.
    + by rewrite lookup_insert_ne by congruence.
  - intros pa ra p. destruct (decide ((pa, ra) = (pool, reward))) as [[= -> ->]|Hne].
    + rewrite lookup_insert_eq. simpl. intros (q & -> & Hq)%list_elem_of_fmap. by apply Hf.
    + rewrite lookup_insert_ne by congruence. apply (ok_fees _ _ Hok).
  - intros pa ra p Hl. destruct (decide ((pa, ra) = (pool, reward))) as [[= -> ->]|Hne].
    + rewrite lookup_insert_eq in Hl. simpl in Hl. apply lone_fmap in Hl as (q & Hq & ->); [|by apply Hf].
      destruct (Hf q (lone_elem _ _ _ _ Hq)) as (-> & _). by apply Hcov.
    + rewrite lookup_insert_ne in Hl by congruence. by apply (ok_covered _ _ Hok).
Qed.

Lemma farm_ok_entries pools users pool reward (f : PoolData → PoolData) :
  farm_ok pools users →
  let ps := default [] (pools !! (pool, reward)) in
  (∀ p, p ∈ ps → pool_key pool reward (f p) = pool_key pool reward p ∧
     total_tokens_in_pool (f p) = total_tokens_in_pool p ∧ pool_rewards (f p) = pool_rewards p ∧
     0 ≤ deposit_fee (f p) ≤ Fixed.COEF) →
  farm_ok (<[(pool, reward) := f <$> ps]> pools) users.
Proof.
  intros Hok ps Hf. apply farm_ok_rewrite; [done|by intros p (? & _ & _ & ?)%Hf|].
  intros p Hp. destruct (Hf p (lone_elem _ _ _ _ Hp)) as (_ & -> & -> & _). by apply (ok_covered _ _ Hok).
Qed.

(** The entries of one pair of assets, rewritten as by the loops of the pallet. *)
Lemma sound_put_pools pool reward test upd s u s' :
  sound s →
  (∀ p, pool_key pool reward (upd p) = pool_key pool reward p ∧
     total_tokens_in_pool (upd p) = total_tokens_in_pool p ∧ pool_rewards (upd p) = pool_rewards p ∧
     (0 ≤ deposit_fee p ≤ Fixed.COEF → 0 ≤ deposit_fee (upd p) ≤ Fixed.COEF)) →
  put_pools pool reward (update_where test upd (pools_of s pool reward)) s = (Ok u, s') → sound s'.
Proof.
  intros Hok Hupd [= _ <-]. apply farm_ok_entries; [done|]. intros p Hp.
  pose proof (ok_fees _ _ Hok pool reward p Hp) as Hfee.
  destruct (Hupd p) as (? & ? & ? & Hd). destruct (test p); [|done]. split_and!; try done; by apply Hd.
Qed.

Lemma add_pool_sound origin base pool reward farm mult fee core s u s' :
  sound s → 0 ≤ fee → add_pool origin base pool reward farm mult fee core s = (Ok u, s') → sound s'.
Proof.
  intros Hok Hfee Hx. unfold add_pool in Hx.
  apply M_bind_ok in Hx as (? & ? & ->%ensure_authority_ok & Hx).
  apply M_bind_ok in Hx as (? & ? & [_ ->]%M_ensure_ok & Hx).
  apply M_bind_ok in Hx as (? & ? & [Hmax ->]%M_ensure_ok & Hx). zbool.
  apply M_bind_ok in Hx as (? & ? & [= <- <-] & Hx).
  apply M_bind_ok in Hx as (info & ? & [_ ->]%M_ok_or_ok & Hx). cbv zeta in Hx.
  apply M_bind_ok in Hx as (? & ? & [_ ->]%M_ensure_ok & Hx).
  apply M_bind_ok in Hx as (? & s1 & [= _ <-] & Hx). apply M_bind_ok in Hx as (? & s2 & [= _ <-] & [= _ <-]).
  unfold sound. simpl. change (UserInfos _) with (UserInfos s). pose proof Hok as [Ha Hs Hp Hb Hc].
  set (new := mkPoolData _ _ _ _ _ _ _ _ _). set (ps := pools_of s pool reward) in *.
  split; [done|done| | |].
  - intros pa ra p. destruct (decide ((pa, ra) = (pool, reward))) as [[= -> ->]|Hne].
    + rewrite lookup_insert_eq. simpl.
      intros [Hin| ->%list_elem_of_singleton]%elem_of_app; [by apply (Hp pool reward)|done].
    + rewrite lookup_insert_ne by congruence. apply Hp.
  - intros w l v Hw Hv. specialize (Hb w l v Hw Hv).
    destruct (decide ((farm_pool_asset v, reward_asset v) = (pool, reward))) as [[= Ep Er]|Hne].
    + rewrite Ep, Er in *. rewrite lookup_insert_eq. simpl. rewrite fmap_app. apply elem_of_app. by left.
    + by rewrite lookup_insert_ne by congruence.
  - intros pa ra p Hl. destruct (decide ((pa, ra) = (pool, reward))) as [[= -> ->]|Hne].
    + rewrite lookup_insert_eq in Hl. apply lone_app in Hl as [Hl|[-> Hfresh]]; [by apply Hc|].
      assert (∀ g, staked g (pool_key pool reward new) (UserInfos s) = 0) as Hnone.
      { intros g. apply sum_by_zero. intros [w l] Hw%elem_of_map_to_list. apply user_sum_none. simpl.
        intros v Hv Hk. pose proof (Hb w l v Hw Hv) as Hin. rewrite Hk in Hin.
        unfold stake_key, pool_key in Hk. simpl in Hk. injection Hk as E1 E2 E3 E4. rewrite E2, E3 in Hin.
        apply list_elem_of_fmap in Hin as (q & Hq & Hin). by apply (Hfresh q). }
      rewrite !Hnone. simpl. unfold u128_max. lia.
    + rewrite lookup_insert_ne in Hl by congruence. by apply Hc.
Qed.

Lemma remove_pool_sound origin base pool reward farm s u s' :
  sound s → remove_pool origin base pool reward farm s = (Ok u, s') → sound s'.
Proof.
  intros Hok Hx. unfold remove_pool in Hx. apply M_bind_ok in Hx as (? & ? & ->%ensure_authority_ok & Hx).
  apply M_bind_ok in Hx as (? & ? & [= <- <-] & Hx). apply M_bind_ok in Hx as (? & s1 & Hput & [= _ <-]).
  by eapply sound_put_pools in Hput.
Qed.

Lemma activate_removed_pool_sound origin base pool reward farm s u s' :
  sound s → activate_removed_pool origin base pool reward farm s = (Ok u, s') → sound s'.
Proof.
  intros Hok Hx. unfold activate_removed_pool in Hx.
  apply M_bind_ok in Hx as (? & ? & ->%ensure_authority_ok & Hx).
  apply M_bind_ok in Hx as (? & ? & [= <- <-] & Hx). apply M_bind_ok in Hx as (? & s1 & Hput & [= _ <-]).
  by eapply sound_put_pools in Hput.
Qed.

Lemma change_pool_multiplier_sound origin base pool reward farm mult s u s' :
  sound s → change_pool_multiplier origin base pool reward farm mult s = (Ok u, s') → sound s'.
Proof.
  intros Hok Hx. unfold change_pool_multiplier in Hx.
  apply M_bind_ok in Hx as (? & ? & ->%ensure_authority_ok & Hx).
  apply M_bind_ok in Hx as (? & ? & [= <- <-] & Hx). cbv zeta in Hx.
  apply M_bind_ok in Hx as (old & ? & [_ ->]%M_ok_or_ok & Hx).
  apply M_bind_ok in Hx as (info & ? & [_ ->]%M_ok_or_ok & Hx).
  apply M_bind_ok in Hx as (? & s1 & [= _ <-] & Hx).
  apply M_bind_ok in Hx as (? & s2 & Hput & [= _ <-]).
  eapply (sound_put_pools _ _ _ _ (set_tokens _ s)) in Hput; done.
Qed.

Lemma change_pool_deposit_fee_sound origin base pool reward farm fee s u s' :
  sound s → 0 ≤ fee → change_pool_deposit_fee origin base pool reward farm fee s = (Ok u, s') → sound s'.
Proof.
  intros Hok Hfee Hx. unfold change_pool_deposit_fee in Hx.
  apply M_bind_ok in Hx as (? & ? & ->%ensure_authority_ok & Hx).
  apply M_bind_ok in Hx as (? & ? & [Hmax ->]%M_ensure_ok & Hx). zbool.
  apply M_bind_ok in Hx as (? & ? & [= <- <-] & Hx). cbv zeta in Hx.
  apply M_bind_ok in Hx as (? & ? & [_ ->]%M_ensure_ok & Hx).
  apply M_bind_ok in Hx as (? & s1 & Hput & [= _ <-]).
  by eapply sound_put_pools in Hput.
Qed.

Lemma change_total_tokens_sound origin base pool reward farm total s u s' :
  sound s → staked pooled_tokens (base, pool, reward, farm) (UserInfos s) ≤ total ≤ u128_max →
  change_total_tokens origin base pool reward farm total s = (Ok u, s') → sound s'.
Proof.
  intros Hok Ht Hx. unfold change_total_tokens in Hx.
  apply M_bind_ok in Hx as (? & ? & ->%ensure_authority_ok & Hx).
  apply M_bind_ok in Hx as (? & ? & [= <- <-] & Hx). cbv zeta in Hx.
  apply M_bind_ok in Hx as (? & ? & [_ ->]%M_ensure_ok & Hx).
  apply M_bind_ok in Hx as (? & s1 & [= _ <-] & [= _ <-]). apply farm_ok_rewrite; [done| |]; intros p Hp.
  - pose proof (ok_fees _ _ Hok pool reward p Hp). by destruct (is_active base farm p).
  - pose proof (ok_covered _ _ Hok pool reward p Hp) as [Hc Hr]. destruct (is_active base farm p) eqn:E; [|done].
    unfold is_active in E. apply andb_true_iff in E as [_ E]. apply (is_pool_key _ _ _ pool reward) in E.
    rewrite E in *. split; [exact Ht|exact Hr].
Qed.

Lemma change_info_sound origin who base pool reward farm tokens s u s' :
  let key := (base, pool, reward, farm) in
  sound s → 0 ≤ tokens →
  (∀ p, p ∈ pools_of s pool reward → is_pool base farm p = true →
     staked pooled_tokens key (UserInfos s) - user_sum pooled_tokens key (user_infos_of s who) + tokens
     ≤ total_tokens_in_pool p) →
  change_info origin who base pool reward farm tokens s = (Ok u, s') → sound s'.
Proof.
  intros key Hok Hpos Hle Hx. unfold change_info in Hx.
  apply M_bind_ok in Hx as (? & ? & ->%ensure_authority_ok & Hx).
  apply M_bind_ok in Hx as (? & ? & [= <- <-] & Hx).
  apply M_bind_ok in Hx as (? & s1 & [= _ <-] & [= _ <-]). set (infos := user_infos_of s who) in *.
  assert (∀ v, v ∈ infos → 0 ≤ pooled_tokens v ∧ 0 ≤ rewards v) as Hty.
  { intros v Hv. unfold infos, user_infos_of in Hv.
    destruct (UserInfos s !! who) eqn:E; [by eapply (ok_amounts _ _ Hok)|by apply elem_of_nil in Hv]. }
  change (farm_ok (Pools s)
    (<[who := update_where (is_stake base pool reward farm) (set_pooled tokens) infos]> (UserInfos s))).
  eapply farm_ok_same_keys; [exact Hok|done| | |apply Hok|].
  - intros w. destruct (decide (w = who)) as [->|Hne]; [|by rewrite lookup_insert_ne].
    rewrite lookup_insert_eq. simpl. by apply update_where_key.
  - intros w l v [[<- <-]|[_ Hw]]%lookup_insert_Some Hv; [|by eapply (ok_amounts _ _ Hok)].
    apply update_where_elem in Hv as (v0 & Hv & ->). destruct (Hty v0 Hv). by destruct (is_stake _ _ _ _ v0).
  - intros pa ra p Hp. pose proof (ok_covered _ _ Hok pa ra p Hp) as [Hc1 Hc2]. rewrite !staked_insert.
    change (default [] (UserInfos s !! who)) with infos.
    destruct (decide (pool_key pa ra p = key)) as [E|Hne].
    + rewrite E in *. assert (pa = pool ∧ ra = reward) as [-> ->] by (unfold pool_key, key in E; naive_solver).
      assert (is_pool base farm p = true) as Hpool by by apply (is_pool_key _ _ _ pool reward).
      specialize (Hle p (lone_elem _ _ _ _ Hp) Hpool). unfold key. rewrite !user_sum_update by done. fold key.
      assert (user_sum (λ v, rewards (set_pooled tokens v)) key infos = user_sum rewards key infos) as -> by done.
      assert (user_sum (λ v, pooled_tokens (set_pooled tokens v)) key infos ≤ tokens); [|lia].
      unfold key. rewrite user_sum_found; [by destruct (found _ _)|].
      unfold infos, user_infos_of. destruct (UserInfos s !! who) eqn:Ew; [by eapply (ok_stakes _ _ Hok)|apply NoDup_nil_2].
    + rewrite !user_sum_update_other by done. lia.
Qed.

Lemma update_pool_tokens_sound user tokens base pool s u s' :
  sound s → 0 ≤ tokens → update_pool_tokens user tokens base pool s = (Ok u, s') → sound s'.
Proof.
  intros Hok Hpos Hx. unfold update_pool_tokens in Hx. apply M_bind_ok in Hx as (? & ? & [= <- <-] & Hx).
  apply M_bind_ok in Hx as (infos & s1 & Hcut & [= _ <-]).
  apply (cut_stakes_ok _ _ _ _ (UserInfos s) user []) in Hcut as (Hok' & Hs' & _).
  - rewrite Hs' in *. exact Hok'.
  - intros v Hv. rewrite !andb_true_iff, !bool_decide_eq_true in Hv. naive_solver.
  - done.
  - by apply farm_ok_here.
Qed.
End ops.
