(* ===== verification/FarmingRewards.v ===== *)
(** * Distribution of the rewards of the farms

    The hooks of the farming pallet book rewards for pools and for their users.  The
    rewards of the users of a pool grow by no more than the rewards of the pool, so
    along every history they stay covered. *)

From S2P Require Import Prelude BTreeMap FixedPoint Helpers256 FixedU256 Units OrderTypes SwapTypes PoolMath DataLayer.
From S2P Require Import World Permissions TradingPair OrderBook WorldRefine Scheduler Pallet Technical PoolXyk Farming.
From S2P Require Import FarmingProps.
Import Farming.

(** ** Sums over all users *)

Section sums.
Context (k : AssetId * AssetId * AssetId * bool) (users : gmap AccountId (list UserInfo)).
Implicit Types (g : UserInfo → Z).

Lemma staked_le g g' : (∀ who infos u, users !! who = Some infos → u ∈ infos → g u ≤ g' u) →
  staked g k users ≤ staked g' k users.
Proof.
  intros Hle. apply sum_by_le. intros [who infos] Hw%elem_of_map_to_list. apply sum_by_le. intros u Hu.
  unfold of_key. case_bool_decide; [by eapply Hle|lia].
Qed.

Lemma staked_add g g' : staked (λ u, g u + g' u) k users = staked g k users + staked g' k users.
Proof.
  unfold staked. rewrite <- sum_by_add. apply sum_by_ext. intros [who infos] _. unfold user_sum.
  rewrite <- sum_by_add. apply sum_by_ext. intros u _. unfold of_key. case_bool_decide; lia.
Qed.

Lemma sum_by_scale {A} (f : A → Z) c l : sum_by (λ x, c * f x) l = c * sum_by f l.
Proof. induction l as [|x l IH]; [simpl; lia|]. rewrite !sum_by_cons, IH. lia. Qed.

Lemma staked_scale g c : staked (λ u, c * g u) k users = c * staked g k users.
Proof.
  unfold staked. rewrite <- sum_by_scale. apply sum_by_ext. intros [who infos] _. unfold user_sum.
  rewrite <- sum_by_scale. apply sum_by_ext. intros u _. unfold of_key. case_bool_decide; lia.
Qed.
End sums.

(** ** One pool *)

Section reward.
Context (pool reward : AssetId) (p : PoolData).
Abbreviation key := (pool_key pool reward p).
Abbreviation mine := (is_stake (pool_base_asset p) pool reward (pool_is_farm p)).
Abbreviation share := (λ u, user_reward (amount_per_hour p) (pooled_tokens u) (total_tokens_in_pool p)).
Implicit Types (users : gmap AccountId (list UserInfo)).

Definition rewarded_user (u : UserInfo) : UserInfo := set_rewards (u128_wrap (rewards u + share u)) u.
Definition rewarded_pool : PoolData := set_pool_rewards (u128_wrap (pool_rewards p + amount_per_hour p)) p.

Definition stakes_typed users : Prop :=
  ∀ who infos u, users !! who = Some infos → u ∈ infos → 0 ≤ pooled_tokens u ∧ 0 ≤ rewards u.

(** The shares of all users are at most the whole amount. *)
Lemma shares_bound users : stakes_typed users →
  staked pooled_tokens key users ≤ total_tokens_in_pool p →
  staked share key users ≤ amount_per_hour p.
Proof.
  intros Hty Hle. pose proof (balance_or_range (fixed_mul (rewards_to_be_distributed p) per_hour_and_half)) as Ha.
  fold (amount_per_hour p) in Ha.
  assert (0 ≤ staked pooled_tokens key users) by (apply staked_nonneg; intros w l u Hw Hu; by eapply Hty).
  destruct (decide (total_tokens_in_pool p = 0)) as [Hz|Hnz].
  - etransitivity; [apply (staked_le _ _ _ (λ _, 0 * 0))|rewrite staked_scale; lia].
    intros w l u Hw Hu. destruct (Hty w l u Hw Hu).
    destruct (user_reward_bound (amount_per_hour p) (pooled_tokens u) (total_tokens_in_pool p))
      as (_ & _ & Hu0); [lia..|]. simpl. rewrite Hu0 by done. lia.
  - assert (total_tokens_in_pool p * staked share key users ≤ amount_per_hour p * staked pooled_tokens key users)
      as Hprop; [|nia].
    rewrite <- !staked_scale. apply staked_le. intros w l u Hw Hu. destruct (Hty w l u Hw Hu).
    apply user_reward_bound; lia.
Qed.

Lemma rewarded_sums users k : stakes_typed users →
  (k = key → staked pooled_tokens key users ≤ total_tokens_in_pool p) →
  staked pooled_tokens k (update_where mine rewarded_user <$> users) = staked pooled_tokens k users ∧
  staked rewards k (update_where mine rewarded_user <$> users)
    ≤ staked rewards k users + (if bool_decide (k = key) then amount_per_hour p else 0).
Proof.
  intros Hty Hle. rewrite !staked_fmap. destruct (decide (k = key)) as [->|Hne].
  - rewrite bool_decide_eq_true_2 by done. split.
    + apply sum_by_ext. intros [w l] _. unfold pool_key. by rewrite user_sum_update.
    + pose proof (shares_bound users Hty (Hle eq_refl)) as Hsh.
      assert (staked (λ u, rewards (rewarded_user u)) key users ≤ staked (λ u, rewards u + share u) key users)
        as Hw.
      { apply staked_le. intros w l u Hw Hu. destruct (Hty w l u Hw Hu). apply Z.mod_le; [|done].
        pose proof (balance_or_range (FixedWrapper.mul (FixedWrapper.from_int (amount_per_hour p))
          (FixedWrapper.div (FixedWrapper.from_int (pooled_tokens u))
             (FixedWrapper.from_int (total_tokens_in_pool p))))).
        unfold user_reward. lia. }
      rewrite staked_add in Hw. etransitivity; [|etransitivity; [exact Hw|lia]].
      apply Z.eq_le_incl, sum_by_ext. intros [w l] _. unfold pool_key. by rewrite user_sum_update.
  - rewrite bool_decide_eq_false_2 by done. rewrite Z.add_0_r. unfold staked.
    split; [|apply Z.eq_le_incl]; apply sum_by_ext; intros [w l] _; by rewrite user_sum_update_other.
Qed.

(** The entries of the pair of assets, after one of them is rewarded. *)
Lemma reward_covered users l1 l2 q :
  stakes_typed users → pool_rewards p + amount_per_hour p ≤ u128_max →
  (∀ q, lone pool reward (l1 ++ p :: l2) q →
     staked pooled_tokens (pool_key pool reward q) users ≤ total_tokens_in_pool q ≤ u128_max ∧
     staked rewards (pool_key pool reward q) users ≤ pool_rewards q ≤ u128_max) →
  lone pool reward (l1 ++ rewarded_pool :: l2) q →
  let users' := update_where mine rewarded_user <$> users in
  staked pooled_tokens (pool_key pool reward q) users' ≤ total_tokens_in_pool q ≤ u128_max ∧
  staked rewards (pool_key pool reward q) users' ≤ pool_rewards q ≤ u128_max.
Proof.
  intros Ha Hmax Hc Hq users'. apply (lone_replace _ _ _ p) in Hq as [(Hp & ->)|(Hq & Hk)]; [| |done].
  - destruct (Hc p Hp) as [Ht Hr]. change (pool_key pool reward rewarded_pool) with key.
    destruct (rewarded_sums users key Ha) as [Hs Hle]; [lia|]. unfold users'. rewrite Hs.
    rewrite bool_decide_eq_true_2 in Hle by done. simpl.
    assert (0 ≤ staked rewards key users) by (apply staked_nonneg; intros w l u Hw Hu; by eapply Ha).
    pose proof (balance_or_range (fixed_mul (rewards_to_be_distributed p) per_hour_and_half)) as Hpos.
    fold (amount_per_hour p) in Hpos. rewrite u128_wrap_id by lia. lia.
  - destruct (Hc q Hq) as [Ht Hr]. destruct (rewarded_sums users (pool_key pool reward q) Ha) as [Hs Hle]; [done|].
    unfold users'. rewrite Hs. rewrite bool_decide_eq_false_2 in Hle by done. lia.
Qed.

Lemma farm_ok_reward pools users l1 l2 :
  farm_ok (<[(pool, reward) := l1 ++ p :: l2]> pools) users →
  pool_rewards p + amount_per_hour p ≤ u128_max →
  farm_ok (<[(pool, reward) := l1 ++ rewarded_pool :: l2]> pools) (update_where mine rewarded_user <$> users).
Proof.
  intros Hok Hmax. pose proof Hok as [Ha _ Hp _ Hc].
  set (ps := l1 ++ p :: l2) in *.
  eapply farm_ok_same_keys; [exact Hok| | | | |].
  - intros pa ra. destruct (decide ((pa, ra) = (pool, reward))) as [[= -> ->]|Hne].
    + rewrite !lookup_insert_eq. simpl. unfold ps. by rewrite !fmap_app, !fmap_cons.
    + by rewrite !lookup_insert_ne by congruence.
  - intros who. rewrite lookup_fmap. destruct (users !! who); [|done]. simpl. by apply update_where_key.
  - intros w l u Hw Hu. apply lookup_fmap_Some in Hw as (l0 & <- & Hw).
    apply update_where_elem in Hu as (v & Hv & ->). destruct (Ha w l0 v Hw Hv).
    destruct (mine v); [|done]. split; [done|by apply Z.mod_pos_bound].
  - intros pa ra q. destruct (decide ((pa, ra) = (pool, reward))) as [[= -> ->]|Hne].
    + rewrite lookup_insert_eq. simpl. intros Hq. specialize (Hp pool reward). rewrite lookup_insert_eq in Hp.
      assert (q = rewarded_pool ∨ q ∈ ps) as [->|Hq'] by (unfold ps; set_solver); [|by apply Hp].
      apply (Hp p). simpl. unfold ps. set_solver.
    + specialize (Hp pa ra q). rewrite lookup_insert_ne in Hp |- * by congruence. exact Hp.
  - intros pa ra q Hq. destruct (decide ((pa, ra) = (pool, reward))) as [[= -> ->]|Hne].
    + rewrite lookup_insert_eq in Hq. simpl in Hq. specialize (Hc pool reward). rewrite lookup_insert_eq in Hc.
      by apply (reward_covered users l1 l2).
    + destruct (rewarded_sums users (pool_key pa ra q) Ha) as [-> Hle]; [unfold pool_key; congruence|].
      rewrite bool_decide_eq_false_2 in Hle by (unfold pool_key; congruence). rewrite lookup_insert_ne in Hq by congruence.
      specialize (Hc pa ra q). rewrite lookup_insert_ne in Hc by congruence. specialize (Hc Hq). lia.
Qed.
End reward.

(** ** The hooks *)

Lemma for_each_run {S E A} (P : list A → S → Prop) (Q : S → Prop) (body : A → M S E unit) xs s :
  (∀ x xs' s1, P (x :: xs') s1 → ∃ s2, body x s1 = (Ok tt, s2) ∧ P xs' s2) →
  P xs s → (∀ s', P [] s' → Q s') → ∃ s', for_each xs body s = (Ok tt, s') ∧ Q s'.
Proof. intros Hstep HP HQ. destruct (for_each_total P body xs s Hstep HP) as (s' & Hrun & ?). eauto. Qed.

Section hooks.
Context {PC : PoolConfig} {PP : PoolParams} {SK : StorageKeys} {TH : TechHash} {FC : FarmingConfig}.
Context {L : Type} `{MultiCurrency L} {IS : Issuance L} {AI : AssetInfo L} {PR : Providers L}.
Context {RF : Permissions.References L} {HK : PoolHooks L}.
Implicit Types (s : t L).

(** Every user's stakes in the pool are rewarded. *)
Lemma reward_users_run pool reward p s :
  let mine := is_stake (pool_base_asset p) pool reward (pool_is_farm p) in
  ∃ s', reward_users pool reward p s = (Ok tt, s') ∧ Pools s' = Pools s ∧
    UserInfos s' = update_where mine (rewarded_user p) <$> UserInfos s.
Proof.
  intros mine. set (f := update_where mine (rewarded_user p)).
  destruct (storage_iter_entries (UserInfos s)) as [Hnd Hentries].
  unfold reward_users. cbv zeta. fold mine. rewrite exec_get_state.
  apply (for_each_run (λ xs s1, Pools s1 = Pools s ∧ NoDup xs.*1 ∧
      (∀ k v, (k, v) ∈ xs → UserInfos s !! k = Some v) ∧
      ∀ k, UserInfos s1 !! k = if decide (k ∈ xs.*1) then UserInfos s !! k else f <$> UserInfos s !! k)).
  - intros [user infos] xs s1 (Hp1 & Hnd1 & Hin1 & Hu1). apply NoDup_cons in Hnd1 as [Hn1 Hnd1].
    assert (UserInfos s !! user = Some infos) as Huser by (apply Hin1; left).
    assert (∀ k, <[user := f infos]> (UserInfos s1) !! k
      = if decide (k ∈ xs.*1) then UserInfos s !! k else f <$> UserInfos s !! k) as Hnew.
    { intros k. destruct (decide (k = user)) as [->|Hne].
      - by rewrite lookup_insert_eq, Huser, decide_False.
      - rewrite lookup_insert_ne, Hu1 by done. destruct (decide (k ∈ xs.*1)).
        + by rewrite decide_True by (simpl; set_solver).
        + by rewrite decide_False by (simpl; set_solver). }
    destruct (existsb mine infos) eqn:E; eexists; (split; [reflexivity|]).
    + split; [exact Hp1|]. split; [done|]. split; [set_solver|exact Hnew].
    + split; [exact Hp1|]. split; [done|]. split; [set_solver|]. intros k. rewrite <- Hnew.
      unfold f. rewrite update_where_none by done. rewrite insert_id; [done|].
      rewrite Hu1, decide_True by (simpl; set_solver). done.
  - split; [done|]. split; [exact Hnd|]. split; [by intros k v ?%Hentries|].
    intros k. destruct (decide _) as [|Hn]; [done|]. destruct (UserInfos s !! k) as [v|] eqn:E; [|done].
    destruct Hn. apply list_elem_of_fmap. exists (k, v). split; [done|by apply Hentries].
  - intros s' (Hp & _ & _ & Hu). split; [exact Hp|]. apply map_eq. intros k.
    by rewrite Hu, lookup_fmap, decide_False by apply not_elem_of_nil.
Qed.

(** No pool overflows when its rewards are booked. *)
Definition rewards_fit (infos : list PoolData) : Prop :=
  ∀ p, p ∈ infos → pool_rewards p + amount_per_hour p ≤ u128_max.

Lemma distribute_pools_run pool reward infos s l1 :
  farm_ok (<[(pool, reward) := l1 ++ infos]> (Pools s)) (UserInfos s) → rewards_fit infos →
  ∃ infos' s', distribute_pools pool reward infos s = (Ok infos', s') ∧ Pools s' = Pools s ∧
    farm_ok (<[(pool, reward) := l1 ++ infos']> (Pools s)) (UserInfos s').
Proof.
  revert s l1. induction infos as [|p infos IH]; intros s l1 Hok Hfit; [by exists [], s|].
  assert (∃ p' s1, (if is_paying p
      then reward_users pool reward p ≫= λ _, mret (rewarded_pool p) else mret p) s = (Ok p', s1) ∧
    Pools s1 = Pools s ∧
    farm_ok (<[(pool, reward) := (l1 ++ [p']) ++ infos]> (Pools s1)) (UserInfos s1)) as (p' & s1 & Hp' & Hp1 & Hok1).
  { destruct (is_paying p).
    - destruct (reward_users_run pool reward p s) as (s1 & Hrun & Hp1 & Hu1).
      exists (rewarded_pool p), s1. rewrite (M_bind_run_ok _ _ _ _ _ Hrun). split; [done|]. split; [done|].
      rewrite Hp1, Hu1, <- (assoc_L (++)). apply farm_ok_reward; [done|]. apply Hfit. left.
    - exists p, s. split; [done|]. split; [done|]. by rewrite <- (assoc_L (++)). }
  destruct (IH s1 (l1 ++ [p']) Hok1) as (infos' & s2 & Hrest & Hp2 & Hok2).
  { intros q Hq. apply Hfit. by right. }
  exists (p' :: infos'), s2. cbn [distribute_pools]. unfold rewarded_pool in Hp'.
  rewrite (M_bind_run_ok _ _ _ _ _ Hp'), (M_bind_run_ok _ _ _ _ _ Hrest). split; [done|].
  split; [congruence|]. rewrite <- (assoc_L (++)) in Hok2. by rewrite <- Hp1.
Qed.

Lemma distribute_rewards_to_users_run s : sound s →
  (∀ k infos, Pools s !! k = Some infos → rewards_fit infos) →
  ∃ s', distribute_rewards_to_users s = (Ok tt, s') ∧ sound s'.
Proof.
  intros Hok Hfit. destruct (storage_iter_entries (Pools s)) as [Hnd Hentries].
  unfold distribute_rewards_to_users. rewrite exec_get_state.
  apply (for_each_run (λ xs s1, sound s1 ∧ NoDup xs.*1 ∧
      ∀ k v, (k, v) ∈ xs → Pools s1 !! k = Some v ∧ rewards_fit v)).
  - intros [[pool reward] infos] xs s1 (Hok1 & Hnd1 & Hin1). apply NoDup_cons in Hnd1 as [Hn1 Hnd1].
    destruct (Hin1 (pool, reward) infos) as [Hl Hf]; [left|].
    destruct (distribute_pools_run pool reward infos s1 []) as (infos' & s2 & Hrun & Hp2 & Hok2); [|done|].
    { simpl. by rewrite insert_id. }
    eexists. rewrite (M_bind_run_ok _ _ _ _ _ Hrun). split; [reflexivity|]. simpl in Hok2. split.
    { unfold sound. simpl. by rewrite Hp2. }
    split; [done|]. intros k v Hk. simpl. rewrite Hp2, lookup_insert_ne; [apply Hin1; by right|].
    intros <-. apply Hn1. apply list_elem_of_fmap. by exists (pool, reward, v).
  - split; [done|]. split; [exact Hnd|]. intros k v Hk%Hentries. split; [done|by eapply Hfit].
  - by intros s' [? _].
Qed.

Lemma reward_pool_keeps info farming staking p pool reward :
  pool_key pool reward (reward_pool info farming staking p) = pool_key pool reward p ∧
  total_tokens_in_pool (reward_pool info farming staking p) = total_tokens_in_pool p ∧
  pool_rewards (reward_pool info farming staking p) = pool_rewards p ∧
  deposit_fee (reward_pool info farming staking p) = deposit_fee p.
Proof. unfold reward_pool. by destruct (_ && _). Qed.

Lemma distribute_token_run token s : sound s → ∃ s', distribute_token token s = (Ok tt, s') ∧ sound s'.
Proof.
  intros Hok. destruct token as [asset info]. unfold distribute_token.
  cbv zeta. set (farming := balance_or 0 (fixed_mul _ (farms_allocation info))).
  set (staking := balance_or 0 (fixed_mul _ (staking_allocation info))).
  set (call := transfer _ _ _ _). destruct (call s) as [r s0] eqn:Hcall. apply transfer_same in Hcall as Hs.
  assert (ignored call s = (Ok tt, s0)) as Hig by (unfold ignored; by rewrite Hcall).
  rewrite (M_bind_run_ok _ _ _ _ _ Hig), exec_get_state.
  assert (sound s0) as Hok0 by (destruct Hs as [Hp Hu]; unfold sound; by rewrite Hp, Hu).
  destruct (storage_iter_entries (Pools s0)) as [Hnd Hentries].
  apply (for_each_run (λ xs s1, sound s1 ∧ NoDup xs.*1 ∧ ∀ k v, (k, v) ∈ xs → Pools s1 !! k = Some v)).
  - intros [[pool reward] infos] xs s1 (Hok1 & Hnd1 & Hin1). apply NoDup_cons in Hnd1 as [Hn1 Hnd1].
    assert (Pools s1 !! (pool, reward) = Some infos) as Hl by (apply Hin1; left).
    case_bool_decide; eexists; (split; [reflexivity|]).
    + split.
      { pose proof (farm_ok_entries (Pools s1) (UserInfos s1) pool reward) as Hent. rewrite Hl in Hent.
        apply Hent; [exact Hok1|]. intros p Hp.
        assert (p ∈ default [] (Pools s1 !! (pool, reward))) as Hp' by by rewrite Hl.
        pose proof (ok_fees _ _ Hok1 pool reward p Hp') as Hfee.
        destruct (reward_pool_keeps info farming staking p pool reward) as (-> & -> & -> & ->). done. }
      split; [done|]. intros k v Hk. simpl. rewrite lookup_insert_ne; [apply Hin1; by right|].
      intros <-. apply Hn1. apply list_elem_of_fmap. by exists (pool, reward, v).
    + split; [done|]. split; [done|]. intros k v Hk. apply Hin1. by right.
  - split; [done|]. split; [exact Hnd|]. by intros k v ?%Hentries.
  - by intros s' [? _].
Qed.

Lemma distribute_rewards_to_pools_run s : sound s →
  ∃ s', distribute_rewards_to_pools s = (Ok tt, s') ∧ sound s'.
Proof.
  intros Hok. assert (∃ s0, mint_deo s = (Ok tt, s0) ∧ sound s0) as (s0 & Hmint & Hok0).
  { unfold mint_deo. rewrite exec_get_state. destruct (TokenInfos s !! _); [|by exists s].
    eexists. split; [reflexivity|]. unfold sound, UserInfos, on_xyk, PoolXyk.on_ledger, zoom.
    destruct (Assets.mint_to _ _ _ _ _); exact Hok. }
  unfold distribute_rewards_to_pools.
  rewrite (M_bind_run_ok _ _ _ _ _ Hmint), exec_get_state.
  apply (for_each_run (λ _ s1, sound s1)); [|done|done].
  intros token xs s1 Hok1. by apply distribute_token_run.
Qed.

Lemma on_initialize_run now s : sound s →
  (∀ k infos, Pools s !! k = Some infos → rewards_fit infos) →
  ∃ s', on_initialize now s = (Ok tt, s') ∧ sound s'.
Proof.
  intros Hok Hfit. unfold on_initialize.
  assert (∃ s1, (if now mod BLOCKS_PER_HOUR_AND_A_HALF =? 0 then distribute_rewards_to_users else mret tt) s
    = (Ok tt, s1) ∧ sound s1) as (s1 & Hrun & Hok1).
  { destruct (_ =? 0); [by apply distribute_rewards_to_users_run|by exists s]. }
  rewrite (M_bind_run_ok _ _ _ _ _ Hrun).
  destruct (now mod BLOCKS_PER_ONE_DAY =? 0); [by apply distribute_rewards_to_pools_run|by exists s1].
Qed.
End hooks.

(** ** Histories *)

Section histories.
Context {PC : PoolConfig} {PP : PoolParams} {SK : StorageKeys} {TH : TechHash} {FC : FarmingConfig}.
Context {L : Type} `{MultiCurrency L} {IS : Issuance L} {AI : AssetInfo L} {PR : Providers L}.
Context {RF : Permissions.References L} {HK : PoolHooks L}.
Implicit Types (s : t L) (base pool reward : AssetId).

(** The successful calls and the hooks of the pallet, with amounts of the type [Balance] that
    do not overflow what is booked, and anything outside it that leaves the farms alone.  The
    calls with which the authority overwrites a total or a stake are those that leave the
    stakes within the total; the redenomination is left out. *)
Inductive farm_step s : t L → Prop :=
| step_register origin asset per_block farms staking team account s' :
    register_token origin asset per_block farms staking team account s = (Ok tt, s') → farm_step s s'
| step_change_token origin asset per_block farms staking team account s' :
    change_token_info origin asset per_block farms staking team account s = (Ok tt, s') → farm_step s s'
| step_add_pool origin base pool reward farm mult fee core s' :
    0 ≤ fee → add_pool origin base pool reward farm mult fee core s = (Ok tt, s') → farm_step s s'
| step_remove_pool origin base pool reward farm s' :
    remove_pool origin base pool reward farm s = (Ok tt, s') → farm_step s s'
| step_activate origin base pool reward farm s' :
    activate_removed_pool origin base pool reward farm s = (Ok tt, s') → farm_step s s'
| step_multiplier origin base pool reward farm mult s' :
    change_pool_multiplier origin base pool reward farm mult s = (Ok tt, s') → farm_step s s'
| step_fee origin base pool reward farm fee s' :
    0 ≤ fee → change_pool_deposit_fee origin base pool reward farm fee s = (Ok tt, s') → farm_step s s'
| step_change_total origin base pool reward farm total s' :
    staked pooled_tokens (base, pool, reward, farm) (UserInfos s) ≤ total ≤ u128_max →
    change_total_tokens origin base pool reward farm total s = (Ok tt, s') → farm_step s s'
| step_change_info origin who base pool reward farm tokens s' :
    let key := (base, pool, reward, farm) in
    0 ≤ tokens →
    (∀ p, p ∈ pools_of s pool reward → is_pool base farm p = true →
       staked pooled_tokens key (UserInfos s) - user_sum pooled_tokens key (user_infos_of s who) + tokens
       ≤ total_tokens_in_pool p) →
    change_info origin who base pool reward farm tokens s = (Ok tt, s') → farm_step s s'
| step_deposit origin base pool reward farm amount s' :
    0 ≤ amount ≤ u128_max → providers_typed (xyk s) →
    (∀ p, p ∈ pools_of s pool reward → total_tokens_in_pool p + amount ≤ u128_max) →
    deposit origin base pool reward farm amount s = (Ok tt, s') → farm_step s s'
| step_withdraw origin base pool reward amount farm s' :
    0 ≤ amount → withdraw origin base pool reward amount farm s = (Ok tt, s') → farm_step s s'
| step_get_rewards origin base pool reward farm s' :
    get_rewards origin base pool reward farm s = (Ok tt, s') → farm_step s s'
| step_pool_tokens user tokens base pool s' :
    0 ≤ tokens → update_pool_tokens user tokens base pool s = (Ok tt, s') → farm_step s s'
| step_initialize now s' :
    (∀ k infos, Pools s !! k = Some infos → rewards_fit infos) →
    on_initialize now s = (Ok tt, s') → farm_step s s'
| step_elsewhere s' : same_farms s s' → farm_step s s'.

Lemma register_token_same origin asset per_block farms staking team account s u s' :
  register_token origin asset per_block farms staking team account s = (Ok u, s') → same_farms s s'.
Proof.
  unfold register_token. intros Hx. apply M_bind_ok in Hx as (? & ? & ->%ensure_authority_ok & Hx).
  apply M_bind_ok in Hx as (? & ? & [= <- <-] & Hx).
  do 3 apply M_bind_ok in Hx as (? & ? & [_ ->]%M_ensure_ok & Hx).
  by apply M_bind_ok in Hx as (? & ? & [= _ <-] & [= _ <-]).
Qed.

Lemma change_token_info_same origin asset per_block farms staking team account s u s' :
  change_token_info origin asset per_block farms staking team account s = (Ok u, s') → same_farms s s'.
Proof.
  unfold change_token_info. intros Hx. apply M_bind_ok in Hx as (? & ? & [_ ->]%ensure_signed_ok & Hx).
  apply M_bind_ok in Hx as (? & ? & [= <- <-] & Hx).
  apply M_bind_ok in Hx as (? & ? & [_ ->]%M_ok_or_ok & Hx).
  do 3 apply M_bind_ok in Hx as (? & ? & [_ ->]%M_ensure_ok & Hx).
  by apply M_bind_ok in Hx as (? & ? & [= _ <-] & [= _ <-]).
Qed.

Lemma sound_same s s' : sound s → same_farms s s' → sound s'.
Proof. intros Hok [Hp Hu]. unfold sound. by rewrite Hp, Hu. Qed.

Lemma farm_step_sound s s' : farm_step s s' → sound s → sound s'.
Proof.
  intros [] Hok.
  - eapply sound_same; [done|by eapply register_token_same].
  - eapply sound_same; [done|by eapply change_token_info_same].
  - by eapply add_pool_sound.
  - by eapply remove_pool_sound.
  - by eapply activate_removed_pool_sound.
  - by eapply change_pool_multiplier_sound.
  - by eapply change_pool_deposit_fee_sound.
  - by eapply change_total_tokens_sound.
  - by eapply change_info_sound.
  - by eapply farm_deposit_sound.
  - by eapply withdraw_sound.
  - by eapply get_rewards_sound.
  - by eapply update_pool_tokens_sound.
  - destruct (on_initialize_run now s) as (s1 & Hrun & Hok1); [done..|]. congruence.
  - by eapply sound_same.
Qed.

(** A state reached from one without farms. *)
Definition farms_reached s : Prop :=
  ∃ s0, Pools s0 = ∅ ∧ UserInfos s0 = ∅ ∧ rtc farm_step s0 s.

Lemma reached_sound s : farms_reached s → sound s.
Proof.
  intros (s0 & Hp & Hu & Hr). assert (sound s0) as Hok.
  { unfold sound. rewrite Hp, Hu. split; intros *; rewrite lookup_empty; try done; by intros ?%elem_of_nil. }
  clear Hp Hu. induction Hr as [|s0 s1 s Hstep _ IH]; [done|]. by eapply IH, farm_step_sound.
Qed.

(** C12. After every history of the calls and hooks (without a redenomination, and in which the
    authority overwrites no stake or total so that it is not covered), the stakes of the users
    of a pool add up to at most the total of the pool, and the rewards booked for them to at
    most the rewards booked for the pool.  The pool must be the only one with its key: one that
    was removed and added again is not covered. *)
Theorem farms_cover_users s pool reward p :
  farms_reached s → lone pool reward (pools_of s pool reward) p →
  staked pooled_tokens (pool_key pool reward p) (UserInfos s) ≤ total_tokens_in_pool p ∧
  staked rewards (pool_key pool reward p) (UserInfos s) ≤ pool_rewards p.
Proof. intros Hr%reached_sound Hp. by destruct (ok_covered _ _ Hr pool reward p Hp) as ([] & []). Qed.

(** ** Withdrawal of rewards *)

Lemma pay_rewards_none user mine infos paid rest s : (∀ u, u ∈ infos → mine u = false) →
  pay_rewards user mine infos paid rest s = (Ok (infos, paid, rest), s).
Proof.
  intros Hn. induction infos as [|u infos IH]; [done|]. cbn [pay_rewards].
  rewrite Hn by left. erewrite M_bind_run_ok; [|apply IH; intros v Hv; apply Hn; by right]. done.
Qed.

Lemma pay_rewards_run user base pool reward farm infos u paid rest s s1 :
  let mine := is_stake base pool reward farm in
  NoDup (stake_key <$> infos) → u ∈ infos → mine u = true → 0 < rewards u ≤ rest →
  transfer (reward_asset u) farming_account user (rewards u) s = (Ok tt, s1) →
  pay_rewards user mine infos paid rest s
  = (Ok (update_where mine (set_rewards 0) infos, rewards u, rest - rewards u), s1).
Proof.
  intros mine Hnd Hin Hm Hr Ht. induction infos as [|v infos IH]; [by apply elem_of_nil in Hin|].
  rewrite fmap_cons in Hnd. apply NoDup_cons in Hnd as [Hn Hnd].
  apply elem_of_cons in Hin as [<-|Hin]; cbn [pay_rewards].
  - assert (∀ w, w ∈ infos → mine w = false) as Hothers.
    { intros w Hw. destruct (mine w) eqn:E; [|done]. destruct Hn. apply is_stake_key in Hm, E.
      rewrite Hm, <- E. by apply list_elem_of_fmap_2. }
    rewrite Hm. unfold check. replace (rewards u =? 0) with false by lia.
    replace (rewards u <=? rest) with true by lia. simpl negb. exec.
    rewrite (M_bind_run_ok _ _ _ _ _ Ht), (M_bind_run_ok _ _ _ _ _ (pay_rewards_none _ _ _ _ _ _ Hothers)).
    assert (update_where mine (set_rewards 0) infos = infos) as Hsame.
    { apply update_where_none, not_true_iff_false.
      intros (w & Hw%list_elem_of_In & Hmw)%existsb_exists. by rewrite Hothers in Hmw. }
    unfold update_where in *. rewrite fmap_cons, Hm, Hsame. done.
  - assert (mine v = false) as Hv.
    { destruct (mine v) eqn:E; [|done]. destruct Hn. apply is_stake_key in Hm, E. rewrite E, <- Hm.
      by apply list_elem_of_fmap_2. }
    rewrite Hv, (M_bind_run_ok _ _ _ _ _ (IH Hnd Hin)). unfold update_where. by rewrite fmap_cons, Hv.
Qed.

(** C23. After every history (as for the cover of the farms) the rewards booked for a user in a
    pool that is the only one with its key are paid out on request, as long as the account of
    the pallet can transfer them. *)
Theorem booked_rewards_paid s user base pool reward farm p u s1 :
  let mine := is_stake base pool reward farm in
  farms_reached s → lone pool reward (pools_of s pool reward) p → is_pool base farm p = true →
  u ∈ user_infos_of s user → mine u = true → 0 < rewards u →
  transfer reward farming_account user (rewards u) s = (Ok tt, s1) →
  ∃ s', get_rewards (Signed user) base pool reward farm s = (Ok tt, s') ∧
    farming_ledger s' = farming_ledger s1 ∧
    user_infos_of s' user = update_where mine (set_rewards 0) (user_infos_of s user).
Proof.
  intros mine Hr%reached_sound Hlone Hpool Hu Hm Hpos Ht. pose proof Hm as Hk%is_stake_key.
  unfold user_infos_of in Hu. destruct (UserInfos s !! user) as [infos|] eqn:Ei; [|by apply elem_of_nil in Hu].
  simpl in Hu. assert (reward_asset u = reward) as E3 by (unfold stake_key in Hk; by injection Hk).
  pose proof Hpool as Hp. apply (is_pool_key _ _ _ pool reward) in Hp.
  assert (found (is_pool base farm) (pools_of s pool reward) = Some p) as Hf.
  { destruct (found _ _) as [q|] eqn:Hf.
    - apply found_Some in Hf as [Hq Hqp]. apply (is_pool_key _ _ _ pool reward) in Hqp.
      f_equal. eapply lone_unique; [exact Hlone|exact Hq|congruence].
    - pose proof (found_None _ _ _ Hf (lone_elem _ _ _ _ Hlone)). congruence. }
  pose proof (ok_covered _ _ Hr pool reward p Hlone) as (_ & Hc). rewrite Hp in Hc.
  assert (rewards u ≤ pool_rewards p) as Hle.
  { etransitivity; [|apply Hc]. etransitivity; [|apply (user_sum_le_staked _ _ _ user)].
    - rewrite Ei. apply user_sum_elem; [|done|done]. intros v Hv. by eapply (ok_amounts _ _ Hr).
    - intros w l v Hw Hv. by eapply (ok_amounts _ _ Hr). }
  rewrite <- E3 in Ht.
  pose proof (pay_rewards_run user base pool reward farm infos u 0 (pool_rewards p) s s1
    (ok_stakes _ _ Hr user infos Ei) Hu Hm ltac:(lia) Ht) as Hpay.
  unfold get_rewards. eexists. rewrite with_transaction_ok. unfold ensure_signed. exec. cbv zeta. rewrite Hf. exec.
  unfold user_infos_of at 1. rewrite Ei. cbn [default from_option id].
  rewrite (M_bind_run_ok _ _ _ _ _ Hpay). exec. split; [reflexivity|]. split; [done|].
  unfold user_infos_of. rewrite Ei. unfold UserInfos. simpl. by rewrite lookup_insert_eq.
Qed.
End histories.
