(* ===== verification/Locker.v ===== *)
(** * Locked liquidity ([pallets/ceres-liquidity-locker/src/lib.rs])

    Providers of a pool lock their pool tokens until a timestamp.  [LockerData] is part
    of the state of [PoolXyk], whose withdrawals respect the locks; the other storage of
    the pallet is here.  Weights and migrations are not modelled. *)

From S2P Require Import Prelude BTreeMap FixedPoint Helpers256 FixedU256 Units OrderTypes SwapTypes PoolMath DataLayer.
From S2P Require Import World Permissions TradingPair OrderBook WorldRefine Scheduler Pallet Technical PoolXyk Farming.

Class LockerConfig := {
  CeresAssetId : AssetId;
  (** [BLOCKS_PER_ONE_DAY]. *)
  locker_day : Z
}.

Module Locker.

Inductive Event := Locked (who : AccountId) (amount : Balance) (until : Moment).

Record t (L : Type) := mk {
  farms : Farming.t L;
  FeesOptionOneAccount : AccountId;
  FeesOptionTwoAccount : AccountId;
  FeesOptionTwoCeresAmount : Balance;
  AuthorityAccount : AccountId;
  events : list Event
}.
Arguments mk {L}.
Arguments farms {L}.
Arguments FeesOptionOneAccount {L}.
Arguments FeesOptionTwoAccount {L}.
Arguments FeesOptionTwoCeresAmount {L}.
Arguments AuthorityAccount {L}.
Arguments events {L}.

Section pallet.
Context {PC : PoolConfig} {PP : PoolParams} {SK : StorageKeys} {TH : TechHash} {FC : FarmingConfig}.
Context {LC : LockerConfig}.
Context {L : Type} `{MultiCurrency L} {IS : Issuance L} {AI : AssetInfo L} {PR : Providers L}.
Context {RF : Permissions.References L} {HK : PoolHooks L}.
Abbreviation K := (M (t L) DispatchError).
Implicit Types (s : t L).

Definition set_farms f s : t L :=
  mk f (FeesOptionOneAccount s) (FeesOptionTwoAccount s) (FeesOptionTwoCeresAmount s)
    (AuthorityAccount s) (events s).
Definition set_ceres_amount v s : t L :=
  mk (farms s) (FeesOptionOneAccount s) (FeesOptionTwoAccount s) v (AuthorityAccount s) (events s).
Definition add_event e s : t L :=
  mk (farms s) (FeesOptionOneAccount s) (FeesOptionTwoAccount s) (FeesOptionTwoCeresAmount s)
    (AuthorityAccount s) (events s ++ [e]).

Definition pool s : PoolXyk.t L := Farming.xyk (farms s).
Definition on_farms {A} (c : M (Farming.t L) DispatchError A) : K A := zoom farms set_farms c.
Definition on_pool {A} (c : M (PoolXyk.t L) DispatchError A) : K A := on_farms (Farming.on_xyk c).
Definition set_locks (d : gmap AccountId (list LockInfo)) s : t L :=
  set_farms (Farming.set_xyk (PoolXyk.set_lockers d (pool s)) (farms s)) s.
Definition check (b : bool) (e : LockerErrors.t) : K unit := ensure b (LockerError e).
Definition ensure_signed (origin : RawOrigin) : K AccountId :=
  match origin with Signed who => mret who | _ => mthrow BadOrigin end.

Definition pay_fee_in_lp_tokens (pool_account : AccountId) (asset_a asset_b : AssetId)
    (user : AccountId) (pool_tokens fee_percentage : Balance) (option : bool) : K unit :=
  let pool_tokens := balance_or 0 (fixed_mul pool_tokens fee_percentage) in
  s ← get_state;
  let fee_account := if option then FeesOptionOneAccount s else FeesOptionTwoAccount s in
  on_pool (PoolXyk.transfer_lp_tokens pool_account asset_a asset_b user fee_account pool_tokens).

(** The unchecked difference of the tokens and the locked ones wraps around. *)
Definition lock_liquidity (origin : RawOrigin) (asset_a asset_b : AssetId) (until : Moment)
    (percentage_of_pool_tokens : Balance) (option : bool) : K unit :=
  user ← ensure_signed origin;
  _ ← check ((0 <? percentage_of_pool_tokens) && (percentage_of_pool_tokens <=? Fixed.COEF))
        LockerErrors.InvalidPercentage;
  s ← get_state;
  _ ← check (PoolXyk.now (pool s) <? until) LockerErrors.InvalidUnlockingTimestamp;
  properties ← ok_or (PoolXyk.properties_of_pool (pool s) asset_a asset_b)
                 (LockerError LockerErrors.PoolDoesNotExist);
  let pool_account := fst properties in
  let pool_tokens := default 0 (PoolXyk.balance_of_pool_provider (pool s) pool_account user) in
  _ ← check (negb (pool_tokens =? 0)) LockerErrors.InsufficientLiquidityToLock;
  let lock_tokens := balance_or 0 (fixed_mul pool_tokens percentage_of_pool_tokens) in
  let unlocked_pool_tokens :=
    u128_wrap (pool_tokens - PoolXyk.locked_tokens (pool s) user asset_a asset_b) in
  _ ← check (lock_tokens <=? unlocked_pool_tokens) LockerErrors.InsufficientLiquidityToLock;
  _ ← (if option then
         pay_fee_in_lp_tokens pool_account asset_a asset_b user lock_tokens (Fixed.COEF / 100) option
       else
         _ ← on_pool (PoolXyk.on_ledger
               (transfer_from CeresAssetId user (FeesOptionTwoAccount s) (FeesOptionTwoCeresAmount s)));
         pay_fee_in_lp_tokens pool_account asset_a asset_b user lock_tokens (Fixed.COEF / 200) option);
  s ← get_state;
  let pool_tokens := default 0 (PoolXyk.balance_of_pool_provider (pool s) pool_account user) in
  _ ← on_farms (Farming.update_pool_tokens user pool_tokens asset_a asset_b);
  _ ← modify (λ s, set_locks
        (<[user := default [] (PoolXyk.LockerData (pool s) !! user)
                   ++ [mkLock lock_tokens until asset_a asset_b]]> (PoolXyk.LockerData (pool s))) s);
  modify (add_event (Locked user lock_tokens until)).

Definition change_ceres_fee (origin : RawOrigin) (ceres_fee : Balance) : K unit :=
  user ← ensure_signed origin;
  s ← get_state;
  _ ← check (bool_decide (user = AuthorityAccount s)) LockerErrors.Unauthorized;
  modify (set_ceres_amount ceres_fee).

(** Expired locks are removed once a day. *)
Definition on_initialize (block : Z) : K unit :=
  if block mod locker_day =? 0 then
    modify (λ s, set_locks
      (filter (λ lock, PoolXyk.now (pool s) < unlocking_timestamp lock) <$> PoolXyk.LockerData (pool s)) s)
  else mret tt.

Definition denominate_lock (factor : Balance) (lock : LockInfo) : LockInfo :=
  if bool_decide (lock_asset_b lock = XOR) || bool_decide (lock_asset_b lock = TBCD)
  then mkLock (default (lock_tokens lock) (u128_checked_div (lock_tokens lock) factor))
         (unlocking_timestamp lock) (lock_asset_a lock) (lock_asset_b lock)
  else lock.

Definition on_denominate (factor : Balance) : K unit :=
  modify (λ s, set_locks (map (denominate_lock factor) <$> PoolXyk.LockerData (pool s)) s).
End pallet.
End Locker.
