(* ===== verification/LockerProps.v ===== *)
(** * Effect of a lock

    A lock holds part of the unlocked pool tokens of a provider, who pays a fee in pool
    tokens; stakes in farms are cut to what is left.  The theorem composes the locker with
    the shares of the pool and the farms. *)

From S2P Require Import Prelude BTreeMap FixedPoint Helpers256 FixedU256 Units OrderTypes SwapTypes PoolMath DataLayer.
From S2P Require Import World Permissions TradingPair OrderBook WorldRefine Scheduler Pallet Technical PoolXyk PoolSwaps PoolShares.
From S2P Require Import Farming FarmingProps Locker.
Import Locker.

Section locks.
Context {PC : PoolConfig} {PP : PoolParams} {SK : StorageKeys} {TH : TechHash} {FC : FarmingConfig}.
Context {LC : LockerConfig}.
Context {L : Type} `{MultiCurrency L} {IS : Issuance L} {AI : AssetInfo L} {PR : Providers L}.
Context {RF : Permissions.References L} {HK : PoolHooks L} {CO : PoolConfigOk}.
Implicit Types (s : t L) (x : PoolXyk.t L).

(** ** Sums and maxima *)

Lemma locked_range x user a b : 0 ≤ PoolXyk.locked_tokens x user a b.
Proof.
  unfold PoolXyk.locked_tokens. generalize (default [] (PoolXyk.LockerData x !! user)).
  assert (0 ≤ 0) as Hz by lia. revert Hz. generalize 0 at 2 4. intros sum Hs l. revert sum Hs.
  induction l as [|lock l IH]; intros sum Hs; [done|]. simpl. apply IH.
  destruct (_ && _); [by apply Z.mod_pos_bound|done].
Qed.

Lemma farmed_bound x user a b lp :
  0 ≤ lp →
  (∀ u, u ∈ default [] (PoolXyk.UserInfos x !! user) →
     bool_decide (farm_pool_asset u = b) && is_farm u && bool_decide (farm_base_asset u = a) = true →
     pooled_tokens u ≤ lp) →
  PoolXyk.farmed_tokens x user a b ≤ lp.
Proof.
  unfold PoolXyk.farmed_tokens. generalize (default [] (PoolXyk.UserInfos x !! user)). intros l Hlp.
  revert Hlp. generalize 0 at 1 2. intros most Hm. revert most Hm.
  induction l as [|u l IH]; intros most Hm Hall; [done|]. simpl. apply IH; [|intros v Hv; apply Hall; by right].
  destruct (_ && _) eqn:E; [|done]. destruct (Z.ltb_spec most (pooled_tokens u)); [|done].
  apply Hall; [left|done].
Qed.

(** ** Transfers of pool tokens *)

Lemma transfer_lp_effect p a b from to tokens x u x' :
  from ≠ to → PoolXyk.transfer_lp_tokens p a b from to tokens x = (Ok u, x') →
  share x' p from = share x p from - tokens ∧ share x' p to = u128_wrap (share x p to + tokens) ∧
  PoolXyk.LockerData x' = PoolXyk.LockerData x ∧ PoolXyk.now x' = PoolXyk.now x ∧
  PoolXyk.Properties x' = PoolXyk.Properties x.
Proof.
  intros Hne Hx. unfold PoolXyk.transfer_lp_tokens in Hx.
  apply M_bind_ok in Hx as (? & ? & [= <- <-] & Hx).
  apply M_bind_ok in Hx as (old & ? & [Hold ->]%M_ok_or_ok & Hx).
  apply M_bind_ok in Hx as (new & ? & [[-> Hnew]%checked_Some ->]%M_ok_or_ok & Hx).
  apply M_bind_ok in Hx as (? & ? & [= _ <-] & Hx). apply M_bind_ok in Hx as (? & ? & [= <- <-] & Hx).
  apply M_bind_ok in Hx as (? & xb & Hmid & [= <- <-]). set (xa := PoolXyk.set_providers _ x) in *.
  assert (PoolXyk.LockerData xb = PoolXyk.LockerData xa ∧ PoolXyk.PoolProviders xb = PoolXyk.PoolProviders xa ∧
    PoolXyk.now xb = PoolXyk.now xa ∧ PoolXyk.Properties xb = PoolXyk.Properties xa) as (Hl & Hp & Hn & Hpr).
  { destruct (_ && _); [|by injection Hmid as _ <-].
    apply M_bind_ok in Hmid as (pair & ? & [_ ->]%M_lift_ok & [= _ <-]). done. }
  assert (PoolXyk.PoolProviders xb !! (p, to) = PoolXyk.PoolProviders x !! (p, to)) as Hto.
  { rewrite Hp. simpl. destruct (_ =? 0); [by rewrite lookup_delete_ne by congruence|by rewrite lookup_insert_ne by congruence]. }
  split; [|split; [|done]]; unfold share; cbn; [|by rewrite lookup_insert_eq, Hto].
  rewrite lookup_insert_ne by congruence. rewrite Hp, Hold. cbn.
  destruct (Z.eqb_spec (old - tokens) 0) as [E|E]; [rewrite lookup_delete_eq; simpl; lia|].
  by rewrite lookup_insert_eq.
Qed.

(** The fee account differs from the user, so the fee leaves the user. *)
Lemma pay_fee_effect p a b user tokens pct option s u s' :
  0 ≤ tokens → 0 ≤ pct ≤ Fixed.COEF → shares_ok (pool s) → sound (farms s) →
  user ≠ FeesOptionOneAccount s → user ≠ FeesOptionTwoAccount s →
  pay_fee_in_lp_tokens p a b user tokens pct option s = (Ok u, s') →
  ∃ fee, 0 ≤ fee ≤ tokens ∧ share (pool s') p user = share (pool s) p user - fee ∧
    PoolXyk.LockerData (pool s') = PoolXyk.LockerData (pool s) ∧ PoolXyk.now (pool s') = PoolXyk.now (pool s) ∧
    shares_ok (pool s') ∧ sound (farms s').
Proof.
  intros Ht Hpct Hok Hs Hne1 Hne2 Hx. unfold pay_fee_in_lp_tokens in Hx. cbv zeta in Hx.
  apply M_bind_ok in Hx as (? & ? & [= <- <-] & Hx). pose proof (fixed_mul_range tokens pct Ht Hpct) as Hfee.
  set (fee := balance_or 0 _) in *. exists fee. split; [done|].
  unfold on_pool, on_farms in Hx. apply zoom_ok in Hx as (f & Hx & ->).
  unfold Farming.on_xyk in Hx. apply zoom_ok in Hx as (x & Hx & ->).
  pose proof (kept_transfer_lp _ _ _ _ _ _ (proj1 Hfee) _ _ _ Hx Hok) as Hok'.
  pose proof (transfer_lp_same _ _ _ _ _ _ _ _ _ Hx (shares_nonneg _ Hok)) as [Hu _].
  apply transfer_lp_effect in Hx as (Hsh & _ & Hl & Hn & _); [|by destruct option].
  split; [done|]. split; [done|]. split; [done|]. split; [done|].
  unfold sound, Farming.UserInfos. simpl. rewrite Hu. exact Hs.
Qed.

(** ** Locks *)

Lemma update_pool_tokens_effect user lp a b (f : Farming.t L) u f' :
  Farming.update_pool_tokens user lp a b f = (Ok u, f') → 0 ≤ lp → sound f →
  sound f' ∧ PoolXyk.farmed_tokens (Farming.xyk f') user a b ≤ lp ∧
  PoolXyk.PoolProviders (Farming.xyk f') = PoolXyk.PoolProviders (Farming.xyk f) ∧
  PoolXyk.TotalIssuances (Farming.xyk f') = PoolXyk.TotalIssuances (Farming.xyk f) ∧
  PoolXyk.LockerData (Farming.xyk f') = PoolXyk.LockerData (Farming.xyk f) ∧
  PoolXyk.now (Farming.xyk f') = PoolXyk.now (Farming.xyk f).
Proof.
  intros Hx Hlp Hs. split; [by eapply update_pool_tokens_sound|].
  unfold Farming.update_pool_tokens in Hx. apply M_bind_ok in Hx as (? & ? & [= <- <-] & Hx).
  apply M_bind_ok in Hx as (infos & f1 & Hcut & [= _ <-]).
  assert (Farming.xyk f1 = Farming.xyk f) as Hxyk.
  { apply (cut_stakes_ok _ _ _ _ (Farming.UserInfos f) user []) in Hcut as (_ & -> & _); [done| |done|].
    - intros v Hv. rewrite !andb_true_iff, !bool_decide_eq_true in Hv. naive_solver.
    - by apply farm_ok_here. }
  simpl. rewrite Hxyk. split; [|done]. apply farmed_bound; [done|]. simpl. rewrite lookup_insert_eq. simpl.
  intros v Hv Hm. refine (cut_stakes_bound _ _ _ _ _ _ _ _ _ _ Hcut v Hv Hm). done.
Qed.

(** What a lock does when it succeeds. *)
Definition lock_fee (option : bool) p a b user tokens : M (t L) DispatchError unit :=
  s ← get_state;
  if option then pay_fee_in_lp_tokens p a b user tokens (Fixed.COEF / 100) option
  else
    _ ← on_pool (PoolXyk.on_ledger
          (transfer_from CeresAssetId user (FeesOptionTwoAccount s) (FeesOptionTwoCeresAmount s)));
    pay_fee_in_lp_tokens p a b user tokens (Fixed.COEF / 200) option.

Definition add_lock user a b until tokens (x : PoolXyk.t L) : gmap AccountId (list LockInfo) :=
  <[user := default [] (PoolXyk.LockerData x !! user) ++ [mkLock tokens until a b]]> (PoolXyk.LockerData x).

Lemma lock_ok user a b until pct option s s' p fees :
  PoolXyk.properties_of_pool (pool s) a b = Some (p, fees) →
  lock_liquidity (Signed user) a b until pct option s = (Ok tt, s') →
  let k := balance_or 0 (fixed_mul (share (pool s) p user) pct) in
  0 < pct ≤ Fixed.COEF ∧ PoolXyk.now (pool s) < until ∧
  k ≤ u128_wrap (share (pool s) p user - PoolXyk.locked_tokens (pool s) user a b) ∧
  ∃ s1 f, lock_fee option p a b user k s = (Ok tt, s1) ∧
    Farming.update_pool_tokens user (share (pool s1) p user) a b (farms s1) = (Ok tt, f) ∧
    s' = add_event (Locked user k until)
           (set_locks (add_lock user a b until k (Farming.xyk f)) (set_farms f s1)).
Proof.
  intros Hprop Hx. unfold lock_liquidity in Hx.
  apply M_bind_ok in Hx as (? & ? & [= <- <-] & Hx).
  apply M_bind_ok in Hx as (? & ? & [Hpct ->]%M_ensure_ok & Hx). apply andb_true_iff in Hpct as [Hp0 Hp1]. zbool.
  apply M_bind_ok in Hx as (? & ? & [= <- <-] & Hx).
  apply M_bind_ok in Hx as (? & ? & [Hnow ->]%M_ensure_ok & Hx). zbool.
  apply M_bind_ok in Hx as (props & ? & [Hprop' ->]%M_ok_or_ok & Hx).
  assert (props = (p, fees)) as -> by congruence. cbv zeta in Hx. cbn [fst] in Hx.
  change (default 0 (PoolXyk.balance_of_pool_provider (pool s) p user)) with (share (pool s) p user) in Hx.
  apply M_bind_ok in Hx as (? & ? & [_ ->]%M_ensure_ok & Hx). intros k. fold k in Hx.
  apply M_bind_ok in Hx as (? & ? & [Hle ->]%M_ensure_ok & Hx). zbool.
  apply M_bind_ok in Hx as ([] & s1 & Hfee & Hx). split; [done|]. split; [done|]. split; [done|].
  apply M_bind_ok in Hx as (? & ? & [= <- <-] & Hx). cbv zeta in Hx.
  apply M_bind_ok in Hx as ([] & s2 & Hupd & Hx). apply M_bind_ok in Hx as (? & ? & [= _ <-] & [= <-]).
  unfold on_farms in Hupd. apply zoom_ok in Hupd as (f & Hupd & ->). exists s1, f. done.
Qed.

Lemma locked_added x x' user a b until k :
  PoolXyk.LockerData x' = add_lock user a b until k x → PoolXyk.now x' = PoolXyk.now x → PoolXyk.now x < until →
  PoolXyk.locked_tokens x' user a b = u128_wrap (PoolXyk.locked_tokens x user a b + k).
Proof.
  intros Hl Hn Hu. unfold PoolXyk.locked_tokens. rewrite Hl, Hn. unfold add_lock. rewrite lookup_insert_eq. simpl.
  rewrite fold_left_app. simpl. rewrite !bool_decide_eq_true_2 by done.
  by replace (PoolXyk.now _ <? until) with true by lia.
Qed.

Lemma locked_same x x' user a b :
  PoolXyk.LockerData x' = PoolXyk.LockerData x → PoolXyk.now x' = PoolXyk.now x →
  PoolXyk.locked_tokens x' user a b = PoolXyk.locked_tokens x user a b.
Proof. intros Hl Hn. unfold PoolXyk.locked_tokens. by rewrite Hl, Hn. Qed.

Lemma lock_fee_effect p a b user tokens option s u s' :
  0 ≤ tokens → shares_ok (pool s) → sound (farms s) →
  user ≠ FeesOptionOneAccount s → user ≠ FeesOptionTwoAccount s →
  lock_fee option p a b user tokens s = (Ok u, s') →
  ∃ fee, 0 ≤ fee ≤ tokens ∧ share (pool s') p user = share (pool s) p user - fee ∧
    PoolXyk.LockerData (pool s') = PoolXyk.LockerData (pool s) ∧ PoolXyk.now (pool s') = PoolXyk.now (pool s) ∧
    shares_ok (pool s') ∧ sound (farms s').
Proof.
  intros Ht Hok Hs Hne1 Hne2 Hfee. apply M_bind_ok in Hfee as (? & ? & [= <- <-] & Hfee).
  destruct option; [by eapply pay_fee_effect in Hfee; [|lia|split; vm_compute; discriminate|..]|].
  apply M_bind_ok in Hfee as (? & s2 & Hpay & Hfee).
  unfold on_pool, on_farms in Hpay. apply zoom_ok in Hpay as (f & Hpay & ->).
  unfold Farming.on_xyk in Hpay. apply zoom_ok in Hpay as (xp & Hpay & ->).
  unfold PoolXyk.on_ledger in Hpay. apply zoom_ok in Hpay as (l & _ & ->).
  eapply pay_fee_effect in Hfee; [exact Hfee|lia|split; vm_compute; discriminate| |exact Hs|done|done].
  apply (shares_same (pool s)); done.
Qed.

(** C24. When a provider (not one of the accounts that collect the fees) has no more locked than it
    holds, a lock takes at most the pool tokens that are not locked yet, and adds exactly them to
    the locked ones; the fee leaves the provider, whose stakes in farms of the pool are cut to the
    tokens that are left.  The issuance stays the sum of the shares and the farms stay
    covered. *)
Theorem lock_liquidity_effect user a b until pct option s s' p fees :
  shares_ok (pool s) → sound (farms s) → PoolXyk.properties_of_pool (pool s) a b = Some (p, fees) →
  PoolXyk.locked_tokens (pool s) user a b ≤ share (pool s) p user →
  user ≠ FeesOptionOneAccount s → user ≠ FeesOptionTwoAccount s →
  lock_liquidity (Signed user) a b until pct option s = (Ok tt, s') →
  ∃ k fee, 0 ≤ fee ≤ k ∧
    PoolXyk.locked_tokens (pool s) user a b + k ≤ share (pool s) p user ∧
    PoolXyk.locked_tokens (pool s') user a b = PoolXyk.locked_tokens (pool s) user a b + k ∧
    share (pool s') p user = share (pool s) p user - fee ∧
    PoolXyk.farmed_tokens (pool s') user a b ≤ share (pool s') p user ∧
    shares_ok (pool s') ∧ sound (farms s').
Proof.
  intros Hok Hs Hprop Hlocked Hne1 Hne2 Hx. eapply lock_ok in Hx as (Hp & Hnow & Hle & s1 & f & Hfee & Hupd & ->); [|done].
  pose proof (share_le (pool s) p user Hok) as Hsh. pose proof (shares_range _ Hok p) as Hmax.
  pose proof (fixed_mul_range (share (pool s) p user) pct (proj1 Hsh) ltac:(lia)) as Hk.
  set (k := balance_or 0 _) in *. clearbody k. pose proof (locked_range (pool s) user a b) as Hl0.
  rewrite u128_wrap_id in Hle by lia.
  eapply lock_fee_effect in Hfee as (fee & Hfee' & Hsh1 & Hl1 & Hn1 & Hok1 & Hs1); [|lia|done..].
  exists k, fee. split; [done|]. split; [lia|].
  pose proof (share_le (pool s1) p user Hok1) as [Hpos _].
  apply update_pool_tokens_effect in Hupd as (Hsf & Hfarm & Hpp & Hti & Hld & Hnw); [|done|done].
  assert (share (Farming.xyk f) p user = share (pool s1) p user) as Hsf' by (unfold share; by rewrite Hpp).
  split_and!.
  - erewrite (locked_added (Farming.xyk f)); [|reflexivity|reflexivity|rewrite Hnw; unfold pool in *; lia].
    rewrite (locked_same (pool s)) by (unfold pool in *; congruence). apply u128_wrap_id. lia.
  - change (share (Farming.xyk f) p user = share (pool s) p user - fee). lia.
  - change (PoolXyk.farmed_tokens (Farming.xyk f) user a b ≤ share (Farming.xyk f) p user). lia.
  - eapply shares_same; [| |exact Hok1]; done.
  - exact Hsf.
Qed.
End locks.
