(* ===== verification/FarmingFaults.v ===== *)
(** * What the farms and the locks do not guarantee

    The cover of the farms and the effect of a lock have hypotheses: a pool that is alone
    with its key, rewards that the account of the pallet holds, and no more tokens locked
    than held.  The theorems here say what the same calls do without them. *)

From S2P Require Import Prelude BTreeMap FixedPoint Helpers256 FixedU256 Units OrderTypes SwapTypes PoolMath DataLayer.
From S2P Require Import World Permissions TradingPair OrderBook WorldRefine Scheduler Pallet Technical PoolXyk PoolSwaps PoolShares.
From S2P Require Import Farming FarmingProps FarmingRewards Locker LockerProps.

(** ** Farms *)

Lemma for_each_kept {S E A} (P : S → Prop) (body : A → M S E unit) xs s u s' :
  (∀ x s1 s2, body x s1 = (Ok tt, s2) → P s1 → P s2) →
  for_each xs body s = (Ok u, s') → P s → P s'.
Proof.
  intros Hb. revert s. induction xs as [|x xs IH]; intros s Hx HP; [by injection Hx as _ <-|].
  cbn [for_each] in Hx. apply M_bind_ok in Hx as ([] & s1 & H1 & Hx). eauto.
Qed.

Section farms.
Import Farming.
Context {PC : PoolConfig} {PP : PoolParams} {SK : StorageKeys} {TH : TechHash} {FC : FarmingConfig}.
Context {L : Type} `{MultiCurrency L} {IS : Issuance L} {AI : AssetInfo L} {PR : Providers L}.
Context {RF : Permissions.References L} {HK : PoolHooks L}.
Implicit Types (s : t L) (base pool reward : AssetId).

Lemma add_pool_ok origin base pool reward farm mult fee core s u s' :
  add_pool origin base pool reward farm mult fee core s = (Ok u, s') →
  pools_of s' pool reward = pools_of s pool reward ++ [mkPoolData mult fee core farm 0 0 0 false base].
Proof.
  unfold add_pool. intros Hx. apply M_bind_ok in Hx as (? & ? & ->%ensure_authority_ok & Hx).
  do 2 apply M_bind_ok in Hx as (? & ? & [_ ->]%M_ensure_ok & Hx).
  apply M_bind_ok in Hx as (? & ? & [= <- <-] & Hx). apply M_bind_ok in Hx as (? & ? & [_ ->]%M_ok_or_ok & Hx).
  cbv zeta in Hx. apply M_bind_ok in Hx as (? & ? & [_ ->]%M_ensure_ok & Hx).
  apply M_bind_ok in Hx as (? & ? & [= _ <-] & Hx). apply M_bind_ok in Hx as (? & ? & [= _ <-] & [= _ <-]).
  unfold pools_of at 1. simpl. by rewrite lookup_insert_eq.
Qed.

Lemma withdraw_pools user base pool reward amount farm s u s' :
  withdraw (Signed user) base pool reward amount farm s = (Ok u, s') →
  pools_of s' pool reward = update_where (is_pool base farm)
    (λ p, set_total (u128_wrap (total_tokens_in_pool p - amount)) p) (pools_of s pool reward).
Proof.
  unfold withdraw. rewrite with_transaction_ok. intros Hx.
  apply M_bind_ok in Hx as (? & ? & [_ ->]%ensure_signed_ok & Hx).
  apply M_bind_ok in Hx as (? & ? & [= <- <-] & Hx). cbv zeta in Hx.
  apply M_bind_ok in Hx as (infos & s1 & Hw & Hx). apply M_bind_ok in Hx as (? & ? & [_ ->]%M_ensure_ok & Hx).
  apply M_bind_ok in Hx as (? & ? & [= _ <-] & Hx). apply M_bind_ok in Hx as (? & ? & [= _ <-] & [= _ <-]).
  unfold pools_of at 1. simpl. by rewrite lookup_insert_eq.
Qed.

(** When a withdrawal follows the addition of a pool, before any deposit to it, the new entry
    loses what it never had: its total wraps around to almost the largest balance.  This is
    possible for a pool that was removed and added again, with the stakes made before. *)
Theorem readded_pool_underflows authority user base pool reward farm mult fee core amount s s1 s2 :
  add_pool authority base pool reward farm mult fee core s = (Ok tt, s1) →
  0 < amount ≤ u128_max → withdraw (Signed user) base pool reward amount farm s1 = (Ok tt, s2) →
  ∃ p, last (pools_of s2 pool reward) = Some p ∧ is_active base farm p = true ∧
    total_tokens_in_pool p = u128_max + 1 - amount.
Proof.
  intros Hadd Ham Hx. rewrite (withdraw_pools _ _ _ _ _ _ _ _ _ Hx), (add_pool_ok _ _ _ _ _ _ _ _ _ _ _ Hadd).
  unfold update_where. rewrite fmap_app, list_fmap_singleton, last_snoc. eexists. split; [reflexivity|].
  assert (is_pool base farm (mkPoolData mult fee core farm 0 0 0 false base) = true) as ->.
  { unfold is_pool. simpl. by rewrite !bool_decide_eq_true_2. }
  unfold is_active, is_pool. simpl. rewrite !bool_decide_eq_true_2 by done. split; [done|].
  unfold u128_wrap. replace (0 - amount) with ((u128_max + 1 - amount) + (-1) * (u128_max + 1)) by lia.
  rewrite Z.mod_add by done. apply Z.mod_small. lia.
Qed.

(** At a redenomination the information on [TBCD] as a reward stays as it was, and its
    divided allocations replace the information on [XOR]. *)
Theorem denomination_misplaces_tokens factor s s' i :
  XOR ≠ TBCD → TokenInfos s !! TBCD = Some i → on_denominate factor s = (Ok tt, s') →
  let div x := default x (u128_checked_div x factor) in
  TokenInfos s' !! TBCD = Some i ∧
  TokenInfos s' !! XOR = Some (mkTokenInfo (farms_total_multiplier i) (staking_total_multiplier i)
    (token_per_block i) (div (farms_allocation i)) (div (staking_allocation i)) (div (team_allocation i))
    (team_account i)).
Proof.
  intros Hne Hi Hx div. unfold on_denominate in Hx. apply M_bind_ok in Hx as ([] & s1 & H1 & Hx).
  assert (TokenInfos s1 !! TBCD = Some i) as Hi1.
  { unfold update_token_info in H1. apply M_bind_ok in H1 as (? & ? & [= <- <-] & H1).
    destruct (TokenInfos s !! XOR); [|by injection H1 as <-]. injection H1 as <-. simpl.
    by rewrite lookup_insert_ne. }
  apply M_bind_ok in Hx as ([] & s2 & H2 & Hx). unfold update_token_info in H2.
  apply M_bind_ok in H2 as (? & ? & [= <- <-] & H2). rewrite Hi1 in H2. injection H2 as <-.
  apply M_bind_ok in Hx as (? & ? & [= <- <-] & Hx). apply M_bind_ok in Hx as ([] & s3 & H3 & Hx).
  set (s2 := set_tokens _ s1) in *.
  apply (for_each_kept (λ s, TokenInfos s = TokenInfos s2)) in H3; [| |done].
  2: { intros [[pa ra] infos] a1 a2 Hb. destruct (existsb _ _); by injection Hb as <-. }
  apply (for_each_kept (λ s, TokenInfos s = TokenInfos s2)) in Hx; [| |done].
  2: { intros [who infos] a1 a2 Hb. destruct (existsb _ _); by injection Hb as <-. }
  rewrite Hx. simpl. by rewrite lookup_insert_ne, lookup_insert_eq.
Qed.
End farms.

(** ** Stakes of the rewarded asset *)

Section stakes.
Import Farming.
Context {PC : PoolConfig} {PP : PoolParams} {SK : StorageKeys} {TH : TechHash} {FC : FarmingConfig}.
Context {L : Type} `{MultiCurrency L} {IS : Issuance L} {AI : AssetInfo L} {PR : Providers L}.
Context {RF : Permissions.References L} {HK : PoolHooks L} `{!MultiCurrencyLaws L}.
Implicit Types (s : t L) (base asset : AssetId).

(** What the account of the pallet holds. *)
Definition farm_balance s asset : Z := free_balance (farming_ledger s) asset farming_account.

Lemma paid_out asset user amount s u s' : user ≠ farming_account →
  transfer asset farming_account user amount s = (Ok u, s') →
  amount ≤ farm_balance s asset ∧ farm_balance s' asset = farm_balance s asset - amount.
Proof.
  intros Hne Hx. unfold transfer, on_xyk in Hx. apply zoom_ok in Hx as (x & Hx & ->).
  unfold PoolXyk.on_ledger in Hx. apply zoom_ok in Hx as (l & Hx & ->). unfold transfer_from in Hx.
  apply M_bind_ok in Hx as (? & ? & [= <- <-] & Hx). apply M_bind_ok in Hx as (? & ? & [_ ->]%M_lift_ok & Hx).
  unfold checked_transfer in Hx. destruct (currency_transfer _ _ _ _ _) as [[[]|e] l'] eqn:Ht;
    [|by destruct (asset_exists _ _)]. injection Hx as _ <-.
  apply transfer_spec in Ht as [Hle Hb]. unfold farm_balance, farming_ledger. simpl. split; [exact Hle|].
  rewrite Hb, moved_eq, moved_who by congruence. lia.
Qed.

Lemma pay_rewards_held user base asset infos paid rest s r s' : user ≠ farming_account →
  (∀ u, u ∈ infos → 0 ≤ rewards u) →
  pay_rewards user (is_stake base asset asset false) infos paid rest s = (Ok r, s') →
  farm_balance s' asset ≤ farm_balance s asset ∧
  (existsb (is_stake base asset asset false) infos = true → farm_balance s' asset < farm_balance s asset) ∧
  UserInfos s' = UserInfos s ∧ ∀ k, user_sum pooled_tokens k r.1.1 = user_sum pooled_tokens k infos.
Proof.
  intros Hne. revert paid rest s r. induction infos as [|u infos IH]; intros paid rest s r Hpos Hx.
  { injection Hx as <- <-. simpl. split; [lia|]. done. }
  cbn [pay_rewards] in Hx. cbn [existsb].
  destruct (is_stake base asset asset false u) eqn:Hm.
  - apply M_bind_ok in Hx as (? & ? & [Hz ->]%M_ensure_ok & Hx). apply M_bind_ok in Hx as (? & ? & [_ ->]%M_ensure_ok & Hx).
    apply M_bind_ok in Hx as (? & s1 & Ht & Hx). apply M_bind_ok in Hx as ([[l p] q] & s2 & Hrest & [= <- <-]).
    pose proof (transfer_same _ _ _ _ _ _ _ Ht) as [_ Hu1]. apply is_stake_key in Hm as Hk.
    assert (reward_asset u = asset) as Hra by (unfold stake_key in Hk; by injection Hk).
    rewrite Hra in Ht. apply paid_out in Ht as [_ Hh]; [|done].
    apply IH in Hrest as (Hle & _ & Hu & Hp); [|intros v Hv; apply Hpos; by right]. cbn [fst snd] in *.
    assert (0 ≤ rewards u) by (apply Hpos; left). apply negb_true_iff in Hz. zbool.
    split; [lia|]. split; [intros _; lia|]. split; [congruence|]. intros k. by rewrite !user_sum_cons, Hp.
  - apply M_bind_ok in Hx as ([[l p] q] & s2 & Hrest & [= <- <-]).
    apply IH in Hrest as (Hle & Hlt & Hu & Hp); [|intros v Hv; apply Hpos; by right]. cbn [fst snd] in *.
    split; [lia|]. split; [done|]. split; [done|]. intros k. by rewrite !user_sum_cons, Hp.
Qed.

Lemma withdraw_stakes_funds user mine asset amount infos s r s' : user ≠ farming_account →
  withdraw_stakes user mine asset false amount infos s = (Ok r, s') → existsb mine infos = true →
  amount ≤ farm_balance s asset.
Proof.
  intros Hne. revert r s'. induction infos as [|v l IH]; intros r s' Hws Hex; [done|].
  cbn [withdraw_stakes existsb] in *. apply M_bind_ok in Hws as (v' & s2 & Hv & Hws). destruct (mine v).
  - apply M_bind_ok in Hv as (? & ? & [_ ->]%M_ensure_ok & Hv). apply M_bind_ok in Hv as (? & s3 & Ht & _).
    by apply paid_out in Ht as [? _].
  - injection Hv as <- <-. apply M_bind_ok in Hws as (rest & s3 & Hws & _). by eapply IH.
Qed.

Lemma withdraw_needs_funds user base asset amount s u s' : user ≠ farming_account →
  withdraw (Signed user) base asset asset amount false s = (Ok u, s') → amount ≤ farm_balance s asset.
Proof.
  intros Hne. unfold withdraw. rewrite with_transaction_ok. intros Hx.
  apply M_bind_ok in Hx as (who & ? & [Hw ->]%ensure_signed_ok & Hx). injection Hw as <-.
  apply M_bind_ok in Hx as (? & ? & [= <- <-] & Hx). cbv zeta in Hx.
  apply M_bind_ok in Hx as (infos & s1 & Hws & Hx). apply M_bind_ok in Hx as (? & ? & [Hex _]%M_ensure_ok & _).
  by eapply withdraw_stakes_funds.
Qed.

(** C40. In a pool that rewards stakes of an asset with the same asset, rewards are paid from whatever
    the account of the pallet holds.  If it holds no more than the stakes when a user collects
    rewards, it holds less than the stakes afterwards: they cannot all be returned, and a
    withdrawal of more than is left fails. *)
Theorem rewards_paid_from_stakes user base asset s s' :
  let stakes s := staked pooled_tokens (base, asset, asset, false) (UserInfos s) in
  sound s → user ≠ farming_account →
  existsb (is_stake base asset asset false) (user_infos_of s user) = true →
  farm_balance s asset ≤ stakes s → get_rewards (Signed user) base asset asset false s = (Ok tt, s') →
  farm_balance s' asset < stakes s' ∧ stakes s' = stakes s ∧
  ∀ who amount, who ≠ farming_account → farm_balance s' asset < amount →
    fst (withdraw (Signed who) base asset asset amount false s') ≠ Ok tt.
Proof.
  intros stakes Hs Hne Hex Hheld Hx.
  assert (∀ u, u ∈ user_infos_of s user → 0 ≤ rewards u) as Hpos.
  { intros u Hu. unfold user_infos_of in Hu. destruct (UserInfos s !! user) eqn:E; [|by apply elem_of_nil in Hu].
    by eapply (ok_amounts _ _ Hs). }
  unfold get_rewards in Hx. rewrite with_transaction_ok in Hx.
  apply M_bind_ok in Hx as (who & ? & [Hw ->]%ensure_signed_ok & Hx). injection Hw as <-.
  apply M_bind_ok in Hx as (? & ? & [= <- <-] & Hx). cbv zeta in Hx.
  apply M_bind_ok in Hx as (p & ? & [_ ->]%M_ok_or_ok & Hx).
  apply M_bind_ok in Hx as ([[infos paid] rest] & s1 & Hpay & Hx).
  apply pay_rewards_held in Hpay as (_ & Hlt & Hu & Hsum); [|done..]. specialize (Hlt Hex). simpl in Hsum.
  apply M_bind_ok in Hx as (? & ? & [= _ <-] & Hx). apply M_bind_ok in Hx as (? & ? & [= _ <-] & [= <-]).
  set (s' := add_event _ _).
  assert (farm_balance s' asset = farm_balance s1 asset) as Hh by done.
  assert (stakes s' = stakes s) as Hst.
  { unfold stakes. change (UserInfos s') with (<[user := infos]> (UserInfos s1)). rewrite Hu, staked_insert, Hsum.
    unfold user_infos_of. lia. }
  split; [lia|]. split; [done|]. intros who amount Hwho Ham Hwd.
  destruct (withdraw (Signed who) base asset asset amount false s') as [r s2] eqn:E. simpl in Hwd. subst r.
  apply withdraw_needs_funds in E; [lia|done].
Qed.
End stakes.

(** ** Locks *)

Section locks.
Import Locker.
Context {PC : PoolConfig} {PP : PoolParams} {SK : StorageKeys} {TH : TechHash} {FC : FarmingConfig}.
Context {LC : LockerConfig}.
Context {L : Type} `{MultiCurrency L} {IS : Issuance L} {AI : AssetInfo L} {PR : Providers L}.
Context {RF : Permissions.References L} {HK : PoolHooks L} {CO : PoolConfigOk}.
Implicit Types (s : t L) (x : PoolXyk.t L).

(** A part [1 / c] of an amount. *)
Lemma fixed_mul_part v c : 0 ≤ v ≤ i128_max → 0 < c → Fixed.COEF mod c = 0 →
  balance_or 0 (fixed_mul v (Fixed.COEF / c)) = v / c.
Proof.
  intros Hv Hc Hmod. assert (Fixed.COEF = c * (Fixed.COEF / c)) as Hco by (apply Z_div_exact_full_2; lia).
  assert (0 < Fixed.COEF / c ≤ Fixed.COEF) as Hq.
  { split; [|apply Z.div_le_upper_bound; unfold Fixed.COEF; lia]. unfold Fixed.COEF in *. nia. }
  assert (Fixed.COEF ≤ i128_max) by (vm_compute; discriminate).
  unfold fixed_mul. rewrite !FixedWrapper.from_int_ok by lia. unfold FixedWrapper.mul, FixedWrapper.lift2. simpl.
  rewrite Fixed.rmul_floor_nonneg by lia.
  assert (v * (Fixed.COEF / c) / Fixed.COEF = v / c) as ->.
  { rewrite Hco at 2. rewrite Z.div_mul_cancel_r by lia. done. }
  pose proof (Z.div_pos v c ltac:(lia) Hc). assert (v / c ≤ v) by (apply Z.div_le_upper_bound; nia).
  unfold balance_or, FixedWrapper.try_into_balance.
  assert (Fixed.try_i128 (v / c) = Ok (v / c)) as ->.
  { apply Fixed.try_i128_ok. split; [done|]. unfold i128_min. lia. }
  by replace (0 <=? v / c) with true by lia.
Qed.

Lemma fixed_mul_whole v : 0 ≤ v ≤ i128_max → balance_or 0 (fixed_mul v Fixed.COEF) = v.
Proof. intros Hv. rewrite <- (Z.div_1_r Fixed.COEF) at 1. rewrite fixed_mul_part by done. apply Z.div_1_r. Qed.

Lemma shares_two x p who who' : shares_ok x → who ≠ who' → share x p who + share x p who' ≤ u128_max.
Proof.
  intros [Hs Hn Hr] Hne. specialize (Hr p). rewrite <- Hs in Hr.
  pose proof (pool_sum_delete (PoolXyk.PoolProviders x) p (p, who)) as Hd.
  pose proof (pool_sum_share (delete (p, who) (PoolXyk.PoolProviders x)) p who') as Hw.
  rewrite lookup_delete_ne in Hw by congruence. unfold share, of_pool in *. simpl in Hd.
  rewrite bool_decide_eq_true_2 in Hd by done.
  destruct Hw as [_ Hw]; [|lia]. intros k v [_ Hk]%lookup_delete_Some. by eapply Hn.
Qed.

Lemma transfer_lp_run p a b from to tokens x :
  from ≠ to → 0 ≤ tokens ≤ share x p from → 0 < share x p from ≤ u128_max → 0 < share x p to →
  ∃ x', PoolXyk.transfer_lp_tokens p a b from to tokens x = (Ok tt, x').
Proof.
  intros Hne Ht Hf Hto. unfold share in *. unfold PoolXyk.transfer_lp_tokens. exec. cbv zeta.
  destruct (PoolXyk.PoolProviders x !! (p, from)) as [old|] eqn:Eo; [|simpl in *; lia]. simpl in *. exec.
  assert (u128_checked_sub old tokens = Some (old - tokens)) as -> by (apply checked_Some; lia). exec.
  assert (PoolXyk.PoolProviders (PoolXyk.set_providers (if old - tokens =? 0
    then delete (p, from) (PoolXyk.PoolProviders x)
    else <[(p, from) := old - tokens]> (PoolXyk.PoolProviders x)) x) !! (p, to)
    = PoolXyk.PoolProviders x !! (p, to)) as ->.
  { simpl. destruct (_ =? 0); [by rewrite lookup_delete_ne by congruence|by rewrite lookup_insert_ne by congruence]. }
  replace (default 0 (PoolXyk.PoolProviders x !! (p, to)) =? 0) with false by lia. simpl. exec. eexists. done.
Qed.

Lemma cut_stakes_total others base pool farm lp infos (f : Farming.t L) :
  ∃ r f', Farming.cut_stakes others base pool farm lp infos f = (Ok r, f') ∧ Farming.xyk f' = Farming.xyk f.
Proof.
  revert f. induction infos as [|u infos IH]; intros f; [by eexists _, _|]. cbn [Farming.cut_stakes].
  match goal with |- context [(?c ≫= _) f] => assert (∃ v f1, c f = (Ok v, f1) ∧ Farming.xyk f1 = Farming.xyk f) as (v & f1 & Hv & E1) end.
  { destruct (others u && _); by eexists _, _. }
  destruct (IH f1) as (r & f' & Hr & E2). eexists _, f'.
  rewrite (M_bind_run_ok _ _ _ _ _ Hv), (M_bind_run_ok _ _ _ _ _ Hr). split; [done|congruence].
Qed.

Lemma update_pool_tokens_total user lp a b (f : Farming.t L) :
  ∃ f' users, Farming.update_pool_tokens user lp a b f = (Ok tt, f') ∧
    Farming.xyk f' = PoolXyk.set_users users (Farming.xyk f).
Proof.
  unfold Farming.update_pool_tokens. exec. edestruct cut_stakes_total as (r & f' & Hr & Hx).
  rewrite (M_bind_run_ok _ _ _ _ _ Hr). eexists _, _. split; [done|]. simpl. by rewrite Hx.
Qed.

(** A lock of all tokens succeeds as soon as the unchecked difference is large enough. *)
Lemma full_lock_run user a b until s p fees :
  PoolXyk.properties_of_pool (pool s) a b = Some (p, fees) → PoolXyk.now (pool s) < until →
  0 < share (pool s) p user ≤ i128_max → 0 < share (pool s) p (FeesOptionOneAccount s) →
  user ≠ FeesOptionOneAccount s →
  share (pool s) p user ≤ u128_wrap (share (pool s) p user - PoolXyk.locked_tokens (pool s) user a b) →
  ∃ s', lock_liquidity (Signed user) a b until Fixed.COEF true s = (Ok tt, s').
Proof.
  intros Hprop Hnow Hsh Hone Hne Hle. unfold lock_liquidity, ensure_signed, check. exec.
  replace (PoolXyk.now (pool s) <? until) with true by lia. exec. rewrite Hprop. exec. cbv zeta. cbn [fst].
  change (default 0 (PoolXyk.balance_of_pool_provider (pool s) p user)) with (share (pool s) p user).
  rewrite fixed_mul_whole by lia. replace (share (pool s) p user =? 0) with false by lia. exec.
  replace (share (pool s) p user <=? _) with true by lia. exec.
  destruct (transfer_lp_run p a b user (FeesOptionOneAccount s) (share (pool s) p user / 100) (pool s))
    as (x & Hx); [done| |unfold i128_max, u128_max in *; lia|done|].
  { split; [apply Z.div_pos; lia|apply Z.div_le_upper_bound; lia]. }
  assert (pay_fee_in_lp_tokens p a b user (share (pool s) p user) (Fixed.COEF / 100) true s
    = (Ok tt, set_farms (Farming.set_xyk x (farms s)) s)) as Hfee.
  { unfold pay_fee_in_lp_tokens. cbv zeta. rewrite fixed_mul_part by (lia || done). exec.
    unfold on_pool, on_farms, Farming.on_xyk, zoom. unfold pool in *. by rewrite Hx. }
  rewrite (M_bind_run_ok _ _ _ _ _ Hfee). exec. cbv zeta. set (s1 := set_farms _ s).
  destruct (update_pool_tokens_total user
    (default 0 (PoolXyk.balance_of_pool_provider (pool s1) p user)) a b (farms s1)) as (f & users & Hf & _).
  assert (on_farms (Farming.update_pool_tokens user (default 0 (PoolXyk.balance_of_pool_provider (pool s1) p user)) a b) s1
    = (Ok tt, set_farms f s1)) as Hupd by (unfold on_farms, zoom; by rewrite Hf).
  rewrite (M_bind_run_ok _ _ _ _ _ Hupd). eexists. done.
Qed.

Lemma full_lock_effect user a b until s s' p fees :
  PoolXyk.properties_of_pool (pool s) a b = Some (p, fees) → user ≠ FeesOptionOneAccount s →
  0 ≤ share (pool s) p user ≤ i128_max →
  lock_liquidity (Signed user) a b until Fixed.COEF true s = (Ok tt, s') →
  PoolXyk.now (pool s) < until ∧ PoolXyk.now (pool s') = PoolXyk.now (pool s) ∧
  PoolXyk.properties_of_pool (pool s') a b = Some (p, fees) ∧ FeesOptionOneAccount s' = FeesOptionOneAccount s ∧
  share (pool s') p user = share (pool s) p user - share (pool s) p user / 100 ∧
  share (pool s') p (FeesOptionOneAccount s)
  = u128_wrap (share (pool s) p (FeesOptionOneAccount s) + share (pool s) p user / 100) ∧
  PoolXyk.locked_tokens (pool s') user a b
  = u128_wrap (PoolXyk.locked_tokens (pool s) user a b + share (pool s) p user).
Proof.
  intros Hprop Hne Hv Hx. eapply lock_ok in Hx as (_ & Hnow & _ & s1 & f & Hfee & Hupd & ->); [|done].
  rewrite fixed_mul_whole in * by done. unfold lock_fee in Hfee. apply M_bind_ok in Hfee as (? & ? & [= <- <-] & Hfee).
  unfold pay_fee_in_lp_tokens in Hfee. cbv zeta in Hfee. rewrite fixed_mul_part in Hfee by (lia || done).
  apply M_bind_ok in Hfee as (? & ? & [= <- <-] & Hfee).
  unfold on_pool, on_farms in Hfee. apply zoom_ok in Hfee as (g & Hfee & ->).
  unfold Farming.on_xyk in Hfee. apply zoom_ok in Hfee as (x & Hfee & ->).
  apply transfer_lp_effect in Hfee as (Hfrom & Hto & Hl & Hn & Hpr); [|done].
  match goal with H : Farming.update_pool_tokens _ ?lp _ _ ?g = _ |- _ =>
    destruct (update_pool_tokens_total user lp a b g) as (f' & users & Hf & Hxyk) end.
  rewrite Hf in Hupd. injection Hupd as ->. simpl in Hxyk. set (sl := add_event _ _).
  assert (pool sl = PoolXyk.set_lockers (add_lock user a b until (share (pool s) p user) x)
    (PoolXyk.set_users users x)) as Hs'.
  { unfold sl, set_locks, pool. simpl. unfold add_lock. by rewrite Hxyk. }
  rewrite Hs'. split; [done|]. split; [exact Hn|].
  split; [unfold PoolXyk.properties_of_pool in *; simpl; by rewrite Hpr|]. split; [done|].
  split; [exact Hfrom|]. split; [exact Hto|].
  erewrite (locked_added x); [|reflexivity|reflexivity|by rewrite Hn].
  by rewrite (locked_same (pool s) x).
Qed.

(** C39. A provider who has locked all pool tokens has paid the fee out of them, so that more is locked
    than held.  The unchecked difference then wraps around, and the provider can lock everything
    again: more is locked in the end than was ever held. *)
Theorem relock_exceeds_share user a b until s s1 p fees :
  shares_ok (pool s) → PoolXyk.properties_of_pool (pool s) a b = Some (p, fees) →
  user ≠ FeesOptionOneAccount s → PoolXyk.locked_tokens (pool s) user a b = 0 →
  100 ≤ share (pool s) p user ≤ i128_max →
  lock_liquidity (Signed user) a b until Fixed.COEF true s = (Ok tt, s1) →
  ∃ s2, lock_liquidity (Signed user) a b until Fixed.COEF true s1 = (Ok tt, s2) ∧
    share (pool s) p user < PoolXyk.locked_tokens (pool s2) user a b.
Proof.
  intros Hok Hprop Hne Hl0 Hv Hx. set (v := share (pool s) p user) in *.
  pose proof (shares_two (pool s) p user (FeesOptionOneAccount s) Hok Hne) as Htwo. fold v in Htwo.
  pose proof (share_le (pool s) p (FeesOptionOneAccount s) Hok) as [Hone _].
  assert (1 ≤ v / 100 ≤ v) as Hfee by (split; [apply Z.div_le_lower_bound|apply Z.div_le_upper_bound]; lia).
  assert (v / 100 < v) by (apply Z.div_lt_upper_bound; lia).
  apply (full_lock_effect _ _ _ _ _ _ p fees) in Hx as (Hnow & Hn1 & Hprop1 & Ho1 & Hsh1 & Hone1 & Hl1); [|done|done|lia].
  fold v in Hsh1, Hone1, Hl1. rewrite Hl0, u128_wrap_id in Hl1 by (unfold i128_max, u128_max in *; lia).
  rewrite u128_wrap_id in Hone1 by lia.
  destruct (full_lock_run user a b until s1 p fees) as (s2 & Hs2).
  - done.
  - lia.
  - lia.
  - rewrite Ho1. lia.
  - congruence.
  - rewrite Hl1, Hsh1. unfold u128_wrap.
    replace (v - v / 100 - (0 + v)) with ((u128_max + 1 - v / 100) + (-1) * (u128_max + 1)) by lia.
    rewrite Z.mod_add, Z.mod_small; unfold i128_max, u128_max in *; lia.
  - exists s2. split; [done|].
    apply (full_lock_effect _ _ _ _ _ _ p fees) in Hs2 as (_ & _ & _ & _ & _ & _ & ->); [|done|congruence|lia].
    rewrite Hl1, Hsh1, u128_wrap_id; unfold i128_max, u128_max in *; lia.
Qed.
End locks.
