(* ===== verification/FarmingSamples.v ===== *)
(** * Farms and locks for the examples

    A farm over the pool of [PoolSamples] with two providers, from its registration to
    the first rewards; a pool of stakes that are rewarded in the staked asset; and the
    theorems on farms and locks at them. *)

From S2P Require Import Prelude BTreeMap FixedPoint Helpers256 FixedU256 Units OrderTypes SwapTypes PoolMath DataLayer.
From S2P Require Import StorageProps World Permissions TradingPair OrderBook WorldRefine Scheduler Pallet Technical.
From S2P Require Import PoolXyk PoolSwaps PoolShares PoolLiquidity PoolSamples Farming FarmingProps FarmingRewards Locker.
From S2P Require Import LockerProps FarmingFaults.
Import PoolSamples.

Module FarmingSamples.

Abbreviation Ledger := (gmap (AssetId * AccountId) Balance) (only parsing).

(** Asset 2 is the token of the farms; 3 is staked for itself. *)
#[export] Instance farming_config : FarmingConfig := {|
  DemeterAssetId := 2%N;
  BLOCKS_PER_HOUR_AND_A_HALF := 900;
  BLOCKS_PER_ONE_DAY := 14400;
  farming_account := 21%N
|}.
#[export] Instance locker_config : LockerConfig := {| CeresAssetId := 4%N; locker_day := 14400 |}.

Definition authority : AccountId := 51%N.
Definition team : AccountId := 55%N.

Definition funded : PoolXyk.t Ledger :=
  PoolXyk.set_users ∅ (PoolXyk.set_ledger
    (<[(2%N, farming_account) := 1000 * token]> (<[(3%N, 7%N) := 100 * token]>
       (<[(3%N, 9%N) := 100 * token]> (PoolXyk.ledger second_pool)))) second_pool).

Definition no_farms : Farming.t Ledger := Farming.mk funded ∅ ∅ authority 53%N [].

Abbreviation run c s := (snd (c s)) (only parsing).

(** Half of the token of a hundredth per block goes to farms, 30 % to stakes. *)
Definition register (asset : AssetId) : M (Farming.t Ledger) DispatchError unit :=
  Farming.register_token (Signed authority) asset (token / 100) (token / 2) (3 * token / 10) (token / 5) team.
Definition open_farm : M (Farming.t Ledger) DispatchError unit :=
  Farming.add_pool (Signed authority) 0 1 2 true 1 (token / 100) false.
Definition join (who : AccountId) (amount : Balance) : M (Farming.t Ledger) DispatchError unit :=
  Farming.deposit (Signed who) 0 1 2 true amount.

Definition registered : Farming.t Ledger := run (register 2) no_farms.
Definition opened : Farming.t Ledger := run open_farm registered.
Definition joined : Farming.t Ledger := run (join 9 (5 * token)) opened.
Definition shared : Farming.t Ledger := run (join 7 (50 * token)) joined.
Definition assigned : Farming.t Ledger := run (Farming.on_initialize 14400) shared.
Definition rewarded : Farming.t Ledger := run (Farming.on_initialize 15300) assigned.

Definition first_of (l : list PoolData) : PoolData :=
  match l with p :: _ => p | [] => mkPoolData 0 0 false false 0 0 0 false 0 end.
Definition farm : PoolData := first_of (Farming.pools_of rewarded 1 2).
Definition stake : UserInfo :=
  match Farming.user_infos_of rewarded 9 with u :: _ => u | [] => mkUserInfo 0 0 0 false 0 0 end.

Definition typed_map (m : gmap (AccountId * AccountId) Balance) : bool :=
  forallb (λ e, 0 <=? snd e) (map_to_list m).
Lemma typed_map_ok m k v : typed_map m = true → m !! k = Some v → 0 ≤ v.
Proof.
  unfold typed_map. rewrite forallb_forall. intros Hall Hk. specialize (Hall (k, v)). simpl in Hall.
  apply Z.leb_le, Hall. apply list_elem_of_In. by apply elem_of_map_to_list.
Qed.

Definition fitting (m : gmap (AssetId * AssetId) (list PoolData)) : bool :=
  forallb (λ e, forallb (λ p, pool_rewards p + Farming.amount_per_hour p <=? u128_max) (snd e)) (map_to_list m).
Lemma fitting_ok m : fitting m = true → ∀ k infos, m !! k = Some infos → rewards_fit infos.
Proof.
  unfold fitting. rewrite forallb_forall. intros Hall k infos Hk p Hp. specialize (Hall (k, infos)).
  simpl in Hall. rewrite forallb_forall in Hall. apply Z.leb_le, Hall; [|by apply list_elem_of_In].
  apply list_elem_of_In. by apply elem_of_map_to_list.
Qed.

Definition room (amount : Balance) (ps : list PoolData) : bool :=
  forallb (λ p, total_tokens_in_pool p + amount <=? u128_max) ps.
Lemma room_ok amount ps : room amount ps = true → ∀ p, p ∈ ps → total_tokens_in_pool p + amount ≤ u128_max.
Proof. unfold room. rewrite forallb_forall. intros Hall p Hp. by apply Z.leb_le, Hall, list_elem_of_In. Qed.

Lemma register_runs : register 2 no_farms = (Ok tt, registered).
Proof. unfold registered. apply (ran (register 2) no_farms tt). vm_compute. reflexivity. Qed.
Lemma open_farm_runs : open_farm registered = (Ok tt, opened).
Proof. unfold opened. apply (ran open_farm registered tt). vm_compute. reflexivity. Qed.
Lemma join_9_runs : join 9 (5 * token) opened = (Ok tt, joined).
Proof. unfold joined. apply (ran (join 9 (5 * token)) opened tt). vm_compute. reflexivity. Qed.
Lemma join_7_runs : join 7 (50 * token) joined = (Ok tt, shared).
Proof. unfold shared. apply (ran (join 7 (50 * token)) joined tt). vm_compute. reflexivity. Qed.
Lemma assigned_runs : Farming.on_initialize 14400 shared = (Ok tt, assigned).
Proof. unfold assigned. apply (ran (Farming.on_initialize 14400) shared tt). vm_compute. reflexivity. Qed.
Lemma rewarded_runs : Farming.on_initialize 15300 assigned = (Ok tt, rewarded).
Proof. unfold rewarded. apply (ran (Farming.on_initialize 15300) assigned tt). vm_compute. reflexivity. Qed.

Lemma deposit_step who base pool reward farm amount s s' : (0 <=? amount) && (amount <=? u128_max) = true →
  typed_map (PoolXyk.PoolProviders (Farming.xyk s)) = true → room amount (Farming.pools_of s pool reward) = true →
  Farming.deposit (Signed who) base pool reward farm amount s = (Ok tt, s') → farm_step s s'.
Proof.
  intros [Hlo Hhi]%andb_true_iff Hty Hroom Hrun. zbool. eapply step_deposit; [split; [exact Hlo|exact Hhi]| | |exact Hrun].
  - intros k v. by apply typed_map_ok.
  - by apply room_ok.
Qed.

Lemma rewarded_reached : farms_reached rewarded.
Proof.
  exists no_farms. split; [done|]. split; [vm_compute; reflexivity|].
  apply (rtc_l _ _ registered); [exact (step_register no_farms _ _ _ _ _ _ _ _ register_runs)|].
  apply (rtc_l _ _ opened).
  { apply (step_add_pool _ (Signed authority) 0 1 2 true 1 (token / 100) false).
    - vm_compute. discriminate.
    - exact open_farm_runs. }
  apply (rtc_l _ _ joined).
  { apply (deposit_step 9 0 1 2 true (5 * token)); [vm_compute; reflexivity..|exact join_9_runs]. }
  apply (rtc_l _ _ shared).
  { apply (deposit_step 7 0 1 2 true (50 * token)); [vm_compute; reflexivity..|exact join_7_runs]. }
  apply (rtc_l _ _ assigned).
  { apply (step_initialize _ 14400); [apply fitting_ok; vm_compute; reflexivity|exact assigned_runs]. }
  apply rtc_once. apply (step_initialize _ 15300); [apply fitting_ok; vm_compute; reflexivity|exact rewarded_runs].
Qed.

Lemma farm_alone : lone 1 2 (Farming.pools_of rewarded 1 2) farm.
Proof.
  replace (Farming.pools_of rewarded 1 2) with [farm] by (vm_compute; reflexivity).
  unfold lone. by rewrite filter_cons_True, filter_nil.
Qed.
Lemma farm_of_pool : Farming.is_pool 0 true farm = true.
Proof. vm_compute. reflexivity. Qed.
Lemma stake_held : stake ∈ Farming.user_infos_of rewarded 9.
Proof. replace (Farming.user_infos_of rewarded 9) with [stake] by (vm_compute; reflexivity). left. Qed.
Lemma stake_of_farm : Farming.is_stake 0 1 2 true stake = true.
Proof. vm_compute. reflexivity. Qed.
Lemma stake_rewarded : 0 < rewards stake.
Proof. vm_compute. reflexivity. Qed.

Definition payment : M (Farming.t Ledger) DispatchError unit :=
  Farming.transfer 2 farming_account 9 (rewards stake).
Lemma payment_runs :
  Farming.transfer 2 farming_account 9 (rewards stake) rewarded = (Ok tt, snd (payment rewarded)).
Proof. apply (ran payment rewarded tt). vm_compute. reflexivity. Qed.

(** Account 7 locks all its pool tokens until the time 1000, at a fee of 1 %. *)
Definition unlocked : Locker.t Ledger := Locker.mk rewarded 61%N 63%N (20 * token) authority [].
Definition lock_all : M (Locker.t Ledger) DispatchError unit :=
  Locker.lock_liquidity (Signed 7) 0 1 1000 token true.
Definition locked : Locker.t Ledger := run lock_all unlocked.

(** Shares of a single pool. *)
Lemma one_pool_shares (x : PoolXyk.t Ledger) p :
  forallb (λ e, bool_decide (fst (fst e) = p) && (0 <=? snd e)) (map_to_list (PoolXyk.PoolProviders x)) = true →
  forallb (λ e, bool_decide (fst e = p) && (snd e <=? u128_max)) (map_to_list (PoolXyk.TotalIssuances x)) = true →
  (pool_sum (PoolXyk.PoolProviders x) p =? issued x p) = true → shares_ok x.
Proof.
  rewrite !forallb_forall. intros Hp Hi Hs%Z.eqb_eq.
  assert (∀ k v, PoolXyk.PoolProviders x !! k = Some v → fst k = p ∧ 0 ≤ v) as Hp'.
  { intros k v Hk%elem_of_map_to_list%list_elem_of_In. specialize (Hp _ Hk).
    apply andb_true_iff in Hp as [H1%bool_decide_eq_true H2]. zbool. done. }
  assert (∀ q v, PoolXyk.TotalIssuances x !! q = Some v → q = p ∧ v ≤ u128_max) as Hi'.
  { intros q v Hq%elem_of_map_to_list%list_elem_of_In. specialize (Hi _ Hq).
    apply andb_true_iff in Hi as [H1%bool_decide_eq_true H2]. zbool. done. }
  split.
  - intros q. destruct (decide (q = p)) as [->|Hne]; [done|]. unfold issued.
    destruct (PoolXyk.TotalIssuances x !! q) as [v|] eqn:E; [by destruct (Hi' q v E)|]. simpl.
    apply sum_by_zero. intros [k v] Hk%elem_of_map_to_list. destruct (Hp' k v Hk) as [Hk' _].
    unfold of_pool. rewrite bool_decide_eq_false_2; [done|]. simpl. congruence.
  - intros k v Hk. by destruct (Hp' k v Hk).
  - intros q. unfold issued. destruct (PoolXyk.TotalIssuances x !! q) as [v|] eqn:E; [by destruct (Hi' q v E)|].
    simpl. vm_compute. discriminate.
Qed.

Lemma lock_all_runs : Locker.lock_liquidity (Signed 7) 0 1 1000 token true unlocked = (Ok tt, locked).
Proof. apply (ran lock_all unlocked tt). vm_compute. reflexivity. Qed.
Lemma unlocked_properties : PoolXyk.properties_of_pool (Locker.pool unlocked) 0 1 = Some (pool, fees).
Proof. vm_compute. reflexivity. Qed.
Lemma nothing_locked :
  PoolXyk.locked_tokens (Locker.pool unlocked) 7 0 1 ≤ share (Locker.pool unlocked) pool 7.
Proof. vm_compute. discriminate. Qed.
(** The farm is removed and added again; the stakes remain. *)
Definition closed_farm : Farming.t Ledger := run (Farming.remove_pool (Signed authority) 0 1 2 true) rewarded.
Definition readded : Farming.t Ledger := run open_farm closed_farm.
Definition leave_farm : M (Farming.t Ledger) DispatchError unit :=
  Farming.withdraw (Signed 9) 0 1 2 (pooled_tokens stake) true.

Lemma readded_runs : open_farm closed_farm = (Ok tt, readded).
Proof. unfold readded. apply (ran open_farm closed_farm tt). vm_compute. reflexivity. Qed.
Lemma leave_farm_runs : leave_farm readded = (Ok tt, run leave_farm readded).
Proof. apply (ran leave_farm readded tt). vm_compute. reflexivity. Qed.

(** Asset 3 is staked for rewards in asset 3, of which the pallet has none of its own. *)
Definition add_staking : M (Farming.t Ledger) DispatchError unit :=
  Farming.add_pool (Signed authority) 0 3 3 false 1 0 false.
Definition put_stake (who : AccountId) : M (Farming.t Ledger) DispatchError unit :=
  Farming.deposit (Signed who) 0 3 3 false (100 * token).
Definition staking_1 : Farming.t Ledger := run (register 3) no_farms.
Definition staking_2 : Farming.t Ledger := run add_staking staking_1.
Definition staking_3 : Farming.t Ledger := run (put_stake 7) staking_2.
Definition staking_4 : Farming.t Ledger := run (put_stake 9) staking_3.
Definition staking_5 : Farming.t Ledger := run (Farming.on_initialize 14400) staking_4.
Definition staking : Farming.t Ledger := run (Farming.on_initialize 15300) staking_5.

Lemma staking_1_runs : register 3 no_farms = (Ok tt, staking_1).
Proof. unfold staking_1. apply (ran (register 3) no_farms tt). vm_compute. reflexivity. Qed.
Lemma staking_2_runs : add_staking staking_1 = (Ok tt, staking_2).
Proof. unfold staking_2. apply (ran add_staking staking_1 tt). vm_compute. reflexivity. Qed.
Lemma staking_3_runs : put_stake 7 staking_2 = (Ok tt, staking_3).
Proof. unfold staking_3. apply (ran (put_stake 7) staking_2 tt). vm_compute. reflexivity. Qed.
Lemma staking_4_runs : put_stake 9 staking_3 = (Ok tt, staking_4).
Proof. unfold staking_4. apply (ran (put_stake 9) staking_3 tt). vm_compute. reflexivity. Qed.
Lemma staking_5_runs : Farming.on_initialize 14400 staking_4 = (Ok tt, staking_5).
Proof. unfold staking_5. apply (ran (Farming.on_initialize 14400) staking_4 tt). vm_compute. reflexivity. Qed.
Lemma staking_runs : Farming.on_initialize 15300 staking_5 = (Ok tt, staking).
Proof. unfold staking. apply (ran (Farming.on_initialize 15300) staking_5 tt). vm_compute. reflexivity. Qed.
Definition collect : M (Farming.t Ledger) DispatchError unit := Farming.get_rewards (Signed 7) 0 3 3 false.

Lemma staking_reached : farms_reached staking.
Proof.
  exists no_farms. split; [done|]. split; [vm_compute; reflexivity|].
  apply (rtc_l _ _ staking_1).
  { exact (step_register no_farms _ _ _ _ _ _ _ _ staking_1_runs). }
  apply (rtc_l _ _ staking_2).
  { exact (step_add_pool staking_1 _ 0 3 3 false 1 0 false _ ltac:(done) staking_2_runs). }
  apply (rtc_l _ _ staking_3).
  { apply (deposit_step 7 0 3 3 false (100 * token)); [vm_compute; reflexivity..|exact staking_3_runs]. }
  apply (rtc_l _ _ staking_4).
  { apply (deposit_step 9 0 3 3 false (100 * token)); [vm_compute; reflexivity..|exact staking_4_runs]. }
  apply (rtc_l _ _ staking_5).
  { apply (step_initialize _ 14400); [apply fitting_ok; vm_compute; reflexivity|exact staking_5_runs]. }
  apply rtc_once. apply (step_initialize _ 15300); [apply fitting_ok; vm_compute; reflexivity|exact staking_runs].
Qed.
Lemma staking_sound : sound staking.
Proof. exact (reached_sound staking staking_reached). Qed.
Lemma collect_runs : collect staking = (Ok tt, run collect staking).
Proof. apply (ran collect staking tt). vm_compute. reflexivity. Qed.

(** The information on [TBCD] as a reward. *)
Definition rewarding : Farming.t Ledger := run (register 5) no_farms.
Lemma denominate_runs : Farming.on_denominate 2 rewarding = (Ok tt, run (Farming.on_denominate 2) rewarding).
Proof. apply (ran (Farming.on_denominate 2) rewarding tt). vm_compute. reflexivity. Qed.
End FarmingSamples.
Import FarmingSamples.

(** ** The theorems at the examples *)

Lemma farms_cover_users_witness :
  staked pooled_tokens (pool_key 1 2 farm) (Farming.UserInfos rewarded) ≤ total_tokens_in_pool farm ∧
  staked rewards (pool_key 1 2 farm) (Farming.UserInfos rewarded) ≤ pool_rewards farm.
Proof. exact (farms_cover_users rewarded 1 2 farm rewarded_reached farm_alone). Defined.

Lemma booked_rewards_paid_witness :
  let mine := Farming.is_stake 0 1 2 true in
  ∃ s', Farming.get_rewards (Signed 9) 0 1 2 true rewarded = (Ok tt, s') ∧
    Farming.farming_ledger s' = Farming.farming_ledger (snd (payment rewarded)) ∧
    Farming.user_infos_of s' 9
    = Farming.update_where mine (Farming.set_rewards 0) (Farming.user_infos_of rewarded 9).
Proof.
  exact (booked_rewards_paid rewarded 9 0 1 2 true farm stake _ rewarded_reached farm_alone farm_of_pool
           stake_held stake_of_farm stake_rewarded payment_runs).
Defined.

Lemma unlocked_shares : shares_ok (Locker.pool unlocked).
Proof. apply (one_pool_shares _ pool); vm_compute; reflexivity. Qed.

Lemma lock_liquidity_effect_witness :
  ∃ k fee, 0 ≤ fee ≤ k ∧
    PoolXyk.locked_tokens (Locker.pool unlocked) 7 0 1 + k ≤ share (Locker.pool unlocked) pool 7 ∧
    PoolXyk.locked_tokens (Locker.pool locked) 7 0 1 = PoolXyk.locked_tokens (Locker.pool unlocked) 7 0 1 + k ∧
    share (Locker.pool locked) pool 7 = share (Locker.pool unlocked) pool 7 - fee ∧
    PoolXyk.farmed_tokens (Locker.pool locked) 7 0 1 ≤ share (Locker.pool locked) pool 7 ∧
    shares_ok (Locker.pool locked) ∧ sound (Locker.farms locked).
Proof.
  exact (lock_liquidity_effect 7 0 1 1000 token true unlocked locked pool fees unlocked_shares
           (reached_sound rewarded rewarded_reached) unlocked_properties nothing_locked
           ltac:(discriminate) ltac:(discriminate) lock_all_runs).
Defined.

Lemma relock_exceeds_share_witness :
  ∃ s2, Locker.lock_liquidity (Signed 7) 0 1 1000 Fixed.COEF true locked = (Ok tt, s2) ∧
    share (Locker.pool unlocked) pool 7 < PoolXyk.locked_tokens (Locker.pool s2) 7 0 1.
Proof.
  exact (relock_exceeds_share 7 0 1 1000 unlocked locked pool fees unlocked_shares unlocked_properties
           ltac:(discriminate) ltac:(vm_compute; reflexivity) ltac:(split; vm_compute; discriminate) lock_all_runs).
Defined.

Lemma rewards_paid_from_stakes_witness :
  let stakes (s : Farming.t Ledger) := staked pooled_tokens (0%N, 3%N, 3%N, false) (Farming.UserInfos s) in
  let left := run collect staking in
  farm_balance left 3 < stakes left ∧ stakes left = stakes staking ∧
  ∀ who amount, who ≠ farming_account → farm_balance left 3 < amount →
    fst (Farming.withdraw (Signed who) 0 3 3 amount false left) ≠ Ok tt.
Proof.
  apply (rewards_paid_from_stakes 7 0 3 staking _ staking_sound).
  - discriminate.
  - vm_compute. reflexivity.
  - vm_compute. discriminate.
  - exact collect_runs.
Defined.

Lemma readded_pool_underflows_witness :
  ∃ p, last (Farming.pools_of (run leave_farm readded) 1 2) = Some p ∧ Farming.is_active 0 true p = true ∧
    total_tokens_in_pool p = u128_max + 1 - pooled_tokens stake.
Proof.
  exact (readded_pool_underflows (Signed authority) 9 0 1 2 true 1 (token / 100) false (pooled_tokens stake)
           closed_farm readded _ readded_runs ltac:(split; vm_compute; [reflexivity|discriminate]) leave_farm_runs).
Defined.

Lemma denomination_misplaces_tokens_witness :
  let info a b c := mkTokenInfo 0 0 (token / 100) a b c team in
  let s := run (Farming.on_denominate 2) rewarding in
  Farming.TokenInfos s !! TBCD = Some (info (token / 2) (3 * token / 10) (token / 5)) ∧
  Farming.TokenInfos s !! XOR = Some (info (token / 4) (3 * token / 20) (token / 10)).
Proof.
  apply (denomination_misplaces_tokens 2 rewarding _
           (mkTokenInfo 0 0 (token / 100) (token / 2) (3 * token / 10) (token / 5) team)).
  - discriminate.
  - vm_compute. reflexivity.
  - exact denominate_runs.
Defined.
